(* ===== verification/_CoqProject ===== *)
-Q . S2P
Prelude.v
TlbCore.v
TraceFormat.v
TlbSim.v
TlbSimFacts.v
TlbSimLru.v
TraceFiles.v
TlbTrace.v
TlbTraceFacts.v
SoftTlb.v
ArmCpu.v
ArmMode.v
ArmModeFacts.v
ArmMmu.v
ArmMmuFacts.v
GetPtes.v
ArmCp15.v
ArmCp15Facts.v
ArmExc.v
ArmExcFacts.v
PhysMem.v
PhysMemFacts.v
RamBlocks.v
MemMap.v
MemMapFacts.v
MemMapRegister.v
GuestRam.v
MapMem.v
MapMemFacts.v
DebugPoints.v
SoftMmu.v
SoftMmuFacts.v
TbLists.v
TransBlocks.v
TransBlocksFacts.v
TbSmc.v
TbLink.v
TbFind.v
TbCoherence.v
TbCorrect.v
TbStore.v
ArmAlu.v
ArmAluFacts.v
GuestOps.v
Machine.v
TraceCalls.v
MachineFacts.v
MachineInv.v
Tcg.v
TcgFacts.v
TransArm.v
TransArmFacts.v
DisasArm.v
DisasArmFacts.v
TcgSafe.v
TransArmSafe.v
DisasArmSafe.v
DisasArmBlock.v
TransMachine.v
