(* ===== verification/Prelude.v ===== *)
(** * TLB Analyzer: a verification development

    TLB Analyzer measures address translation.  A tracer ([src/tlb_trace.c])
    hooked into a QEMU for ARM guests ([src/qemu]) passes every guest memory
    reference of user mode through a software TLB and writes one record per
    miss; a simulator ([src/tlb_sim.c], [src/main.c]) replays the trace files
    on nested TLBs and page walk caches and prints hits, misses and memory
    accesses.

    ** The program and the files

    - [TlbCore]: the TLB entry, the flush macros and the LRU search loop that
      [tlb_trace.c] repeats once and [tlb_sim.c] five times.
    - [TraceFormat]: the four-word records of a trace file.
    - [TlbSim]: the globals of [tlb_sim.c] as [sim_state]; each [tlbtrace_*]
      lookup, each [emulate_*] record, each [tlbsim_sim_*] file.
    - [TraceFiles]: [list_trace_files], [tlbsim_sim] and [main].
    - [TlbTrace]: the globals of [tlb_trace.c] and the disk as [tracer]; every
      entry point of [tlb_trace.h] without [USE_QEMU].
    - [GetPtes]: the part of [tlb_trace.c] under [USE_QEMU]: the page-table
      walker and the references from translated code; state [traced], a CPU and
      a tracer.
    - [SoftTlb]: QEMU's software TLB and the RAM blocks behind it
      ([qemu/exec.c], [exec-all.h], [cpu-all.h], [cpu-defs.h]).
    - [RamBlocks]: allocation and freeing of RAM blocks, with the invariant
      [ram_wf] of the block list.
    - [MemMap]: the physical memory map: the tables of I/O handlers, page
      descriptors, [cpu_register_physical_memory_log] and subpages, and which
      handler an access reaches ([phys_access]); all of it [qemu/exec.c].
      [MemMapFacts] has the invariant [map_wf] and what a registered page does,
      [MemMapRegister] whole registrations, [GuestRam] RAM that is allocated
      and registered.
    - [MapMem]: host pointers to guest memory ([cpu_physical_memory_map] and
      [_unmap] with the bounce buffer and map clients), writes to ROM, access by
      virtual address for a debugger.
    - [DebugPoints]: watchpoints, which work through [SoftTlb], and breakpoints.
    - [ArmCpu], [ArmMode], [ArmMmu], [ArmCp15], [ArmExc]: the ARM CPU of
      [qemu/target-arm/helper.c] and [cpu.h]: state, models and reset; status
      registers and modes; translation and faults; the system control
      coprocessor, whose TLB maintenance also reaches the tracer; exceptions.
    - [PhysMem]: loads, stores and transfers by guest physical address
      ([qemu/exec.c]); its loads are what the page-table walks read.
    - [SoftMmu]: guest loads and stores ([qemu/softmmu_template.h],
      [softmmu_header.h]): the fast path, the refill through [tlb_fill] and
      [cpu_arm_handle_mmu_fault], I/O, splits, and the call of the tracer.
    - [TransBlocks]: translated blocks ([qemu/exec.c], [exec-all.h],
      [cpu-exec.c]): the table of blocks, the lists through it (by physical hash,
      by guest page, by chained jump), allocation, lookup, linking, chaining,
      unchaining, invalidation of modified code, flushing, write protection.
      [TbLists] has the linked lists threaded through a map of pointer fields.
    - [TransBlocksFacts], [TbSmc], [TbLink], [TbFind], [TbCoherence]: the abstract
      state [blocks] (live blocks, chained jumps), the invariant [tbs_wf] that
      relates it to the lists, and what each operation does to it: invalidation
      and unchaining; bitmaps and modified code; linking and flushing; lookup and
      generation; the transition system [tb_step] with the software TLB.
      [TbCorrect] and [TbStore] hold the theorems.
    - [GuestOps]: what translated code does to this state: the loads and stores
      the code generator inlines ([qemu/tcg/i386/tcg-target.c]), NEON structure
      accesses and the other helpers of [qemu/target-arm/op_helper.c]; a block is
      a list of these operations ([gop]).
    - [Machine]: the execution loop [cpu_exec] ([qemu/cpu-exec.c]) and a session:
      executions, interrupt requests and switches of the tracer in any order.
    - [ArmAlu]: saturating, flag-setting and parallel arithmetic, shifts and the
      floating-point status register ([op_helper.c], [helper.c], [op_addsub.h]).
    - [Tcg]: the intermediate code ([qemu/tcg/tcg-op.h], [tcg.c]): operations,
      the buffer, temporaries and labels they are emitted with ([gen], a state
      monad on [gctx]), and what they do to the machine of [SoftMmu] ([run_ops]).
    - [TransArm], [DisasArm]: the translator of ARM code
      ([qemu/target-arm/translate.c]): the generators, [disas_arm_insn], and
      the translation of a block ([gen_intermediate_code]).
    - [TcgFacts]: a program logic for code that emits code: [wp m Q s] says what
      the operations emitted by [m] do when they run, unless the table of
      temporaries runs out.  [TransArmFacts], [DisasArmFacts] and [DisasArmBlock]
      use it for shifts and conditions, data processing, and whole blocks.
    - [TcgSafe]: when a generator cannot fail ([gsafe m Q V N K P]): temporaries in
      use by their type, room in the buffer, credit for labels, room for more
      temporaries; a specification per generator ([Spec], found by instance).
      [TransArmSafe] and [DisasArmSafe] give the specifications of the
      translator's generators and of the decoder; [DisasArmBlock] combines them
      with [wp].
    - [TransMachine]: the machine with chains of translated ARM blocks.
    - [TraceCalls]: the tracer as the machine uses it, a sequence of calls; the
      specification between [TlbTrace] and [MachineFacts].

    A file [XFacts] (and [TlbSimLru] for [TlbSim], [MachineInv] for [Machine])
    holds the theorems on [X]; small components carry theirs in the same file.

    ** How code becomes definitions

    Integers are [Z]; the wrap-around of a [w]-bit variable is written out with
    [u8] ... [u64] and [s8] ... [s32] of this file.  C's global variables are the
    fields of one record per component, an assignment is [s <| field := v |>],
    in the order of the code.  Code that can fail returns [res]: a value or the
    [fault] that ends the program (an access outside an array, a null pointer, a
    division by zero, [abort], use after [free], a loop that does not end).
    Loops are recursive functions with fuel; running out of fuel is the fault
    [Diverges], and the theorems prove that the fuel given is enough: the search
    loop gets one more round than the TLB has entries, the transfer loop of
    [PhysMem] one round per byte, the refill loop of [SoftMmu] one refill, the
    loops over a list of blocks one round more than memory has pointers, the
    registration loop a round per page, the mapping loop a round per byte; the
    fuel of [cpu_notify_map_clients], whose callbacks may register clients for
    ever, is an argument.
    Calls out of the program are interfaces: the page-table callback of the
    tracer is a function, physical loads are the class [PhysRead] (implemented
    by [PhysMem]), devices [IoPorts] (in [MemMapFacts] built from the handler
    tables), the callbacks of map clients [MapCallbacks], the interrupt
    controller [Nvic], host services [Semihosting], code invalidation [TbCache].

    ** What is proved

    - Simulator: every simulation with a legal geometry ends without a fault;
      its counters balance; a fully associative cache is an ideal LRU cache;
      one independent row per selected file, in order.
    - Tracer: one record per counted miss, in order, whatever the callback
      does (the miss at which the process exits is counted, not recorded); with a
      fully associative TLB and fewer than 2^32 references a session read back by
      the simulator's loop is the misses of an ideal LRU TLB; flushes remove
      exactly what they name.
    - Sessions: after any execution of the machine the trace file holds one
      record per counted miss, in the order of the reported references; every
      reachable state has a well-formed software TLB and a consistent trace,
      nothing loops for ever and the tracer can be switched on and off.
    - Guest accesses: each that goes through the softmmu functions is reported
      to the tracer exactly once, each inlined hit is not; an access ends after
      at most one refill per probe; what is stored is loaded.
    - Memory map: a device that registers a range gets exactly the accesses to
      it, on whole, partial and shared pages, and every other access goes where
      it went; RAM that is allocated and registered is readable and writable at
      its addresses and overlaps no other block; mapping guest memory, using the
      pointer and unmapping is what [cpu_physical_memory_rw] does.  The
      hypotheses leave out what the code gets wrong: ranges that start inside a
      page and run into one page more than their rounded size, subpages over
      RAM, pages registered twice, mappings that leave their page unaligned (the
      Examples of [MemMapRegister] and [MapMemFacts] show each), and mappings
      over two blocks of RAM that are neighbours in host memory.
    - Coherence: no coprocessor write leaves translations made under another
      system control register, domain access register, process id or context id
      (the bases of the page tables are written without a flush); maintenance of
      the TLB by opcode 0, 1 or 2 reaches both TLBs, by opcode 3 the software TLB
      only; without a protection unit the miss handler makes the access hit or
      reports the abort; the tracer's page-table walk agrees with the MMU's.
    - Translated blocks: on well-formed lists no operation faults or loops, and
      each is the operation on sets of blocks and maps of jumps it stands for; a
      modification removes exactly the blocks with code among the bytes, on the
      fast path too, and a store through the not-dirty handler of [SoftMmu] with
      it; an interrupt unchains all blocks the running one can reach, unless that
      was invalidated while it runs ([TbCorrect.invalidated_block_jumps_on]); lookup ends
      with a block made for the CPU state; no page that the software TLB lets
      code store to directly holds code of a live block.  The invariant excludes
      a block whose two virtual pages are one physical page: the code puts it on
      one list twice and then faults ([TbCorrect.same_page_twice_faults]).
    - Translated code: the operations emitted for a block of data-processing
      instructions and branches, each under its condition, report every
      instruction, do what the architecture manual gives the instructions one
      after the other, and leave the block for the address that follows; a
      block has at most 256 instructions, so its labels never run out, nor do
      its temporaries, which every instruction that goes on gives back.
    - Translation: the decoder translates every ARM instruction without a fault
      (but for the encodings [decodable] leaves out: those of the decoders that
      are not modelled, and the few it mishandles); the operations of a block
      fit into the buffer, and its temporaries into their table.  What such a block does is what some operations of
      [GuestOps] do, so that the theorems on sessions hold for the machine that
      runs translated ARM code.
    - CPU: status register, mode switch and exception entry and return are
      round trips; all CPU models reset to a well-formed state; the arithmetic
      helpers are the architecture's [AddWithCarry] and [Shift_C], clamp exact
      results, and compute parallel lanes one by one.
    - Where the code does not do what it means to, a theorem shows the
      behaviour it has (a victim outside its set, an endless loop with more
      ways than entries, the wrap of the 32-bit stamps, and others).

    ** Configuration and what is not modelled

    [USE_QEMU] and [CONFIG_ANDROID] on, [CONFIG_USER_ONLY], [CONFIG_MEMCHECK],
    [CONFIG_KQEMU] and instruction counting off; little-endian host and guest, 64-bit
    host pointers, one CPU.  Messages to [stderr] and the formatting of the
    printed table are left out; semihosting and the debugger are off in
    [Machine], whose CPU has an MMU (the v7-M exception model is in [ArmExc]); KVM and
    [-mem-path] are off.
    Not modelled: [check_watchpoint] and single stepping, which restart the
    execution loop; the decoders of Thumb, NEON, VFP, iwMMXt and coprocessor
    instructions (parameters of [DisasArm]) and the host code of a block
    ([Machine] runs arbitrary lists of the operations of [GuestOps],
    [TransMachine] the intermediate code of arbitrary ARM blocks, and
    [TransBlocks] takes from the generator the sizes and jump offsets of a
    block), precise self-modifying code, which
    ARM does not use, VFP, NEON and iwMMXt arithmetic, device models, the memory
    checker, the Android front end, and the i386 target, which has no tracer.

    This file: record update, C's operators, the error monad, fixed-width
    integers, arrays, and the lemmas and tactics all files share. *)
From stdpp Require Export base tactics list numbers strings gmap sorting.
From Stdlib Require Import Lia.
#[global] Open Scope Z_scope.

(** ** Functional record update

    C code assigns struct fields one at a time.  [r <| f := v |>] is the
    record [r] with field [f] replaced by [v].  A record opts in with its
    eta-expansion and one [Setter] instance per assigned field. *)
Class Setter {R T : Type} (get : R → T) := set_field : T → R → R.
Arguments set_field {R T} get {_} _ _.

Ltac derive_setter eta get :=
  let v := fresh "v" in
  let r := fresh "r" in
  unfold Setter; intros v r;
  let body := eval cbv beta delta [eta] in (eta r) in
  lazymatch eval pattern (get r) in body with
  | ?F _ => let out := eval cbv beta in (F v) in exact out
  end.

Declare Scope c_scope.
Delimit Scope c_scope with c.
#[global] Open Scope c_scope.

#[warnings="-postfix-notation-not-level-1"]
Notation "r <| f := v |>" := (set_field f v r)
  (at level 12, left associativity, f at level 9,
   format "r  <| f  :=  v |>") : c_scope.

(** C's bit operators on integers; [.&], [.|] and [.^] are the C operators
    without their precedences, so the models parenthesise as needed. *)
Notation "a .& b" := (Z.land a b) (at level 36, left associativity) : c_scope.
Notation "a .| b" := (Z.lor a b) (at level 38, left associativity) : c_scope.
Notation "a .^ b" := (Z.lxor a b) (at level 37, left associativity) : c_scope.
Notation "a >> n" := (Z.shiftr a n) (at level 33, left associativity) : c_scope.
Notation "a << n" := (Z.shiftl a n) (at level 33, left associativity) : c_scope.

(** ** Outcomes of C code

    Every model of fallible code returns [res A]: a value, or the fault that
    stops the C program (undefined behaviour, abort, exit, or a loop that
    does not end). *)
Inductive fault : Type :=
| OutOfBounds             (** an array access outside the array *)
| NullPointer             (** a null pointer is dereferenced *)
| DivByZero               (** integer division by zero *)
| Diverges                (** the loop bound of the model is exhausted *)
| OutOfMemory             (** malloc returned NULL and the code gives up *)
| Aborted (why : string)  (** abort() or cpu_abort() *)
| UseAfterFree            (** a freed block is read or freed again *)
| BadIndirectCall.        (** a call through a wild function pointer *)

#[export] Instance fault_eq_dec : EqDecision fault.
Proof. solve_decision. Defined.

Inductive res (A : Type) : Type :=
| Ok (a : A)
| Err (f : fault).
Arguments Ok {A} a.
Arguments Err {A} f.

#[export] Instance res_ret : MRet res := λ A a, Ok a.
#[export] Instance res_bind : MBind res := λ A B k m,
  match m with Ok a => k a | Err f => Err f end.

#[export] Instance res_eq_dec `{EqDecision A} : EqDecision (res A).
Proof. solve_decision. Defined.

Definition is_ok {A} (m : res A) : bool :=
  match m with Ok _ => true | Err _ => false end.

Definition from_option_res {A} (f : fault) (o : option A) : res A :=
  match o with Some a => Ok a | None => Err f end.

Lemma bind_Ok {A B} (m : res A) (k : A → res B) (b : B) :
  m ≫= k = Ok b ↔ ∃ a, m = Ok a ∧ k a = Ok b.
Proof.
  destruct m as [a|f]; cbn; split.
  - eauto.
  - by intros (? & [= ->] & ?).
  - done.
  - by intros (? & ? & _).
Qed.

Lemma bind_ret {A B} (a : A) (k : A → res B) : Ok a ≫= k = k a.
Proof. done. Qed.

(** Splits every successful bind of the context into its two halves. *)
Ltac inv_res :=
  repeat match goal with
  | H : _ ≫= _ = Ok _ |- _ =>
      apply bind_Ok in H; destruct H as (? & ? & H)
  | H : mret _ = Ok _ |- _ => injection H as H
  | H : Ok _ = Ok _ |- _ => injection H as H
  | H : Err _ = Ok _ |- _ => discriminate H
  | H : (_, _) = (_, _) |- _ => injection H as H; try subst
  end; simplify_eq.

(** ** Machine integers: values are mathematical integers, conversions wrap *)
Definition u8 (x : Z) : Z := x mod 2 ^ 8.
Definition u16 (x : Z) : Z := x mod 2 ^ 16.
Definition u32 (x : Z) : Z := x mod 2 ^ 32.
Definition u64 (x : Z) : Z := x mod 2 ^ 64.

(** Two's-complement reading of the low [w] bits. *)
Definition sext (w x : Z) : Z :=
  let y := x mod 2 ^ w in if y <? 2 ^ (w - 1) then y else y - 2 ^ w.
Definition s8 (x : Z) : Z := sext 8 x.
Definition s16 (x : Z) : Z := sext 16 x.
Definition s32 (x : Z) : Z := sext 32 x.

Definition is_u32 (x : Z) : Prop := 0 ≤ x < 2 ^ 32.
#[export] Instance is_u32_dec x : Decision (is_u32 x).
Proof. unfold is_u32. apply _. Defined.

(** C's truth values. *)
Definition truth (x : Z) : bool := negb (x =? 0).
Definition of_bool (b : bool) : Z := if b then 1 else 0.

Lemma u32_bound x : is_u32 (u32 x).
Proof. unfold is_u32, u32. apply Z.mod_pos_bound. lia. Qed.

Lemma u32_small x : is_u32 x → u32 x = x.
Proof. unfold is_u32, u32. apply Z.mod_small. Qed.

Lemma u64_small x : 0 ≤ x < 2 ^ 64 → u64 x = x.
Proof. apply Z.mod_small. Qed.

Lemma u64_bound x : 0 ≤ u64 x < 2 ^ 64.
Proof. apply Z.mod_pos_bound. lia. Qed.

Lemma u64_add_l x y : u64 (u64 x + y) = u64 (x + y).
Proof. apply Zplus_mod_idemp_l. Qed.

Lemma u64_add_r x y : u64 (x + u64 y) = u64 (x + y).
Proof. apply Zplus_mod_idemp_r. Qed.

Lemma u64_mul_r x y : u64 (x * u64 y) = u64 (x * y).
Proof. apply Zmult_mod_idemp_r. Qed.

Lemma u64_idem x : u64 (u64 x) = u64 x.
Proof. apply u64_small, u64_bound. Qed.

(** Closes congruences modulo 2^64. *)
Ltac solve_u64 :=
  unfold u64; change (2 ^ 64) with 18446744073709551616;
  intros; Z.div_mod_to_equations; lia.

(** Masking with a non-negative mask stays within the mask. *)
Lemma land_mask_bound x m : 0 ≤ m → 0 ≤ x .& m ≤ m.
Proof.
  intros Hm. split; [apply Z.land_nonneg; lia|].
  rewrite Z.land_comm. apply Z.ldiff_le; [done|].
  apply Z.bits_inj'. intros n Hn.
  rewrite Z.ldiff_spec, Z.land_spec, Z.bits_0.
  by destruct (Z.testbit m n), (Z.testbit x n).
Qed.

Lemma s32_small x : 0 ≤ x < 2 ^ 31 → s32 x = x.
Proof.
  intros Hx. unfold s32, sext. rewrite Z.mod_small by lia.
  by rewrite (proj2 (Z.ltb_lt _ _)) by (cbn; lia).
Qed.

Lemma u32_idem x : u32 (u32 x) = u32 x.
Proof. apply u32_small, u32_bound. Qed.

(** ** Arrays indexed by C integers *)
Section arrays.
Context {A : Type}.
Implicit Types (l : list A) (i : Z) (x : A).

Definition zlookup l i : option A :=
  if 0 <=? i then l !! Z.to_nat i else None.

Definition zinsert i x l : list A :=
  if 0 <=? i then <[Z.to_nat i := x]> l else l.

(** [l[i]] and [l[i] = x], with the out-of-range case explicit. *)
Definition aget l i : res A := from_option_res OutOfBounds (zlookup l i).
Definition aput l i x : res (list A) :=
  match zlookup l i with
  | Some _ => Ok (zinsert i x l)
  | None => Err OutOfBounds
  end.

Definition zlength l : Z := Z.of_nat (length l).

Lemma zlookup_Some_range l i x : zlookup l i = Some x → 0 ≤ i < zlength l.
Proof.
  unfold zlookup, zlength. destruct (Z.leb_spec 0 i); [|done].
  intros ?%lookup_lt_Some. lia.
Qed.

Lemma zlookup_in_range l i : 0 ≤ i < zlength l → ∃ x, zlookup l i = Some x.
Proof.
  unfold zlookup, zlength. intros [Hi Hl]. rewrite (proj2 (Z.leb_le _ _) Hi).
  apply lookup_lt_is_Some_2. lia.
Qed.

Lemma zlength_zinsert i x l : zlength (zinsert i x l) = zlength l.
Proof. unfold zlength, zinsert. case_match; [|done]. by rewrite length_insert. Qed.

Lemma zlookup_zinsert l i x :
  0 ≤ i < zlength l → zlookup (zinsert i x l) i = Some x.
Proof.
  unfold zlookup, zinsert, zlength. intros [Hi Hl].
  rewrite (proj2 (Z.leb_le _ _) Hi). apply list_lookup_insert_eq. lia.
Qed.

Lemma zlookup_zinsert_ne l i j x :
  i ≠ j → zlookup (zinsert i x l) j = zlookup l j.
Proof.
  unfold zlookup, zinsert. intros Hne.
  destruct (Z.leb_spec 0 j); [|done].
  destruct (Z.leb_spec 0 i); [|done].
  apply list_lookup_insert_ne. lia.
Qed.

Lemma zlookup_elem l i x : zlookup l i = Some x → x ∈ l.
Proof.
  unfold zlookup. case_match; [|done]. intros Hl.
  by apply list_elem_of_lookup_2 in Hl.
Qed.

Lemma elem_zlookup l x : x ∈ l → ∃ i, zlookup l i = Some x.
Proof.
  intros [n Hn]%list_elem_of_lookup. exists (Z.of_nat n). unfold zlookup.
  rewrite (proj2 (Z.leb_le _ _)) by lia. by rewrite Nat2Z.id.
Qed.

Lemma aput_Ok l i x : 0 ≤ i < zlength l → aput l i x = Ok (zinsert i x l).
Proof. intros H. unfold aput. by destruct (zlookup_in_range l i H) as [? ->]. Qed.

Lemma aget_Ok l i x : zlookup l i = Some x → aget l i = Ok x.
Proof. unfold aget. by intros ->. Qed.

Lemma zlookup_zinsert_dec l i j x :
  0 ≤ i < zlength l →
  zlookup (zinsert i x l) j = if decide (i = j) then Some x else zlookup l j.
Proof.
  intros Hi. case_decide as E.
  - subst. by apply zlookup_zinsert.
  - by apply zlookup_zinsert_ne.
Qed.

(** An in-range slot splits the array, and assignment rewrites the middle. *)
Lemma zlookup_split l i x :
  zlookup l i = Some x →
  ∃ l1 l2, l = l1 ++ x :: l2 ∧ ∀ y, zinsert i y l = l1 ++ y :: l2.
Proof.
  unfold zlookup, zinsert. case_match; [|done]. intros Hx.
  exists (take (Z.to_nat i) l), (drop (S (Z.to_nat i)) l). split.
  - by rewrite take_drop_middle.
  - intros y. apply insert_take_drop. by eapply lookup_lt_Some.
Qed.
End arrays.

Lemma zlookup_map {A B} (f : A → B) (l : list A) i :
  zlookup (map f l) i = f <$> zlookup l i.
Proof.
  unfold zlookup. destruct (0 <=? i); [|done].
  change (map f l) with (f <$> l). apply list_lookup_fmap.
Qed.

(** ** Sorted lists *)
Lemma StronglySorted_remove_mid {A} (R : A → A → Prop) l1 x l2 :
  StronglySorted R (l1 ++ x :: l2) → StronglySorted R (l1 ++ l2).
Proof.
  induction l1 as [|y l1 IH]; cbn; intros Hs.
  - by apply StronglySorted_inv in Hs as [? _].
  - apply StronglySorted_inv in Hs as [Hs Hf]. constructor; [auto|].
    apply Forall_app in Hf as [? [_ ?]%Forall_cons]. by apply Forall_app.
Qed.

(** In a strictly sorted list an element below all the others is last. *)
Lemma StronglySorted_min_last {A} (R : A → A → Prop) l1 x l2 :
  StronglySorted R (l1 ++ x :: l2) → (∀ y, y ∈ l2 → ¬ R x y) → l2 = [].
Proof.
  intros Hs Hmin. destruct l2 as [|y l2]; [done|exfalso].
  assert (StronglySorted R (x :: y :: l2)) as Hs'.
  { clear Hmin. induction l1 as [|z l1 IH]; [done|].
    by apply StronglySorted_inv in Hs as [? _]; auto. }
  apply StronglySorted_inv in Hs' as [_ Hf]. rewrite Forall_cons in Hf.
  apply (Hmin y); [by left|]. by destruct Hf.
Qed.

Lemma list_filter_id {A} (P : A → Prop) `{∀ x, Decision (P x)} (l : list A) :
  (∀ x, x ∈ l → P x) → filter P l = l.
Proof.
  induction l as [|x l IH]; intros Hall; [done|].
  rewrite filter_cons_True by (apply Hall; by left).
  rewrite IH; [done|]. intros y Hy. apply Hall. by right.
Qed.

Create HintDb zarr.
Create Rewrite HintDb zarr.
#[export] Hint Resolve zlookup_in_range zlookup_Some_range zlookup_elem : zarr.
#[export] Hint Rewrite @zlength_zinsert : zarr.
