(* ===== verification/TlbCore.v ===== *)
(** * The software TLB shared by the tracer and the simulator

    [tlb_trace.c] and [tlb_sim.c] declare the same [struct TLB_ENTRY] and
    search it with the same loop, written out once per cache.  This file
    models the entry, the flush macros and the loop; the two components
    instantiate it.  The theorems say when the loop ends, which slot it
    chooses, and that a fully associative cache is an LRU cache. *)
From S2P Require Import Prelude.

(** ** Data *)
Record TLB_ENTRY := mkTLB_ENTRY {
  va : Z;      (** virtual address, unsigned int *)
  pa : Z;      (** physical address, unsigned int, never used *)
  asid : Z;    (** address space identifier, unsigned int *)
  ts : Z       (** time stamp of the last use, unsigned int *)
}.
Definition eta_TLB_ENTRY (e : TLB_ENTRY) : TLB_ENTRY :=
  mkTLB_ENTRY (va e) (pa e) (asid e) (ts e).
#[export] Instance set_va : Setter va := ltac:(derive_setter eta_TLB_ENTRY va).
#[export] Instance set_asid : Setter asid := ltac:(derive_setter eta_TLB_ENTRY asid).
#[export] Instance set_ts : Setter ts := ltac:(derive_setter eta_TLB_ENTRY ts).
#[export] Instance TLB_ENTRY_eq_dec : EqDecision TLB_ENTRY.
Proof. solve_decision. Defined.

Record TLB_COUNTER := mkTLB_COUNTER { hit : Z; miss : Z }.
Definition eta_TLB_COUNTER (c : TLB_COUNTER) : TLB_COUNTER :=
  mkTLB_COUNTER (hit c) (miss c).
#[export] Instance set_hit : Setter hit := ltac:(derive_setter eta_TLB_COUNTER hit).
#[export] Instance set_miss : Setter miss := ltac:(derive_setter eta_TLB_COUNTER miss).
#[export] Instance TLB_COUNTER_eq_dec : EqDecision TLB_COUNTER.
Proof. solve_decision. Defined.

(** ** The flush macros

    The three macros run over [0 .. size-1] and reset the entries they
    select; [pa] is left alone. *)
Definition invalid_va : Z := 0xFFFFFFFF.

Definition reset_entry (e : TLB_ENTRY) : TLB_ENTRY :=
  e <| va := invalid_va |> <| asid := 0 |> <| ts := 0 |>.

Fixpoint flush_loop (fuel : nat) (idx size : Z) (sel : TLB_ENTRY → bool)
    (tlb : list TLB_ENTRY) : res (list TLB_ENTRY) :=
  match fuel with
  | O => Err Diverges
  | S fuel' =>
      if idx <? size then
        e ← aget tlb idx;
        tlb' ← (if sel e then aput tlb idx (reset_entry e) else Ok tlb);
        flush_loop fuel' (idx + 1) size sel tlb'
      else Ok tlb
  end.

Definition FLUSH_TLB (tlb : list TLB_ENTRY) (size : Z) : res (list TLB_ENTRY) :=
  flush_loop (S (Z.to_nat size)) 0 size (λ _, true) tlb.

Definition FLUSH_TLB_ENTRY (tlb : list TLB_ENTRY) (size _va _asid : Z) :
    res (list TLB_ENTRY) :=
  flush_loop (S (Z.to_nat size)) 0 size
    (λ e, negb (negb (va e =? _va) || negb (asid e =? _asid))) tlb.

Definition FLUSH_TLB_ASID (tlb : list TLB_ENTRY) (size _asid : Z) :
    res (list TLB_ENTRY) :=
  flush_loop (S (Z.to_nat size)) 0 size
    (λ e, negb (negb (asid e =? _asid))) tlb.

Definition INIT_TLB (tlb : list TLB_ENTRY) (size : Z) (cnt : TLB_COUNTER) :
    res (list TLB_ENTRY * TLB_COUNTER) :=
  tlb' ← FLUSH_TLB tlb size;
  Ok (tlb', cnt <| hit := 0 |> <| miss := 0 |>).

(** ** The search loop

    [for (i = start; i < max; i += step)]: stop at the first entry that
    matches, remember the entry with the smallest time stamp below [mts]. *)
Inductive found : Type :=
| Hit (i : Z)
| Victim (mi : Z).

Fixpoint scan (fuel : nat) (tlb : list TLB_ENTRY) (same : TLB_ENTRY → bool)
    (max step i mi mts : Z) : res found :=
  match fuel with
  | O => Err Diverges
  | S fuel' =>
      if i <? max then
        e ← aget tlb i;
        if same e then Ok (Hit i)
        else if ts e <? mts
             then scan fuel' tlb same max step (i + step) i (ts e)
             else scan fuel' tlb same max step (i + step) mi mts
      else Ok (Victim mi)
  end.

(** [int i, mi = 0; unsigned int mts = tlb[0].ts; for (...)] *)
Definition tlb_lookup (tlb : list TLB_ENTRY) (same : TLB_ENTRY → bool)
    (start max step : Z) : res found :=
  e0 ← aget tlb 0;
  scan (S (Z.to_nat max)) tlb same max step start 0 (ts e0).

(** The whole lookup: on a hit the entry is stamped, on a miss the chosen
    entry is refilled and stamped; [systs] is 64 bits wide, [ts] 32. *)
Definition tlb_access (same : TLB_ENTRY → bool) (fill : TLB_ENTRY → TLB_ENTRY)
    (start max step : Z) (tlb : list TLB_ENTRY) (cnt : TLB_COUNTER) (systs : Z) :
    res (Z * (list TLB_ENTRY * TLB_COUNTER * Z)) :=
  f ← tlb_lookup tlb same start max step;
  let now := u64 (systs + 1) in
  match f with
  | Hit i =>
      e ← aget tlb i;
      tlb' ← aput tlb i (e <| ts := u32 now |>);
      Ok (1, (tlb', cnt <| hit := u64 (hit cnt + 1) |>, now))
  | Victim mi =>
      e ← aget tlb mi;
      tlb' ← aput tlb mi ((fill e) <| ts := u32 now |>);
      Ok (0, (tlb', cnt <| miss := u64 (miss cnt + 1) |>, now))
  end.

(** ** What the loop visits and which slot it returns *)
Definition in_set (start max step j : Z) : Prop :=
  start ≤ j < max ∧ (step | j - start).

Lemma in_set_start start max step : start < max → in_set start max step start.
Proof. split; [lia|]. rewrite Z.sub_diag. apply Z.divide_0_r. Qed.

(** The visited slots are the first one and those visited from the next. *)
Lemma in_set_step start max step j :
  0 < step →
  in_set start max step j ↔
  (j = start ∧ start < max) ∨ in_set (start + step) max step j.
Proof.
  intros Hs. unfold in_set. split.
  - intros [Hr [k Hk]]. destruct (decide (k = 0)) as [->|Hk0]; [left; lia|].
    right. split; [nia|]. exists (k - 1). lia.
  - intros [[-> Hl]|[Hr [k Hk]]].
    + split; [lia|]. exists 0. lia.
    + split; [lia|]. exists (k + 1). lia.
Qed.

Lemma in_set_one start max j : in_set start max 1 j ↔ start ≤ j < max.
Proof. unfold in_set. split; [tauto|]. intros. split; [done|apply Z.divide_1_l]. Qed.

(** The slot returned by [scan] when it starts with candidate [mi]. *)
Definition scan_post (tlb : list TLB_ENTRY) (same : TLB_ENTRY → bool)
    (max step i mi mts : Z) (f : found) : Prop :=
  let visited j e := in_set i max step j ∧ zlookup tlb j = Some e in
  match f with
  | Hit j => ∃ e, visited j e ∧ same e = true
  | Victim m =>
      (∀ j e, visited j e → same e = false) ∧
      ((m = mi ∧ ∀ j e, visited j e → mts ≤ ts e) ∨
       (∃ em, visited m em ∧ ts em < mts ∧
          ∀ j e, visited j e → ts em ≤ ts e))
  end.

Lemma scan_ok fuel tlb same max step i mi mts :
  0 < step → 0 ≤ i → max ≤ zlength tlb → Z.max 0 (max - i) < Z.of_nat fuel →
  ∃ f, scan fuel tlb same max step i mi mts = Ok f.
Proof.
  intros Hs. revert i mi mts.
  induction fuel as [|fuel IH]; intros i mi mts Hi Hm Hf; cbn [scan].
  - lia.
  - destruct (Z.ltb_spec i max); [|by eexists].
    destruct (zlookup_in_range tlb i) as [e He]; [lia|].
    rewrite (aget_Ok _ _ _ He). cbn. case_match; [by eexists|].
    case_match; apply IH; lia.
Qed.

Lemma scan_spec fuel tlb same max step i mi mts f :
  0 < step →
  scan fuel tlb same max step i mi mts = Ok f →
  scan_post tlb same max step i mi mts f.
Proof.
  intros Hs. revert i mi mts.
  induction fuel as [|fuel IH]; intros i mi mts; cbn [scan]; [done|].
  destruct (Z.ltb_spec i max) as [Hi|Hi].
  - unfold aget. destruct (zlookup tlb i) as [e|] eqn:He; cbn; [|done].
    destruct (same e) eqn:Hsame.
    { intros [= <-]. exists e. split; [split; [by apply in_set_start|done]|done]. }
    intros Hrec.
    assert (∀ j e', in_set i max step j ∧ zlookup tlb j = Some e' →
      e' = e ∨ (in_set (i + step) max step j ∧ zlookup tlb j = Some e')) as Hvis.
    { intros j e' [[[-> _]|Hj]%(in_set_step _ _ _ _ Hs) Hl]; [left; congruence|by right]. }
    assert (∀ j, in_set (i + step) max step j → in_set i max step j) as Hmono.
    { intros j Hj. apply in_set_step; auto. }
    destruct (Z.ltb_spec (ts e) mts) as [Hlt|Hge]; apply IH in Hrec;
      destruct f as [j|m]; cbn in Hrec |- *.
    + destruct Hrec as (e' & [? ?] & ?). eauto 6.
    + destruct Hrec as [Hno Hmin]. split.
      { intros j e' [->|?]%Hvis; [done|eauto]. }
      right. destruct Hmin as [[-> Hmin]|(em & [? ?] & ? & Hmin)].
      * exists e. split; [split; [by apply in_set_start|done]|].
        split; [done|]. intros j e' [->|?]%Hvis; [lia|eauto].
      * exists em. split; [eauto|]. split; [lia|].
        intros j e' [->|?]%Hvis; [lia|eauto].
    + destruct Hrec as (e' & [? ?] & ?). eauto 6.
    + destruct Hrec as [Hno Hmin]. split.
      { intros j e' [->|?]%Hvis; [done|eauto]. }
      destruct Hmin as [[-> Hmin]|(em & [? ?] & ? & Hmin)]; [left|right].
      * split; [done|]. intros j e' [->|?]%Hvis; [lia|eauto].
      * exists em. split; [eauto|]. split; [lia|].
        intros j e' [->|?]%Hvis; [lia|eauto].
  - intros [= <-]. cbn. unfold in_set. split; [intros ? ? [? _]; lia|].
    left. split; [done|]. intros ? ? [? _]; lia.
Qed.

(** ** The lookup as a whole *)
Section lookup.
Context (tlb : list TLB_ENTRY) (same : TLB_ENTRY → bool) (start max step : Z).
Context (Hstep : 0 < step) (Hstart : 0 ≤ start).
Context (Hlen : 0 < zlength tlb) (Hmax : max ≤ zlength tlb).

Lemma tlb_lookup_ok : ∃ f, tlb_lookup tlb same start max step = Ok f.
Proof.
  unfold tlb_lookup. destruct (zlookup_in_range tlb 0) as [e0 He0]; [lia|].
  rewrite (aget_Ok _ _ _ He0). cbn [mbind res_bind].
  apply scan_ok; lia.
Qed.

Lemma tlb_lookup_spec f :
  tlb_lookup tlb same start max step = Ok f →
  ∃ e0, zlookup tlb 0 = Some e0 ∧
        scan_post tlb same max step start 0 (ts e0) f.
Proof.
  unfold tlb_lookup, aget. destruct (zlookup tlb 0) as [e0|]; [|done].
  cbn [mbind res_bind from_option_res]. intros ?%scan_spec; eauto.
Qed.

(** The slot the lookup settles on is an entry of the array. *)
Lemma tlb_lookup_slot f :
  tlb_lookup tlb same start max step = Ok f →
  ∃ e, zlookup tlb (match f with Hit i => i | Victim m => m end) = Some e.
Proof.
  intros (e0 & He0 & Hp)%tlb_lookup_spec. destruct f as [i|m]; cbn in Hp.
  - destruct Hp as (e & [_ ?] & _). eauto.
  - destruct Hp as [_ [[-> _]|(em & [_ ?] & _)]]; eauto.
Qed.

Variables (fill : TLB_ENTRY → TLB_ENTRY) (cnt : TLB_COUNTER) (systs : Z).

(** What one access leaves behind, whichever slot it used. *)
Definition access_post (r : Z) (tlb' : list TLB_ENTRY) (cnt' : TLB_COUNTER)
    (now : Z) : Prop :=
  now = u64 (systs + 1) ∧ zlength tlb' = zlength tlb ∧
  ((r = 1 ∧ cnt' = cnt <| hit := u64 (hit cnt + 1) |>) ∨
   (r = 0 ∧ cnt' = cnt <| miss := u64 (miss cnt + 1) |>)).

Lemma tlb_access_ok :
  ∃ r tlb' cnt' now,
    tlb_access same fill start max step tlb cnt systs
      = Ok (r, (tlb', cnt', now)) ∧
    access_post r tlb' cnt' now.
Proof.
  destruct tlb_lookup_ok as [f Hf].
  destruct (tlb_lookup_slot f Hf) as [e He].
  unfold tlb_access. rewrite Hf, bind_ret.
  destruct f as [i|m]; rewrite (aget_Ok _ _ _ He), bind_ret;
    rewrite aput_Ok by eauto with zarr; rewrite bind_ret;
    do 4 eexists; (split; [reflexivity|]);
    unfold access_post; rewrite zlength_zinsert; auto.
Qed.
End lookup.

Lemma tlb_access_inv same fill start max step tlb cnt systs r tlb' cnt' now :
  tlb_access same fill start max step tlb cnt systs = Ok (r, (tlb', cnt', now)) →
  ∃ f e, tlb_lookup tlb same start max step = Ok f ∧ now = u64 (systs + 1) ∧
  match f with
  | Hit i => zlookup tlb i = Some e ∧ r = 1 ∧
      tlb' = zinsert i (e <| ts := u32 now |>) tlb ∧
      cnt' = cnt <| hit := u64 (hit cnt + 1) |>
  | Victim m => zlookup tlb m = Some e ∧ r = 0 ∧
      tlb' = zinsert m ((fill e) <| ts := u32 now |>) tlb ∧
      cnt' = cnt <| miss := u64 (miss cnt + 1) |>
  end.
Proof.
  unfold tlb_access. intros Ha. apply bind_Ok in Ha as (f & Hf & Ha).
  destruct f as [i|m]; unfold aget, aput in Ha;
    (destruct (zlookup tlb _) as [e|] eqn:He in Ha; [|done]);
    cbn [mbind res_bind from_option_res] in Ha;
    injection Ha as <- <- <- <-; eexists _, e; split; try done; eauto.
Qed.

(** ** The fully associative cache is an LRU cache

    Abstract specification: the keys in order of last use, newest first, cut
    to the capacity. *)
Definition lru_access {K} `{EqDecision K} (cap : nat) (k : K) (l : list K) :
    bool * list K :=
  if decide (k ∈ l) then (true, k :: filter (λ x, x ≠ k) l)
  else (false, take cap (k :: l)).

Section lru.
Context {K : Type} `{EqDecision K} (key : TLB_ENTRY → K) (bad : K).
Context (key_ts : ∀ e t, key (e <| ts := t |>) = key e).

Definition newer (a b : TLB_ENTRY) : Prop := ts b < ts a.

(** The array represents [l]: the stamped entries, newest first, carry the
    keys of [l]; unstamped entries carry the reserved key. *)
Record lru_rel (tlb : list TLB_ENTRY) (now : Z) (l : list K) : Prop := {
  lru_order : ∃ es, es ≡ₚ filter (λ e, ts e ≠ 0) tlb ∧
                    StronglySorted newer es ∧ l = key <$> es;
  lru_range : Forall (λ e, 0 ≤ ts e ≤ now) tlb;
  lru_empty : Forall (λ e, ts e = 0 → key e = bad) tlb;
  lru_nodup : NoDup l
}.

Lemma filter_ne_mid (k : K) (a b : list K) :
  NoDup (a ++ k :: b) → filter (λ x, x ≠ k) (a ++ k :: b) = a ++ b.
Proof.
  intros (Ha & Hdis & [Hk Hb]%NoDup_cons)%NoDup_app.
  rewrite filter_app, filter_cons_False by naive_solver.
  rewrite !list_filter_id; [done| |].
  { by intros x Hx ->. }
  intros x Hx ->. apply (Hdis k); [done|by left].
Qed.

Lemma StronglySorted_newer_cons e es now :
  now < ts e → Forall (λ e', ts e' ≤ now) es → StronglySorted newer es →
  StronglySorted newer (e :: es).
Proof.
  intros He Hall Hs. constructor; [done|].
  eapply Forall_impl; [exact Hall|]. unfold newer. cbn. lia.
Qed.

Section step.
Context (k : K) (same : TLB_ENTRY → bool) (fill : TLB_ENTRY → TLB_ENTRY).
Context (Hsame : ∀ e, same e = bool_decide (key e = k)).
Context (Hfill : ∀ e, key (fill e) = k) (Hgood : k ≠ bad).
Context (tlb : list TLB_ENTRY) (now : Z) (l : list K).
Context (Hrel : lru_rel tlb now l) (Hnow : 0 ≤ now) (Hwrap : now + 1 < 2 ^ 32).

(** Restamping slot [i]: its old entry [e] makes room for [e']. *)
Lemma lru_rel_replace i e e' es :
  zlookup tlb i = Some e →
  key e' = k → ts e' = now + 1 →
  es ≡ₚ filter (λ x, ts x ≠ 0) tlb →
  ∀ es', (if decide (ts e = 0) then es ≡ₚ es' else es ≡ₚ e :: es') →
  StronglySorted newer es' → NoDup (k :: (key <$> es')) →
  lru_rel (zinsert i e' tlb) (now + 1) (k :: (key <$> es')).
Proof.
  intros He Hk Ht Hes es' Hes' Hs' Hnd.
  destruct (zlookup_split _ _ _ He) as (l1 & l2 & Htlb & Hins).
  rewrite Hins. destruct Hrel as [_ Hrange Hempty _].
  rewrite Htlb in Hrange, Hempty, Hes.
  rewrite Forall_app, Forall_cons in Hrange, Hempty.
  destruct Hrange as (Hr1 & Hre & Hr2), Hempty as (Hm1 & _ & Hm2).
  assert (es' ≡ₚ filter (λ x, ts x ≠ 0) (l1 ++ l2)) as Hperm.
  { rewrite filter_app in Hes |- *. case_decide as H0.
    - rewrite filter_cons_False in Hes by tauto. by rewrite <- Hes', Hes.
    - rewrite filter_cons_True in Hes by done.
      rewrite Hes', <- Permutation_middle in Hes. by apply Permutation_cons_inv in Hes. }
  assert (Forall (λ e, 0 ≤ ts e ≤ now) (l1 ++ l2)) as Hr12 by by apply Forall_app.
  split.
  - exists (e' :: es'). split; [|split].
    + rewrite Hperm, !filter_app, filter_cons_True by (cbn; lia).
      by rewrite Permutation_middle.
    + apply (StronglySorted_newer_cons _ _ now); [lia| |done].
      rewrite Hperm. apply Forall_forall. intros x [_ Hx]%list_elem_of_filter.
      rewrite Forall_forall in Hr12. specialize (Hr12 x Hx). lia.
    + cbn. by rewrite Hk.
  - apply Forall_app. split; [|apply Forall_cons; split; [lia|]].
    + eapply Forall_impl; [exact Hr1|]. cbn. lia.
    + eapply Forall_impl; [exact Hr2|]. cbn. lia.
  - apply Forall_app. split; [done|]. apply Forall_cons. split; [lia|done].
  - done.
Qed.

(** A matching entry is stamped, and its key occurs in the list. *)
Lemma lru_hit i e :
  zlookup tlb i = Some e → same e = true →
  k ∈ l ∧ lru_rel (zinsert i (e <| ts := now + 1 |>) tlb) (now + 1)
            (k :: filter (λ x, x ≠ k) l).
Proof.
  intros He Hs. rewrite Hsame, bool_decide_eq_true in Hs.
  destruct (lru_order _ _ _ Hrel) as (es & Hes & Hsort & Hl).
  assert (ts e ≠ 0) as H0.
  { intros H0. pose proof (lru_empty _ _ _ Hrel) as Hm.
    rewrite Forall_forall in Hm. apply Hgood. rewrite <- Hs.
    apply Hm; [by eapply zlookup_elem|done]. }
  assert (e ∈ es) as Hin.
  { rewrite Hes. apply list_elem_of_filter. eauto using zlookup_elem. }
  apply list_elem_of_split in Hin as (a & b & ->).
  pose proof (lru_nodup _ _ _ Hrel) as Hnd.
  rewrite fmap_app, fmap_cons, Hs in Hl. rewrite Hl in Hnd |- *.
  rewrite filter_ne_mid, <- fmap_app by done. split; [set_solver|].
  eapply lru_rel_replace; [done|by rewrite key_ts|done|exact Hes| | |].
  - rewrite decide_False by done. by rewrite Permutation_middle.
  - by eapply StronglySorted_remove_mid.
  - by rewrite fmap_app, Permutation_middle.
Qed.

(** With no match, the entry with the least stamp makes room for [k]. *)
Lemma lru_miss m em :
  (∀ j e, zlookup tlb j = Some e → same e = false) →
  zlookup tlb m = Some em →
  (∀ j e, zlookup tlb j = Some e → ts em ≤ ts e) →
  (k ∉ l) ∧ lru_rel (zinsert m ((fill em) <| ts := now + 1 |>) tlb) (now + 1)
            (take (length tlb) (k :: l)).
Proof.
  intros Hno Hm Hmin.
  destruct (lru_order _ _ _ Hrel) as (es & Hes & Hsort & Hl).
  assert (∀ e, e ∈ es → key e ≠ k ∧ ts em ≤ ts e) as Hall.
  { intros e He. rewrite Hes in He. apply list_elem_of_filter in He as [_ He].
    apply elem_zlookup in He as [j Hj]. split; [|by eapply Hmin].
    specialize (Hno _ _ Hj). by rewrite Hsame, bool_decide_eq_false in Hno. }
  assert (k ∉ l) as Hk.
  { rewrite Hl, list_elem_of_fmap. intros (e & -> & He). by apply Hall in He as [? _]. }
  split; [done|].
  pose proof (lru_nodup _ _ _ Hrel) as Hnd.
  assert (length l = length (filter (λ e, ts e ≠ 0) tlb)) as Hlen.
  { by rewrite Hl, length_fmap, Hes. }
  destruct (decide (ts em = 0)) as [H0|H0].
  - rewrite take_ge; [|cbn; rewrite Hlen].
    + rewrite Hl in Hnd, Hk |- *. eapply lru_rel_replace;
        [done|by rewrite key_ts|done|exact Hes| |done|by constructor].
      by rewrite decide_True.
    + apply (length_filter_lt (λ e, ts e ≠ 0) tlb em); [by eapply zlookup_elem|].
      by intros [].
  - rewrite list_filter_id in Hlen.
    2:{ intros e [j Hj]%elem_zlookup. specialize (Hmin _ _ Hj).
        pose proof (lru_range _ _ _ Hrel) as Hr. rewrite Forall_forall in Hr.
        specialize (Hr em ltac:(by eapply zlookup_elem)). cbn in *. lia. }
    assert (em ∈ es) as Hin.
    { rewrite Hes. apply list_elem_of_filter. eauto using zlookup_elem. }
    apply list_elem_of_split in Hin as (a & b & ->).
    assert (b = []) as ->.
    { apply (StronglySorted_min_last newer a em); [done|]. unfold newer.
      intros y Hy. destruct (Hall y); [|lia]. apply elem_of_app. by right; right. }
    assert (length tlb = S (length (key <$> a))) as ->.
    { rewrite <- Hlen, Hl, fmap_app, length_app. cbn. lia. }
    rewrite Hl, fmap_app. cbn [take]. rewrite take_app_length.
    eapply lru_rel_replace; [done|by rewrite key_ts|done|exact Hes| | |].
    + rewrite decide_False by done. by rewrite (Permutation_app_comm a).
    + rewrite <- (app_nil_r a). by eapply StronglySorted_remove_mid.
    + rewrite Hl, fmap_app in Hnd, Hk. apply NoDup_app in Hnd as (? & _ & _).
      constructor; [|done]. intros Ha. apply Hk, elem_of_app. by left.
Qed.

(** One access of the C code is one step of the abstract LRU cache. *)
Lemma lru_step cnt r tlb' cnt' now' :
  tlb_access same fill 0 (zlength tlb) 1 tlb cnt now = Ok (r, (tlb', cnt', now')) →
  let '(h, l') := lru_access (length tlb) k l in
  r = of_bool h ∧ now' = now + 1 ∧ lru_rel tlb' now' l' ∧
  length tlb' = length tlb.
Proof.
  intros (f & e & Hf & Hn & Ha)%tlb_access_inv.
  assert (now' = now + 1) as -> by (rewrite Hn; apply u64_small; lia).
  assert (u32 (now + 1) = now + 1) as Hu.
  { apply u32_small. unfold is_u32. lia. }
  rewrite Hu in Ha.
  apply tlb_lookup_spec in Hf as (e0 & He0 & Hp); [|lia].
  assert (∀ j x, zlookup tlb j = Some x → in_set 0 (zlength tlb) 1 j) as Hall.
  { intros j x Hx. apply in_set_one. by eapply zlookup_Some_range. }
  assert (∀ i x, length (zinsert i x tlb) = length tlb) as Hlen.
  { intros i x. apply Nat2Z.inj, zlength_zinsert. }
  unfold lru_access. destruct f as [i|m]; cbn in Hp.
  - destruct Ha as (He & -> & -> & _). destruct Hp as (e' & [_ He'] & Hs).
    assert (e' = e) as -> by congruence.
    destruct (lru_hit _ _ He Hs) as [Hk Hr]. rewrite decide_True by done. auto.
  - destruct Ha as (He & -> & -> & _). destruct Hp as [Hno Hmin].
    destruct (lru_miss m e) as [Hk Hr]; [eauto|done| |].
    { destruct Hmin as [[-> Hmin]|(em & [_ Hem] & _ & Hmin)]; intros j x Hx.
      - assert (e = e0) as -> by congruence. eauto.
      - assert (em = e) as -> by congruence. eauto. }
    rewrite decide_False by done. auto.
Qed.
End step.
End lru.

(** Entries of the tracer and of the PWC are identified by address and asid. *)
Definition va_asid (e : TLB_ENTRY) : Z * Z := (va e, asid e).
Definition bad_va_asid : Z * Z := (invalid_va, 0).

Lemma va_asid_eqb e x a :
  (va e =? x) && (asid e =? a) = bool_decide (va_asid e = (x, a)).
Proof.
  unfold va_asid. destruct (Z.eqb_spec (va e) x), (Z.eqb_spec (asid e) a); symmetry;
    (apply bool_decide_eq_true_2 || apply bool_decide_eq_false_2); congruence.
Qed.

(** ** The flush macros reset exactly the selected entries *)
Definition flush_sel (sel : TLB_ENTRY → bool) (e : TLB_ENTRY) : TLB_ENTRY :=
  if sel e then reset_entry e else e.

Lemma zlookup_middle {A} (l1 : list A) x l2 :
  zlookup (l1 ++ x :: l2) (zlength l1) = Some x.
Proof.
  unfold zlookup, zlength. rewrite (proj2 (Z.leb_le _ _)) by lia.
  rewrite Nat2Z.id. by apply list_lookup_middle.
Qed.

Lemma zinsert_middle {A} (l1 : list A) x y l2 :
  zinsert (zlength l1) y (l1 ++ x :: l2) = l1 ++ y :: l2.
Proof.
  unfold zinsert, zlength. rewrite (proj2 (Z.leb_le _ _)) by lia.
  rewrite Nat2Z.id. by rewrite <- (Nat.add_0_r (length l1)), insert_app_r.
Qed.

Lemma flush_loop_prefix fuel sel l1 l2 :
  (length l2 < fuel)%nat →
  flush_loop fuel (zlength l1) (zlength (l1 ++ l2)) sel (l1 ++ l2)
  = Ok (l1 ++ (flush_sel sel <$> l2)).
Proof.
  revert l1 l2. induction fuel as [|fuel IH]; intros l1 l2 Hf; [lia|].
  cbn [flush_loop]. destruct l2 as [|e l2].
  - rewrite app_nil_r, Z.ltb_irrefl. cbn. by rewrite app_nil_r.
  - rewrite (proj2 (Z.ltb_lt _ _))
      by (unfold zlength; rewrite length_app; cbn; lia).
    unfold aget. rewrite zlookup_middle. cbn [from_option_res length] in Hf |- *.
    rewrite bind_ret.
    assert ((if sel e then aput (l1 ++ e :: l2) (zlength l1) (reset_entry e)
             else Ok (l1 ++ e :: l2)) = Ok ((l1 ++ [flush_sel sel e]) ++ l2)) as ->.
    { rewrite <- (app_assoc l1). unfold flush_sel, aput. case_match; [|done].
      by rewrite zlookup_middle, zinsert_middle. }
    rewrite bind_ret.
    assert (zlength l1 + 1 = zlength (l1 ++ [flush_sel sel e])) as ->.
    { unfold zlength. rewrite length_app. cbn. lia. }
    assert (zlength (l1 ++ e :: l2) = zlength ((l1 ++ [flush_sel sel e]) ++ l2)) as ->.
    { unfold zlength. rewrite !length_app. cbn. lia. }
    rewrite IH by lia. by rewrite <- (app_assoc l1).
Qed.

Lemma flush_loop_all sel tlb :
  flush_loop (S (Z.to_nat (zlength tlb))) 0 (zlength tlb) sel tlb
  = Ok (flush_sel sel <$> tlb).
Proof.
  apply (flush_loop_prefix _ sel [] tlb). unfold zlength. lia.
Qed.

Lemma FLUSH_TLB_spec tlb :
  FLUSH_TLB tlb (zlength tlb) = Ok (reset_entry <$> tlb).
Proof. unfold FLUSH_TLB. by rewrite flush_loop_all. Qed.

Lemma FLUSH_TLB_ENTRY_spec tlb v a :
  FLUSH_TLB_ENTRY tlb (zlength tlb) v a
  = Ok (flush_sel (λ e, (va e =? v) && (asid e =? a)) <$> tlb).
Proof.
  unfold FLUSH_TLB_ENTRY. rewrite flush_loop_all. f_equal.
  apply list_fmap_ext. intros i e _. unfold flush_sel.
  by destruct (va e =? v), (asid e =? a).
Qed.

Lemma FLUSH_TLB_ASID_spec tlb a :
  FLUSH_TLB_ASID tlb (zlength tlb) a
  = Ok (flush_sel (λ e, asid e =? a) <$> tlb).
Proof.
  unfold FLUSH_TLB_ASID. rewrite flush_loop_all. f_equal.
  apply list_fmap_ext. intros i e _. unfold flush_sel. by rewrite negb_involutive.
Qed.

(** A flushed array is the empty LRU cache. *)
Lemma lru_rel_reset {K} `{EqDecision K} (key : TLB_ENTRY → K) bad tlb :
  (∀ e, key (reset_entry e) = bad) →
  lru_rel key bad (reset_entry <$> tlb) 0 [].
Proof.
  intros Hk.
  assert (∀ e, e ∈ reset_entry <$> tlb → ts e = 0 ∧ key e = bad) as Hall.
  { intros e (e' & -> & _)%list_elem_of_fmap. by split; [|apply Hk]. }
  split.
  - exists []. split; [|split; [constructor|done]].
    clear Hall. induction tlb as [|e tlb IH]; [done|]. exact IH.
  - apply Forall_forall. intros e He. apply Hall in He. lia.
  - apply Forall_forall. intros e He _. by apply Hall in He as [_ ?].
  - constructor.
Qed.

(** ** A set that does not contain slot 0

    The candidate starts as slot 0 with slot 0's stamp, whatever set is being
    searched.  When no entry of the set is older than slot 0, the new entry
    goes to slot 0, outside its set, and the next access misses again. *)
Definition slot0_oldest (tlb : list TLB_ENTRY) (start max step : Z) : Prop :=
  ∃ e0, zlookup tlb 0 = Some e0 ∧
  ∀ j e, in_set start max step j → zlookup tlb j = Some e → ts e0 ≤ ts e.

Lemma tlb_lookup_outside_set tlb same start max step :
  0 < step → 0 < start → max ≤ zlength tlb →
  slot0_oldest tlb start max step →
  (∀ j e, in_set start max step j → zlookup tlb j = Some e → same e = false) →
  tlb_lookup tlb same start max step = Ok (Victim 0) ∧ ¬ in_set start max step 0.
Proof.
  intros Hst Hs0 Hm (e0 & He0 & Hold) Hno.
  pose proof (zlookup_Some_range _ _ _ He0).
  split; [|unfold in_set; lia].
  destruct (tlb_lookup_ok tlb same start max step) as [f Hf]; try lia.
  rewrite Hf. apply tlb_lookup_spec in Hf as (e0' & He0' & Hp); [|done].
  assert (e0' = e0) as -> by congruence. destruct f as [i|m]; cbn in Hp.
  - destruct Hp as (e & [Hi He] & Hs). by rewrite (Hno _ _ Hi He) in Hs.
  - destruct Hp as [_ [[-> _]|(em & [Hi He] & Hlt & _)]]; [done|].
    specialize (Hold _ _ Hi He). lia.
Qed.

(** Without a match in the set the access is a miss. *)
Lemma tlb_access_no_match same fill start max step tlb cnt systs r t' c' n' :
  0 < step →
  (∀ j e, in_set start max step j → zlookup tlb j = Some e → same e = false) →
  tlb_access same fill start max step tlb cnt systs = Ok (r, (t', c', n')) →
  r = 0.
Proof.
  intros Hst Hno (f & e & Hf & _ & Ha)%tlb_access_inv.
  apply tlb_lookup_spec in Hf as (e0 & _ & Hp); [|done].
  destruct f as [i|m]; [|tauto]. destruct Hp as (e' & [Hi He] & Hs).
  by rewrite (Hno _ _ Hi He) in Hs.
Qed.

Lemma slot0_double_miss same fill start max step tlb cnt systs :
  0 < step → 0 < start → max ≤ zlength tlb →
  slot0_oldest tlb start max step →
  (∀ j e, in_set start max step j → zlookup tlb j = Some e → same e = false) →
  ∃ tlb1 cnt1 now1 tlb2 cnt2 now2,
    tlb_access same fill start max step tlb cnt systs
      = Ok (0, (tlb1, cnt1, now1)) ∧
    tlb_access same fill start max step tlb1 cnt1 now1
      = Ok (0, (tlb2, cnt2, now2)).
Proof.
  intros Hst Hs0 Hm Hold Hno.
  assert (0 < zlength tlb).
  { destruct Hold as (e0 & He0 & _). apply zlookup_Some_range in He0. lia. }
  destruct (tlb_access_ok tlb same start max step Hst ltac:(lia) ltac:(lia) Hm
    fill cnt systs) as (r1 & t1 & c1 & n1 & H1 & _ & Hl1 & _).
  destruct (tlb_access_ok t1 same start max step Hst ltac:(lia) ltac:(lia)
    ltac:(lia) fill c1 n1) as (r2 & t2 & c2 & n2 & H2 & _).
  assert (r1 = 0) as -> by (by eapply tlb_access_no_match; [|exact Hno|]).
  do 6 eexists. split; [done|]. rewrite H2. do 2 f_equal.
  eapply (tlb_access_no_match _ _ start max step); [done| |exact H2].
  intros j e Hj He.
  destruct (tlb_lookup_outside_set _ same _ _ _ Hst Hs0 Hm Hold Hno) as [Hv _].
  apply tlb_access_inv in H1 as (f & e1 & Hf & _ & Hf').
  rewrite Hv in Hf. injection Hf as <-. destruct Hf' as (_ & _ & -> & _).
  rewrite zlookup_zinsert_ne in He by (unfold in_set in Hj; lia). eauto.
Qed.

(** Only the first [max] entries take part. *)
Section prefix.
Context (l1 l2 : list TLB_ENTRY) (Hpos : 0 < zlength l1).

Lemma zlookup_prefix i : i < zlength l1 → zlookup (l1 ++ l2) i = zlookup l1 i.
Proof.
  unfold zlookup, zlength. intros Hi. case_match; [|done].
  apply lookup_app_l. lia.
Qed.

Lemma zinsert_prefix i x :
  i < zlength l1 → zinsert i x (l1 ++ l2) = zinsert i x l1 ++ l2.
Proof.
  unfold zinsert, zlength. intros Hi. case_match; [|done].
  apply insert_app_l. lia.
Qed.

Lemma scan_prefix fuel same step i mi mts :
  scan fuel (l1 ++ l2) same (zlength l1) step i mi mts
  = scan fuel l1 same (zlength l1) step i mi mts.
Proof.
  revert i mi mts. induction fuel as [|fuel IH]; intros i mi mts; [done|].
  cbn [scan]. destruct (Z.ltb_spec i (zlength l1)); [|done].
  unfold aget. rewrite zlookup_prefix by done.
  destruct (zlookup l1 i); cbn; [|done]. by rewrite !IH.
Qed.

Lemma tlb_access_prefix same fill start step cnt systs :
  0 < step →
  tlb_access same fill start (zlength l1) step (l1 ++ l2) cnt systs =
  x ← tlb_access same fill start (zlength l1) step l1 cnt systs;
  let '(r, (t, c, n)) := x in Ok (r, (t ++ l2, c, n)).
Proof.
  intros Hst. unfold tlb_access.
  assert (tlb_lookup (l1 ++ l2) same start (zlength l1) step
          = tlb_lookup l1 same start (zlength l1) step) as ->.
  { unfold tlb_lookup, aget. rewrite zlookup_prefix by done.
    destruct (zlookup l1 0); [|done]. cbn [mbind res_bind from_option_res].
    apply scan_prefix. }
  destruct (tlb_lookup l1 same start (zlength l1) step) as [f|] eqn:Hf; [|done].
  rewrite !bind_ret. apply tlb_lookup_slot in Hf as [e He]; [|done].
  destruct f as [i|m]; cbn in He; unfold aget, aput;
    rewrite zlookup_prefix, He by (apply zlookup_Some_range in He; lia);
    cbn [mbind res_bind from_option_res];
    by rewrite zinsert_prefix by (apply zlookup_Some_range in He; lia).
Qed.
End prefix.
