(* ===== verification/TraceFormat.v ===== *)
(** * The trace file

    A trace file is an array of [uint32_t] written by [tlb_trace.c] with
    [write] and read back by [tlb_sim.c] four words at a time with [fread].
    Both run on the same little-endian host, so a word is four bytes, least
    significant first. *)
From S2P Require Import Prelude.

(** The bytes of one [uint32_t] in memory. *)
Definition word_bytes (w : Z) : list Z :=
  [u8 w; u8 (w >> 8); u8 (w >> 16); u8 (w >> 24)].

Definition word_of (b0 b1 b2 b3 : Z) : Z :=
  b0 + b1 * 2 ^ 8 + b2 * 2 ^ 16 + b3 * 2 ^ 24.

(** [write(fout, fbuf, sizeof(uint32_t) * n)]: the bytes of [n] words. *)
Definition words_bytes (ws : list Z) : list Z := ws ≫= word_bytes.

(** One record: [uint32_t t[4]]. *)
Record trace_rec := mkRec { t0 : Z; t1 : Z; t2 : Z; t3 : Z }.
#[export] Instance trace_rec_eq_dec : EqDecision trace_rec.
Proof. solve_decision. Defined.

Definition rec_words (r : trace_rec) : list Z := [t0 r; t1 r; t2 r; t3 r].
Definition rec_wf (r : trace_rec) : Prop := Forall is_u32 (rec_words r).

(** [while (fread(t, sizeof(uint32_t), 4, fin) == 4)]: the records the loop
    sees; a tail of fewer than 16 bytes ends it. *)
Fixpoint fread_records (bs : list Z) : list trace_rec :=
  match bs with
  | a0 :: a1 :: a2 :: a3 :: b0 :: b1 :: b2 :: b3 ::
    c0 :: c1 :: c2 :: c3 :: d0 :: d1 :: d2 :: d3 :: bs' =>
      mkRec (word_of a0 a1 a2 a3) (word_of b0 b1 b2 b3)
            (word_of c0 c1 c2 c3) (word_of d0 d1 d2 d3) :: fread_records bs'
  | _ => []
  end.

Lemma word_of_word_bytes w : is_u32 w →
  word_of (u8 w) (u8 (w >> 8)) (u8 (w >> 16)) (u8 (w >> 24)) = w.
Proof.
  unfold is_u32, word_of, u8. rewrite !Z.shiftr_div_pow2 by lia.
  intros Hw. Z.div_mod_to_equations. lia.
Qed.

Lemma fread_records_app r bs :
  rec_wf r → fread_records (words_bytes (rec_words r) ++ bs) = r :: fread_records bs.
Proof.
  destruct r as [w0 w1 w2 w3]. unfold rec_wf, rec_words. cbn.
  rewrite !Forall_cons. intros (? & ? & ? & ? & _).
  by rewrite !word_of_word_bytes.
Qed.

Lemma fread_records_short bs : (length bs < 16)%nat → fread_records bs = [].
Proof.
  intros Hl. do 16 (destruct bs as [|? bs]; [done|]). cbn in Hl. lia.
Qed.

(** Reading returns the records written, whatever partial record follows. *)
Lemma fread_records_roundtrip rs tl :
  Forall rec_wf rs → (length tl < 16)%nat →
  fread_records (words_bytes (rs ≫= rec_words) ++ tl) = rs.
Proof.
  intros Hrs Htl. induction Hrs as [|r rs Hr _ IH]; cbn [mbind list_bind].
  - by apply fread_records_short.
  - unfold words_bytes in *. rewrite bind_app, <- app_assoc.
    rewrite fread_records_app by done. by rewrite IH.
Qed.

Lemma length_words_bytes ws : length (words_bytes ws) = (4 * length ws)%nat.
Proof. unfold words_bytes. induction ws; cbn in *; lia. Qed.

Lemma length_fread_records bs : length (fread_records bs) = (length bs / 16)%nat.
Proof.
  remember (length bs) as n eqn:Hn. revert bs Hn.
  induction n as [n IH] using lt_wf_ind. intros bs Hn.
  destruct (decide (n < 16)%nat).
  { rewrite fread_records_short by lia. by rewrite Nat.div_small. }
  do 16 (destruct bs as [|? bs]; [cbn in Hn; lia|]).
  cbn [length fread_records] in Hn |- *.
  rewrite (IH (length bs)) by (done || lia).
  replace n with (length bs + 1 * 16)%nat by lia.
  rewrite Nat.div_add by lia. lia.
Qed.
