(* ===== verification/TlbSim.v ===== *)
(** * The TLB simulator ([tlb_sim.c])

    State: the file's global variables.  Each [tlbtrace_*] function is one
    cache lookup, each [emulate_*] one trace record, each [tlbsim_sim_*] one
    trace file. *)
From S2P Require Import Prelude TlbCore TraceFormat.

Definition CACHE_MAX_ENTRIES : Z := 512.

(** ** Global variables *)
Record sim_state := mkSim {
  systs : Z;
  TLB_WAYMASK_NTLB : Z; TLB_MAX_ENTRIES_NTLB : Z; TLB_WAYSTEP_NTLB : Z;
  TLB_WAYMASK_PWC : Z; TLB_MAX_ENTRIES_PWC : Z; TLB_WAYSTEP_PWC : Z;
  ntlb_tlb : list TLB_ENTRY;
  ntlb2_tlb : list TLB_ENTRY;
  pwc_tlb : list TLB_ENTRY;
  pwc2_tlb : list TLB_ENTRY;
  pwc3_tlb : list TLB_ENTRY;
  ntlb_cnt : TLB_COUNTER;
  ntlb2_cnt : TLB_COUNTER;
  pwc_cnt : TLB_COUNTER;
  pwc2_cnt : TLB_COUNTER;
  pwc3_cnt : TLB_COUNTER;
  ntlb2_mem_accs : Z;
  pwc2_mem_accs : Z;
  pwc3_mem_accs : Z;
  full_mem_accs : Z
}.
Definition eta_sim (s : sim_state) : sim_state :=
  mkSim (systs s) (TLB_WAYMASK_NTLB s) (TLB_MAX_ENTRIES_NTLB s)
    (TLB_WAYSTEP_NTLB s) (TLB_WAYMASK_PWC s) (TLB_MAX_ENTRIES_PWC s)
    (TLB_WAYSTEP_PWC s) (ntlb_tlb s) (ntlb2_tlb s) (pwc_tlb s) (pwc2_tlb s)
    (pwc3_tlb s) (ntlb_cnt s) (ntlb2_cnt s) (pwc_cnt s) (pwc2_cnt s)
    (pwc3_cnt s) (ntlb2_mem_accs s) (pwc2_mem_accs s) (pwc3_mem_accs s)
    (full_mem_accs s).
#[export] Instance set_systs : Setter systs := ltac:(derive_setter eta_sim systs).
#[export] Instance set_mask_n : Setter TLB_WAYMASK_NTLB := ltac:(derive_setter eta_sim TLB_WAYMASK_NTLB).
#[export] Instance set_max_n : Setter TLB_MAX_ENTRIES_NTLB := ltac:(derive_setter eta_sim TLB_MAX_ENTRIES_NTLB).
#[export] Instance set_step_n : Setter TLB_WAYSTEP_NTLB := ltac:(derive_setter eta_sim TLB_WAYSTEP_NTLB).
#[export] Instance set_mask_p : Setter TLB_WAYMASK_PWC := ltac:(derive_setter eta_sim TLB_WAYMASK_PWC).
#[export] Instance set_max_p : Setter TLB_MAX_ENTRIES_PWC := ltac:(derive_setter eta_sim TLB_MAX_ENTRIES_PWC).
#[export] Instance set_step_p : Setter TLB_WAYSTEP_PWC := ltac:(derive_setter eta_sim TLB_WAYSTEP_PWC).
#[export] Instance set_ntlb_tlb : Setter ntlb_tlb := ltac:(derive_setter eta_sim ntlb_tlb).
#[export] Instance set_ntlb2_tlb : Setter ntlb2_tlb := ltac:(derive_setter eta_sim ntlb2_tlb).
#[export] Instance set_pwc_tlb : Setter pwc_tlb := ltac:(derive_setter eta_sim pwc_tlb).
#[export] Instance set_pwc2_tlb : Setter pwc2_tlb := ltac:(derive_setter eta_sim pwc2_tlb).
#[export] Instance set_pwc3_tlb : Setter pwc3_tlb := ltac:(derive_setter eta_sim pwc3_tlb).
#[export] Instance set_ntlb_cnt : Setter ntlb_cnt := ltac:(derive_setter eta_sim ntlb_cnt).
#[export] Instance set_ntlb2_cnt : Setter ntlb2_cnt := ltac:(derive_setter eta_sim ntlb2_cnt).
#[export] Instance set_pwc_cnt : Setter pwc_cnt := ltac:(derive_setter eta_sim pwc_cnt).
#[export] Instance set_pwc2_cnt : Setter pwc2_cnt := ltac:(derive_setter eta_sim pwc2_cnt).
#[export] Instance set_pwc3_cnt : Setter pwc3_cnt := ltac:(derive_setter eta_sim pwc3_cnt).
#[export] Instance set_ntlb2_ma : Setter ntlb2_mem_accs := ltac:(derive_setter eta_sim ntlb2_mem_accs).
#[export] Instance set_pwc2_ma : Setter pwc2_mem_accs := ltac:(derive_setter eta_sim pwc2_mem_accs).
#[export] Instance set_pwc3_ma : Setter pwc3_mem_accs := ltac:(derive_setter eta_sim pwc3_mem_accs).
#[export] Instance set_full_ma : Setter full_mem_accs := ltac:(derive_setter eta_sim full_mem_accs).

(** Globals start out zeroed. *)
Definition zero_tlb : list TLB_ENTRY :=
  replicate (Z.to_nat CACHE_MAX_ENTRIES) (mkTLB_ENTRY 0 0 0 0).
Definition zero_cnt : TLB_COUNTER := mkTLB_COUNTER 0 0.
Definition sim_init : sim_state :=
  mkSim 0 0 0 0 0 0 0 zero_tlb zero_tlb zero_tlb zero_tlb zero_tlb
    zero_cnt zero_cnt zero_cnt zero_cnt zero_cnt 0 0 0 0.

(** [x++] and [x += n] on [unsigned long long]. *)
Definition incr (x : Z) : Z := u64 (x + 1).

Definition flush_all (s : sim_state) : res sim_state :=
  let s := s <| systs := 0 |> in
  let s := s <| ntlb2_mem_accs := 0 |> <| pwc2_mem_accs := 0 |>
             <| pwc3_mem_accs := 0 |> <| full_mem_accs := 0 |> in
  '(t, c) ← INIT_TLB (ntlb_tlb s) CACHE_MAX_ENTRIES (ntlb_cnt s);
  let s := s <| ntlb_tlb := t |> <| ntlb_cnt := c |> in
  '(t, c) ← INIT_TLB (ntlb2_tlb s) CACHE_MAX_ENTRIES (ntlb2_cnt s);
  let s := s <| ntlb2_tlb := t |> <| ntlb2_cnt := c |> in
  '(t, c) ← INIT_TLB (pwc_tlb s) CACHE_MAX_ENTRIES (pwc_cnt s);
  let s := s <| pwc_tlb := t |> <| pwc_cnt := c |> in
  '(t, c) ← INIT_TLB (pwc2_tlb s) CACHE_MAX_ENTRIES (pwc2_cnt s);
  let s := s <| pwc2_tlb := t |> <| pwc2_cnt := c |> in
  '(t, c) ← INIT_TLB (pwc3_tlb s) CACHE_MAX_ENTRIES (pwc3_cnt s);
  Ok (s <| pwc3_tlb := t |> <| pwc3_cnt := c |>).

(** ** Lookups *)

(** [(addr >> 12) & TLB_WAYMASK_NTLB] and [(addr >> 2) & TLB_WAYMASK_PWC]:
    the mask is converted to unsigned, the result to int. *)
Definition ntlb_start (s : sim_state) (addr : Z) : Z :=
  s32 ((addr >> 12) .& u32 (TLB_WAYMASK_NTLB s)).
Definition pwc_start (s : sim_state) (addr : Z) : Z :=
  s32 ((addr >> 2) .& u32 (TLB_WAYMASK_PWC s)).

(** An NTLB entry is found by address; a PWC entry by address and asid. *)
Definition ntlb_same (addr : Z) (e : TLB_ENTRY) : bool := va e =? addr.
Definition ntlb_fill (addr : Z) (e : TLB_ENTRY) : TLB_ENTRY := e <| va := addr |>.
Definition pwc_same (addr _asid : Z) (e : TLB_ENTRY) : bool :=
  (va e =? addr) && (asid e =? _asid).
Definition pwc_fill (addr _asid : Z) (e : TLB_ENTRY) : TLB_ENTRY :=
  e <| va := addr |> <| asid := _asid |>.

Definition tlbtrace_ntlb_find2 (addr final : Z) (s : sim_state) :
    res (Z * sim_state) :=
  let s := if negb (truth final)
           then s <| ntlb2_mem_accs := incr (ntlb2_mem_accs s) |> else s in
  '(r, (t, c, n)) ←
    tlb_access (ntlb_same addr) (ntlb_fill addr)
      (ntlb_start s addr) (TLB_MAX_ENTRIES_NTLB s) (TLB_WAYSTEP_NTLB s)
      (ntlb2_tlb s) (ntlb2_cnt s) (systs s);
  let s := if r =? 0
           then s <| ntlb2_mem_accs := u64 (ntlb2_mem_accs s + 2) |> else s in
  Ok (r, s <| ntlb2_tlb := t |> <| ntlb2_cnt := c |> <| systs := n |>).

Definition tlbtrace_refppa_pwc2 (addr asid : Z) (s : sim_state) :
    res (Z * sim_state) :=
  '(r, (t, c, n)) ←
    tlb_access (pwc_same addr asid) (pwc_fill addr asid)
      (pwc_start s addr) (TLB_MAX_ENTRIES_PWC s) (TLB_WAYSTEP_PWC s)
      (pwc2_tlb s) (pwc2_cnt s) (systs s);
  Ok (r, s <| pwc2_tlb := t |> <| pwc2_cnt := c |> <| systs := n |>).

Definition tlbtrace_refppa_pwc3 (addr asid : Z) (s : sim_state) :
    res (Z * sim_state) :=
  '(r, (t, c, n)) ←
    tlb_access (pwc_same addr asid) (pwc_fill addr asid)
      (pwc_start s addr) (TLB_MAX_ENTRIES_PWC s) (TLB_WAYSTEP_PWC s)
      (pwc3_tlb s) (pwc3_cnt s) (systs s);
  Ok (r, s <| pwc3_tlb := t |> <| pwc3_cnt := c |> <| systs := n |>).

Definition tlbtrace_ntlb_find (addr : Z) (s : sim_state) : res (Z * sim_state) :=
  '(r, (t, c, n)) ←
    tlb_access (ntlb_same addr) (ntlb_fill addr)
      (ntlb_start s addr) (TLB_MAX_ENTRIES_NTLB s) (TLB_WAYSTEP_NTLB s)
      (ntlb_tlb s) (ntlb_cnt s) (systs s);
  Ok (r, s <| ntlb_tlb := t |> <| ntlb_cnt := c |> <| systs := n |>).

Definition tlbtrace_refppa_pwc (addr asid : Z) (s : sim_state) :
    res (Z * sim_state) :=
  '(r, (t, c, n)) ←
    tlb_access (pwc_same addr asid) (pwc_fill addr asid)
      (pwc_start s addr) (TLB_MAX_ENTRIES_PWC s) (TLB_WAYSTEP_PWC s)
      (pwc_tlb s) (pwc_cnt s) (systs s);
  Ok (r, s <| pwc_tlb := t |> <| pwc_cnt := c |> <| systs := n |>).

(** ** One trace record *)

(** Descriptor addresses in the default extended page table, base 0:
    [l1_mpa = (x >> 20) * 4] and
    [l2_mpa = 16 * 1024 + (x >> 20) * 1024 + ((x >> 12) & 0xFF) * 4]. *)
Definition ept_l1 (x : Z) : Z := u32 ((x >> 20) * 4).
Definition ept_l2 (x : Z) : Z :=
  u32 (16 * 1024 + (x >> 20) * 1024 + ((x >> 12) .& 0xFF) * 4).

Definition emulate_ntlb2 (level l1_gpa l2_gpa gpa : Z) (s : sim_state) :
    res sim_state :=
  '(_, s) ← tlbtrace_ntlb_find2 (l1_gpa .& 0xFFFFF000) 0 s;
  s ← (if level >? 1 then
         '(_, s) ← tlbtrace_ntlb_find2 (l2_gpa .& 0xFFFFF000) 0 s; Ok s
       else Ok s);
  if level >? 2 then '(_, s) ← tlbtrace_ntlb_find2 gpa 1 s; Ok s
  else Ok s.

(** [if (tlbtrace_refppa_pwc2(a, 0) == 0) pwc2_mem_accs++;] *)
Definition pwc2_ref_host (a : Z) (s : sim_state) : res sim_state :=
  '(r, s) ← tlbtrace_refppa_pwc2 a 0 s;
  Ok (if r =? 0 then s <| pwc2_mem_accs := incr (pwc2_mem_accs s) |> else s).

(** The body shared by the first and the second level of [emulate_pwc2]. *)
Definition pwc2_ref_guest (x : Z) (s : sim_state) : res sim_state :=
  '(r, s) ← tlbtrace_refppa_pwc2 x 1 s;
  if r =? 0 then
    s ← pwc2_ref_host (ept_l1 x) s;
    s ← pwc2_ref_host (ept_l2 x) s;
    Ok (s <| pwc2_mem_accs := incr (pwc2_mem_accs s) |>)
  else Ok s.

Definition emulate_pwc2 (level l1_gpa l2_gpa gpa : Z) (s : sim_state) :
    res sim_state :=
  s ← pwc2_ref_guest l1_gpa s;
  s ← (if level >? 1 then pwc2_ref_guest l2_gpa s else Ok s);
  if level >? 2 then
    s ← pwc2_ref_host (ept_l1 gpa) s;
    pwc2_ref_host (ept_l2 gpa) s
  else Ok s.

(** [if (tlbtrace_refppa_pwc3(x, 1) == 0) pwc3_mem_accs++;] *)
Definition pwc3_ref_guest (x : Z) (s : sim_state) : res sim_state :=
  '(r, s) ← tlbtrace_refppa_pwc3 x 1 s;
  Ok (if r =? 0 then s <| pwc3_mem_accs := incr (pwc3_mem_accs s) |> else s).

Definition emulate_pwc3 (level l1_gpa l2_gpa gpa : Z) (s : sim_state) :
    res sim_state :=
  s ← pwc3_ref_guest l1_gpa s;
  if level >? 1 then pwc3_ref_guest l2_gpa s else Ok s.

(** [if (tlbtrace_refppa_pwc(a, 0) == 0) full_mem_accs++;] *)
Definition full_ref_host (a : Z) (s : sim_state) : res sim_state :=
  '(r, s) ← tlbtrace_refppa_pwc a 0 s;
  Ok (if r =? 0 then s <| full_mem_accs := incr (full_mem_accs s) |> else s).

(** [if (tlbtrace_ntlb_find(page) == 0) { l1_mpa = ..; l2_mpa = ..; .. }] *)
Definition full_nested (page x : Z) (s : sim_state) : res sim_state :=
  '(r, s) ← tlbtrace_ntlb_find page s;
  if r =? 0 then
    s ← full_ref_host (ept_l1 x) s;
    full_ref_host (ept_l2 x) s
  else Ok s.

Definition full_ref_guest (x : Z) (s : sim_state) : res sim_state :=
  '(r, s) ← tlbtrace_refppa_pwc x 1 s;
  if r =? 0 then
    s ← full_nested (x .& 0xFFFFF000) x s;
    Ok (s <| full_mem_accs := incr (full_mem_accs s) |>)
  else Ok s.

Definition emulate_full (level l1_gpa l2_gpa gpa : Z) (s : sim_state) :
    res sim_state :=
  s ← full_ref_guest l1_gpa s;
  s ← (if level >? 1 then full_ref_guest l2_gpa s else Ok s);
  if level >? 2 then full_nested gpa gpa s else Ok s.

(** ** One trace file *)
Record SIM_RESULT := mkResult { accs : Z; ntlb : TLB_COUNTER; pwc : TLB_COUNTER }.
Definition eta_result (r : SIM_RESULT) : SIM_RESULT := mkResult (accs r) (ntlb r) (pwc r).
#[export] Instance set_accs : Setter accs := ltac:(derive_setter eta_result accs).
#[export] Instance set_ntlb : Setter ntlb := ltac:(derive_setter eta_result ntlb).
#[export] Instance set_pwc : Setter pwc := ltac:(derive_setter eta_result pwc).
#[export] Instance SIM_RESULT_eq_dec : EqDecision SIM_RESULT.
Proof. solve_decision. Defined.

(** The file system the simulator reads: contents by path. *)
Definition files := string → option (list Z).

(** [while (fread(t, ..) == 4) emulate(t[0] & 0xF, t[1], t[2], t[3]);] *)
Fixpoint run_records (emulate : Z → Z → Z → Z → sim_state → res sim_state)
    (rs : list trace_rec) (s : sim_state) : res sim_state :=
  match rs with
  | [] => Ok s
  | r :: rs =>
      s ← emulate (t0 r .& 0xF) (t1 r) (t2 r) (t3 r) s;
      run_records emulate rs s
  end.

(** [fopen] then the read loop; reading from a NULL stream is a fault. *)
Definition run_file (fs : files) (trace_name : string)
    (emulate : Z → Z → Z → Z → sim_state → res sim_state) (s : sim_state) :
    res sim_state :=
  s ← flush_all s;
  match fs trace_name with
  | None => Err NullPointer
  | Some bs => run_records emulate (fread_records bs) s
  end.

(** C's int division. *)
Definition cdiv (a b : Z) : res Z :=
  if b =? 0 then Err DivByZero else Ok (Z.quot a b).

Definition config_ntlb (ntlb_size ntlb_way : Z) (s : sim_state) : res sim_state :=
  let s := s <| TLB_MAX_ENTRIES_NTLB := ntlb_size |> in
  q ← cdiv ntlb_size ntlb_way;
  let s := s <| TLB_WAYSTEP_NTLB := q |> in
  Ok (s <| TLB_WAYMASK_NTLB := TLB_WAYSTEP_NTLB s - 1 |>).

Definition config_pwc (pwc_size pwc_way : Z) (s : sim_state) : res sim_state :=
  let s := s <| TLB_MAX_ENTRIES_PWC := pwc_size |> in
  q ← cdiv pwc_size pwc_way;
  let s := s <| TLB_WAYSTEP_PWC := q |> in
  Ok (s <| TLB_WAYMASK_PWC := TLB_WAYSTEP_PWC s - 1 |>).

Definition sim_fun : Type :=
  files → string → Z → Z → Z → Z → SIM_RESULT → sim_state →
  res (SIM_RESULT * sim_state).

Definition tlbsim_sim_ntlb : sim_fun :=
  λ fs trace_name ntlb_size ntlb_way _ _ result s,
  s ← config_ntlb ntlb_size ntlb_way s;
  s ← run_file fs trace_name emulate_ntlb2 s;
  Ok (result <| accs := ntlb2_mem_accs s |> <| ntlb := ntlb2_cnt s |>, s).

Definition tlbsim_sim_pwc_ept : sim_fun :=
  λ fs trace_name _ _ pwc_size pwc_way result s,
  s ← config_pwc pwc_size pwc_way s;
  s ← run_file fs trace_name emulate_pwc2 s;
  Ok (result <| accs := pwc2_mem_accs s |> <| pwc := pwc2_cnt s |>, s).

Definition tlbsim_sim_pwc_noept : sim_fun :=
  λ fs trace_name _ _ pwc_size pwc_way result s,
  s ← config_pwc pwc_size pwc_way s;
  s ← run_file fs trace_name emulate_pwc3 s;
  Ok (result <| accs := pwc3_mem_accs s |> <| pwc := pwc3_cnt s |>, s).

Definition tlbsim_sim_ntlb_pwc : sim_fun :=
  λ fs trace_name ntlb_size ntlb_way pwc_size pwc_way result s,
  s ← config_ntlb ntlb_size ntlb_way s;
  s ← config_pwc pwc_size pwc_way s;
  s ← run_file fs trace_name emulate_full s;
  Ok (result <| accs := full_mem_accs s |> <| ntlb := ntlb_cnt s |>
             <| pwc := pwc_cnt s |>, s).
