(* ===== verification/TlbSimFacts.v ===== *)
(** * Correctness of the simulator

    Accounting: what the reported number of memory accesses is in terms of
    the cache statistics.  Safety: a legal cache geometry never faults.
    Refinement: a fully associative NTLB is an LRU cache. *)
From S2P Require Import Prelude TlbCore TraceFormat TlbSim.

(** ** One lookup: what changes and what does not *)

(** The counter after a lookup that returned [r]. *)
Definition bump (r : Z) (c : TLB_COUNTER) : TLB_COUNTER :=
  if r =? 0 then c <| miss := u64 (miss c + 1) |>
  else c <| hit := u64 (hit c + 1) |>.

Lemma tlb_access_bump same fill start max step tlb cnt n r t' c' n' :
  tlb_access same fill start max step tlb cnt n = Ok (r, (t', c', n')) →
  c' = bump r cnt ∧ n' = u64 (n + 1) ∧ zlength t' = zlength tlb ∧
  (r = 0 ∨ r = 1).
Proof.
  intros (f & e & _ & -> & Ha)%tlb_access_inv.
  destruct f; destruct Ha as (_ & -> & -> & ->); rewrite zlength_zinsert; auto.
Qed.

(** Peels off the lookup inside a [tlbtrace_*] function. *)
Ltac inv_lookup H :=
  let r := fresh "r" in let t := fresh "t" in let c := fresh "c" in
  let n := fresh "n" in let Ha := fresh "Ha" in
  apply bind_Ok in H; destruct H as ((r & ((t & c) & n)) & Ha & H);
  apply tlb_access_bump in Ha; destruct Ha as (-> & -> & Ha & ?);
  injection H as H; subst.

(** ** Accounting in the PWC modes: one memory access per PWC miss *)

(** [acc] lags the miss counter by [d] accesses. *)
Definition ledger (acc : sim_state → Z) (cnt : sim_state → TLB_COUNTER)
    (d : Z) (s : sim_state) : Prop :=
  0 ≤ acc s < 2 ^ 64 ∧ miss (cnt s) = u64 (acc s + d).

Lemma miss_bump r c :
  miss (bump r c) = if r =? 0 then u64 (miss c + 1) else miss c.
Proof. unfold bump. by destruct (r =? 0). Qed.

(** A lookup that bumps the counter and leaves [acc] alone. *)
Lemma ledger_lookup acc cnt d r s s' :
  ledger acc cnt d s → acc s' = acc s → cnt s' = bump r (cnt s) →
  ledger acc cnt (d + of_bool (r =? 0)) s'.
Proof.
  intros [Hr Hm] Ha Hc. split; [by rewrite Ha|].
  rewrite Hc, Ha, miss_bump, Hm. destruct (r =? 0); cbn [of_bool].
  - by rewrite u64_add_l, <- Z.add_assoc.
  - by rewrite Z.add_0_r.
Qed.

(** Counting one access pays one unit back. *)
Lemma ledger_pay acc cnt d s s' :
  ledger acc cnt (d + 1) s → acc s' = incr (acc s) → cnt s' = cnt s →
  ledger acc cnt d s'.
Proof.
  intros [Hr Hm] Ha Hc. split; rewrite Ha; [apply u64_bound|].
  rewrite Hc, Hm. unfold incr. rewrite u64_add_l. f_equal. lia.
Qed.

Lemma ledger_settled acc cnt s : ledger acc cnt 0 s → acc s = miss (cnt s).
Proof. intros [Hr ->]. rewrite Z.add_0_r, u64_small; done. Qed.

Abbreviation ledger2 := (ledger pwc2_mem_accs pwc2_cnt).
Abbreviation ledger3 := (ledger pwc3_mem_accs pwc3_cnt).
Abbreviation ledgerF := (ledger full_mem_accs pwc_cnt).

Lemma pwc2_lookup d x a s r s' :
  ledger2 d s → tlbtrace_refppa_pwc2 x a s = Ok (r, s') →
  ledger2 (d + of_bool (r =? 0)) s'.
Proof. intros HL H. unfold tlbtrace_refppa_pwc2 in H. inv_lookup H. by eapply ledger_lookup. Qed.

Lemma pwc3_lookup d x a s r s' :
  ledger3 d s → tlbtrace_refppa_pwc3 x a s = Ok (r, s') →
  ledger3 (d + of_bool (r =? 0)) s'.
Proof. intros HL H. unfold tlbtrace_refppa_pwc3 in H. inv_lookup H. by eapply ledger_lookup. Qed.

Lemma pwc_lookup d x a s r s' :
  ledgerF d s → tlbtrace_refppa_pwc x a s = Ok (r, s') →
  ledgerF (d + of_bool (r =? 0)) s'.
Proof. intros HL H. unfold tlbtrace_refppa_pwc in H. inv_lookup H. by eapply ledger_lookup. Qed.

Lemma ntlb_lookup d x s r s' :
  ledgerF d s → tlbtrace_ntlb_find x s = Ok (r, s') → ledgerF d s'.
Proof. intros HL H. unfold tlbtrace_ntlb_find in H. by inv_lookup H. Qed.

Create HintDb ledger.
#[export] Hint Resolve pwc2_lookup pwc3_lookup pwc_lookup ntlb_lookup : ledger.

(** Follows the control flow of a record: binds, tests and payments. *)
Ltac ledger_step :=
  match goal with
  | H : _ ≫= _ = Ok _ |- _ => apply bind_Ok in H as (? & ? & H)
  | H : (let '(_, _) := ?p in _) = Ok _ |- _ => destruct p
  | H : (if ?b then _ else _) = Ok _ |- _ => destruct b eqn:?
  | H : Ok _ = Ok _ |- _ => injection H as H; try subst
  end.

Lemma pwc2_host d x s s' : ledger2 d s → pwc2_ref_host x s = Ok s' → ledger2 d s'.
Proof.
  unfold pwc2_ref_host. intros HL H. repeat ledger_step.
  eapply pwc2_lookup in HL; [|done]. destruct (z =? 0); cbn in HL.
  - by eapply ledger_pay.
  - by rewrite Z.add_0_r in HL.
Qed.

Lemma pwc2_guest d x s s' : ledger2 d s → pwc2_ref_guest x s = Ok s' → ledger2 d s'.
Proof.
  unfold pwc2_ref_guest. intros HL H. ledger_step. ledger_step.
  eapply pwc2_lookup in HL; [|done]. repeat ledger_step; cbn in HL.
  - eapply ledger_pay; [|done..]. eauto using pwc2_host.
  - by rewrite Z.add_0_r in HL.
Qed.

Lemma pwc3_guest d x s s' : ledger3 d s → pwc3_ref_guest x s = Ok s' → ledger3 d s'.
Proof.
  unfold pwc3_ref_guest. intros HL H. repeat ledger_step.
  eapply pwc3_lookup in HL; [|done]. destruct (z =? 0); cbn in HL.
  - by eapply ledger_pay.
  - by rewrite Z.add_0_r in HL.
Qed.

Lemma full_host d x s s' : ledgerF d s → full_ref_host x s = Ok s' → ledgerF d s'.
Proof.
  unfold full_ref_host. intros HL H. repeat ledger_step.
  eapply pwc_lookup in HL; [|done]. destruct (z =? 0); cbn in HL.
  - by eapply ledger_pay.
  - by rewrite Z.add_0_r in HL.
Qed.

Lemma full_nested_ledger d p x s s' :
  ledgerF d s → full_nested p x s = Ok s' → ledgerF d s'.
Proof.
  unfold full_nested. intros HL H. repeat ledger_step;
    eauto using full_host, ntlb_lookup.
Qed.

Lemma full_guest d x s s' : ledgerF d s → full_ref_guest x s = Ok s' → ledgerF d s'.
Proof.
  unfold full_ref_guest. intros HL H. ledger_step. ledger_step.
  eapply pwc_lookup in HL; [|done]. repeat ledger_step; cbn in HL.
  - eapply ledger_pay; [|done..]. eauto using full_nested_ledger.
  - by rewrite Z.add_0_r in HL.
Qed.

(** ** From one record to a whole file *)

Lemma INIT_TLB_inv t n c t' c' : INIT_TLB t n c = Ok (t', c') → c' = zero_cnt.
Proof. unfold INIT_TLB. intros H. apply bind_Ok in H as (? & _ & [= <- <-]). done. Qed.

(** [flush_all] zeroes clock, counters and access counts. *)
Lemma flush_all_inv s s' : flush_all s = Ok s' →
  systs s' = 0 ∧ ntlb2_mem_accs s' = 0 ∧ pwc2_mem_accs s' = 0 ∧
  pwc3_mem_accs s' = 0 ∧ full_mem_accs s' = 0 ∧ ntlb_cnt s' = zero_cnt ∧
  ntlb2_cnt s' = zero_cnt ∧ pwc_cnt s' = zero_cnt ∧ pwc2_cnt s' = zero_cnt ∧
  pwc3_cnt s' = zero_cnt.
Proof.
  unfold flush_all. intros H.
  repeat (apply bind_Ok in H as ([? ?] & Hi & H); apply INIT_TLB_inv in Hi; subst).
  injection H as <-. done.
Qed.

Section records.
Context (emulate : Z → Z → Z → Z → sim_state → res sim_state).
Context (I : sim_state → Prop).

Lemma run_records_inv rs s s' :
  (∀ a b c d s s', I s → emulate a b c d s = Ok s' → I s') →
  I s → run_records emulate rs s = Ok s' → I s'.
Proof.
  intros Hstep. revert s. induction rs as [|r rs IH]; cbn; intros s Hs H.
  - by injection H as <-.
  - apply bind_Ok in H as (s1 & H1 & H). eauto.
Qed.

Lemma run_file_inv fs name s s' :
  (∀ a b c d s s', I s → emulate a b c d s = Ok s' → I s') →
  (∀ s s', flush_all s = Ok s' → I s') →
  run_file fs name emulate s = Ok s' → I s'.
Proof.
  intros Hstep Hinit. unfold run_file. intros H.
  apply bind_Ok in H as (s1 & H1 & H). destruct (fs name); [|done].
  eauto using run_records_inv.
Qed.
End records.

Lemma emulate_pwc2_ledger a b c d s s' :
  ledger2 0 s → emulate_pwc2 a b c d s = Ok s' → ledger2 0 s'.
Proof.
  unfold emulate_pwc2. intros HL H. repeat ledger_step;
    eauto using pwc2_host, pwc2_guest.
Qed.

Lemma emulate_pwc3_ledger a b c d s s' :
  ledger3 0 s → emulate_pwc3 a b c d s = Ok s' → ledger3 0 s'.
Proof.
  unfold emulate_pwc3. intros HL H. repeat ledger_step; eauto using pwc3_guest.
Qed.

Lemma emulate_full_ledger a b c d s s' :
  ledgerF 0 s → emulate_full a b c d s = Ok s' → ledgerF 0 s'.
Proof.
  unfold emulate_full. intros HL H. repeat ledger_step;
    eauto using full_guest, full_nested_ledger.
Qed.

(** A freshly flushed state owes nothing. *)
Lemma flush_all_ledgers s s' : flush_all s = Ok s' →
  ledger2 0 s' ∧ ledger3 0 s' ∧ ledgerF 0 s'.
Proof.
  intros (_ & _ & H2 & H3 & HF & _ & _ & C & C2 & C3)%flush_all_inv.
  unfold ledger. by rewrite H2, H3, HF, C, C2, C3.
Qed.

(** ** Accounting in the NTLB mode *)

(** Lookups a record causes: all of them, and those that read a guest page
    table descriptor (every one except the final translation). *)
Definition rec_level (r : trace_rec) : Z := t0 r .& 0xF.
Definition rec_lookups (r : trace_rec) : Z :=
  1 + of_bool (rec_level r >? 1) + of_bool (rec_level r >? 2).
Definition rec_descs (r : trace_rec) : Z := 1 + of_bool (rec_level r >? 1).
Definition sum_recs (f : trace_rec → Z) (rs : list trace_rec) : Z :=
  foldr (λ r n, f r + n) 0 rs.

Definition ntlb_balance (descs lookups : Z) (s : sim_state) : Prop :=
  ntlb2_mem_accs s = u64 (2 * miss (ntlb2_cnt s) + descs) ∧
  u64 (hit (ntlb2_cnt s) + miss (ntlb2_cnt s)) = u64 lookups.

Lemma find2_balance d n addr final s r s' :
  ntlb_balance d n s → tlbtrace_ntlb_find2 addr final s = Ok (r, s') →
  ntlb_balance (d + of_bool (negb (truth final))) (n + 1) s'.
Proof.
  intros [Ha Hc] H. unfold tlbtrace_ntlb_find2 in H. inv_lookup H.
  unfold ntlb_balance, bump. revert Ha Hc.
  destruct (truth final), H0 as [-> | ->]; cbn; intros -> Hc;
    (split; [|revert Hc]); unfold incr; solve_u64.
Qed.

Lemma emulate_ntlb2_balance d n r s s' :
  ntlb_balance d n s →
  emulate_ntlb2 (t0 r .& 0xF) (t1 r) (t2 r) (t3 r) s = Ok s' →
  ntlb_balance (d + rec_descs r) (n + rec_lookups r) s'.
Proof.
  unfold emulate_ntlb2, rec_descs, rec_lookups, rec_level. intros HJ H.
  apply bind_Ok in H as ([r1 s1] & H1 & H).
  apply (find2_balance d n) in H1; [|done].
  apply bind_Ok in H as (s2 & H2 & H).
  assert (ntlb_balance (d + 1 + of_bool (t0 r .& 0xF >? 1))
    (n + 1 + of_bool (t0 r .& 0xF >? 1)) s2) as HJ2.
  { destruct (_ >? 1); cbn; [|injection H2 as <-; by rewrite !Z.add_0_r].
    apply bind_Ok in H2 as ([? ?] & Hf & [= <-]). by eapply find2_balance in Hf. }
  destruct (_ >? 2); cbn.
  - apply bind_Ok in H as ([? ?] & Hf & [= <-]).
    apply (find2_balance _ _ _ _ _ _ _ HJ2) in Hf. cbn in Hf.
    by rewrite Z.add_0_r, !Z.add_assoc in *.
  - injection H as <-. by rewrite Z.add_0_r, !Z.add_assoc in *.
Qed.

Lemma run_ntlb2_balance rs d n s s' :
  ntlb_balance d n s → run_records emulate_ntlb2 rs s = Ok s' →
  ntlb_balance (d + sum_recs rec_descs rs) (n + sum_recs rec_lookups rs) s'.
Proof.
  revert d n s. induction rs as [|r rs IH]; cbn; intros d n s HJ H.
  - injection H as <-. by rewrite !Z.add_0_r.
  - apply bind_Ok in H as (s1 & H1 & H).
    eapply emulate_ntlb2_balance in H1; [|done].
    rewrite !Z.add_assoc. by eapply IH.
Qed.

(** ** Safety: a legal geometry never faults *)

Definition geometry (mask max step : Z) : Prop :=
  1 ≤ step ≤ 512 ∧ mask = step - 1 ∧ max ≤ 512.

Definition banks (s : sim_state) : list (list TLB_ENTRY) :=
  [ntlb_tlb s; ntlb2_tlb s; pwc_tlb s; pwc2_tlb s; pwc3_tlb s].

Definition banks_wf (s : sim_state) : Prop :=
  Forall (λ t, zlength t = CACHE_MAX_ENTRIES) (banks s).
Definition ntlb_wf (s : sim_state) : Prop :=
  banks_wf s ∧
  geometry (TLB_WAYMASK_NTLB s) (TLB_MAX_ENTRIES_NTLB s) (TLB_WAYSTEP_NTLB s).
Definition pwc_wf (s : sim_state) : Prop :=
  banks_wf s ∧
  geometry (TLB_WAYMASK_PWC s) (TLB_MAX_ENTRIES_PWC s) (TLB_WAYSTEP_PWC s).

(** Two states agree on the geometry and on the array sizes. *)
Definition shape (s : sim_state) : list Z * list Z :=
  ([TLB_WAYMASK_NTLB s; TLB_MAX_ENTRIES_NTLB s; TLB_WAYSTEP_NTLB s;
    TLB_WAYMASK_PWC s; TLB_MAX_ENTRIES_PWC s; TLB_WAYSTEP_PWC s],
   zlength <$> banks s).

Lemma shape_wf s s' : shape s' = shape s →
  (ntlb_wf s → ntlb_wf s') ∧ (pwc_wf s → pwc_wf s').
Proof.
  unfold shape, ntlb_wf, pwc_wf, banks_wf, banks. cbn. intros [=].
  rewrite !Forall_cons. split; intros; repeat match goal with
  | H : _ = _ |- _ => rewrite H end; done.
Qed.

Lemma start_bound x mask max step :
  geometry mask max step → 0 ≤ s32 (x .& u32 mask).
Proof.
  intros (Hs & -> & _). rewrite u32_small by (unfold is_u32; lia).
  pose proof (land_mask_bound x (step - 1)). rewrite s32_small; lia.
Qed.

Section total.
Context (same : TLB_ENTRY → bool) (fill : TLB_ENTRY → TLB_ENTRY).

Lemma tlb_access_legal x mask max step t c n :
  geometry mask max step → zlength t = CACHE_MAX_ENTRIES →
  ∃ r t' c' n',
    tlb_access same fill (s32 (x .& u32 mask)) max step t c n
      = Ok (r, (t', c', n')) ∧ zlength t' = zlength t.
Proof.
  intros Hg Hl. pose proof (start_bound x _ _ _ Hg) as Hx.
  destruct Hg as (Hs & Hm & Hmax). unfold CACHE_MAX_ENTRIES in Hl.
  destruct (tlb_access_ok t same (s32 (x .& u32 mask)) max step
    ltac:(lia) Hx ltac:(lia) ltac:(lia) fill c n)
    as (r & t' & c' & n' & H & _ & Hl' & _). eauto 10.
Qed.
End total.


Lemma find2_ok addr final s : ntlb_wf s →
  ∃ r s', tlbtrace_ntlb_find2 addr final s = Ok (r, s') ∧ shape s' = shape s.
Proof.
  intros [Hb Hg]. unfold banks_wf, banks in Hb. rewrite !Forall_cons in Hb.
  unfold tlbtrace_ntlb_find2, ntlb_start.
  destruct (tlb_access_legal (ntlb_same addr) (ntlb_fill addr) (addr >> 12) _ _ _
    (ntlb2_tlb s) (ntlb2_cnt s) (systs s) Hg) as (r & t & c & n & Ha & Hl); [tauto|].
  exists r. destruct (negb (truth final)); cbn in *; rewrite Ha; cbn;
    (eexists; split; [reflexivity|]);
    destruct (r =? 0); unfold shape, banks; cbn; by rewrite Hl.
Qed.

Lemma ntlb_find_ok addr s : ntlb_wf s →
  ∃ r s', tlbtrace_ntlb_find addr s = Ok (r, s') ∧ shape s' = shape s.
Proof.
  intros [Hb Hg]. unfold banks_wf, banks in Hb. rewrite !Forall_cons in Hb.
  unfold tlbtrace_ntlb_find, ntlb_start.
  destruct (tlb_access_legal (ntlb_same addr) (ntlb_fill addr) (addr >> 12) _ _ _
    (ntlb_tlb s) (ntlb_cnt s) (systs s) Hg) as (r & t & c & n & Ha & Hl); [tauto|].
  rewrite Ha. cbn. do 2 eexists. split; [reflexivity|].
  unfold shape, banks. cbn. by rewrite Hl.
Qed.

(** The three PWC lookups succeed alike. *)
Ltac pwc_total f x a s t c :=
  intros [Hb Hg]; unfold banks_wf, banks in Hb; rewrite !Forall_cons in Hb;
  unfold f, pwc_start;
  destruct (tlb_access_legal (pwc_same x a) (pwc_fill x a) (x >> 2) _ _ _
    (t s) (c s) (systs s) Hg) as (r & t' & c' & n & Ha & Hl); [tauto|];
  rewrite Ha; cbn; do 2 eexists; (split; [reflexivity|]);
  unfold shape, banks; cbn; by rewrite Hl.

Lemma pwc2_ok x a s : pwc_wf s →
  ∃ r s', tlbtrace_refppa_pwc2 x a s = Ok (r, s') ∧ shape s' = shape s.
Proof. pwc_total tlbtrace_refppa_pwc2 x a s pwc2_tlb pwc2_cnt. Qed.

Lemma pwc3_ok x a s : pwc_wf s →
  ∃ r s', tlbtrace_refppa_pwc3 x a s = Ok (r, s') ∧ shape s' = shape s.
Proof. pwc_total tlbtrace_refppa_pwc3 x a s pwc3_tlb pwc3_cnt. Qed.

Lemma pwc_ok x a s : pwc_wf s →
  ∃ r s', tlbtrace_refppa_pwc x a s = Ok (r, s') ∧ shape s' = shape s.
Proof. pwc_total tlbtrace_refppa_pwc x a s pwc_tlb pwc_cnt. Qed.

(** [m] succeeds from [s] and keeps its shape. *)
Definition keeps (m : sim_state → res sim_state) (s : sim_state) : Prop :=
  ∃ s', m s = Ok s' ∧ shape s' = shape s.

Lemma keeps_bind (P : sim_state → Prop) m k s :
  (∀ s s', shape s' = shape s → P s → P s') →
  P s → keeps m s → (∀ s', P s' → keeps k s') → keeps (λ s, m s ≫= k) s.
Proof.
  intros HP Hs (s1 & Hm & Hsh) Hk. destruct (Hk s1) as (s2 & Hk2 & Hsh2); [eauto|].
  exists s2. cbn. rewrite Hm. split; [done|]. by rewrite Hsh2.
Qed.

Lemma ntlb_wf_shape s s' : shape s' = shape s → ntlb_wf s → ntlb_wf s'.
Proof. intros H. by apply shape_wf. Qed.
Lemma pwc_wf_shape s s' : shape s' = shape s → pwc_wf s → pwc_wf s'.
Proof. intros H. by apply shape_wf. Qed.

(** Runs the next lookup with the lemma that says it succeeds. *)
Ltac run_lookup lem :=
  let r := fresh "r" in let s := fresh "s" in
  let H := fresh "H" in let Hsh := fresh "Hsh" in
  edestruct lem as (r & s & H & Hsh); [eassumption|]; rewrite H; cbn [mbind res_bind].

Lemma pwc2_host_ok x s : pwc_wf s → keeps (pwc2_ref_host x) s.
Proof.
  intros Hw. unfold keeps, pwc2_ref_host. run_lookup pwc2_ok.
  eexists. split; [reflexivity|]. rewrite <- Hsh. by destruct (r =? 0).
Qed.

Lemma pwc3_guest_ok x s : pwc_wf s → keeps (pwc3_ref_guest x) s.
Proof.
  intros Hw. unfold keeps, pwc3_ref_guest. run_lookup pwc3_ok.
  eexists. split; [reflexivity|]. rewrite <- Hsh. by destruct (r =? 0).
Qed.

Lemma full_host_ok x s : pwc_wf s → keeps (full_ref_host x) s.
Proof.
  intros Hw. unfold keeps, full_ref_host. run_lookup pwc_ok.
  eexists. split; [reflexivity|]. rewrite <- Hsh. by destruct (r =? 0).
Qed.

Lemma keeps_ret s : keeps (λ s, Ok s) s.
Proof. by exists s. Qed.

Lemma pwc2_guest_ok x s : pwc_wf s → keeps (pwc2_ref_guest x) s.
Proof.
  intros Hw. unfold keeps, pwc2_ref_guest. run_lookup pwc2_ok.
  apply (pwc_wf_shape _ _ Hsh) in Hw. rewrite <- Hsh.
  destruct (r =? 0); [|apply keeps_ret].
  destruct (pwc2_host_ok (ept_l1 x) s0 Hw) as (s1 & -> & Hs1). cbn [mbind res_bind].
  apply (pwc_wf_shape _ _ Hs1) in Hw.
  destruct (pwc2_host_ok (ept_l2 x) s1 Hw) as (s2 & -> & Hs2). cbn [mbind res_bind].
  eexists. split; [reflexivity|]. by rewrite <- Hs1, <- Hs2.
Qed.

(** Runs the next shape-keeping step and carries well-formedness over it. *)
Ltac run_keeps lem :=
  let s := fresh "s" in let H := fresh "H" in let Hsh := fresh "Hsh" in
  edestruct lem as (s & H & Hsh); [eassumption..|]; rewrite H; cbn [mbind res_bind];
  repeat match goal with
  | Hw : pwc_wf _ |- _ => apply (pwc_wf_shape _ _ Hsh) in Hw
  | Hw : ntlb_wf _ |- _ => apply (ntlb_wf_shape _ _ Hsh) in Hw
  end; rewrite <- Hsh; clear H Hsh.

Lemma full_nested_ok p x s : ntlb_wf s → pwc_wf s → keeps (full_nested p x) s.
Proof.
  intros Hn Hw. unfold keeps, full_nested. run_lookup ntlb_find_ok.
  apply (pwc_wf_shape _ _ Hsh) in Hw. rewrite <- Hsh.
  destruct (r =? 0); [|apply keeps_ret].
  run_keeps full_host_ok. run_keeps full_host_ok. by eexists.
Qed.

Lemma full_guest_ok x s : ntlb_wf s → pwc_wf s → keeps (full_ref_guest x) s.
Proof.
  intros Hn Hw. unfold keeps, full_ref_guest. run_lookup pwc_ok.
  apply (pwc_wf_shape _ _ Hsh) in Hw. apply (ntlb_wf_shape _ _ Hsh) in Hn.
  rewrite <- Hsh. destruct (r =? 0); [|apply keeps_ret].
  run_keeps full_nested_ok. by eexists.
Qed.

Lemma emulate_full_ok a b c d s :
  ntlb_wf s → pwc_wf s → keeps (emulate_full a b c d) s.
Proof.
  intros Hn Hw. unfold keeps, emulate_full. run_keeps full_guest_ok.
  destruct (a >? 1); [run_keeps full_guest_ok|cbn [mbind res_bind]];
    (destruct (a >? 2); [run_keeps full_nested_ok|]; by eexists).
Qed.

Lemma emulate_pwc2_ok a b c d s : pwc_wf s → keeps (emulate_pwc2 a b c d) s.
Proof.
  intros Hw. unfold keeps, emulate_pwc2. run_keeps pwc2_guest_ok.
  destruct (a >? 1); [run_keeps pwc2_guest_ok|cbn [mbind res_bind]];
    (destruct (a >? 2); [run_keeps pwc2_host_ok; run_keeps pwc2_host_ok|]; by eexists).
Qed.

Lemma emulate_pwc3_ok a b c d s : pwc_wf s → keeps (emulate_pwc3 a b c d) s.
Proof.
  intros Hw. unfold keeps, emulate_pwc3. run_keeps pwc3_guest_ok.
  destruct (a >? 1); [run_keeps pwc3_guest_ok|]; by eexists.
Qed.

Lemma emulate_ntlb2_ok a b c d s : ntlb_wf s → keeps (emulate_ntlb2 a b c d) s.
Proof.
  intros Hn. unfold keeps, emulate_ntlb2. run_lookup find2_ok.
  apply (ntlb_wf_shape _ _ Hsh) in Hn. rewrite <- Hsh.
  destruct (a >? 1).
  - run_lookup find2_ok. apply (ntlb_wf_shape _ _ Hsh0) in Hn. rewrite <- Hsh0.
    destruct (a >? 2); [run_lookup find2_ok|]; by eexists.
  - cbn [mbind res_bind]. destruct (a >? 2); [run_lookup find2_ok|]; by eexists.
Qed.

Lemma run_records_ok (P : sim_state → Prop) emulate rs s :
  (∀ s s', shape s' = shape s → P s → P s') →
  (∀ a b c d s, P s → keeps (emulate a b c d) s) →
  P s → ∃ s', run_records emulate rs s = Ok s' ∧ P s'.
Proof.
  intros HP Hem. revert s. induction rs as [|r rs IH]; intros s Hs; cbn; [by eexists|].
  destruct (Hem (t0 r .& 0xF) (t1 r) (t2 r) (t3 r) s Hs) as (s1 & -> & Hsh).
  apply IH. by eapply HP.
Qed.

(** Flushing full-size arrays succeeds, resets every entry and keeps geometry
    and sizes. *)
Definition reset_bank (t : list TLB_ENTRY) : list TLB_ENTRY := reset_entry <$> t.

Lemma INIT_TLB_full t c : zlength t = CACHE_MAX_ENTRIES →
  INIT_TLB t CACHE_MAX_ENTRIES c = Ok (reset_bank t, zero_cnt).
Proof. intros Ht. unfold INIT_TLB. by rewrite <- Ht, FLUSH_TLB_spec. Qed.

Lemma flush_all_spec s : banks_wf s →
  ∃ s', flush_all s = Ok s' ∧ shape s' = shape s ∧
        banks s' = reset_bank <$> banks s.
Proof.
  unfold banks_wf. intros Hb. unfold banks in Hb at 1. rewrite !Forall_cons in Hb.
  destruct Hb as (H1 & H2 & H3 & H4 & H5 & _).
  eexists. split; [|split].
  - unfold flush_all.
    do 5 (rewrite INIT_TLB_full by done; cbn [mbind res_bind]). reflexivity.
  - unfold shape, banks, reset_bank, zlength. cbn. by rewrite !length_fmap.
  - reflexivity.
Qed.

Lemma flush_all_ok s : banks_wf s → keeps flush_all s.
Proof. intros (s' & ? & ? & _)%flush_all_spec. by exists s'. Qed.

Lemma run_file_ok (P : sim_state → Prop) emulate fs name bs s :
  (∀ s s', shape s' = shape s → P s → P s') →
  (∀ a b c d s, P s → keeps (emulate a b c d) s) →
  (∀ s, P s → banks_wf s) → P s → fs name = Some bs →
  ∃ s', run_file fs name emulate s = Ok s' ∧ P s'.
Proof.
  intros HP Hem Hb Hs Hf. unfold run_file.
  destruct (flush_all_ok s (Hb s Hs)) as (s1 & -> & Hsh). cbn [mbind res_bind].
  rewrite Hf. eapply run_records_ok; eauto.
Qed.

Lemma quot_geometry size way :
  1 ≤ way ≤ size → size ≤ 512 →
  cdiv size way = Ok (size / way) ∧ geometry (size / way - 1) size (size / way).
Proof.
  intros Hw Hs. unfold cdiv, geometry.
  destruct (Z.eqb_spec way 0); [lia|]. rewrite Z.quot_div_nonneg by lia.
  split; [done|]. pose proof (Z.div_str_pos size way ltac:(lia)).
  pose proof (Z.div_le_upper_bound size way 512 ltac:(lia) ltac:(nia)). lia.
Qed.

(** A legal configuration establishes the geometry and leaves the rest. *)
Lemma config_ntlb_ok size way s :
  1 ≤ way ≤ size → size ≤ 512 → banks_wf s →
  ∃ s', config_ntlb size way s = Ok s' ∧ ntlb_wf s' ∧ banks s' = banks s.
Proof.
  intros Hw Hs Hb. destruct (quot_geometry size way Hw Hs) as [Hq Hg].
  unfold config_ntlb. rewrite Hq. cbn [mbind res_bind].
  eexists. split; [reflexivity|]. done.
Qed.

Lemma config_pwc_ok size way s :
  1 ≤ way ≤ size → size ≤ 512 → banks_wf s →
  ∃ s', config_pwc size way s = Ok s' ∧ pwc_wf s' ∧
        (ntlb_wf s → ntlb_wf s') ∧ banks s' = banks s.
Proof.
  intros Hw Hs Hb. destruct (quot_geometry size way Hw Hs) as [Hq Hg].
  unfold config_pwc. rewrite Hq. cbn [mbind res_bind].
  eexists. split; [reflexivity|]. done.
Qed.

(** The four entry points, as in the table of [tlbsim_sim]. *)
Definition sim_funs : list sim_fun :=
  [tlbsim_sim_ntlb; tlbsim_sim_pwc_ept; tlbsim_sim_pwc_noept; tlbsim_sim_ntlb_pwc].

(** A sequence of successful steps succeeds with what the last one returns. *)
Lemma bind_Ok_intro {A B} (m : res A) (k : A → res B) a b :
  m = Ok a → k a = Ok b → m ≫= k = Ok b.
Proof. by intros ->. Qed.

Section legal.
Context (fs : files) (name : string) (bs : list Z) (ns nw ps pw : Z).
Context (result : SIM_RESULT) (s : sim_state).
Context (Hb : banks_wf s) (Hfs : fs name = Some bs).

Definition legal_run (f : sim_fun) : Prop :=
  ∃ result' s', f fs name ns nw ps pw result s = Ok (result', s') ∧ banks_wf s'.

Lemma ntlb_legal_run :
  1 ≤ nw ≤ ns → ns ≤ 512 → legal_run tlbsim_sim_ntlb.
Proof.
  intros Hn Hn'. destruct (config_ntlb_ok ns nw s Hn Hn' Hb) as (s1 & Hc1 & Hw1 & _).
  destruct (run_file_ok ntlb_wf emulate_ntlb2 fs name bs s1) as (s' & Hr & Hs');
    eauto using ntlb_wf_shape, emulate_ntlb2_ok. { by intros ? []. }
  eexists _, s'. split; [|apply Hs'].
  eapply bind_Ok_intro; [exact Hc1|]. eapply bind_Ok_intro; [exact Hr|reflexivity].
Qed.

Lemma pwc_ept_legal_run :
  1 ≤ pw ≤ ps → ps ≤ 512 → legal_run tlbsim_sim_pwc_ept.
Proof.
  intros Hp Hp'. destruct (config_pwc_ok ps pw s Hp Hp' Hb) as (s1 & Hc1 & Hw1 & _).
  destruct (run_file_ok pwc_wf emulate_pwc2 fs name bs s1) as (s' & Hr & Hs');
    eauto using pwc_wf_shape, emulate_pwc2_ok. { by intros ? []. }
  eexists _, s'. split; [|apply Hs'].
  eapply bind_Ok_intro; [exact Hc1|]. eapply bind_Ok_intro; [exact Hr|reflexivity].
Qed.

Lemma pwc_noept_legal_run :
  1 ≤ pw ≤ ps → ps ≤ 512 → legal_run tlbsim_sim_pwc_noept.
Proof.
  intros Hp Hp'. destruct (config_pwc_ok ps pw s Hp Hp' Hb) as (s1 & Hc1 & Hw1 & _).
  destruct (run_file_ok pwc_wf emulate_pwc3 fs name bs s1) as (s' & Hr & Hs');
    eauto using pwc_wf_shape, emulate_pwc3_ok. { by intros ? []. }
  eexists _, s'. split; [|apply Hs'].
  eapply bind_Ok_intro; [exact Hc1|]. eapply bind_Ok_intro; [exact Hr|reflexivity].
Qed.

Lemma ntlb_pwc_legal_run :
  1 ≤ nw ≤ ns → ns ≤ 512 → 1 ≤ pw ≤ ps → ps ≤ 512 →
  legal_run tlbsim_sim_ntlb_pwc.
Proof.
  intros Hn Hn' Hp Hp'.
  destruct (config_ntlb_ok ns nw s Hn Hn' Hb) as (s1 & Hc1 & Hw1 & _).
  destruct (config_pwc_ok ps pw s1 Hp Hp' (proj1 Hw1)) as (s2 & Hc2 & Hw2 & Hk & _).
  destruct (run_file_ok (λ s, ntlb_wf s ∧ pwc_wf s) emulate_full fs name bs s2)
    as (s' & Hr & Hs'); [| | |by auto|done|].
  { intros ? ? Hsh []. by split; [eapply ntlb_wf_shape|eapply pwc_wf_shape]. }
  { intros ? ? ? ? ? []. by apply emulate_full_ok. }
  { by intros ? [[] _]. }
  eexists _, s'. split; [|apply Hs'].
  eapply bind_Ok_intro; [exact Hc1|]. eapply bind_Ok_intro; [exact Hc2|].
  eapply bind_Ok_intro; [exact Hr|reflexivity].
Qed.
End legal.

(** ** A concrete run

    Two completed walks and one first-level fault, on the initial state. *)
Definition demo_records : list trace_rec :=
  [mkRec 0x10003 0x4000 0x8040 0x23000; mkRec 0x20001 0x4008 0 0;
   mkRec 0x10003 0x4000 0x8040 0x23000].
Definition demo_fs : files :=
  λ name, if decide (name = "./t"%string)
          then Some (words_bytes (demo_records ≫= rec_words)) else None.
Definition zero_result : SIM_RESULT := mkResult 0 zero_cnt zero_cnt.

Lemma sim_init_banks : banks_wf sim_init.
Proof. unfold banks_wf, banks. rewrite !Forall_cons, Forall_nil. repeat split. Qed.

Lemma demo_fs_t : demo_fs "./t"%string = Some (words_bytes (demo_records ≫= rec_words)).
Proof. reflexivity. Qed.

(** C8: With between one and 512 entries per cache and an associativity that
    does not exceed the size, every simulation of an existing trace file ends
    and returns a result: no access outside the arrays, no division by zero,
    no endless search loop, whatever the contents of the file; and the arrays
    keep their sizes, so the next simulation starts from a legal state. *)
Theorem sim_legal_geometry_total f fs name bs ns nw ps pw result s :
  f ∈ sim_funs → banks_wf s → fs name = Some bs →
  1 ≤ nw ≤ ns → ns ≤ CACHE_MAX_ENTRIES → 1 ≤ pw ≤ ps → ps ≤ CACHE_MAX_ENTRIES →
  ∃ result' s', f fs name ns nw ps pw result s = Ok (result', s') ∧ banks_wf s'.
Proof.
  unfold CACHE_MAX_ENTRIES, sim_funs. intros Hf Hb Hfs Hn Hn' Hp Hp'.
  rewrite !elem_of_cons, elem_of_nil in Hf.
  change (legal_run fs name ns nw ps pw result s f).
  destruct Hf as [-> | [-> | [-> | [-> | []]]]];
    eauto using ntlb_legal_run, pwc_ept_legal_run, pwc_noept_legal_run, ntlb_pwc_legal_run.
Qed.

Lemma sim_legal_geometry_total_witness :
  ∃ result' s', tlbsim_sim_ntlb_pwc demo_fs "./t"%string 16 4 64 2 zero_result sim_init
                = Ok (result', s') ∧ banks_wf s'.
Proof.
  apply (sim_legal_geometry_total tlbsim_sim_ntlb_pwc demo_fs "./t"%string
    (words_bytes (demo_records ≫= rec_words)) 16 4 64 2 zero_result sim_init); [|apply sim_init_banks|apply demo_fs_t|lia..
    |unfold CACHE_MAX_ENTRIES; lia|lia|unfold CACHE_MAX_ENTRIES; lia].
  unfold sim_funs. do 3 right. left.
Defined.


Lemma pwc_ept_accs fs name ns nw ps pw result s result' s' :
  tlbsim_sim_pwc_ept fs name ns nw ps pw result s = Ok (result', s') →
  accs result' = miss (pwc result').
Proof.
  unfold tlbsim_sim_pwc_ept. intros H. apply bind_Ok in H as (s1 & _ & H).
  apply bind_Ok in H as (s2 & H2 & H). injection H as <- <-.
  apply (ledger_settled pwc2_mem_accs pwc2_cnt).
  eapply (run_file_inv emulate_pwc2 (ledger2 0)); [..|exact H2].
  - exact emulate_pwc2_ledger.
  - intros ? ? Hf. by apply flush_all_ledgers in Hf as (? & _ & _).
Qed.

Lemma pwc_noept_accs fs name ns nw ps pw result s result' s' :
  tlbsim_sim_pwc_noept fs name ns nw ps pw result s = Ok (result', s') →
  accs result' = miss (pwc result').
Proof.
  unfold tlbsim_sim_pwc_noept. intros H. apply bind_Ok in H as (s1 & _ & H).
  apply bind_Ok in H as (s2 & H2 & H). injection H as <- <-.
  apply (ledger_settled pwc3_mem_accs pwc3_cnt).
  eapply (run_file_inv emulate_pwc3 (ledger3 0)); [..|exact H2].
  - exact emulate_pwc3_ledger.
  - intros ? ? Hf. by apply flush_all_ledgers in Hf as (_ & ? & _).
Qed.

Lemma ntlb_pwc_accs fs name ns nw ps pw result s result' s' :
  tlbsim_sim_ntlb_pwc fs name ns nw ps pw result s = Ok (result', s') →
  accs result' = miss (pwc result').
Proof.
  unfold tlbsim_sim_ntlb_pwc. intros H. apply bind_Ok in H as (s1 & _ & H).
  apply bind_Ok in H as (s2 & _ & H). apply bind_Ok in H as (s3 & H3 & H).
  injection H as <- <-. apply (ledger_settled full_mem_accs pwc_cnt).
  eapply (run_file_inv emulate_full (ledgerF 0)); [..|exact H3].
  - exact emulate_full_ledger.
  - intros ? ? Hf. by apply flush_all_ledgers in Hf as (_ & _ & ?).
Qed.

(** In the three modes with a page walk cache the number of memory
    accesses the simulator reports is exactly the number of page walk cache
    misses it reports. *)
Theorem sim_pwc_accs_are_misses f fs name ns nw ps pw result s result' s' :
  f ∈ [tlbsim_sim_pwc_ept; tlbsim_sim_pwc_noept; tlbsim_sim_ntlb_pwc] →
  f fs name ns nw ps pw result s = Ok (result', s') →
  accs result' = miss (pwc result').
Proof.
  rewrite !elem_of_cons, elem_of_nil. intros [-> | [-> | [-> | []]]];
    eauto using pwc_ept_accs, pwc_noept_accs, ntlb_pwc_accs.
Qed.

Lemma sim_pwc_accs_are_misses_witness :
  ∃ result' s',
    tlbsim_sim_ntlb_pwc demo_fs "./t"%string 16 4 64 2 zero_result sim_init
      = Ok (result', s') ∧ accs result' = miss (pwc result').
Proof.
  destruct (ntlb_pwc_legal_run demo_fs "./t"%string _ 16 4 64 2 zero_result sim_init
    sim_init_banks demo_fs_t ltac:(lia) ltac:(lia) ltac:(lia) ltac:(lia))
    as (r & s' & E & _).
  exists r, s'. split; [exact E|].
  eapply (sim_pwc_accs_are_misses tlbsim_sim_ntlb_pwc); [do 2 right; left|exact E].
Defined.


(** With an NTLB only, every lookup is counted exactly once as a hit or
    a miss, and the reported number of memory accesses is two per miss (the
    two levels of the extended page table) plus one per guest page table
    descriptor read, all modulo the 64-bit counters. *)
Theorem sim_ntlb_accounting fs name ns nw ps pw result s result' s' :
  tlbsim_sim_ntlb fs name ns nw ps pw result s = Ok (result', s') →
  ∃ bs, fs name = Some bs ∧
    let rs := fread_records bs in
    accs result' = u64 (2 * miss (ntlb result') + sum_recs rec_descs rs) ∧
    u64 (hit (ntlb result') + miss (ntlb result')) = u64 (sum_recs rec_lookups rs).
Proof.
  unfold tlbsim_sim_ntlb, run_file. intros H.
  apply bind_Ok in H as (s1 & _ & H). apply bind_Ok in H as (s2 & H2 & H).
  apply bind_Ok in H2 as (s3 & H3 & H2). injection H as <- <-.
  destruct (fs name) as [bs|]; [|done]. exists bs. split; [done|].
  apply flush_all_inv in H3 as (_ & Ha & _ & _ & _ & _ & Hc & _).
  apply (run_ntlb2_balance _ 0 0) in H2; [by rewrite !Z.add_0_l in H2|].
  unfold ntlb_balance. by rewrite Ha, Hc.
Qed.

Lemma sim_ntlb_accounting_witness :
  ∃ result' s',
    tlbsim_sim_ntlb demo_fs "./t"%string 16 4 0 0 zero_result sim_init = Ok (result', s') ∧
    ∃ bs, demo_fs "./t"%string = Some bs ∧
      let rs := fread_records bs in
      accs result' = u64 (2 * miss (ntlb result') + sum_recs rec_descs rs) ∧
      u64 (hit (ntlb result') + miss (ntlb result')) = u64 (sum_recs rec_lookups rs).
Proof.
  destruct (ntlb_legal_run demo_fs "./t"%string _ 16 4 0 0 zero_result sim_init
    sim_init_banks demo_fs_t ltac:(lia) ltac:(lia)) as (r & s' & E & _).
  exists r, s'. split; [exact E|].
  exact (sim_ntlb_accounting _ _ _ _ _ _ _ _ _ _ E).
Defined.

