(* ===== verification/TlbSimLru.v ===== *)
(** * The simulated caches as LRU caches

    With as many ways as entries the search covers the whole cache, and the
    simulation of a trace reports the hits and misses of an ideal LRU cache.
    With fewer ways the candidate slot 0 breaks the set structure; the last
    theorem of the file states how. *)
From S2P Require Import Prelude TlbCore TraceFormat TlbSim TlbSimFacts.

(** ** Abstract specification: hits and misses of an LRU cache *)
Section spec.
Context {K : Type} `{EqDecision K}.

Fixpoint lru_run (cap : nat) (ks : list K) (l : list K) (c : TLB_COUNTER) :
    list K * TLB_COUNTER :=
  match ks with
  | [] => (l, c)
  | k :: ks =>
      let '(h, l') := lru_access cap k l in
      lru_run cap ks l'
        (if h : bool then c <| hit := hit c + 1 |> else c <| miss := miss c + 1 |>)
  end.

Lemma lru_run_app cap ks1 ks2 l c :
  lru_run cap (ks1 ++ ks2) l c =
  let '(l', c') := lru_run cap ks1 l c in lru_run cap ks2 l' c'.
Proof.
  revert l c. induction ks1 as [|k ks1 IH]; intros l c; [done|].
  cbn. destruct (lru_access cap k l). apply IH.
Qed.
End spec.

(** ** One access to a cache that occupies a prefix of its array *)
Section prefix_lru.
Context {K : Type} `{EqDecision K} (key : TLB_ENTRY → K) (bad : K).
Context (key_ts : ∀ e t, key (e <| ts := t |>) = key e).

(** The cache of [size] entries at the start of the array [t] holds [l]. *)
Definition holds (size : Z) (t : list TLB_ENTRY) (now : Z) (l : list K) : Prop :=
  ∃ t1 t2, t = t1 ++ t2 ∧ zlength t1 = size ∧ lru_rel key bad t1 now l.

Lemma holds_access size t now l k same fill cnt :
  holds size t now l → 0 < size → 0 ≤ now → now + 1 < 2 ^ 32 →
  0 ≤ hit cnt ≤ now → 0 ≤ miss cnt ≤ now →
  (∀ e, same e = bool_decide (key e = k)) → (∀ e, key (fill e) = k) → k ≠ bad →
  ∃ t' cnt',
    let '(h, l') := lru_access (Z.to_nat size) k l in
    tlb_access same fill 0 size 1 t cnt now = Ok (of_bool h, (t', cnt', now + 1)) ∧
    cnt' = (if h then cnt <| hit := hit cnt + 1 |> else cnt <| miss := miss cnt + 1 |>) ∧
    holds size t' (now + 1) l'.
Proof.
  intros (t1 & t2 & -> & Hl & Hrel) Hsz Hnow Hw Hh Hm Hsame Hfill Hk.
  assert (Hz : zlength t1 = size) by done. rewrite <- Hl.
  rewrite tlb_access_prefix by lia.
  destruct (tlb_access_ok t1 same 0 (zlength t1) 1 ltac:(lia) ltac:(lia) ltac:(lia)
    ltac:(lia) fill cnt now) as (r & t1' & cnt' & n & Ha & _ & Hl' & Hc).
  rewrite Ha, bind_ret. pose proof Ha as Hs.
  eapply lru_step in Hs; try done.
  assert (Z.to_nat (zlength t1) = length t1) as -> by (unfold zlength; lia).
  destruct (lru_access (length t1) k l) as [h l'].
  destruct Hs as (-> & -> & Hrel' & _). exists (t1' ++ t2), cnt'.
  split; [done|]. split.
  - destruct h, Hc as [[? ->]|[? ->]]; cbn in *; try done;
      by rewrite u64_small by lia.
  - exists t1', t2. split; [done|]. by split.
Qed.

Lemma holds_reset size t :
  0 ≤ size ≤ zlength t → (∀ e, key (reset_entry e) = bad) →
  holds size (reset_entry <$> t) 0 [].
Proof.
  intros Hs Hb. exists (reset_entry <$> take (Z.to_nat size) t),
    (reset_entry <$> drop (Z.to_nat size) t).
  split; [by rewrite <- fmap_app, take_drop|]. split.
  - unfold zlength in *. rewrite length_fmap, length_take. lia.
  - by apply lru_rel_reset.
Qed.
End prefix_lru.

(** ** Steps of the simulator that perform a given list of accesses *)
Section tracks.
Context {K : Type} `{EqDecision K} (cap : nat).
Context (rel : sim_state → list K → Prop) (cnt : sim_state → TLB_COUNTER).

Definition tracks (ks : list K) (m : sim_state → res sim_state) : Prop :=
  ∀ s l, rel s l → systs s + zlength ks < 2 ^ 32 →
  ∃ s', m s = Ok s' ∧ systs s' = systs s + zlength ks ∧
    let '(l', c') := lru_run cap ks l (cnt s) in rel s' l' ∧ cnt s' = c'.

Lemma tracks_ret : tracks [] (λ s, Ok s).
Proof. intros s l Hr _. exists s. cbn. rewrite Z.add_0_r. auto. Qed.

Lemma tracks_bind ks1 ks2 m k :
  tracks ks1 m → tracks ks2 k → tracks (ks1 ++ ks2) (λ s, m s ≫= k).
Proof.
  intros Hm Hk s l Hr Hb. unfold zlength in *. rewrite length_app in *.
  destruct (Hm s l Hr ltac:(unfold zlength; lia)) as (s1 & E1 & Hs1 & H1).
  rewrite lru_run_app. destruct (lru_run cap ks1 l (cnt s)) as [l1 c1].
  destruct H1 as [Hr1 <-].
  unfold zlength in *.
  destruct (Hk s1 l1 Hr1 ltac:(unfold zlength; lia)) as (s2 & E2 & Hs2 & H2).
  unfold zlength in *. exists s2. rewrite E1. cbn. split; [done|]. split; [lia|done].
Qed.

Lemma tracks_if (b : bool) ks m :
  tracks ks m → tracks (if b then ks else []) (λ s, if b then m s else Ok s).
Proof. intros Hm. destruct b; [done|apply tracks_ret]. Qed.

Lemma tracks_records emulate (keys : trace_rec → list K) rs :
  (∀ r, r ∈ rs → tracks (keys r) (emulate (t0 r .& 0xF) (t1 r) (t2 r) (t3 r))) →
  tracks (rs ≫= keys) (run_records emulate rs).
Proof.
  induction rs as [|r rs IH]; intros Hall; [apply tracks_ret|].
  change (tracks (keys r ++ (rs ≫= keys)) (λ s,
    emulate (t0 r .& 0xF) (t1 r) (t2 r) (t3 r) s ≫= run_records emulate rs)).
  apply tracks_bind; [apply Hall; by left|].
  apply IH. intros r' Hr'. apply Hall. by right.
Qed.
End tracks.

(** ** The NTLB *)
Definition ntlb_rel (size : Z) (s : sim_state) (l : list Z) : Prop :=
  holds va invalid_va size (ntlb2_tlb s) (systs s) l ∧
  TLB_MAX_ENTRIES_NTLB s = size ∧ TLB_WAYSTEP_NTLB s = 1 ∧ TLB_WAYMASK_NTLB s = 0 ∧
  0 ≤ systs s ∧ 0 ≤ hit (ntlb2_cnt s) ≤ systs s ∧ 0 ≤ miss (ntlb2_cnt s) ≤ systs s.

(** The addresses a record looks up. *)
Definition ntlb_keys (r : trace_rec) : list Z :=
  [t1 r .& 0xFFFFF000] ++
  (if rec_level r >? 1 then [t2 r .& 0xFFFFF000] else []) ++
  (if rec_level r >? 2 then [t3 r] else []).

Lemma start_zero x : s32 (x .& u32 0) = 0.
Proof. by rewrite Z.land_0_r. Qed.

Lemma find2_tracks size addr final :
  0 < size → (addr ≠ invalid_va) →
  tracks (Z.to_nat size) (ntlb_rel size) ntlb2_cnt [addr]
    (λ s, '(_, s) ← tlbtrace_ntlb_find2 addr final s; Ok s).
Proof.
  intros Hsz Haddr s l (Hh & Hmax & Hstep & Hmask & Hn & Hhit & Hmiss) Hb.
  change (zlength [addr]) with 1 in Hb |- *.
  destruct (holds_access va invalid_va (λ _ _, eq_refl) size (ntlb2_tlb s)
    (systs s) l addr (ntlb_same addr) (ntlb_fill addr) (ntlb2_cnt s) Hh Hsz Hn Hb
    Hhit Hmiss) as (t' & c' & Hacc); [|done|done|].
  { intros e. unfold ntlb_same. by destruct (Z.eqb_spec (va e) addr), (bool_decide_reflect (va e = addr)). }
  cbn [lru_run]. destruct (lru_access (Z.to_nat size) addr l) as [h l'].
  destruct Hacc as (Ha & Hc & Hh').
  unfold tlbtrace_ntlb_find2, ntlb_start.
  set (s0 := if negb (truth final) then _ else s).
  assert (ntlb2_tlb s0 = ntlb2_tlb s ∧ ntlb2_cnt s0 = ntlb2_cnt s ∧
          systs s0 = systs s ∧ TLB_WAYMASK_NTLB s0 = 0 ∧ TLB_WAYSTEP_NTLB s0 = 1 ∧
          TLB_MAX_ENTRIES_NTLB s0 = size) as (-> & -> & -> & Hm0 & Hs0 & Hx0).
  { unfold s0. by destruct (negb (truth final)). }
  rewrite Hm0, Hs0, Hx0, start_zero, Ha. cbn [mbind res_bind].
  eexists. split; [reflexivity|].
  split; [done|]. rewrite <- Hc. split; [|done]. unfold ntlb_rel.
  split; [exact Hh'|]. destruct (of_bool h =? 0); cbn;
    (do 3 (split; [done|])); (split; [lia|]); destruct h; subst c'; cbn; lia.
Qed.

Lemma page_not_invalid x : (x .& 0xFFFFF000) ≠ invalid_va.
Proof.
  intros H. apply (f_equal (λ z, Z.testbit z 0)) in H.
  rewrite Z.land_spec in H. cbn in H. by rewrite andb_false_r in H.
Qed.

Lemma emulate_ntlb2_tracks size r :
  0 < size → ((rec_level r >? 2) = true → (t3 r ≠ invalid_va)) →
  tracks (Z.to_nat size) (ntlb_rel size) ntlb2_cnt (ntlb_keys r)
    (emulate_ntlb2 (t0 r .& 0xF) (t1 r) (t2 r) (t3 r)).
Proof.
  intros Hsz Hgpa. unfold ntlb_keys. fold (rec_level r).
  set (T := tracks (Z.to_nat size) (ntlb_rel size) ntlb2_cnt).
  assert (∀ b x f, (b = true → x ≠ invalid_va) →
    T (if b : bool then [x] else [])
      (λ s, if b then '(_, s) ← tlbtrace_ntlb_find2 x f s; Ok s else Ok s)) as Hif.
  { intros b x f Hx. destruct b; [apply find2_tracks; auto|apply tracks_ret]. }
  assert (T [t1 r .& 0xFFFFF000] (λ s, '(_, s) ←
    tlbtrace_ntlb_find2 (t1 r .& 0xFFFFF000) 0 s; Ok s)) as H1.
  { apply find2_tracks; [done|apply page_not_invalid]. }
  intros s l Hr Hb.
  destruct (tracks_bind _ _ _ _ _ _ _ H1
    (tracks_bind _ _ _ _ _ _ _ (Hif (rec_level r >? 1) (t2 r .& 0xFFFFF000) 0
      (λ _, page_not_invalid _)) (Hif (rec_level r >? 2) (t3 r) 1 Hgpa)) s l Hr Hb)
    as (s' & Hrun & Hpost).
  exists s'. split; [|exact Hpost]. rewrite <- Hrun. unfold emulate_ntlb2.
  by destruct (tlbtrace_ntlb_find2 _ 0 s) as [[? ?]|].
Qed.

Definition cold_cnt : TLB_COUNTER := mkTLB_COUNTER 0 0.

(** The counters of an ideal LRU cache of [cap] entries on the accesses [ks]. *)
Definition lru_counts {K} `{EqDecision K} (cap : nat) (ks : list K) : TLB_COUNTER :=
  (lru_run cap ks [] cold_cnt).2.


(** C9: A fully associative NTLB (as many ways as entries) is an LRU cache:
    on a trace with fewer than 2^32 lookups whose output addresses are not the
    reserved 0xFFFFFFFF, the reported hits and misses are those of an ideal LRU
    cache of that capacity on the sequence of page addresses of the trace. *)
Theorem sim_ntlb_refines_lru fs name bs size pw ps result s :
  let rs := fread_records bs in
  banks_wf s → fs name = Some bs → 1 ≤ size ≤ CACHE_MAX_ENTRIES →
  Forall (λ r, (rec_level r >? 2) = true → t3 r ≠ invalid_va) rs →
  zlength (rs ≫= ntlb_keys) < 2 ^ 32 →
  ∃ result' s', tlbsim_sim_ntlb fs name size size ps pw result s = Ok (result', s') ∧
    ntlb result' = lru_counts (Z.to_nat size) (rs ≫= ntlb_keys).
Proof.
  intros rs Hb Hfs Hsz Hgpa Hlen.
  destruct (config_ntlb_ok size size s ltac:(lia) ltac:(apply Hsz) Hb)
    as (s1 & Hc & _ & Hb1).
  assert (banks_wf s1) as Hbw by (unfold banks_wf; by rewrite Hb1).
  destruct (flush_all_spec s1 Hbw) as (s2 & Hf & Hsh & Hbk).
  pose proof (flush_all_inv _ _ Hf) as (Hsys & _ & _ & _ & _ & _ & Hcnt & _).
  assert (ntlb_rel size s2 []) as Hrel.
  { unfold config_ntlb, cdiv in Hc. destruct (Z.eqb_spec size 0); [lia|].
    rewrite Z.quot_same in Hc by done. cbn [mbind res_bind] in Hc. injection Hc as <-.
    unfold shape, banks in Hsh, Hbk, Hbw. injection Hsh as ? ? ? _ _ _ _ _.
    injection Hbk as _ Hbk _ _ _. unfold ntlb_rel. rewrite Hbk, Hsys, Hcnt.
    split; [|cbn in *; repeat split; (done || lia)].
    apply holds_reset; [|done]. unfold banks_wf, banks in Hbw.
    rewrite !Forall_cons in Hbw. destruct Hbw as (_ & Hl & _).
    cbn in Hl |- *. rewrite Hl. lia. }
  destruct (tracks_records _ _ _ emulate_ntlb2 ntlb_keys rs
    (λ r Hr, emulate_ntlb2_tracks size r ltac:(lia)
       (proj1 (Forall_forall _ _) Hgpa r Hr)) s2 [] Hrel) as (s3 & Hrun & _ & Hpost).
  { by rewrite Hsys. }
  rewrite Hcnt in Hpost. unfold lru_counts. change zero_cnt with cold_cnt in Hpost.
  destruct (lru_run _ _ [] cold_cnt) as [l' c']. destruct Hpost as [_ Hc'].
  exists (result <| accs := ntlb2_mem_accs s3 |> <| ntlb := ntlb2_cnt s3 |>), s3.
  split; [|exact Hc']. eapply bind_Ok_intro; [exact Hc|].
  eapply bind_Ok_intro; [|reflexivity]. unfold run_file. rewrite Hf, bind_ret, Hfs.
  exact Hrun.
Qed.

Lemma sim_ntlb_refines_lru_witness :
  ∃ result' s', tlbsim_sim_ntlb demo_fs "./t"%string 2 2 0 0 zero_result sim_init
                = Ok (result', s') ∧
    ntlb result' = lru_counts 2 (demo_records ≫= ntlb_keys).
Proof.
  apply (sim_ntlb_refines_lru demo_fs "./t"%string _ 2 0 0 zero_result sim_init
    sim_init_banks demo_fs_t).
  - unfold CACHE_MAX_ENTRIES. lia.
  - replace (fread_records _) with demo_records by (vm_compute; reflexivity).
    unfold demo_records. rewrite !Forall_cons, Forall_nil. unfold invalid_va. cbn. lia.
  - vm_compute. reflexivity.
Defined.


(** ** The PWC without extended page table *)
Definition pwc3_rel (size : Z) (s : sim_state) (l : list (Z * Z)) : Prop :=
  holds va_asid bad_va_asid size (pwc3_tlb s) (systs s) l ∧
  TLB_MAX_ENTRIES_PWC s = size ∧ TLB_WAYSTEP_PWC s = 1 ∧ TLB_WAYMASK_PWC s = 0 ∧
  0 ≤ systs s ∧ 0 ≤ hit (pwc3_cnt s) ≤ systs s ∧ 0 ≤ miss (pwc3_cnt s) ≤ systs s.

(** The guest descriptors a record refers to. *)
Definition pwc_keys (r : trace_rec) : list (Z * Z) :=
  [(t1 r, 1)] ++ (if rec_level r >? 1 then [(t2 r, 1)] else []).

Lemma pwc3_tracks size x :
  0 < size → tracks (Z.to_nat size) (pwc3_rel size) pwc3_cnt [(x, 1)] (pwc3_ref_guest x).
Proof.
  intros Hsz s l (Hh & Hmax & Hstep & Hmask & Hn & Hhit & Hmiss) Hb.
  change (zlength [(x, 1)]) with 1 in Hb |- *.
  destruct (holds_access va_asid bad_va_asid (λ _ _, eq_refl) size (pwc3_tlb s)
    (systs s) l (x, 1) (pwc_same x 1) (pwc_fill x 1) (pwc3_cnt s) Hh Hsz Hn Hb
    Hhit Hmiss) as (t' & c' & Hacc); [|done|done|].
  { intros e. apply va_asid_eqb. }
  cbn [lru_run]. destruct (lru_access (Z.to_nat size) (x, 1) l) as [h l'].
  destruct Hacc as (Ha & Hc & Hh').
  unfold pwc3_ref_guest, tlbtrace_refppa_pwc3, pwc_start.
  rewrite Hmax, Hstep, Hmask, start_zero, Ha. cbn [mbind res_bind].
  eexists. split; [reflexivity|].
  destruct (of_bool h =? 0); (split; [done|]); rewrite <- Hc; (split; [|done]);
    unfold pwc3_rel; cbn; (split; [exact Hh'|]);
    (do 3 (split; [done|])); (split; [lia|]); destruct h; subst c'; cbn; lia.
Qed.

Lemma emulate_pwc3_tracks size r :
  0 < size →
  tracks (Z.to_nat size) (pwc3_rel size) pwc3_cnt (pwc_keys r)
    (emulate_pwc3 (t0 r .& 0xF) (t1 r) (t2 r) (t3 r)).
Proof.
  intros Hsz. apply (tracks_bind _ _ _ [_]); [by apply pwc3_tracks|].
  fold (rec_level r). by apply tracks_if, pwc3_tracks.
Qed.

(** C38: For fewer than 2^32 lookups a fully associative PWC without extended page
    table is an LRU cache on the guest descriptor addresses: the simulation ends,
    its reported hits and misses are those of an ideal LRU cache, and so the
    reported memory accesses are the misses of that ideal cache. *)
Theorem sim_pwc_noept_refines_lru fs name bs size ns nw result s :
  let rs := fread_records bs in
  banks_wf s → fs name = Some bs → 1 ≤ size ≤ CACHE_MAX_ENTRIES →
  zlength (rs ≫= pwc_keys) < 2 ^ 32 →
  ∃ result' s', tlbsim_sim_pwc_noept fs name ns nw size size result s = Ok (result', s') ∧
    pwc result' = lru_counts (Z.to_nat size) (rs ≫= pwc_keys) ∧
    accs result' = miss (lru_counts (Z.to_nat size) (rs ≫= pwc_keys)).
Proof.
  intros rs Hb Hfs Hsz Hlen.
  destruct (config_pwc_ok size size s ltac:(lia) ltac:(apply Hsz) Hb)
    as (s1 & Hc & _ & _ & Hb1).
  assert (banks_wf s1) as Hbw by (unfold banks_wf; by rewrite Hb1).
  destruct (flush_all_spec s1 Hbw) as (s2 & Hf & Hsh & Hbk).
  pose proof (flush_all_inv _ _ Hf) as (Hsys & _ & _ & _ & _ & _ & _ & _ & _ & Hcnt).
  assert (pwc3_rel size s2 []) as Hrel.
  { unfold config_pwc, cdiv in Hc. destruct (Z.eqb_spec size 0); [lia|].
    rewrite Z.quot_same in Hc by done. cbn [mbind res_bind] in Hc. injection Hc as <-.
    unfold shape, banks in Hsh, Hbk, Hbw. injection Hsh as _ _ _ ? ? ? _ _ _ _ _.
    injection Hbk as _ _ _ _ Hbk. unfold pwc3_rel. rewrite Hbk, Hsys, Hcnt.
    split; [|cbn in *; repeat split; (done || lia)].
    apply holds_reset; [|done]. unfold banks_wf, banks in Hbw.
    rewrite !Forall_cons in Hbw. destruct Hbw as (_ & _ & _ & _ & Hl & _).
    cbn in Hl |- *. rewrite Hl. lia. }
  destruct (tracks_records _ _ _ emulate_pwc3 pwc_keys rs
    (λ r Hr, emulate_pwc3_tracks size r ltac:(lia)) s2 [] Hrel)
    as (s3 & Hrun & _ & Hpost).
  { by rewrite Hsys. }
  rewrite Hcnt in Hpost. unfold lru_counts. change zero_cnt with cold_cnt in Hpost.
  destruct (lru_run _ _ [] cold_cnt) as [l' c']. destruct Hpost as [_ Hc'].
  set (result' := result <| accs := pwc3_mem_accs s3 |> <| pwc := pwc3_cnt s3 |>).
  assert (tlbsim_sim_pwc_noept fs name ns nw size size result s = Ok (result', s3))
    as Hsim.
  { eapply bind_Ok_intro; [exact Hc|]. eapply bind_Ok_intro; [|reflexivity].
    unfold run_file. rewrite Hf, bind_ret, Hfs. exact Hrun. }
  exists result', s3. split; [exact Hsim|]. split; [exact Hc'|].
  rewrite (pwc_noept_accs _ _ _ _ _ _ _ _ _ _ Hsim). by f_equal.
Qed.

Lemma sim_pwc_noept_refines_lru_witness :
  ∃ result' s', tlbsim_sim_pwc_noept demo_fs "./t"%string 0 0 2 2 zero_result sim_init
                = Ok (result', s') ∧
    pwc result' = lru_counts 2 (demo_records ≫= pwc_keys) ∧
    accs result' = miss (lru_counts 2 (demo_records ≫= pwc_keys)).
Proof.
  apply (sim_pwc_noept_refines_lru demo_fs "./t"%string _ 2 0 0 zero_result sim_init
    sim_init_banks demo_fs_t).
  - unfold CACHE_MAX_ENTRIES. lia.
  - vm_compute. reflexivity.
Defined.


(** ** Where the set-associative search departs from LRU *)

(** C40: In an NTLB with more than one set, when no entry of the set of
    [addr] is older than slot 0 of the array and [addr] is not in its set, the
    first lookup stores [addr] in slot 0, outside its set, so an immediately
    repeated lookup of the same address misses again. *)
Theorem ntlb_find_misses_twice addr s :
  ntlb_wf s → 0 < ntlb_start s addr →
  let visited := in_set (ntlb_start s addr) (TLB_MAX_ENTRIES_NTLB s) (TLB_WAYSTEP_NTLB s) in
  slot0_oldest (ntlb_tlb s) (ntlb_start s addr) (TLB_MAX_ENTRIES_NTLB s)
    (TLB_WAYSTEP_NTLB s) →
  (∀ j e, visited j → zlookup (ntlb_tlb s) j = Some e → va e ≠ addr) →
  (¬ visited 0) ∧
  ∃ s1 s2, tlbtrace_ntlb_find addr s = Ok (0, s1) ∧
           tlbtrace_ntlb_find addr s1 = Ok (0, s2).
Proof.
  intros [Hb (Hs & Hm & Hmax)] Hst visited Hold Hno.
  split; [unfold visited, in_set; lia|].
  unfold banks_wf, banks, CACHE_MAX_ENTRIES in Hb. rewrite !Forall_cons in Hb.
  destruct (slot0_double_miss (ntlb_same addr) (ntlb_fill addr) (ntlb_start s addr)
    (TLB_MAX_ENTRIES_NTLB s) (TLB_WAYSTEP_NTLB s) (ntlb_tlb s) (ntlb_cnt s) (systs s))
    as (b1 & c1 & n1 & b2 & c2 & n2 & H1 & H2); try lia; [done| |].
  { intros j e Hj He. unfold ntlb_same. apply Z.eqb_neq. eauto. }
  eexists _, _. unfold tlbtrace_ntlb_find at 1. rewrite H1. split; [reflexivity|].
  unfold tlbtrace_ntlb_find, ntlb_start. cbn -[tlb_access].
  unfold ntlb_start in H2. rewrite H2. reflexivity.
Qed.

(** Freshly configured with four sets; the page of address 0x1000 is in set 1. *)
Definition four_sets : sim_state :=
  sim_init <| TLB_MAX_ENTRIES_NTLB := 16 |> <| TLB_WAYSTEP_NTLB := 4 |>
           <| TLB_WAYMASK_NTLB := 3 |>.

Lemma ntlb_find_misses_twice_witness :
  (¬ in_set 1 16 4 0) ∧
  ∃ s1 s2, tlbtrace_ntlb_find 0x1000 four_sets = Ok (0, s1) ∧
           tlbtrace_ntlb_find 0x1000 s1 = Ok (0, s2).
Proof.
  assert (∀ j e, zlookup zero_tlb j = Some e → e = mkTLB_ENTRY 0 0 0 0) as Hz.
  { intros j e He%zlookup_elem. unfold zero_tlb in He.
    by apply elem_of_replicate in He as [-> _]. }
  apply (ntlb_find_misses_twice 0x1000 four_sets).
  - split; [exact sim_init_banks|]. unfold geometry, four_sets, CACHE_MAX_ENTRIES.
    cbn. lia.
  - vm_compute. reflexivity.
  - exists (mkTLB_ENTRY 0 0 0 0). split; [reflexivity|].
    intros j e _ ->%Hz. cbn. lia.
  - intros j e _ ->%Hz. cbn. lia.
Defined.


(** With a zero step the loop inspects the same slot again and again. *)
Lemma scan_stuck fuel tlb same max i mi mts e :
  i < max → zlookup tlb i = Some e → same e = false →
  scan fuel tlb same max 0 i mi mts = Err Diverges.
Proof.
  intros Hi He Hs. revert mi mts. induction fuel as [|fuel IH]; intros mi mts; [done|].
  cbn [scan]. rewrite (proj2 (Z.ltb_lt _ _) Hi), (aget_Ok _ _ _ He), bind_ret, Hs, Z.add_0_r.
  case_match; apply IH.
Qed.

Lemma page_slot_stuck fuel tlb x size mi mts :
  let a := x .& 0xFFFFF000 in
  0 ≤ a >> 12 < size → size ≤ zlength tlb → Forall (λ e, va e = invalid_va) tlb →
  scan fuel tlb (ntlb_same a) size 0 (a >> 12) mi mts = Err Diverges.
Proof.
  intros a Ha Hl Hinv. destruct (zlookup_in_range tlb (a >> 12)) as [e He]; [lia|].
  apply (scan_stuck _ _ _ _ _ _ _ e); [lia|done|].
  rewrite Forall_forall in Hinv. unfold ntlb_same.
  rewrite (Hinv e) by (by eapply zlookup_elem). apply Z.eqb_neq.
  intros Heq. by apply (page_not_invalid x).
Qed.

Lemma find2_diverges x size final s :
  let a := x .& 0xFFFFF000 in
  TLB_MAX_ENTRIES_NTLB s = size → TLB_WAYSTEP_NTLB s = 0 → TLB_WAYMASK_NTLB s = -1 →
  zlength (ntlb2_tlb s) = 512 → Forall (λ e, va e = invalid_va) (ntlb2_tlb s) →
  0 ≤ a >> 12 < size → size ≤ 512 →
  tlbtrace_ntlb_find2 a final s = Err Diverges.
Proof.
  intros a Hx Hst Hm Hl Hinv Ha Hsz.
  assert (s32 ((a >> 12) .& u32 (-1)) = a >> 12) as Hstart.
  { change (u32 (-1)) with (Z.ones 32). rewrite Z.land_ones by lia.
    rewrite Z.mod_small by lia. apply s32_small. lia. }
  destruct (zlookup_in_range (ntlb2_tlb s) 0) as [e0 He0]; [lia|].
  assert (∀ c n, tlb_access (ntlb_same a) (ntlb_fill a) (a >> 12) size 0
    (ntlb2_tlb s) c n = Err Diverges) as Hacc.
  { intros c n. unfold tlb_access, tlb_lookup.
    rewrite (aget_Ok _ _ _ He0), bind_ret.
    pose proof (page_slot_stuck (S (Z.to_nat size)) (ntlb2_tlb s) x size 0 (ts e0)) as Hp.
    cbn zeta in Hp. unfold a. rewrite Hp; [done|done|lia|done]. }
  unfold tlbtrace_ntlb_find2, ntlb_start.
  destruct (negb (truth final)); cbn -[tlb_access u32 s32];
    by rewrite ?Hx, ?Hst, ?Hm, Hstart, Hacc.
Qed.

(** With more ways than entries the way step is zero, and a trace whose
    first record refers to a page number below the number of entries never
    finishes: the search loop inspects the same slot for ever, so that no
    number of iterations ends it. *)
Theorem sim_more_ways_than_entries_diverges fs name bs r rs size way ps pw result s :
  let a := t1 r .& 0xFFFFF000 in
  banks_wf s → fs name = Some bs → fread_records bs = r :: rs →
  1 ≤ size < way → size ≤ CACHE_MAX_ENTRIES → 0 ≤ a >> 12 < size →
  tlbsim_sim_ntlb fs name size way ps pw result s = Err Diverges ∧
  (∀ fuel mi mts tlb, zlength tlb = CACHE_MAX_ENTRIES →
   Forall (λ e, va e = invalid_va) tlb →
   scan fuel tlb (ntlb_same a) size 0 (a >> 12) mi mts = Err Diverges).
Proof.
  intros a Hb Hfs Hrs Hw Hsz Ha. unfold CACHE_MAX_ENTRIES in *.
  split; [|intros; apply page_slot_stuck; auto; lia].
  assert (cdiv size way = Ok 0) as Hq.
  { unfold cdiv. destruct (Z.eqb_spec way 0); [lia|]. by rewrite Z.quot_small by lia. }
  unfold tlbsim_sim_ntlb, config_ntlb. rewrite Hq, !bind_ret.
  set (s1 := set_field TLB_WAYMASK_NTLB _ _).
  destruct (flush_all_spec s1 Hb) as (s2 & Hf & Hsh & Hbk).
  unfold run_file. rewrite Hf, Hfs, bind_ret, Hrs. cbn [run_records].
  unfold shape, banks in Hsh, Hbk. injection Hsh as Hm Hx Hst _ _ _ _ Hl _ _ _.
  injection Hbk as _ Hbk _ _ _.
  unfold banks_wf, banks, CACHE_MAX_ENTRIES in Hb. rewrite !Forall_cons in Hb.
  destruct Hb as (_ & Hb & _).
  unfold emulate_ntlb2. fold a. unfold a.
  rewrite (find2_diverges (t1 r) size 0 s2); [done|done|done|done|by rewrite Hl| |done|done].
  rewrite Hbk. unfold reset_bank. by apply Forall_fmap, Forall_forall.
Qed.

Lemma sim_more_ways_than_entries_diverges_witness :
  tlbsim_sim_ntlb demo_fs "./t"%string 64 128 0 0 zero_result sim_init = Err Diverges.
Proof.
  apply (sim_more_ways_than_entries_diverges demo_fs "./t"%string _
    (mkRec 0x10003 0x4000 0x8040 0x23000)
    [mkRec 0x20001 0x4008 0 0; mkRec 0x10003 0x4000 0x8040 0x23000]
    64 128 0 0 zero_result sim_init sim_init_banks demo_fs_t);
    [vm_compute; reflexivity|lia|unfold CACHE_MAX_ENTRIES; lia|].
  vm_compute. split; [discriminate|reflexivity].
Defined.

