(* ===== verification/TraceFiles.v ===== *)
(** * Choosing the trace files and running them ([tlb_sim.c], [main.c])

    [list_trace_files] filters a directory by name and sorts it; [tlbsim_sim]
    runs the selected simulation on every file; [main] parses the command
    line and prints the results.  The theorems say which files are chosen
    and that every file is simulated from cold caches. *)
From Stdlib Require Import Ascii.
From stdpp Require Import pretty.
From S2P Require Import Prelude TlbCore TraceFormat TlbSim TlbSimFacts.

(** ** The C library functions the code calls, on strings without NUL *)

Fixpoint has_prefix (p s : string) : bool :=
  match p, s with
  | EmptyString, _ => true
  | String a p, String b s => Ascii.eqb a b && has_prefix p s
  | _, _ => false
  end.

(** [strstr(s, p) != NULL] *)
Fixpoint strstr (s p : string) : bool :=
  has_prefix p s ||
  match s with EmptyString => false | String _ s => strstr s p end.

(** The sign of [strcmp]: unsigned bytes, the terminator below all others. *)
Fixpoint strcmp (s t : string) : Z :=
  match s, t with
  | EmptyString, EmptyString => 0
  | EmptyString, String _ _ => -1
  | String _ _, EmptyString => 1
  | String a s, String b t =>
      match N.compare (Ascii.N_of_ascii a) (Ascii.N_of_ascii b) with
      | Lt => -1 | Gt => 1 | Eq => strcmp s t
      end
  end.

(** [snprintf(buf, n, "%s", s)] keeps at most [n - 1] characters. *)
Definition truncate (n : nat) (s : string) : string := String.substring 0 (n - 1) s.

(** ** [list_trace_files] *)
Definition MAX_TRACE_FILES : nat := 128.

(** [snprintf(suffix, 32, "_%d.%d", tlb_size, tlb_way)] *)
Definition suffix (tlb_size tlb_way : Z) : string :=
  truncate 32 ("_" +:+ pretty tlb_size +:+ "." +:+ pretty tlb_way).

(** The two [continue] guards: [memcmp] against ["trace_"] stops at the end
    of a shorter name, whose terminator differs. *)
Definition selected (tlb_size tlb_way : Z) (d_name : string) : bool :=
  strstr d_name (suffix tlb_size tlb_way) && has_prefix "trace_" d_name.

(** [snprintf(buf, 512, "%s/%s", path, d_name)] *)
Definition trace_path (path d_name : string) : string :=
  truncate 512 (path +:+ "/" +:+ d_name).

(** The [readdir] loop: leaves when the table of 128 names is full. *)
Fixpoint read_entries (path : string) (tlb_size tlb_way : Z)
    (entries : list string) (trace_files : list string) : list string :=
  match entries with
  | [] => trace_files
  | d_name :: entries =>
      if selected tlb_size tlb_way d_name then
        let trace_files := trace_files ++ [trace_path path d_name] in
        if (length trace_files =? MAX_TRACE_FILES)%nat then trace_files
        else read_entries path tlb_size tlb_way entries trace_files
      else read_entries path tlb_size tlb_way entries trace_files
  end.

(** [comparator] for [qsort]. *)
Definition comparator (p1 p2 : string) : Z := strcmp p1 p2.
Definition path_le (p1 p2 : string) : Prop := comparator p1 p2 ≤ 0.
#[export] Instance path_le_dec : RelDecision path_le.
Proof. intros p1 p2. unfold path_le. apply _. Defined.

(** A directory: its entries in [readdir] order, or [None] when [opendir]
    fails. *)
Definition dirs := string → option (list string).

(** [trace_files[0 .. trace_count-1]] after the call; [qsort] is any sorting
    function. *)
Definition list_trace_files (ds : dirs) (path : string) (tlb_size tlb_way : Z) :
    list string :=
  match ds path with
  | None => []
  | Some entries =>
      merge_sort path_le (read_entries path tlb_size tlb_way entries [])
  end.

(** ** [tlbsim_sim] *)
Definition funcs : list sim_fun :=
  [tlbsim_sim_ntlb; tlbsim_sim_pwc_ept; tlbsim_sim_pwc_noept; tlbsim_sim_ntlb_pwc].

(** [memset(results[i], 0, sizeof(struct SIM_RESULT))] *)
Definition cleared_result : SIM_RESULT :=
  mkResult 0 (mkTLB_COUNTER 0 0) (mkTLB_COUNTER 0 0).

(** The loop over the files; [oom i] says that the [i]-th [malloc] fails. *)
Fixpoint run_all (oom : nat → bool) (fs : files) (ntlb_size pwc_size way cmd : Z)
    (i : nat) (names : list string) (s : sim_state) :
    res (list SIM_RESULT * sim_state) :=
  match names with
  | [] => Ok ([], s)
  | name :: names =>
      if oom (S i) then Err NullPointer
      else
        f ← from_option_res BadIndirectCall (zlookup funcs cmd);
        '(r, s) ← f fs name ntlb_size way pwc_size way cleared_result s;
        '(rs, s) ← run_all oom fs ntlb_size pwc_size way cmd (S i) names s;
        Ok (r :: rs, s)
  end.

(** The array of [trace_count + 1] pointers; [None] is the NULL pointer. *)
Definition tlbsim_sim (oom : nat → bool) (fs : files) (ds : dirs)
    (tlb_size ntlb_size pwc_size way cmd : Z) (path : string) (s : sim_state) :
    res (option (list (option SIM_RESULT)) * sim_state) :=
  let trace_files := list_trace_files ds path tlb_size way in
  if oom 0%nat then Ok (None, s)
  else
    '(rs, s) ← run_all oom fs ntlb_size pwc_size way cmd 0 trace_files s;
    Ok (Some ((Some <$> rs) ++ [None]), s).

(** ** [main] *)
Definition is_space (c : Ascii.ascii) : bool :=
  let n := Ascii.N_of_ascii c in ((n =? 32)%N || ((9 <=? n)%N && (n <=? 13)%N)).
Definition digit_of (c : Ascii.ascii) : option Z :=
  let n := Ascii.N_of_ascii c in
  if ((48 <=? n)%N && (n <=? 57)%N) then Some (Z.of_N n - 48) else None.

Fixpoint digits (acc : Z) (s : string) : Z :=
  match s with
  | String c s' => match digit_of c with
                   | Some d => digits (10 * acc + d) s' | None => acc end
  | EmptyString => acc
  end.

(** [atoi]: white space, an optional sign, digits.  Its result is only
    specified when the value is an [int]. *)
Fixpoint atoi (s : string) : Z :=
  match s with
  | EmptyString => 0
  | String c s' =>
      if is_space c then atoi s'
      else if Ascii.eqb c "-"%char then - digits 0 s'
      else if Ascii.eqb c "+"%char then digits 0 s'
      else digits 0 s
  end.

(** [for (i = 0; results[i] != NULL; i++) print(results[i])] *)
Fixpoint print_rows (results : list (option SIM_RESULT)) : res (list SIM_RESULT) :=
  match results with
  | [] => Err OutOfBounds
  | None :: _ => Ok []
  | Some r :: results => rs ← print_rows results; Ok (r :: rs)
  end.

(** The exit status and the rows printed on [stdout]. *)
Definition main (oom : nat → bool) (fs : files) (ds : dirs) (argv : list string)
    (s : sim_state) : res (Z * list SIM_RESULT) :=
  match argv with
  | [_; a1; a2; a3; a4; a5] =>
      let tlb_size := atoi a1 in
      let tlb_way := atoi a2 in
      let ntlb_size := atoi a3 in
      let pwc_size := atoi a4 in
      let cmd := atoi a5 in
      '(results, _) ←
        tlbsim_sim oom fs ds tlb_size ntlb_size pwc_size tlb_way cmd "./TRACES" s;
      match results with
      | None => Err NullPointer
      | Some results => rows ← print_rows results; Ok (0, rows)
      end
  | _ => Ok (1, [])
  end.

(** ** [strcmp] is a total order *)
Lemma strcmp_opp s t : strcmp t s = - strcmp s t.
Proof.
  revert t. induction s as [|a s IH]; intros [|b t]; cbn; [done..|].
  rewrite (N.compare_antisym (Ascii.N_of_ascii a)).
  destruct (N.compare (Ascii.N_of_ascii a) _); cbn; auto.
Qed.

Lemma strcmp_eq s t : strcmp s t = 0 → s = t.
Proof.
  revert t. induction s as [|a s IH]; intros [|b t]; cbn; [done..|].
  case_match eqn:E; [|done..]. intros ->%IH. f_equal.
  apply N.compare_eq in E.
  by rewrite <- (Ascii.ascii_N_embedding a), <- (Ascii.ascii_N_embedding b), E.
Qed.

#[export] Instance path_le_antisymm : AntiSymm (=) path_le.
Proof.
  intros s t. unfold path_le, comparator. rewrite (strcmp_opp s t). intros.
  apply strcmp_eq. lia.
Qed.

#[export] Instance path_le_total : Total path_le.
Proof. intros s t. unfold path_le, comparator. rewrite (strcmp_opp s t). lia. Qed.

#[export] Instance path_le_trans : Transitive path_le.
Proof.
  unfold path_le, comparator. intros s t.
  revert s. induction t as [|b t IH]; intros [|a s] [|c u]; cbn; try lia.
  destruct (N.compare_spec (Ascii.N_of_ascii a) (Ascii.N_of_ascii b)) as [E1|E1|E1];
    destruct (N.compare_spec (Ascii.N_of_ascii b) (Ascii.N_of_ascii c)) as [E2|E2|E2];
    destruct (N.compare_spec (Ascii.N_of_ascii a) (Ascii.N_of_ascii c)) as [E3|E3|E3];
    try lia; eauto.
Qed.

(** ** The listing *)
Lemma read_entries_spec path size way entries acc :
  (length acc < MAX_TRACE_FILES)%nat →
  read_entries path size way entries acc =
  acc ++ take (MAX_TRACE_FILES - length acc)
    (trace_path path <$> filter (λ n, selected size way n = true) entries).
Proof.
  revert acc. induction entries as [|n entries IH]; intros acc Hacc; cbn [read_entries].
  { by rewrite filter_nil, fmap_nil, take_nil, app_nil_r. }
  destruct (selected size way n) eqn:Hn.
  - rewrite filter_cons_True by done. rewrite fmap_cons.
    remember (MAX_TRACE_FILES - length acc)%nat as k eqn:Hk.
    destruct k as [|k]; [lia|]. rewrite firstn_cons.
    rewrite length_app. cbn [length].
    destruct (Nat.eqb_spec (length acc + 1) MAX_TRACE_FILES) as [E|E].
    + replace k with 0%nat by lia. by rewrite take_0.
    + rewrite IH; rewrite length_app; cbn [length]; [|lia].
      replace (MAX_TRACE_FILES - (length acc + 1))%nat with k by lia.
      by rewrite <- app_assoc.
  - rewrite filter_cons_False by (by rewrite Hn). by apply IH.
Qed.

(** The files simulated are the first 128 directory entries whose name
    starts with "trace_" and contains "_SIZE.WAY", as paths, in ascending
    [strcmp] order; and since that order is total and antisymmetric, every
    correct [qsort] leaves the same table. *)
Theorem list_trace_files_spec ds path tlb_size tlb_way entries :
  ds path = Some entries →
  let l := list_trace_files ds path tlb_size tlb_way in
  let chosen := take MAX_TRACE_FILES (trace_path path <$>
    filter (λ n, selected tlb_size tlb_way n = true) entries) in
  StronglySorted path_le l ∧ l ≡ₚ chosen ∧ (length l ≤ MAX_TRACE_FILES)%nat ∧
  ∀ l', StronglySorted path_le l' → l' ≡ₚ chosen → l' = l.
Proof.
  intros Hd l chosen.
  assert (l = merge_sort path_le chosen) as ->.
  { unfold l, list_trace_files. by rewrite Hd, read_entries_spec by (cbn; unfold MAX_TRACE_FILES; lia). }
  pose proof (StronglySorted_merge_sort path_le chosen) as Hs.
  pose proof (merge_sort_Permutation path_le chosen) as Hp.
  split; [done|]. split; [done|]. split.
  - rewrite Hp. unfold chosen. rewrite length_take. lia.
  - intros l' Hs' Hp'. apply (StronglySorted_unique path_le); [done..|].
    by rewrite Hp', Hp.
Qed.

(** A directory with two traces of a 16-entry 4-way TLB and two other files. *)
Definition demo_dirs : dirs :=
  λ path, if decide (path = "./TRACES"%string)
          then Some ["trace_0102_1200_16.4"; "README"; "trace_0101_0900_16.4";
                     "trace_0101_0900_64.4"]%string
          else None.

Lemma list_trace_files_spec_witness :
  let l := list_trace_files demo_dirs "./TRACES" 16 4 in
  l = ["./TRACES/trace_0101_0900_16.4"; "./TRACES/trace_0102_1200_16.4"]%string ∧
  StronglySorted path_le l.
Proof.
  split; [vm_compute; reflexivity|].
  destruct (list_trace_files_spec demo_dirs "./TRACES" 16 4 _ eq_refl) as [H _]. exact H.
Defined.


(** ** The suffix is only a substring *)
Lemma has_prefix_app p s : has_prefix p (p +:+ s) = true.
Proof. 
  induction p as [|a p IH]; [done|].
  change (Ascii.eqb a a && has_prefix p (p +:+ s) = true).
  by rewrite Ascii.eqb_refl, IH.
Qed.

Lemma strstr_app a p b : strstr (a +:+ p +:+ b) p = true.
Proof.
  induction a as [|c a IH].
  - assert (has_prefix p (p +:+ b) = true) as Hp by apply has_prefix_app.
    change (strstr (p +:+ b) p = true).
    by destruct (p +:+ b); unfold strstr; rewrite Hp.
  - change (has_prefix p (String c (a +:+ p +:+ b)) || strstr (a +:+ p +:+ b) p = true).
    rewrite IH. apply orb_true_r.
Qed.

(** ** Decimal numbers: appending a digit *)
Lemma append_assoc (a b c : string) : (a +:+ b) +:+ c = a +:+ (b +:+ c).
Proof. induction a as [|x a IH]; [done|]. exact (f_equal (String x) IH). Qed.

Lemma pretty_N_go_app x s : pretty_N_go x s = pretty_N_go x "" +:+ s.
Proof.
  revert s. induction (N.lt_wf_0 x) as [x _ IH]. intros s.
  destruct (decide (0 < x)%N) as [Hx|Hx]; [|by replace x with 0%N by lia].
  rewrite (pretty_N_go_step x s), (pretty_N_go_step x "") by done.
  assert (x `div` 10 < x)%N as Hlt by (by apply N.div_lt).
  rewrite (IH _ Hlt (String _ s)), (IH _ Hlt (String _ "")).
  by rewrite append_assoc.
Qed.

Lemma pretty_next_digit (w k : Z) :
  0 < w → 0 ≤ k < 10 → ∃ d, pretty (10 * w + k) = pretty w +:+ d.
Proof.
  intros Hw Hk. destruct w as [|w|w]; [lia| |lia].
  destruct (10 * Z.pos w + k) as [|v|v] eqn:E; [lia| |lia].
  exists (String (pretty_N_char (N.pos v `mod` 10)) "").
  change (pretty_N_go (N.pos v) "" = pretty_N_go (N.pos w) "" +:+
    String (pretty_N_char (N.pos v `mod` 10)) "").
  rewrite pretty_N_go_step by done. rewrite pretty_N_go_app. do 2 f_equal.
  apply N2Z.inj. rewrite N2Z.inj_div. cbn [Z.of_N]. rewrite <- E.
  rewrite Z.mul_comm, Z.div_add_l by lia. rewrite Z.div_small by lia. lia.
Qed.

(** A name of which nothing is cut off. *)
Lemma truncate_short n s : (String.length s < n)%nat → truncate n s = s.
Proof.
  unfold truncate. destruct n as [|n]; [lia|]. rewrite Nat.sub_succ, Nat.sub_0_r.
  revert n. induction s as [|c s IH]; intros [|n]; cbn; [done..|lia|].
  intros Hl. f_equal. apply IH. lia.
Qed.

(** The way count is matched as a substring, not as a number: a trace
    recorded with a [10 * way + k]-way TLB is simulated among the traces of the
    [way]-way TLB of the same size. *)
Theorem longer_way_count_is_selected tlb_size way k date rest :
  0 < way → 0 ≤ k < 10 →
  (String.length ("_" +:+ pretty tlb_size +:+ "." +:+ pretty way) < 32)%nat →
  selected tlb_size way
    ("trace_" +:+ date +:+ "_" +:+ pretty tlb_size +:+ "." +:+
     pretty (10 * way + k) +:+ rest) = true.
Proof.
  intros Hw Hk Hl. unfold selected, suffix. rewrite truncate_short by done.
  rewrite has_prefix_app, andb_true_r.
  destruct (pretty_next_digit way k Hw Hk) as [d ->].
  rewrite !append_assoc.
  rewrite <- (append_assoc "trace_" date).
  rewrite <- (append_assoc "." (pretty way)), <- (append_assoc (pretty tlb_size)),
    <- (append_assoc "_").
  apply strstr_app.
Qed.

Lemma longer_way_count_is_selected_witness :
  selected 16 1 ("trace_" +:+ "0101_0000" +:+ "_" +:+ pretty 16 +:+ "." +:+
    pretty (10 * 1 + 6) +:+ "") = true.
Proof. apply (longer_way_count_is_selected 16 1 6); [lia..|vm_compute; lia]. Defined.

(** ** Every file is simulated from cold caches *)

(** What a simulation never changes: the geometry and the unused [pa]. *)
Definition frame (s : sim_state) : list Z * list (list Z) :=
  ([TLB_WAYMASK_NTLB s; TLB_MAX_ENTRIES_NTLB s; TLB_WAYSTEP_NTLB s;
    TLB_WAYMASK_PWC s; TLB_MAX_ENTRIES_PWC s; TLB_WAYSTEP_PWC s],
   map (map pa) (banks s)).

Lemma tlb_access_pa same fill start max step tlb cnt n r t' c' n' :
  (∀ e, pa (fill e) = pa e) →
  tlb_access same fill start max step tlb cnt n = Ok (r, (t', c', n')) →
  map pa t' = map pa tlb.
Proof.
  intros Hfill (f & e & _ & _ & Ha)%tlb_access_inv.
  destruct f as [i|i]; destruct Ha as (He & _ & -> & _);
    destruct (zlookup_split _ _ _ He) as (l1 & l2 & -> & ->);
    rewrite !map_app; cbn; by rewrite ?Hfill.
Qed.

Ltac frame_lookup H :=
  apply bind_Ok in H; destruct H as ((? & ((? & ?) & ?)) & Ha & H);
  apply tlb_access_pa in Ha; [|done]; injection H as H; subst;
  unfold frame, banks; cbn in *; by rewrite ?Ha.

Lemma ntlb_find2_frame a f s r s' :
  tlbtrace_ntlb_find2 a f s = Ok (r, s') → frame s' = frame s.
Proof.
  unfold tlbtrace_ntlb_find2. intros H. destruct (negb (truth f));
    apply bind_Ok in H as ((? & ((? & ?) & ?)) & Ha & H);
    apply tlb_access_pa in Ha; try done; injection H as H; subst;
    destruct (r =? 0); unfold frame, banks; cbn in *; by rewrite ?Ha.
Qed.
Lemma ntlb_find_frame a s r s' :
  tlbtrace_ntlb_find a s = Ok (r, s') → frame s' = frame s.
Proof. unfold tlbtrace_ntlb_find. intros H. frame_lookup H. Qed.
Lemma pwc_frame x a s r s' :
  tlbtrace_refppa_pwc x a s = Ok (r, s') → frame s' = frame s.
Proof. unfold tlbtrace_refppa_pwc. intros H. frame_lookup H. Qed.
Lemma pwc2_frame x a s r s' :
  tlbtrace_refppa_pwc2 x a s = Ok (r, s') → frame s' = frame s.
Proof. unfold tlbtrace_refppa_pwc2. intros H. frame_lookup H. Qed.
Lemma pwc3_frame x a s r s' :
  tlbtrace_refppa_pwc3 x a s = Ok (r, s') → frame s' = frame s.
Proof. unfold tlbtrace_refppa_pwc3. intros H. frame_lookup H. Qed.

(** Runs through a successful step, collecting that each part keeps the frame. *)
Ltac frame_step :=
  match goal with
  | H : _ ≫= _ = Ok _ |- _ => apply bind_Ok in H as (? & ? & H)
  | H : (let '(_, _) := ?p in _) = Ok _ |- _ => destruct p
  | H : (if ?b then _ else _) = Ok _ |- _ => destruct b
  | H : Ok _ = Ok _ |- _ => injection H as H; subst
  | H : tlbtrace_ntlb_find2 _ _ _ = Ok _ |- _ => apply ntlb_find2_frame in H
  | H : tlbtrace_ntlb_find _ _ = Ok _ |- _ => apply ntlb_find_frame in H
  | H : tlbtrace_refppa_pwc _ _ _ = Ok _ |- _ => apply pwc_frame in H
  | H : tlbtrace_refppa_pwc2 _ _ _ = Ok _ |- _ => apply pwc2_frame in H
  | H : tlbtrace_refppa_pwc3 _ _ _ = Ok _ |- _ => apply pwc3_frame in H
  end.
(** Chains the collected equations. *)
Ltac frame_chain :=
  repeat match goal with
  | H : frame ?s = _ |- frame ?s = _ => rewrite H; clear H
  end; reflexivity.

Lemma pwc2_host_frame x s s' : pwc2_ref_host x s = Ok s' → frame s' = frame s.
Proof.
  unfold pwc2_ref_host. intros H. repeat frame_step.
  by destruct (_ =? 0).
Qed.
Lemma full_host_frame x s s' : full_ref_host x s = Ok s' → frame s' = frame s.
Proof. unfold full_ref_host. intros H. repeat frame_step. by destruct (_ =? 0). Qed.
Lemma pwc3_guest_frame x s s' : pwc3_ref_guest x s = Ok s' → frame s' = frame s.
Proof. unfold pwc3_ref_guest. intros H. repeat frame_step. by destruct (_ =? 0). Qed.

Lemma pwc2_guest_frame x s s' : pwc2_ref_guest x s = Ok s' → frame s' = frame s.
Proof.
  unfold pwc2_ref_guest. intros H. repeat frame_step; [|done].
  repeat match goal with H : pwc2_ref_host _ _ = _ |- _ => apply pwc2_host_frame in H end.
  change (frame x1 = frame s). frame_chain.
Qed.
Lemma full_nested_frame p x s s' : full_nested p x s = Ok s' → frame s' = frame s.
Proof.
  unfold full_nested. intros H. repeat frame_step; [|done].
  repeat match goal with H : full_ref_host _ _ = _ |- _ => apply full_host_frame in H end.
  frame_chain.
Qed.
Lemma full_guest_frame x s s' : full_ref_guest x s = Ok s' → frame s' = frame s.
Proof.
  unfold full_ref_guest. intros H. repeat frame_step; [|done].
  repeat match goal with H : full_nested _ _ _ = _ |- _ => apply full_nested_frame in H end.
  change (frame x0 = frame s). frame_chain.
Qed.

Lemma emulate_ntlb2_frame a b c d s s' :
  emulate_ntlb2 a b c d s = Ok s' → frame s' = frame s.
Proof. unfold emulate_ntlb2. intros H. repeat frame_step; frame_chain. Qed.
Lemma emulate_pwc2_frame a b c d s s' :
  emulate_pwc2 a b c d s = Ok s' → frame s' = frame s.
Proof.
  unfold emulate_pwc2. intros H. repeat frame_step;
    repeat match goal with
    | H : pwc2_ref_host _ _ = _ |- _ => apply pwc2_host_frame in H
    | H : pwc2_ref_guest _ _ = _ |- _ => apply pwc2_guest_frame in H end; frame_chain.
Qed.
Lemma emulate_pwc3_frame a b c d s s' :
  emulate_pwc3 a b c d s = Ok s' → frame s' = frame s.
Proof.
  unfold emulate_pwc3. intros H. repeat frame_step;
    repeat match goal with
    | H : pwc3_ref_guest _ _ = _ |- _ => apply pwc3_guest_frame in H end; frame_chain.
Qed.
Lemma emulate_full_frame a b c d s s' :
  emulate_full a b c d s = Ok s' → frame s' = frame s.
Proof.
  unfold emulate_full. intros H. repeat frame_step;
    repeat match goal with
    | H : full_nested _ _ _ = _ |- _ => apply full_nested_frame in H
    | H : full_ref_guest _ _ = _ |- _ => apply full_guest_frame in H end; frame_chain.
Qed.

Lemma run_records_frame emulate rs s s' :
  (∀ a b c d s s', emulate a b c d s = Ok s' → frame s' = frame s) →
  run_records emulate rs s = Ok s' → frame s' = frame s.
Proof.
  intros He H.
  apply (run_records_inv emulate (λ s', frame s' = frame s) rs s s'); [|done..].
  intros a b c d s1 s2 H1 H2. by rewrite (He _ _ _ _ _ _ H2).
Qed.

Lemma frame_zlength s s' : frame s' = frame s → banks_wf s → banks_wf s'.
Proof.
  unfold frame, banks_wf, banks, zlength. intros [= _ _ _ _ _ _ E1 E2 E3 E4 E5].
  apply (f_equal length) in E1, E2, E3, E4, E5. rewrite !length_map in *.
  rewrite !Forall_cons, E1, E2, E3, E4, E5. done.
Qed.

Lemma reset_bank_pa t t' : map pa t = map pa t' → reset_bank t = reset_bank t'.
Proof.
  unfold reset_bank. revert t'. induction t as [|e t IH]; intros [|e' t']; try done.
  intros [= He Ht]. cbn. f_equal; [|by apply IH].
  unfold reset_entry. destruct e, e'. cbn in *. by subst.
Qed.

Lemma flush_all_frame s s' : banks_wf s → flush_all s = Ok s' → frame s' = frame s.
Proof.
  intros Hb H. destruct (flush_all_spec s Hb) as (s2 & Hf & Hsh & Hbk).
  rewrite Hf in H. injection H as ->. unfold frame. rewrite Hbk.
  unfold shape in Hsh. injection Hsh as -> -> -> -> -> -> _ _ _ _ _. f_equal.
  unfold banks, reset_bank. cbn. by rewrite !map_map.
Qed.

Lemma sim_state_ext (s s' : sim_state) : eta_sim s = eta_sim s' → s = s'.
Proof. by destruct s, s'. Qed.

(** After a flush nothing is left of the earlier runs. *)
Lemma flush_all_cold s s' :
  banks_wf s → frame s' = frame s → flush_all s' = flush_all s.
Proof.
  intros Hb Hfr. pose proof (frame_zlength _ _ Hfr Hb) as Hb'.
  unfold banks_wf, banks in Hb, Hb'. rewrite !Forall_cons in Hb, Hb'.
  destruct Hb as (? & ? & ? & ? & ? & _), Hb' as (? & ? & ? & ? & ? & _).
  unfold frame, banks in Hfr. injection Hfr as E1 E2 E3 E4 E5 E6 B1 B2 B3 B4 B5.
  unfold flush_all.
  do 5 (rewrite !INIT_TLB_full by done; cbn [mbind res_bind]).
  apply reset_bank_pa in B1, B2, B3, B4, B5.
  apply (f_equal Ok), sim_state_ext. unfold eta_sim. cbn -[reset_bank] in *.
  by rewrite B1, B2, B3, B4, B5, E1, E2, E3, E4, E5, E6.
Qed.

(** The common shape of the four simulations. *)
Definition sim_with (config : sim_state → res sim_state)
    (emulate : Z → Z → Z → Z → sim_state → res sim_state)
    (out : sim_state → SIM_RESULT) (fs : files) (name : string) (s : sim_state) :
    res (SIM_RESULT * sim_state) :=
  s ← config s; s ← run_file fs name emulate s; Ok (out s, s).

(** Configuring again changes nothing. *)
Definition idem_config (config : sim_state → res sim_state) : Prop :=
  (∀ s sc, config s = Ok sc → banks sc = banks s) ∧
  ∀ s sc s1, config s = Ok sc → frame s1 = frame sc →
    ∃ sc1, config s1 = Ok sc1 ∧ frame sc1 = frame sc.

Lemma sim_with_cold config emulate out fs n1 n2 out2 s r1 s1 :
  idem_config config →
  (∀ a b c d s s', emulate a b c d s = Ok s' → frame s' = frame s) →
  banks_wf s → sim_with config emulate out fs n1 s = Ok (r1, s1) →
  banks_wf s1 ∧
  sim_with config emulate out2 fs n2 s1 = sim_with config emulate out2 fs n2 s.
Proof.
  intros [Hbk Hid] He Hb H. unfold sim_with in *.
  apply bind_Ok in H as (sc & Hc & H). apply bind_Ok in H as (s2 & Hr & H).
  injection H as <- <-.
  assert (banks_wf sc) as Hbc by (unfold banks_wf; by rewrite (Hbk _ _ Hc)).
  assert (frame s2 = frame sc) as Hfr.
  { unfold run_file in Hr. apply bind_Ok in Hr as (s3 & Hf & Hr).
    destruct (fs n1); [|done]. rewrite (run_records_frame _ _ _ _ He Hr).
    by apply flush_all_frame. }
  split; [by apply (frame_zlength sc)|].
  destruct (Hid s sc s2 Hc Hfr) as (sc1 & Hc1 & Hfr1).
  rewrite Hc, Hc1, !bind_ret. unfold run_file.
  by rewrite (flush_all_cold sc sc1 Hbc Hfr1).
Qed.

Lemma config_ntlb_idem n w : idem_config (config_ntlb n w).
Proof.
  unfold idem_config, config_ntlb. split.
  - intros s sc Hc. apply bind_Ok in Hc as (q & _ & Hc). by injection Hc as <-.
  - intros s sc s1 Hc Hfr. apply bind_Ok in Hc as (q & -> & Hc). injection Hc as <-.
    eexists. split; [reflexivity|]. unfold frame, banks in *. cbn in *. congruence.
Qed.

Lemma config_pwc_idem n w : idem_config (config_pwc n w).
Proof.
  unfold idem_config, config_pwc. split.
  - intros s sc Hc. apply bind_Ok in Hc as (q & _ & Hc). by injection Hc as <-.
  - intros s sc s1 Hc Hfr. apply bind_Ok in Hc as (q & -> & Hc). injection Hc as <-.
    eexists. split; [reflexivity|]. unfold frame, banks in *. cbn in *. congruence.
Qed.

Lemma config_both_idem n w p v :
  idem_config (λ s, s ← config_ntlb n w s; config_pwc p v s).
Proof.
  unfold idem_config, config_ntlb, config_pwc. split.
  - intros s sc Hc. inv_res. done.
  - intros s sc s1 Hc Hfr. apply bind_Ok in Hc as (s2 & Hc2 & Hc).
    apply bind_Ok in Hc2 as (q & -> & Hc2). injection Hc2 as <-.
    apply bind_Ok in Hc as (q' & -> & Hc). injection Hc as <-.
    eexists. split; [reflexivity|]. unfold frame, banks in *. cbn in *. congruence.
Qed.

Lemma ntlb_pwc_with fs name n w p v result s :
  tlbsim_sim_ntlb_pwc fs name n w p v result s =
  sim_with (λ s, s ← config_ntlb n w s; config_pwc p v s) emulate_full
    (λ s, result <| accs := full_mem_accs s |> <| ntlb := ntlb_cnt s |>
                 <| pwc := pwc_cnt s |>) fs name s.
Proof.
  unfold tlbsim_sim_ntlb_pwc, sim_with. by destruct (config_ntlb n w s).
Qed.

(** One simulation leaves no trace in the next. *)
Lemma funcs_cold f fs n1 n2 ns nw ps pw result1 result2 s r1 s1 :
  f ∈ funcs → banks_wf s → f fs n1 ns nw ps pw result1 s = Ok (r1, s1) →
  banks_wf s1 ∧ f fs n2 ns nw ps pw result2 s1 = f fs n2 ns nw ps pw result2 s.
Proof.
  unfold funcs. rewrite !elem_of_cons, elem_of_nil. intros Hf Hb H.
  destruct Hf as [-> | [-> | [-> | [-> | []]]]].
  - by apply (sim_with_cold _ emulate_ntlb2 _ _ _ _ _ _ _ _ (config_ntlb_idem ns nw)
      emulate_ntlb2_frame Hb H).
  - by apply (sim_with_cold _ emulate_pwc2 _ _ _ _ _ _ _ _ (config_pwc_idem ps pw)
      emulate_pwc2_frame Hb H).
  - by apply (sim_with_cold _ emulate_pwc3 _ _ _ _ _ _ _ _ (config_pwc_idem ps pw)
      emulate_pwc3_frame Hb H).
  - rewrite ntlb_pwc_with in H. rewrite !ntlb_pwc_with.
    by apply (sim_with_cold _ emulate_full _ _ _ _ _ _ _ _ (config_both_idem ns nw ps pw)
      emulate_full_frame Hb H).
Qed.

Lemma funcs_legal f fs name bs ns nw ps pw result s :
  f ∈ funcs → banks_wf s → fs name = Some bs →
  1 ≤ nw ≤ ns → ns ≤ 512 → 1 ≤ pw ≤ ps → ps ≤ 512 →
  ∃ r s', f fs name ns nw ps pw result s = Ok (r, s').
Proof.
  unfold funcs. rewrite !elem_of_cons, elem_of_nil. intros Hf Hb Hfs ? ? ? ?.
  assert (legal_run fs name ns nw ps pw result s f) as (r & s' & Hrun & _); [|eauto].
  destruct Hf as [-> | [-> | [-> | [-> | []]]]];
    eauto using ntlb_legal_run, pwc_ept_legal_run, pwc_noept_legal_run, ntlb_pwc_legal_run.
Qed.

(** A result row per file, each computed from the state [s0]. *)
Definition cold_rows (f : sim_fun) (fs : files) (ntlb_size pwc_size way : Z)
    (s0 : sim_state) (names : list string) (rows : list SIM_RESULT) : Prop :=
  Forall2 (λ name r, ∃ s', f fs name ntlb_size way pwc_size way cleared_result s0 = Ok (r, s'))
    names rows.

Lemma run_all_cold oom fs ntlb_size pwc_size way cmd f s0 names i s :
  zlookup funcs cmd = Some f → (∀ i, oom i = false) →
  (∀ name, name ∈ names → ∃ bs, fs name = Some bs) →
  1 ≤ way → way ≤ ntlb_size ≤ 512 → way ≤ pwc_size ≤ 512 →
  banks_wf s → (∀ name r, f fs name ntlb_size way pwc_size way r s =
                          f fs name ntlb_size way pwc_size way r s0) →
  ∃ rows s', run_all oom fs ntlb_size pwc_size way cmd i names s = Ok (rows, s') ∧
    cold_rows f fs ntlb_size pwc_size way s0 names rows.
Proof.
  intros Hf Hoom Hfs Hw Hn Hp Hb Hs. revert i s Hb Hs.
  assert (f ∈ funcs) as Hin by (by eapply zlookup_elem).
  induction names as [|name names IH]; intros i s Hb Hs; cbn [run_all].
  { eexists [], s. split; [done|constructor]. }
  rewrite Hoom, Hf. cbn [from_option_res]. rewrite bind_ret.
  destruct (Hfs name) as [bs Hbs]; [by left|].
  destruct (funcs_legal f fs name bs ntlb_size way pwc_size way cleared_result s)
    as (r & s1 & Hr); [done..|lia|lia|lia|lia|].
  destruct (funcs_cold f fs name name ntlb_size way pwc_size way cleared_result
    cleared_result s r s1 Hin Hb Hr) as [Hb1 _].
  destruct (IH ltac:(intros n' Hn'; apply Hfs; by right) (S i) s1 Hb1) as (rows & s' & Hrun & Hrows).
  { intros n' r'. rewrite <- Hs. by eapply funcs_cold. }
  exists (r :: rows), s'. rewrite Hr, bind_ret, Hrun. split; [done|].
  constructor; [|done]. exists s1. by rewrite <- Hs.
Qed.

(** C31: With a legal geometry, a command between 0 and 3 and enough memory,
    [tlbsim_sim] returns one row per chosen file, in the order of the files,
    followed by NULL; each row is what its file gives from the state at the
    call, so neither the other files nor their order influence it. *)
Theorem tlbsim_sim_rows oom fs ds tlb_size ntlb_size pwc_size way cmd path s :
  let names := list_trace_files ds path tlb_size way in
  banks_wf s → (∀ i, oom i = false) → (∀ n, n ∈ names → ∃ bs, fs n = Some bs) →
  0 ≤ cmd < 4 → 1 ≤ way → way ≤ ntlb_size ≤ 512 → way ≤ pwc_size ≤ 512 →
  ∃ f rows s', zlookup funcs cmd = Some f ∧
    tlbsim_sim oom fs ds tlb_size ntlb_size pwc_size way cmd path s
      = Ok (Some ((Some <$> rows) ++ [None]), s') ∧
    length rows = length names ∧
    cold_rows f fs ntlb_size pwc_size way s names rows ∧
    print_rows ((Some <$> rows) ++ [None]) = Ok rows.
Proof.
  intros names Hb Hoom Hfs Hcmd Hw Hn Hp.
  destruct (zlookup_in_range funcs cmd) as [f Hf]; [done|].
  destruct (run_all_cold oom fs ntlb_size pwc_size way cmd f s names 0 s)
    as (rows & s' & Hrun & Hrows); [done..|].
  exists f, rows, s'. split; [done|]. split.
  { unfold tlbsim_sim. fold names. by rewrite Hoom, Hrun. }
  split; [symmetry; by eapply Forall2_length|]. split; [done|].
  clear. induction rows as [|r rows IH]; [done|]. cbn. by rewrite IH.
Qed.

(** The two selected traces of [demo_dirs] are copies of the demo trace. *)
Definition demo_traces : files :=
  λ name, if has_prefix "./TRACES/trace_" name
          then Some (words_bytes (demo_records ≫= rec_words)) else None.

Lemma tlbsim_sim_rows_witness :
  ∃ f rows s', zlookup funcs 0 = Some f ∧
    tlbsim_sim (λ _, false) demo_traces demo_dirs 16 16 16 4 0 "./TRACES" sim_init
      = Ok (Some ((Some <$> rows) ++ [None]), s') ∧ length rows = 2%nat.
Proof.
  destruct (tlbsim_sim_rows (λ _, false) demo_traces demo_dirs 16 16 16 4 0
    "./TRACES"%string sim_init sim_init_banks) as (f & rows & s' & Hf & Hr & Hl & _).
  - reflexivity.
  - replace (list_trace_files _ _ _ _)
      with ["./TRACES/trace_0101_0900_16.4"; "./TRACES/trace_0102_1200_16.4"]%string
      by (vm_compute; reflexivity).
    intros n. rewrite !elem_of_cons, elem_of_nil.
    intros [-> | [-> | []]]; (eexists; vm_compute; reflexivity).
  - lia.
  - lia.
  - lia.
  - lia.
  - exists f, rows, s'. split; [exact Hf|]. split; [exact Hr|].
    rewrite Hl. vm_compute. reflexivity.
Defined.
