(* ===== verification/TlbTrace.v ===== *)
(** * The tracer ([tlb_trace.c], without [USE_QEMU])

    State: the file's global variables and the disk.  Every memory reference
    goes through the software TLB [sl_tlb]; a miss walks the page table with
    the callback and appends a four-word record to a buffer that is written to
    the trace file when it is full and when the tracer stops. *)
From stdpp Require Import pretty.
From S2P Require Import Prelude TlbCore TraceFormat TraceFiles.

(** ** State *)

(** The callback: return value and the three descriptor words it stores; the
    [int] it returns is OR-ed into the page address. *)
Definition pte_helper_t := Z → Z * (Z * Z * Z).

(** The buffer pointer: NULL, dangling after [free], or an allocated block
    whose words written so far are listed. *)
Inductive buffer : Type :=
| NoBuffer
| Freed
| Live (ws : list Z).

Record tracer := mkTracer {
  tlb_size : Z;
  tlb_set : Z;
  tlb_set_step : Z;
  tlb_set_mask : Z;
  sl_tlb : option (list TLB_ENTRY);   (** [None] is NULL *)
  sl_cnt : TLB_COUNTER;
  systs : Z;
  started : Z;
  disk : gmap string (list Z);        (** the files, as bytes *)
  fout : option string;               (** the open file; [None]: [open] failed or closed *)
  fbc : Z;
  fbuf : buffer;
  my_pte_helper : pte_helper_t;
  last_ins_idx : Z
}.
Definition eta_tracer (s : tracer) : tracer :=
  mkTracer (tlb_size s) (tlb_set s) (tlb_set_step s) (tlb_set_mask s) (sl_tlb s)
    (sl_cnt s) (systs s) (started s) (disk s) (fout s) (fbc s) (fbuf s)
    (my_pte_helper s) (last_ins_idx s).
#[export] Instance set_tlb_size : Setter tlb_size := ltac:(derive_setter eta_tracer tlb_size).
#[export] Instance set_tlb_set : Setter tlb_set := ltac:(derive_setter eta_tracer tlb_set).
#[export] Instance set_tlb_set_step : Setter tlb_set_step := ltac:(derive_setter eta_tracer tlb_set_step).
#[export] Instance set_tlb_set_mask : Setter tlb_set_mask := ltac:(derive_setter eta_tracer tlb_set_mask).
#[export] Instance set_sl_tlb : Setter sl_tlb := ltac:(derive_setter eta_tracer sl_tlb).
#[export] Instance set_sl_cnt : Setter sl_cnt := ltac:(derive_setter eta_tracer sl_cnt).
#[export] Instance set_systs : Setter systs := ltac:(derive_setter eta_tracer systs).
#[export] Instance set_started : Setter started := ltac:(derive_setter eta_tracer started).
#[export] Instance set_disk : Setter disk := ltac:(derive_setter eta_tracer disk).
#[export] Instance set_fout : Setter fout := ltac:(derive_setter eta_tracer fout).
#[export] Instance set_fbc : Setter fbc := ltac:(derive_setter eta_tracer fbc).
#[export] Instance set_fbuf : Setter fbuf := ltac:(derive_setter eta_tracer fbuf).
#[export] Instance set_my_pte_helper : Setter my_pte_helper := ltac:(derive_setter eta_tracer my_pte_helper).
#[export] Instance set_last_ins_idx : Setter last_ins_idx := ltac:(derive_setter eta_tracer last_ins_idx).

(** [sl_tlb[..]]: a fault when the array was never allocated. *)
Definition get_tlb (s : tracer) : res (list TLB_ENTRY) :=
  from_option_res NullPointer (sl_tlb s).

(** The words behind [fbuf]. *)
Definition get_buf (s : tracer) : res (list Z) :=
  match fbuf s with
  | NoBuffer => Err NullPointer
  | Freed => Err UseAfterFree
  | Live ws => Ok ws
  end.

(** [free(fbuf)] *)
Definition free_buf (s : tracer) : res tracer :=
  match fbuf s with
  | NoBuffer => Ok s
  | Freed => Err UseAfterFree
  | Live _ => Ok (s <| fbuf := Freed |>)
  end.

(** [write(fout, fbuf, n words)], assumed to write everything; on a closed
    descriptor it fails and the code ignores it. *)
Definition write_words (ws : list Z) (s : tracer) : tracer :=
  match fout s with
  | None => s
  | Some f => s <| disk := <[f := default [] (disk s !! f) ++ words_bytes ws]> (disk s) |>
  end.

(** ** Starting and stopping *)

(** The local time, as [localtime_r] reports it. *)
Record tm := mkTm { tm_mon : Z; tm_mday : Z; tm_hour : Z; tm_min : Z }.

(** [%02d] for a non-negative number. *)
Definition pad2 (x : Z) : string :=
  if x <? 10 then "0" +:+ pretty x else pretty x.

(** [snprintf(buf, 256, "trace_%02d%02d_%02d%02d_%d.%d", ...)] *)
Definition trace_name (t : tm) (tlb_size tlb_set : Z) : string :=
  truncate 256 ("trace_" +:+ (pad2 (tm_mon t + 1) +:+ pad2 (tm_mday t) +:+ "_" +:+
    pad2 (tm_hour t) +:+ pad2 (tm_min t)) +:+ "_" +:+ pretty tlb_size +:+ "." +:+
    pretty tlb_set).

(** [can_open]: does [open] succeed; [has_mem]: does [malloc] succeed. *)
Definition tlbtrace_start (t : tm) (can_open has_mem : bool) (s : tracer) : res tracer :=
  let buf := trace_name t (tlb_size s) (tlb_set s) in
  let s := if can_open
           then s <| disk := <[buf := []]> (disk s) |> <| fout := Some buf |>
           else s <| fout := None |> in
  let s := s <| fbc := 0 |> in
  let s := s <| fbuf := if has_mem then Live [] else NoBuffer |> in
  let s := s <| systs := 0 |> in
  if 0 <? tlb_size s then
    tlb ← get_tlb s;
    '(tlb, cnt) ← INIT_TLB tlb (tlb_size s) (sl_cnt s);
    Ok (s <| sl_tlb := Some tlb |> <| sl_cnt := cnt |>)
  else Ok (s <| sl_cnt := sl_cnt s <| miss := 0 |> <| hit := 0 |> |>).

Definition tlbtrace_stop (s : tracer) : res tracer :=
  s ← (if 0 <? fbc s then
         ws ← get_buf s;
         Ok (write_words (take (Z.to_nat (fbc s)) ws) s)
       else Ok s);
  s ← free_buf s;
  Ok (s <| fout := None |>).

Definition tlbtrace_toggle (t : tm) (can_open has_mem : bool) (s : tracer) : res tracer :=
  let s := s <| started := of_bool (negb (truth (started s))) |> in
  if truth (started s) then tlbtrace_start t can_open has_mem s
  else tlbtrace_stop s.

Definition tlbtrace_enabled (s : tracer) : Z := started s.

(** [block]: what [malloc] returned, with its uninitialised contents. *)
Definition tlbtrace_init (size set : Z) (pte_helper : pte_helper_t)
    (block : option (list TLB_ENTRY)) (s : tracer) : res (Z * tracer) :=
  let s := s <| started := 0 |> in
  let s := s <| tlb_size := size |> <| tlb_set := set |> in
  if set =? 0 then Err DivByZero else
  let s := s <| tlb_set_step := Z.quot size set |> in
  let s := s <| tlb_set_mask := tlb_set_step s - 1 |> in
  let s := s <| sl_tlb := block |> in
  let s := s <| my_pte_helper := pte_helper |> in
  Ok (0, s).

Definition tlbtrace_destroy (s : tracer) : tracer :=
  let s := s <| started := 0 |> in
  match sl_tlb s with
  | Some _ => s <| sl_tlb := None |>
  | None => s
  end.

(** ** Flushing *)
Definition tlbtrace_flush_all (s : tracer) : res tracer :=
  if negb (truth (started s)) then Ok s
  else
    tlb ← get_tlb s;
    tlb ← FLUSH_TLB tlb (tlb_size s);
    Ok (s <| sl_tlb := Some tlb |>).

Definition tlbtrace_flush_entry (va : Z) (s : tracer) : res tracer :=
  if negb (truth (started s)) then Ok s
  else
    tlb ← get_tlb s;
    tlb ← FLUSH_TLB_ENTRY tlb (tlb_size s) (va .& 0xFFFFF000) (va .& 0xFF);
    Ok (s <| sl_tlb := Some tlb |>).

Definition tlbtrace_flush_asid (asid : Z) (s : tracer) : res tracer :=
  if negb (truth (started s)) then Ok s
  else
    tlb ← get_tlb s;
    tlb ← FLUSH_TLB_ASID tlb (tlb_size s) asid;
    Ok (s <| sl_tlb := Some tlb |>).

(** ** One memory reference *)

(** A reference either returns or ends the process with [exit(0)]. *)
Inductive outcome (A : Type) : Type :=
| Returns (a : A) (s : tracer)
| Exits (s : tracer).
Arguments Returns {A} a s.
Arguments Exits {A} s.

Definition TRACE_LIMIT : Z := 150000000000.

Definition sl_same (addr _asid : Z) (e : TLB_ENTRY) : bool :=
  (va e =? addr) && (asid e =? _asid).

(** [sl_tlb[i].ts = ++systs; sl_cnt.hit++;] *)
Definition sl_hit (tlb : list TLB_ENTRY) (i : Z) (s : tracer) : res tracer :=
  let s := s <| systs := u64 (systs s + 1) |> in
  e ← aget tlb i;
  tlb ← aput tlb i (e <| ts := u32 (systs s) |>);
  let s := s <| sl_tlb := Some tlb |> in
  Ok (s <| sl_cnt := sl_cnt s <| hit := u64 (hit (sl_cnt s) + 1) |> |>).

(** The refill of slot [mi]. *)
Definition sl_refill (tlb : list TLB_ENTRY) (mi addr _asid ins : Z) (s : tracer) :
    res tracer :=
  e ← aget tlb mi;
  let s := s <| systs := u64 (systs s + 1) |> in
  tlb ← aput tlb mi (e <| va := addr |> <| asid := _asid |> <| ts := u32 (systs s) |>);
  let s := s <| sl_tlb := Some tlb |> in
  let s := if truth ins then s <| last_ins_idx := mi |> else s in
  Ok (s <| sl_cnt := sl_cnt s <| miss := u64 (miss (sl_cnt s) + 1) |> |>).

Definition sl_start (s : tracer) (addr : Z) : Z :=
  s32 ((addr >> 12) .& u32 (tlb_set_mask s)).

(** The search loop and what follows it. *)
Definition sl_slow (tlb : list TLB_ENTRY) (addr asid ins : Z) (s : tracer) :
    res (outcome Z) :=
  f ← tlb_lookup tlb (sl_same addr asid) (sl_start s addr) (tlb_size s) (tlb_set_step s);
  match f with
  | Hit i =>
      s ← sl_hit tlb i s;
      let s := if truth ins then s <| last_ins_idx := i |> else s in
      Ok (Returns 1 s)
  | Victim mi =>
      s ← sl_refill tlb mi addr asid ins s;
      if TRACE_LIMIT <=? systs s then
        s ← tlbtrace_stop s;
        Ok (Exits s)
      else Ok (Returns 0 s)
  end.

Definition tlbtrace_refmem_sl (addr asid ins : Z) (s : tracer) : res (outcome Z) :=
  tlb ← get_tlb s;
  _ ← aget tlb 0;
  if truth ins then
    e ← aget tlb (last_ins_idx s);
    if sl_same addr asid e then           (* fast path *)
      s ← sl_hit tlb (last_ins_idx s) s;
      Ok (Returns 1 s)
    else sl_slow tlb addr asid ins s
  else sl_slow tlb addr asid ins s.

Definition FBUF_WORDS : Z := 1024 * 1024 * 8.

(** [fbuf[fbc++] = w;] *)
Definition fbuf_put (w : Z) (s : tracer) : res tracer :=
  ws ← get_buf s;
  if (0 <=? fbc s) && (fbc s <? FBUF_WORDS) then
    let s := s <| fbuf := Live (take (Z.to_nat (fbc s)) ws ++ [w]) |> in
    Ok (s <| fbc := fbc s + 1 |>)
  else Err OutOfBounds.

Definition tlbtrace_refmem_pwc (addr : Z) (s : tracer) : res tracer :=
  let '(ret, (l1_ppa, l2_ppa, gpa)) := my_pte_helper s addr in
  s ← fbuf_put (addr .| u32 ret) s;
  s ← fbuf_put l1_ppa s;
  s ← fbuf_put l2_ppa s;
  s ← fbuf_put gpa s;
  if fbc s =? FBUF_WORDS then
    ws ← get_buf s;
    let s := write_words (take (Z.to_nat FBUF_WORDS) ws) s in
    Ok (s <| fbc := 0 |>)
  else Ok s.

Definition tlbtrace_refmem (addr asid ins : Z) (s : tracer) : res (outcome unit) :=
  let addr := addr .& 0xFFFFF000 in
  o ← tlbtrace_refmem_sl addr asid ins s;
  match o with
  | Exits s => Ok (Exits s)
  | Returns r s =>
      if negb (r =? 0) then Ok (Returns tt s)
      else s ← tlbtrace_refmem_pwc addr s; Ok (Returns tt s)
  end.

(** A sequence of references; an [exit] ends it. *)
Record ref := mkRef { ref_addr : Z; ref_asid : Z; ref_ins : Z }.

Fixpoint run_refs (rs : list ref) (s : tracer) : res (outcome unit) :=
  match rs with
  | [] => Ok (Returns tt s)
  | r :: rs =>
      o ← tlbtrace_refmem (ref_addr r) (ref_asid r) (ref_ins r) s;
      match o with
      | Exits s => Ok (Exits s)
      | Returns _ s => run_refs rs s
      end
  end.
