(* ===== verification/TlbTraceFacts.v ===== *)
(** * Correctness of the tracer

    The buffer never overflows and loses nothing; a legal geometry never
    faults; a fully associative tracer writes one record per miss of an ideal
    LRU TLB, and the simulator reads back exactly those records. *)
From stdpp Require Import pretty.
From S2P Require Import Prelude TlbCore TraceFormat TlbSim.
From S2P Require Import TlbSimFacts TlbSimLru TraceFiles TlbTrace.

(** ** The output side: buffer and file *)

(** [ws] is what the buffer holds. *)
Definition buffered (ws : list Z) (s : tracer) : Prop :=
  ∃ b, fbuf s = Live b ∧ take (Z.to_nat (fbc s)) b = ws ∧ fbc s = zlength ws.

Lemma take_zlength {A} (ws tl : list A) : take (Z.to_nat (zlength ws)) (ws ++ tl) = ws.
Proof. unfold zlength. by rewrite Nat2Z.id, take_app_length. Qed.

Lemma fbuf_put_spec w ws s :
  buffered ws s → zlength ws < FBUF_WORDS →
  ∃ b n, fbuf_put w s = Ok (s <| fbuf := b |> <| fbc := n |>) ∧
         buffered (ws ++ [w]) (s <| fbuf := b |> <| fbc := n |>).
Proof.
  intros (b & Hb & Ht & Hn) Hl.
  exists (Live (ws ++ [w])), (fbc s + 1). split.
  - unfold fbuf_put, get_buf. rewrite Hb, bind_ret.
    rewrite (proj2 (Z.leb_le _ _)) by (rewrite Hn; unfold zlength; lia).
    rewrite (proj2 (Z.ltb_lt _ _)) by lia. cbn. by rewrite Ht.
  - exists (ws ++ [w]). split; [done|].
    assert (fbc s + 1 = zlength (ws ++ [w])) as E.
    { unfold zlength in *. rewrite length_app. cbn. lia. }
    cbn -[FBUF_WORDS]. rewrite E. split; [|done].
    rewrite <- (app_nil_r (ws ++ [w])) at 2. apply take_zlength.
Qed.

(** File [f] followed by the buffer holds the records [recs]. *)
Definition out_ok (f : string) (recs : list trace_rec) (s : tracer) : Prop :=
  ∃ wf ws, fout s = Some f ∧ disk s !! f = Some (words_bytes wf) ∧
    buffered ws s ∧ zlength ws < FBUF_WORDS ∧ (4 | zlength ws) ∧
    wf ++ ws = recs ≫= rec_words.

(** The record a miss on [addr] adds. *)
Definition rec_of (h : pte_helper_t) (addr : Z) : trace_rec :=
  let '(ret, (l1, l2, gpa)) := h addr in mkRec (addr .| u32 ret) l1 l2 gpa.

(** The part of the state the output side does not touch. *)
Definition tlb_side (s : tracer) : Z * Z * Z * Z * option (list TLB_ENTRY) * TLB_COUNTER * Z * Z * Z * pte_helper_t :=
  (tlb_size s, tlb_set s, tlb_set_step s, tlb_set_mask s, sl_tlb s, sl_cnt s, systs s,
   started s, last_ins_idx s, my_pte_helper s).

Lemma words_bytes_app a b : words_bytes (a ++ b) = words_bytes a ++ words_bytes b.
Proof. apply bind_app. Qed.

Lemma zlength_app {A} (a b : list A) : zlength (a ++ b) = zlength a + zlength b.
Proof. unfold zlength. rewrite length_app. lia. Qed.

Lemma recs_app (recs : list trace_rec) r :
  (recs ++ [r]) ≫= rec_words = (recs ≫= rec_words) ++ rec_words r.
Proof. by rewrite bind_app. Qed.

Lemma FBUF_WORDS_4 : (4 | FBUF_WORDS).
Proof. by exists (1024 * 1024 * 2). Qed.

(** One more record: appended to the buffer, which is written out when full. *)
Lemma refmem_pwc_spec f recs addr s :
  out_ok f recs s →
  ∃ s', tlbtrace_refmem_pwc addr s = Ok s' ∧ tlb_side s' = tlb_side s ∧
        out_ok f (recs ++ [rec_of (my_pte_helper s) addr]) s'.
Proof.
  intros (wf & ws & Hf & Hd & Hb & Hl & Hdiv & Heq).
  assert (zlength ws + 4 ≤ FBUF_WORDS) as Hroom.
  { destruct Hdiv as [k Hk], FBUF_WORDS_4 as [m Hm]. lia. }
  unfold tlbtrace_refmem_pwc, rec_of.
  destruct (my_pte_helper s addr) as [ret [[l1 l2] g]] eqn:Hh.
  set (w0 := addr .| u32 ret).
  destruct (fbuf_put_spec w0 ws s Hb ltac:(lia)) as (b1 & n1 & -> & H1).
  rewrite bind_ret. set (s1 := _ <| fbc := n1 |>) in *.
  destruct (fbuf_put_spec l1 _ s1 H1) as (b2 & n2 & -> & H2).
  { rewrite zlength_app. unfold zlength at 2. cbn -[FBUF_WORDS]. lia. }
  rewrite bind_ret. set (s2 := _ <| fbc := n2 |>) in *.
  destruct (fbuf_put_spec l2 _ s2 H2) as (b3 & n3 & -> & H3).
  { rewrite !zlength_app. unfold zlength at 2 3. cbn -[FBUF_WORDS]. lia. }
  rewrite bind_ret. set (s3 := _ <| fbc := n3 |>) in *.
  destruct (fbuf_put_spec g _ s3 H3) as (b4 & n4 & -> & H4).
  { rewrite !zlength_app. unfold zlength at 2 3 4. cbn -[FBUF_WORDS]. lia. }
  rewrite bind_ret. set (s4 := _ <| fbc := n4 |>) in *.
  set (r := mkRec w0 l1 l2 g).
  assert (buffered (ws ++ rec_words r) s4) as H5.
  { unfold rec_words. cbn [t0 t1 t2 t3 r]. by rewrite <- !app_assoc in H4. }
  clear H1 H2 H3 H4. pose proof H5 as (b & Hb5 & Ht5 & Hn5).
  assert (zlength (ws ++ rec_words r) = zlength ws + 4) as Hlen by apply zlength_app.
  destruct (Z.eqb_spec (fbc s4) FBUF_WORDS) as [Hfull|Hnot].
  - unfold get_buf. rewrite Hb5, bind_ret. eexists. split; [reflexivity|].
    assert (fout s4 = Some f) as Hf4 by exact Hf.
    unfold write_words. rewrite Hf4. split; [done|].
    exists (wf ++ ws ++ rec_words r), []. rewrite recs_app, <- Heq, app_nil_r, app_assoc.
    split; [exact Hf|]. split.
    { cbn -[FBUF_WORDS]. rewrite lookup_insert_eq, Hd. cbn -[FBUF_WORDS].
      rewrite <- Hfull, Ht5, <- words_bytes_app. by rewrite app_assoc. }
    split. { exists b. split; [exact Hb5|]. by split. }
    split; [by vm_compute|]. split; [by exists 0|done].
  - exists s4. split; [done|]. split; [done|].
    exists wf, (ws ++ rec_words r). rewrite recs_app, <- Heq, Hlen.
    split; [exact Hf|]. split; [exact Hd|]. split; [exact H5|].
    split; [rewrite Hn5, Hlen in Hnot; lia|]. split; [|by rewrite app_assoc].
    apply Z.divide_add_r; [done|]. by exists 1.
Qed.

(** Stopping writes the rest and closes the file. *)
Lemma stop_spec f recs s :
  out_ok f recs s →
  ∃ s', tlbtrace_stop s = Ok s' ∧ tlb_side s' = tlb_side s ∧ fout s' = None ∧
        disk s' !! f = Some (words_bytes (recs ≫= rec_words)).
Proof.
  intros (wf & ws & Hf & Hd & (b & Hb & Ht & Hn) & _ & _ & Heq).
  unfold tlbtrace_stop. destruct (Z.ltb_spec 0 (fbc s)) as [Hpos|Hz].
  - unfold get_buf. rewrite Hb, bind_ret, Ht. unfold write_words. rewrite Hf, bind_ret.
    unfold free_buf. cbn -[FBUF_WORDS]. rewrite Hb, bind_ret.
    eexists. split; [reflexivity|]. split; [done|]. split; [done|].
    cbn. by rewrite lookup_insert_eq, Hd, <- Heq, words_bytes_app.
  - rewrite bind_ret. unfold free_buf. rewrite Hb, bind_ret.
    eexists. split; [reflexivity|]. split; [done|]. split; [done|].
    cbn. rewrite Hd, <- Heq. assert (ws = []) as ->.
    { destruct ws; [done|]. unfold zlength in Hn. cbn in Hn. lia. }
    by rewrite app_nil_r.
Qed.

(** ** The TLB side *)
Definition sl_fill (addr _asid : Z) (e : TLB_ENTRY) : TLB_ENTRY :=
  e <| va := addr |> <| asid := _asid |>.

(** The array is allocated with [tlb_size] entries, the step is positive and
    the instruction index is within the array. *)
Record sl_wf (s : tracer) : Prop := {
  wf_tlb : ∃ tlb, sl_tlb s = Some tlb ∧ zlength tlb = tlb_size s;
  wf_size : 1 ≤ tlb_size s < 2 ^ 31;
  wf_step : 1 ≤ tlb_set_step s ≤ tlb_size s;
  wf_mask : tlb_set_mask s = tlb_set_step s - 1;
  wf_last : 0 ≤ last_ins_idx s < tlb_size s
}.

(** The state after an access that left array [t] and returned [r]. *)
Definition after_access (r i : Z) (t : list TLB_ENTRY) (s : tracer) : tracer :=
  s <| systs := u64 (systs s + 1) |> <| sl_tlb := Some t |>
    <| sl_cnt := bump r (sl_cnt s) |> <| last_ins_idx := i |>.

Definition sl_result (r i : Z) (t : list TLB_ENTRY) (s : tracer) : res (outcome Z) :=
  let s1 := after_access r i t s in
  if (r =? 0) && (TRACE_LIMIT <=? systs s1) then
    s' ← tlbtrace_stop s1; Ok (Exits s')
  else Ok (Returns r s1).

Lemma sl_slow_access tlb addr a ins s r t c n :
  0 ≤ last_ins_idx s < zlength tlb →
  tlb_access (sl_same addr a) (sl_fill addr a) (sl_start s addr) (tlb_size s)
    (tlb_set_step s) tlb (sl_cnt s) (systs s) = Ok (r, (t, c, n)) →
  ∃ i, 0 ≤ i < zlength tlb ∧ (truth ins = false → i = last_ins_idx s) ∧
       sl_slow tlb addr a ins s = sl_result r i t s.
Proof.
  intros Hlast (f & e & Hf & -> & Ha)%tlb_access_inv.
  unfold sl_slow. rewrite Hf, bind_ret. destruct f as [i|m].
  - destruct Ha as (He & -> & -> & ->).
    exists (if truth ins then i else last_ins_idx s).
    split; [destruct (truth ins); eauto with zarr|]. split; [by intros ->|].
    unfold sl_hit. rewrite (aget_Ok _ _ _ He), bind_ret, aput_Ok by eauto with zarr.
    by destruct s, (truth ins).
  - destruct Ha as (He & -> & -> & ->).
    exists (if truth ins then m else last_ins_idx s).
    split; [destruct (truth ins); eauto with zarr|]. split; [by intros ->|].
    unfold sl_refill. rewrite (aget_Ok _ _ _ He), bind_ret, aput_Ok by eauto with zarr.
    by destruct s, (truth ins).
Qed.

(** What the array becomes: a restamp on the fast path, else one access. *)
Definition accesses (s : tracer) (addr a ins : Z) (tlb : list TLB_ENTRY) (r : Z)
    (t : list TLB_ENTRY) : Prop :=
  (truth ins = true ∧ r = 1 ∧ ∃ e, zlookup tlb (last_ins_idx s) = Some e ∧
     sl_same addr a e = true ∧
     t = zinsert (last_ins_idx s) (e <| ts := u32 (u64 (systs s + 1)) |>) tlb) ∨
  (∃ c n, tlb_access (sl_same addr a) (sl_fill addr a) (sl_start s addr) (tlb_size s)
     (tlb_set_step s) tlb (sl_cnt s) (systs s) = Ok (r, (t, c, n))).

Lemma sl_start_bound s addr : sl_wf s → 0 ≤ sl_start s addr.
Proof.
  intros [_ Hsz Hst Hm _]. unfold sl_start. rewrite Hm.
  rewrite u32_small by (unfold is_u32; lia).
  pose proof (land_mask_bound (addr >> 12) (tlb_set_step s - 1)). rewrite s32_small; lia.
Qed.

(** One lookup: never a fault, whatever the array contains. *)
Lemma refmem_sl_ok addr a ins s tlb :
  sl_wf s → sl_tlb s = Some tlb →
  ∃ r i t, tlbtrace_refmem_sl addr a ins s = sl_result r i t s ∧
    0 ≤ i < tlb_size s ∧ zlength t = zlength tlb ∧ (r = 0 ∨ r = 1) ∧
    accesses s addr a ins tlb r t.
Proof.
  intros Hwf Htlb. pose proof (sl_start_bound s addr Hwf) as Hstart.
  destruct Hwf as [(tlb' & Ht' & Hl) Hsz Hst Hm Hlast].
  rewrite Htlb in Ht'. injection Ht' as <-.
  destruct (zlookup_in_range tlb 0) as [e0 He0]; [lia|].
  destruct (zlookup_in_range tlb (last_ins_idx s)) as [el Hel]; [lia|].
  destruct (tlb_access_ok tlb (sl_same addr a) (sl_start s addr) (tlb_size s)
    (tlb_set_step s) ltac:(lia) Hstart ltac:(lia) ltac:(lia) (sl_fill addr a)
    (sl_cnt s) (systs s)) as (r & t & c & n & Ha & _ & Hlen & Hr).
  destruct (sl_slow_access tlb addr a ins s r t c n ltac:(lia) Ha) as (i & Hi & _ & Hslow).
  assert (∃ r i t, sl_slow tlb addr a ins s = sl_result r i t s ∧
    0 ≤ i < tlb_size s ∧ zlength t = zlength tlb ∧ (r = 0 ∨ r = 1) ∧
    accesses s addr a ins tlb r t) as Hgo.
  { exists r, i, t. repeat (split; [first [done|lia|by destruct Hr as [[-> _]|[-> _]]; auto]|]).
    right. eauto. }
  unfold tlbtrace_refmem_sl, get_tlb. rewrite Htlb. cbn [from_option_res].
  rewrite bind_ret, (aget_Ok _ _ _ He0), bind_ret.
  destruct (truth ins) eqn:Hins; [|exact Hgo].
  rewrite (aget_Ok _ _ _ Hel), bind_ret.
  destruct (sl_same addr a el) eqn:Hsame; [|exact Hgo].
  exists 1, (last_ins_idx s), (zinsert (last_ins_idx s) (el <| ts := u32 (u64 (systs s + 1)) |>) tlb).
  split.
  - unfold sl_hit. rewrite (aget_Ok _ _ _ Hel), bind_ret, aput_Ok by lia. by destruct s.
  - split; [lia|]. split; [apply zlength_zinsert|]. split; [by right|].
    left. eauto 10.
Qed.

Lemma after_access_wf r i t s tlb :
  sl_wf s → sl_tlb s = Some tlb → 0 ≤ i < tlb_size s → zlength t = zlength tlb →
  sl_wf (after_access r i t s).
Proof.
  intros [(tlb' & Ht' & Hl) ? ? ? ?] Htlb Hi Hlen.
  rewrite Htlb in Ht'. injection Ht' as <-.
  split; try done. exists t. split; [done|]. cbn. by rewrite Hlen.
Qed.

Lemma out_ok_ext f recs s s' :
  fout s' = fout s → disk s' = disk s → fbuf s' = fbuf s → fbc s' = fbc s →
  out_ok f recs s → out_ok f recs s'.
Proof.
  intros E1 E2 E3 E4 (wf & ws & H). exists wf, ws. unfold buffered in *.
  by rewrite E1, E2, E3, E4.
Qed.

Lemma sl_wf_ext s s' : tlb_side s' = tlb_side s → sl_wf s → sl_wf s'.
Proof.
  unfold tlb_side. intros [= E1 E2 E3 E4 E5 E6 E7 E8 E9 E10] [].
  split; rewrite ?E1, ?E2, ?E3, ?E4, ?E5, ?E9; done.
Qed.

(** ** Setting up a session *)
Lemma INIT_TLB_block tlb cnt :
  INIT_TLB tlb (zlength tlb) cnt = Ok (reset_entry <$> tlb, cnt <| hit := 0 |> <| miss := 0 |>).
Proof. unfold INIT_TLB. by rewrite FLUSH_TLB_spec. Qed.

(** A fresh session: the TLB is empty, the file is empty. *)
Lemma init_toggle_ok size set h block t s :
  zlength block = size → 1 ≤ set ≤ size → size < 2 ^ 31 →
  ∃ s1 s2, tlbtrace_init size set h (Some block) s = Ok (0, s1) ∧
    tlbtrace_toggle t true true s1 = Ok s2 ∧
    (0 ≤ last_ins_idx s < size → sl_wf s2) ∧ last_ins_idx s2 = last_ins_idx s ∧ out_ok (trace_name t size set) [] s2 ∧ started s2 = 1 ∧
    tlb_size s2 = size ∧ tlb_set_step s2 = size / set ∧ my_pte_helper s2 = h ∧
    systs s2 = 0 ∧ sl_cnt s2 = mkTLB_COUNTER 0 0 ∧
    sl_tlb s2 = Some (reset_entry <$> block).
Proof.
  intros Hb Hset Hmax. unfold tlbtrace_init.
  destruct (Z.eqb_spec set 0); [lia|].
  rewrite Z.quot_div_nonneg by lia.
  eexists _, _. split; [reflexivity|]. split.
  { unfold tlbtrace_toggle. cbn [started set_field]. unfold tlbtrace_start, get_tlb.
    cbn -[INIT_TLB trace_name]. rewrite (proj2 (Z.ltb_lt 0 size)) by lia.
    rewrite <- Hb at 1. rewrite INIT_TLB_block. reflexivity. }
  pose proof (Z.div_str_pos size set ltac:(lia)).
  pose proof (Z.div_le_upper_bound size set size ltac:(lia) ltac:(nia)).
  split.
  { intros Hlast. split; cbn; try (done || lia). eexists. split; [done|].
    unfold zlength in *. by rewrite length_fmap. }
  repeat split. exists [], []. split; [done|]. split; [cbn; by rewrite lookup_insert_eq|].
  split; [by exists []|]. split; [by vm_compute|]. split; [by exists 0|done].
Qed.

(** The globals of a fresh process, and a callback that completes its walk. *)
Definition tracer_boot : tracer :=
  mkTracer 0 0 0 0 None (mkTLB_COUNTER 0 0) 0 0 ∅ None 0 NoBuffer
    (λ _, (0, (0, 0, 0))) 0.
Definition demo_helper : pte_helper_t :=
  λ addr, (3, (u32 (0x4000 + (addr >> 20) * 4), 0x8000, 0x12000)).
Definition demo_tm : tm := mkTm 0 2 12 5.
Definition demo_block : list TLB_ENTRY := replicate 4 (mkTLB_ENTRY 7 7 7 7).
Definition demo_refs : list ref :=
  [mkRef 0x1234 1 0; mkRef 0x1238 1 1; mkRef 0x5000 1 1; mkRef 0x1000 2 0].

Lemma demo_start set :
  1 ≤ set ≤ 4 →
  ∃ s1 s2, tlbtrace_init 4 set demo_helper (Some demo_block) tracer_boot = Ok (0, s1) ∧
    tlbtrace_toggle demo_tm true true s1 = Ok s2 ∧ sl_wf s2 ∧
    out_ok (trace_name demo_tm 4 set) [] s2 ∧ started s2 = 1 ∧
    sl_tlb s2 = Some (reset_entry <$> demo_block).
Proof.
  intros Hset. destruct (init_toggle_ok 4 set demo_helper demo_block demo_tm tracer_boot
    eq_refl Hset ltac:(lia)) as (s1 & s2 & H1 & H2 & Hwf & _ & Ho & Hst & _ & _ & _ & _ & _ & Ht).
  exists s1, s2. assert (sl_wf s2) by (apply Hwf; cbn; lia). auto 10.
Qed.

(** ** One reference and a sequence of references *)
Definition page (addr : Z) : Z := addr .& 0xFFFFF000.

(** Running one access on the whole state. *)
Lemma refmem_run addr a ins s tlb f recs :
  sl_wf s → out_ok f recs s → sl_tlb s = Some tlb →
  ∃ r i t, 0 ≤ i < tlb_size s ∧ zlength t = zlength tlb ∧ (r = 0 ∨ r = 1) ∧
    accesses s (page addr) a ins tlb r t ∧
    ((r = 0 ∧ TRACE_LIMIT ≤ u64 (systs s + 1) ∧
      ∃ s', tlbtrace_refmem addr a ins s = Ok (Exits s') ∧
            tlb_side s' = tlb_side (after_access r i t s) ∧
            disk s' !! f = Some (words_bytes (recs ≫= rec_words))) ∨
     ((r = 1 ∨ u64 (systs s + 1) < TRACE_LIMIT) ∧
      ∃ s', tlbtrace_refmem addr a ins s = Ok (Returns tt s') ∧
        tlb_side s' = tlb_side (after_access r i t s) ∧
        out_ok f (recs ++ if r =? 0 then [rec_of (my_pte_helper s) (page addr)] else []) s')).
Proof.
  intros Hwf Hout Htlb.
  destruct (refmem_sl_ok (page addr) a ins s tlb Hwf Htlb) as (r & i & t & Hrun & Hi & Hl & Hr & Hacc).
  exists r, i, t. repeat (split; [done|]).
  assert (out_ok f recs (after_access r i t s)) as Hout1 by (by apply (out_ok_ext _ _ s)).
  unfold tlbtrace_refmem. fold (page addr). rewrite Hrun. unfold sl_result.
  change (systs (after_access r i t s)) with (u64 (systs s + 1)).
  destruct Hr as [-> | ->]; cbn [Z.eqb andb].
  - destruct (Z.leb_spec TRACE_LIMIT (u64 (systs s + 1))) as [Hlim|Hlim].
    + left. destruct (stop_spec f recs _ Hout1) as (s' & -> & Hs & _ & Hd).
      split; [done|]. split; [done|]. by exists s'.
    + right. split; [by right|].
      destruct (refmem_pwc_spec f recs (page addr) _ Hout1) as (s' & Hp & Hs & Ho).
      exists s'. rewrite bind_ret. cbn [negb]. by rewrite Hp.
  - right. split; [by left|]. eexists. split; [reflexivity|]. split; [done|].
    by rewrite app_nil_r.
Qed.

Lemma miss_bump_eq r c n :
  (r = 0 ∨ r = 1) → u64 (miss c) = u64 n →
  u64 (miss (bump r c)) = u64 (n + of_bool (r =? 0)).
Proof.
  intros [-> | ->] Hm; cbn.
  - by rewrite u64_idem, <- u64_add_l, Hm, u64_add_l.
  - by rewrite Z.add_0_r.
Qed.

Lemma total_bump r c :
  (r = 0 ∨ r = 1) → u64 (hit (bump r c) + miss (bump r c)) = u64 (hit c + miss c + 1).
Proof.
  intros [-> | ->]; cbn; [rewrite u64_add_r|rewrite u64_add_l]; f_equal; lia.
Qed.

(** The clock and the counters after one reference. *)
Lemma access_counts r i t s s1 :
  (r = 0 ∨ r = 1) → tlb_side s1 = tlb_side (after_access r i t s) →
  systs s1 = u64 (systs s + 1) ∧
  u64 (miss (sl_cnt s1)) = u64 (miss (sl_cnt s) + of_bool (r =? 0)) ∧
  u64 (hit (sl_cnt s1) + miss (sl_cnt s1)) = u64 (hit (sl_cnt s) + miss (sl_cnt s) + 1) ∧
  my_pte_helper s1 = my_pte_helper s.
Proof.
  intros Hr. unfold tlb_side. intros [= _ _ _ _ _ Hc Hn _ _ Hh]. rewrite Hc, Hh, Hn.
  split; [done|]. split; [by apply miss_bump_eq|]. split; [by apply total_bump|done].
Qed.

(** What a reference that returned [r] adds to the pages recorded. *)
Definition missed_page (r x : Z) : list Z := if r =? 0 then [page x] else [].
Lemma missed_page_cons r x a ins pages rs :
  pages `sublist_of` (page ∘ ref_addr <$> rs) →
  missed_page r x ++ pages `sublist_of` (page ∘ ref_addr <$> mkRef x a ins :: rs).
Proof. intros Hp. rewrite fmap_cons. unfold missed_page. destruct (r =? 0); by constructor. Qed.
Lemma missed_page_count r x pages m n :
  u64 m = u64 (n + of_bool (r =? 0)) →
  u64 (m + zlength pages) = u64 (n + zlength (missed_page r x ++ pages)).
Proof.
  intros E. rewrite <- u64_add_l, E, u64_add_l. f_equal. rewrite zlength_app.
  unfold missed_page. destruct (r =? 0); cbn [of_bool]; unfold zlength; cbn; lia.
Qed.

(** C1: With a legal geometry no sequence of references faults, whatever the
    callback returns.  Either all of them are processed: then the file followed
    by the buffer holds one record for each counted miss, in order, and every
    reference was counted once.  Or a reference missed when the clock reached
    the limit, and the process exited at it: then the file holds one record for
    each counted miss before it, in order; that last miss was counted but not
    recorded, and the references after it were not processed. *)
Theorem tracer_records_every_miss rs s f recs :
  sl_wf s → out_ok f recs s →
  ∃ o, run_refs rs s = Ok o ∧
  match o with
  | Returns _ s' => ∃ pages,
      pages `sublist_of` (page ∘ ref_addr <$> rs) ∧ sl_wf s' ∧
      out_ok f (recs ++ (rec_of (my_pte_helper s) <$> pages)) s' ∧
      u64 (miss (sl_cnt s')) = u64 (miss (sl_cnt s) + zlength pages) ∧
      u64 (hit (sl_cnt s') + miss (sl_cnt s'))
        = u64 (hit (sl_cnt s) + miss (sl_cnt s) + zlength rs)
  | Exits s' => ∃ seen r rest pages,
      rs = seen ++ r :: rest ∧ TRACE_LIMIT ≤ systs s' ∧
      pages `sublist_of` (page ∘ ref_addr <$> seen) ∧
      disk s' !! f = Some (words_bytes ((recs ++ (rec_of (my_pte_helper s) <$> pages)) ≫= rec_words)) ∧
      u64 (miss (sl_cnt s')) = u64 (miss (sl_cnt s) + zlength pages + 1) ∧
      u64 (hit (sl_cnt s') + miss (sl_cnt s'))
        = u64 (hit (sl_cnt s) + miss (sl_cnt s) + zlength seen + 1)
  end.
Proof.
  revert s recs. induction rs as [|[x a ins] rs IH]; intros s recs Hwf Hout; cbn [run_refs].
  { eexists. split; [done|]. exists []. cbn. rewrite !Z.add_0_r, app_nil_r. auto. }
  destruct (wf_tlb _ Hwf) as (tlb & Htlb & _).
  destruct (refmem_run x a ins s tlb f recs Hwf Hout Htlb)
    as (r & i & t & Hi & Hl & Hr & _ & [(-> & Hlim & s1 & Hrun & Hs & Hd)|(_ & s1 & Hrun & Hs & Ho)]);
    cbn [ref_addr ref_asid ref_ins]; rewrite Hrun, bind_ret;
    destruct (access_counts _ i t s s1 Hr Hs) as (En & Em & Et & Eh).
  { eexists. split; [done|]. exists [], (mkRef x a ins), rs, []. cbn -[TRACE_LIMIT].
    rewrite En, app_nil_r, !Z.add_0_r. auto 10. }
  assert (sl_wf s1) as Hwf1.
  { eapply sl_wf_ext; [exact Hs|]. by eapply after_access_wf. }
  fold (missed_page r x) in Ho. replace (if r =? 0 then _ else _)
    with (rec_of (my_pte_helper s) <$> missed_page r x) in Ho by (unfold missed_page; by destruct (r =? 0)).
  destruct (IH s1 _ Hwf1 Ho) as (o & Hruns & Hpost). exists o. split; [done|]. rewrite Eh in Hpost.
  assert (∀ n, zlength (mkRef x a ins :: n) = 1 + zlength n) as Hlen by (intros n; unfold zlength; cbn; lia).
  destruct o as [[] s'|s'].
  - destruct Hpost as (pages & Hp & Hwf' & Ho' & Hm & Ht). exists (missed_page r x ++ pages).
    rewrite fmap_app, app_assoc, Hlen. split_and!; [by apply missed_page_cons|done|done| |].
    + rewrite Hm. by apply missed_page_count.
    + rewrite Ht, <- u64_add_l, Et, u64_add_l. f_equal. lia.
  - destruct Hpost as (seen & q & rest & pages & -> & Hlim & Hp & Hd & Hm & Ht).
    exists (mkRef x a ins :: seen), q, rest, (missed_page r x ++ pages).
    rewrite fmap_app, app_assoc, Hlen. split_and!; [done|done|by apply missed_page_cons|done| |].
    + rewrite Hm, <- u64_add_l, (missed_page_count r x pages _ _ Em), u64_add_l. done.
    + rewrite Ht, <- (Z.add_assoc (_ + _)), <- u64_add_l, Et, u64_add_l. f_equal. lia.
Qed.

Lemma tracer_records_every_miss_witness :
  ∃ s o, sl_wf s ∧ run_refs demo_refs s = Ok o ∧
  match o with
  | Returns _ s' => ∃ pages, pages `sublist_of` (page ∘ ref_addr <$> demo_refs) ∧
      u64 (miss (sl_cnt s')) = u64 (miss (sl_cnt s) + zlength pages)
  | Exits s' => ∃ recs, disk s' !! trace_name demo_tm 4 2 = Some (words_bytes (recs ≫= rec_words))
  end.
Proof.
  destruct (demo_start 2 ltac:(lia)) as (s1 & s & _ & _ & Hwf & Ho & _).
  destruct (tracer_records_every_miss demo_refs s _ _ Hwf Ho) as (o & Hr & Hpost).
  exists s, o. split; [exact Hwf|]. split; [exact Hr|].
  destruct o as [u s'|s'].
  - destruct Hpost as (pages & Hp & _ & _ & Hm & _). exists pages. split; [exact Hp|exact Hm].
  - destruct Hpost as (_ & _ & _ & pages & _ & _ & _ & Hd & _). eexists. exact Hd.
Defined.


(** ** Fully associative: one record per miss of an ideal LRU TLB *)

(** The keys that miss, in order. *)
Fixpoint lru_missed {K} `{EqDecision K} (cap : nat) (ks : list K) (l : list K) : list K :=
  match ks with
  | [] => []
  | k :: ks =>
      let '(h, l') := lru_access cap k l in
      (if h : bool then [] else [k]) ++ lru_missed cap ks l'
  end.

Definition ref_key (r : ref) : Z * Z := (page (ref_addr r), ref_asid r).

(** [s] is a fully associative tracer that holds [l]. *)
Definition holds_lru (s : tracer) (l : list (Z * Z)) : Prop :=
  sl_wf s ∧ tlb_set_step s = 1 ∧ 0 ≤ systs s ∧
  ∃ tlb, sl_tlb s = Some tlb ∧ lru_rel va_asid bad_va_asid tlb (systs s) l.

Lemma page_good x a : (page x, a) ≠ bad_va_asid.
Proof. intros [= H _]. by apply (page_not_invalid x). Qed.

Lemma accesses_lru s addr a ins tlb r t l :
  sl_wf s → sl_tlb s = Some tlb → tlb_set_step s = 1 → 0 ≤ systs s →
  systs s + 1 < 2 ^ 32 → lru_rel va_asid bad_va_asid tlb (systs s) l →
  accesses s (page addr) a ins tlb r t →
  let '(h, l') := lru_access (Z.to_nat (tlb_size s)) (page addr, a) l in
  r = of_bool h ∧ lru_rel va_asid bad_va_asid t (systs s + 1) l'.
Proof.
  intros Hwf Htlb Hst Hn Hlt Hrel Hacc.
  destruct (wf_tlb _ Hwf) as (tlb' & Ht' & Hl). rewrite Htlb in Ht'. injection Ht' as <-.
  assert (Z.to_nat (tlb_size s) = length tlb) as -> by (unfold zlength in Hl; lia).
  assert (∀ e u, va_asid (e <| ts := u |>) = va_asid e) as Hts by done.
  assert (∀ e, sl_same (page addr) a e = bool_decide (va_asid e = (page addr, a))) as Hsame.
  { intros e. apply va_asid_eqb. }
  assert (∀ e, va_asid (sl_fill (page addr) a e) = (page addr, a)) as Hfill by done.
  destruct Hacc as [(_ & -> & e & He & Hs & ->)|(c & n & Ha)].
  - rewrite u64_small, u32_small by (unfold is_u32; lia).
    destruct (lru_hit va_asid bad_va_asid Hts _ _ _ Hsame Hfill (page_good addr a)
      tlb (systs s) l Hrel Hn Hlt _ e He Hs) as [Hin Hr].
    unfold lru_access. by rewrite decide_True by done.
  - assert (sl_start s (page addr) = 0) as Hz.
    { unfold sl_start. rewrite (wf_mask _ Hwf), Hst. apply start_zero. }
    rewrite Hz, Hst, <- Hl in Ha.
    pose proof (lru_step va_asid bad_va_asid Hts _ _ _ Hsame Hfill (page_good addr a)
      tlb (systs s) l Hrel Hn Hlt _ _ _ _ _ Ha) as Hstep.
    destruct (lru_access _ _ _) as [h l']. by destruct Hstep as (-> & -> & ? & _).
Qed.

Lemma run_refs_lru rs s l f recs :
  holds_lru s l → out_ok f recs s → systs s + zlength rs < 2 ^ 32 →
  ∃ s' l', run_refs rs s = Ok (Returns tt s') ∧ holds_lru s' l' ∧
    started s' = started s ∧
    out_ok f (recs ++ (rec_of (my_pte_helper s) ∘ fst <$>
      lru_missed (Z.to_nat (tlb_size s)) (ref_key <$> rs) l)) s'.
Proof.
  revert s l recs. induction rs as [|[x a ins] rs IH]; intros s l recs Hl Hout Hlen.
  { exists s, l. cbn. by rewrite app_nil_r. }
  pose proof Hl as (Hwf & Hst & Hn & tlb & Htlb & Hrel).
  assert (systs s + 1 + zlength rs < 2 ^ 32) as Hlen' by (unfold zlength in *; cbn in Hlen; lia).
  assert (systs s + 1 < 2 ^ 32) as Hlt by (unfold zlength in *; lia).
  destruct (refmem_run x a ins s tlb f recs Hwf Hout Htlb)
    as (r & i & t & Hi & Hlt' & Hr & Hacc & [(_ & Hlim & _)|(_ & s1 & Hrun & Hs & Ho)]).
  { unfold TRACE_LIMIT in Hlim. rewrite u64_small in Hlim; lia. }
  pose proof (accesses_lru s x a ins tlb r t l Hwf Htlb Hst Hn Hlt Hrel Hacc) as Hstep.
  cbn [run_refs ref_addr ref_asid ref_ins]. rewrite Hrun, bind_ret, fmap_cons.
  cbn [lru_missed]. unfold ref_key at 1. cbn [ref_addr ref_asid].
  destruct (lru_access _ _ _) as [h l1]. destruct Hstep as [-> Hrel1].
  assert (sl_wf s1) as Hwf1.
  { eapply sl_wf_ext; [exact Hs|]. by eapply after_access_wf. }
  unfold tlb_side in Hs. injection Hs as Hsz _ Hst1 _ Ht1 _ Hn1 Hsta _ Hh1.
  cbn in Hsz, Hst1, Ht1, Hn1, Hsta, Hh1. rewrite u64_small in Hn1 by lia.
  assert (holds_lru s1 l1) as Hl1.
  { split; [done|]. split; [congruence|]. split; [lia|]. exists t. by rewrite Hn1. }
  destruct (IH s1 l1 _ Hl1 Ho ltac:(lia)) as (s' & l' & Hruns & Hl' & Hsta' & Ho').
  exists s', l'. split; [done|]. split; [done|]. split; [congruence|].
  rewrite Hsz, Hh1, <- app_assoc in Ho'. by destruct h.
Qed.

(** ** A tracing session: start and stop with [tlbtrace_toggle] *)
Definition trace_session (size set : Z) (h : pte_helper_t) (block : list TLB_ENTRY)
    (t1 t2 : tm) (rs : list ref) (s : tracer) : res tracer :=
  '(_, s) ← tlbtrace_init size set h (Some block) s;
  s ← tlbtrace_toggle t1 true true s;
  o ← run_refs rs s;
  match o with
  | Returns _ s => tlbtrace_toggle t2 true true s
  | Exits s => Ok s
  end.

Lemma lor_u32 a b : is_u32 a → is_u32 b → is_u32 (a .| b).
Proof.
  intros Ha Hb.
  assert (∀ x, is_u32 x ↔ x .& Z.ones 32 = x) as Hones.
  { intros x. rewrite Z.land_ones by lia. split; [apply u32_small|].
    intros <-. apply u32_bound. }
  apply Hones. rewrite Z.land_lor_distr_l. by rewrite (proj1 (Hones a)), (proj1 (Hones b)).
Qed.

Lemma page_u32 x : is_u32 (page x).
Proof. pose proof (land_mask_bound x 0xFFFFF000). unfold page, is_u32. lia. Qed.

(** The callback stores 32-bit words. *)
Definition helper_wf (h : pte_helper_t) : Prop :=
  ∀ addr, let '(_, (l1, l2, gpa)) := h addr in is_u32 l1 ∧ is_u32 l2 ∧ is_u32 gpa.

Lemma rec_of_wf h x : helper_wf h → is_u32 x → rec_wf (rec_of h x).
Proof.
  intros Hh Hx. unfold rec_of. specialize (Hh x). destruct (h x) as [ret [[l1 l2] g]].
  pose proof (lor_u32 x (u32 ret) Hx (u32_bound _)) as Hw. destruct Hh as (? & ? & ?).
  unfold rec_wf, rec_words. cbn [t0 t1 t2 t3]. by rewrite !Forall_cons, Forall_nil.
Qed.

Lemma lru_missed_elem {K} `{EqDecision K} cap ks l (k : K) :
  k ∈ lru_missed cap ks l → k ∈ ks.
Proof.
  revert l. induction ks as [|k' ks IH]; intros l; [done|]. cbn.
  destruct (lru_access cap k' l) as [[] l']; cbn; rewrite ?elem_of_cons.
  - intros Hk. right. eauto.
  - intros [->|Hk]; [by left|right; eauto].
Qed.

(** C2: Tracer to simulator: with a fully associative TLB and fewer than 2^32
    references, a tracing session succeeds and leaves a file from which the
    simulator's read loop recovers exactly one record per miss of an ideal LRU
    TLB keyed by page and address space, in the order of the misses. *)
Theorem trace_session_roundtrip size h block tm1 tm2 rs s :
  zlength block = size → 1 ≤ size < 2 ^ 31 → 0 ≤ last_ins_idx s < size →
  helper_wf h → zlength rs < 2 ^ 32 →
  ∃ s' bs, trace_session size size h block tm1 tm2 rs s = Ok s' ∧
    tlbtrace_enabled s' = 0 ∧ disk s' !! trace_name tm1 size size = Some bs ∧
    fread_records bs =
      rec_of h ∘ fst <$> lru_missed (Z.to_nat size) (ref_key <$> rs) [].
Proof.
  intros Hb Hsz Hlast Hh Hlen.
  destruct (init_toggle_ok size size h block tm1 s Hb ltac:(lia) ltac:(lia))
    as (s1 & s2 & Hi & Ht & Hwf & _ & Ho & Hst & Hsz2 & Hstep & Hh2 & Hn & Hc & Htlb).
  rewrite Z.div_same in Hstep by lia.
  assert (holds_lru s2 []) as Hl2.
  { split; [auto|]. split; [done|]. split; [lia|]. eexists. split; [done|].
    rewrite Hn. by apply lru_rel_reset. }
  destruct (run_refs_lru rs s2 [] _ _ Hl2 Ho ltac:(lia)) as (s3 & l' & Hr & Hl & Hst3 & Ho3).
  rewrite Hsz2, Hh2 in Ho3. cbn [app] in Ho3.
  set (recs := rec_of h ∘ fst <$> _) in *.
  assert (out_ok (trace_name tm1 size size) recs (s3 <| started := 0 |>)) as Ho4
    by (by apply (out_ok_ext _ _ s3)).
  destruct (stop_spec _ _ _ Ho4) as (s4 & Hs & Hside & _ & Hd).
  exists s4, (words_bytes (recs ≫= rec_words)). split; [|split; [|split; [done|]]].
  - unfold trace_session. rewrite Hi, bind_ret, Ht, bind_ret, Hr, bind_ret.
    unfold tlbtrace_toggle. rewrite Hst3, Hst. exact Hs.
  - unfold tlb_side in Hside. unfold tlbtrace_enabled. by injection Hside.
  - rewrite <- (app_nil_r (words_bytes _)). apply fread_records_roundtrip; [|cbn; lia].
    unfold recs. apply Forall_fmap, Forall_forall. intros [x a] Hx%lru_missed_elem. cbn.
    apply list_elem_of_fmap in Hx as (r & [= -> ->] & _).
    apply rec_of_wf; [done|apply page_u32].
Qed.

Lemma trace_session_roundtrip_witness :
  ∃ s' bs, trace_session 4 4 demo_helper demo_block demo_tm demo_tm demo_refs tracer_boot = Ok s' ∧
    tlbtrace_enabled s' = 0 ∧ disk s' !! trace_name demo_tm 4 4 = Some bs ∧
    fread_records bs =
      [mkRec 0x1003 0x4000 0x8000 0x12000; mkRec 0x5003 0x4000 0x8000 0x12000;
       mkRec 0x1003 0x4000 0x8000 0x12000].
Proof.
  assert (helper_wf demo_helper) as Hh.
  { intros addr. unfold demo_helper. split; [apply u32_bound|].
    split; vm_compute; split; (discriminate || reflexivity). }
  assert (zlength demo_refs < 2 ^ 32) as Hl by (vm_compute; reflexivity).
  assert (zlength demo_block = 4) as Hb by reflexivity.
  assert (0 ≤ last_ins_idx tracer_boot < 4) as Hi by (cbn; lia).
  destruct (trace_session_roundtrip 4 demo_helper demo_block demo_tm demo_tm demo_refs
    tracer_boot Hb ltac:(lia) Hi Hh Hl) as (s' & bs & Hs & He & Hd & Hr).
  exists s', bs. split; [exact Hs|]. split; [exact He|]. split; [exact Hd|].
  rewrite Hr. vm_compute. reflexivity.
Defined.


(** ** Flushing *)
Section flush.
Context (s : tracer) (tlb : list TLB_ENTRY).
Context (Hwf : sl_wf s) (Htlb : sl_tlb s = Some tlb).

(** No entry for the reference: the lookup misses. *)
Lemma no_entry_misses addr a ins :
  Forall (λ e, sl_same addr a e = false) tlb →
  ∃ i t, tlbtrace_refmem_sl addr a ins s = sl_result 0 i t s.
Proof.
  intros Hno. destruct (refmem_sl_ok addr a ins s tlb Hwf Htlb)
    as (r & i & t & Hrun & _ & _ & _ & Hacc).
  rewrite Forall_forall in Hno.
  assert (r = 0) as ->; [|eauto].
  destruct Hacc as [(_ & _ & e & He & Hs & _)|(c & n & (f & e & Hf & _ & Ha)%tlb_access_inv)].
  - rewrite Hno in Hs; [done|]. by eapply zlookup_elem.
  - destruct f as [j|m]; [|by destruct Ha as (_ & -> & _)].
    apply tlb_lookup_spec in Hf as (e0 & _ & (e' & [_ He'] & Hs));
      [|pose proof (wf_step _ Hwf); lia].
    rewrite Hno in Hs; [done|]. by eapply zlookup_elem.
Qed.
End flush.

(** The reference misses. *)
Definition misses (addr a ins : Z) (s : tracer) : Prop :=
  ∃ i t, tlbtrace_refmem_sl addr a ins s = sl_result 0 i t s.

Lemma flushed_misses s tlb sel addr a ins :
  sl_wf s → zlength tlb = tlb_size s → addr ≠ invalid_va →
  (∀ e, sl_same addr a e = true → sel e = true) →
  let s' := s <| sl_tlb := Some (flush_sel sel <$> tlb) |> in
  sl_wf s' ∧ misses addr a ins s'.
Proof.
  intros [] Hl Hva Hsel s'.
  assert (sl_wf s') as Hwf'.
  { split; try done. eexists. split; [done|]. unfold zlength in *. by rewrite length_fmap. }
  split; [done|]. apply (no_entry_misses s' (flush_sel sel <$> tlb)); [done..|].
  apply Forall_fmap, Forall_forall. intros e _. cbn. unfold flush_sel.
  destruct (sel e) eqn:He.
  - unfold sl_same. change (va (reset_entry e)) with invalid_va.
    by rewrite (proj2 (Z.eqb_neq _ _)) by congruence.
  - destruct (sl_same addr a e) eqn:Hs; [|done]. by rewrite (Hsel e Hs) in He.
Qed.

(** Of the state only the array of entries differs, and in it only entries
    that were named. *)
Definition flushes_only (named : TLB_ENTRY → Prop) (tlb : list TLB_ENTRY) (s s' : tracer) : Prop :=
  ∃ tlb', s' = s <| sl_tlb := Some tlb' |> ∧ zlength tlb' = zlength tlb ∧
    ∀ j e, zlookup tlb j = Some e → ¬ named e → zlookup tlb' j = Some e.
Lemma flush_sel_only (sel : TLB_ENTRY → bool) (named : TLB_ENTRY → Prop) tlb s :
  (∀ e, sel e = true → named e) →
  flushes_only named tlb s (s <| sl_tlb := Some (flush_sel sel <$> tlb) |>).
Proof.
  intros Hsel. eexists. split; [done|]. split; [unfold zlength; by rewrite length_fmap|].
  intros j e He Hn. unfold zlookup in *. destruct (0 <=? j); [|done].
  rewrite list_lookup_fmap, He. cbn. f_equal. unfold flush_sel. destruct (sel e) eqn:E; [|done].
  by destruct Hn; apply Hsel.
Qed.

Lemma flush_ops_ok s tlb :
  sl_wf s → truth (started s) = true → sl_tlb s = Some tlb →
  (∀ v, ∃ s', tlbtrace_flush_entry v s = Ok s' ∧ sl_wf s' ∧
     (∀ ins, misses (page v) (v .& 0xFF) ins s') ∧
     flushes_only (λ e, va_asid e = (page v, v .& 0xFF)) tlb s s') ∧
  (∀ n, ∃ s', tlbtrace_flush_asid n s = Ok s' ∧ sl_wf s' ∧
     (∀ addr ins, misses (page addr) n ins s') ∧
     flushes_only (λ e, asid e = n) tlb s s') ∧
  (∃ s', tlbtrace_flush_all s = Ok s' ∧ sl_wf s' ∧
     (∀ addr a ins, misses (page addr) a ins s') ∧
     flushes_only (λ _, True) tlb s s').
Proof.
  intros Hwf Hst Htlb. pose proof (wf_tlb _ Hwf) as (tlb' & Ht' & Hl).
  rewrite Htlb in Ht'. injection Ht' as <-.
  assert (∀ sel addr a ins, (∀ e, sl_same (page addr) a e = true → sel e = true) →
    let s' := s <| sl_tlb := Some (flush_sel sel <$> tlb) |> in sl_wf s' ∧ misses (page addr) a ins s') as Hm.
  { intros sel addr a ins Hsel. apply flushed_misses; [done..|apply page_not_invalid|done]. }
  unfold tlbtrace_flush_entry, tlbtrace_flush_asid, tlbtrace_flush_all, get_tlb.
  rewrite Hst, Htlb. cbn [negb from_option_res]. rewrite <- Hl. split; [|split].
  - intros v. rewrite bind_ret, FLUSH_TLB_ENTRY_spec, bind_ret. fold (page v).
    eexists. split; [done|]. split; [by apply (Hm _ v (v .& 0xFF) 0)|]. split; [intros ins; by apply Hm; intros e He; exact He|].
    apply flush_sel_only. intros e. by rewrite va_asid_eqb, bool_decide_eq_true.
  - intros n. rewrite bind_ret, FLUSH_TLB_ASID_spec, bind_ret.
    assert (∀ addr e, sl_same (page addr) n e = true → (asid e =? n) = true) as Hsel
      by by intros addr e [_ ?]%andb_prop.
    eexists. split; [done|]. split; [by apply (Hm _ 0 n 0 (Hsel 0))|]. split; [intros addr ins; by apply (Hm _ addr n ins (Hsel addr))|].
    apply flush_sel_only. intros e. apply Z.eqb_eq.
  - rewrite bind_ret, FLUSH_TLB_spec, bind_ret.
    assert ((reset_entry <$> tlb) = (flush_sel (λ _, true) <$> tlb)) as E by done. rewrite ?E.
    eexists. split; [done|]. split; [by apply (Hm _ 0 0 0)|]. split; [intros addr a ins; by apply Hm|].
    by apply flush_sel_only.
Qed.

(** C22: While the tracer is enabled the three flush operations never fault,
    keep the TLB well formed, and afterwards every reference they cover
    misses: one page of one address space, one address space, everything.
    They change nothing but the array, and there flushing one entry leaves the
    entries of other pages or spaces as they were, flushing an address space
    those of other spaces. *)
Theorem tlbtrace_flush_spec s tlb :
  sl_wf s → truth (started s) = true → sl_tlb s = Some tlb →
  (∀ v, ∃ s', tlbtrace_flush_entry v s = Ok s' ∧ sl_wf s' ∧
     (∀ ins, misses (page v) (v .& 0xFF) ins s') ∧
     flushes_only (λ e, va_asid e = (page v, v .& 0xFF)) tlb s s') ∧
  (∀ n, ∃ s', tlbtrace_flush_asid n s = Ok s' ∧ sl_wf s' ∧
     (∀ addr ins, misses (page addr) n ins s') ∧
     flushes_only (λ e, asid e = n) tlb s s') ∧
  (∃ s', tlbtrace_flush_all s = Ok s' ∧ sl_wf s' ∧
     (∀ addr a ins, misses (page addr) a ins s') ∧
     flushes_only (λ _, True) tlb s s').
Proof. apply flush_ops_ok. Qed.

Lemma tlbtrace_flush_spec_witness :
  ∃ s s', tlbtrace_flush_entry 0x1007 s = Ok s' ∧ sl_wf s' ∧
          ∀ ins, misses 0x1000 7 ins s'.
Proof.
  destruct (demo_start 2 ltac:(lia)) as (s1 & s & _ & _ & Hwf & _ & Hst & Htlb).
  destruct (tlbtrace_flush_spec s _ Hwf ltac:(rewrite Hst; reflexivity) Htlb) as [He _].
  destruct (He 0x1007) as (s' & Hs & Hwf' & Hm & _).
  exists s, s'. split; [exact Hs|]. split; [exact Hwf'|exact Hm].
Defined.


Lemma start_total t co hm s tlb :
  sl_tlb s = Some tlb → zlength tlb = tlb_size s → ∃ s', tlbtrace_start t co hm s = Ok s'.
Proof.
  intros Htlb Hl. unfold tlbtrace_start, get_tlb.
  destruct co, hm; cbn -[INIT_TLB trace_name]; rewrite Htlb, <- Hl;
    (destruct (0 <? zlength tlb); cbn -[INIT_TLB trace_name];
     rewrite ?INIT_TLB_block; by eexists).
Qed.

(** [tlbtrace_start] alone does not enable the tracer: after
    [tlbtrace_init] and [tlbtrace_start], [tlbtrace_enabled] still answers 0
    and the three flush operations do nothing. *)
Theorem start_leaves_tracer_disabled size set h block t co hm s s1 s2 :
  tlbtrace_init size set h block s = Ok (0, s1) →
  tlbtrace_start t co hm s1 = Ok s2 →
  tlbtrace_enabled s2 = 0 ∧ tlbtrace_flush_all s2 = Ok s2 ∧
  (∀ v, tlbtrace_flush_entry v s2 = Ok s2) ∧ (∀ n, tlbtrace_flush_asid n s2 = Ok s2).
Proof.
  unfold tlbtrace_init. destruct (set =? 0); [done|]. intros [= <-] Hs.
  assert (started s2 = 0) as Hst.
  { unfold tlbtrace_start in Hs. destruct co; cbn -[INIT_TLB trace_name] in Hs;
      (destruct (0 <? size); [|by injection Hs as <-];
       apply bind_Ok in Hs as (tlb & _ & Hs); apply bind_Ok in Hs as ([? ?] & _ & Hs);
       by injection Hs as <-). }
  unfold tlbtrace_enabled, tlbtrace_flush_all, tlbtrace_flush_entry, tlbtrace_flush_asid.
  by rewrite Hst.
Qed.

Lemma start_leaves_tracer_disabled_witness :
  ∃ s1 s2, tlbtrace_init 4 2 demo_helper (Some demo_block) tracer_boot = Ok (0, s1) ∧
    tlbtrace_start demo_tm true true s1 = Ok s2 ∧ tlbtrace_enabled s2 = 0.
Proof.
  destruct (demo_start 2 ltac:(lia)) as (s1 & _ & H1 & _).
  destruct (start_total demo_tm true true s1 demo_block) as [s2 H2].
  { injection H1 as <-. reflexivity. }
  { injection H1 as <-. reflexivity. }
  exists s1, s2. split; [exact H1|]. split; [exact H2|].
  exact (proj1 (start_leaves_tracer_disabled _ _ _ _ _ _ _ _ _ _ H1 H2)).
Defined.


(** [tlbtrace_init] forgets to reset the index of the last instruction
    reference: re-initialised with a TLB no larger than that index and started,
    the tracer reads outside the new array at the first instruction fetch. *)
Theorem reinit_with_smaller_tlb_faults size set h block t s s1 s2 addr a :
  zlength block = size → 1 ≤ set ≤ size → size < 2 ^ 31 → size ≤ last_ins_idx s →
  tlbtrace_init size set h (Some block) s = Ok (0, s1) →
  tlbtrace_toggle t true true s1 = Ok s2 →
  tlbtrace_refmem addr a 1 s2 = Err OutOfBounds.
Proof.
  intros Hb Hset Hmax Hlast Hi Ht.
  destruct (init_toggle_ok size set h block t s Hb Hset Hmax)
    as (s1' & s2' & Hi' & Ht' & _ & Hl2 & _ & _ & _ & _ & _ & _ & _ & Htlb).
  rewrite Hi' in Hi. injection Hi as <-. rewrite Ht' in Ht. injection Ht as <-.
  assert (zlength (reset_entry <$> block) = size) as Hl.
  { unfold zlength in *. by rewrite length_fmap. }
  destruct (zlookup_in_range (reset_entry <$> block) 0) as [e0 He0]; [lia|].
  unfold tlbtrace_refmem, tlbtrace_refmem_sl, get_tlb. rewrite Htlb, Hl2.
  cbn [from_option_res truth Z.eqb negb]. rewrite bind_ret, (aget_Ok _ _ _ He0), bind_ret.
  assert (aget (reset_entry <$> block) (last_ins_idx s) = Err OutOfBounds) as ->; [|done].
  unfold aget, zlookup. destruct (0 <=? last_ins_idx s); [|done].
  rewrite lookup_ge_None_2; [done|]. unfold zlength in Hl. lia.
Qed.

Lemma reinit_with_smaller_tlb_faults_witness :
  ∃ s1 s2, tlbtrace_init 4 2 demo_helper (Some demo_block)
      (tracer_boot <| last_ins_idx := 9 |>) = Ok (0, s1) ∧
    tlbtrace_toggle demo_tm true true s1 = Ok s2 ∧
    tlbtrace_refmem 0x1000 1 1 s2 = Err OutOfBounds.
Proof.
  destruct (init_toggle_ok 4 2 demo_helper demo_block demo_tm
    (tracer_boot <| last_ins_idx := 9 |>) eq_refl ltac:(lia) ltac:(lia))
    as (s1 & s2 & H1 & H2 & _).
  exists s1, s2. split; [exact H1|]. split; [exact H2|].
  apply (reinit_with_smaller_tlb_faults 4 2 demo_helper demo_block demo_tm
    (tracer_boot <| last_ins_idx := 9 |>) s1 s2 0x1000 1);
    [reflexivity|lia|lia|cbn; lia|exact H1|exact H2].
Defined.


(** ** The name of the trace file *)
Lemma length_pretty_N_go k x s :
  (x < 10 ^ N.of_nat k)%N → (String.length (pretty_N_go x s) ≤ k + String.length s)%nat.
Proof.
  revert x s. induction k as [|k IH]; intros x s Hx.
  - replace x with 0%N by lia. by rewrite pretty_N_go_0.
  - destruct (decide (0 < x)%N) as [Hpos|Hz].
    2:{ replace x with 0%N by lia. rewrite pretty_N_go_0. lia. }
    rewrite pretty_N_go_step by done. etrans; [apply IH|cbn; lia].
    apply N.Div0.div_lt_upper_bound. rewrite Nat2N.inj_succ, N.pow_succ_r' in Hx. lia.
Qed.

Lemma length_pretty k x :
  0 ≤ x < 10 ^ Z.of_nat k → (0 < k)%nat → (String.length (pretty x) ≤ k)%nat.
Proof.
  intros Hx Hk. destruct x as [|p|p]; [cbn; lia| |lia].
  change (String.length (pretty_N_go (N.pos p) "") ≤ k)%nat.
  rewrite <- (Nat.add_0_r k). apply (length_pretty_N_go k _ "").
  apply N2Z.inj_lt. rewrite N2Z.inj_pow, nat_N_Z. cbn [Z.of_N]. lia.
Qed.

Lemma string_length_app (a b : string) :
  String.length (a +:+ b) = (String.length a + String.length b)%nat.
Proof. induction a as [|c a IH]; [done|]. exact (f_equal S IH). Qed.

Lemma length_pad2 x : 0 ≤ x < 100 → (String.length (pad2 x) ≤ 3)%nat.
Proof.
  intros Hx. unfold pad2. pose proof (length_pretty 2 x ltac:(cbn; lia) ltac:(lia)).
  destruct (x <? 10); [|lia]. rewrite string_length_app. cbn [String.length]. lia.
Qed.

(** Every trace file the tracer creates for a TLB of [size] entries and
    [set] ways is one the simulator selects when asked for that geometry: the
    name is not cut off and carries the prefix and the suffix. *)
Theorem trace_name_is_selected t size set :
  0 ≤ tm_mon t < 12 → 1 ≤ tm_mday t ≤ 31 → 0 ≤ tm_hour t < 24 → 0 ≤ tm_min t < 60 →
  0 < size < 2 ^ 31 → 0 < set < 2 ^ 31 →
  selected size set (trace_name t size set) = true.
Proof.
  intros Hmo Hd Hh Hmi Hsz Hset.
  pose proof (length_pretty 10 size ltac:(cbn; lia) ltac:(lia)) as Lsz.
  pose proof (length_pretty 10 set ltac:(cbn; lia) ltac:(lia)) as Lset.
  pose proof (length_pad2 (tm_mon t + 1) ltac:(lia)).
  pose proof (length_pad2 (tm_mday t) ltac:(lia)).
  pose proof (length_pad2 (tm_hour t) ltac:(lia)).
  pose proof (length_pad2 (tm_min t) ltac:(lia)).
  unfold trace_name, selected, suffix.
  rewrite !truncate_short; [|rewrite !string_length_app; cbn [String.length]; lia..].
  rewrite has_prefix_app, andb_true_r.
  set (date := pad2 (tm_mon t + 1) +:+ _). set (suf := "_" +:+ pretty size +:+ _).
  replace ("trace_" +:+ date +:+ suf) with (("trace_" +:+ date) +:+ suf +:+ "").
  - apply strstr_app.
  - rewrite append_assoc. do 2 f_equal. clear. induction suf as [|c suf IH]; [done|].
    exact (f_equal (String c) IH).
Qed.

Lemma trace_name_is_selected_witness :
  selected 64 4 (trace_name (mkTm 0 2 12 5) 64 4) = true ∧
  trace_name (mkTm 0 2 12 5) 64 4 = "trace_0102_1205_64.4"%string.
Proof. split; [apply trace_name_is_selected; cbn; lia|vm_compute; reflexivity]. Defined.

(** ** The 32-bit time stamps *)

(** One data access to a fully associative TLB. *)
Lemma assoc_access s tlb addr a r t :
  sl_wf s → tlb_set_step s = 1 → sl_tlb s = Some tlb → (sl_start s addr = 0) →
  accesses s addr a 0 tlb r t →
  (r = 1 ∧ ∃ i e, zlookup tlb i = Some e ∧ va_asid e = (addr, a) ∧
     t = zinsert i (e <| ts := u32 (u64 (systs s + 1)) |>) tlb) ∨
  (r = 0 ∧ (∀ j e, zlookup tlb j = Some e → (va_asid e ≠ (addr, a))) ∧
     ∃ m em, zlookup tlb m = Some em ∧
       (∀ j e, zlookup tlb j = Some e → ts em ≤ ts e) ∧
       t = zinsert m ((sl_fill addr a em) <| ts := u32 (u64 (systs s + 1)) |>) tlb).
Proof.
  intros Hwf Hst Htlb H0 [([=] & _)|(c & n & (f & e & Hf & -> & Ha)%tlb_access_inv)].
  destruct (wf_tlb _ Hwf) as (tlb' & Ht' & Hl). rewrite Htlb in Ht'. injection Ht' as <-.
  rewrite H0, Hst, <- Hl in Hf.
  assert (∀ j x, zlookup tlb j = Some x → in_set 0 (zlength tlb) 1 j) as Hall.
  { intros j x Hx. apply in_set_one. by eapply zlookup_Some_range. }
  apply tlb_lookup_spec in Hf as (e0 & He0 & Hp); [|lia].
  destruct f as [i|m]; cbn in Hp.
  - destruct Ha as (He & -> & -> & _), Hp as (e' & [_ He'] & Hs).
    rewrite He in He'. injection He' as <-. left. split; [done|].
    exists i, e. split; [done|]. split; [|done].
    unfold sl_same in Hs. rewrite va_asid_eqb in Hs. by apply bool_decide_eq_true in Hs.
  - destruct Ha as (He & -> & -> & _), Hp as [Hno Hmin]. right. split; [done|]. split.
    { intros j x Hx Heq. specialize (Hno j x (conj (Hall j x Hx) Hx)).
      unfold sl_same in Hno. rewrite va_asid_eqb in Hno. by apply bool_decide_eq_false in Hno. }
    exists m, e. split; [done|]. split; [|done]. intros j x Hx.
    destruct Hmin as [[-> Hmin]|(em & [_ Hem] & _ & Hmin)].
    + rewrite He in He0. injection He0 as ->. eauto.
    + rewrite He in Hem. injection Hem as ->. eauto.
Qed.

Lemma assoc_run s tlb addr a :
  sl_wf s → tlb_set_step s = 1 → sl_tlb s = Some tlb → u64 (systs s + 1) < TRACE_LIMIT →
  ∃ r i t, tlbtrace_refmem_sl addr a 0 s = Ok (Returns r (after_access r i t s)) ∧
    sl_wf (after_access r i t s) ∧
    ((r = 1 ∧ ∃ i e, zlookup tlb i = Some e ∧ va_asid e = (addr, a) ∧
        t = zinsert i (e <| ts := u32 (u64 (systs s + 1)) |>) tlb) ∨
     (r = 0 ∧ (∀ j e, zlookup tlb j = Some e → (va_asid e ≠ (addr, a))) ∧
        ∃ m em, zlookup tlb m = Some em ∧
          (∀ j e, zlookup tlb j = Some e → ts em ≤ ts e) ∧
          t = zinsert m ((sl_fill addr a em) <| ts := u32 (u64 (systs s + 1)) |>) tlb)).
Proof.
  intros Hwf Hst Htlb Hlim.
  destruct (refmem_sl_ok addr a 0 s tlb Hwf Htlb) as (r & i & t & Hrun & Hi & Hl & Hr & Hacc).
  exists r, i, t. split; [|split].
  - rewrite Hrun. unfold sl_result.
    change (systs (after_access r i t s)) with (u64 (systs s + 1)).
    destruct (Z.leb_spec TRACE_LIMIT (u64 (systs s + 1))); [lia|]. by rewrite andb_false_r.
  - by eapply after_access_wf.
  - apply assoc_access; try done. unfold sl_start.
    rewrite (wf_mask _ Hwf), Hst. apply start_zero.
Qed.

(** The clock is 64 bits wide but the stamps are 32: at reference 2^32
    the entry just used is stamped 0, and in a fully associative TLB it is the
    one the next miss evicts, so that referring to its page again misses. *)
Theorem lru_order_lost_at_wrap s tlb i e addr2 a2 :
  sl_wf s → tlb_set_step s = 1 → systs s = 2 ^ 32 - 1 → sl_tlb s = Some tlb →
  zlookup tlb i = Some e →
  (∀ j e', zlookup tlb j = Some e' → (j ≠ i) → 0 < ts e' ∧ (va_asid e' ≠ va_asid e)) →
  (∀ j e', zlookup tlb j = Some e' → (va_asid e' ≠ (addr2, a2))) →
  ∃ s1 s2 s3, tlbtrace_refmem_sl (va e) (asid e) 0 s = Ok (Returns 1 s1) ∧
    tlbtrace_refmem_sl addr2 a2 0 s1 = Ok (Returns 0 s2) ∧
    tlbtrace_refmem_sl (va e) (asid e) 0 s2 = Ok (Returns 0 s3).
Proof.
  intros Hwf Hst Hsys Htlb He Hothers Hno.
  assert (u64 (systs s + 1) = 2 ^ 32) as Hnow by (rewrite Hsys; reflexivity).
  destruct (assoc_run s tlb (va e) (asid e) Hwf Hst Htlb)
    as (r1 & i1 & t1 & Hr1 & Hwf1 & Hc1); [by rewrite Hnow|].
  destruct Hc1 as [(-> & i' & e' & He' & Hk & ->)|(_ & Hm & _)].
  2:{ by destruct (Hm i e He). }
  assert (i' = i) as ->.
  { destruct (decide (i' = i)) as [|Hne]; [done|]. by destruct (Hothers i' e' He' Hne). }
  rewrite He in He'. injection He' as <-. rewrite Hnow in *.
  set (e1 := e <| ts := u32 (2 ^ 32) |>) in *. set (tlb1 := zinsert i e1 tlb) in *.
  set (s1 := after_access 1 i1 tlb1 s) in *.
  assert (0 ≤ i < zlength tlb) as Hi by eauto with zarr.
  assert (∀ j x, zlookup tlb1 j = Some x → (j = i ∧ x = e1) ∨ ((j ≠ i) ∧ zlookup tlb j = Some x)) as Hl1.
  { intros j x. unfold tlb1. rewrite zlookup_zinsert_dec by done. case_decide as Hji.
    - intros [= <-]. by left.
    - intros Hx. right. by split. }
  destruct (assoc_run s1 tlb1 addr2 a2 Hwf1 Hst eq_refl)
    as (r2 & i2 & t2 & Hr2 & Hwf2 & Hc2).
  { change (systs s1) with (u64 (systs s + 1)). by rewrite Hnow. }
  destruct Hc2 as [(_ & j & x & Hx & Hk2 & _)|(-> & Hno2 & m & em & Hem & Hmin & ->)].
  { apply Hl1 in Hx as [[-> ->]|[_ Hx]]; [by destruct (Hno i e He)|by destruct (Hno j x Hx)]. }
  assert (m = i) as ->.
  { destruct (Hl1 m em Hem) as [[-> _]|[Hne Hem']]; [done|].
    destruct (Hothers m em Hem' Hne) as [Hpos _].
    specialize (Hmin i e1 ltac:(unfold tlb1; by rewrite zlookup_zinsert)).
    change (ts e1) with 0 in Hmin. lia. }
  set (tlb2 := zinsert i _ tlb1) in *. set (s2 := after_access 0 i2 tlb2 s1) in *.
  destruct (assoc_run s2 tlb2 (va e) (asid e) Hwf2 Hst eq_refl)
    as (r3 & i3 & t3 & Hr3 & _ & Hc3).
  { change (systs s2) with (u64 (u64 (systs s + 1) + 1)). by rewrite Hnow. }
  exists s1, s2. destruct Hc3 as [(_ & j & x & Hx & Hk3 & _)|(-> & _)]; [|eauto].
  unfold tlb2 in Hx. rewrite zlookup_zinsert_dec in Hx
    by (unfold tlb1; by rewrite zlength_zinsert).
  case_decide as Hji.
  - injection Hx as <-. by destruct (Hno i e He).
  - apply Hl1 in Hx as [[-> _]|[_ Hx]]; [done|].
    by destruct (Hothers j x Hx ltac:(congruence)).
Qed.

(** Two entries; the next reference has number 2^32. *)
Definition wrap_state : tracer :=
  tracer_boot <| tlb_size := 2 |> <| tlb_set := 2 |> <| tlb_set_step := 1 |>
    <| systs := 2 ^ 32 - 1 |>
    <| sl_tlb := Some [mkTLB_ENTRY 0x1000 0 1 5; mkTLB_ENTRY 0x2000 0 1 9] |>.

Lemma lru_order_lost_at_wrap_witness :
  ∃ s1 s2 s3, tlbtrace_refmem_sl 0x2000 1 0 wrap_state = Ok (Returns 1 s1) ∧
    tlbtrace_refmem_sl 0x3000 1 0 s1 = Ok (Returns 0 s2) ∧
    tlbtrace_refmem_sl 0x2000 1 0 s2 = Ok (Returns 0 s3).
Proof.
  assert (∀ j e, zlookup [mkTLB_ENTRY 0x1000 0 1 5; mkTLB_ENTRY 0x2000 0 1 9] j = Some e →
    (j = 0 ∧ e = mkTLB_ENTRY 0x1000 0 1 5) ∨ (j = 1 ∧ e = mkTLB_ENTRY 0x2000 0 1 9)) as Hz.
  { intros j e He. assert (j = 0 ∨ j = 1) as Hj.
    { apply zlookup_Some_range in He. unfold zlength in He. cbn in He. lia. }
    destruct Hj as [-> | ->]; injection He as <-; [left|right]; split; reflexivity. }
  apply (lru_order_lost_at_wrap wrap_state
    [mkTLB_ENTRY 0x1000 0 1 5; mkTLB_ENTRY 0x2000 0 1 9] 1 (mkTLB_ENTRY 0x2000 0 1 9) 0x3000 1).
  - split; cbn; try lia. eexists. split; reflexivity.
  - reflexivity.
  - reflexivity.
  - reflexivity.
  - reflexivity.
  - intros j e' [[-> ->]|[-> ->]]%Hz Hj; [|lia]. split; [cbn; lia|]. intros [=].
  - intros j e' [[-> ->]|[-> ->]]%Hz; intros [=].
Defined.

