(* ===== verification/SoftTlb.v ===== *)
(** * QEMU's software TLB ([exec.c], [cpu-defs.h], [exec-all.h])

    Per CPU and per MMU mode a direct-mapped table of 256 entries caches the
    translations the generated code uses; the translation-block jump cache is
    flushed with it.  [TARGET_PAGE_BITS] is 10: the ARM MMU has 1 KB pages.
    Host pointers are 64 bits wide, guest addresses 32. *)
From S2P Require Import Prelude.

Definition TARGET_PAGE_BITS : Z := 10.
Definition TARGET_PAGE_SIZE : Z := 1024.
Definition TARGET_PAGE_MASK : Z := 0xFFFFFC00.
Definition CPU_TLB_SIZE : Z := 256.
Definition NB_MMU_MODES : Z := 2.
Definition MMU_USER_IDX : Z := 1.
Definition TLB_INVALID_MASK : Z := 8.
Definition TLB_NOTDIRTY : Z := 16.
Definition TLB_MMIO : Z := 32.
Definition IO_MEM_RAM : Z := 0.
Definition IO_MEM_ROM : Z := 8.
Definition IO_MEM_UNASSIGNED : Z := 16.
Definition IO_MEM_NOTDIRTY : Z := 24.
Definition IO_MEM_ROMD : Z := 1.
Definition PAGE_READ : Z := 1.
Definition PAGE_WRITE : Z := 2.
Definition PAGE_EXEC : Z := 4.
Definition TB_JMP_CACHE_SIZE : Z := 4096.
Definition TB_JMP_PAGE_SIZE : Z := 64.
Definition TB_JMP_PAGE_MASK : Z := 0xFC0.
Definition TB_JMP_ADDR_MASK : Z := 0x3F.

(** [-1] as a [target_ulong]. *)
Definition no_addr : Z := 0xFFFFFFFF.

(** ** Data *)
Record CPUTLBEntry := mkEntry {
  addr_read : Z;
  addr_write : Z;
  addr_code : Z;
  addend : Z
}.
Definition eta_CPUTLBEntry (e : CPUTLBEntry) : CPUTLBEntry :=
  mkEntry (addr_read e) (addr_write e) (addr_code e) (addend e).
#[export] Instance set_addr_read : Setter addr_read := ltac:(derive_setter eta_CPUTLBEntry addr_read).
#[export] Instance set_addr_write : Setter addr_write := ltac:(derive_setter eta_CPUTLBEntry addr_write).
#[export] Instance set_addr_code : Setter addr_code := ltac:(derive_setter eta_CPUTLBEntry addr_code).
#[export] Instance set_addend : Setter addend := ltac:(derive_setter eta_CPUTLBEntry addend).

(** The TLB part of [CPU_COMMON], with the global [tlb_flush_count]; a
    translation block is a number, NULL is 0. *)
Record soft_tlb := mkSoftTlb {
  tlb_table : list (list CPUTLBEntry);   (** [NB_MMU_MODES] rows of [CPU_TLB_SIZE] *)
  iotlb : list (list Z);
  current_tb : Z;
  tb_jmp_cache : list Z;
  tlb_flush_count : Z;
  watchpoints : list Z                   (** their virtual addresses *)
}.
Definition eta_soft_tlb (t : soft_tlb) : soft_tlb :=
  mkSoftTlb (tlb_table t) (iotlb t) (current_tb t) (tb_jmp_cache t)
    (tlb_flush_count t) (watchpoints t).
#[export] Instance set_tlb_table : Setter tlb_table := ltac:(derive_setter eta_soft_tlb tlb_table).
#[export] Instance set_iotlb : Setter iotlb := ltac:(derive_setter eta_soft_tlb iotlb).
#[export] Instance set_current_tb : Setter current_tb := ltac:(derive_setter eta_soft_tlb current_tb).
#[export] Instance set_tb_jmp_cache : Setter tb_jmp_cache := ltac:(derive_setter eta_soft_tlb tb_jmp_cache).
#[export] Instance set_watchpoints : Setter watchpoints := ltac:(derive_setter eta_soft_tlb watchpoints).
#[export] Instance set_tlb_flush_count : Setter tlb_flush_count := ltac:(derive_setter eta_soft_tlb tlb_flush_count).

Record tlb_wf (t : soft_tlb) : Prop := {
  wf_rows : length (tlb_table t) = 2%nat;
  wf_row : Forall (λ r, zlength r = CPU_TLB_SIZE) (tlb_table t);
  wf_io_rows : length (iotlb t) = 2%nat;
  wf_io_row : Forall (λ r, zlength r = CPU_TLB_SIZE) (iotlb t);
  wf_jmp : zlength (tb_jmp_cache t) = TB_JMP_CACHE_SIZE
}.

(** [env->tlb_table[mmu_idx][i]] and its assignment. *)
Definition get_entry (t : soft_tlb) (mmu_idx i : Z) : res CPUTLBEntry :=
  row ← aget (tlb_table t) mmu_idx; aget row i.
Definition put_entry (mmu_idx i : Z) (e : CPUTLBEntry) (t : soft_tlb) : res soft_tlb :=
  row ← aget (tlb_table t) mmu_idx;
  row ← aput row i e;
  tbl ← aput (tlb_table t) mmu_idx row;
  Ok (t <| tlb_table := tbl |>).
Definition put_iotlb (mmu_idx i v : Z) (t : soft_tlb) : res soft_tlb :=
  row ← aget (iotlb t) mmu_idx;
  row ← aput row i v;
  tbl ← aput (iotlb t) mmu_idx row;
  Ok (t <| iotlb := tbl |>).

(** ** Flushing *)

(** [te->addr_read = te->addr_write = te->addr_code = -1] *)
Definition invalidate_entry (e : CPUTLBEntry) : CPUTLBEntry :=
  e <| addr_read := no_addr |> <| addr_write := no_addr |> <| addr_code := no_addr |>.

(** The double loop writes every entry of every mode. *)
Definition tlb_flush (t : soft_tlb) (flush_global : bool) : soft_tlb :=
  let t := t <| current_tb := 0 |> in
  let t := t <| tlb_table := map (map invalidate_entry) (tlb_table t) |> in
  let t := t <| tb_jmp_cache := replicate (Z.to_nat TB_JMP_CACHE_SIZE) 0 |> in
  t <| tlb_flush_count := tlb_flush_count t + 1 |>.

Definition tlb_flush_entry (e : CPUTLBEntry) (addr : Z) : CPUTLBEntry :=
  let m := TARGET_PAGE_MASK .| TLB_INVALID_MASK in
  if (addr =? (addr_read e .& m)) || (addr =? (addr_write e .& m)) ||
     (addr =? (addr_code e .& m))
  then invalidate_entry e else e.

Definition tb_jmp_cache_hash_page (pc : Z) : Z :=
  let tmp := pc .^ (pc >> 4) in (tmp >> 4) .& TB_JMP_PAGE_MASK.
Definition tb_jmp_cache_hash_func (pc : Z) : Z :=
  let tmp := pc .^ (pc >> 4) in
  ((tmp >> 4) .& TB_JMP_PAGE_MASK) .| (tmp .& TB_JMP_ADDR_MASK).

(** [memset] of [n] pointers from index [i]. *)
Definition clear_range (i : Z) (n : nat) (l : list Z) : res (list Z) :=
  if (0 <=? i) && (i + Z.of_nat n <=? zlength l)
  then Ok (take (Z.to_nat i) l ++ replicate n 0 ++ drop (Z.to_nat i + n) l)
  else Err OutOfBounds.

Definition tlb_flush_jmp_cache (addr : Z) (t : soft_tlb) : res soft_tlb :=
  let i := tb_jmp_cache_hash_page (u32 (addr - TARGET_PAGE_SIZE)) in
  c ← clear_range i (Z.to_nat TB_JMP_PAGE_SIZE) (tb_jmp_cache t);
  let i := tb_jmp_cache_hash_page addr in
  c ← clear_range i (Z.to_nat TB_JMP_PAGE_SIZE) c;
  Ok (t <| tb_jmp_cache := c |>).

(** [(addr >> TARGET_PAGE_BITS) & (CPU_TLB_SIZE - 1)] *)
Definition tlb_index (addr : Z) : Z := (addr >> TARGET_PAGE_BITS) .& (CPU_TLB_SIZE - 1).

(** [for (mmu_idx = 0; mmu_idx < NB_MMU_MODES; mmu_idx++) f(&table[mmu_idx][i])] *)
Definition each_mode (i : Z) (f : CPUTLBEntry → CPUTLBEntry) (t : soft_tlb) : res soft_tlb :=
  e ← get_entry t 0 i; t ← put_entry 0 i (f e) t;
  e ← get_entry t 1 i; put_entry 1 i (f e) t.

Definition tlb_flush_page (addr : Z) (t : soft_tlb) : res soft_tlb :=
  let t := t <| current_tb := 0 |> in
  let addr := addr .& TARGET_PAGE_MASK in
  let i := tlb_index addr in
  t ← each_mode i (λ e, tlb_flush_entry e addr) t;
  tlb_flush_jmp_cache addr t.

(** ** Dirty tracking *)

(** RAM: blocks of guest RAM in host memory, and the dirty bytes by page. *)
Record RAMBlock := mkBlock { offset : Z; blength : Z; host : Z; bflags : Z; idstr : string }.
Record PhysPageDesc := mkPhys { phys_offset : Z; region_offset : Z }.

Record machine := mkMachine {
  ram_blocks : list RAMBlock;
  phys_dirty : list Z;                    (** one byte per page *)
  l1_phys_map : Z → option (Z → PhysPageDesc);   (** the two-level physical page table *)
  io_mem_watch : Z
}.
Definition eta_machine (m : machine) : machine :=
  mkMachine (ram_blocks m) (phys_dirty m) (l1_phys_map m) (io_mem_watch m).
#[export] Instance set_ram_blocks : Setter ram_blocks := ltac:(derive_setter eta_machine ram_blocks).
#[export] Instance set_l1_phys_map : Setter l1_phys_map := ltac:(derive_setter eta_machine l1_phys_map).
#[export] Instance set_phys_dirty : Setter phys_dirty := ltac:(derive_setter eta_machine phys_dirty).

Definition L2_BITS : Z := 10.
Definition L1_BITS : Z := 32 - L2_BITS - TARGET_PAGE_BITS.
Definition L1_SIZE : Z := 1 << L1_BITS.
Definition L2_SIZE : Z := 1 << L2_BITS.

(** [phys_page_find_alloc(index, 0)]: a missing second-level table is not
    allocated. *)
Definition phys_page_find (m : machine) (index : Z) : option PhysPageDesc :=
  match l1_phys_map m ((index >> L2_BITS) .& (L1_SIZE - 1)) with
  | None => None
  | Some pd => Some (pd (index .& (L2_SIZE - 1)))
  end.

(** The block that contains [addr]: the subtraction is unsigned. *)
Definition in_block (addr : Z) (b : RAMBlock) : bool := u64 (addr - offset b) <? blength b.
Definition find_block (m : machine) (addr : Z) : option (nat * RAMBlock) :=
  list_find (λ b, in_block addr b = true) (ram_blocks m).

(** Moves the block found to the head of the list. *)
Definition qemu_get_ram_ptr (addr : Z) (m : machine) : res (Z * machine) :=
  match find_block m addr with
  | Some (n, b) =>
      let m := if (n =? 0)%nat then m
               else m <| ram_blocks := b :: delete n (ram_blocks m) |> in
      Ok (u64 (host b + (addr - offset b)), m)
  | None => Err (Aborted "Bad ram offset")
  end.

Definition qemu_safe_ram_ptr (addr : Z) (m : machine) : res Z :=
  match find_block m addr with
  | Some (_, b) => Ok (u64 (host b + (addr - offset b)))
  | None => Err (Aborted "Bad ram offset")
  end.

(** [None] stands for the return value -1. *)
Definition qemu_ram_addr_from_host (p : Z) (m : machine) : option Z :=
  match list_find (λ b, (u64 (p - host b) <? blength b) = true) (ram_blocks m) with
  | Some (_, b) => Some (u64 (offset b + (p - host b)))
  | None => None
  end.

Definition qemu_ram_addr_from_host_nofail (p : Z) (m : machine) : res Z :=
  from_option_res (Aborted "Bad ram pointer") (qemu_ram_addr_from_host p m).

Definition cpu_physical_memory_is_dirty (addr : Z) (m : machine) : res bool :=
  d ← aget (phys_dirty m) (addr >> TARGET_PAGE_BITS); Ok (d =? 0xff).

Definition cpu_physical_memory_set_dirty_flags (addr flags : Z) (m : machine) : res machine :=
  d ← aget (phys_dirty m) (addr >> TARGET_PAGE_BITS);
  ds ← aput (phys_dirty m) (addr >> TARGET_PAGE_BITS) (d .| flags);
  Ok (m <| phys_dirty := ds |>).

(** [~TARGET_PAGE_MASK] selects the flags below the page number. *)
Definition page_flags (a : Z) : Z := a .& 0x3FF.
Definition page_of (a : Z) : Z := a .& TARGET_PAGE_MASK.

Definition tlb_reset_dirty_range (start length : Z) (e : CPUTLBEntry) : CPUTLBEntry :=
  if page_flags (addr_write e) =? IO_MEM_RAM then
    let addr := u64 (page_of (addr_write e) + addend e) in
    if u64 (addr - start) <? length
    then e <| addr_write := page_of (addr_write e) .| TLB_NOTDIRTY |>
    else e
  else e.

Definition tlb_update_dirty (m : machine) (e : CPUTLBEntry) : res CPUTLBEntry :=
  if page_flags (addr_write e) =? IO_MEM_RAM then
    let p := u64 (page_of (addr_write e) + addend e) in
    ram_addr ← qemu_ram_addr_from_host_nofail p m;
    dirty ← cpu_physical_memory_is_dirty ram_addr m;
    Ok (if negb dirty then e <| addr_write := addr_write e .| TLB_NOTDIRTY |> else e)
  else Ok e.

Definition tlb_set_dirty1 (vaddr : Z) (e : CPUTLBEntry) : CPUTLBEntry :=
  if addr_write e =? (vaddr .| TLB_NOTDIRTY) then e <| addr_write := vaddr |> else e.

Definition tlb_set_dirty (vaddr : Z) (t : soft_tlb) : res soft_tlb :=
  let vaddr := vaddr .& TARGET_PAGE_MASK in
  each_mode (tlb_index vaddr) (tlb_set_dirty1 vaddr) t.

(** ** Entering a translation *)

(** The address with the MMIO flag, the [iotlb] word and the host base. *)
Definition page_descriptor (m : machine) (paddr : Z) : Z * option PhysPageDesc :=
  match phys_page_find m (paddr >> TARGET_PAGE_BITS) with
  | None => (IO_MEM_UNASSIGNED, None)
  | Some p => (phys_offset p, Some p)
  end.

Definition is_io (pd : Z) : bool :=
  (page_flags pd >? IO_MEM_ROM) && negb (truth (pd .& IO_MEM_ROMD)).

Definition iotlb_value (pd paddr : Z) (p : option PhysPageDesc) : Z :=
  if page_flags pd <=? IO_MEM_ROM then
    if page_flags pd =? IO_MEM_RAM then page_of pd .| IO_MEM_NOTDIRTY
    else page_of pd .| IO_MEM_ROM
  else
    u32 (page_flags pd + match p with Some p => region_offset p | None => paddr end).

(** The watchpoint loop. *)
Fixpoint watch_loop (wps : list Z) (vaddr paddr io_watch address iotlb : Z) : Z * Z :=
  match wps with
  | [] => (address, iotlb)
  | wp :: wps =>
      if vaddr =? (wp .& TARGET_PAGE_MASK)
      then watch_loop wps vaddr paddr io_watch (address .| TLB_MMIO) (u32 (io_watch + paddr))
      else watch_loop wps vaddr paddr io_watch address iotlb
  end.

(** [te->addr_write] *)
Definition write_address (pd address prot : Z) (dirty : res bool) : res Z :=
  if truth (prot .& PAGE_WRITE) then
    if (page_flags pd =? IO_MEM_ROM) || truth (pd .& IO_MEM_ROMD)
    then Ok (address .| TLB_MMIO)
    else if page_flags pd =? IO_MEM_RAM then
      d ← dirty; Ok (if negb d then address .| TLB_NOTDIRTY else address)
    else Ok address
  else Ok no_addr.

(** Without [CONFIG_MEMCHECK]; the return value is always 0. *)
Definition tlb_set_page_exec (vaddr paddr prot mmu_idx : Z) (t : soft_tlb) (m : machine) :
    res (soft_tlb * machine) :=
  let '(pd, p) := page_descriptor m paddr in
  let address := if is_io pd then vaddr .| TLB_MMIO else vaddr in
  '(host_base, m) ← qemu_get_ram_ptr (page_of pd) m;
  let iotlb := iotlb_value pd paddr p in
  let code_address := address in
  let '(address, iotlb) :=
    watch_loop (watchpoints t) vaddr paddr (io_mem_watch m) address iotlb in
  let index := tlb_index vaddr in
  t ← put_iotlb mmu_idx index (u32 (iotlb - vaddr)) t;
  e ← get_entry t mmu_idx index;
  let e := e <| addend := u64 (host_base - vaddr) |> in
  let e := e <| addr_read := if truth (prot .& PAGE_READ) then address else no_addr |> in
  let e := e <| addr_code := if truth (prot .& PAGE_EXEC) then code_address else no_addr |> in
  aw ← write_address pd address prot (cpu_physical_memory_is_dirty pd m);
  let e := e <| addr_write := aw |> in
  t ← put_entry mmu_idx index e t;
  Ok (t, m).

(** Readable pages become executable. *)
Definition tlb_set_page (vaddr paddr prot mmu_idx : Z) (t : soft_tlb) (m : machine) :
    res (soft_tlb * machine) :=
  let prot := if truth (prot .& PAGE_READ) then prot .| PAGE_EXEC else prot in
  tlb_set_page_exec vaddr paddr prot mmu_idx t m.

(** ** Lookup by the softmmu code *)
Inductive access : Type := Read | Write | Code.
Definition tlb_addr (a : access) (e : CPUTLBEntry) : Z :=
  match a with Read => addr_read e | Write => addr_write e | Code => addr_code e end.

(** [(addr & TARGET_PAGE_MASK) == (tlb_addr & (TARGET_PAGE_MASK | TLB_INVALID_MASK))] *)
Definition entry_hits (addr : Z) (a : access) (e : CPUTLBEntry) : bool :=
  page_of addr =? (tlb_addr a e .& (TARGET_PAGE_MASK .| TLB_INVALID_MASK)).
Definition tlb_hit (t : soft_tlb) (mmu_idx addr : Z) (a : access) : res bool :=
  e ← get_entry t mmu_idx (tlb_index addr); Ok (entry_hits addr a e).

(** ** Reading and writing entries of a well-formed TLB *)
Section entries.
Context (t : soft_tlb) (Hwf : tlb_wf t).

Lemma row_ok mmu_idx : 0 ≤ mmu_idx < NB_MMU_MODES →
  ∃ row, zlookup (tlb_table t) mmu_idx = Some row ∧ zlength row = CPU_TLB_SIZE.
Proof.
  intros Hm. destruct (zlookup_in_range (tlb_table t) mmu_idx) as [row Hr].
  { unfold zlength. rewrite (wf_rows _ Hwf). done. }
  exists row. split; [done|]. pose proof (wf_row _ Hwf) as Hf.
  rewrite Forall_forall in Hf. by eapply Hf, zlookup_elem.
Qed.

Lemma io_row_ok mmu_idx : 0 ≤ mmu_idx < NB_MMU_MODES →
  ∃ row, zlookup (iotlb t) mmu_idx = Some row ∧ zlength row = CPU_TLB_SIZE.
Proof.
  intros Hm. destruct (zlookup_in_range (iotlb t) mmu_idx) as [row Hr].
  { unfold zlength. rewrite (wf_io_rows _ Hwf). done. }
  exists row. split; [done|]. pose proof (wf_io_row _ Hwf) as Hf.
  rewrite Forall_forall in Hf. by eapply Hf, zlookup_elem.
Qed.

Lemma get_entry_ok mmu_idx i : 0 ≤ mmu_idx < NB_MMU_MODES → 0 ≤ i < CPU_TLB_SIZE →
  ∃ e, get_entry t mmu_idx i = Ok e.
Proof.
  intros Hm Hi. destruct (row_ok mmu_idx Hm) as (row & Hr & Hl).
  destruct (zlookup_in_range row i) as [e He]; [lia|].
  exists e. unfold get_entry. by rewrite (aget_Ok _ _ _ Hr), bind_ret, (aget_Ok _ _ _ He).
Qed.

Lemma zinsert_rows_wf {A} (rows : list (list A)) m row :
  Forall (λ r, zlength r = CPU_TLB_SIZE) rows → zlength row = CPU_TLB_SIZE →
  Forall (λ r, zlength r = CPU_TLB_SIZE) (zinsert m row rows).
Proof.
  intros Hf Hl. unfold zinsert. destruct (0 <=? m); [|done]. by apply Forall_insert.
Qed.

Lemma length_zinsert_list {A} (l : list A) m x : length (zinsert m x l) = length l.
Proof. unfold zinsert. destruct (0 <=? m); [|done]. apply length_insert. Qed.

Lemma put_entry_ok mmu_idx i e : 0 ≤ mmu_idx < NB_MMU_MODES → 0 ≤ i < CPU_TLB_SIZE →
  ∃ t', put_entry mmu_idx i e t = Ok t' ∧ tlb_wf t' ∧
    (∀ m j, get_entry t' m j =
       if decide (m = mmu_idx ∧ j = i) then Ok e else get_entry t m j) ∧
    t' = t <| tlb_table := tlb_table t' |>.
Proof.
  intros Hm Hi. destruct (row_ok mmu_idx Hm) as (row & Hr & Hl).
  unfold put_entry. rewrite (aget_Ok _ _ _ Hr), bind_ret, aput_Ok by lia.
  rewrite bind_ret, aput_Ok by eauto with zarr. rewrite bind_ret.
  eexists. split; [reflexivity|]. split; [|split; [|done]].
  - destruct Hwf. split; cbn; try done.
    + by rewrite length_zinsert_list.
    + apply zinsert_rows_wf; [done|]. by rewrite zlength_zinsert.
  - intros m j. set (row' := zinsert i e row).
    change (get_entry _ m j) with
      (r ← aget (zinsert mmu_idx row' (tlb_table t)) m; aget r j) at 1.
    unfold get_entry. destruct (decide (m = mmu_idx)) as [->|Hne].
    + assert (aget (zinsert mmu_idx row' (tlb_table t)) mmu_idx = Ok row') as ->.
      { unfold aget. by rewrite zlookup_zinsert by eauto with zarr. }
      rewrite (aget_Ok _ _ _ Hr), !bind_ret. unfold aget, row'.
      rewrite zlookup_zinsert_dec by lia.
      destruct (decide (i = j)) as [->|Hij]; [by rewrite decide_True|].
      rewrite decide_False; [done|]. intros [_ ?]. congruence.
    + assert (aget (zinsert mmu_idx row' (tlb_table t)) m = aget (tlb_table t) m) as ->.
      { unfold aget. by rewrite zlookup_zinsert_ne by congruence. }
      rewrite decide_False; [done|]. intros [? _]. congruence.
Qed.

Lemma put_iotlb_ok mmu_idx i v : 0 ≤ mmu_idx < NB_MMU_MODES → 0 ≤ i < CPU_TLB_SIZE →
  ∃ io, put_iotlb mmu_idx i v t = Ok (t <| iotlb := io |>) ∧ tlb_wf (t <| iotlb := io |>).
Proof.
  intros Hm Hi. destruct (io_row_ok mmu_idx Hm) as (row & Hr & Hl).
  unfold put_iotlb. rewrite (aget_Ok _ _ _ Hr), bind_ret, aput_Ok by lia.
  rewrite bind_ret, aput_Ok by eauto with zarr. rewrite bind_ret.
  eexists. split; [reflexivity|]. destruct Hwf. split; cbn; try done.
  - by rewrite length_zinsert_list.
  - apply zinsert_rows_wf; [done|]. by rewrite zlength_zinsert.
Qed.
End entries.

Lemma tlb_index_bound addr : 0 ≤ tlb_index addr < CPU_TLB_SIZE.
Proof.
  unfold tlb_index, CPU_TLB_SIZE. change (256 - 1) with 255.
  pose proof (land_mask_bound (addr >> TARGET_PAGE_BITS) 255). lia.
Qed.

Lemma each_mode_ok t i f : tlb_wf t → 0 ≤ i < CPU_TLB_SIZE →
  ∃ t', each_mode i f t = Ok t' ∧ tlb_wf t' ∧
    (∀ m j, get_entry t' m j =
       if decide (0 ≤ m < NB_MMU_MODES ∧ j = i)
       then e ← get_entry t m j; Ok (f e) else get_entry t m j) ∧
    t' = t <| tlb_table := tlb_table t' |>.
Proof.
  intros Hwf Hi. unfold each_mode, NB_MMU_MODES.
  destruct (get_entry_ok t Hwf 0 i ltac:(by unfold NB_MMU_MODES) Hi) as [e0 He0].
  destruct (put_entry_ok t Hwf 0 i (f e0) ltac:(by unfold NB_MMU_MODES) Hi)
    as (t1 & Hp1 & Hwf1 & Hg1 & Ht1).
  rewrite He0, bind_ret, Hp1, bind_ret.
  destruct (get_entry_ok t Hwf 1 i ltac:(by unfold NB_MMU_MODES) Hi) as [e1 He1].
  rewrite Hg1, decide_False, He1, bind_ret by lia.
  destruct (put_entry_ok t1 Hwf1 1 i (f e1) ltac:(by unfold NB_MMU_MODES) Hi)
    as (t2 & Hp2 & Hwf2 & Hg2 & Ht2).
  exists t2. split; [done|]. split; [done|]. split.
  - intros m j. rewrite Hg2, Hg1.
    destruct (decide (m = 1 ∧ j = i)) as [[-> ->]|H1].
    { rewrite decide_True by lia. by rewrite He1. }
    destruct (decide (m = 0 ∧ j = i)) as [[-> ->]|H0].
    { rewrite decide_True by lia. by rewrite He0. }
    rewrite decide_False; [done|]. intros [? ->]. assert (m = 0 ∨ m = 1) as [-> | ->] by lia; tauto.
  - rewrite Ht2, Ht1. done.
Qed.

(** A zeroed TLB and a machine with 1 MB of RAM at physical address 0. *)
Definition tlb_boot : soft_tlb :=
  mkSoftTlb (replicate 2 (replicate (Z.to_nat CPU_TLB_SIZE) (mkEntry 0 0 0 0)))
    (replicate 2 (replicate (Z.to_nat CPU_TLB_SIZE) 0)) 0
    (replicate (Z.to_nat TB_JMP_CACHE_SIZE) 0) 0 [].
Definition demo_machine : machine :=
  mkMachine [mkBlock 0 0x100000 0x7F0000000000 0 "ram"] (replicate 1024 0xFF)
    (λ i, if i =? 0 then Some (λ j, mkPhys (j << 10) (j << 10)) else None) 0.

Lemma tlb_boot_wf : tlb_wf tlb_boot.
Proof. split; try reflexivity; by apply Forall_replicate. Qed.

(** ** Flushing removes translations *)
Lemma page_of_no_invalid addr :
  (page_of addr =? (no_addr .& (TARGET_PAGE_MASK .| TLB_INVALID_MASK))) = false.
Proof.
  apply Z.eqb_neq. intros H. apply (f_equal (λ z, Z.testbit z 3)) in H.
  unfold page_of in H. rewrite Z.land_spec in H. cbn in H. by rewrite andb_false_r in H.
Qed.

Lemma invalidated_misses addr a e : entry_hits addr a (invalidate_entry e) = false.
Proof. destruct a; apply page_of_no_invalid. Qed.

Lemma flush_entries t g m j :
  get_entry (tlb_flush t g) m j = (e ← get_entry t m j; Ok (invalidate_entry e)).
Proof.
  unfold get_entry, aget.
  change (tlb_table (tlb_flush t g)) with (map (map invalidate_entry) (tlb_table t)).
  rewrite zlookup_map. destruct (zlookup (tlb_table t) m) as [row|]; [|done].
  cbn [fmap option_fmap option_map from_option_res]. rewrite !bind_ret, zlookup_map.
  by destruct (zlookup row j).
Qed.

Lemma flush_empties t g mmu_idx addr a :
  tlb_wf t → 0 ≤ mmu_idx < NB_MMU_MODES →
  tlb_wf (tlb_flush t g) ∧ tlb_hit (tlb_flush t g) mmu_idx addr a = Ok false ∧
  Forall (λ tb, tb = 0) (tb_jmp_cache (tlb_flush t g)) ∧ current_tb (tlb_flush t g) = 0.
Proof.
  intros Hwf Hm. split; [|split; [|split; [|done]]].
  - destruct Hwf as [H1 H2 H3 H4 H5]. split; cbn; try done.
    + by rewrite length_map.
    + apply Forall_map. eapply Forall_impl; [exact H2|]. intros r. unfold zlength. cbn.
      by rewrite length_map.
  - unfold tlb_hit. rewrite flush_entries.
    destruct (get_entry_ok t Hwf mmu_idx (tlb_index addr) Hm (tlb_index_bound addr)) as [e ->].
    by rewrite !bind_ret, invalidated_misses.
  - cbn. by apply Forall_replicate.
Qed.

(** After [tlb_flush] no access of any kind hits in any mode, the jump
    cache is empty and no block is current. *)
Theorem tlb_flush_misses t g mmu_idx addr a :
  tlb_wf t → 0 ≤ mmu_idx < NB_MMU_MODES →
  tlb_wf (tlb_flush t g) ∧ tlb_hit (tlb_flush t g) mmu_idx addr a = Ok false ∧
  Forall (λ tb, tb = 0) (tb_jmp_cache (tlb_flush t g)) ∧ current_tb (tlb_flush t g) = 0.
Proof. apply flush_empties. Qed.

Lemma tlb_flush_misses_witness :
  tlb_hit tlb_boot 1 0 Read = Ok true ∧ tlb_hit (tlb_flush tlb_boot true) 1 0 Read = Ok false.
Proof.
  split; [vm_compute; reflexivity|].
  apply (tlb_flush_misses tlb_boot true 1 0 Read tlb_boot_wf). unfold NB_MMU_MODES. lia.
Defined.


Lemma clear_range_spec i n l :
  0 ≤ i → i + Z.of_nat n ≤ zlength l →
  ∃ l', clear_range i n l = Ok l' ∧ zlength l' = zlength l ∧
    ∀ j, zlookup l' j = if decide (i ≤ j < i + Z.of_nat n) then Some 0 else zlookup l j.
Proof.
  intros Hi Hn. unfold clear_range.
  rewrite (proj2 (Z.leb_le _ _) Hi), (proj2 (Z.leb_le _ _) Hn). cbn [andb].
  eexists. split; [done|]. unfold zlength in *. split.
  { rewrite !length_app, length_take, length_replicate, length_drop. lia. }
  intros j. unfold zlookup. destruct (Z.leb_spec 0 j); [|by rewrite decide_False by lia].
  case_decide as Hj.
  - rewrite lookup_app_r by (rewrite length_take; lia).
    rewrite lookup_app_l by (rewrite length_replicate, length_take; lia).
    rewrite lookup_replicate_2; [done|]. rewrite length_take. lia.
  - destruct (decide (j < i)).
    + rewrite lookup_app_l by (rewrite length_take; lia). by rewrite lookup_take_lt by lia.
    + rewrite lookup_app_r by (rewrite length_take; lia).
      rewrite lookup_app_r by (rewrite length_replicate, length_take; lia).
      rewrite lookup_drop, length_replicate, length_take. f_equal. lia.
Qed.

(** A bit of a constant mask is decided by enumerating the mask's width. *)
Lemma mask_testbit m n k : 0 ≤ m < 2 ^ k → 0 ≤ k → k ≤ n → Z.testbit m n = false.
Proof.
  intros Hm Hk Hn. destruct (decide (m = 0)) as [->|]; [apply Z.bits_0|].
  apply Z.bits_above_log2; [lia|]. assert (Z.log2 m < k); [|lia].
  apply Z.log2_lt_pow2; lia.
Qed.

(** The jump cache hash of a page is determined by the page. *)
Lemma hash_page_of pc : tb_jmp_cache_hash_page (page_of pc) = tb_jmp_cache_hash_page pc.
Proof.
  unfold tb_jmp_cache_hash_page, page_of, TB_JMP_PAGE_MASK, TARGET_PAGE_MASK.
  apply Z.bits_inj'. intros n Hn. rewrite !Z.land_spec.
  destruct (decide (n < 12)) as [Hlt|Hge].
  - rewrite !Z.shiftr_spec, !Z.lxor_spec, !Z.shiftr_spec, !Z.land_spec by lia.
    assert (n = 0 ∨ n = 1 ∨ n = 2 ∨ n = 3 ∨ n = 4 ∨ n = 5 ∨ n = 6 ∨ n = 7 ∨ n = 8 ∨
      n = 9 ∨ n = 10 ∨ n = 11) as Hcases by lia.
    repeat destruct Hcases as [-> | Hcases]; subst; cbn; by rewrite ?andb_false_r, ?andb_true_r.
  - rewrite (mask_testbit 0xFC0 n 12) by lia. by rewrite !andb_false_r.
Qed.

Lemma hash_func_range pc :
  tb_jmp_cache_hash_page pc ≤ tb_jmp_cache_hash_func pc < tb_jmp_cache_hash_page pc + 64.
Proof.
  unfold tb_jmp_cache_hash_func, tb_jmp_cache_hash_page. cbv zeta.
  set (h := _ .& TB_JMP_PAGE_MASK). set (lo := _ .& TB_JMP_ADDR_MASK).
  assert (0 ≤ lo ≤ 63) as Hlo by (apply land_mask_bound; unfold TB_JMP_ADDR_MASK; lia).
  assert (h .& lo = 0) as Hdis.
  { unfold h, lo. rewrite <- !Z.land_assoc, (Z.land_assoc TB_JMP_PAGE_MASK).
    rewrite (Z.land_comm TB_JMP_PAGE_MASK), <- (Z.land_assoc _ TB_JMP_PAGE_MASK).
    change (TB_JMP_PAGE_MASK .& TB_JMP_ADDR_MASK) with 0. by rewrite !Z.land_0_r. }
  rewrite <- Z.lxor_lor by done. rewrite <- Z.add_nocarry_lxor by done. lia.
Qed.

Lemma hash_page_bound pc : 0 ≤ tb_jmp_cache_hash_page pc ≤ 0xFC0.
Proof. apply land_mask_bound. unfold TB_JMP_PAGE_MASK. lia. Qed.

(** The slots of the jump cache that belong to the page of [q]. *)
Definition page_slot (q k : Z) : Prop :=
  tb_jmp_cache_hash_page q ≤ k < tb_jmp_cache_hash_page q + TB_JMP_PAGE_SIZE.

Lemma flush_jmp_cache_ok addr t :
  tlb_wf t →
  ∃ c, tlb_flush_jmp_cache addr t = Ok (t <| tb_jmp_cache := c |>) ∧
    zlength c = TB_JMP_CACHE_SIZE ∧
    (∀ pc, page_of pc = page_of addr ∨ page_of pc = page_of (u32 (addr - TARGET_PAGE_SIZE)) →
      zlookup c (tb_jmp_cache_hash_func pc) = Some 0) ∧
    (∀ k, ¬ page_slot addr k → ¬ page_slot (u32 (addr - TARGET_PAGE_SIZE)) k →
      zlookup c k = zlookup (tb_jmp_cache t) k).
Proof.
  intros Hwf. unfold tlb_flush_jmp_cache. cbv zeta.
  set (prev := u32 (addr - TARGET_PAGE_SIZE)).
  pose proof (wf_jmp _ Hwf) as Hl. unfold TB_JMP_CACHE_SIZE in *.
  pose proof (hash_page_bound prev). pose proof (hash_page_bound addr).
  assert (Z.of_nat (Z.to_nat TB_JMP_PAGE_SIZE) = 64) as H64 by reflexivity.
  destruct (clear_range_spec (tb_jmp_cache_hash_page prev) (Z.to_nat TB_JMP_PAGE_SIZE)
    (tb_jmp_cache t)) as (c1 & -> & Hl1 & Hc1); [lia|lia|].
  rewrite bind_ret.
  destruct (clear_range_spec (tb_jmp_cache_hash_page addr) (Z.to_nat TB_JMP_PAGE_SIZE) c1)
    as (c2 & -> & Hl2 & Hc2); [lia|lia|].
  rewrite bind_ret. exists c2. split; [done|]. split; [lia|]. split.
  2:{ intros k Hk1 Hk2. unfold page_slot, TB_JMP_PAGE_SIZE in Hk1, Hk2.
      by rewrite Hc2, Hc1, H64, !decide_False by lia. }
  intros pc Hpc. pose proof (hash_func_range pc) as Hr.
  rewrite <- (hash_page_of pc) in Hr.
  rewrite Hc2, Hc1, H64. destruct Hpc as [Hpc|Hpc]; rewrite Hpc, hash_page_of in Hr.
  - by rewrite decide_True by lia.
  - case_decide; [done|]. by rewrite decide_True by lia.
Qed.

Lemma page_of_idem a : page_of (page_of a) = page_of a.
Proof. unfold page_of. by rewrite <- Z.land_assoc, Z.land_diag. Qed.

Lemma tlb_index_page a : tlb_index (page_of a) = tlb_index a.
Proof.
  unfold tlb_index, page_of, TARGET_PAGE_BITS, TARGET_PAGE_MASK, CPU_TLB_SIZE.
  change (256 - 1) with (Z.ones 8). rewrite Z.shiftr_land.
  change (0xFFFFFC00 >> 10) with (Z.ones 22).
  rewrite <- Z.land_assoc. f_equal.
Qed.

Lemma flush_page_ok t addr :
  tlb_wf t →
  ∃ t', tlb_flush_page addr t = Ok t' ∧ tlb_wf t' ∧
    (∀ m a x, 0 ≤ m < NB_MMU_MODES → page_of x = page_of addr →
       tlb_hit t' m x a = Ok false) ∧
    (∀ pc, page_of pc = page_of addr ∨
           page_of pc = page_of (u32 (page_of addr - TARGET_PAGE_SIZE)) →
       zlookup (tb_jmp_cache t') (tb_jmp_cache_hash_func pc) = Some 0) ∧
    (∀ m j e, get_entry t m j = Ok e →
       (∀ a, entry_hits (page_of addr) a e = false) → get_entry t' m j = Ok e) ∧
    (∀ m j, j ≠ tlb_index addr → get_entry t' m j = get_entry t m j) ∧
    (∀ k, ¬ page_slot addr k → ¬ page_slot (u32 (page_of addr - TARGET_PAGE_SIZE)) k →
       zlookup (tb_jmp_cache t') k = zlookup (tb_jmp_cache t) k) ∧
    t' = t <| current_tb := 0 |> <| tlb_table := tlb_table t' |> <| tb_jmp_cache := tb_jmp_cache t' |>.
Proof.
  intros Hwf. unfold tlb_flush_page.
  set (t0 := t <| current_tb := 0 |>). fold (page_of addr).
  assert (tlb_wf t0) as Hwf0 by (destruct Hwf; by split).
  set (p := page_of addr). set (f := λ e, tlb_flush_entry e p).
  destruct (each_mode_ok t0 (tlb_index p) f Hwf0 (tlb_index_bound p))
    as (t1 & -> & Hwf1 & Hg & Ht1).
  rewrite bind_ret.
  destruct (flush_jmp_cache_ok p t1 Hwf1) as (c & -> & Hc & Hpc & Hkeep).
  eexists. split; [done|]. split; [by destruct Hwf1; split|]. split; [|split; [|split; [|split; [|split]]]].
  - intros m a x Hm Hx. unfold tlb_hit.
    change (get_entry (t1 <| tb_jmp_cache := c |>)) with (get_entry t1).
    assert (tlb_index x = tlb_index p) as ->.
    { unfold p. by rewrite <- (tlb_index_page x), Hx. }
    rewrite Hg, decide_True by done.
    change (get_entry t0) with (get_entry t).
    destruct (get_entry_ok t Hwf m (tlb_index p) Hm (tlb_index_bound p)) as [e ->].
    rewrite !bind_ret. f_equal. unfold f, tlb_flush_entry.
    destruct (_ || _) eqn:Hany; [apply invalidated_misses|].
    apply orb_false_elim in Hany as [Hrw Hco]. apply orb_false_elim in Hrw as [Hrd Hw].
    unfold entry_hits. rewrite Hx. fold p. by destruct a.
  - intros pc Hq. apply Hpc. unfold p. by rewrite page_of_idem.
  - intros m j e He Hmiss.
    change (get_entry (t1 <| tb_jmp_cache := c |>)) with (get_entry t1).
    rewrite Hg. change (get_entry t0) with (get_entry t). rewrite He.
    case_decide; [|done]. rewrite bind_ret. f_equal. unfold f, tlb_flush_entry.
    pose proof (Hmiss Read) as H1. pose proof (Hmiss Write) as H2. pose proof (Hmiss Code) as H3.
    assert (page_of p = p) as Hpp by apply page_of_idem.
    unfold entry_hits in H1, H2, H3. rewrite Hpp in H1, H2, H3. cbn [tlb_addr] in H1, H2, H3. by rewrite H1, H2, H3.
  - intros m j Hj. change (get_entry (t1 <| tb_jmp_cache := c |>)) with (get_entry t1).
    rewrite Hg, decide_False; [done|]. intros [_ ->]. apply Hj. apply tlb_index_page.
  - intros k Hk Hk'. cbn [tb_jmp_cache set_field]. rewrite Hkeep; [by rewrite Ht1| |done].
    unfold page_slot in *. unfold p. by rewrite hash_page_of.
  - rewrite Ht1. by destruct t.
Qed.

(** C30: [tlb_flush_page addr] never faults; afterwards no access to the page
    of [addr] hits in any mode, and every jump-cache slot of a program counter on
    that page or on the page before it is empty.  Nothing else changes: an entry
    none of whose addresses is on the page is kept, a jump-cache slot that
    belongs to neither page keeps its block, and of the other fields only
    [current_tb] is reset. *)
Theorem tlb_flush_page_spec t addr :
  tlb_wf t →
  ∃ t', tlb_flush_page addr t = Ok t' ∧ tlb_wf t' ∧
    (∀ m a x, 0 ≤ m < NB_MMU_MODES → page_of x = page_of addr →
       tlb_hit t' m x a = Ok false) ∧
    (∀ pc, page_of pc = page_of addr ∨
           page_of pc = page_of (u32 (page_of addr - TARGET_PAGE_SIZE)) →
       zlookup (tb_jmp_cache t') (tb_jmp_cache_hash_func pc) = Some 0) ∧
    (∀ m j e, get_entry t m j = Ok e →
       (∀ a, entry_hits (page_of addr) a e = false) → get_entry t' m j = Ok e) ∧
    (∀ k, ¬ page_slot addr k → ¬ page_slot (u32 (page_of addr - TARGET_PAGE_SIZE)) k →
       zlookup (tb_jmp_cache t') k = zlookup (tb_jmp_cache t) k) ∧
    t' = t <| current_tb := 0 |> <| tlb_table := tlb_table t' |> <| tb_jmp_cache := tb_jmp_cache t' |>.
Proof.
  intros Hwf. destruct (flush_page_ok t addr Hwf) as (t' & H1 & H2 & H3 & H4 & H5 & _ & H6 & H7). eauto 12.
Qed.

Lemma tlb_flush_page_spec_witness :
  ∃ t', tlb_flush_page 0x123 tlb_boot = Ok t' ∧ tlb_hit t' 1 0x3FF Write = Ok false.
Proof.
  destruct (tlb_flush_page_spec tlb_boot 0x123 tlb_boot_wf) as (t' & H & _ & Hm & _).
  exists t'. split; [exact H|]. apply (Hm 1 Write 0x3FF); [unfold NB_MMU_MODES; lia|reflexivity].
Defined.


(** ** Entering a translation makes it hit *)

(** The part of a table word the hit test looks at. *)
Definition hit_key (a : Z) : Z := a .& (TARGET_PAGE_MASK .| TLB_INVALID_MASK).

Lemma hit_key_flag a f : hit_key f = 0 → hit_key (a .| f) = hit_key a.
Proof. unfold hit_key. intros Hf. by rewrite Z.land_lor_distr_l, Hf, Z.lor_0_r. Qed.

Lemma hit_key_page v : page_of v = v → hit_key v = v.
Proof.
  unfold hit_key, page_of. intros Hv. rewrite Z.land_lor_distr_r, Hv.
  rewrite <- Hv at 2. rewrite <- Z.land_assoc.
  change (TARGET_PAGE_MASK .& TLB_INVALID_MASK) with 0. by rewrite Z.land_0_r, Z.lor_0_r.
Qed.

Lemma watch_loop_key wps vaddr paddr io address i :
  hit_key (watch_loop wps vaddr paddr io address i).1 = hit_key address.
Proof.
  revert address i. induction wps as [|wp wps IH]; intros address i; [done|]. cbn.
  destruct (_ =? _); rewrite IH; [|done]. by apply hit_key_flag.
Qed.

Lemma write_address_key pd address prot dirty aw v :
  write_address pd address prot dirty = Ok aw → hit_key address = v → v ≠ hit_key no_addr →
  (v =? hit_key aw) = truth (prot .& PAGE_WRITE).
Proof.
  unfold write_address. intros Hw <- Hv. destruct (truth (prot .& PAGE_WRITE)).
  - apply Z.eqb_eq. destruct (_ || _).
    + injection Hw as <-. by rewrite hit_key_flag.
    + destruct (_ =? _); [|by injection Hw as <-].
      apply bind_Ok in Hw as (d & _ & Hw). injection Hw as <-.
      destruct (negb d); [by rewrite hit_key_flag|done].
  - injection Hw as <-. by apply Z.eqb_neq.
Qed.

Lemma page_not_no_addr v : page_of v = v → v ≠ hit_key no_addr.
Proof.
  intros Hv Heq. pose proof (page_of_no_invalid v) as H. rewrite Hv in H.
  apply Z.eqb_neq in H. by apply H.
Qed.

Lemma set_page_hits t m vaddr paddr prot mmu_idx t' m' :
  tlb_wf t → page_of vaddr = vaddr → 0 ≤ mmu_idx < NB_MMU_MODES →
  tlb_set_page_exec vaddr paddr prot mmu_idx t m = Ok (t', m') →
  tlb_wf t' ∧
  (∀ x, page_of x = vaddr →
     tlb_hit t' mmu_idx x Read = Ok (truth (prot .& PAGE_READ)) ∧
     tlb_hit t' mmu_idx x Write = Ok (truth (prot .& PAGE_WRITE)) ∧
     tlb_hit t' mmu_idx x Code = Ok (truth (prot .& PAGE_EXEC))) ∧
  (∀ mm j, ¬ (mm = mmu_idx ∧ j = tlb_index vaddr) → get_entry t' mm j = get_entry t mm j).
Proof.
  intros Hwf Hv Hm H. unfold tlb_set_page_exec in H.
  destruct (page_descriptor m paddr) as [pd p].
  set (address := if is_io pd then vaddr .| TLB_MMIO else vaddr) in *.
  assert (hit_key address = vaddr) as Hkey.
  { unfold address. destruct (is_io pd); rewrite ?hit_key_flag by done; by apply hit_key_page. }
  apply bind_Ok in H as ([hb m1] & _ & H).
  pose proof (watch_loop_key (watchpoints t) vaddr paddr (io_mem_watch m1) address
    (iotlb_value pd paddr p)) as Hwk.
  destruct (watch_loop _ _ _ _ _ _) as [wa wi]. cbn [fst] in Hwk. rewrite Hkey in Hwk.
  destruct (put_iotlb_ok t Hwf mmu_idx (tlb_index vaddr) (u32 (wi - vaddr)) Hm
    (tlb_index_bound vaddr)) as (io & Hio & Hwf1).
  rewrite Hio, bind_ret in H. set (t1 := t <| iotlb := io |>) in *.
  destruct (get_entry_ok t1 Hwf1 mmu_idx (tlb_index vaddr) Hm (tlb_index_bound vaddr)) as [e He].
  rewrite He, bind_ret in H. apply bind_Ok in H as (aw & Haw & H).
  set (e' := _ <| addr_write := aw |>) in H.
  destruct (put_entry_ok t1 Hwf1 mmu_idx (tlb_index vaddr) e' Hm (tlb_index_bound vaddr))
    as (t2 & Hp & Hwf2 & Hg & _).
  rewrite Hp, bind_ret in H. injection H as <- <-.
  split; [done|]. split.
  - intros x Hx.
    assert (tlb_index x = tlb_index vaddr) as Hix by (by rewrite <- (tlb_index_page x), Hx).
    assert (∀ a, tlb_hit t2 mmu_idx x a = Ok (vaddr =? hit_key (tlb_addr a e'))) as Hh.
    { intros a. unfold tlb_hit. rewrite Hix, Hg, decide_True by done. rewrite bind_ret.
      unfold entry_hits. by rewrite Hx. }
    pose proof (page_not_no_addr vaddr Hv) as Hno.
    rewrite !Hh. unfold e'. cbn [tlb_addr]. split; [|split]; f_equal.
    + change (addr_read _) with (if truth (prot .& PAGE_READ) then wa else no_addr).
      destruct (truth (prot .& PAGE_READ)); [by rewrite Hwk, Z.eqb_refl|by apply Z.eqb_neq].
    + change (addr_write _) with aw. by eapply write_address_key.
    + change (addr_code _) with (if truth (prot .& PAGE_EXEC) then address else no_addr).
      destruct (truth (prot .& PAGE_EXEC)); [by rewrite Hkey, Z.eqb_refl|by apply Z.eqb_neq].
  - intros mm j Hne. rewrite Hg, decide_False by done. done.
Qed.

(** [tlb_set_page_exec] enters the page in exactly one slot, and then
    each kind of access hits exactly when its protection bit was given, for
    every address of the page; all other slots keep their entries. *)
Theorem tlb_set_page_exec_hits t m vaddr paddr prot mmu_idx t' m' :
  tlb_wf t → page_of vaddr = vaddr → 0 ≤ mmu_idx < NB_MMU_MODES →
  tlb_set_page_exec vaddr paddr prot mmu_idx t m = Ok (t', m') →
  tlb_wf t' ∧
  (∀ x, page_of x = vaddr →
     tlb_hit t' mmu_idx x Read = Ok (truth (prot .& PAGE_READ)) ∧
     tlb_hit t' mmu_idx x Write = Ok (truth (prot .& PAGE_WRITE)) ∧
     tlb_hit t' mmu_idx x Code = Ok (truth (prot .& PAGE_EXEC))) ∧
  (∀ mm j, ¬ (mm = mmu_idx ∧ j = tlb_index vaddr) → get_entry t' mm j = get_entry t mm j).
Proof. apply set_page_hits. Qed.

Lemma tlb_set_page_exec_hits_witness :
  ∃ t' m', tlb_set_page_exec 0x8000 0x4000 (PAGE_READ .| PAGE_EXEC) 1 tlb_boot demo_machine
             = Ok (t', m') ∧
    tlb_hit t' 1 0x8123 Read = Ok true ∧ tlb_hit t' 1 0x8123 Write = Ok false ∧
    tlb_hit t' 1 0x8123 Code = Ok true.
Proof.
  destruct (tlb_set_page_exec 0x8000 0x4000 (PAGE_READ .| PAGE_EXEC) 1 tlb_boot demo_machine)
    as [[t' m']|] eqn:E; [|vm_compute in E; discriminate E].
  exists t', m'. split; [reflexivity|].
  destruct (tlb_set_page_exec_hits tlb_boot demo_machine 0x8000 0x4000
    (PAGE_READ .| PAGE_EXEC) 1 t' m' tlb_boot_wf (eq_refl : page_of 0x8000 = 0x8000)
    ltac:(unfold NB_MMU_MODES; lia) E) as (_ & H & _).
  exact (H 0x8123 eq_refl).
Defined.

