(* ===== verification/ArmCpu.v ===== *)
(** * The ARM CPU state ([target-arm/cpu.h], [target-arm/helper.c])

    The registers, coprocessor 15, the banked registers and the cached
    condition flags of one CPU; reset for every CPU model; the program status
    register; mode switching.  [CONFIG_ANDROID] is on, [CONFIG_USER_ONLY] off. *)
From S2P Require Import Prelude SoftTlb.

(** ** State

    Registers are 32-bit words as integers; arrays have the size the comment
    gives. *)
Record cp15_t := mkCp15 {
  c0_cpuid : Z;
  c0_cachetype : Z;
  c0_ccsid : list Z;   (** 16 words: cache size *)
  c0_clid : Z;   (** cache level *)
  c0_cssel : Z;   (** cache size selection *)
  c0_c1 : list Z;   (** 8 words: feature registers *)
  c0_c2 : list Z;   (** 8 words: instruction set registers *)
  c1_sys : Z;   (** system control register *)
  c1_coproc : Z;   (** coprocessor access register *)
  c1_xscaleauxcr : Z;
  c1_secfg : Z;   (** secure configuration *)
  c1_sedbg : Z;   (** secure debug enable *)
  c1_nseac : Z;   (** non-secure access control *)
  c2_base0 : Z;   (** translation table base 0 *)
  c2_base1 : Z;   (** translation table base 1 *)
  c2_control : Z;   (** translation table base control *)
  c2_mask : Z;   (** translation table base selection mask *)
  c2_base_mask : Z;   (** translation table base 0 mask *)
  c2_data : Z;   (** MPU data cachable bits *)
  c2_insn : Z;   (** MPU instruction cachable bits *)
  c3 : Z;   (** domain access control *)
  c5_insn : Z;   (** fault status registers *)
  c5_data : Z;
  c6_region : list Z;   (** 8 words: MPU base and size *)
  c6_insn : Z;   (** fault address registers *)
  c6_data : Z;
  c7_par : Z;   (** translation result *)
  c9_insn : Z;   (** cache lockdown *)
  c9_data : Z;
  c9_pmcr_data : Z;   (** performance monitor control *)
  c9_useren : Z;
  c9_inten : Z;
  c12_vbar : Z;   (** vector base address *)
  c12_mvbar : Z;   (** monitor vector base address *)
  c13_fcse : Z;   (** FCSE PID *)
  c13_context : Z;   (** context ID *)
  c13_tls1 : Z;
  c13_tls2 : Z;
  c13_tls3 : Z;
  c15_cpar : Z;   (** XScale coprocessor access *)
  c15_ticonfig : Z;
  c15_i_max : Z;
  c15_i_min : Z;
  c15_threadid : Z
}.
Definition eta_cp15_t (r : cp15_t) : cp15_t :=
  mkCp15 (c0_cpuid r) (c0_cachetype r) (c0_ccsid r) (c0_clid r) (c0_cssel r) (c0_c1 r)
    (c0_c2 r) (c1_sys r) (c1_coproc r) (c1_xscaleauxcr r) (c1_secfg r) (c1_sedbg r)
    (c1_nseac r) (c2_base0 r) (c2_base1 r) (c2_control r) (c2_mask r) (c2_base_mask r)
    (c2_data r) (c2_insn r) (c3 r) (c5_insn r) (c5_data r) (c6_region r) (c6_insn r)
    (c6_data r) (c7_par r) (c9_insn r) (c9_data r) (c9_pmcr_data r) (c9_useren r)
    (c9_inten r) (c12_vbar r) (c12_mvbar r) (c13_fcse r) (c13_context r) (c13_tls1 r)
    (c13_tls2 r) (c13_tls3 r) (c15_cpar r) (c15_ticonfig r) (c15_i_max r) (c15_i_min r)
    (c15_threadid r).
#[export] Instance set_c0_cpuid : Setter c0_cpuid := ltac:(derive_setter eta_cp15_t c0_cpuid).
#[export] Instance set_c0_cachetype : Setter c0_cachetype := ltac:(derive_setter eta_cp15_t c0_cachetype).
#[export] Instance set_c0_ccsid : Setter c0_ccsid := ltac:(derive_setter eta_cp15_t c0_ccsid).
#[export] Instance set_c0_clid : Setter c0_clid := ltac:(derive_setter eta_cp15_t c0_clid).
#[export] Instance set_c0_cssel : Setter c0_cssel := ltac:(derive_setter eta_cp15_t c0_cssel).
#[export] Instance set_c0_c1 : Setter c0_c1 := ltac:(derive_setter eta_cp15_t c0_c1).
#[export] Instance set_c0_c2 : Setter c0_c2 := ltac:(derive_setter eta_cp15_t c0_c2).
#[export] Instance set_c1_sys : Setter c1_sys := ltac:(derive_setter eta_cp15_t c1_sys).
#[export] Instance set_c1_coproc : Setter c1_coproc := ltac:(derive_setter eta_cp15_t c1_coproc).
#[export] Instance set_c1_xscaleauxcr : Setter c1_xscaleauxcr := ltac:(derive_setter eta_cp15_t c1_xscaleauxcr).
#[export] Instance set_c1_secfg : Setter c1_secfg := ltac:(derive_setter eta_cp15_t c1_secfg).
#[export] Instance set_c1_sedbg : Setter c1_sedbg := ltac:(derive_setter eta_cp15_t c1_sedbg).
#[export] Instance set_c1_nseac : Setter c1_nseac := ltac:(derive_setter eta_cp15_t c1_nseac).
#[export] Instance set_c2_base0 : Setter c2_base0 := ltac:(derive_setter eta_cp15_t c2_base0).
#[export] Instance set_c2_base1 : Setter c2_base1 := ltac:(derive_setter eta_cp15_t c2_base1).
#[export] Instance set_c2_control : Setter c2_control := ltac:(derive_setter eta_cp15_t c2_control).
#[export] Instance set_c2_mask : Setter c2_mask := ltac:(derive_setter eta_cp15_t c2_mask).
#[export] Instance set_c2_base_mask : Setter c2_base_mask := ltac:(derive_setter eta_cp15_t c2_base_mask).
#[export] Instance set_c2_data : Setter c2_data := ltac:(derive_setter eta_cp15_t c2_data).
#[export] Instance set_c2_insn : Setter c2_insn := ltac:(derive_setter eta_cp15_t c2_insn).
#[export] Instance set_c3 : Setter c3 := ltac:(derive_setter eta_cp15_t c3).
#[export] Instance set_c5_insn : Setter c5_insn := ltac:(derive_setter eta_cp15_t c5_insn).
#[export] Instance set_c5_data : Setter c5_data := ltac:(derive_setter eta_cp15_t c5_data).
#[export] Instance set_c6_region : Setter c6_region := ltac:(derive_setter eta_cp15_t c6_region).
#[export] Instance set_c6_insn : Setter c6_insn := ltac:(derive_setter eta_cp15_t c6_insn).
#[export] Instance set_c6_data : Setter c6_data := ltac:(derive_setter eta_cp15_t c6_data).
#[export] Instance set_c7_par : Setter c7_par := ltac:(derive_setter eta_cp15_t c7_par).
#[export] Instance set_c9_insn : Setter c9_insn := ltac:(derive_setter eta_cp15_t c9_insn).
#[export] Instance set_c9_data : Setter c9_data := ltac:(derive_setter eta_cp15_t c9_data).
#[export] Instance set_c9_pmcr_data : Setter c9_pmcr_data := ltac:(derive_setter eta_cp15_t c9_pmcr_data).
#[export] Instance set_c9_useren : Setter c9_useren := ltac:(derive_setter eta_cp15_t c9_useren).
#[export] Instance set_c9_inten : Setter c9_inten := ltac:(derive_setter eta_cp15_t c9_inten).
#[export] Instance set_c12_vbar : Setter c12_vbar := ltac:(derive_setter eta_cp15_t c12_vbar).
#[export] Instance set_c12_mvbar : Setter c12_mvbar := ltac:(derive_setter eta_cp15_t c12_mvbar).
#[export] Instance set_c13_fcse : Setter c13_fcse := ltac:(derive_setter eta_cp15_t c13_fcse).
#[export] Instance set_c13_context : Setter c13_context := ltac:(derive_setter eta_cp15_t c13_context).
#[export] Instance set_c13_tls1 : Setter c13_tls1 := ltac:(derive_setter eta_cp15_t c13_tls1).
#[export] Instance set_c13_tls2 : Setter c13_tls2 := ltac:(derive_setter eta_cp15_t c13_tls2).
#[export] Instance set_c13_tls3 : Setter c13_tls3 := ltac:(derive_setter eta_cp15_t c13_tls3).
#[export] Instance set_c15_cpar : Setter c15_cpar := ltac:(derive_setter eta_cp15_t c15_cpar).
#[export] Instance set_c15_ticonfig : Setter c15_ticonfig := ltac:(derive_setter eta_cp15_t c15_ticonfig).
#[export] Instance set_c15_i_max : Setter c15_i_max := ltac:(derive_setter eta_cp15_t c15_i_max).
#[export] Instance set_c15_i_min : Setter c15_i_min := ltac:(derive_setter eta_cp15_t c15_i_min).
#[export] Instance set_c15_threadid : Setter c15_threadid := ltac:(derive_setter eta_cp15_t c15_threadid).

Record v7m_t := mkV7m {
  other_sp : Z;
  vecbase : Z;
  basepri : Z;
  control : Z;
  current_sp : Z;
  exception : Z;
  pending_exception : Z
}.
Definition eta_v7m_t (r : v7m_t) : v7m_t :=
  mkV7m (other_sp r) (vecbase r) (basepri r) (control r) (current_sp r) (exception r)
    (pending_exception r).
#[export] Instance set_other_sp : Setter other_sp := ltac:(derive_setter eta_v7m_t other_sp).
#[export] Instance set_vecbase : Setter vecbase := ltac:(derive_setter eta_v7m_t vecbase).
#[export] Instance set_basepri : Setter basepri := ltac:(derive_setter eta_v7m_t basepri).
#[export] Instance set_control : Setter control := ltac:(derive_setter eta_v7m_t control).
#[export] Instance set_current_sp : Setter current_sp := ltac:(derive_setter eta_v7m_t current_sp).
#[export] Instance set_exception : Setter exception := ltac:(derive_setter eta_v7m_t exception).
#[export] Instance set_pending_exception : Setter pending_exception := ltac:(derive_setter eta_v7m_t pending_exception).

(** Only the fields the helpers touch. *)
Record float_status := mkFloatStatus {
  float_detect_tininess : Z;
  float_rounding_mode : Z;
  float_exception_flags : Z;
  flush_to_zero : Z;
  flush_inputs_to_zero : Z;
  default_nan_mode : Z
}.
Definition eta_float_status (r : float_status) : float_status :=
  mkFloatStatus (float_detect_tininess r) (float_rounding_mode r) (float_exception_flags
    r) (flush_to_zero r) (flush_inputs_to_zero r) (default_nan_mode r).
#[export] Instance set_float_detect_tininess : Setter float_detect_tininess := ltac:(derive_setter eta_float_status float_detect_tininess).
#[export] Instance set_float_rounding_mode : Setter float_rounding_mode := ltac:(derive_setter eta_float_status float_rounding_mode).
#[export] Instance set_float_exception_flags : Setter float_exception_flags := ltac:(derive_setter eta_float_status float_exception_flags).
#[export] Instance set_flush_to_zero : Setter flush_to_zero := ltac:(derive_setter eta_float_status flush_to_zero).
#[export] Instance set_flush_inputs_to_zero : Setter flush_inputs_to_zero := ltac:(derive_setter eta_float_status flush_inputs_to_zero).
#[export] Instance set_default_nan_mode : Setter default_nan_mode := ltac:(derive_setter eta_float_status default_nan_mode).

Record vfp_t := mkVfp {
  vregs : list Z;   (** 32 doublewords: [regs] of the struct *)
  xregs : list Z;   (** 16 words *)
  vec_len : Z;
  vec_stride : Z;
  fp_status : float_status;
  standard_fp_status : float_status
}.
Definition eta_vfp_t (r : vfp_t) : vfp_t :=
  mkVfp (vregs r) (xregs r) (vec_len r) (vec_stride r) (fp_status r) (standard_fp_status r).
#[export] Instance set_vregs : Setter vregs := ltac:(derive_setter eta_vfp_t vregs).
#[export] Instance set_xregs : Setter xregs := ltac:(derive_setter eta_vfp_t xregs).
#[export] Instance set_vec_len : Setter vec_len := ltac:(derive_setter eta_vfp_t vec_len).
#[export] Instance set_vec_stride : Setter vec_stride := ltac:(derive_setter eta_vfp_t vec_stride).
#[export] Instance set_fp_status : Setter fp_status := ltac:(derive_setter eta_vfp_t fp_status).
#[export] Instance set_standard_fp_status : Setter standard_fp_status := ltac:(derive_setter eta_vfp_t standard_fp_status).

(** Handlers and their argument, as opaque numbers. *)
Record cp_io := mkCpIo { cp_read : Z; cp_write : Z; opaque : Z }.

Record CPUARMState := mkCpu {
  regs : list Z;   (** 16 words: registers of the current mode *)
  uncached_cpsr : Z;   (** the CPSR bits not cached below *)
  spsr : Z;
  banked_spsr : list Z;   (** 7 words *)
  banked_r13 : list Z;   (** 7 words *)
  banked_r14 : list Z;   (** 7 words *)
  usr_regs : list Z;   (** 5 words: r8-r12 *)
  fiq_regs : list Z;   (** 5 words: r8-r12 *)
  CF : Z;   (** 0 or 1 *)
  VF : Z;   (** V is bit 31 *)
  NF : Z;   (** N is bit 31 *)
  ZF : Z;   (** Z is set when this is 0 *)
  QF : Z;   (** 0 or 1 *)
  GE : Z;   (** cpsr bits 19:16 *)
  thumb : Z;   (** cpsr bit 5 *)
  condexec_bits : Z;   (** IT bits *)
  cp15 : cp15_t;
  v7m : v7m_t;
  cp14_dbgdidr : Z;
  teecr : Z;
  features : Z;   (** a bit per feature *)
  vfp : vfp_t;
  exclusive_addr : Z;   (** what the last exclusive load read, and where *)
  exclusive_val : Z;
  exclusive_high : Z;
  iwmmxt_cregs : list Z;   (** 16 words *)
  cp_handlers : list (option cp_io);   (** 15 entries: coprocessor I/O *)
  halted : Z;   (** the CPU waits for an interrupt *)
  interrupt_request : Z;
  exit_request : Z;   (** leave the execution loop *)
  tlb : soft_tlb;   (** the QEMU TLB of this CPU *)
  exception_index : Z;
  cpu_index : Z
}.
Definition eta_CPUARMState (r : CPUARMState) : CPUARMState :=
  mkCpu (regs r) (uncached_cpsr r) (spsr r) (banked_spsr r) (banked_r13 r) (banked_r14
    r) (usr_regs r) (fiq_regs r) (CF r) (VF r) (NF r) (ZF r) (QF r) (GE r) (thumb r)
    (condexec_bits r) (cp15 r) (v7m r) (cp14_dbgdidr r) (teecr r) (features r) (vfp r)
    (exclusive_addr r) (exclusive_val r) (exclusive_high r)
    (iwmmxt_cregs r) (cp_handlers r) (halted r) (interrupt_request r) (exit_request r)
    (tlb r) (exception_index r) (cpu_index r).
#[export] Instance set_regs : Setter regs := ltac:(derive_setter eta_CPUARMState regs).
#[export] Instance set_uncached_cpsr : Setter uncached_cpsr := ltac:(derive_setter eta_CPUARMState uncached_cpsr).
#[export] Instance set_spsr : Setter spsr := ltac:(derive_setter eta_CPUARMState spsr).
#[export] Instance set_banked_spsr : Setter banked_spsr := ltac:(derive_setter eta_CPUARMState banked_spsr).
#[export] Instance set_banked_r13 : Setter banked_r13 := ltac:(derive_setter eta_CPUARMState banked_r13).
#[export] Instance set_banked_r14 : Setter banked_r14 := ltac:(derive_setter eta_CPUARMState banked_r14).
#[export] Instance set_usr_regs : Setter usr_regs := ltac:(derive_setter eta_CPUARMState usr_regs).
#[export] Instance set_fiq_regs : Setter fiq_regs := ltac:(derive_setter eta_CPUARMState fiq_regs).
#[export] Instance set_CF : Setter CF := ltac:(derive_setter eta_CPUARMState CF).
#[export] Instance set_VF : Setter VF := ltac:(derive_setter eta_CPUARMState VF).
#[export] Instance set_NF : Setter NF := ltac:(derive_setter eta_CPUARMState NF).
#[export] Instance set_ZF : Setter ZF := ltac:(derive_setter eta_CPUARMState ZF).
#[export] Instance set_QF : Setter QF := ltac:(derive_setter eta_CPUARMState QF).
#[export] Instance set_GE : Setter GE := ltac:(derive_setter eta_CPUARMState GE).
#[export] Instance set_thumb : Setter thumb := ltac:(derive_setter eta_CPUARMState thumb).
#[export] Instance set_condexec_bits : Setter condexec_bits := ltac:(derive_setter eta_CPUARMState condexec_bits).
#[export] Instance set_cp15 : Setter cp15 := ltac:(derive_setter eta_CPUARMState cp15).
#[export] Instance set_v7m : Setter v7m := ltac:(derive_setter eta_CPUARMState v7m).
#[export] Instance set_cp14_dbgdidr : Setter cp14_dbgdidr := ltac:(derive_setter eta_CPUARMState cp14_dbgdidr).
#[export] Instance set_teecr : Setter teecr := ltac:(derive_setter eta_CPUARMState teecr).
#[export] Instance set_features : Setter features := ltac:(derive_setter eta_CPUARMState features).
#[export] Instance set_vfp : Setter vfp := ltac:(derive_setter eta_CPUARMState vfp).
#[export] Instance set_exclusive_addr : Setter exclusive_addr := ltac:(derive_setter eta_CPUARMState exclusive_addr).
#[export] Instance set_exclusive_val : Setter exclusive_val := ltac:(derive_setter eta_CPUARMState exclusive_val).
#[export] Instance set_exclusive_high : Setter exclusive_high := ltac:(derive_setter eta_CPUARMState exclusive_high).
#[export] Instance set_iwmmxt_cregs : Setter iwmmxt_cregs := ltac:(derive_setter eta_CPUARMState iwmmxt_cregs).
#[export] Instance set_cp_handlers : Setter cp_handlers := ltac:(derive_setter eta_CPUARMState cp_handlers).
#[export] Instance set_halted : Setter halted := ltac:(derive_setter eta_CPUARMState halted).
#[export] Instance set_exit_request : Setter exit_request := ltac:(derive_setter eta_CPUARMState exit_request).
#[export] Instance set_interrupt_request : Setter interrupt_request := ltac:(derive_setter eta_CPUARMState interrupt_request).
#[export] Instance set_tlb : Setter tlb := ltac:(derive_setter eta_CPUARMState tlb).
#[export] Instance set_exception_index : Setter exception_index := ltac:(derive_setter eta_CPUARMState exception_index).
#[export] Instance set_cpu_index : Setter cpu_index := ltac:(derive_setter eta_CPUARMState cpu_index).

(** Assigning a field of a nested struct. *)
Definition on_cp15 (g : cp15_t → cp15_t) (e : CPUARMState) : CPUARMState :=
  e <| cp15 := g (cp15 e) |>.
Definition on_v7m (g : v7m_t → v7m_t) (e : CPUARMState) : CPUARMState :=
  e <| v7m := g (v7m e) |>.
Definition on_vfp (g : vfp_t → vfp_t) (e : CPUARMState) : CPUARMState :=
  e <| vfp := g (vfp e) |>.

(** [env->regs[n]] for a constant [n] below 16. *)
Definition reg (e : CPUARMState) (n : nat) : Z := nth n (regs e) 0.
Definition set_reg (n : nat) (v : Z) (e : CPUARMState) : CPUARMState :=
  e <| regs := <[n := v]> (regs e) |>.

(** ** Constants *)
Definition ARM_CPU_MODE_USR : Z := 0x10.
Definition ARM_CPU_MODE_FIQ : Z := 0x11.
Definition ARM_CPU_MODE_IRQ : Z := 0x12.
Definition ARM_CPU_MODE_SVC : Z := 0x13.
Definition ARM_CPU_MODE_SMC : Z := 0x16.
Definition ARM_CPU_MODE_ABT : Z := 0x17.
Definition ARM_CPU_MODE_UND : Z := 0x1b.
Definition ARM_CPU_MODE_SYS : Z := 0x1f.

Definition CPSR_M : Z := 0x1f.
Definition CPSR_T : Z := 0x20.
Definition CPSR_F : Z := 0x40.
Definition CPSR_I : Z := 0x80.
Definition CPSR_A : Z := 0x100.
Definition CPSR_E : Z := 0x200.
Definition CPSR_IT_2_7 : Z := 0xfc00.
Definition CPSR_GE : Z := 0xf0000.
Definition CPSR_J : Z := 0x1000000.
Definition CPSR_IT_0_1 : Z := 0x6000000.
Definition CPSR_Q : Z := 0x8000000.
Definition CPSR_V : Z := 0x10000000.
Definition CPSR_C : Z := 0x20000000.
Definition CPSR_Z : Z := 0x40000000.
Definition CPSR_N : Z := 0x80000000.
Definition CPSR_NZCV : Z := 0xF0000000.
Definition CPSR_IT : Z := CPSR_IT_0_1 .| CPSR_IT_2_7.
Definition CACHED_CPSR_BITS : Z :=
  CPSR_T .| CPSR_GE .| CPSR_IT .| CPSR_Q .| CPSR_NZCV.

Definition ARM_FEATURE_VFP : Z := 0.
Definition ARM_FEATURE_AUXCR : Z := 1.
Definition ARM_FEATURE_XSCALE : Z := 2.
Definition ARM_FEATURE_IWMMXT : Z := 3.
Definition ARM_FEATURE_V6 : Z := 4.
Definition ARM_FEATURE_V6K : Z := 5.
Definition ARM_FEATURE_V7 : Z := 6.
Definition ARM_FEATURE_THUMB2 : Z := 7.
Definition ARM_FEATURE_MPU : Z := 8.
Definition ARM_FEATURE_VFP3 : Z := 9.
Definition ARM_FEATURE_VFP_FP16 : Z := 10.
Definition ARM_FEATURE_NEON : Z := 11.
Definition ARM_FEATURE_DIV : Z := 12.
Definition ARM_FEATURE_M : Z := 13.
Definition ARM_FEATURE_OMAPCP : Z := 14.
Definition ARM_FEATURE_THUMB2EE : Z := 15.
Definition ARM_FEATURE_V7MP : Z := 16.
Definition ARM_FEATURE_V4T : Z := 17.
Definition ARM_FEATURE_V5 : Z := 18.
Definition ARM_FEATURE_STRONGARM : Z := 19.
Definition ARM_FEATURE_TRUSTZONE : Z := 20.

Definition arm_feature (env : CPUARMState) (feature : Z) : bool :=
  truth (features env .& (1 << feature)).
Definition IS_M (env : CPUARMState) : bool := arm_feature env ARM_FEATURE_M.

Definition ARM_CPUID_ARM1026 : Z := 0x4106a262.
Definition ARM_CPUID_ARM926 : Z := 0x41069265.
Definition ARM_CPUID_ARM946 : Z := 0x41059461.
Definition ARM_CPUID_TI915T : Z := 0x54029152.
Definition ARM_CPUID_TI925T : Z := 0x54029252.
Definition ARM_CPUID_SA1100 : Z := 0x4401A11B.
Definition ARM_CPUID_SA1110 : Z := 0x6901B119.
Definition ARM_CPUID_PXA250 : Z := 0x69052100.
Definition ARM_CPUID_PXA255 : Z := 0x69052d00.
Definition ARM_CPUID_PXA260 : Z := 0x69052903.
Definition ARM_CPUID_PXA261 : Z := 0x69052d05.
Definition ARM_CPUID_PXA262 : Z := 0x69052d06.
Definition ARM_CPUID_PXA270 : Z := 0x69054110.
Definition ARM_CPUID_PXA270_A0 : Z := 0x69054110.
Definition ARM_CPUID_PXA270_A1 : Z := 0x69054111.
Definition ARM_CPUID_PXA270_B0 : Z := 0x69054112.
Definition ARM_CPUID_PXA270_B1 : Z := 0x69054113.
Definition ARM_CPUID_PXA270_C0 : Z := 0x69054114.
Definition ARM_CPUID_PXA270_C5 : Z := 0x69054117.
Definition ARM_CPUID_ARM1136 : Z := 0x4117b363.
Definition ARM_CPUID_ARM1136_R2 : Z := 0x4107b362.
Definition ARM_CPUID_ARM11MPCORE : Z := 0x410fb022.
Definition ARM_CPUID_CORTEXA8 : Z := 0x410fc080.
Definition ARM_CPUID_CORTEXA8_R2 : Z := 0x412fc083.
Definition ARM_CPUID_CORTEXA9 : Z := 0x410fc090.
Definition ARM_CPUID_CORTEXM3 : Z := 0x410fc231.
Definition ARM_CPUID_ANY : Z := 0xffffffff.

(** Indices of the VFP system registers. *)
Definition ARM_VFP_FPSID : nat := 0.
Definition ARM_VFP_FPSCR : nat := 1.
Definition ARM_VFP_MVFR1 : nat := 6.
Definition ARM_VFP_MVFR0 : nat := 7.
Definition ARM_VFP_FPEXC : nat := 8.

(** ** The CPU models *)
Definition cortexa9_cp15_c0_c1 : list Z :=
  [0x1031; 0x11; 0x000; 0; 0x00100103; 0x20000000; 0x01230000; 0x00002111].
Definition cortexa9_cp15_c0_c2 : list Z :=
  [0x00101111; 0x13112111; 0x21232041; 0x11112131; 0x00111142; 0; 0; 0].
Definition cortexa8_cp15_c0_c1 : list Z :=
  [0x1031; 0x11; 0x400; 0; 0x31100003; 0x20000000; 0x01202000; 0x11].
Definition cortexa8_cp15_c0_c2 : list Z :=
  [0x00101111; 0x12112111; 0x21232031; 0x11112131; 0x00111142; 0; 0; 0].
Definition cortexa8r2_cp15_c0_c2 : list Z :=
  [0x00101111; 0x12112111; 0x21232031; 0x11112131; 0x00011142; 0; 0; 0].
Definition mpcore_cp15_c0_c1 : list Z :=
  [0x111; 0x1; 0; 0x2; 0x01100103; 0x10020302; 0x01222000; 0].
Definition mpcore_cp15_c0_c2 : list Z :=
  [0x00100011; 0x12002111; 0x11221011; 0x01102131; 0x141; 0; 0; 0].
Definition arm1136_cp15_c0_c1 : list Z :=
  [0x111; 0x1; 0x2; 0x3; 0x01130003; 0x10030302; 0x01222110; 0].
Definition arm1136_cp15_c0_c2 : list Z :=
  [0x00140011; 0x12002111; 0x11231111; 0x01102131; 0x141; 0; 0; 0].

Definition set_feature (env : CPUARMState) (feature : Z) : CPUARMState :=
  env <| features := features env .| (1 << feature) |>.
Definition add_features (fs : list Z) (env : CPUARMState) : CPUARMState :=
  fold_left set_feature fs env.

(** [env->vfp.xregs[n] = v] and the stores to the identification registers. *)
Definition set_xreg (n : nat) (v : Z) (env : CPUARMState) : CPUARMState :=
  on_vfp (λ r, r <| xregs := <[n := v]> (xregs r) |>) env.
Definition set_fp_id (fpsid mvfr0 mvfr1 : Z) (env : CPUARMState) : CPUARMState :=
  set_xreg ARM_VFP_MVFR1 mvfr1 (set_xreg ARM_VFP_MVFR0 mvfr0 (set_xreg ARM_VFP_FPSID fpsid env)).
Definition set_ids (c1 c2 : list Z) (env : CPUARMState) : CPUARMState :=
  on_cp15 (λ r, r <| c0_c1 := c1 |> <| c0_c2 := c2 |>) env.
Definition set_caches (cachetype : Z) (env : CPUARMState) : CPUARMState :=
  on_cp15 (λ r, r <| c0_cachetype := cachetype |>) env.
Definition set_sys (v : Z) (env : CPUARMState) : CPUARMState :=
  on_cp15 (λ r, r <| c1_sys := v |>) env.
Definition set_ccsid (i : nat) (v : Z) (env : CPUARMState) : CPUARMState :=
  on_cp15 (λ r, r <| c0_ccsid := <[i := v]> (c0_ccsid r) |>) env.
Definition set_clid (v : Z) (env : CPUARMState) : CPUARMState :=
  on_cp15 (λ r, r <| c0_clid := v |>) env.

(** The first half of the switch: the application cores up to Cortex-A8 r2. *)
Definition reset_model_a (id : Z) (env : CPUARMState) : option CPUARMState :=
  if id =? ARM_CPUID_ARM926 then Some (
    let env := add_features [ARM_FEATURE_V4T; ARM_FEATURE_V5; ARM_FEATURE_VFP] env in
    let env := set_xreg ARM_VFP_FPSID 0x41011090 env in
    set_sys 0x00090078 (set_caches 0x1dd20d2 env))
  else if id =? ARM_CPUID_ARM946 then Some (
    let env := add_features [ARM_FEATURE_V4T; ARM_FEATURE_V5; ARM_FEATURE_MPU] env in
    set_sys 0x00000078 (set_caches 0x0f004006 env))
  else if id =? ARM_CPUID_ARM1026 then Some (
    let env := add_features [ARM_FEATURE_V4T; ARM_FEATURE_V5; ARM_FEATURE_VFP;
                             ARM_FEATURE_AUXCR] env in
    let env := set_xreg ARM_VFP_FPSID 0x410110a0 env in
    set_sys 0x00090078 (set_caches 0x1dd20d2 env))
  else if (id =? ARM_CPUID_ARM1136_R2) || (id =? ARM_CPUID_ARM1136) then Some (
    let env := add_features [ARM_FEATURE_V4T; ARM_FEATURE_V5; ARM_FEATURE_V6;
                             ARM_FEATURE_VFP; ARM_FEATURE_AUXCR] env in
    let env := set_fp_id 0x410120b4 0x11111111 0x00000000 env in
    let env := set_ids arm1136_cp15_c0_c1 arm1136_cp15_c0_c2 env in
    set_sys 0x00050078 (set_caches 0x1dd20d2 env))
  else if id =? ARM_CPUID_ARM11MPCORE then Some (
    let env := add_features [ARM_FEATURE_V4T; ARM_FEATURE_V5; ARM_FEATURE_V6;
                             ARM_FEATURE_V6K; ARM_FEATURE_VFP; ARM_FEATURE_AUXCR] env in
    let env := set_fp_id 0x410120b4 0x11111111 0x00000000 env in
    let env := set_ids mpcore_cp15_c0_c1 mpcore_cp15_c0_c2 env in
    set_caches 0x1dd20d2 env)
  else if id =? ARM_CPUID_CORTEXA8 then Some (
    let env := add_features [ARM_FEATURE_V4T; ARM_FEATURE_V5; ARM_FEATURE_V6;
      ARM_FEATURE_V6K; ARM_FEATURE_V7; ARM_FEATURE_AUXCR; ARM_FEATURE_THUMB2;
      ARM_FEATURE_VFP; ARM_FEATURE_VFP3; ARM_FEATURE_NEON; ARM_FEATURE_THUMB2EE;
      ARM_FEATURE_TRUSTZONE] env in
    let env := set_fp_id 0x410330c0 0x11110222 0x00011100 env in
    let env := set_ids cortexa8_cp15_c0_c1 cortexa8_cp15_c0_c2 env in
    let env := set_clid ((1 << 27) .| (2 << 24) .| 3) (set_caches 0x82048004 env) in
    let env := set_ccsid 0 0xe007e01a env in
    let env := set_ccsid 1 0x2007e01a env in
    let env := set_ccsid 2 0xf0000000 env in
    set_sys 0x00c50078 env)
  else if id =? ARM_CPUID_CORTEXA8_R2 then Some (
    let env := add_features [ARM_FEATURE_V4T; ARM_FEATURE_V5; ARM_FEATURE_V6;
      ARM_FEATURE_V6K; ARM_FEATURE_V7; ARM_FEATURE_AUXCR; ARM_FEATURE_THUMB2;
      ARM_FEATURE_VFP; ARM_FEATURE_VFP3; ARM_FEATURE_NEON; ARM_FEATURE_THUMB2EE;
      ARM_FEATURE_TRUSTZONE] env in
    let env := set_fp_id 0x410330c2 0x11110222 0x00011111 env in
    let env := set_ids cortexa8_cp15_c0_c1 cortexa8r2_cp15_c0_c2 env in
    let env := set_clid ((1 << 27) .| (2 << 24) .| (4 << 3) .| 3) (set_caches 0x82048004 env) in
    let env := set_ccsid 0 0xe007e01a env in
    let env := set_ccsid 1 0x2007e01a env in
    let env := set_ccsid 2 0xf03fe03a env in
    set_sys 0x00c50078 env)
  else None.

(** The second half: Cortex-A9, Cortex-M3, the linux-user model, TI, XScale,
    StrongARM. *)
Definition reset_model_b (id : Z) (env : CPUARMState) : option CPUARMState :=
  if id =? ARM_CPUID_CORTEXA9 then Some (
    let env := add_features [ARM_FEATURE_V4T; ARM_FEATURE_V5; ARM_FEATURE_V6;
      ARM_FEATURE_V6K; ARM_FEATURE_V7; ARM_FEATURE_AUXCR; ARM_FEATURE_THUMB2;
      ARM_FEATURE_VFP; ARM_FEATURE_VFP3; ARM_FEATURE_VFP_FP16; ARM_FEATURE_NEON;
      ARM_FEATURE_THUMB2EE; ARM_FEATURE_V7MP; ARM_FEATURE_TRUSTZONE] env in
    let env := set_fp_id 0x41034000 0x11110222 0x01111111 env in
    let env := set_ids cortexa9_cp15_c0_c1 cortexa9_cp15_c0_c2 env in
    let env := set_clid ((1 << 27) .| (1 << 24) .| 3) (set_caches 0x80038003 env) in
    let env := set_ccsid 0 0xe00fe015 env in
    let env := set_ccsid 1 0x200fe015 env in
    set_sys 0x00c50078 env)
  else if id =? ARM_CPUID_CORTEXM3 then Some (
    add_features [ARM_FEATURE_V4T; ARM_FEATURE_V5; ARM_FEATURE_V6; ARM_FEATURE_THUMB2;
      ARM_FEATURE_V7; ARM_FEATURE_M; ARM_FEATURE_DIV] env)
  else if id =? ARM_CPUID_ANY then Some (
    add_features [ARM_FEATURE_V4T; ARM_FEATURE_V5; ARM_FEATURE_V6; ARM_FEATURE_V6K;
      ARM_FEATURE_V7; ARM_FEATURE_THUMB2; ARM_FEATURE_VFP; ARM_FEATURE_VFP3;
      ARM_FEATURE_VFP_FP16; ARM_FEATURE_NEON; ARM_FEATURE_THUMB2EE; ARM_FEATURE_DIV;
      ARM_FEATURE_V7MP] env)
  else if (id =? ARM_CPUID_TI915T) || (id =? ARM_CPUID_TI925T) then Some (
    let env := add_features [ARM_FEATURE_V4T; ARM_FEATURE_OMAPCP] env in
    on_cp15 (λ r, r <| c0_cpuid := ARM_CPUID_TI925T |> <| c0_cachetype := 0x5109149 |>
      <| c1_sys := 0x00000070 |> <| c15_i_max := 0x000 |> <| c15_i_min := 0xff0 |>) env)
  else if bool_decide (id ∈ [ARM_CPUID_PXA250; ARM_CPUID_PXA255; ARM_CPUID_PXA260;
                             ARM_CPUID_PXA261; ARM_CPUID_PXA262]) then Some (
    let env := add_features [ARM_FEATURE_V4T; ARM_FEATURE_V5; ARM_FEATURE_XSCALE] env in
    set_sys 0x00000078 (set_caches 0xd172172 env))
  else if bool_decide (id ∈ [ARM_CPUID_PXA270_A0; ARM_CPUID_PXA270_A1; ARM_CPUID_PXA270_B0;
                             ARM_CPUID_PXA270_B1; ARM_CPUID_PXA270_C0; ARM_CPUID_PXA270_C5])
  then Some (
    let env := add_features [ARM_FEATURE_V4T; ARM_FEATURE_V5; ARM_FEATURE_XSCALE;
                             ARM_FEATURE_IWMMXT] env in
    let env := env <| iwmmxt_cregs := <[0%nat := 0x69051000 .| 81]> (iwmmxt_cregs env) |> in
    set_sys 0x00000078 (set_caches 0xd172172 env))
  else if (id =? ARM_CPUID_SA1100) || (id =? ARM_CPUID_SA1110) then Some (
    set_sys 0x00000070 (add_features [ARM_FEATURE_STRONGARM] env))
  else None.

Definition cpu_reset_model_id (env : CPUARMState) (id : Z) : res CPUARMState :=
  let env := on_cp15 (λ r, r <| c0_cpuid := id |>) env in
  match reset_model_a id env with
  | Some env => Ok env
  | None => from_option_res (Aborted "Bad CPU ID") (reset_model_b id env)
  end.

(** [memset(env, 0, offsetof(CPUARMState, breakpoints))]: everything up to the
    breakpoints is zeroed; the rest of [CPU_COMMON] and the coprocessor
    handlers survive. *)
Definition zeros (n : nat) : list Z := replicate n 0.
Definition zero_cp15 : cp15_t :=
  mkCp15 0 0 (zeros 16) 0 0 (zeros 8) (zeros 8) 0 0 0 0 0 0 0 0 0 0 0 0 0 0 0 0
    (zeros 8) 0 0 0 0 0 0 0 0 0 0 0 0 0 0 0 0 0 0 0 0.
Definition zero_fp : float_status := mkFloatStatus 0 0 0 0 0 0.
Definition zero_tlb (t : soft_tlb) : soft_tlb :=
  mkSoftTlb (replicate 2 (replicate (Z.to_nat CPU_TLB_SIZE) (mkEntry 0 0 0 0)))
    (replicate 2 (zeros (Z.to_nat CPU_TLB_SIZE))) 0 (zeros (Z.to_nat TB_JMP_CACHE_SIZE))
    (tlb_flush_count t) (watchpoints t).
Definition clear_cpu (env : CPUARMState) : CPUARMState :=
  mkCpu (zeros 16) 0 0 (zeros 7) (zeros 7) (zeros 7) (zeros 5) (zeros 5)
    0 0 0 0 0 0 0 0 zero_cp15 (mkV7m 0 0 0 0 0 0 0) 0 0 0
    (mkVfp (zeros 32) (zeros 16) 0 0 zero_fp zero_fp) 0 0 0 (zeros 16) (cp_handlers env) 0 0 0
    (zero_tlb (tlb env)) (exception_index env) (cpu_index env).

Definition cpu_reset (env : CPUARMState) : res CPUARMState :=
  let id := c0_cpuid (cp15 env) in
  let env := clear_cpu env in
  env ← (if truth id then cpu_reset_model_id env id else Ok env);
  let env := env <| cp14_dbgdidr := ((id >> 16) .& 0xf0) .| 0xf |> in
  let env := env <| uncached_cpsr := ARM_CPU_MODE_SVC .| CPSR_A .| CPSR_F .| CPSR_I |> in
  let env := if IS_M env
             then env <| uncached_cpsr := uncached_cpsr env .& Z.lnot CPSR_I |> else env in
  let env := set_xreg ARM_VFP_FPEXC 0 env in
  let env := on_cp15 (λ r, r <| c2_base_mask := 0xffffc000 |>) env in
  let env := on_vfp (λ r, r
    <| standard_fp_status := standard_fp_status r <| flush_to_zero := 1 |>
         <| flush_inputs_to_zero := 1 |> <| default_nan_mode := 1 |>
         <| float_detect_tininess := 1 |> |>
    <| fp_status := fp_status r <| float_detect_tininess := 1 |> |>) env in
  Ok (env <| tlb := tlb_flush (tlb env) true |>).

Definition arm_cpu_names : list (Z * string) :=
  [(ARM_CPUID_ARM926, "arm926"); (ARM_CPUID_ARM946, "arm946");
   (ARM_CPUID_ARM1026, "arm1026"); (ARM_CPUID_ARM1136, "arm1136");
   (ARM_CPUID_ARM1136_R2, "arm1136-r2"); (ARM_CPUID_ARM11MPCORE, "arm11mpcore");
   (ARM_CPUID_CORTEXM3, "cortex-m3"); (ARM_CPUID_CORTEXA8, "cortex-a8");
   (ARM_CPUID_CORTEXA8_R2, "cortex-a8-r2"); (ARM_CPUID_CORTEXA9, "cortex-a9");
   (ARM_CPUID_TI925T, "ti925t"); (ARM_CPUID_PXA250, "pxa250");
   (ARM_CPUID_SA1100, "sa1100"); (ARM_CPUID_SA1110, "sa1110");
   (ARM_CPUID_PXA255, "pxa255"); (ARM_CPUID_PXA260, "pxa260");
   (ARM_CPUID_PXA261, "pxa261"); (ARM_CPUID_PXA262, "pxa262");
   (ARM_CPUID_PXA270, "pxa270"); (ARM_CPUID_PXA270_A0, "pxa270-a0");
   (ARM_CPUID_PXA270_A1, "pxa270-a1"); (ARM_CPUID_PXA270_B0, "pxa270-b0");
   (ARM_CPUID_PXA270_B1, "pxa270-b1"); (ARM_CPUID_PXA270_C0, "pxa270-c0");
   (ARM_CPUID_PXA270_C5, "pxa270-c5"); (ARM_CPUID_ANY, "any")]%string.

(** The loop over the table; 0 when the name is not in it. *)
Fixpoint find_name (names : list (Z * string)) (name : string) : Z :=
  match names with
  | [] => 0
  | (id, n) :: names => if String.eqb name n then id else find_name names name
  end.
Definition cpu_arm_find_by_name (name : string) : Z := find_name arm_cpu_names name.

(** The CPU part of [cpu_arm_init]: a zeroed CPU is given the model's id and
    reset; the translator, gdb and the VCPU thread are set up elsewhere. *)
Definition fresh_cpu (index : Z) : CPUARMState :=
  let e := mkCpu (zeros 16) 0 0 (zeros 7) (zeros 7) (zeros 7) (zeros 5) (zeros 5)
    0 0 0 0 0 0 0 0 zero_cp15 (mkV7m 0 0 0 0 0 0 0) 0 0 0
    (mkVfp (zeros 32) (zeros 16) 0 0 zero_fp zero_fp) 0 0 0 (zeros 16) (replicate 15 None) 0 0 0
    (mkSoftTlb [] [] 0 [] 0 []) 0 index in
  e <| tlb := zero_tlb (tlb e) |>.
Definition cpu_arm_init (cpu_model : string) (index : Z) : res (option CPUARMState) :=
  let id := cpu_arm_find_by_name cpu_model in
  if id =? 0 then Ok None
  else
    env ← cpu_reset (on_cp15 (λ r, r <| c0_cpuid := id |>) (fresh_cpu index));
    Ok (Some env).
