(* ===== verification/ArmMode.v ===== *)
(** * Program status, processor modes and small data operations
    ([target-arm/helper.c], [target-arm/cpu.h])

    [cpsr_read]/[cpsr_write] and their v7-M counterparts gather and scatter
    the status register over the cached flag fields; [switch_mode] swaps the
    banked registers; then the data-processing helpers of the same file. *)
From S2P Require Import Prelude SoftTlb ArmCpu.

(** ** Registers banked by mode *)
Definition bank_number (mode : Z) : res Z :=
  if (mode =? ARM_CPU_MODE_USR) || (mode =? ARM_CPU_MODE_SYS) then Ok 0
  else if mode =? ARM_CPU_MODE_SVC then Ok 1
  else if mode =? ARM_CPU_MODE_ABT then Ok 2
  else if mode =? ARM_CPU_MODE_UND then Ok 3
  else if mode =? ARM_CPU_MODE_IRQ then Ok 4
  else if mode =? ARM_CPU_MODE_FIQ then Ok 5
  else if mode =? ARM_CPU_MODE_SMC then Ok 6
  else Err (Aborted "Bad mode").

(** [memcpy] of r8-r12 out of and into the current registers. *)
Definition regs_8_12 (e : CPUARMState) : list Z := take 5 (drop 8 (regs e)).
Definition put_regs_8_12 (v : list Z) (e : CPUARMState) : CPUARMState :=
  e <| regs := take 8 (regs e) ++ v ++ drop 13 (regs e) |>.

(** r13, r14 and the SPSR to bank [i] and from bank [i]. *)
Definition save_bank (i : Z) (e : CPUARMState) : res CPUARMState :=
  b13 ← aput (banked_r13 e) i (reg e 13);
  b14 ← aput (banked_r14 e) i (reg e 14);
  bs ← aput (banked_spsr e) i (spsr e);
  Ok (e <| banked_r13 := b13 |> <| banked_r14 := b14 |> <| banked_spsr := bs |>).
Definition load_bank (i : Z) (e : CPUARMState) : res CPUARMState :=
  r13 ← aget (banked_r13 e) i;
  r14 ← aget (banked_r14 e) i;
  sp ← aget (banked_spsr e) i;
  Ok (set_reg 14 r14 (set_reg 13 r13 e) <| spsr := sp |>).

Definition cpu_mode (e : CPUARMState) : Z := uncached_cpsr e .& CPSR_M.

Definition swap_fiq (old_mode mode : Z) (e : CPUARMState) : CPUARMState :=
  if old_mode =? ARM_CPU_MODE_FIQ then
    put_regs_8_12 (usr_regs e) (e <| fiq_regs := regs_8_12 e |>)
  else if mode =? ARM_CPU_MODE_FIQ then
    put_regs_8_12 (fiq_regs e) (e <| usr_regs := regs_8_12 e |>)
  else e.

Definition switch_mode (e : CPUARMState) (mode : Z) : res CPUARMState :=
  let old_mode := cpu_mode e in
  if mode =? old_mode then Ok e
  else
    let e := swap_fiq old_mode mode e in
    i ← bank_number old_mode;
    e ← save_bank i e;
    i ← bank_number mode;
    load_bank i e.

Definition set_r13_banked (e : CPUARMState) (mode val : Z) : res CPUARMState :=
  if cpu_mode e =? mode then Ok (set_reg 13 val e)
  else
    i ← bank_number mode;
    b ← aput (banked_r13 e) i val;
    Ok (e <| banked_r13 := b |>).

Definition get_r13_banked (e : CPUARMState) (mode : Z) : res Z :=
  if cpu_mode e =? mode then Ok (reg e 13)
  else i ← bank_number mode; aget (banked_r13 e) i.

(** ** The program status register *)
Definition cpsr_read (e : CPUARMState) : Z :=
  let zf := of_bool (ZF e =? 0) in
  u32 (uncached_cpsr e .| (NF e .& 0x80000000) .| (zf << 30) .| (CF e << 29)
    .| ((VF e .& 0x80000000) >> 3) .| (QF e << 27) .| (thumb e << 5)
    .| ((condexec_bits e .& 3) << 25) .| ((condexec_bits e .& 0xfc) << 8)
    .| (GE e << 16)).

(** The assignments the two status-register writes share. *)
Definition write_nzcv (val mask : Z) (e : CPUARMState) : CPUARMState :=
  if truth (mask .& CPSR_NZCV) then
    e <| ZF := Z.lnot val .& CPSR_Z |> <| NF := val |>
      <| CF := (val >> 29) .& 1 |> <| VF := (val << 3) .& 0x80000000 |>
  else e.
Definition write_q (val mask : Z) (e : CPUARMState) : CPUARMState :=
  if truth (mask .& CPSR_Q) then e <| QF := of_bool (truth (val .& CPSR_Q)) |> else e.
Definition write_it (val mask : Z) (e : CPUARMState) : CPUARMState :=
  let e := if truth (mask .& CPSR_IT_0_1)
           then e <| condexec_bits := (condexec_bits e .& Z.lnot 3) .| ((val >> 25) .& 3) |>
           else e in
  if truth (mask .& CPSR_IT_2_7)
  then e <| condexec_bits := (condexec_bits e .& 3) .| ((val >> 8) .& 0xfc) |>
  else e.

(** The flag fields, before the mode switch. *)
Definition cpsr_write_flags (val mask : Z) (e : CPUARMState) : CPUARMState :=
  let e := write_q val mask (write_nzcv val mask e) in
  let e := if truth (mask .& CPSR_T)
           then e <| thumb := of_bool (truth (val .& CPSR_T)) |> else e in
  let e := write_it val mask e in
  if truth (mask .& CPSR_GE) then e <| GE := (val >> 16) .& 0xf |> else e.

Definition cpsr_write (e : CPUARMState) (val mask : Z) : res CPUARMState :=
  let e := cpsr_write_flags val mask e in
  e ← (if truth ((uncached_cpsr e .^ val) .& mask .& CPSR_M)
       then switch_mode e (val .& CPSR_M) else Ok e);
  let mask := mask .& Z.lnot CACHED_CPSR_BITS in
  Ok (e <| uncached_cpsr := (uncached_cpsr e .& Z.lnot mask) .| (val .& mask) |>).

Definition xpsr_read (e : CPUARMState) : Z :=
  let zf := of_bool (ZF e =? 0) in
  u32 ((NF e .& 0x80000000) .| (zf << 30) .| (CF e << 29)
    .| ((VF e .& 0x80000000) >> 3) .| (QF e << 27) .| (thumb e << 24)
    .| ((condexec_bits e .& 3) << 25) .| ((condexec_bits e .& 0xfc) << 8)
    .| exception (v7m e)).

Definition xpsr_write (e : CPUARMState) (val mask : Z) : CPUARMState :=
  let e := write_q val mask (write_nzcv val mask e) in
  let e := if truth (mask .& (1 << 24))
           then e <| thumb := of_bool (truth (val .& (1 << 24))) |> else e in
  let e := write_it val mask e in
  if truth (mask .& 0x1ff) then on_v7m (λ r, r <| exception := val .& 0x1ff |>) e else e.

(** ** v7-M stacks and special registers *)
Definition switch_v7m_sp (process : Z) (e : CPUARMState) : CPUARMState :=
  if current_sp (v7m e) =? process then e
  else
    let tmp := other_sp (v7m e) in
    let e := on_v7m (λ r, r <| other_sp := reg e 13 |>) e in
    let e := set_reg 13 tmp e in
    on_v7m (λ r, r <| current_sp := process |>) e.

Definition v7m_mrs (e : CPUARMState) (r : Z) : res Z :=
  if r =? 0 then Ok (xpsr_read e .& 0xf8000000)
  else if r =? 1 then Ok (xpsr_read e .& 0xf80001ff)
  else if r =? 2 then Ok (xpsr_read e .& 0xff00fc00)
  else if r =? 3 then Ok (xpsr_read e .& 0xff00fdff)
  else if r =? 5 then Ok (xpsr_read e .& 0x000001ff)
  else if r =? 6 then Ok (xpsr_read e .& 0x0700fc00)
  else if r =? 7 then Ok (xpsr_read e .& 0x0700edff)
  else if r =? 8 then Ok (if truth (current_sp (v7m e)) then other_sp (v7m e) else reg e 13)
  else if r =? 9 then Ok (if truth (current_sp (v7m e)) then reg e 13 else other_sp (v7m e))
  else if r =? 16 then Ok (of_bool (truth (uncached_cpsr e .& CPSR_I)))
  else if r =? 17 then Ok (of_bool (truth (uncached_cpsr e .& CPSR_F)))
  else if (r =? 18) || (r =? 19) then Ok (basepri (v7m e))
  else if r =? 20 then Ok (control (v7m e))
  else Err (Aborted "Unimplemented system register read").

Definition set_cpsr_bit (bit val : Z) (e : CPUARMState) : CPUARMState :=
  if truth (val .& 1) then e <| uncached_cpsr := uncached_cpsr e .| bit |>
  else e <| uncached_cpsr := uncached_cpsr e .& Z.lnot bit |>.

Definition v7m_msr (e : CPUARMState) (r val : Z) : res CPUARMState :=
  if (r =? 0) || (r =? 1) then Ok (xpsr_write e val 0xf8000000)
  else if (r =? 2) || (r =? 3) then Ok (xpsr_write e val 0xfe00fc00)
  else if r =? 5 then Ok e
  else if (r =? 6) || (r =? 7) then Ok (xpsr_write e val 0x0600fc00)
  else if r =? 8 then
    Ok (if truth (current_sp (v7m e)) then on_v7m (λ v, v <| other_sp := val |>) e
        else set_reg 13 val e)
  else if r =? 9 then
    Ok (if truth (current_sp (v7m e)) then set_reg 13 val e
        else on_v7m (λ v, v <| other_sp := val |>) e)
  else if r =? 16 then Ok (set_cpsr_bit CPSR_I val e)
  else if r =? 17 then Ok (set_cpsr_bit CPSR_F val e)
  else if r =? 18 then Ok (on_v7m (λ v, v <| basepri := val .& 0xff |>) e)
  else if r =? 19 then
    let val := val .& 0xff in
    Ok (if negb (val =? 0) && ((val <? basepri (v7m e)) || (basepri (v7m e) =? 0))
        then on_v7m (λ v, v <| basepri := val |>) e else e)
  else if r =? 20 then
    let e := on_v7m (λ v, v <| control := val .& 3 |>) e in
    Ok (switch_v7m_sp (of_bool (truth (val .& 2))) e)
  else Err (Aborted "Unimplemented system register write").

Definition cpu_arm_set_cp_io (e : CPUARMState) (cpnum : Z) (io : option cp_io) :
    res CPUARMState :=
  if (cpnum <? 0) || (cpnum >? 14) then Err (Aborted "Bad coprocessor number")
  else h ← aput (cp_handlers e) cpnum io; Ok (e <| cp_handlers := h |>).

(** ** Data-processing helpers *)
Definition sxtb16 (x : Z) : Z :=
  let res := u16 (s8 x) in
  res .| u32 (u32 (s8 (x >> 16)) << 16).
Definition uxtb16 (x : Z) : Z :=
  let res := u16 (u8 x) in
  res .| u32 (u8 (x >> 16) << 16).
Definition clz (x : Z) : Z := if x =? 0 then 32 else 31 - Z.log2 x.

(** Operands are [int32_t]: signed integers. *)
Definition sdiv (num den : Z) : Z :=
  if den =? 0 then 0
  else if (num =? - 2 ^ 31) && (den =? -1) then - 2 ^ 31
  else Z.quot num den.
Definition udiv (num den : Z) : Z := if den =? 0 then 0 else Z.quot num den.

Definition rbit (x : Z) : Z :=
  let x := ((x .& 0xff000000) >> 24) .| ((x .& 0x00ff0000) >> 8)
           .| ((x .& 0x0000ff00) << 8) .| ((x .& 0x000000ff) << 24) in
  let x := ((x .& 0xf0f0f0f0) >> 4) .| ((x .& 0x0f0f0f0f) << 4) in
  ((x .& 0x88888888) >> 3) .| ((x .& 0x44444444) >> 1)
  .| ((x .& 0x22222222) << 1) .| ((x .& 0x11111111) << 3).
Definition abs (x : Z) : Z := if s32 x <? 0 then u32 (- x) else x.
