(* ===== verification/ArmModeFacts.v ===== *)
(** * Correctness of the status register and of mode switching *)
From S2P Require Import Prelude SoftTlb ArmCpu ArmMode.

(** ** The status register, bit by bit *)

(** The cached fields hold what their comments in [cpu.h] promise, and the
    uncached word holds none of the cached bits. *)
Record cpsr_wf (e : CPUARMState) : Prop := {
  wf_CF : 0 ≤ CF e < 2 ^ 1;
  wf_QF : 0 ≤ QF e < 2 ^ 1;
  wf_thumb : 0 ≤ thumb e < 2 ^ 1;
  wf_GE : 0 ≤ GE e < 2 ^ 4;
  wf_cond : 0 ≤ condexec_bits e < 2 ^ 8;
  wf_uncached : is_u32 (uncached_cpsr e);
  wf_disjoint : uncached_cpsr e .& CACHED_CPSR_BITS = 0
}.

(** Bit [n] of the status register in terms of the fields. *)
Definition cpsr_bit (e : CPUARMState) (n : Z) : bool :=
  if n =? 31 then Z.testbit (NF e) 31
  else if n =? 30 then ZF e =? 0
  else if n =? 29 then Z.testbit (CF e) 0
  else if n =? 28 then Z.testbit (VF e) 31
  else if n =? 27 then Z.testbit (QF e) 0
  else if (n =? 25) || (n =? 26) then Z.testbit (condexec_bits e) (n - 25)
  else if (16 <=? n) && (n <=? 19) then Z.testbit (GE e) (n - 16)
  else if (10 <=? n) && (n <=? 15) then Z.testbit (condexec_bits e) (n - 8)
  else if n =? 5 then Z.testbit (thumb e) 0
  else Z.testbit (uncached_cpsr e) n.

(** The 32 cases of a bit number. *)
Lemma bit_cases (P : Z → Prop) :
  Forall P [0;1;2;3;4;5;6;7;8;9;10;11;12;13;14;15;16;17;18;19;20;21;22;23;24;25;26;27;
            28;29;30;31] → ∀ n, 0 ≤ n < 32 → P n.
Proof.
  rewrite Forall_forall. intros H n Hn. apply H. rewrite !elem_of_cons. lia.
Qed.

Lemma testbit_of_bool b n : Z.testbit (of_bool b) n = (n =? 0) && b.
Proof.
  destruct b; cbn [of_bool]; [|by rewrite Z.bits_0, andb_false_r].
  rewrite andb_true_r. destruct (Z.eqb_spec n 0) as [->|Hn]; [done|].
  destruct n as [|p|p]; [done| |done]. by destruct p.
Qed.

Lemma land_testbit_0 x m n : x .& m = 0 → Z.testbit m n = true → Z.testbit x n = false.
Proof.
  intros H Hm. apply (f_equal (λ z, Z.testbit z n)) in H.
  rewrite Z.land_spec, Hm, Z.bits_0, andb_true_r in H. done.
Qed.

Lemma u32_testbit x n : 0 ≤ n < 32 → Z.testbit (u32 x) n = Z.testbit x n.
Proof. intros Hn. unfold u32. by rewrite Z.mod_pow2_bits_low by lia. Qed.

(** Two words are equal when their 32 bits are. *)
Lemma u32_ext x y : is_u32 x → is_u32 y →
  (∀ n, 0 ≤ n < 32 → Z.testbit x n = Z.testbit y n) → x = y.
Proof.
  intros Hx Hy H. rewrite <- (u32_small x Hx), <- (u32_small y Hy). unfold u32.
  apply Z.bits_inj'. intros n Hn. destruct (decide (n < 32)).
  - rewrite !Z.mod_pow2_bits_low by lia. auto.
  - by rewrite !Z.mod_pow2_bits_high by lia.
Qed.

(** Splits a forall over the 32 bit numbers into 32 goals. *)
Ltac each_bit :=
  match goal with |- ∀ n, 0 ≤ n < 32 → @?P n => apply (bit_cases P) end;
  repeat apply Forall_cons_2; [..|apply Forall_nil_2]; cbv beta.

(** Drops the bits above the width of a field. *)
Ltac high_bits :=
  repeat match goal with
  | H : 0 ≤ ?x < 2 ^ ?k |- context [Z.testbit ?x ?n] =>
      rewrite (mask_testbit x n k H ltac:(discriminate) ltac:(discriminate))
  | H : ?x .& ?m = 0 |- context [Z.testbit ?x ?n] =>
      rewrite (land_testbit_0 x m n H) by reflexivity
  end.

Lemma cpsr_read_bit e : cpsr_wf e →
  ∀ n, 0 ≤ n < 32 → Z.testbit (cpsr_read e) n = cpsr_bit e n.
Proof.
  intros [H1 H2 H3 H4 H5 H6 H7].
  assert (∀ n, 0 ≤ n < 32 → Z.testbit (cpsr_read e) n =
    Z.testbit (uncached_cpsr e) n || (Z.testbit (NF e) n && Z.testbit 0x80000000 n)
    || ((n - 30 =? 0) && (ZF e =? 0)) || Z.testbit (CF e) (n - 29)
    || (Z.testbit (VF e) (n + 3) && Z.testbit 0x80000000 (n + 3))
    || Z.testbit (QF e) (n - 27) || Z.testbit (thumb e) (n - 5)
    || (Z.testbit (condexec_bits e) (n - 25) && Z.testbit 3 (n - 25))
    || (Z.testbit (condexec_bits e) (n - 8) && Z.testbit 0xfc (n - 8))
    || Z.testbit (GE e) (n - 16)) as Hb.
  { intros n Hn. unfold cpsr_read. rewrite u32_testbit by done.
    rewrite !Z.lor_spec, !Z.shiftl_spec, !Z.shiftr_spec, !Z.land_spec by lia.
    by rewrite testbit_of_bool. }
  intros n Hn. rewrite Hb by done. clear Hb H6. revert n Hn. each_bit; high_bits;
    cbn; rewrite ?orb_false_r, ?andb_false_r, ?andb_true_r, ?orb_false_r; reflexivity.
Qed.

(** ** Writing the status register *)

(** The groups of bits a mask must take or leave as a whole. *)
Definition mask_closed (mask : Z) : Prop :=
  Forall (λ g, mask .& g = 0 ∨ mask .& g = g) [CPSR_NZCV; CPSR_IT_0_1; CPSR_IT_2_7; CPSR_GE].

Lemma group_bit mask g n :
  mask .& g = 0 ∨ mask .& g = g → Z.testbit g n = true →
  Z.testbit mask n = truth (mask .& g).
Proof.
  intros [H|H] Hg; rewrite H.
  - by apply (land_testbit_0 mask g n).
  - apply (f_equal (λ z, Z.testbit z n)) in H. rewrite Z.land_spec, Hg, andb_true_r in H.
    rewrite H. unfold truth. destruct (Z.eqb_spec g 0) as [->|]; [|done].
    by rewrite Z.bits_0 in Hg.
Qed.

Lemma single_bit mask k n : 0 ≤ n → k = 2 ^ n → Z.testbit mask n = truth (mask .& k).
Proof.
  intros Hn ->. unfold truth. destruct (Z.testbit mask n) eqn:E; symmetry.
  - apply negb_true_iff, Z.eqb_neq. intros H. apply (f_equal (λ z, Z.testbit z n)) in H.
    by rewrite Z.land_spec, E, Z.pow2_bits_true, Z.bits_0 in H by done.
  - apply negb_false_iff, Z.eqb_eq. apply Z.bits_inj'. intros m Hm.
    rewrite Z.land_spec, Z.bits_0, Z.pow2_bits_eqb by done.
    destruct (Z.eqb_spec n m) as [->|]; [by rewrite E|by rewrite andb_false_r].
Qed.

(** The fields after the flag assignments. *)
Definition flags_written (val mask : Z) (e e' : CPUARMState) : Prop :=
  let bn := truth (mask .& CPSR_NZCV) in
  NF e' = (if bn then val else NF e) ∧
  ZF e' = (if bn then Z.lnot val .& CPSR_Z else ZF e) ∧
  CF e' = (if bn then (val >> 29) .& 1 else CF e) ∧
  VF e' = (if bn then (val << 3) .& 0x80000000 else VF e) ∧
  QF e' = (if truth (mask .& CPSR_Q) then of_bool (truth (val .& CPSR_Q)) else QF e) ∧
  thumb e' = (if truth (mask .& CPSR_T) then of_bool (truth (val .& CPSR_T)) else thumb e) ∧
  GE e' = (if truth (mask .& CPSR_GE) then (val >> 16) .& 0xf else GE e) ∧
  condexec_bits e' =
    (let c := if truth (mask .& CPSR_IT_0_1)
              then (condexec_bits e .& Z.lnot 3) .| ((val >> 25) .& 3) else condexec_bits e in
     if truth (mask .& CPSR_IT_2_7) then (c .& 3) .| ((val >> 8) .& 0xfc) else c).

Lemma cpsr_write_flags_spec val mask e :
  flags_written val mask e (cpsr_write_flags val mask e) ∧
  uncached_cpsr (cpsr_write_flags val mask e) = uncached_cpsr e.
Proof.
  unfold flags_written, cpsr_write_flags, write_nzcv, write_q, write_it.
  destruct (truth (mask .& CPSR_NZCV)), (truth (mask .& CPSR_Q)), (truth (mask .& CPSR_T)),
    (truth (mask .& CPSR_IT_0_1)), (truth (mask .& CPSR_IT_2_7)), (truth (mask .& CPSR_GE));
    repeat split.
Qed.

(** The part of the state [switch_mode] leaves alone. *)
Definition psr_fields (e : CPUARMState) : Z * Z * Z * Z * Z * Z * Z * Z * Z :=
  (uncached_cpsr e, NF e, ZF e, CF e, VF e, QF e, thumb e, GE e, condexec_bits e).

Lemma switch_mode_psr e mode e' : switch_mode e mode = Ok e' → psr_fields e' = psr_fields e.
Proof.
  unfold switch_mode, save_bank, load_bank. intros H.
  destruct (mode =? cpu_mode e); [by injection H as <-|].
  set (e0 := swap_fiq _ _ e) in H.
  assert (psr_fields e0 = psr_fields e) as <-.
  { unfold e0, swap_fiq. by repeat destruct (_ =? _). }
  clearbody e0. apply bind_Ok in H as (i & _ & H). apply bind_Ok in H as (e1 & H1 & H).
  apply bind_Ok in H as (j & _ & H).
  apply bind_Ok in H1 as (? & _ & H1). apply bind_Ok in H1 as (? & _ & H1).
  apply bind_Ok in H1 as (? & _ & H1). injection H1 as <-.
  apply bind_Ok in H as (? & _ & H). apply bind_Ok in H as (? & _ & H).
  apply bind_Ok in H as (? & _ & H). by injection H as <-.
Qed.

Lemma land_bits_range x m k : 0 ≤ m < 2 ^ k → 0 ≤ x .& m < 2 ^ k.
Proof. intros Hm. pose proof (land_mask_bound x m). lia. Qed.

Lemma lor_range a b k : 0 ≤ k → 0 ≤ a < 2 ^ k → 0 ≤ b < 2 ^ k → 0 ≤ a .| b < 2 ^ k.
Proof.
  intros Hk Ha Hb.
  assert (∀ x, 0 ≤ x < 2 ^ k ↔ x .& Z.ones k = x) as Hones.
  { intros x. rewrite Z.land_ones by lia. split; [apply Z.mod_small|].
    intros <-. apply Z.mod_pos_bound. lia. }
  apply Hones. rewrite Z.land_lor_distr_l. by rewrite (proj1 (Hones a)), (proj1 (Hones b)).
Qed.

Lemma land_range_l x m k : 0 ≤ x < 2 ^ k → 0 ≤ k → 0 ≤ x .& m < 2 ^ k.
Proof.
  intros Hx Hk.
  assert (x .& Z.ones k = x) as Hones by (rewrite Z.land_ones by lia; by apply Z.mod_small).
  rewrite <- Hones, <- Z.land_assoc, (Z.land_comm _ m), Z.land_assoc.
  rewrite Z.land_ones by lia. apply Z.mod_pos_bound. lia.
Qed.

Lemma of_bool_range b : 0 ≤ of_bool b < 2 ^ 1.
Proof. destruct b; cbn; lia. Qed.

Lemma flags_written_wf val mask e e' :
  cpsr_wf e → flags_written val mask e e' → is_u32 (uncached_cpsr e') →
  uncached_cpsr e' .& CACHED_CPSR_BITS = 0 → cpsr_wf e'.
Proof.
  intros [H1 H2 H3 H4 H5 H6 H7] (EN & EZ & EC & EV & EQ & ET & EG & EI) Hu Hd.
  assert (0 ≤ condexec_bits e' < 2 ^ 8) as Hc.
  { rewrite EI. cbv zeta. set (c := if truth (mask .& CPSR_IT_0_1) then _ else _).
    assert (0 ≤ c < 2 ^ 8).
    { unfold c. destruct (truth (mask .& CPSR_IT_0_1)); [|done]. apply lor_range; [lia|by apply land_range_l|].
      pose proof (land_mask_bound (val >> 25) 3). lia. }
    destruct (truth (mask .& CPSR_IT_2_7)); [|done]. apply lor_range; [lia|by apply land_range_l|].
    pose proof (land_mask_bound (val >> 8) 0xfc). lia. }
  split; try done.
  - rewrite EC. destruct (truth (mask .& CPSR_NZCV)); [|done]. apply land_bits_range. lia.
  - rewrite EQ. destruct (truth (mask .& CPSR_Q)); [apply of_bool_range|done].
  - rewrite ET. destruct (truth (mask .& CPSR_T)); [apply of_bool_range|done].
  - rewrite EG. destruct (truth (mask .& CPSR_GE)); [|done]. apply land_bits_range. lia.
Qed.

(** A bit of a group the mask takes or leaves as a whole. *)
Ltac it_bits mask g H :=
  match goal with
  | |- context [Z.testbit mask ?n] => rewrite (group_bit mask g n H eq_refl)
  end;
  destruct (truth (mask .& CPSR_NZCV)), (truth (mask .& CPSR_IT_0_1)),
    (truth (mask .& CPSR_IT_2_7)), (truth (mask .& CPSR_GE));
  rewrite ?Z.lor_spec, ?Z.land_spec, ?Z.shiftl_spec, ?Z.shiftr_spec by lia;
  rewrite ?Z.lor_spec, ?Z.land_spec, ?Z.shiftr_spec by lia;
  cbn; rewrite ?andb_true_r, ?andb_false_r, ?orb_false_r; reflexivity.

(** The status word's bits after the flag fields were written. *)
Lemma flags_written_bit val mask e e' :
  cpsr_wf e → flags_written val mask e e' → mask_closed mask →
  ∀ n, 0 ≤ n < 32 → Z.testbit CACHED_CPSR_BITS n = true →
  cpsr_bit e' n = if Z.testbit mask n then Z.testbit val n else cpsr_bit e n.
Proof.
  intros Hwf (EN & EZ & EC & EV & EQ & ET & EG & EI) Hmask.
  unfold mask_closed in Hmask. rewrite !Forall_cons in Hmask.
  destruct Hmask as (Gn & G01 & G27 & Gge & _).
  each_bit; intros Hc; try discriminate Hc; clear Hc Hwf; unfold cpsr_bit;
    cbn [Z.eqb Z.leb Pos.eqb andb orb Z.compare Pos.compare Pos.compare_cont];
    rewrite ?EN, ?EZ, ?EC, ?EV, ?EQ, ?ET, ?EG, ?EI; cbv zeta;
    clear EN EZ EC EV EQ ET EG EI.
  - rewrite (single_bit mask CPSR_T 5), (single_bit val CPSR_T 5) by done.
    destruct (truth (mask .& CPSR_T)); by rewrite ?testbit_of_bool.
  - it_bits mask CPSR_IT_2_7 G27.
  - it_bits mask CPSR_IT_2_7 G27.
  - it_bits mask CPSR_IT_2_7 G27.
  - it_bits mask CPSR_IT_2_7 G27.
  - it_bits mask CPSR_IT_2_7 G27.
  - it_bits mask CPSR_IT_2_7 G27.
  - it_bits mask CPSR_GE Gge.
  - it_bits mask CPSR_GE Gge.
  - it_bits mask CPSR_GE Gge.
  - it_bits mask CPSR_GE Gge.
  - it_bits mask CPSR_IT_0_1 G01.
  - it_bits mask CPSR_IT_0_1 G01.
  - rewrite (single_bit mask CPSR_Q 27), (single_bit val CPSR_Q 27) by done.
    destruct (truth (mask .& CPSR_Q)); by rewrite ?testbit_of_bool.
  - it_bits mask CPSR_NZCV Gn.
  - it_bits mask CPSR_NZCV Gn.
  - rewrite (group_bit mask CPSR_NZCV 30 Gn eq_refl).
    destruct (truth (mask .& CPSR_NZCV)); [|done].
    rewrite (single_bit val CPSR_Z 30) by done. unfold truth.
    apply eq_true_iff_eq. rewrite negb_true_iff, Z.eqb_eq, Z.eqb_neq. split.
    + intros H0 H1. apply (f_equal (λ z, Z.testbit z 30)) in H0, H1.
      rewrite Z.land_spec, Z.lnot_spec in H0 by lia. rewrite Z.land_spec in H1.
      cbn in H0, H1. rewrite andb_true_r in H0, H1. by rewrite H1 in H0.
    + intros H1. destruct (single_bit val CPSR_Z 30 ltac:(lia) eq_refl).
      apply Z.bits_inj'. intros m Hm.
      rewrite Z.land_spec, Z.lnot_spec, Z.bits_0 by done.
      change CPSR_Z with (2 ^ 30). rewrite Z.pow2_bits_eqb by lia.
      destruct (Z.eqb_spec 30 m) as [<-|]; [|by rewrite andb_false_r].
      rewrite (single_bit val CPSR_Z 30) by done. unfold truth.
      by rewrite (proj2 (Z.eqb_neq _ _) H1).
  - it_bits mask CPSR_NZCV Gn.
Qed.

Lemma cpsr_read_psr e e' : psr_fields e' = psr_fields e → cpsr_read e' = cpsr_read e.
Proof. unfold psr_fields, cpsr_read. by intros [= -> -> -> -> -> -> -> -> ->]. Qed.

Lemma cpsr_bit_psr e e' : psr_fields e' = psr_fields e → cpsr_bit e' = cpsr_bit e.
Proof. unfold psr_fields, cpsr_bit. intros [= -> -> -> -> -> -> -> -> ->]. done. Qed.

Lemma psr_fields_wf e e' : psr_fields e' = psr_fields e → cpsr_wf e → cpsr_wf e'.
Proof.
  unfold psr_fields. intros [= E1 E2 E3 E4 E5 E6 E7 E8 E9] [H1 H2 H3 H4 H5 H6 H7].
  split; by rewrite ?E1, ?E4, ?E6, ?E7, ?E8, ?E9.
Qed.

Lemma is_u32_lor a b : is_u32 a → is_u32 b → is_u32 (a .| b).
Proof. unfold is_u32. apply lor_range. lia. Qed.

Lemma is_u32_land a b : is_u32 a → is_u32 (a .& b).
Proof. unfold is_u32. intros H. by apply land_range_l. Qed.

(** What [cpsr_write] leaves in the status fields, whatever the mode switch did
    to the registers. *)
Lemma cpsr_write_fields e val mask e' :
  cpsr_write e val mask = Ok e' →
  flags_written val mask e e' ∧
  uncached_cpsr e' = (uncached_cpsr e .& Z.lnot (mask .& Z.lnot CACHED_CPSR_BITS))
                     .| (val .& (mask .& Z.lnot CACHED_CPSR_BITS)).
Proof.
  unfold cpsr_write. destruct (cpsr_write_flags_spec val mask e) as [Hf Hu].
  set (e0 := cpsr_write_flags val mask e) in *. clearbody e0.
  intros (e1 & H1 & H)%bind_Ok. injection H as <-.
  assert (psr_fields e1 = psr_fields e0) as Hp.
  { destruct (truth _); [by apply switch_mode_psr in H1|by injection H1 as <-]. }
  unfold psr_fields in Hp. injection Hp as E1 E2 E3 E4 E5 E6 E7 E8 E9.
  cbn [set_field set_uncached_cpsr]. unfold flags_written in *. cbn.
  rewrite E1, E2, E3, E4, E5, E6, E7, E8, E9, Hu. done.
Qed.

Lemma uncached_bit u val mask n : 0 ≤ n →
  Z.testbit CACHED_CPSR_BITS n = false →
  Z.testbit ((u .& Z.lnot (mask .& Z.lnot CACHED_CPSR_BITS))
             .| (val .& (mask .& Z.lnot CACHED_CPSR_BITS))) n
  = if Z.testbit mask n then Z.testbit val n else Z.testbit u n.
Proof.
  intros Hn Hc. rewrite Z.lor_spec, !Z.land_spec, Z.lnot_spec, Z.land_spec, Z.lnot_spec, Hc by done.
  by destruct (Z.testbit mask n), (Z.testbit val n), (Z.testbit u n).
Qed.

Lemma cpsr_bit_uncached e n : 0 ≤ n < 32 → Z.testbit CACHED_CPSR_BITS n = false →
  cpsr_bit e n = Z.testbit (uncached_cpsr e) n.
Proof. revert n. each_bit; intros Hc; try discriminate Hc; reflexivity. Qed.

Lemma cpsr_write_wf e val mask e' :
  cpsr_wf e → is_u32 val → cpsr_write e val mask = Ok e' → cpsr_wf e'.
Proof.
  intros Hwf Hval [Hf Hu]%cpsr_write_fields.
  apply (flags_written_wf val mask e); [done..| |]; rewrite Hu.
  - apply is_u32_lor; apply is_u32_land; [apply Hwf|done].
  - destruct Hwf as [_ _ _ _ _ _ Hd].
    rewrite Z.land_lor_distr_l, <- Z.land_assoc, (Z.land_comm (Z.lnot _)), Z.land_assoc, Hd, Z.land_0_l.
    rewrite <- !Z.land_assoc, (Z.land_comm (Z.lnot _) CACHED_CPSR_BITS), Z.land_lnot_diag.
    by rewrite !Z.land_0_r.
Qed.

Lemma cpsr_write_ok e val mask e' :
  cpsr_wf e → is_u32 val → is_u32 mask → mask_closed mask →
  cpsr_write e val mask = Ok e' →
  cpsr_wf e' ∧ cpsr_read e' = (cpsr_read e .& Z.lnot mask) .| (val .& mask).
Proof.
  intros Hwf Hval Hmask Hclosed Hw.
  pose proof (cpsr_write_wf e val mask e' Hwf Hval Hw) as Hwf'.
  apply cpsr_write_fields in Hw as [Hf Hu]. split; [done|].
  apply u32_ext.
  - apply u32_bound.
  - apply is_u32_lor; apply is_u32_land; [apply u32_bound|done].
  - intros n Hn. rewrite Z.lor_spec, !Z.land_spec, Z.lnot_spec by lia.
    rewrite !cpsr_read_bit by done.
    assert (cpsr_bit e' n = if Z.testbit mask n then Z.testbit val n else cpsr_bit e n) as ->.
    { destruct (Z.testbit CACHED_CPSR_BITS n) eqn:Hc.
      - by apply (flags_written_bit val mask e e').
      - rewrite !cpsr_bit_uncached, Hu by done. apply uncached_bit; [lia|done]. }
    by destruct (Z.testbit mask n), (Z.testbit val n), (cpsr_bit e n).
Qed.

(** C33: writing the program status register with [cpsr_write] and reading it
    back with [cpsr_read] gives the written bits where the mask has them and
    the old bits elsewhere, although the register is scattered over ten cached
    fields; the cached fields stay in range.  The mask must take the NZCV, the
    GE and the two IT groups as a whole, as every caller's does, because the
    code writes each of these groups when any of its bits is in the mask. *)
Theorem cpsr_write_read e val mask e' :
  cpsr_wf e → is_u32 val → is_u32 mask → mask_closed mask →
  cpsr_write e val mask = Ok e' →
  cpsr_wf e' ∧ cpsr_read e' = (cpsr_read e .& Z.lnot mask) .| (val .& mask).
Proof. apply cpsr_write_ok. Qed.

(** A CPU with a small TLB, in supervisor mode with the interrupts masked. *)
Definition demo_cpu : CPUARMState :=
  clear_cpu (fresh_cpu 0) <| uncached_cpsr := 0x1d3 |> <| regs := seqZ 100 16 |>
    <| fiq_regs := [8; 9; 10; 11; 12] |> <| tlb := mkSoftTlb [] [] 0 [] 0 [] |>.

Lemma demo_cpu_wf : cpsr_wf demo_cpu.
Proof. by split; vm_compute. Qed.

Theorem cpsr_write_read_witness :
  ∃ e', cpsr_write demo_cpu 0x600000d1 0xffffffff = Ok e' ∧ cpsr_wf e' ∧
        cpsr_read e' = (cpsr_read demo_cpu .& Z.lnot 0xffffffff) .| (0x600000d1 .& 0xffffffff).
Proof.
  destruct (cpsr_write demo_cpu 0x600000d1 0xffffffff) as [e'|f] eqn:E.
  - exists e'. split; [done|].
    apply (cpsr_write_read demo_cpu 0x600000d1 0xffffffff e'); [apply demo_cpu_wf|..|done].
    + by vm_compute.
    + by vm_compute.
    + repeat (apply Forall_cons_2; [by right|]). apply Forall_nil_2.
  - exfalso. vm_compute in E. discriminate E.
Defined.

(** ** Mode switches keep every mode's registers *)
Record cpu_arrays (e : CPUARMState) : Prop := {
  len_regs : length (regs e) = 16%nat;
  len_spsr : zlength (banked_spsr e) = 7;
  len_r13 : zlength (banked_r13 e) = 7;
  len_r14 : zlength (banked_r14 e) = 7;
  len_usr : length (usr_regs e) = 5%nat;
  len_fiq : length (fiq_regs e) = 5%nat
}.

(** What the callers do after [switch_mode]: the new mode goes to the status
    register. *)
Definition with_mode (mode : Z) (e : CPUARMState) : CPUARMState :=
  e <| uncached_cpsr := (uncached_cpsr e .& Z.lnot CPSR_M) .| mode |>.

Definition bank (l : list Z) (i : Z) : Z := default 0 (zlookup l i).

Lemma bank_zinsert l i j v : 0 ≤ i < zlength l →
  bank (zinsert i v l) j = if decide (i = j) then v else bank l j.
Proof. intros Hi. unfold bank. rewrite zlookup_zinsert_dec by done. by case_decide. Qed.

Lemma bank_number_cases mode i : bank_number mode = Ok i →
  0 ≤ i < 7 ∧ mode .& CPSR_M = mode ∧ (∀ x, (x .& Z.lnot CPSR_M .| mode) .& CPSR_M = mode).
Proof.
  intros H.
  assert (0 ≤ i < 7 ∧ mode .& CPSR_M = mode) as [Hi Hm].
  { unfold bank_number in H. revert H.
    destruct (Z.eqb_spec mode ARM_CPU_MODE_USR) as [->|]; [by intros [= <-]|].
    destruct (Z.eqb_spec mode ARM_CPU_MODE_SYS) as [->|]; [by intros [= <-]|]. cbn [orb].
    repeat match goal with |- context [Z.eqb mode ?k] =>
      destruct (Z.eqb_spec mode k) as [->|]; [by intros [= <-]|] end. done. }
  split; [done|]. split; [done|]. intros x.
  rewrite Z.land_lor_distr_l, <- Z.land_assoc, (Z.land_comm (Z.lnot _)), Z.land_lnot_diag.
  by rewrite Z.land_0_r, Hm.
Qed.

Definition saved (i : Z) (e : CPUARMState) : CPUARMState :=
  e <| banked_r13 := zinsert i (reg e 13) (banked_r13 e) |>
    <| banked_r14 := zinsert i (reg e 14) (banked_r14 e) |>
    <| banked_spsr := zinsert i (spsr e) (banked_spsr e) |>.
Definition loaded (i : Z) (e : CPUARMState) : CPUARMState :=
  set_reg 14 (bank (banked_r14 e) i) (set_reg 13 (bank (banked_r13 e) i) e)
    <| spsr := bank (banked_spsr e) i |>.

Lemma save_bank_eq i e : cpu_arrays e → 0 ≤ i < 7 →
  save_bank i e = Ok (saved i e).
Proof.
  intros [H1 H2 H3 H4 H5 H6] Hi. unfold save_bank.
  by rewrite !aput_Ok, !bind_ret by (rewrite ?H2, ?H3, ?H4; done).
Qed.

Lemma aget_bank l i : 0 ≤ i < zlength l → aget l i = Ok (bank l i).
Proof.
  intros [x Hx]%zlookup_in_range. unfold bank. rewrite Hx. by apply aget_Ok.
Qed.

Lemma load_bank_eq i e : cpu_arrays e → 0 ≤ i < 7 →
  load_bank i e = Ok (loaded i e).
Proof.
  intros [H1 H2 H3 H4 H5 H6] Hi. unfold load_bank.
  by rewrite !aget_bank, !bind_ret by (rewrite ?H2, ?H3, ?H4; done).
Qed.

Lemma swap_fiq_arrays m0 m e : cpu_arrays e → cpu_arrays (swap_fiq m0 m e).
Proof.
  intros [H1 H2 H3 H4 H5 H6]. unfold swap_fiq, put_regs_8_12, regs_8_12.
  destruct (m0 =? _); [|destruct (m =? _)]; split; cbn; try done;
    rewrite ?length_app, ?length_take, ?length_drop, ?H1, ?H5, ?H6; done.
Qed.

Lemma saved_arrays i e : cpu_arrays e → cpu_arrays (saved i e).
Proof.
  intros [H1 H2 H3 H4 H5 H6]. split; cbn; rewrite ?zlength_zinsert; done.
Qed.

Lemma loaded_arrays i e : cpu_arrays e → cpu_arrays (loaded i e).
Proof.
  intros [H1 H2 H3 H4 H5 H6]. split; cbn; rewrite ?length_insert; done.
Qed.

Lemma switch_mode_eq e m i j :
  cpu_arrays e → bank_number (cpu_mode e) = Ok i → bank_number m = Ok j → m ≠ cpu_mode e →
  switch_mode e m = Ok (loaded j (saved i (swap_fiq (cpu_mode e) m e))).
Proof.
  intros He Hi Hj Hne. unfold switch_mode.
  rewrite (proj2 (Z.eqb_neq _ _) Hne), Hi, bind_ret.
  assert (cpu_arrays (swap_fiq (cpu_mode e) m e)) as Hs by by apply swap_fiq_arrays.
  apply bank_number_cases in Hi as [Hi _].
  rewrite (save_bank_eq _ _ Hs Hi), bind_ret, Hj, bind_ret.
  apply bank_number_cases in Hj as [Hj _].
  by rewrite (load_bank_eq _ _ (saved_arrays _ _ Hs) Hj).
Qed.

Lemma cpu_mode_with_mode m j e : bank_number m = Ok j → cpu_mode (with_mode m e) = m.
Proof. intros (_ & _ & H)%bank_number_cases. apply H. Qed.

(** Names the elements of a list of a known length. *)
Ltac explode l H :=
  repeat (destruct l as [|? l]; [discriminate H|]; apply (f_equal pred) in H;
          cbn [length Nat.pred] in H);
  destruct l as [|? l]; [clear H|discriminate H].

Lemma put_regs_13 v e : length (regs e) = 16%nat → length v = 5%nat →
  drop 13 (regs (put_regs_8_12 v e)) = drop 13 (regs e) ∧
  take 8 (regs (put_regs_8_12 v e)) = take 8 (regs e) ∧
  regs_8_12 (put_regs_8_12 v e) = v.
Proof.
  unfold put_regs_8_12, regs_8_12. cbn. generalize (regs e). intros l Hl Hv.
  explode l Hl. explode v Hv. done.
Qed.

Lemma reg_drop e :
  reg e 13 = nth 0 (drop 13 (regs e)) 0 ∧ reg e 14 = nth 1 (drop 13 (regs e)) 0 ∧
  reg e 15 = nth 2 (drop 13 (regs e)) 0.
Proof. unfold reg. by rewrite !nth_skipn. Qed.

Lemma regs_parts e e' : length (regs e) = 16%nat → length (regs e') = 16%nat →
  take 8 (regs e) = take 8 (regs e') → regs_8_12 e = regs_8_12 e' →
  reg e 13 = reg e' 13 → reg e 14 = reg e' 14 → reg e 15 = reg e' 15 → regs e = regs e'.
Proof.
  unfold regs_8_12, reg. generalize (regs e), (regs e'). intros l l' H H'.
  explode l H. explode l' H'. cbn. congruence.
Qed.

Lemma loaded_parts i e : length (regs e) = 16%nat →
  take 8 (regs (loaded i e)) = take 8 (regs e) ∧ regs_8_12 (loaded i e) = regs_8_12 e ∧
  reg (loaded i e) 13 = bank (banked_r13 e) i ∧ reg (loaded i e) 14 = bank (banked_r14 e) i ∧
  reg (loaded i e) 15 = reg e 15.
Proof.
  intros H. unfold regs_8_12, reg, loaded, set_reg. cbn. revert H. generalize (regs e).
  intros l H. explode l H. done.
Qed.

(** Saving a register to bank [i], loading bank [j] and going back. *)
Lemma bank_roundtrip l i j r : 0 ≤ i < zlength l → 0 ≤ j < zlength l →
  bank (zinsert j (bank (zinsert i r l) j) (zinsert i r l)) i = r.
Proof.
  intros Hi Hj. rewrite !bank_zinsert by (rewrite ?zlength_zinsert; done).
  repeat case_decide; congruence.
Qed.

Lemma swap_fiq_13 m0 m e : cpu_arrays e →
  reg (swap_fiq m0 m e) 13 = reg e 13 ∧ reg (swap_fiq m0 m e) 14 = reg e 14 ∧
  spsr (swap_fiq m0 m e) = spsr e ∧ banked_r13 (swap_fiq m0 m e) = banked_r13 e ∧
  banked_r14 (swap_fiq m0 m e) = banked_r14 e ∧ banked_spsr (swap_fiq m0 m e) = banked_spsr e ∧
  take 8 (regs (swap_fiq m0 m e)) = take 8 (regs e) ∧ reg (swap_fiq m0 m e) 15 = reg e 15.
Proof.
  intros [H1 _ _ _ H5 H6].
  assert (∀ e', drop 13 (regs e') = drop 13 (regs e) →
            reg e' 13 = reg e 13 ∧ reg e' 14 = reg e 14 ∧ reg e' 15 = reg e 15) as Hd.
  { intros e' Hd. destruct (reg_drop e') as (-> & -> & ->). rewrite Hd.
    by destruct (reg_drop e) as (-> & -> & ->). }
  unfold swap_fiq. destruct (m0 =? _); [|destruct (m =? _)]; [| |done].
  - destruct (put_regs_13 _ (e <| fiq_regs := regs_8_12 e |>) H1 H5) as ((Ha & Hb & Hc)%Hd & Ht & _).
    done.
  - destruct (put_regs_13 _ (e <| usr_regs := regs_8_12 e |>) H1 H6) as ((Ha & Hb & Hc)%Hd & Ht & _).
    done.
Qed.

Lemma swap_fiq_8_12 m0 m e e1 : cpu_arrays e → cpu_arrays e1 → m ≠ m0 →
  usr_regs e1 = usr_regs (swap_fiq m0 m e) → fiq_regs e1 = fiq_regs (swap_fiq m0 m e) →
  regs_8_12 e1 = regs_8_12 (swap_fiq m0 m e) →
  regs_8_12 (swap_fiq m m0 e1) = regs_8_12 e.
Proof.
  intros He He1 Hne Hu Hf Hr. pose proof (len_usr _ He1) as Lu. pose proof (len_fiq _ He1) as Lf.
  pose proof (len_regs _ He1) as Lr. unfold swap_fiq in *.
  destruct (Z.eqb_spec m ARM_CPU_MODE_FIQ) as [->|].
  - rewrite (proj2 (Z.eqb_neq m0 _)) in Hu by congruence. cbn in Hu.
    etransitivity; [apply (put_regs_13 (usr_regs e1) (e1 <| fiq_regs := regs_8_12 e1 |>) Lr Lu)|done].
  - destruct (Z.eqb_spec m0 ARM_CPU_MODE_FIQ) as [->|]; [|done].
    etransitivity; [apply (put_regs_13 (fiq_regs e1) (e1 <| usr_regs := regs_8_12 e1 |>) Lr Lf)|done].
Qed.

(** Entering a processor mode with [switch_mode] and returning restores
    the sixteen registers and the saved status register of the mode that was
    left, for every pair of the eight modes: r13, r14 and the SPSR go through
    the banks and r8-r12 through the FIQ bank, without one overwriting the
    other. *)
Theorem switch_mode_roundtrip e m i j :
  cpu_arrays e → bank_number (cpu_mode e) = Ok i → bank_number m = Ok j →
  ∃ e1 e2, switch_mode e m = Ok e1 ∧
    switch_mode (with_mode m e1) (cpu_mode e) = Ok e2 ∧
    regs e2 = regs e ∧ spsr e2 = spsr e.
Proof.
  intros He Hi Hj. destruct (decide (m = cpu_mode e)) as [->|Hne].
  { exists e, (with_mode (cpu_mode e) e). unfold switch_mode. rewrite (cpu_mode_with_mode _ _ _ Hi), Z.eqb_refl. done. }
  pose proof (switch_mode_eq e m i j He Hi Hj Hne) as H1.
  set (m0 := cpu_mode e) in *.
  set (e0 := swap_fiq m0 m e) in *.
  assert (cpu_arrays (with_mode m (loaded j (saved i e0)))) as He1.
  { destruct (loaded_arrays j _ (saved_arrays i _ (swap_fiq_arrays m0 m e He))). by split. }
  epose proof (switch_mode_eq (with_mode m (loaded j (saved i e0))) m0 j i He1) as H2.
  rewrite (cpu_mode_with_mode _ _ _ Hj) in H2. specialize (H2 Hj Hi (not_eq_sym Hne)).
  set (e1 := with_mode m (loaded j (saved i e0))) in *.
  pose proof (swap_fiq_arrays m m0 e1 He1) as He2. set (e2 := swap_fiq m m0 e1) in *.
  eexists _, _. split; [exact H1|]. split; [exact H2|]. clear H1 H2.
  pose proof (swap_fiq_arrays m0 m e He) as He0. fold e0 in He0.
  destruct (swap_fiq_13 m0 m e He) as (A1 & A2 & A3 & A4 & A5 & A6 & A7 & A8).
  fold e0 in A1, A2, A3, A4, A5, A6, A7, A8.
  destruct (swap_fiq_13 m m0 e1 He1) as (B1 & B2 & B3 & B4 & B5 & B6 & B7 & B8).
  fold e2 in B1, B2, B3, B4, B5, B6, B7, B8.
  destruct (loaded_parts j (saved i e0) (len_regs _ He0)) as (C1 & C2 & C3 & C4 & C5).
  destruct (loaded_parts i (saved j e2) (len_regs _ He2)) as (D1 & D2 & D3 & D4 & D5).
  apply bank_number_cases in Hi as [Hi _], Hj as [Hj _]. split.
  - apply regs_parts.
    + apply (len_regs _ (loaded_arrays i _ (saved_arrays j _ He2))).
    + apply He.
    + rewrite D1. change (take 8 (regs e2) = take 8 (regs e)). rewrite B7, <- A7. exact C1.
    + rewrite D2. by apply (swap_fiq_8_12 m0 m e e1).
    + rewrite D3. change (bank (zinsert j (reg e2 13) (banked_r13 e2)) i = reg e 13).
      rewrite B1, B4, <- A1. unfold e1. rewrite (C3 : reg (with_mode _ _) 13 = _).
      apply bank_roundtrip; by rewrite (len_r13 _ He0).
    + rewrite D4. change (bank (zinsert j (reg e2 14) (banked_r14 e2)) i = reg e 14).
      rewrite B2, B5, <- A2. unfold e1. rewrite (C4 : reg (with_mode _ _) 14 = _).
      apply bank_roundtrip; by rewrite (len_r14 _ He0).
    + rewrite D5. change (reg e2 15 = reg e 15). rewrite B8, <- A8. exact C5.
  - change (bank (zinsert j (spsr e2) (banked_spsr e2)) i = spsr e).
    rewrite B3, B6, <- A3. apply bank_roundtrip; by rewrite (len_spsr _ He0).
Qed.

Theorem switch_mode_roundtrip_witness :
  ∃ e1 e2, switch_mode demo_cpu ARM_CPU_MODE_FIQ = Ok e1 ∧
    switch_mode (with_mode ARM_CPU_MODE_FIQ e1) (cpu_mode demo_cpu) = Ok e2 ∧
    regs e2 = regs demo_cpu ∧ spsr e2 = spsr demo_cpu.
Proof.
  apply (switch_mode_roundtrip demo_cpu ARM_CPU_MODE_FIQ 1 5); [by split|done|done].
Defined.

(** ** Every CPU model resets *)

(** What the translator relies on after a reset. *)
Definition reset_state (id : Z) (e : CPUARMState) : Prop :=
  c0_cpuid (cp15 e) = id ∧ cpu_mode e = ARM_CPU_MODE_SVC ∧
  cpsr_read e .& CPSR_A = CPSR_A ∧ c1_sys (cp15 e) .& 1 = 0 ∧
  (length (regs e) = 16%nat ∧ zlength (banked_spsr e) = 7 ∧ zlength (banked_r13 e) = 7 ∧
   zlength (banked_r14 e) = 7 ∧ length (usr_regs e) = 5%nat ∧ length (fiq_regs e) = 5%nat) ∧
  Forall (Forall (λ t, addr_read t = no_addr ∧ addr_write t = no_addr ∧ addr_code t = no_addr))
    (tlb_table (tlb e)).
#[export] Instance reset_state_dec id e : Decision (reset_state id e).
Proof. unfold reset_state. apply _. Defined.

Definition resets_ok (index : Z) (p : Z * string) : bool :=
  match cpu_reset (on_cp15 (λ r, r <| c0_cpuid := p.1 |>) (fresh_cpu index)) with
  | Ok e => bool_decide (reset_state p.1 e) && negb (p.1 =? 0)
  | Err _ => false
  end.

Lemma find_name_elem names name : find_name names name ≠ 0 →
  ∃ n, (find_name names name, n) ∈ names.
Proof.
  induction names as [|[id n] names IH]; cbn; [done|]. destruct (String.eqb name n).
  - intros _. exists n. by left.
  - intros [m Hm]%IH. exists m. by right.
Qed.

Lemma all_models_reset index : forallb (resets_ok index) arm_cpu_names = true.
Proof. vm_compute. reflexivity. Qed.

(** [cpu_arm_init] knows exactly the model names of its table: an unknown
    name gives no CPU, and every one of the 26 listed models resets without
    reaching [cpu_abort], in supervisor mode with the MMU off, the aborts
    masked, all register banks present and every entry of the TLB empty. *)
Theorem cpu_arm_init_total name index :
  let id := cpu_arm_find_by_name name in
  if id =? 0 then cpu_arm_init name index = Ok None
  else ∃ e, cpu_arm_init name index = Ok (Some e) ∧ reset_state id e.
Proof.
  cbv zeta. unfold cpu_arm_init. destruct (Z.eqb_spec (cpu_arm_find_by_name name) 0) as [_|Hne].
  { done. }
  destruct (find_name_elem arm_cpu_names name Hne) as [n Hn].
  pose proof (all_models_reset index) as Hall. rewrite forallb_forall in Hall.
  apply list_elem_of_In, Hall in Hn. unfold resets_ok in Hn. cbn [fst] in Hn.
  change (find_name arm_cpu_names name) with (cpu_arm_find_by_name name) in Hn.
  destruct (cpu_reset _) as [e|]; [|discriminate Hn].
  exists e. apply andb_true_iff in Hn as [Hn%bool_decide_eq_true _]. done.
Qed.

(** ** Bit reversal *)
Lemma testbit_of_high x n : is_u32 x → 32 ≤ n → Z.testbit x n = false.
Proof. intros Hx Hn. by apply (mask_testbit x n 32). Qed.

(** The bits of a constant mask at a constant index. *)
Ltac mask_bits :=
  repeat first [rewrite Z.lor_spec | rewrite Z.land_spec | rewrite Z.shiftr_spec by lia
               | rewrite Z.shiftl_spec by lia];
  repeat match goal with
  | |- context [Z.testbit (Zpos ?p) ?n] =>
      let b := eval vm_compute in (Z.testbit (Zpos p) n) in
      change (Z.testbit (Zpos p) n) with b
  end;
  rewrite ?andb_false_r, ?orb_false_r, ?andb_true_r; cbn [orb].

(** The three steps of [rbit]: bytes, nibbles, then bits within nibbles. *)
Definition swap_bytes (x : Z) : Z :=
  ((x .& 0xff000000) >> 24) .| ((x .& 0x00ff0000) >> 8)
  .| ((x .& 0x0000ff00) << 8) .| ((x .& 0x000000ff) << 24).
Definition swap_nibbles (x : Z) : Z := ((x .& 0xf0f0f0f0) >> 4) .| ((x .& 0x0f0f0f0f) << 4).
Definition swap_bits (x : Z) : Z :=
  ((x .& 0x88888888) >> 3) .| ((x .& 0x44444444) >> 1)
  .| ((x .& 0x22222222) << 1) .| ((x .& 0x11111111) << 3).

Lemma swap_bytes_bit x n : 0 ≤ n < 32 →
  Z.testbit (swap_bytes x) n = Z.testbit x (8 * (3 - n / 8) + n mod 8).
Proof. unfold swap_bytes. revert n. each_bit; mask_bits; reflexivity. Qed.
Lemma swap_nibbles_bit x n : 0 ≤ n < 32 →
  Z.testbit (swap_nibbles x) n = Z.testbit x (8 * (n / 8) + (n + 4) mod 8).
Proof. unfold swap_nibbles. revert n. each_bit; mask_bits; reflexivity. Qed.
Lemma swap_bits_bit x n : 0 ≤ n < 32 →
  Z.testbit (swap_bits x) n = Z.testbit x (4 * (n / 4) + (3 - n mod 4)).
Proof. unfold swap_bits. revert n. each_bit; mask_bits; reflexivity. Qed.

(** [rbit] reverses the 32 bits of a word, so it is its own inverse. *)
Theorem rbit_reverses x : is_u32 x →
  is_u32 (rbit x) ∧ (∀ n, 0 ≤ n < 32 → Z.testbit (rbit x) n = Z.testbit x (31 - n)) ∧
  rbit (rbit x) = x.
Proof.
  intros Hx.
  assert (∀ y, is_u32 (rbit y)) as Hr.
  { intros y. unfold rbit. cbv zeta. repeat apply is_u32_lor; unfold is_u32;
      rewrite ?Z.shiftr_div_pow2, ?Z.shiftl_mul_pow2 by lia;
      match goal with |- 0 ≤ _ (?z .& ?m) _ < _ =>
        generalize (z .& m), (land_mask_bound z m ltac:(lia)) end;
      intros; Z.div_mod_to_equations; lia. }
  assert (∀ y n, 0 ≤ n < 32 → Z.testbit (rbit y) n = Z.testbit y (31 - n)) as Hb.
  { intros y. change (rbit y) with (swap_bits (swap_nibbles (swap_bytes y))).
    intros n Hn. rewrite swap_bits_bit, swap_nibbles_bit, swap_bytes_bit
      by (Z.div_mod_to_equations; lia).
    f_equal. Z.div_mod_to_equations; lia. }
  split; [done|]. split; [auto|]. apply u32_ext; [done|done|].
  intros n Hn. rewrite !Hb by lia. f_equal. lia.
Qed.

Theorem rbit_reverses_witness :
  is_u32 (rbit 0x12345678) ∧
  (∀ n, 0 ≤ n < 32 → Z.testbit (rbit 0x12345678) n = Z.testbit 0x12345678 (31 - n)) ∧
  rbit (rbit 0x12345678) = 0x12345678.
Proof. apply (rbit_reverses 0x12345678). by vm_compute. Defined.
