(* ===== verification/ArmMmu.v ===== *)
(** * The ARM memory management and protection units
    ([target-arm/helper.c], page table walks and fault reporting)

    A walk reads guest physical memory through [ldl_phys], which the file takes
    as an argument of the interface [PhysRead]; [PhysMem] implements it. *)
From S2P Require Import Prelude SoftTlb ArmCpu.

(** What the walks need of physical memory: 32-bit loads. *)
Class PhysRead := ldl_phys : Z → res Z.

Definition EXCP_UDEF : Z := 1.
Definition EXCP_SWI : Z := 2.
Definition EXCP_PREFETCH_ABORT : Z := 3.
Definition EXCP_DATA_ABORT : Z := 4.
Definition EXCP_IRQ : Z := 5.
Definition EXCP_FIQ : Z := 6.
Definition EXCP_BKPT : Z := 7.
Definition EXCP_EXCEPTION_EXIT : Z := 8.
Definition EXCP_KERNEL_TRAP : Z := 9.
Definition EXCP_STREX : Z := 10.
Definition EXCP_SMC : Z := 11.

(** The result of a translation: the output parameters when the code returns
    0, the nonzero fault status otherwise. *)
Inductive xlate : Type :=
| Mapped (phys prot page_size : Z)
| Fault (code : Z).
#[export] Instance xlate_eq_dec : EqDecision xlate.
Proof. solve_decision. Defined.

(** Access types: 0 read, 1 write, 2 instruction fetch. *)
Definition check_ap (env : CPUARMState) (ap domain access_type : Z) (is_user : bool) : res Z :=
  if domain =? 3 then Ok (PAGE_READ .| PAGE_WRITE)
  else
    let prot_ro := if access_type =? 1 then 0 else PAGE_READ in
    match ap with
    | 0 =>
        if access_type =? 1 then Ok 0
        else match (c1_sys (cp15 env) >> 8) .& 3 with
             | 1 => Ok (if is_user then 0 else PAGE_READ)
             | 2 => Ok PAGE_READ
             | _ => Ok 0
             end
    | 1 => Ok (if is_user then 0 else PAGE_READ .| PAGE_WRITE)
    | 2 => Ok (if is_user then prot_ro else PAGE_READ .| PAGE_WRITE)
    | 3 => Ok (PAGE_READ .| PAGE_WRITE)
    | 4 => Ok 0
    | 5 => Ok (if is_user then 0 else prot_ro)
    | 6 => Ok prot_ro
    | 7 => Ok (if arm_feature env ARM_FEATURE_V7 then prot_ro else 0)
    | _ => Err (Aborted "check_ap")
    end.

Definition get_level1_table_address (env : CPUARMState) (address : Z) : Z :=
  let table := if truth (address .& c2_mask (cp15 env))
               then c2_base1 (cp15 env) .& 0xffffc000
               else c2_base0 (cp15 env) .& c2_base_mask (cp15 env) in
  table .| ((address >> 18) .& 0x3ffc).

(** [code | (domain << 4)] *)
Definition do_fault (code domain : Z) : res xlate := Ok (Fault (code .| (domain << 4))).

Section walks.
Context {PR : PhysRead}.

(** The second-level descriptor of a v5 table: physical address, access bits
    and page size; [None] is a translation fault. *)
Definition v5_page (env : CPUARMState) (address type desc : Z) : option (Z * Z * Z) :=
  match desc .& 3 with
  | 0 => None
  | 1 => Some ((desc .& 0xffff0000) .| (address .& 0xffff),
               (desc >> (4 + ((address >> 13) .& 6))) .& 3, 0x10000)
  | 2 => Some ((desc .& 0xfffff000) .| (address .& 0xfff),
               (desc >> (4 + ((address >> 13) .& 6))) .& 3, 0x1000)
  | _ =>
      if type =? 1 then
        if arm_feature env ARM_FEATURE_XSCALE
        then Some ((desc .& 0xfffff000) .| (address .& 0xfff), (desc >> 4) .& 3, 0x400)
        else None
      else Some ((desc .& 0xfffffc00) .| (address .& 0x3ff), (desc >> 4) .& 3, 0x400)
  end.

(** The permission check that ends a v5 walk. *)
Definition v5_finish (env : CPUARMState) (phys_addr ap page_size code domain access_type : Z)
    (is_user : bool) : res xlate :=
  prot ← check_ap env ap domain access_type is_user;
  if prot =? 0 then do_fault code domain
  else Ok (Mapped phys_addr (prot .| PAGE_EXEC) page_size).

Definition get_phys_addr_v5 (env : CPUARMState) (address access_type : Z) (is_user : bool) :
    res xlate :=
  let table := get_level1_table_address env address in
  desc ← ldl_phys table;
  let type := desc .& 3 in
  let domain := (c3 (cp15 env) >> ((desc >> 4) .& 0x1e)) .& 3 in
  if type =? 0 then do_fault 5 domain
  else if (domain =? 0) || (domain =? 2) then
    do_fault (if type =? 2 then 9 else 11) domain
  else if type =? 2 then
    v5_finish env ((desc .& 0xfff00000) .| (address .& 0x000fffff)) ((desc >> 10) .& 3)
      (1024 * 1024) 13 domain access_type is_user
  else
    let table := if type =? 1
                 then (desc .& 0xfffffc00) .| ((address >> 10) .& 0x3fc)
                 else (desc .& 0xfffff000) .| ((address >> 8) .& 0xffc) in
    desc ← ldl_phys table;
    match v5_page env address type desc with
    | None => do_fault 7 domain
    | Some (phys_addr, ap, page_size) =>
        v5_finish env phys_addr ap page_size 15 domain access_type is_user
    end.

(** The end of a v6 walk: domain manager, execute-never, access flag,
    permissions. *)
Definition v6_finish (env : CPUARMState) (phys_addr ap xn page_size code domain access_type : Z)
    (is_user : bool) : res xlate :=
  if domain =? 3 then Ok (Mapped phys_addr (PAGE_READ .| PAGE_WRITE .| PAGE_EXEC) page_size)
  else if truth xn && (access_type =? 2) then do_fault code domain
  else if truth (c1_sys (cp15 env) .& (1 << 29)) && ((ap .& 1) =? 0)
  then do_fault (if code =? 15 then 6 else 3) domain
  else
    prot ← check_ap env ap domain access_type is_user;
    if prot =? 0 then do_fault code domain
    else Ok (Mapped phys_addr (if truth xn then prot else prot .| PAGE_EXEC) page_size).

(** Physical address, execute-never and page size of a v6 page. *)
Definition v6_page (address desc : Z) : option (Z * Z * Z) :=
  match desc .& 3 with
  | 0 => None
  | 1 => Some ((desc .& 0xffff0000) .| (address .& 0xffff), desc .& (1 << 15), 0x10000)
  | _ => Some ((desc .& 0xfffff000) .| (address .& 0xfff), desc .& 1, 0x1000)
  end.

(** Which domain access bits a first-level descriptor is subject to. *)
Definition v6_domain (env : CPUARMState) (desc : Z) : Z :=
  let domain := if (desc .& 3 =? 2) && truth (desc .& (1 << 18)) then 0
                else (desc >> 4) .& 0x1e in
  (c3 (cp15 env) >> domain) .& 3.

Definition get_phys_addr_v6 (env : CPUARMState) (address access_type : Z) (is_user : bool) :
    res xlate :=
  let table := get_level1_table_address env address in
  desc ← ldl_phys table;
  let type := desc .& 3 in
  if (type =? 0) || (type =? 3) then do_fault 5 0
  else
    let domain := v6_domain env desc in
    if (domain =? 0) || (domain =? 2) then do_fault (if type =? 2 then 9 else 11) domain
    else if type =? 2 then
      let '(phys_addr, page_size) :=
        if truth (desc .& (1 << 18))
        then ((desc .& 0xff000000) .| (address .& 0x00ffffff), 0x1000000)
        else ((desc .& 0xfff00000) .| (address .& 0x000fffff), 0x100000) in
      v6_finish env phys_addr (((desc >> 10) .& 3) .| ((desc >> 13) .& 4))
        (desc .& (1 << 4)) page_size 13 domain access_type is_user
    else
      let table := (desc .& 0xfffffc00) .| ((address >> 10) .& 0x3fc) in
      desc ← ldl_phys table;
      let ap := ((desc >> 4) .& 3) .| ((desc >> 7) .& 4) in
      match v6_page address desc with
      | None => do_fault 7 domain
      | Some (phys_addr, xn, page_size) =>
          v6_finish env phys_addr ap xn page_size 15 domain access_type is_user
      end.

(** ** The protection unit *)
Definition region_hits (base address : Z) : bool :=
  truth (base .& 1) &&
  let mask := u32 (u32 (1 << ((base >> 1) .& 0x1f)) << 1) in
  let mask := u32 (mask - 1) in
  ((base .^ address) .& Z.lnot mask .& 0xFFFFFFFF) =? 0.

(** [for (n = 7; n >= 0; n--)]: the number of the first region that matches. *)
Fixpoint find_region (regions : list Z) (address : Z) (n : nat) : res (option Z) :=
  base ← aget regions (Z.of_nat n);
  if region_hits base address then Ok (Some (Z.of_nat n))
  else match n with O => Ok None | S n => find_region regions address n end.

(** [None]: the access is not permitted. *)
Definition mpu_prot (ap : Z) (is_user : bool) : option Z :=
  match ap with
  | 1 => if is_user then None else Some (PAGE_READ .| PAGE_WRITE)
  | 2 => Some (if is_user then PAGE_READ else PAGE_READ .| PAGE_WRITE)
  | 3 => Some (PAGE_READ .| PAGE_WRITE)
  | 5 => if is_user then None else Some PAGE_READ
  | 6 => Some PAGE_READ
  | _ => None
  end.

Definition get_phys_addr_mpu (env : CPUARMState) (address access_type : Z) (is_user : bool) :
    res xlate :=
  n ← find_region (c6_region (cp15 env)) address 7;
  match n with
  | None => Ok (Fault 2)
  | Some n =>
      let mask := if access_type =? 2 then c5_insn (cp15 env) else c5_data (cp15 env) in
      match mpu_prot ((mask >> (n * 4)) .& 0xf) is_user with
      | None => Ok (Fault 1)
      | Some prot => Ok (Mapped address (prot .| PAGE_EXEC) TARGET_PAGE_SIZE)
      end
  end.

(** ** The entry point *)

(** Fast context switch: small addresses are relocated by the process id. *)
Definition fcse (env : CPUARMState) (address : Z) : Z :=
  if address <? 0x02000000 then u32 (address + c13_fcse (cp15 env)) else address.

Definition get_phys_addr (env : CPUARMState) (address access_type : Z) (is_user : bool) :
    res xlate :=
  let address := fcse env address in
  if c1_sys (cp15 env) .& 1 =? 0 then
    Ok (Mapped address (PAGE_READ .| PAGE_WRITE .| PAGE_EXEC) TARGET_PAGE_SIZE)
  else if arm_feature env ARM_FEATURE_MPU then get_phys_addr_mpu env address access_type is_user
  else if truth (c1_sys (cp15 env) .& (1 << 23))
  then get_phys_addr_v6 env address access_type is_user
  else get_phys_addr_v5 env address access_type is_user.

(** The registers a fault leaves behind. *)
Definition report_fault (env : CPUARMState) (address access_type ret : Z) : CPUARMState :=
  if access_type =? 2 then
    let env := on_cp15 (λ r, r <| c5_insn := ret |> <| c6_insn := address |>) env in
    env <| exception_index := EXCP_PREFETCH_ABORT |>
  else
    let env := on_cp15 (λ r, r <| c5_data := ret |>) env in
    let env := if (access_type =? 1) && arm_feature env ARM_FEATURE_V6
               then on_cp15 (λ r, r <| c5_data := c5_data r .| (1 << 11) |>) env else env in
    let env := on_cp15 (λ r, r <| c6_data := address |>) env in
    env <| exception_index := EXCP_DATA_ABORT |>.

(** The page's 1 KB slice goes to the software TLB; the last argument of
    [tlb_set_page], which gets the page size, is ignored there. *)
Definition cpu_arm_handle_mmu_fault (env : CPUARMState) (m : machine)
    (address access_type mmu_idx : Z) : res (Z * CPUARMState * machine) :=
  let is_user := mmu_idx =? MMU_USER_IDX in
  r ← get_phys_addr env address access_type is_user;
  match r with
  | Mapped phys_addr prot _ =>
      let phys_addr := phys_addr .& 0xFFFFFC00 in
      let address := address .& 0xFFFFFC00 in
      '(t, m) ← tlb_set_page address phys_addr prot mmu_idx (tlb env) m;
      Ok (0, env <| tlb := t |>, m)
  | Fault ret => Ok (1, report_fault env address access_type ret, m)
  end.

(** [-1] as a [target_phys_addr_t] of 32 bits. *)
Definition cpu_get_phys_page_debug (env : CPUARMState) (addr : Z) : res Z :=
  r ← get_phys_addr env addr 0 false;
  match r with Mapped phys_addr _ _ => Ok phys_addr | Fault _ => Ok 0xFFFFFFFF end.
End walks.

(** ** Simple and extended access-permission formats *)

(** Rounds [i = 0, 2, ..., 14] with [mask = 3 << i]. *)
Definition simple_mpu_ap_bits (val : Z) : Z :=
  fst (fold_left (λ '(ret, mask) i, (ret .| ((val >> i) .& mask), u32 (mask << 2)))
    [0; 2; 4; 6; 8; 10; 12; 14] (0, 3)).
Definition extended_mpu_ap_bits (val : Z) : Z :=
  fst (fold_left (λ '(ret, mask) i, (ret .| u32 ((val .& mask) << i), u32 (mask << 2)))
    [0; 2; 4; 6; 8; 10; 12; 14] (0, 3)).
