(* ===== verification/ArmMmuFacts.v ===== *)
(** * Correctness of address translation *)
From S2P Require Import Prelude SoftTlb ArmCpu ArmMode ArmModeFacts ArmMmu.

(** [prot] allows the access. *)
Definition allows (prot access_type : Z) : Prop :=
  (access_type = 0 ∧ truth (prot .& PAGE_READ) = true) ∨
  (access_type = 1 ∧ truth (prot .& PAGE_WRITE) = true) ∨
  (access_type = 2 ∧ truth (prot .& PAGE_EXEC) = true).

(** ** Permissions *)
Lemma check_ap_cases env ap domain access_type is_user prot :
  check_ap env ap domain access_type is_user = Ok prot →
  prot = 3 ∨ prot = 0 ∨ prot = 1 ∧ access_type ≠ 1.
Proof.
  unfold check_ap. destruct (domain =? 3); [intros [= <-]; by left|].
  destruct (Z.eqb_spec access_type 1) as [->|Hne]; intros H;
    repeat case_match; try discriminate H; injection H as <-; tauto.
Qed.

Lemma prot_allows prot access_type : 0 ≤ access_type ≤ 2 →
  prot = 3 ∨ prot = 1 ∧ access_type ≠ 1 → allows (prot .| PAGE_EXEC) access_type.
Proof.
  intros Ha Hp. unfold allows.
  assert (access_type = 0 ∨ access_type = 1 ∨ access_type = 2) as [-> | [-> | ->]] by lia;
    destruct Hp as [-> | [-> Hp]]; try (by left); try (by right; left); try (by right; right).
Qed.

(** ** The offset within the page *)
Lemma page_offset_mod base address k : 0 ≤ k → base .& Z.ones k = 0 →
  (base .| (address .& Z.ones k)) mod 2 ^ k = address mod 2 ^ k.
Proof.
  intros Hk Hb. rewrite <- !Z.land_ones by done.
  rewrite Z.land_lor_distr_l, Hb, Z.lor_0_l, <- Z.land_assoc.
  f_equal. by rewrite Z.land_diag.
Qed.

Lemma masked_base desc m k : 0 ≤ k → m .& Z.ones k = 0 → (desc .& m) .& Z.ones k = 0.
Proof. intros Hk Hm. by rewrite <- Z.land_assoc, Hm, Z.land_0_r. Qed.

(** What a completed walk promises about its result. *)
Definition walk_ok (address access_type : Z) (r : xlate) : Prop :=
  match r with
  | Mapped phys prot size =>
      phys mod size = address mod size ∧ (1024 | size) ∧ 0 < size ∧ allows prot access_type
  | Fault code => code ≠ 0
  end.

Lemma do_fault_ok address access_type code domain r :
  0 < code → 0 ≤ domain → do_fault code domain = Ok r → walk_ok address access_type r.
Proof.
  intros Hc Hd [= <-]. cbn. intros H. apply Z.lor_eq_0_l in H. lia.
Qed.

(** The goal follows from a hypothesis that the walk faulted. *)
Ltac by_fault :=
  solve [eapply do_fault_ok; [| |eassumption]; first [done | lia | auto]].

Definition page_fact (address phys size : Z) : Prop :=
  phys mod size = address mod size ∧ (1024 | size) ∧ 0 < size.

Lemma page_fact_intro desc m address k : 10 ≤ k → m .& Z.ones k = 0 →
  page_fact address ((desc .& m) .| (address .& Z.ones k)) (2 ^ k).
Proof.
  intros Hk Hm. split; [|split].
  - apply page_offset_mod; [lia|]. apply masked_base; [lia|done].
  - exists (2 ^ (k - 10)). change 1024 with (2 ^ 10). rewrite <- Z.pow_add_r by lia. f_equal. lia.
  - apply Z.pow_pos_nonneg; lia.
Qed.

(** The XScale 1 KB page keeps twelve bits of offset. *)
Lemma page_fact_narrow address phys size size' :
  (size' | size) → (1024 | size') → 0 < size' → page_fact address phys size →
  page_fact address phys size'.
Proof.
  intros [q ->] H1 H2 (Hm & _ & Hs). split; [|done].
  rewrite <- (Z.mod_mod_divide phys (q * size') size') by (by exists q).
  rewrite Hm. by rewrite (Z.mod_mod_divide address (q * size') size') by (by exists q).
Qed.

Lemma v5_page_fact env address type desc phys ap size :
  v5_page env address type desc = Some (phys, ap, size) → page_fact address phys size.
Proof.
  assert (∀ m, m .& Z.ones 12 = 0 →
            page_fact address ((desc .& m) .| (address .& 0xfff)) 0x400) as H4k.
  { intros m Hm. apply (page_fact_narrow _ _ (2 ^ 12)); [by exists 4|by exists 1|lia|].
    by apply (page_fact_intro desc m address 12). }
  unfold v5_page. repeat case_match; intros [= <- <- <-]; try done;
    try (by apply (page_fact_intro desc _ address 16));
    try (by apply (page_fact_intro desc _ address 12));
    try (by apply (page_fact_intro desc _ address 10)); by apply H4k.
Qed.

Lemma v6_page_fact address desc phys xn size :
  v6_page address desc = Some (phys, xn, size) → page_fact address phys size.
Proof.
  unfold v6_page. repeat case_match; intros [= <- <- <-]; try done;
    first [by apply (page_fact_intro desc _ address 16) | by apply (page_fact_intro desc _ address 12)].
Qed.

Lemma domain_bits_nonneg x d : 0 ≤ (x >> d) .& 3.
Proof. apply Z.land_nonneg. lia. Qed.
#[local] Hint Resolve domain_bits_nonneg : core.

Section walks.
Context {PR : PhysRead}.
Implicit Types env : CPUARMState.

Lemma v5_finish_ok env address phys ap size code domain access_type is_user r :
  0 < code → 0 ≤ domain → 0 ≤ access_type ≤ 2 → page_fact address phys size →
  v5_finish env phys ap size code domain access_type is_user = Ok r →
  walk_ok address access_type r.
Proof.
  intros Hc Hd Ha (H1 & H2 & H3). unfold v5_finish. intros (prot & Hp & H)%bind_Ok.
  apply check_ap_cases in Hp. revert H. destruct (Z.eqb_spec prot 0) as [->|Hne]; intros H.
  - by_fault.
  - injection H as <-. cbn. split; [done|]. split; [done|]. split; [done|].
    apply prot_allows; [done|]. tauto.
Qed.

Lemma v6_finish_ok env address phys ap xn size code domain access_type is_user r :
  0 < code → 0 ≤ domain → 0 ≤ access_type ≤ 2 → page_fact address phys size →
  v6_finish env phys ap xn size code domain access_type is_user = Ok r →
  walk_ok address access_type r.
Proof.
  intros Hc Hd Ha (H1 & H2 & H3). unfold v6_finish. destruct (domain =? 3).
  { intros [= <-]. cbn. repeat split; try done. apply (prot_allows 3); tauto. }
  destruct (truth xn && (access_type =? 2)) eqn:Hxn; [intros H; by_fault|].
  destruct (truth (_ .& (1 << 29)) && _).
  { destruct (code =? 15); intros H; by_fault. }
  intros (prot & Hp & H)%bind_Ok. apply check_ap_cases in Hp.
  revert H. destruct (Z.eqb_spec prot 0) as [->|Hne]; intros H; [by_fault|].
  injection H as <-. cbn. split; [done|]. split; [done|]. split; [done|].
  destruct (truth xn); [|apply prot_allows; [done|tauto]].
  apply Z.eqb_neq in Hxn. unfold allows.
  assert (access_type = 0 ∨ access_type = 1) as [-> | ->] by lia;
    destruct Hp as [-> | [-> | [-> Hp]]]; try done; first [by left | by right; left].
Qed.

Lemma get_phys_addr_v5_ok env address access_type is_user r :
  0 ≤ access_type ≤ 2 →
  get_phys_addr_v5 env address access_type is_user = Ok r → walk_ok address access_type r.
Proof.
  intros Ha. unfold get_phys_addr_v5. intros (desc & _ & H)%bind_Ok.
  destruct (desc .& 3 =? 0); [by_fault|].
  destruct (_ || _); [destruct (desc .& 3 =? 2); by_fault|].
  destruct (desc .& 3 =? 2).
  { apply (v5_finish_ok _ address) in H; try done. by apply (page_fact_intro desc _ address 20). }
  apply bind_Ok in H as (desc2 & _ & H).
  destruct (v5_page _ _ _ _) as [[[phys ap] size]|] eqn:Hp; [|by_fault].
  apply (v5_finish_ok _ address) in H; try done. by eapply v5_page_fact.
Qed.

Lemma get_phys_addr_v6_ok env address access_type is_user r :
  0 ≤ access_type ≤ 2 →
  get_phys_addr_v6 env address access_type is_user = Ok r → walk_ok address access_type r.
Proof.
  intros Ha. unfold get_phys_addr_v6. intros (desc & _ & H)%bind_Ok.
  destruct (_ || _); [by_fault|].
  assert (0 ≤ v6_domain env desc) as Hd by apply domain_bits_nonneg.
  destruct (_ || _); [destruct (desc .& 3 =? 2); by_fault|].
  destruct (desc .& 3 =? 2).
  { destruct (truth (desc .& (1 << 18))); apply (v6_finish_ok _ address) in H; try done;
      first [by apply (page_fact_intro desc _ address 24)
            |by apply (page_fact_intro desc _ address 20)]. }
  apply bind_Ok in H as (desc2 & _ & H).
  destruct (v6_page _ _) as [[[phys xn] size]|] eqn:Hp; [|by_fault].
  apply (v6_finish_ok _ address) in H; try done. by eapply v6_page_fact.
Qed.

Lemma get_phys_addr_walk_ok env address access_type is_user r :
  0 ≤ access_type ≤ 2 → arm_feature env ARM_FEATURE_MPU = false →
  get_phys_addr env address access_type is_user = Ok r →
  walk_ok (fcse env address) access_type r.
Proof.
  intros Ha Hm. unfold get_phys_addr. rewrite Hm.
  destruct (_ =? 0).
  { intros [= <-]. split; [done|]. split; [by exists 1|]. split; [done|].
    apply (prot_allows 3); tauto. }
  destruct (truth _); intros H.
  - by apply get_phys_addr_v6_ok in H.
  - by apply get_phys_addr_v5_ok in H.
Qed.

(** C27: a translation with the MMU (no MPU) never grants less than was asked:
    when [get_phys_addr] returns 0 the protection allows the access the walk
    was made for, and the physical address keeps the offset of the relocated
    virtual address within the returned page size, a multiple of the 1 KB
    granule; otherwise the fault status is not 0. *)
Theorem get_phys_addr_sound env address access_type is_user r :
  0 ≤ access_type ≤ 2 → arm_feature env ARM_FEATURE_MPU = false →
  get_phys_addr env address access_type is_user = Ok r →
  match r with
  | Mapped phys prot size =>
      phys mod size = fcse env address mod size ∧ (1024 | size) ∧ 0 < size ∧
      allows prot access_type
  | Fault code => code ≠ 0
  end.
Proof. intros Ha Hm H. exact (get_phys_addr_walk_ok env address access_type is_user r Ha Hm H). Qed.
End walks.

(** ** Handling a miss of the software TLB *)
Definition access_of (access_type : Z) : access :=
  match access_type with 1 => Write | 2 => Code | _ => Read end.

Definition access_bit (a : access) : Z :=
  match a with Read => PAGE_READ | Write => PAGE_WRITE | Code => PAGE_EXEC end.

Lemma allows_bit prot access_type : allows prot access_type →
  truth (prot .& access_bit (access_of access_type)) = true.
Proof. by intros [[-> H]|[[-> H]|[-> H]]]. Qed.

(** The protection [tlb_set_page] installs. *)
Definition installed (prot : Z) : Z := if truth (prot .& PAGE_READ) then prot .| PAGE_EXEC else prot.

Lemma truth_lor_l a b m : truth (a .& m) = true → truth ((a .| b) .& m) = true.
Proof.
  unfold truth. rewrite !negb_true_iff, !Z.eqb_neq, Z.land_lor_distr_l.
  intros H H0. by apply Z.lor_eq_0_l in H0.
Qed.

Lemma installed_keeps prot m :
  truth (prot .& m) = true → truth (installed prot .& m) = true.
Proof. unfold installed. intros H. case_match; [by apply truth_lor_l|done]. Qed.

Lemma set_page_installs t m address phys prot mmu_idx t' m' :
  tlb_wf t → 0 ≤ mmu_idx < NB_MMU_MODES →
  tlb_set_page (page_of address) phys prot mmu_idx t m = Ok (t', m') →
  tlb_wf t' ∧ ∀ x a, page_of x = page_of address →
    tlb_hit t' mmu_idx x a = Ok (truth (installed prot .& access_bit a)).
Proof.
  intros Hwf Hm H. apply set_page_hits in H as (Hwf' & Hh & _); [|done|apply page_of_idem|done].
  split; [done|]. intros x a Hx. destruct (Hh x Hx) as (H1 & H2 & H3). by destruct a.
Qed.

Section faults.
Context {PR : PhysRead}.
Implicit Types env : CPUARMState.

Lemma mmu_fault_ok env m address access_type mmu_idx ret env' m' :
  tlb_wf (tlb env) → 0 ≤ access_type ≤ 2 → 0 ≤ mmu_idx < NB_MMU_MODES →
  arm_feature env ARM_FEATURE_MPU = false →
  cpu_arm_handle_mmu_fault env m address access_type mmu_idx = Ok (ret, env', m') →
  (ret = 0 ∧ tlb_wf (tlb env') ∧ env' = env <| tlb := tlb env' |> ∧
   ∀ x, page_of x = page_of address →
     tlb_hit (tlb env') mmu_idx x (access_of access_type) = Ok true) ∨
  (ret = 1 ∧ tlb env' = tlb env ∧ m' = m ∧ regs env' = regs env ∧
   if access_type =? 2
   then c6_insn (cp15 env') = address ∧ c5_insn (cp15 env') ≠ 0 ∧
        exception_index env' = EXCP_PREFETCH_ABORT ∧
        c6_data (cp15 env') = c6_data (cp15 env) ∧ c5_data (cp15 env') = c5_data (cp15 env)
   else c6_data (cp15 env') = address ∧ c5_data (cp15 env') ≠ 0 ∧
        exception_index env' = EXCP_DATA_ABORT ∧
        c6_insn (cp15 env') = c6_insn (cp15 env) ∧ c5_insn (cp15 env') = c5_insn (cp15 env)).
Proof.
  intros Hwf Ha Hi Hmpu. unfold cpu_arm_handle_mmu_fault. intros (r & Hr & H)%bind_Ok.
  pose proof (get_phys_addr_walk_ok env address access_type _ r Ha Hmpu Hr) as Hok.
  destruct r as [phys prot size|code].
  - left. destruct Hok as (_ & _ & _ & Hall). apply bind_Ok in H as ([t1 m1] & Ht & H).
    injection H as <- <- <-.
    apply set_page_installs in Ht as [Hwf' Hh]; [|done|done].
    split; [done|]. split; [done|]. split; [done|]. intros x Hx.
    change (tlb (env <| tlb := t1 |>)) with t1. rewrite Hh by done. f_equal.
    by apply installed_keeps, allows_bit.
  - right. injection H as <- <- <-. cbn in Hok. unfold report_fault.
    destruct (access_type =? 2); [by repeat split|].
    destruct ((access_type =? 1) && _); repeat split; try done. cbn.
    intros H0. by apply Z.lor_eq_0_l in H0.
Qed.

(** C25: On a core without a protection unit [cpu_arm_handle_mmu_fault] either completes the refill, after which
    the access it was called for hits the software TLB everywhere on the 1 KB
    page, or it leaves the TLB alone, returns 1 and records the faulting
    address, a nonzero status and the abort of the right kind in the registers
    of that kind. *)
Theorem mmu_fault_refills_or_reports env m address access_type mmu_idx ret env' m' :
  tlb_wf (tlb env) → 0 ≤ access_type ≤ 2 → 0 ≤ mmu_idx < NB_MMU_MODES →
  arm_feature env ARM_FEATURE_MPU = false →
  cpu_arm_handle_mmu_fault env m address access_type mmu_idx = Ok (ret, env', m') →
  (ret = 0 ∧ tlb_wf (tlb env') ∧ env' = env <| tlb := tlb env' |> ∧
   ∀ x, page_of x = page_of address →
     tlb_hit (tlb env') mmu_idx x (access_of access_type) = Ok true) ∨
  (ret = 1 ∧ tlb env' = tlb env ∧ m' = m ∧ regs env' = regs env ∧
   if access_type =? 2
   then c6_insn (cp15 env') = address ∧ c5_insn (cp15 env') ≠ 0 ∧
        exception_index env' = EXCP_PREFETCH_ABORT ∧
        c6_data (cp15 env') = c6_data (cp15 env) ∧ c5_data (cp15 env') = c5_data (cp15 env)
   else c6_data (cp15 env') = address ∧ c5_data (cp15 env') ≠ 0 ∧
        exception_index env' = EXCP_DATA_ABORT ∧
        c6_insn (cp15 env') = c6_insn (cp15 env) ∧ c5_insn (cp15 env') = c5_insn (cp15 env)).
Proof. apply mmu_fault_ok. Qed.

(** With the protection unit, a store to a region that is read-only for
    the caller is not refused: [get_phys_addr_mpu] does not look at the access
    type, so the miss handler enters a read-only page, returns 0 and raises no
    exception, and the store misses again. *)
Theorem mpu_read_only_store_retries env m address mmu_idx n prot_bits ret env' m' :
  tlb_wf (tlb env) → 0 ≤ mmu_idx < NB_MMU_MODES →
  truth (c1_sys (cp15 env) .& 1) = true → arm_feature env ARM_FEATURE_MPU = true →
  find_region (c6_region (cp15 env)) (fcse env address) 7 = Ok (Some n) →
  prot_bits = (c5_data (cp15 env) >> (n * 4)) .& 0xf →
  mpu_prot prot_bits (mmu_idx =? MMU_USER_IDX) = Some PAGE_READ →
  cpu_arm_handle_mmu_fault env m address 1 mmu_idx = Ok (ret, env', m') →
  ret = 0 ∧ exception_index env' = exception_index env ∧
  tlb_hit (tlb env') mmu_idx address Write = Ok false.
Proof.
  intros Hwf Hi Hen Hmpu Hreg -> Hprot. unfold cpu_arm_handle_mmu_fault, get_phys_addr.
  rewrite Hmpu. unfold truth in Hen. apply negb_true_iff in Hen. rewrite Hen.
  unfold get_phys_addr_mpu. rewrite Hreg, bind_ret. change (1 =? 2) with false. cbv zeta iota.
  rewrite Hprot. cbv iota. rewrite bind_ret.
  intros ([t1 m1] & Ht & H)%bind_Ok. injection H as <- <- <-.
  apply set_page_installs in Ht as [_ Hh]; [|done|done].
  split; [done|]. split; [done|].
  change (tlb (env <| tlb := t1 |>)) with t1. by rewrite Hh.
Qed.
End faults.

(** ** Access-permission formats *)

Lemma simple_mpu_ap_bits_eq val : simple_mpu_ap_bits val =
  0 .| ((val >> 0) .& 3) .| ((val >> 2) .& 12) .| ((val >> 4) .& 48) .| ((val >> 6) .& 192) .| ((val >> 8) .& 768) .| ((val >> 10) .& 3072) .| ((val >> 12) .& 12288) .| ((val >> 14) .& 49152).
Proof. reflexivity. Qed.
Lemma extended_mpu_ap_bits_eq val : extended_mpu_ap_bits val =
  0 .| u32 ((val .& 3) << 0) .| u32 ((val .& 12) << 2) .| u32 ((val .& 48) << 4) .| u32 ((val .& 192) << 6) .| u32 ((val .& 768) << 8) .| u32 ((val .& 3072) << 10) .| u32 ((val .& 12288) << 12) .| u32 ((val .& 49152) << 14).
Proof. reflexivity. Qed.

(** Bits [2k] and [2k+1] of the simple format are bits [4k] and [4k+1] of the
    extended one. *)
Definition ap_bit (n : Z) : Z := n + 2 * (n / 2).

Lemma simple_mpu_ap_bit val n : 0 ≤ n < 32 →
  Z.testbit (simple_mpu_ap_bits val) n = if n <? 16 then Z.testbit val (ap_bit n) else false.
Proof. rewrite simple_mpu_ap_bits_eq. revert n. each_bit; mask_bits; reflexivity. Qed.

Lemma extended_mpu_ap_bit val n : 0 ≤ n < 16 →
  Z.testbit (extended_mpu_ap_bits val) (ap_bit n) = Z.testbit val n.
Proof.
  intros Hn. assert (0 ≤ n < 32) as Hn' by lia. revert n Hn' Hn. rewrite extended_mpu_ap_bits_eq.
  match goal with |- ∀ n, _ → @?P n => apply (bit_cases P) end.
  repeat apply Forall_cons_2; [..|apply Forall_nil_2]; cbv beta; intros Hn; try lia;
    match goal with |- context [ap_bit ?k] =>
      let v := eval vm_compute in (ap_bit k) in change (ap_bit k) with v end;
    rewrite !Z.lor_spec, !u32_testbit by lia; mask_bits; reflexivity.
Qed.

(** Padding the 16-bit access-permission register of the protection unit
    to the extended format and taking the basic bits of the result is the
    identity: what [set_cp15] stores, [get_cp15] reads back. *)
Theorem mpu_ap_bits_roundtrip val : 0 ≤ val < 2 ^ 16 →
  simple_mpu_ap_bits (extended_mpu_ap_bits val) = val.
Proof.
  intros Hv. apply Z.bits_inj'. intros n Hn. destruct (decide (n < 32)) as [Hl|Hl].
  - rewrite simple_mpu_ap_bit by lia. destruct (Z.ltb_spec n 16).
    + by apply extended_mpu_ap_bit.
    + symmetry. by apply (mask_testbit val n 16).
  - rewrite (mask_testbit val n 16) by (try done; lia).
    apply (mask_testbit _ n 16); [|done|lia].
    rewrite simple_mpu_ap_bits_eq. repeat apply lor_range; try done;
      match goal with |- 0 ≤ ?a .& ?m < _ => pose proof (land_mask_bound a m ltac:(done)); lia
      | _ => lia end.
Qed.

Theorem mpu_ap_bits_roundtrip_witness :
  simple_mpu_ap_bits (extended_mpu_ap_bits 0xe4b1) = 0xe4b1.
Proof. apply (mpu_ap_bits_roundtrip 0xe4b1). lia. Defined.

(** ** A small address space

    A first-level table at 0x4000 whose entry 0 points to a second-level table
    at 0x8000; that one maps page 0x1000 to 0x5000 for everyone and page
    0x2000 read-only for user code. *)
Definition demo_tables : PhysRead := λ a,
  Ok (if a =? 0x4000 then 0x8000 .| (1 << 5) .| 1
      else if a =? 0x8004 then 0x5000 .| (3 << 4) .| 2
      else if a =? 0x8008 then 0x6000 .| (2 << 4) .| 2 else 0).

Definition demo_mmu_cpu : CPUARMState :=
  on_cp15 (λ r, r <| c1_sys := 1 .| (1 << 23) |> <| c2_base0 := 0x4000 |>
                  <| c2_base_mask := 0xffffc000 |> <| c3 := 1 << 2 |>)
    (demo_cpu <| tlb := tlb_boot |>).

Theorem get_phys_addr_sound_witness :
  @get_phys_addr demo_tables demo_mmu_cpu 0x1234 1 true = Ok (Mapped 0x5234 7 0x1000) ∧
  0x5234 mod 0x1000 = fcse demo_mmu_cpu 0x1234 mod 0x1000 ∧ (1024 | 0x1000) ∧ 0 < 0x1000 ∧
  allows 7 1.
Proof.
  assert (@get_phys_addr demo_tables demo_mmu_cpu 0x1234 1 true = Ok (Mapped 0x5234 7 0x1000)) as E
    by (vm_compute; reflexivity).
  split; [exact E|].
  apply (@get_phys_addr_sound demo_tables demo_mmu_cpu 0x1234 1 true _ ltac:(lia) eq_refl E).
Defined.

Theorem mmu_fault_refills_or_reports_witness :
  ∃ env' m',
    @cpu_arm_handle_mmu_fault demo_tables demo_mmu_cpu demo_machine 0x1234 1 1 = Ok (0, env', m') ∧
    tlb_hit (tlb env') 1 0x13ff Write = Ok true.
Proof.
  destruct (@cpu_arm_handle_mmu_fault demo_tables demo_mmu_cpu demo_machine 0x1234 1 1)
    as [[[ret env'] m']|f] eqn:E; [|exfalso; vm_compute in E; discriminate E].
  assert (ret = 0) as ->.
  { assert ((λ r, match r with Ok (v, _, _) => v | Err _ => 7 end)
      (@cpu_arm_handle_mmu_fault demo_tables demo_mmu_cpu demo_machine 0x1234 1 1) = 0) as H
      by (vm_compute; reflexivity). rewrite E in H. exact H. }
  exists env', m'. split; [reflexivity|].
  destruct (@mmu_fault_refills_or_reports demo_tables demo_mmu_cpu demo_machine 0x1234 1 1 0 env' m'
    tlb_boot_wf ltac:(lia) ltac:(unfold NB_MMU_MODES; lia) eq_refl E) as [(_ & _ & _ & H)|(H & _)].
  - exact (H 0x13ff eq_refl).
  - discriminate H.
Defined.

(** A CPU with a protection unit: region 0 covers everything, read-only for
    user code. *)
Definition demo_mpu_cpu : CPUARMState :=
  set_feature (on_cp15 (λ r, r <| c1_sys := 1 |> <| c5_data := 2 |>
    <| c6_region := [0x3f; 0; 0; 0; 0; 0; 0; 0] |>) (demo_cpu <| tlb := tlb_boot |>))
    ARM_FEATURE_MPU.

Theorem mpu_read_only_store_retries_witness :
  ∃ env' m',
    @cpu_arm_handle_mmu_fault demo_tables demo_mpu_cpu demo_machine 0x1234 1 1 = Ok (0, env', m') ∧
    tlb_hit (tlb env') 1 0x1234 Write = Ok false.
Proof.
  destruct (@cpu_arm_handle_mmu_fault demo_tables demo_mpu_cpu demo_machine 0x1234 1 1)
    as [[[ret env'] m']|f] eqn:E; [|exfalso; vm_compute in E; discriminate E].
  destruct (@mpu_read_only_store_retries demo_tables demo_mpu_cpu demo_machine 0x1234 1 0 2 ret env' m'
    tlb_boot_wf ltac:(unfold NB_MMU_MODES; lia) eq_refl eq_refl eq_refl eq_refl eq_refl E)
    as (-> & _ & H).
  exists env', m'. split; [reflexivity|exact H].
Defined.
