(* ===== verification/GetPtes.v ===== *)
(** * The tracer inside QEMU ([tlb_trace.c] with [USE_QEMU])

    The page-table walker [get_ptes] that finds the descriptor addresses of a
    traced page, the entry points the instrumented softmmu code and the
    translated code call, and what starting and stopping does to the software
    TLB.  [first_cpu] is the CPU argument. *)
From S2P Require Import Prelude TlbCore TraceFormat TraceFiles TlbTrace SoftTlb ArmCpu ArmMode ArmMmu.

Section walker.
Context {PR : PhysRead}.

(** Return value and the words stored through [l1], [l2] and [gpa], which the
    caller initialises to 0. *)
Definition get_ptes (env : CPUARMState) (address : Z) : res (Z * (Z * Z * Z)) :=
  let table := get_level1_table_address env address in
  let l1 := table in
  desc ← ldl_phys table;
  let type := desc .& 3 in
  if (type =? 0) || (type =? 3) then Ok (1, (l1, 0, 0))
  else
    let domain := if (type =? 2) && truth (desc .& (1 << 18)) then 0
                  else (desc >> 4) .& 0x1e in
    let domain := (c3 (cp15 env) >> domain) .& 3 in
    if (domain =? 0) || (domain =? 2) then Ok (1, (l1, 0, 0))
    else if type =? 2 then Ok (1, (l1, 0, 0))
    else
      let table := (desc .& 0xfffffc00) .| ((address >> 10) .& 0x3fc) in
      let l2 := table in
      desc ← ldl_phys table;
      if desc .& 3 =? 0 then Ok (2, (l1, l2, 0))
      else Ok (3, (l1, l2, desc .& 0xFFFFF000)).
End walker.

(** ** The traced CPU and the tracer *)
Record traced := mkTraced { first_cpu : CPUARMState; tr : tracer }.
Definition eta_traced (s : traced) : traced := mkTraced (first_cpu s) (tr s).
#[export] Instance set_first_cpu : Setter first_cpu := ltac:(derive_setter eta_traced first_cpu).
#[export] Instance set_tr : Setter tr := ltac:(derive_setter eta_traced tr).

Definition flush_first_cpu (s : traced) : traced :=
  s <| first_cpu := (first_cpu s) <| tlb := tlb_flush (tlb (first_cpu s)) true |> |>.

Definition tlbtrace_start_qemu (t : tm) (can_open has_mem : bool) (s : traced) : res traced :=
  let s := flush_first_cpu s in
  tr' ← tlbtrace_start t can_open has_mem (tr s);
  Ok (s <| tr := tr' |>).

Definition tlbtrace_stop_qemu (s : traced) : res traced :=
  let s := flush_first_cpu s in
  tr' ← tlbtrace_stop (tr s);
  Ok (s <| tr := tr' |>).

Definition tlbtrace_toggle_qemu (t : tm) (can_open has_mem : bool) (s : traced) : res traced :=
  let s := s <| tr := (tr s) <| started := of_bool (negb (truth (started (tr s)))) |> |> in
  if truth (started (tr s)) then tlbtrace_start_qemu t can_open has_mem s
  else tlbtrace_stop_qemu s.

(** ** References from translated code *)
Section references.
(** Guest memory the walker can read: every load succeeds. *)
Context (mem : Z → Z).
#[local] Instance mem_read : PhysRead := λ a, Ok (mem a).

(** The helper [tlbtrace_init] installs, applied to [first_cpu]. *)
Definition qemu_helper (env : CPUARMState) : pte_helper_t :=
  λ a, match get_ptes env a with Ok r => r | Err _ => (1, (0, 0, 0)) end.

Definition tlbtrace_refmem_qemu (addr ins : Z) (env : CPUARMState) (s : tracer) :
    res (outcome unit) :=
  if negb (truth (started s)) then Ok (Returns tt s)
  else if negb (uncached_cpsr env .& CPSR_M =? ARM_CPU_MODE_USR) then Ok (Returns tt s)
  else
    let asid := c13_context (cp15 env) .& 0xFF in
    tlbtrace_refmem addr asid ins (s <| my_pte_helper := qemu_helper env |>).

Definition qemu_trace_pc_helper (pc : Z) (env : CPUARMState) (s : tracer) : res (outcome unit) :=
  if negb (truth (started s)) then Ok (Returns tt s)
  else tlbtrace_refmem_qemu pc 1 env s.

Lemma get_ptes_total env address : ∃ r, get_ptes env address = Ok r.
Proof.
  unfold get_ptes, ldl_phys, mem_read. rewrite bind_ret.
  destruct (_ || _); [eauto|]. destruct (_ || _); [eauto|]. destruct (_ =? 2); [eauto|].
  rewrite bind_ret. destruct (_ =? 0); eauto.
Qed.

Lemma qemu_helper_walks env a : get_ptes env a = Ok (qemu_helper env a).
Proof. unfold qemu_helper. by destruct (get_ptes_total env a) as [r ->]. Qed.
End references.

(** ** The walker agrees with the MMU *)
Section agreement.
Context {PR : PhysRead}.
Implicit Types env : CPUARMState.

(** The MMU walks the same tables in the same way. *)
Definition v6_tables env : Prop :=
  truth (c1_sys (cp15 env) .& 1) = true ∧ truth (c1_sys (cp15 env) .& (1 << 23)) = true ∧
  arm_feature env ARM_FEATURE_MPU = false.

Lemma get_phys_addr_is_v6 env address access_type is_user :
  v6_tables env → fcse env address = address →
  get_phys_addr env address access_type is_user
  = get_phys_addr_v6 env address access_type is_user.
Proof.
  intros (H1 & H2 & H3) Hf. unfold get_phys_addr. rewrite Hf, H2, H3.
  unfold truth in H1. apply negb_true_iff in H1. by rewrite H1.
Qed.

(** What a v6 translation says of the record's return value and page. *)
Definition agrees (address ret gpa : Z) (x : xlate) : Prop :=
  match x with
  | Mapped phys _ size =>
      (ret = 1 ∧ 0x100000 ≤ size) ∨ (ret = 3 ∧ size = 0x10000) ∨
      (ret = 3 ∧ size = 0x1000 ∧ phys = gpa .| (address .& 0xfff))
  | Fault code =>
      (ret = 1 ∧ code .& 0xf ∈ [5; 9; 11; 13; 3]) ∨ (ret = 2 ∧ code .& 0xf = 7) ∨
      (ret = 3 ∧ code .& 0xf ∈ [15; 6])
  end.

Lemma fault_code_low code domain : 0 ≤ code < 16 → (code .| (domain << 4)) .& 0xf = code.
Proof.
  intros Hc. rewrite Z.land_lor_distr_l.
  assert (∀ x, x .& 0xf = x mod 2 ^ 4) as Hm by (intros x; by rewrite <- Z.land_ones by lia).
  rewrite !Hm, Z.mod_small, Z.shiftl_mul_pow2, Z_mod_mult, Z.lor_0_r by lia. done.
Qed.

Lemma v6_finish_agrees env address phys ap xn size code domain access_type is_user ret gpa x :
  v6_finish env phys ap xn size code domain access_type is_user = Ok x →
  (∀ prot, agrees address ret gpa (Mapped phys prot size)) →
  (code = 13 ∧ ret = 1 ∨ code = 15 ∧ ret = 3) → agrees address ret gpa x.
Proof.
  intros H Hm Hc.
  assert (∀ c, c = code ∨ c = (if code =? 15 then 6 else 3) → do_fault c domain = Ok x →
            agrees address ret gpa x) as Hf.
  { intros c Hcc [= <-]. cbn [agrees]. rewrite fault_code_low.
    - rewrite !elem_of_cons. destruct Hc as [[-> ->]|[-> ->]]; destruct Hcc as [-> | ->]; tauto.
    - destruct Hc as [[-> _]|[-> _]]; destruct Hcc as [-> | ->]; cbn; lia. }
  unfold v6_finish in H. destruct (domain =? 3); [injection H as <-; apply Hm|].
  destruct (truth xn && (access_type =? 2)); [apply (Hf code); auto|].
  destruct (truth (_ .& (1 << 29)) && _).
  { apply (Hf (if code =? 15 then 6 else 3)); [by right|done]. }
  apply bind_Ok in H as (prot & _ & H). destruct (prot =? 0); [apply (Hf code); auto|].
  injection H as <-. apply Hm.
Qed.

(** C28: for tables in the v6 format the tracer's own walk classifies every
    page as the MMU does: it returns 1 exactly when the MMU maps a section or
    faults on the first level, 2 on a second-level translation fault, and 3
    when there is a page descriptor, whose frame is then the frame the MMU maps
    for a 4 KB page; [l1] and [l2] are the addresses the MMU reads the two
    descriptors from. *)
Theorem get_ptes_agrees env address access_type is_user ret l1 l2 gpa x :
  v6_tables env → fcse env address = address →
  get_ptes env address = Ok (ret, (l1, l2, gpa)) →
  get_phys_addr env address access_type is_user = Ok x →
  agrees address ret gpa x ∧ l1 = get_level1_table_address env address ∧
  (ret ≠ 1 → ∃ desc, ldl_phys l1 = Ok desc ∧
     l2 = (desc .& 0xfffffc00) .| ((address >> 10) .& 0x3fc)).
Proof.
  intros Htab Hf Hg Hx. rewrite get_phys_addr_is_v6 in Hx by done.
  unfold get_ptes in Hg. unfold get_phys_addr_v6 in Hx.
  apply bind_Ok in Hg as (desc & Hdesc & Hg). rewrite Hdesc, bind_ret in Hx. cbv zeta in Hg, Hx.
  fold (v6_domain env desc) in Hg. set (dom := v6_domain env desc) in *.
  destruct ((desc .& 3 =? 0) || (desc .& 3 =? 3)) eqn:Htype.
  { injection Hg as <- <- <- <-. injection Hx as <-. split; [|done].
    cbn [agrees]. left. rewrite fault_code_low by lia. rewrite !elem_of_cons. tauto. }
  destruct ((dom =? 0) || (dom =? 2)).
  { injection Hg as <- <- <- <-. injection Hx as <-. split; [|done]. left.
    rewrite fault_code_low by (destruct (desc .& 3 =? 2); lia).
    rewrite !elem_of_cons. destruct (desc .& 3 =? 2); tauto. }
  destruct (Z.eqb_spec (desc .& 3) 2) as [H2|H2].
  { injection Hg as <- <- <- <-. split; [|done].
    destruct (truth (desc .& (1 << 18))); eapply v6_finish_agrees; try exact Hx;
      try (by left); intros prot; by left. }
  apply bind_Ok in Hg as (desc2 & Hd2 & Hg). rewrite Hd2, bind_ret in Hx.
  assert (l2 = (desc .& 0xfffffc00) .| ((address >> 10) .& 0x3fc) ∧
          l1 = get_level1_table_address env address ∧
          ((desc2 .& 3 = 0 ∧ ret = 2) ∨
           (desc2 .& 3 ≠ 0 ∧ ret = 3 ∧ gpa = desc2 .& 0xFFFFF000))) as (Hl2 & Hl1 & Hret).
  { destruct (Z.eqb_spec (desc2 .& 3) 0); injection Hg as <- <- <- <-; tauto. }
  split; [|split; [done|]]; [|intros _; exists desc; by rewrite Hl1].
  destruct (v6_page address desc2) as [[[phys xn] size]|] eqn:Hp; unfold v6_page in Hp.
  - destruct Hret as [[H0 ->]|(H0 & -> & Hgpa)]; [by rewrite H0 in Hp|].
    eapply v6_finish_agrees; [exact Hx| |by right]. intros prot. cbn [agrees].
    repeat case_match; simplify_eq; tauto.
  - assert (desc2 .& 3 = 0) as H0.
    { repeat case_match; simplify_eq; done. }
    destruct Hret as [[_ ->]|(H0' & _)]; [|done]. injection Hx as <-. right. left.
    by rewrite fault_code_low by lia.
Qed.
End agreement.

(** ** Witnesses and the large-page case *)

(** Tables at 0x4000 and 0x8000: page 0x1000 is a 4 KB page at 0x5000, pages
    0x10000-0x1ffff a 64 KB page at 0x70000 with execute-never. *)
Definition demo_mem (a : Z) : Z :=
  if a =? 0x4000 then 0x8000 .| (1 << 5) .| 1
  else if a =? 0x8004 then 0x5000 .| (3 << 4) .| 2
  else if (a >=? 0x8040) && (a <? 0x8080) then 0x70000 .| (1 << 15) .| (3 << 4) .| 1 else 0.

Definition demo_traced_cpu : CPUARMState :=
  on_cp15 (λ r, r <| c1_sys := 1 .| (1 << 23) |> <| c2_base0 := 0x4000 |>
                  <| c2_base_mask := 0xffffc000 |> <| c3 := 1 << 2 |>)
    (clear_cpu (fresh_cpu 0) <| tlb := tlb_boot |>).

Theorem get_ptes_agrees_witness :
  agrees 0x1234 3 0x5000 (Mapped 0x5234 7 0x1000) ∧
  0x4000 = get_level1_table_address demo_traced_cpu 0x1234 ∧
  (3 ≠ 1 → ∃ desc, @ldl_phys (mem_read demo_mem) 0x4000 = Ok desc ∧
     0x8004 = (desc .& 0xfffffc00) .| ((0x1234 >> 10) .& 0x3fc)).
Proof.
  apply (@get_ptes_agrees (mem_read demo_mem) demo_traced_cpu 0x1234 0 true
    3 0x4000 0x8004 0x5000 (Mapped 0x5234 7 0x1000)); [by split|..]; vm_compute; reflexivity.
Defined.

(** For a 64 KB page the recorded frame is not the frame the MMU uses:
    [get_ptes] masks the descriptor as if it were a 4 KB one, so bits 12-15 of
    [gpa] are attribute bits of the descriptor and not address bits. *)
Theorem get_ptes_large_page_differs :
  ∃ ret l1 l2 gpa phys prot,
    @get_ptes (mem_read demo_mem) demo_traced_cpu 0x13000 = Ok (ret, (l1, l2, gpa)) ∧
    @get_phys_addr (mem_read demo_mem) demo_traced_cpu 0x13000 0 true
      = Ok (Mapped phys prot 0x10000) ∧
    ret = 3 ∧ gpa = 0x78000 ∧ phys = 0x73000.
Proof. do 6 eexists. repeat split; vm_compute; reflexivity. Qed.

Lemma tlbtrace_start_started t can_open has_mem s s' :
  tlbtrace_start t can_open has_mem s = Ok s' → started s' = started s.
Proof.
  unfold tlbtrace_start. cbv zeta. set (s0 := if can_open then _ else _).
  assert (started s0 = started s) as <- by (unfold s0; by destruct can_open).
  clearbody s0. destruct (0 <? tlb_size _); intros H; [|by injection H as <-].
  apply bind_Ok in H as (l & _ & H). apply bind_Ok in H as ([l' c] & _ & H).
  injection H as <-. done.
Qed.

Lemma tlbtrace_stop_started s s' : tlbtrace_stop s = Ok s' → started s' = started s.
Proof.
  unfold tlbtrace_stop. intros (s1 & H1 & H)%bind_Ok.
  apply bind_Ok in H as (s2 & H2 & H). injection H as <-.
  assert (started s1 = started s) as <-.
  { destruct (0 <? fbc s); [|by injection H1 as <-].
    apply bind_Ok in H1 as (ws & _ & H1). injection H1 as <-. unfold write_words.
    by destruct (fout s). }
  unfold free_buf in H2. by destruct (fbuf s1); simplify_eq.
Qed.

(** Toggling the tracer on or off empties the software TLB of the traced
    CPU, so that no translation cached before the switch bypasses the traced
    miss path, and it flips [started]. *)
Theorem toggle_flushes_tlb t can_open has_mem s s' mmu_idx addr a :
  tlb_wf (tlb (first_cpu s)) → 0 ≤ mmu_idx < NB_MMU_MODES →
  tlbtrace_toggle_qemu t can_open has_mem s = Ok s' →
  tlb_hit (tlb (first_cpu s')) mmu_idx addr a = Ok false ∧
  started (tr s') = of_bool (negb (truth (started (tr s)))).
Proof.
  intros Hwf Hm H.
  assert (∀ s0, tlb (first_cpu s0) = tlb (first_cpu s) →
            tlb_hit (tlb (first_cpu (flush_first_cpu s0))) mmu_idx addr a = Ok false) as Hmiss.
  { intros s0 Hs. change (tlb (first_cpu (flush_first_cpu s0)))
      with (tlb_flush (tlb (first_cpu s0)) true). rewrite Hs. by apply flush_empties. }
  unfold tlbtrace_toggle_qemu in H.
  set (s0 := s <| tr := _ |>) in H.
  assert (started (tr s0) = of_bool (negb (truth (started (tr s))))) as Hst by done.
  destruct (truth (started (tr s0))) eqn:Hon;
    apply bind_Ok in H as (tr' & Ht & H); injection H as <-;
    (split; [by apply (Hmiss s0)|]); rewrite <- Hst.
  - by apply tlbtrace_start_started in Ht.
  - by apply tlbtrace_stop_started in Ht.
Qed.

(** A tracer with four entries, initialised and off. *)
Definition demo_traced : traced :=
  mkTraced (demo_traced_cpu)
    (mkTracer 4 2 2 1 (Some (replicate 4 (mkTLB_ENTRY 0 0 0 0))) (mkTLB_COUNTER 0 0) 0 0 ∅ None 0
       NoBuffer (λ _, (1, (0, 0, 0))) 0).

Theorem toggle_flushes_tlb_witness :
  ∃ s', tlbtrace_toggle_qemu (mkTm 0 1 2 3) true true demo_traced = Ok s' ∧
    tlb_hit (tlb (first_cpu s')) 1 0 Read = Ok false ∧ started (tr s') = 1.
Proof.
  destruct (tlbtrace_toggle_qemu (mkTm 0 1 2 3) true true demo_traced) as [s'|f] eqn:E;
    [|exfalso; vm_compute in E; discriminate E].
  exists s'. split; [reflexivity|].
  apply (toggle_flushes_tlb (mkTm 0 1 2 3) true true demo_traced s' 1 0 Read tlb_boot_wf
    ltac:(unfold NB_MMU_MODES; lia) E).
Defined.
