(* ===== verification/ArmCp15.v ===== *)
(** * The system control coprocessor ([set_cp15] and [get_cp15] in
    [target-arm/helper.c])

    One definition per coprocessor register number; a write may flush the
    software TLB of the CPU, and a TLB maintenance write also flushes the
    tracer.  An unimplemented register ends in [cpu_abort]. *)
From S2P Require Import Prelude TlbCore TlbTrace SoftTlb ArmCpu ArmMode ArmMmu GetPtes.

(** ** Fields of the instruction *)
Definition cp15_crn (insn : Z) : Z := (insn >> 16) .& 0xf.
Definition cp15_op1 (insn : Z) : Z := (insn >> 21) .& 7.
Definition cp15_op2 (insn : Z) : Z := (insn >> 5) .& 7.
Definition cp15_crm (insn : Z) : Z := insn .& 0xf.

Definition bad_reg {A} : res A := Err (Aborted "Unimplemented cp15 register").

(** What the writes call in [exec.c], as far as the CPU state goes: the blocks
    themselves belong to the translator. *)
Definition flush_env (global : bool) (env : CPUARMState) : CPUARMState :=
  env <| tlb := tlb_flush (tlb env) global |>.
Definition tb_flush (env : CPUARMState) : CPUARMState :=
  env <| tlb := (tlb env) <| tb_jmp_cache := replicate (Z.to_nat TB_JMP_CACHE_SIZE) 0 |> |>.
Definition CPU_INTERRUPT_HARD : Z := 0x0002.
Definition CPU_INTERRUPT_EXITTB : Z := 0x0004.
Definition CPU_INTERRUPT_HALT : Z := 0x0020.
Definition cpu_interrupt (mask : Z) (env : CPUARMState) : CPUARMState :=
  env <| interrupt_request := interrupt_request env .| mask |>.

Definition user_mode (env : CPUARMState) : bool :=
  uncached_cpsr env .& CPSR_M =? ARM_CPU_MODE_USR.

(** ** Writing *)
Definition set_c0 (op1 crm op2 val : Z) (env : CPUARMState) : res CPUARMState :=
  if arm_feature env ARM_FEATURE_XSCALE then Ok env
  else if arm_feature env ARM_FEATURE_OMAPCP then Ok env
  else if arm_feature env ARM_FEATURE_V7 && (op1 =? 2) && (crm =? 0) && (op2 =? 0)
  then Ok (on_cp15 (λ r, r <| c0_cssel := val .& 0xf |>) env)
  else bad_reg.

Definition set_c1_0 (op2 val : Z) (env : CPUARMState) : res CPUARMState :=
  let op2 := if arm_feature env ARM_FEATURE_OMAPCP then 0 else op2 in
  match op2 with
  | 0 =>
      let env := if arm_feature env ARM_FEATURE_XSCALE then env
                 else on_cp15 (λ r, r <| c1_sys := val |>) env in
      Ok (flush_env true env)
  | 1 =>
      Ok (if arm_feature env ARM_FEATURE_XSCALE
          then on_cp15 (λ r, r <| c1_xscaleauxcr := val |>) env else env)
  | 2 =>
      if arm_feature env ARM_FEATURE_XSCALE then bad_reg
      else if c1_coproc (cp15 env) =? val then Ok env
      else Ok (tb_flush (on_cp15 (λ r, r <| c1_coproc := val |>) env))
  | _ => bad_reg
  end.

Definition set_c1_1 (op2 val : Z) (env : CPUARMState) : res CPUARMState :=
  if negb (arm_feature env ARM_FEATURE_TRUSTZONE) || user_mode env then bad_reg
  else if truth (c1_secfg (cp15 env) .& 1) then bad_reg
  else match op2 with
       | 0 => Ok (on_cp15 (λ r, r <| c1_secfg := val |>) env)
       | 1 => Ok (on_cp15 (λ r, r <| c1_sedbg := val |>) env)
       | 2 => Ok (on_cp15 (λ r, r <| c1_nseac := val |>) env)
       | _ => bad_reg
       end.

Definition set_c1 (crm op2 val : Z) (env : CPUARMState) : res CPUARMState :=
  match crm with
  | 0 => set_c1_0 op2 val env
  | 1 => set_c1_1 op2 val env
  | _ => bad_reg
  end.

Definition set_c2 (op2 val : Z) (env : CPUARMState) : res CPUARMState :=
  if arm_feature env ARM_FEATURE_MPU then
    match op2 with
    | 0 => Ok (on_cp15 (λ r, r <| c2_data := val |>) env)
    | 1 => Ok (on_cp15 (λ r, r <| c2_insn := val |>) env)
    | _ => bad_reg
    end
  else
    match op2 with
    | 0 => Ok (on_cp15 (λ r, r <| c2_base0 := val |>) env)
    | 1 => Ok (on_cp15 (λ r, r <| c2_base1 := val |>) env)
    | 2 =>
        let val := val .& 7 in
        Ok (on_cp15 (λ r, r <| c2_control := val |>
              <| c2_mask := u32 (Z.lnot (0xffffffff >> val)) |>
              <| c2_base_mask := u32 (Z.lnot (0x3fff >> val)) |>) env)
    | _ => bad_reg
    end.

Definition set_c3_reg (val : Z) (env : CPUARMState) : res CPUARMState :=
  Ok (flush_env true (on_cp15 (λ r, r <| c3 := val |>) env)).

Definition set_c5 (op2 val : Z) (env : CPUARMState) : res CPUARMState :=
  let mpu := arm_feature env ARM_FEATURE_MPU in
  let op2 := if arm_feature env ARM_FEATURE_OMAPCP then 0 else op2 in
  match op2 with
  | 0 => Ok (on_cp15 (λ r, r <| c5_data := if mpu then extended_mpu_ap_bits val else val |>) env)
  | 1 => Ok (on_cp15 (λ r, r <| c5_insn := if mpu then extended_mpu_ap_bits val else val |>) env)
  | 2 => if mpu then Ok (on_cp15 (λ r, r <| c5_data := val |>) env) else bad_reg
  | 3 => if mpu then Ok (on_cp15 (λ r, r <| c5_insn := val |>) env) else bad_reg
  | _ => bad_reg
  end.

Definition set_c6 (crm op2 val : Z) (env : CPUARMState) : res CPUARMState :=
  if arm_feature env ARM_FEATURE_MPU then
    if crm >=? 8 then bad_reg
    else
      l ← aput (c6_region (cp15 env)) crm val;
      Ok (on_cp15 (λ r, r <| c6_region := l |>) env)
  else
    let op2 := if arm_feature env ARM_FEATURE_OMAPCP then 0 else op2 in
    match op2 with
    | 0 => Ok (on_cp15 (λ r, r <| c6_data := val |>) env)
    | 1 | 2 => Ok (on_cp15 (λ r, r <| c6_insn := val |>) env)
    | _ => bad_reg
    end.

Section writes.
Context {PR : PhysRead}.

(** The translation result register after a walk for [c7, c8]. *)
Definition par_value (env : CPUARMState) (r : xlate) : Z :=
  match r with
  | Mapped phys_addr _ page_size =>
      if (page_size =? 1 << 24) && arm_feature env ARM_FEATURE_V7
      then (phys_addr .& 0xff000000) .| (1 << 1)
      else phys_addr .& 0xfffff000
  | Fault ret =>
      ((ret .& (10 << 1)) >> 5) .| ((ret .& (12 << 1)) >> 6) .| ((ret .& 0xf) << 1) .| 1
  end.

Definition set_c7 (op1 crm op2 val : Z) (env : CPUARMState) : res CPUARMState :=
  let env := on_cp15 (λ r, r <| c15_i_max := 0x000 |> <| c15_i_min := 0xff0 |>) env in
  if negb (op1 =? 0) then bad_reg
  else if arm_feature env ARM_FEATURE_V6K then
    match crm with
    | 4 =>
        let m := if arm_feature env ARM_FEATURE_V7 then 0xfffff6ff else 0xfffff1ff in
        Ok (on_cp15 (λ r, r <| c7_par := val .& m |>) env)
    | 8 =>
        if truth (op2 .& 4) then bad_reg
        else
          r ← get_phys_addr env val (op2 .& 1) (truth (op2 .& 2));
          Ok (on_cp15 (λ c, c <| c7_par := par_value env r |>) env)
    | _ => Ok env
    end
  else Ok env.

(** TLB maintenance: the software TLB, then the tracer's. *)
Definition set_c8 (op2 val : Z) (s : traced) : res traced :=
  let env := first_cpu s in
  match op2 with
  | 0 =>
      let s := s <| first_cpu := flush_env false env |> in
      t ← tlbtrace_flush_all (tr s); Ok (s <| tr := t |>)
  | 1 =>
      e ← tlb_flush_page (val .& TARGET_PAGE_MASK) (tlb env);
      let s := s <| first_cpu := env <| tlb := e |> |> in
      t ← tlbtrace_flush_entry val (tr s); Ok (s <| tr := t |>)
  | 2 =>
      let s := s <| first_cpu := flush_env (val =? 0) env |> in
      t ← tlbtrace_flush_asid val (tr s); Ok (s <| tr := t |>)
  | 3 => Ok (s <| first_cpu := flush_env true env |>)
  | _ => bad_reg
  end.

(** Cache lockdown. *)
Definition set_c9_0 (op1 op2 val : Z) (env : CPUARMState) : res CPUARMState :=
  match op1 with
  | 0 =>
      match op2 with
      | 0 => Ok (on_cp15 (λ r, r <| c9_data := val |>) env)
      | 1 => Ok (on_cp15 (λ r, r <| c9_insn := val |>) env)
      | _ => bad_reg
      end
  | 1 => match op2 with 0 | 2 => Ok env | _ => bad_reg end
  | _ => bad_reg
  end.

(** Performance monitor: enables. *)
Definition set_c9_14 (op2 val : Z) (env : CPUARMState) : res CPUARMState :=
  if arm_feature env ARM_FEATURE_V7 then
    match op2 with
    | 0 => if user_mode env then bad_reg
           else Ok (on_cp15 (λ r, r <| c9_useren := val .& 1 |>) env)
    | 1 => if user_mode env then bad_reg
           else Ok (on_cp15 (λ r, r <| c9_inten := c9_inten r .| (val .& 0xf) |>) env)
    | 2 => if user_mode env then bad_reg
           else Ok (on_cp15 (λ r, r <| c9_inten := c9_inten r .& Z.lnot (val .& 0xf) |>) env)
    | _ => bad_reg
    end
  else bad_reg.

Definition set_c9 (op1 crm op2 val : Z) (env : CPUARMState) : res CPUARMState :=
  if arm_feature env ARM_FEATURE_OMAPCP then Ok env
  else if arm_feature env ARM_FEATURE_STRONGARM then Ok env
  else match crm with
       | 0 => set_c9_0 op1 op2 val env
       | 12 =>
           if arm_feature env ARM_FEATURE_V7 && (op2 =? 0)
           then Ok (on_cp15 (λ r, r <| c9_pmcr_data := val |>) env) else bad_reg
       | 14 => set_c9_14 op2 val env
       | _ => bad_reg
       end.

Definition set_c12 (op1 crm op2 val : Z) (env : CPUARMState) : res CPUARMState :=
  if (op1 =? 0) && (crm =? 0) then
    match op2 with
    | 0 => if arm_feature env ARM_FEATURE_TRUSTZONE
           then Ok (on_cp15 (λ r, r <| c12_vbar := val .& Z.lnot 0x1f |>) env) else bad_reg
    | 1 => if arm_feature env ARM_FEATURE_TRUSTZONE
           then Ok (if truth (c1_secfg (cp15 env) .& 1) then env
                    else on_cp15 (λ r, r <| c12_mvbar := val .& Z.lnot 0x1f |>) env)
           else bad_reg
    | _ => bad_reg
    end
  else bad_reg.

Definition set_c13 (op2 val : Z) (env : CPUARMState) : res CPUARMState :=
  match op2 with
  | 0 =>
      let env := if c13_fcse (cp15 env) =? val then env else flush_env true env in
      Ok (on_cp15 (λ r, r <| c13_fcse := val |>) env)
  | 1 =>
      let env := if negb (c13_context (cp15 env) =? val) && negb (arm_feature env ARM_FEATURE_MPU)
                 then flush_env false env else env in
      Ok (on_cp15 (λ r, r <| c13_context := val |>) env)
  | _ => bad_reg
  end.

Definition set_c15_omap (crm val : Z) (env : CPUARMState) : res CPUARMState :=
  match crm with
  | 0 => Ok env
  | 1 => Ok (on_cp15 (λ r, r <| c15_ticonfig := val .& 0xe7 |>
               <| c0_cpuid := if truth (val .& (1 << 5)) then ARM_CPUID_TI915T
                              else ARM_CPUID_TI925T |>) env)
  | 2 => Ok (on_cp15 (λ r, r <| c15_i_max := val |>) env)
  | 3 => Ok (on_cp15 (λ r, r <| c15_i_min := val |>) env)
  | 4 => Ok (on_cp15 (λ r, r <| c15_threadid := val .& 0xffff |>) env)
  | 8 => Ok (cpu_interrupt CPU_INTERRUPT_HALT env)
  | _ => bad_reg
  end.

Definition set_c15 (crm op2 val : Z) (env : CPUARMState) : res CPUARMState :=
  if arm_feature env ARM_FEATURE_XSCALE then
    if (op2 =? 0) && (crm =? 1) then
      Ok (if c15_cpar (cp15 env) =? (val .& 0x3fff) then env
          else on_cp15 (λ r, r <| c15_cpar := val .& 0x3fff |>) (tb_flush env))
    else bad_reg
  else if arm_feature env ARM_FEATURE_OMAPCP then set_c15_omap crm val env
  else Ok env.

(** Every register but c8, which also reaches the tracer. *)
Definition set_cp15_env (insn val : Z) (env : CPUARMState) : res CPUARMState :=
  let op1 := cp15_op1 insn in
  let op2 := cp15_op2 insn in
  let crm := cp15_crm insn in
  match cp15_crn insn with
  | 0 => set_c0 op1 crm op2 val env
  | 1 => set_c1 crm op2 val env
  | 2 => set_c2 op2 val env
  | 3 => set_c3_reg val env
  | 4 => bad_reg
  | 5 => set_c5 op2 val env
  | 6 => set_c6 crm op2 val env
  | 7 => set_c7 op1 crm op2 val env
  | 9 => set_c9 op1 crm op2 val env
  | 10 => Ok env
  | 12 => set_c12 op1 crm op2 val env
  | 13 => set_c13 op2 val env
  | 14 => bad_reg
  | 15 => set_c15 crm op2 val env
  | _ => Ok env                         (* c11: no case in the switch *)
  end.

Definition set_cp15_reg (insn val : Z) (s : traced) : res traced :=
  if cp15_crn insn =? 8 then set_c8 (cp15_op2 insn) val s
  else e ← set_cp15_env insn val (first_cpu s); Ok (s <| first_cpu := e |>).
End writes.

(** ** Reading *)
Definition get_mpidr (env : CPUARMState) : res Z :=
  if arm_feature env ARM_FEATURE_V7 || (c0_cpuid (cp15 env) =? ARM_CPUID_ARM11MPCORE) then
    Ok (u32 (if arm_feature env ARM_FEATURE_V7MP then cpu_index env .| 0x80000000
             else cpu_index env))
  else bad_reg.

Definition get_c0_0 (crm op2 : Z) (env : CPUARMState) : res Z :=
  match crm with
  | 0 =>
      match op2 with
      | 0 => Ok (c0_cpuid (cp15 env))
      | 1 => Ok (c0_cachetype (cp15 env))
      | 2 => Ok 0
      | 3 => Ok 0
      | 5 => get_mpidr env
      | _ => bad_reg
      end
  | 1 => if arm_feature env ARM_FEATURE_V6 then aget (c0_c1 (cp15 env)) op2 else bad_reg
  | 2 => if arm_feature env ARM_FEATURE_V6 then aget (c0_c2 (cp15 env)) op2 else bad_reg
  | 3 | 4 | 5 | 6 | 7 => Ok 0
  | _ => bad_reg
  end.

Definition get_c0 (op1 crm op2 : Z) (env : CPUARMState) : res Z :=
  match op1 with
  | 0 => get_c0_0 crm op2 env
  | 1 =>
      if negb (arm_feature env ARM_FEATURE_V6) then bad_reg
      else if negb (crm =? 0) then bad_reg
      else if negb (arm_feature env ARM_FEATURE_V7) then Ok 0
      else match op2 with
           | 0 => aget (c0_ccsid (cp15 env)) (c0_cssel (cp15 env))
           | 1 => Ok (c0_clid (cp15 env))
           | 7 => Ok 0
           | _ => bad_reg
           end
  | 2 => if negb (op2 =? 0) || negb (crm =? 0) then bad_reg else Ok (c0_cssel (cp15 env))
  | _ => bad_reg
  end.

(** Auxiliary control, by CPU model. *)
Definition get_auxcr (env : CPUARMState) : res Z :=
  let id := c0_cpuid (cp15 env) in
  if id =? ARM_CPUID_ARM1026 then Ok 1
  else if (id =? ARM_CPUID_ARM1136) || (id =? ARM_CPUID_ARM1136_R2) then Ok 7
  else if id =? ARM_CPUID_ARM11MPCORE then Ok 1
  else if (id =? ARM_CPUID_CORTEXA8) || (id =? ARM_CPUID_CORTEXA8_R2) then Ok 2
  else if id =? ARM_CPUID_CORTEXA9 then Ok 0
  else bad_reg.

Definition get_c1 (crm op2 : Z) (env : CPUARMState) : res Z :=
  match crm with
  | 0 =>
      match (if arm_feature env ARM_FEATURE_OMAPCP then 0 else op2) with
      | 0 => Ok (c1_sys (cp15 env))
      | 1 =>
          if arm_feature env ARM_FEATURE_XSCALE then Ok (c1_xscaleauxcr (cp15 env))
          else if arm_feature env ARM_FEATURE_AUXCR then get_auxcr env
          else bad_reg
      | 2 => if arm_feature env ARM_FEATURE_XSCALE then bad_reg
             else Ok (c1_coproc (cp15 env))
      | _ => bad_reg
      end
  | 1 =>
      if negb (arm_feature env ARM_FEATURE_TRUSTZONE) || user_mode env then bad_reg
      else
        let secure := truth (c1_secfg (cp15 env) .& 1) in
        match op2 with
        | 0 => if secure then bad_reg else Ok (c1_secfg (cp15 env))
        | 1 => if secure then bad_reg else Ok (c1_sedbg (cp15 env))
        | 2 => Ok (c1_nseac (cp15 env))
        | _ => bad_reg
        end
  | _ => bad_reg
  end.

Definition get_c2 (op2 : Z) (env : CPUARMState) : res Z :=
  if arm_feature env ARM_FEATURE_MPU then
    match op2 with
    | 0 => Ok (c2_data (cp15 env))
    | 1 => Ok (c2_insn (cp15 env))
    | _ => bad_reg
    end
  else
    match op2 with
    | 0 => Ok (c2_base0 (cp15 env))
    | 1 => Ok (c2_base1 (cp15 env))
    | 2 => Ok (c2_control (cp15 env))
    | _ => bad_reg
    end.

(** With an MPU both basic formats are computed from [c5_data]. *)
Definition get_c5 (op2 : Z) (env : CPUARMState) : res Z :=
  let mpu := arm_feature env ARM_FEATURE_MPU in
  match (if arm_feature env ARM_FEATURE_OMAPCP then 0 else op2) with
  | 0 => Ok (if mpu then simple_mpu_ap_bits (c5_data (cp15 env)) else c5_data (cp15 env))
  | 1 => Ok (if mpu then simple_mpu_ap_bits (c5_data (cp15 env)) else c5_insn (cp15 env))
  | 2 => if mpu then Ok (c5_data (cp15 env)) else bad_reg
  | 3 => if mpu then Ok (c5_insn (cp15 env)) else bad_reg
  | _ => bad_reg
  end.

Definition get_c6 (crm op2 : Z) (env : CPUARMState) : res Z :=
  if arm_feature env ARM_FEATURE_MPU then
    if crm >=? 8 then bad_reg else aget (c6_region (cp15 env)) crm
  else
    match (if arm_feature env ARM_FEATURE_OMAPCP then 0 else op2) with
    | 0 => Ok (c6_data (cp15 env))
    | 1 => Ok (if arm_feature env ARM_FEATURE_V6 then 0 else c6_insn (cp15 env))
    | 2 => if arm_feature env ARM_FEATURE_V6 then Ok (c6_insn (cp15 env)) else bad_reg
    | _ => bad_reg
    end.

Definition get_c9_0 (crm op2 : Z) (env : CPUARMState) : res Z :=
  match crm with
  | 0 =>
      match op2 with
      | 0 => Ok (c9_data (cp15 env))
      | 1 => Ok (c9_insn (cp15 env))
      | _ => bad_reg
      end
  | 12 => if op2 =? 0 then Ok (c9_pmcr_data (cp15 env)) else bad_reg
  | 14 =>
      if arm_feature env ARM_FEATURE_V7 then
        match op2 with
        | 0 => Ok (c9_useren (cp15 env))
        | 1 | 2 => if user_mode env then bad_reg else Ok (c9_inten (cp15 env))
        | _ => bad_reg
        end
      else bad_reg
  | _ => bad_reg
  end.

Definition get_c9 (op1 crm op2 : Z) (env : CPUARMState) : res Z :=
  match op1 with
  | 0 => if arm_feature env ARM_FEATURE_OMAPCP then Ok 0 else get_c9_0 crm op2 env
  | 1 => if crm =? 0 then Ok 0 else bad_reg
  | _ => bad_reg
  end.

Definition get_c12 (op1 crm op2 : Z) (env : CPUARMState) : res Z :=
  if (op1 =? 0) && (crm =? 0) && arm_feature env ARM_FEATURE_TRUSTZONE then
    match op2 with
    | 0 => Ok (c12_vbar (cp15 env))
    | 1 => Ok (c12_mvbar (cp15 env))
    | _ => bad_reg
    end
  else bad_reg.

Definition get_c13 (op2 : Z) (env : CPUARMState) : res Z :=
  match op2 with
  | 0 => Ok (c13_fcse (cp15 env))
  | 1 => Ok (c13_context (cp15 env))
  | _ => bad_reg
  end.

Definition get_c15 (crm op2 : Z) (env : CPUARMState) : res Z :=
  if arm_feature env ARM_FEATURE_XSCALE then
    if (op2 =? 0) && (crm =? 1) then Ok (c15_cpar (cp15 env)) else bad_reg
  else if arm_feature env ARM_FEATURE_OMAPCP then
    match crm with
    | 0 => Ok 0
    | 1 => Ok (c15_ticonfig (cp15 env))
    | 2 => Ok (c15_i_max (cp15 env))
    | 3 => Ok (c15_i_min (cp15 env))
    | 4 => Ok (c15_threadid (cp15 env))
    | 8 => Ok 0
    | _ => bad_reg
    end
  else Ok 0.

(** The value read; only c7 changes the state (the Z flag, when the
    destination is r15). *)
Definition get_cp15_reg (insn : Z) (env : CPUARMState) : res (Z * CPUARMState) :=
  let op1 := cp15_op1 insn in
  let op2 := cp15_op2 insn in
  let crm := cp15_crm insn in
  let pure := λ r : res Z, v ← r; Ok (v, env) in
  match cp15_crn insn with
  | 0 => pure (get_c0 op1 crm op2 env)
  | 1 => pure (get_c1 crm op2 env)
  | 2 => pure (get_c2 op2 env)
  | 3 => Ok (c3 (cp15 env), env)
  | 5 => pure (get_c5 op2 env)
  | 6 => pure (get_c6 crm op2 env)
  | 7 =>
      if (crm =? 4) && (op1 =? 0) && (op2 =? 0) then Ok (c7_par (cp15 env), env)
      else Ok (0, if (insn >> 12) .& 0xf =? 0xf then env <| ZF := 0 |> else env)
  | 9 => pure (get_c9 op1 crm op2 env)
  | 10 => Ok (0, env)
  | 11 | 12 => pure (get_c12 op1 crm op2 env)
  | 13 => pure (get_c13 op2 env)
  | 15 => pure (get_c15 crm op2 env)
  | _ => bad_reg                      (* c4, c8, c14 *)
  end.
