(* ===== verification/ArmCp15Facts.v ===== *)
(** * Correctness of the system control coprocessor *)
From S2P Require Import Prelude TlbCore TlbTrace TlbTraceFacts SoftTlb ArmCpu.
From S2P Require Import ArmMode ArmModeFacts ArmMmu ArmMmuFacts GetPtes ArmCp15.

(** ** Which writes flush the software TLB *)

(** No access hits. *)
Definition flushed (t : soft_tlb) : Prop :=
  ∀ m x a, 0 ≤ m < NB_MMU_MODES → tlb_hit t m x a = Ok false.

(** The registers a cached translation depends on; the table base is left to
    the guest's own maintenance, as on hardware. *)
Definition same_xlate (e e' : CPUARMState) : Prop :=
  c1_sys (cp15 e') = c1_sys (cp15 e) ∧ c3 (cp15 e') = c3 (cp15 e) ∧
  c13_fcse (cp15 e') = c13_fcse (cp15 e) ∧
  (c13_context (cp15 e') = c13_context (cp15 e) ∨ arm_feature e ARM_FEATURE_MPU = true).

Definition safe_write (e e' : CPUARMState) : Prop :=
  tlb_wf (tlb e') ∧ (flushed (tlb e') ∨ same_xlate e e').

Lemma flush_env_flushed g e : tlb_wf (tlb e) →
  tlb_wf (tlb (flush_env g e)) ∧ flushed (tlb (flush_env g e)).
Proof.
  intros Hwf. split; [|intros m x a Hm].
  - by apply (flush_empties (tlb e) g 0 0 Read).
  - by apply (flush_empties (tlb e) g m x a).
Qed.

Lemma safe_flush g e e0 e' : tlb_wf (tlb e0) → tlb e' = tlb (flush_env g e0) → safe_write e e'.
Proof.
  intros Hwf Ht. destruct (flush_env_flushed g e0 Hwf) as [H1 H2].
  split; rewrite Ht; [done|by left].
Qed.

Lemma safe_same e e' : tlb_wf (tlb e) → tlb e' = tlb e → same_xlate e e' → safe_write e e'.
Proof. intros Hwf Ht Hs. split; [by rewrite Ht|by right]. Qed.

Lemma safe_tb_flush e e' : tlb_wf (tlb e) → tlb e' = tlb (tb_flush e) → same_xlate e e' →
  safe_write e e'.
Proof.
  intros [H1 H2 H3 H4 H5] Ht Hs. split; [rewrite Ht; by split|by right].
Qed.

(** Splits a handler into its branches; most keep the translation registers. *)
Ltac handler :=
  repeat case_match; intros Hset; try discriminate Hset; try (injection Hset as <-);
  try (apply safe_same; [done|done|repeat split; by left]).

Section writes.
Context {PR : PhysRead}.
Implicit Types e : CPUARMState.

Lemma set_c0_safe op1 crm op2 val e e' : tlb_wf (tlb e) →
  set_c0 op1 crm op2 val e = Ok e' → safe_write e e'.
Proof. intros Hwf. unfold set_c0, bad_reg. handler. Qed.

Lemma set_c1_safe crm op2 val e e' : tlb_wf (tlb e) →
  set_c1 crm op2 val e = Ok e' → safe_write e e'.
Proof.
  intros Hwf. unfold set_c1, set_c1_0, set_c1_1, bad_reg. cbv zeta. handler;
    first [by eapply (safe_flush true _ e)
          |by eapply (safe_flush true _ (on_cp15 _ e))
          |apply safe_tb_flush; [done|done|repeat split; by left]].
Qed.

Lemma set_c2_safe op2 val e e' : tlb_wf (tlb e) →
  set_c2 op2 val e = Ok e' → safe_write e e'.
Proof. intros Hwf. unfold set_c2, bad_reg. cbv zeta. handler. Qed.

Lemma set_c5_safe op2 val e e' : tlb_wf (tlb e) →
  set_c5 op2 val e = Ok e' → safe_write e e'.
Proof. intros Hwf. unfold set_c5, bad_reg. cbv zeta. handler. Qed.

Lemma set_c6_safe crm op2 val e e' : tlb_wf (tlb e) →
  set_c6 crm op2 val e = Ok e' → safe_write e e'.
Proof.
  intros Hwf. unfold set_c6, bad_reg. destruct (arm_feature e ARM_FEATURE_MPU).
  - destruct (crm >=? 8); [done|]. intros (l & _ & H)%bind_Ok. injection H as <-.
    apply safe_same; [done|done|repeat split; by left].
  - cbv zeta. handler.
Qed.

Lemma set_c7_safe op1 crm op2 val e e' : tlb_wf (tlb e) →
  set_c7 op1 crm op2 val e = Ok e' → safe_write e e'.
Proof.
  intros Hwf. unfold set_c7, bad_reg. cbv zeta. handler.
  all: apply bind_Ok in Hset as (r & _ & Hset); injection Hset as <-;
    apply safe_same; [done|done|repeat split; by left].
Qed.

Lemma set_c9_safe op1 crm op2 val e e' : tlb_wf (tlb e) →
  set_c9 op1 crm op2 val e = Ok e' → safe_write e e'.
Proof. intros Hwf. unfold set_c9, set_c9_0, set_c9_14, bad_reg. handler. Qed.

Lemma set_c12_safe op1 crm op2 val e e' : tlb_wf (tlb e) →
  set_c12 op1 crm op2 val e = Ok e' → safe_write e e'.
Proof. intros Hwf. unfold set_c12, bad_reg. handler. Qed.

Lemma set_c13_safe op2 val e e' : tlb_wf (tlb e) →
  set_c13 op2 val e = Ok e' → safe_write e e'.
Proof.
  intros Hwf. unfold set_c13, bad_reg. cbv zeta.
  destruct op2 as [|[p|p|]|p]; intros H; try discriminate H; injection H as <-.
  - destruct (Z.eqb_spec (c13_fcse (cp15 e)) val) as [<-|].
    + apply safe_same; [done|done|repeat split; by left].
    + by eapply (safe_flush true _ e).
  - destruct (Z.eqb_spec (c13_context (cp15 e)) val) as [<-|].
    + apply safe_same; [done|done|repeat split; by left].
    + destruct (arm_feature e ARM_FEATURE_MPU) eqn:Hm.
      * apply safe_same; [done|done|]. repeat split. by right.
      * by eapply (safe_flush false _ e).
Qed.

Lemma set_c15_safe crm op2 val e e' : tlb_wf (tlb e) →
  set_c15 crm op2 val e = Ok e' → safe_write e e'.
Proof.
  intros Hwf. unfold set_c15, set_c15_omap, bad_reg. handler.
  all: apply safe_tb_flush; [done|done|repeat split; by left].
Qed.

Lemma set_cp15_env_safe insn val e e' : tlb_wf (tlb e) →
  set_cp15_env insn val e = Ok e' → safe_write e e'.
Proof.
  intros Hwf. unfold set_cp15_env, bad_reg. cbv zeta.
  destruct (cp15_crn insn) as [|[[[p|p|]|[p|p|]|]|[[p|p|]|[p|p|]|]|]|p]; try destruct p;
    try (intros H; discriminate H);
    try (intros H; injection H as <-; apply safe_same; [done|done|repeat split; by left]).
  all: try by apply set_c0_safe. all: try by apply set_c1_safe. all: try by apply set_c2_safe.
  all: try by apply set_c5_safe. all: try by apply set_c6_safe. all: try by apply set_c7_safe.
  all: try by apply set_c9_safe. all: try by apply set_c12_safe. all: try by apply set_c13_safe.
  all: try by apply set_c15_safe.
  all: intros H; injection H as <-; by eapply (safe_flush true _ (on_cp15 _ e)).
Qed.

Lemma set_c8_safe op2 val s s' : tlb_wf (tlb (first_cpu s)) →
  set_c8 op2 val s = Ok s' → safe_write (first_cpu s) (first_cpu s').
Proof.
  intros Hwf. unfold set_c8, bad_reg. cbv zeta.
  destruct op2 as [|[[p|p|]|p|]|p]; intros H; try discriminate H.
  - apply bind_Ok in H as (t & _ & H). injection H as <-.
    by eapply (safe_flush false _ (first_cpu s)).
  - injection H as <-. by eapply (safe_flush true _ (first_cpu s)).
  - destruct p; try discriminate H. apply bind_Ok in H as (t & _ & H). injection H as <-.
    by eapply (safe_flush (val =? 0) _ (first_cpu s)).
  - destruct (flush_page_ok (tlb (first_cpu s)) (val .& TARGET_PAGE_MASK) Hwf)
      as (t' & Ht & Hwf' & _).
    rewrite Ht, bind_ret in H. apply bind_Ok in H as (t & _ & H). injection H as <-.
    split; [done|]. right. repeat split. by left.
Qed.

(** C24: No write to the system control coprocessor lets the generated code use
    a translation made under another system control register (c1), domain access
    register (c3), FCSE process id or, without a protection unit, context id
    (c13): whatever register is written, either these keep their values, or
    afterwards no access hits the software TLB.  The TLB stays well formed.  These
    are all the registers meant: the bases and the control of the page tables (c2)
    and the regions of a protection unit (c6) are written without a flush, and
    what was translated before stays until the guest flushes it. *)
Theorem cp15_write_flushes_translations insn val s s' :
  tlb_wf (tlb (first_cpu s)) → set_cp15_reg insn val s = Ok s' →
  tlb_wf (tlb (first_cpu s')) ∧
  ((∀ m x a, 0 ≤ m < NB_MMU_MODES → tlb_hit (tlb (first_cpu s')) m x a = Ok false) ∨
   (c1_sys (cp15 (first_cpu s')) = c1_sys (cp15 (first_cpu s)) ∧
    c3 (cp15 (first_cpu s')) = c3 (cp15 (first_cpu s)) ∧
    c13_fcse (cp15 (first_cpu s')) = c13_fcse (cp15 (first_cpu s)) ∧
    (c13_context (cp15 (first_cpu s')) = c13_context (cp15 (first_cpu s)) ∨
     arm_feature (first_cpu s) ARM_FEATURE_MPU = true))).
Proof.
  intros Hwf. unfold set_cp15_reg. destruct (cp15_crn insn =? 8).
  - by apply set_c8_safe.
  - intros (e & He & H)%bind_Ok. injection H as <-. by apply (set_cp15_env_safe insn val).
Qed.
End writes.

(** ** TLB maintenance reaches both TLBs *)

(** The instruction that writes register [crn], [op1], [crm], [op2]. *)
Definition cp15_insn (crn op1 crm op2 : Z) : Z :=
  (op1 << 21) .| (crn << 16) .| (op2 << 5) .| crm.

Lemma c8_is_set_c8 {PR : PhysRead} insn val s :
  cp15_crn insn = 8 → set_cp15_reg insn val s = set_c8 (cp15_op2 insn) val s.
Proof. unfold set_cp15_reg. by intros ->. Qed.

(** C23: TLB maintenance with the tracer on never faults and reaches both TLBs
    for the opcodes 0 to 2.  "Invalidate all", "invalidate entry" and "invalidate
    by ASID": everything they name misses afterwards in the tracer, which keeps
    what they do not name; it misses in the software TLB too, which is flushed
    whole, for an entry the one 1 KB slice.  Opcode 3, "invalidate by MVA, all
    address spaces", reaches the software TLB only: it is flushed whole, and the
    tracer keeps all its entries.  Any other opcode is refused. *)
Theorem c8_flushes_both_tlbs {PR : PhysRead} insn val s tl :
  cp15_crn insn = 8 →
  tlb_wf (tlb (first_cpu s)) → sl_wf (tr s) → truth (started (tr s)) = true →
  sl_tlb (tr s) = Some tl →
  (cp15_op2 insn = 0 → ∃ s', set_cp15_reg insn val s = Ok s' ∧ sl_wf (tr s') ∧
     flushed (tlb (first_cpu s')) ∧ ∀ addr a ins, misses (page addr) a ins (tr s')) ∧
  (cp15_op2 insn = 1 → ∃ s', set_cp15_reg insn val s = Ok s' ∧ sl_wf (tr s') ∧
     (∀ m x a, 0 ≤ m < NB_MMU_MODES → page_of x = page_of val →
        tlb_hit (tlb (first_cpu s')) m x a = Ok false) ∧
     (∀ ins, misses (page val) (val .& 0xFF) ins (tr s')) ∧
     flushes_only (λ e, va_asid e = (page val, val .& 0xFF)) tl (tr s) (tr s')) ∧
  (cp15_op2 insn = 2 → ∃ s', set_cp15_reg insn val s = Ok s' ∧ sl_wf (tr s') ∧
     flushed (tlb (first_cpu s')) ∧ (∀ addr ins, misses (page addr) val ins (tr s')) ∧
     flushes_only (λ e, asid e = val) tl (tr s) (tr s')) ∧
  (cp15_op2 insn = 3 → ∃ s', set_cp15_reg insn val s = Ok s' ∧
     flushed (tlb (first_cpu s')) ∧ tr s' = tr s) ∧
  (¬ 0 ≤ cp15_op2 insn ≤ 3 → set_cp15_reg insn val s = bad_reg).
Proof.
  intros Hc8 Hwf Hsl Hst Htl. rewrite (c8_is_set_c8 insn val s Hc8).
  destruct (flush_ops_ok (tr s) tl Hsl Hst Htl) as (He & Ha & t & Ht & Htwf & Htm & _).
  split_and!; [intros ->..|]; unfold set_c8; cbv zeta.
  - exists (mkTraced (flush_env false (first_cpu s)) t).
    change (tr (s <| first_cpu := _ |>)) with (tr s). rewrite Ht, bind_ret.
    split; [done|]. split; [done|]. split; [|done]. by apply flush_env_flushed.
  - destruct (flush_page_ok (tlb (first_cpu s)) (val .& TARGET_PAGE_MASK) Hwf)
      as (t1 & Ht1 & Hwf1 & Hm & _).
    destruct (He val) as (t2 & Ht2 & Ht2wf & Ht2m & Ht2k).
    exists (mkTraced ((first_cpu s) <| tlb := t1 |>) t2). rewrite Ht1, bind_ret.
    change (tr (s <| first_cpu := _ |>)) with (tr s). rewrite Ht2, bind_ret.
    split; [done|]. split; [done|]. split; [|done].
    intros m x a Hi Hx. apply Hm; [done|].
    rewrite Hx. symmetry. exact (page_of_idem val).
  - destruct (Ha val) as (t2 & Ht2 & Ht2wf & Ht2m & Ht2k).
    exists (mkTraced (flush_env (val =? 0) (first_cpu s)) t2).
    change (tr (s <| first_cpu := _ |>)) with (tr s). rewrite Ht2, bind_ret.
    split; [done|]. split; [done|]. split; [|done]. by apply flush_env_flushed.
  - eexists. split; [done|]. split; [by apply flush_env_flushed|done].
  - intros Hop. destruct (cp15_op2 insn) as [|[[p|p|]|[p|p|]|]|p]; try done; lia.
Qed.

(** Pages of the same 4 KB page share the index bits above the slice. *)
Lemma slice_index x v : x .& 0xFFFFF000 = v .& 0xFFFFF000 → page_of x ≠ page_of v →
  tlb_index x ≠ tlb_index v.
Proof.
  intros H4k Hne Heq. apply Hne. unfold page_of, TARGET_PAGE_MASK. apply Z.bits_inj'. intros n Hn.
  rewrite !Z.land_spec. destruct (Z.testbit 0xFFFFFC00 n) eqn:Hm;
    [rewrite !andb_true_r|by rewrite !andb_false_r].
  destruct (decide (n < 12)) as [Hl|Hl].
  - assert (10 ≤ n) as Hn10.
    { destruct (decide (10 ≤ n)); [done|exfalso].
      assert (n = 0 ∨ n = 1 ∨ n = 2 ∨ n = 3 ∨ n = 4 ∨ n = 5 ∨ n = 6 ∨ n = 7 ∨ n = 8 ∨ n = 9)
        as Hc by lia.
      repeat destruct Hc as [Hc|Hc]; subst n; discriminate Hm. }
    apply (f_equal (λ z, Z.testbit z (n - 10))) in Heq. unfold tlb_index, TARGET_PAGE_BITS in Heq.
    rewrite !Z.land_spec, !Z.shiftr_spec in Heq by lia.
    replace (n - 10 + 10) with n in Heq by lia.
    assert (Z.testbit (CPU_TLB_SIZE - 1) (n - 10) = true) as Hb.
    { assert (n = 10 ∨ n = 11) as [-> | ->] by lia; reflexivity. }
    by rewrite Hb, !andb_true_r in Heq.
  - apply (f_equal (λ z, Z.testbit z n)) in H4k. rewrite !Z.land_spec in H4k.
    assert (Z.testbit 0xFFFFF000 n = true) as Hb.
    { destruct (decide (n < 32)).
      - assert (0 ≤ n < 32) as Hr by lia. clear - Hl Hr. revert n Hr Hl.
        match goal with |- ∀ n, _ → @?P n => apply (bit_cases P) end.
        repeat apply Forall_cons_2; [..|apply Forall_nil_2]; cbv beta; intros; done || lia.
      - exfalso. rewrite (mask_testbit 0xFFFFFC00 n 32) in Hm by lia. done. }
    by rewrite Hb, !andb_true_r in H4k.
Qed.

(** "invalidate entry" does not invalidate a 4 KB page of the guest: the
    software TLB caches the page in four 1 KB slices and only the slice the
    operand points into is flushed, so a translation cached for another slice
    of the page being invalidated still hits. *)
Theorem c8_entry_keeps_other_slices {PR : PhysRead} insn val s s' m x a :
  cp15_crn insn = 8 → cp15_op2 insn = 1 → tlb_wf (tlb (first_cpu s)) →
  set_cp15_reg insn val s = Ok s' →
  x .& 0xFFFFF000 = val .& 0xFFFFF000 → page_of x ≠ page_of val →
  tlb_hit (tlb (first_cpu s')) m x a = tlb_hit (tlb (first_cpu s)) m x a.
Proof.
  intros Hc8 Hop Hwf. rewrite (c8_is_set_c8 insn val s Hc8), Hop. unfold set_c8; cbv zeta.
  destruct (flush_page_ok (tlb (first_cpu s)) (val .& TARGET_PAGE_MASK) Hwf)
    as (t1 & Ht1 & _ & _ & _ & _ & Hk & _).
  rewrite Ht1, bind_ret. intros (t2 & _ & H)%bind_Ok H4k Hne. injection H as <-.
  unfold tlb_hit. rewrite <- (Hk m (tlb_index x)); [done|].
  change (val .& TARGET_PAGE_MASK) with (page_of val). rewrite tlb_index_page.
  by apply slice_index.
Qed.

(** ** Reading back what was written *)

(** The registers of an application core that are stored as written: system
    control and coprocessor access, both table bases, domains, fault status and
    address, cache lockdown, performance monitor control, FCSE and context. *)
Definition plain_reg (crn op1 crm op2 : Z) : bool :=
  match crn with
  | 1 => (crm =? 0) && ((op2 =? 0) || (op2 =? 2))
  | 2 => (op2 =? 0) || (op2 =? 1)
  | 3 => true
  | 5 => (op2 =? 0) || (op2 =? 1)
  | 6 => (op2 =? 0) || (op2 =? 2)
  | 9 => (op1 =? 0) && ((crm =? 0) && ((op2 =? 0) || (op2 =? 1)) || (crm =? 12) && (op2 =? 0))
  | 13 => (op2 =? 0) || (op2 =? 1)
  | _ => false
  end.

(** An ARMv7 core with an MMU. *)
Definition v7_core (e : CPUARMState) : Prop :=
  arm_feature e ARM_FEATURE_XSCALE = false ∧ arm_feature e ARM_FEATURE_OMAPCP = false ∧
  arm_feature e ARM_FEATURE_STRONGARM = false ∧ arm_feature e ARM_FEATURE_MPU = false ∧
  arm_feature e ARM_FEATURE_V6 = true ∧ arm_feature e ARM_FEATURE_V7 = true.

(** Brings every feature test of the goal back to CPU [e], whose features the
    hypotheses give. *)
Ltac features e :=
  repeat match goal with
  | |- context [arm_feature ?x ?f] =>
      lazymatch x with e => fail | _ => change (arm_feature x f) with (arm_feature e f) end
  end;
  repeat match goal with H : arm_feature e _ = _ |- _ => rewrite H end.

(** The numbers of the plain registers. *)
Lemma plain_reg_cases (P : Z → Z → Z → Z → Prop) :
  (∀ op1, P 1 op1 0 0 ∧ P 1 op1 0 2) → (∀ op1 crm, P 2 op1 crm 0 ∧ P 2 op1 crm 1) →
  (∀ op1 crm op2, P 3 op1 crm op2) → (∀ op1 crm, P 5 op1 crm 0 ∧ P 5 op1 crm 1) →
  (∀ op1 crm, P 6 op1 crm 0 ∧ P 6 op1 crm 2) → (P 9 0 0 0 ∧ P 9 0 0 1 ∧ P 9 0 12 0) →
  (∀ op1 crm, P 13 op1 crm 0 ∧ P 13 op1 crm 1) →
  ∀ crn op1 crm op2, plain_reg crn op1 crm op2 = true → P crn op1 crm op2.
Proof.
  intros H1 H2 H3 H5 H6 (H90 & H91 & H912) H13 crn op1 crm op2. unfold plain_reg.
  repeat case_match; intros Hp; try discriminate Hp; try done;
    repeat (apply andb_prop in Hp as [? Hp] || apply orb_prop in Hp as [Hp|Hp]);
    repeat match goal with H : (_ =? _) = true |- _ => apply Z.eqb_eq in H; subst end;
    first [apply H1 | apply H2 | apply H5 | apply H6 | apply H13 | done].
Qed.

(** C39: on an ARMv7 core with an MMU a write to a plainly stored control
    register succeeds, and reading the register back gives the written word
    and changes nothing. *)
Theorem cp15_write_read {PR : PhysRead} insn val s :
  v7_core (first_cpu s) →
  plain_reg (cp15_crn insn) (cp15_op1 insn) (cp15_crm insn) (cp15_op2 insn) = true →
  ∃ s', set_cp15_reg insn val s = Ok s' ∧
    get_cp15_reg insn (first_cpu s') = Ok (val, first_cpu s').
Proof.
  intros (F1 & F2 & F3 & F4 & F5 & F6). unfold set_cp15_reg, set_cp15_env, get_cp15_reg.
  cbv zeta. set (e := first_cpu s) in *.
  generalize (cp15_crn insn), (cp15_op1 insn), (cp15_crm insn), (cp15_op2 insn).
  apply plain_reg_cases; intros; repeat split;
    unfold set_c1, set_c1_0, set_c2, set_c3_reg, set_c5, set_c6, set_c9, set_c9_0, set_c13;
    features e; cbv iota beta zeta;
    try (destruct (Z.eqb_spec (c1_coproc (cp15 e)) val) as [Hc|Hc]);
    (eexists; split; [reflexivity|]);
    unfold get_c1, get_c2, get_c5, get_c6, get_c9, get_c9_0, get_c13;
    features e; try reflexivity.
  by rewrite <- Hc.
Qed.

(** With a protection unit the basic instruction access permissions
    cannot be read back: a write to c5 with opcode 1 goes to [c5_insn], the read
    with opcode 1 converts [c5_data]. *)
Theorem mpu_insn_permissions_read_data {PR : PhysRead} insn val s :
  arm_feature (first_cpu s) ARM_FEATURE_MPU = true →
  arm_feature (first_cpu s) ARM_FEATURE_OMAPCP = false →
  cp15_crn insn = 5 → cp15_op2 insn = 1 →
  ∃ s', set_cp15_reg insn val s = Ok s' ∧
    c5_insn (cp15 (first_cpu s')) = extended_mpu_ap_bits val ∧
    get_cp15_reg insn (first_cpu s')
      = Ok (simple_mpu_ap_bits (c5_data (cp15 (first_cpu s))), first_cpu s').
Proof.
  intros F1 F2 H5 H1. unfold set_cp15_reg, set_cp15_env, get_cp15_reg. rewrite H5, H1.
  cbv zeta. set (e := first_cpu s) in *. unfold set_c5. features e.
  eexists. split; [reflexivity|]. split; [reflexivity|].
  unfold get_c5. features e. reflexivity.
Qed.

Lemma land_shift_zero x m k : 0 ≤ m < 2 ^ k → 0 ≤ k → (x .& m) >> k = 0.
Proof.
  intros Hm Hk. rewrite Z.shiftr_div_pow2 by done. apply Z.div_small.
  pose proof (land_mask_bound x m). lia.
Qed.

(** A translation request through c7 answers with what the MMU's own walk
    of the operand finds: the physical page (16 MB of it for a supersection on
    ARMv7), or the low four bits of the fault status with the fault flag; the
    domain bits of the status and its extension bits never reach the register
    although the code masks for them. *)
Theorem translation_request_spec {PR : PhysRead} insn val s s' :
  cp15_crn insn = 7 → cp15_op1 insn = 0 → cp15_crm insn = 8 →
  arm_feature (first_cpu s) ARM_FEATURE_V6K = true →
  set_cp15_reg insn val s = Ok s' →
  ∃ r, get_phys_addr (first_cpu s) val (cp15_op2 insn .& 1) (truth (cp15_op2 insn .& 2)) = Ok r ∧
    c7_par (cp15 (first_cpu s')) =
      match r with
      | Mapped phys_addr _ page_size =>
          if (page_size =? 0x1000000) && arm_feature (first_cpu s) ARM_FEATURE_V7
          then (phys_addr .& 0xff000000) .| 2 else phys_addr .& 0xfffff000
      | Fault code => ((code .& 0xf) << 1) .| 1
      end.
Proof.
  intros H7 Hop Hcrm F. unfold set_cp15_reg, set_cp15_env. rewrite H7, Hop, Hcrm. cbv zeta.
  set (e := first_cpu s) in *. unfold set_c7. cbv zeta. features e. cbn [Z.eqb negb].
  intros (e' & He & H)%bind_Ok. injection H as <-.
  destruct (truth (cp15_op2 insn .& 4)); [discriminate He|].
  apply bind_Ok in He as (r & Hr & He). injection He as <-. exists r. split; [exact Hr|].
  destruct r as [phys prot size|code]; [reflexivity|].
  change (par_value e (Fault code) = ((code .& 0xf) << 1) .| 1). unfold par_value.
  change (10 << 1) with 20. change (12 << 1) with 24.
  by rewrite (land_shift_zero code 20 5), (land_shift_zero code 24 6) by lia.
Qed.

(** ** Witnesses *)
Definition demo_cp15 (e : CPUARMState) : traced := mkTraced e (tr demo_traced).

Theorem cp15_write_flushes_translations_witness :
  ∃ s', @set_cp15_reg demo_tables (cp15_insn 1 0 0 0) 0x800001 (demo_cp15 demo_mmu_cpu) = Ok s' ∧
    tlb_wf (tlb (first_cpu s')).
Proof.
  destruct (@set_cp15_reg demo_tables (cp15_insn 1 0 0 0) 0x800001 (demo_cp15 demo_mmu_cpu))
    as [s'|f] eqn:E; [|exfalso; vm_compute in E; discriminate E].
  exists s'. split; [reflexivity|].
  apply (@cp15_write_flushes_translations demo_tables (cp15_insn 1 0 0 0) 0x800001
    (demo_cp15 demo_mmu_cpu) s' tlb_boot_wf E).
Defined.

Theorem c8_flushes_both_tlbs_witness :
  ∃ t s', @set_cp15_reg demo_tables (cp15_insn 8 0 7 2) 5 (mkTraced demo_mmu_cpu t) = Ok s' ∧
    flushed (tlb (first_cpu s')) ∧ ∀ addr ins, misses (page addr) 5 ins (tr s').
Proof.
  destruct (demo_start 2 ltac:(lia)) as (s1 & t & _ & _ & Hwf & _ & Hst & Htlb).
  destruct (@c8_flushes_both_tlbs demo_tables (cp15_insn 8 0 7 2) 5 (mkTraced demo_mmu_cpu t) _
    eq_refl tlb_boot_wf Hwf ltac:(cbn [tr]; rewrite Hst; reflexivity) Htlb) as (_ & _ & H & _).
  destruct (H eq_refl) as (s' & Hs & _ & Hf & Hm & _).
  exists t, s'. split; [exact Hs|]. split; [exact Hf|exact Hm].
Defined.

Theorem c8_entry_keeps_other_slices_witness :
  ∃ s', @set_cp15_reg demo_tables (cp15_insn 8 0 7 1) 0x0 (demo_cp15 demo_mmu_cpu) = Ok s' ∧
    tlb_hit (tlb (first_cpu s')) 1 0x400 Read = tlb_hit (tlb demo_mmu_cpu) 1 0x400 Read.
Proof.
  destruct (@set_cp15_reg demo_tables (cp15_insn 8 0 7 1) 0 (demo_cp15 demo_mmu_cpu))
    as [s'|f] eqn:E; [|exfalso; vm_compute in E; discriminate E].
  exists s'. split; [reflexivity|].
  apply (@c8_entry_keeps_other_slices demo_tables (cp15_insn 8 0 7 1) 0 (demo_cp15 demo_mmu_cpu) s'
    1 0x400 Read eq_refl eq_refl tlb_boot_wf E eq_refl). discriminate.
Defined.

Definition demo_v7_cpu : CPUARMState :=
  add_features [ARM_FEATURE_V6; ARM_FEATURE_V6K; ARM_FEATURE_V7] demo_mmu_cpu.

Theorem cp15_write_read_witness :
  ∃ s', @set_cp15_reg demo_tables (cp15_insn 13 0 0 1) 0x42 (demo_cp15 demo_v7_cpu) = Ok s' ∧
    get_cp15_reg (cp15_insn 13 0 0 1) (first_cpu s') = Ok (0x42, first_cpu s').
Proof.
  apply (@cp15_write_read demo_tables (cp15_insn 13 0 0 1) 0x42 (demo_cp15 demo_v7_cpu));
    [repeat split|reflexivity].
Defined.

Theorem mpu_insn_permissions_read_data_witness :
  ∃ s', @set_cp15_reg demo_tables (cp15_insn 5 0 0 1) 3 (demo_cp15 demo_mpu_cpu) = Ok s' ∧
    c5_insn (cp15 (first_cpu s')) = extended_mpu_ap_bits 3 ∧
    get_cp15_reg (cp15_insn 5 0 0 1) (first_cpu s')
      = Ok (simple_mpu_ap_bits (c5_data (cp15 (first_cpu (demo_cp15 demo_mpu_cpu)))), first_cpu s').
Proof.
  apply (@mpu_insn_permissions_read_data demo_tables (cp15_insn 5 0 0 1) 3
    (demo_cp15 demo_mpu_cpu) eq_refl eq_refl eq_refl eq_refl).
Defined.

Theorem translation_request_spec_witness :
  ∃ s' r, @set_cp15_reg demo_tables (cp15_insn 7 0 8 2) 0x1234 (demo_cp15 demo_v7_cpu) = Ok s' ∧
    @get_phys_addr demo_tables demo_v7_cpu 0x1234 0 true = Ok r ∧
    c7_par (cp15 (first_cpu s')) =
      match r with
      | Mapped phys_addr _ page_size =>
          if (page_size =? 0x1000000) && arm_feature demo_v7_cpu ARM_FEATURE_V7
          then (phys_addr .& 0xff000000) .| 2 else phys_addr .& 0xfffff000
      | Fault code => ((code .& 0xf) << 1) .| 1
      end.
Proof.
  destruct (@set_cp15_reg demo_tables (cp15_insn 7 0 8 2) 0x1234 (demo_cp15 demo_v7_cpu))
    as [s'|f] eqn:E; [|exfalso; vm_compute in E; discriminate E].
  destruct (@translation_request_spec demo_tables (cp15_insn 7 0 8 2) 0x1234
    (demo_cp15 demo_v7_cpu) s' eq_refl eq_refl eq_refl eq_refl E) as (r & Hr & Hpar).
  exists s', r. split; [reflexivity|]. split; [exact Hr|exact Hpar].
Defined.
