(* ===== verification/ArmExc.v ===== *)
(** * Exceptions ([do_interrupt] and the v7-M exception model in
    [target-arm/helper.c])

    Physical memory, the interrupt controller of v7-M cores and the host
    services of semihosting are interfaces: each is a class over its own state,
    and the exception code is written against the classes. *)
From S2P Require Import Prelude SoftTlb ArmCpu ArmMode ArmMmu ArmCp15.

(** ** What the exception code calls *)
Class PhysMem (M : Type) := {
  ldl_mem : Z → M → res Z;          (** [ldl_phys] *)
  stl_mem : Z → Z → M → res M       (** [stl_phys] *)
}.

Class Nvic (N : Type) := {
  armv7m_nvic_set_pending : Z → N → N;
  armv7m_nvic_acknowledge_irq : N → res (Z * N);
  armv7m_nvic_complete_irq : Z → N → N
}.

(** Semihosting: the loads from the instruction stream and the host call, which
    returns the value for r0. *)
Class Semihosting := {
  semihosting_enabled : bool;
  lduw_code : Z → res Z;
  ldl_code : Z → res Z;
  do_arm_semihosting : CPUARMState → res (Z * CPUARMState)
}.

Definition ARMV7M_EXCP_MEM : Z := 4.
Definition ARMV7M_EXCP_USAGE : Z := 6.
Definition ARMV7M_EXCP_SVC : Z := 11.
Definition ARMV7M_EXCP_DEBUG : Z := 12.

(** [env->regs[n] += d] *)
Definition add_reg (n : nat) (d : Z) (e : CPUARMState) : CPUARMState :=
  set_reg n (u32 (reg e n + d)) e.

(** ** v7-M exceptions *)
Section v7m.
Context {M N : Type} `{PhysMem M} `{Nvic N} `{Semihosting}.

(** The CPU with the memory and the interrupt controller it drives. *)
Record m_core := mkMCore { core : CPUARMState; memory : M; nvic : N }.
Definition with_core (e : CPUARMState) (s : m_core) : m_core := mkMCore e (memory s) (nvic s).
Definition with_memory (m : M) (s : m_core) : m_core := mkMCore (core s) m (nvic s).
Definition with_nvic (n : N) (s : m_core) : m_core := mkMCore (core s) (memory s) n.
Definition on_core (f : CPUARMState → CPUARMState) (s : m_core) : m_core :=
  with_core (f (core s)) s.

Definition v7m_push (val : Z) (s : m_core) : res m_core :=
  let s := on_core (add_reg 13 (-4)) s in
  m ← stl_mem (reg (core s) 13) val (memory s);
  Ok (with_memory m s).

Definition v7m_pop (s : m_core) : res (Z * m_core) :=
  val ← ldl_mem (reg (core s) 13) (memory s);
  Ok (val, on_core (add_reg 13 4) s).

(** [env->regs[n] = v7m_pop(env)] *)
Definition pop_reg (n : nat) (s : m_core) : res m_core :=
  '(v, s) ← v7m_pop s; Ok (on_core (set_reg n v) s).
Definition push_reg (n : nat) (s : m_core) : res m_core := v7m_push (reg (core s) n) s.

Definition do_v7m_exception_exit (s : m_core) : res m_core :=
  let type := reg (core s) 15 in
  let s := if exception (v7m (core s)) =? 0 then s
           else with_nvic (armv7m_nvic_complete_irq (exception (v7m (core s))) (nvic s)) s in
  let s := on_core (switch_v7m_sp (of_bool (truth (type .& 4)))) s in
  s ← pop_reg 0 s;
  s ← pop_reg 1 s;
  s ← pop_reg 2 s;
  s ← pop_reg 3 s;
  s ← pop_reg 12 s;
  s ← pop_reg 14 s;
  s ← pop_reg 15 s;
  '(xpsr, s) ← v7m_pop s;
  let s := on_core (λ e, xpsr_write e xpsr 0xfffffdff) s in
  Ok (if truth (xpsr .& 0x200)
      then on_core (λ e, set_reg 13 (reg e 13 .| 4) e) s else s).

(** The return type for the link register. *)
Definition v7m_lr (e : CPUARMState) : Z :=
  let lr := 0xfffffff1 in
  let lr := if truth (current_sp (v7m e)) then lr .| 4 else lr in
  if exception (v7m e) =? 0 then lr .| 8 else lr.

(** Stacking and entering the handler. *)
Definition v7m_enter (xpsr lr : Z) (s : m_core) : res m_core :=
  let '(xpsr, s) := if truth (reg (core s) 13 .& 4)
                    then (xpsr .| 0x200, on_core (add_reg 13 (-4)) s) else (xpsr, s) in
  s ← v7m_push xpsr s;
  s ← push_reg 15 s;
  s ← push_reg 14 s;
  s ← push_reg 12 s;
  s ← push_reg 3 s;
  s ← push_reg 2 s;
  s ← push_reg 1 s;
  s ← push_reg 0 s;
  let s := on_core (switch_v7m_sp 0) s in
  let s := on_core (λ e, e <| uncached_cpsr := uncached_cpsr e .& Z.lnot CPSR_IT |>) s in
  let s := on_core (set_reg 14 lr) s in
  addr ← ldl_mem (u32 (vecbase (v7m (core s)) + exception (v7m (core s)) * 4)) (memory s);
  let s := on_core (set_reg 15 (addr .& 0xfffffffe)) s in
  Ok (on_core (λ e, e <| thumb := addr .& 1 |>) s).

Definition pend (irq : Z) (s : m_core) : res m_core :=
  Ok (with_nvic (armv7m_nvic_set_pending irq (nvic s)) s).

(** A breakpoint may be a semihosting call. *)
Definition v7m_bkpt (s : m_core) : res m_core :=
  if semihosting_enabled then
    w ← lduw_code (reg (core s) 15);
    if w .& 0xff =? 0xab then
      let e := add_reg 15 2 (core s) in
      '(r, e) ← do_arm_semihosting e;
      Ok (with_core (set_reg 0 r e) s)
    else pend ARMV7M_EXCP_DEBUG s
  else pend ARMV7M_EXCP_DEBUG s.

Definition do_interrupt_v7m (s : m_core) : res m_core :=
  let xpsr := xpsr_read (core s) in
  let lr := v7m_lr (core s) in
  let i := exception_index (core s) in
  if i =? EXCP_UDEF then pend ARMV7M_EXCP_USAGE s
  else if i =? EXCP_SWI then pend ARMV7M_EXCP_SVC (on_core (add_reg 15 2) s)
  else if (i =? EXCP_PREFETCH_ABORT) || (i =? EXCP_DATA_ABORT) then pend ARMV7M_EXCP_MEM s
  else if i =? EXCP_BKPT then v7m_bkpt s
  else if i =? EXCP_IRQ then
    '(irq, n) ← armv7m_nvic_acknowledge_irq (nvic s);
    let s := with_nvic n s in
    let s := on_core (on_v7m (λ r, r <| exception := irq |>)) s in
    v7m_enter xpsr lr s
  else if i =? EXCP_EXCEPTION_EXIT then do_v7m_exception_exit s
  else Err (Aborted "Unhandled exception").
End v7m.
Arguments m_core M N : clear implicits.

(** ** Exceptions of the other cores *)
Section classic.
Context `{Semihosting}.

(** Where an exception goes: mode, vector offset, the mask bits set and the
    offset of the return address; or a completed semihosting call. *)
Inductive exc_target : Type :=
| Enter (e : CPUARMState) (new_mode addr mask offset : Z)
| Handled (e : CPUARMState).

Definition swi_target (e : CPUARMState) : res exc_target :=
  let enter := Ok (Enter e ARM_CPU_MODE_SVC 0x08 CPSR_I 0) in
  if semihosting_enabled then
    mask ← (if truth (thumb e)
            then w ← lduw_code (u32 (reg e 15 - 2)); Ok (w .& 0xff)
            else w ← ldl_code (u32 (reg e 15 - 4)); Ok (w .& 0xffffff));
    if ((mask =? 0x123456) && negb (truth (thumb e)) || (mask =? 0xab) && truth (thumb e))
       && negb (user_mode e)
    then '(r, e) ← do_arm_semihosting e; Ok (Handled (set_reg 0 r e))
    else enter
  else enter.

Definition prefetch_target (e : CPUARMState) : exc_target :=
  Enter e ARM_CPU_MODE_ABT 0x0c (CPSR_A .| CPSR_I) 4.

Definition bkpt_target (e : CPUARMState) : res exc_target :=
  if truth (thumb e) && semihosting_enabled then
    w ← lduw_code (reg e 15);
    if (w .& 0xff =? 0xab) && negb (user_mode e) then
      let e := add_reg 15 2 e in
      '(r, e) ← do_arm_semihosting e; Ok (Handled (set_reg 0 r e))
    else Ok (prefetch_target e)
  else Ok (prefetch_target e).

Definition smc_target (e : CPUARMState) : res exc_target :=
  if semihosting_enabled then Err (Aborted "SMC handling under semihosting not implemented")
  else
    let e := if cpu_mode e =? ARM_CPU_MODE_SMC
             then on_cp15 (λ r, r <| c1_secfg := c1_secfg r .& Z.lnot 1 |>) e else e in
    Ok (Enter e ARM_CPU_MODE_SMC 0x08 (CPSR_A .| CPSR_I .| CPSR_F)
          (if truth (thumb e) then 2 else 0)).

Definition exception_target (e : CPUARMState) : res exc_target :=
  let i := exception_index e in
  if i =? EXCP_UDEF then
    Ok (Enter e ARM_CPU_MODE_UND 0x04 CPSR_I (if truth (thumb e) then 2 else 4))
  else if i =? EXCP_SWI then swi_target e
  else if i =? EXCP_BKPT then bkpt_target e
  else if i =? EXCP_PREFETCH_ABORT then Ok (prefetch_target e)
  else if i =? EXCP_DATA_ABORT then Ok (Enter e ARM_CPU_MODE_ABT 0x10 (CPSR_A .| CPSR_I) 8)
  else if i =? EXCP_IRQ then Ok (Enter e ARM_CPU_MODE_IRQ 0x18 (CPSR_A .| CPSR_I) 4)
  else if i =? EXCP_FIQ then
    Ok (Enter e ARM_CPU_MODE_FIQ 0x1c (CPSR_A .| CPSR_I .| CPSR_F) 4)
  else if i =? EXCP_SMC then smc_target e
  else Err (Aborted "Unhandled exception").

(** The vector table the offset is relative to. *)
Definition vector_base (e : CPUARMState) (new_mode : Z) : Z :=
  let high := truth (c1_sys (cp15 e) .& (1 << 13)) in
  if arm_feature e ARM_FEATURE_TRUSTZONE then
    if (new_mode =? ARM_CPU_MODE_SMC) || (cpu_mode e =? ARM_CPU_MODE_SMC)
    then c12_mvbar (cp15 e)
    else if high then 0xffff0000 else c12_vbar (cp15 e)
  else if high then 0xffff0000 else 0.

(** The new status word, once the banks are switched. *)
Definition entry_state (e : CPUARMState) (m mask : Z) : CPUARMState :=
  let e := e <| spsr := cpsr_read e |> in
  let e := e <| condexec_bits := 0 |> in
  let e := e <| uncached_cpsr := (uncached_cpsr e .& Z.lnot CPSR_M) .| m |> in
  let e := e <| uncached_cpsr := uncached_cpsr e .| mask |> in
  if arm_feature e ARM_FEATURE_V4T
  then e <| thumb := of_bool (truth (c1_sys (cp15 e) .& (1 << 30))) |> else e.

(** The return address and the jump to the vector. *)
Definition jump_state (e : CPUARMState) (addr offset : Z) : CPUARMState :=
  set_reg 15 addr (set_reg 14 (u32 (reg e 15 + offset)) e)
    <| interrupt_request := interrupt_request e .| CPU_INTERRUPT_EXITTB |>.

(** What all exceptions share. *)
Definition enter_exception (e : CPUARMState) (new_mode addr mask offset : Z) : res CPUARMState :=
  let addr := u32 (addr + vector_base e new_mode) in
  e ← switch_mode e new_mode;
  Ok (jump_state (entry_state e new_mode mask) addr offset).

(** [do_interrupt] on a core that is not v7-M. *)
Definition do_interrupt_classic (e : CPUARMState) : res CPUARMState :=
  t ← exception_target e;
  match t with
  | Handled e => Ok e
  | Enter e new_mode addr mask offset => enter_exception e new_mode addr mask offset
  end.
End classic.

Definition do_interrupt {M N} `{PhysMem M, Nvic N, Semihosting} (s : m_core M N) :
    res (m_core M N) :=
  if IS_M (core s) then do_interrupt_v7m s
  else e ← do_interrupt_classic (core s); Ok (with_core e s).
