(* ===== verification/ArmExcFacts.v ===== *)
(** * Correctness of exception entry and return *)
From S2P Require Import Prelude SoftTlb ArmCpu ArmMode ArmModeFacts ArmMmu ArmCp15 ArmExc.

(** ** Coming back to the mode an exception left *)
Lemma bank_other l i j x r : 0 ≤ i < zlength l → 0 ≤ j < zlength l → i ≠ j →
  bank (zinsert j x (zinsert i r l)) i = r.
Proof.
  intros Hi Hj Hne. rewrite !bank_zinsert by (rewrite ?zlength_zinsert; done).
  by rewrite decide_False, decide_True by congruence.
Qed.

Lemma take15_parts e e' : length (regs e) = 16%nat → length (regs e') = 16%nat →
  take 8 (regs e) = take 8 (regs e') → regs_8_12 e = regs_8_12 e' →
  reg e 13 = reg e' 13 → reg e 14 = reg e' 14 → take 15 (regs e) = take 15 (regs e').
Proof.
  unfold regs_8_12, reg. generalize (regs e), (regs e'). intros l l' H H'.
  explode l H. explode l' H'. cbn. congruence.
Qed.

Lemma take13_parts e e' : take 13 (regs e) = take 13 (regs e') →
  take 8 (regs e) = take 8 (regs e') ∧ regs_8_12 e = regs_8_12 e'.
Proof.
  intros H. unfold regs_8_12. rewrite !take_drop_commute. change (8 + 5)%nat with 13%nat.
  rewrite H. split; [|done]. apply (f_equal (take 8)) in H. by rewrite !take_take in H.
Qed.

(** The handler may use its own r13, r14 and SPSR; switching back restores what
    the interrupted mode had. *)
Lemma return_regs e m i j e1 :
  cpu_arrays e → bank_number (cpu_mode e) = Ok i → bank_number m = Ok j → i ≠ j →
  (let e0 := loaded j (saved i (swap_fiq (cpu_mode e) m e)) in
   cpu_arrays e1 ∧ cpu_mode e1 = m ∧ banked_r13 e1 = banked_r13 e0 ∧
   banked_r14 e1 = banked_r14 e0 ∧ banked_spsr e1 = banked_spsr e0 ∧
   usr_regs e1 = usr_regs e0 ∧ fiq_regs e1 = fiq_regs e0 ∧
   take 13 (regs e1) = take 13 (regs e0)) →
  ∃ e2, switch_mode e1 (cpu_mode e) = Ok e2 ∧ take 15 (regs e2) = take 15 (regs e) ∧
    spsr e2 = spsr e ∧ psr_fields e2 = psr_fields e1.
Proof.
  intros He Hi Hj Hij. set (m0 := cpu_mode e) in *. set (es := swap_fiq m0 m e).
  cbv zeta. intros (He1 & Hm & E13 & E14 & Es & Eu & Ef & Er).
  assert (m0 ≠ m) as Hne by congruence.
  assert (m0 ≠ cpu_mode e1) as Hne1 by congruence.
  pose proof (switch_mode_eq e1 m0 j i He1 ltac:(by rewrite Hm) Hi Hne1) as H2.
  rewrite Hm in H2. eexists. split; [exact H2|].
  pose proof (switch_mode_psr _ _ _ H2) as Hpsr.
  pose proof (swap_fiq_arrays m0 m e He) as He0. fold es in He0.
  pose proof (swap_fiq_arrays m m0 e1 He1) as He2.
  destruct (swap_fiq_13 m0 m e He) as (A1 & A2 & A3 & A4 & A5 & A6 & A7 & A8).
  fold es in A1, A2, A3, A4, A5, A6, A7, A8.
  destruct (swap_fiq_13 m m0 e1 He1) as (B1 & B2 & B3 & B4 & B5 & B6 & B7 & B8).
  set (e2 := swap_fiq m m0 e1) in *.
  destruct (loaded_parts j (saved i es) (len_regs _ He0)) as (C1 & C2 & _).
  destruct (loaded_parts i (saved j e2) (len_regs _ He2)) as (D1 & D2 & D3 & D4 & D5).
  destruct (take13_parts _ _ Er) as [R1 R2].
  apply bank_number_cases in Hi as [Hi _], Hj as [Hj _]. split; [|split; [|exact Hpsr]].
  - apply take15_parts.
    + apply (len_regs _ (loaded_arrays i _ (saved_arrays j _ He2))).
    + apply He.
    + rewrite D1. change (take 8 (regs e2) = take 8 (regs e)). by rewrite B7, R1, <- A7.
    + rewrite D2. apply (swap_fiq_8_12 m0 m e e1);
        [done|done|congruence|exact Eu|exact Ef|]. rewrite R2. exact C2.
    + rewrite D3. change (bank (zinsert j (reg e2 13) (banked_r13 e2)) i = reg e 13).
      rewrite B4, E13, <- A1. apply bank_other; [..|done]; by rewrite (len_r13 _ He0).
    + rewrite D4. change (bank (zinsert j (reg e2 14) (banked_r14 e2)) i = reg e 14).
      rewrite B5, E14, <- A2. apply bank_other; [..|done]; by rewrite (len_r14 _ He0).
  - change (bank (zinsert j (spsr e2) (banked_spsr e2)) i = spsr e).
    rewrite B6, Es, <- A3. apply bank_other; [..|done]; by rewrite (len_spsr _ He0).
Qed.

(** ** Exception entry *)
Record entered (e : CPUARMState) (m addr mask offset : Z) (e' : CPUARMState) : Prop := {
  ent_mode : cpu_mode e' = m;
  ent_spsr : spsr e' = cpsr_read e;
  ent_lr : reg e' 14 = u32 (reg e 15 + offset);
  ent_pc : reg e' 15 = u32 (addr + vector_base e m);
  ent_mask : uncached_cpsr e' .& mask = mask;
  ent_it : condexec_bits e' = 0;
  ent_irq : interrupt_request e' = interrupt_request e .| CPU_INTERRUPT_EXITTB
}.

Definition exc_mask (mask : Z) : Prop :=
  mask ∈ [CPSR_I; CPSR_A .| CPSR_I; CPSR_A .| CPSR_I .| CPSR_F].

Lemma enter_exception_eq e m addr mask offset e1 : switch_mode e m = Ok e1 →
  enter_exception e m addr mask offset
  = Ok (jump_state (entry_state e1 m mask) (u32 (addr + vector_base e m)) offset).
Proof. unfold enter_exception. cbv zeta. by intros ->. Qed.

Lemma entry_state_keeps e m mask :
  let e' := entry_state e m mask in
  regs e' = regs e ∧ banked_r13 e' = banked_r13 e ∧ banked_r14 e' = banked_r14 e ∧
  banked_spsr e' = banked_spsr e ∧ usr_regs e' = usr_regs e ∧ fiq_regs e' = fiq_regs e ∧
  spsr e' = cpsr_read e ∧ condexec_bits e' = 0 ∧ interrupt_request e' = interrupt_request e ∧
  uncached_cpsr e' = ((uncached_cpsr e .& Z.lnot CPSR_M) .| m) .| mask.
Proof. unfold entry_state. cbv zeta. destruct (arm_feature _ ARM_FEATURE_V4T); by repeat split. Qed.

(** ** The status word of the handler *)
Lemma exc_mask_facts mask : exc_mask mask →
  is_u32 mask ∧ mask .& CPSR_M = 0 ∧ mask .& CACHED_CPSR_BITS = 0.
Proof.
  unfold exc_mask. rewrite !elem_of_cons, elem_of_nil.
  intros [->|[->|[->|[]]]]; (split; [by vm_compute|done]).
Qed.

Lemma mode_facts m j : bank_number m = Ok j → is_u32 m ∧ m .& CACHED_CPSR_BITS = 0.
Proof.
  intros (_ & Hm & _)%bank_number_cases. rewrite <- Hm. split.
  - unfold is_u32. apply land_bits_range. by vm_compute.
  - rewrite <- Z.land_assoc. change (CPSR_M .& CACHED_CPSR_BITS) with 0. apply Z.land_0_r.
Qed.

Lemma entry_word u m j mask : is_u32 u → u .& CACHED_CPSR_BITS = 0 →
  bank_number m = Ok j → exc_mask mask →
  let w := ((u .& Z.lnot CPSR_M) .| m) .| mask in
  is_u32 w ∧ w .& CACHED_CPSR_BITS = 0 ∧ w .& CPSR_M = m ∧ w .& mask = mask.
Proof.
  intros Hu Hc Hj (Hm1 & Hm2 & Hm3)%exc_mask_facts. cbv zeta.
  destruct (mode_facts m j Hj) as [Hm4 Hm5].
  apply bank_number_cases in Hj as (_ & _ & Hlow).
  split; [|split; [|split]].
  - apply is_u32_lor; [apply is_u32_lor; [by apply is_u32_land|done]|done].
  - rewrite !Z.land_lor_distr_l, Hm5, Hm3, !Z.lor_0_r, <- Z.land_assoc,
      (Z.land_comm (Z.lnot _)), Z.land_assoc, Hc. apply Z.land_0_l.
  - by rewrite Z.land_lor_distr_l, Hlow, Hm2, Z.lor_0_r.
  - apply Z.bits_inj'. intros n Hn. rewrite Z.land_spec, !Z.lor_spec.
    destruct (Z.testbit mask n); by rewrite ?orb_true_r, ?andb_false_r.
Qed.

Lemma entry_state_wf e m j mask : cpsr_wf e → bank_number m = Ok j → exc_mask mask →
  cpsr_wf (entry_state e m mask).
Proof.
  intros [H1 H2 H3 H4 H5 H6 H7] Hj Hmask.
  destruct (entry_word (uncached_cpsr e) m j mask H6 H7 Hj Hmask) as (W1 & W2 & _).
  unfold entry_state. cbv zeta.
  destruct (arm_feature _ ARM_FEATURE_V4T); split; try done; apply of_bool_range.
Qed.

Lemma set_regs_arrays n v e : cpu_arrays e → cpu_arrays (set_reg n v e).
Proof. intros [H1 H2 H3 H4 H5 H6]. split; cbn; by rewrite ?length_insert. Qed.

Lemma same_arrays e e' : regs e' = regs e → banked_r13 e' = banked_r13 e →
  banked_r14 e' = banked_r14 e → banked_spsr e' = banked_spsr e → usr_regs e' = usr_regs e →
  fiq_regs e' = fiq_regs e → cpu_arrays e → cpu_arrays e'.
Proof. intros E1 E2 E3 E4 E5 E6 [H1 H2 H3 H4 H5 H6]. split; congruence. Qed.

Lemma jump_state_facts e addr offset : cpu_arrays e →
  let e' := jump_state e addr offset in
  cpu_arrays e' ∧ take 13 (regs e') = take 13 (regs e) ∧
  reg e' 14 = u32 (reg e 15 + offset) ∧ reg e' 15 = addr ∧
  psr_fields e' = psr_fields e ∧ spsr e' = spsr e.
Proof.
  intros He. cbv zeta. pose proof (len_regs _ He) as Hl.
  split; [|split; [|split; [|split; [|done]]]].
  - destruct (set_regs_arrays 15 addr _ (set_regs_arrays 14 (u32 (reg e 15 + offset)) e He)).
    by split.
  - unfold jump_state, set_reg. cbn. rewrite !take_insert_ge by lia. done.
  - unfold jump_state, set_reg, reg. cbn. revert Hl. generalize (regs e). intros l Hl.
    explode l Hl. done.
  - unfold jump_state, set_reg, reg. cbn. revert Hl. generalize (regs e). intros l Hl.
    explode l Hl. done.
Qed.

(** ** Returning through the saved status word *)
Lemma land_lxor_l a b m : (a .^ b) .& m = (a .& m) .^ (b .& m).
Proof.
  apply Z.bits_inj'. intros n _. rewrite !Z.lxor_spec, !Z.land_spec, Z.lxor_spec.
  by destruct (Z.testbit a n), (Z.testbit b n), (Z.testbit m n).
Qed.

Lemma cpsr_read_mode e : cpsr_wf e → cpsr_read e .& CPSR_M = cpu_mode e.
Proof.
  intros Hwf. apply Z.bits_inj'. intros n Hn. unfold cpu_mode. rewrite !Z.land_spec.
  destruct (Z.testbit CPSR_M n) eqn:Hm; [|by rewrite !andb_false_r].
  assert (n < 5) as Hn5.
  { destruct (decide (n < 5)); [done|]. by rewrite (mask_testbit CPSR_M n 5) in Hm by (done || lia). }
  rewrite cpsr_read_bit, cpsr_bit_uncached; [done|lia| |done|lia].
  assert (n = 0 ∨ n = 1 ∨ n = 2 ∨ n = 3 ∨ n = 4) as Hc by lia.
  repeat destruct Hc as [->|Hc]; [done..|by subst n].
Qed.

Lemma cpsr_write_flags_regs val mask e :
  let e' := cpsr_write_flags val mask e in
  regs e' = regs e ∧ banked_r13 e' = banked_r13 e ∧ banked_r14 e' = banked_r14 e ∧
  banked_spsr e' = banked_spsr e ∧ usr_regs e' = usr_regs e ∧ fiq_regs e' = fiq_regs e.
Proof.
  cbv zeta. unfold cpsr_write_flags, write_nzcv, write_q, write_it.
  destruct (truth (mask .& CPSR_NZCV)), (truth (mask .& CPSR_Q)), (truth (mask .& CPSR_T)),
    (truth (mask .& CPSR_IT_0_1)), (truth (mask .& CPSR_IT_2_7)), (truth (mask .& CPSR_GE));
    repeat split.
Qed.

Lemma cpsr_read_u32 e : is_u32 (cpsr_read e).
Proof. apply u32_bound. Qed.

Definition CPSR_ALL : Z := 0xffffffff.

Lemma exception_round_trip e m i j addr mask offset :
  cpsr_wf e → cpu_arrays e → bank_number (cpu_mode e) = Ok i → bank_number m = Ok j → i ≠ j →
  exc_mask mask →
  ∃ e', enter_exception e m addr mask offset = Ok e' ∧ entered e m addr mask offset e' ∧
  ∃ e'', cpsr_write e' (spsr e') CPSR_ALL = Ok e'' ∧ cpsr_read e'' = cpsr_read e ∧
    take 15 (regs e'') = take 15 (regs e) ∧ spsr e'' = spsr e.
Proof.
  intros Hwf He Hi Hj Hij Hmask.
  assert (m ≠ cpu_mode e) as Hne by congruence.
  pose proof (switch_mode_eq e m i j He Hi Hj Hne) as Hsw.
  set (e1 := loaded j (saved i (swap_fiq (cpu_mode e) m e))) in *.
  pose proof (switch_mode_psr _ _ _ Hsw) as Hpsr1.
  pose proof (psr_fields_wf _ _ Hpsr1 Hwf) as Hwf1.
  pose proof (cpsr_read_psr _ _ Hpsr1) as Hread1.
  rewrite (enter_exception_eq _ _ _ _ _ _ Hsw).
  destruct (entry_state_keeps e1 m mask) as (K1 & K2 & K3 & K4 & K5 & K6 & K7 & K8 & K9 & K10).
  pose proof (entry_state_wf e1 m j mask Hwf1 Hj Hmask) as Hwf2.
  destruct (entry_word _ m j mask (wf_uncached _ Hwf1) (wf_disjoint _ Hwf1) Hj Hmask)
    as (_ & _ & W3 & W4). rewrite <- K10 in W3, W4.
  set (e2 := entry_state e1 m mask) in *. clearbody e2.
  assert (cpu_arrays e1) as He1
    by (apply loaded_arrays, saved_arrays, swap_fiq_arrays; done).
  pose proof (same_arrays e1 e2 K1 K2 K3 K4 K5 K6 He1) as He2.
  set (pc := u32 (addr + vector_base e m)).
  destruct (jump_state_facts e2 pc offset He2) as (He3 & J13 & J14 & J15 & Jpsr & Jspsr).
  assert (interrupt_request (jump_state e2 pc offset)
          = interrupt_request e2 .| CPU_INTERRUPT_EXITTB) as Jirq by done.
  assert (banked_r13 (jump_state e2 pc offset) = banked_r13 e1 ∧
          banked_r14 (jump_state e2 pc offset) = banked_r14 e1 ∧
          banked_spsr (jump_state e2 pc offset) = banked_spsr e1 ∧
          usr_regs (jump_state e2 pc offset) = usr_regs e1 ∧
          fiq_regs (jump_state e2 pc offset) = fiq_regs e1) as (Jb1 & Jb2 & Jb3 & Jb4 & Jb5).
  { rewrite <- K2, <- K3, <- K4, <- K5, <- K6. done. }
  set (e3 := jump_state e2 pc offset) in *. clearbody e3.
  assert (reg e2 15 = reg e 15) as Hpc.
  { unfold reg at 1. rewrite K1. fold (reg e1 15).
    destruct (loaded_parts j (saved i (swap_fiq (cpu_mode e) m e))
      (len_regs _ (swap_fiq_arrays (cpu_mode e) m e He))) as (_ & _ & _ & _ & H15).
    fold e1 in H15. rewrite H15.
    change (reg (swap_fiq (cpu_mode e) m e) 15 = reg e 15). by apply swap_fiq_13. }
  assert (uncached_cpsr e3 = uncached_cpsr e2 ∧ condexec_bits e3 = condexec_bits e2) as [Ju Jc].
  { unfold psr_fields in Jpsr. by injection Jpsr. }
  assert (interrupt_request e1 = interrupt_request e) as Hirq.
  { change (interrupt_request (swap_fiq (cpu_mode e) m e) = interrupt_request e).
    unfold swap_fiq. by repeat destruct (_ =? _). }
  exists e3. split; [done|]. split.
  { split; unfold cpu_mode; rewrite ?Ju, ?Jc, ?Jspsr, ?J14, ?J15, ?Jirq, ?K7, ?K9, ?Hpc, ?Hread1, ?Hirq; done. }
  rewrite Jspsr, K7, Hread1. set (val := cpsr_read e).
  assert (cpsr_wf e3) as Hwf3 by (by apply (psr_fields_wf e2)).
  destruct (cpsr_write_flags_regs val CPSR_ALL e3) as (F1 & F2 & F3 & F4 & F5 & F6).
  destruct (cpsr_write_flags_spec val CPSR_ALL e3) as [_ Fu].
  set (ef := cpsr_write_flags val CPSR_ALL e3) in *.
  assert (cpu_mode ef = m) as Hmf by (unfold cpu_mode; by rewrite Fu, Ju).
  assert (val .& CPSR_M = cpu_mode e) as Hval by by apply cpsr_read_mode.
  destruct (return_regs e m i j ef He Hi Hj Hij) as (e4 & Hs4 & R1 & R2 & R3).
  { fold e1. split; [by apply (same_arrays e3)|]. rewrite F1, F2, F3, F4, F5, F6, J13, K1.
    done. }
  assert (cpsr_write e3 val CPSR_ALL
    = Ok (e4 <| uncached_cpsr := (uncached_cpsr e4 .& Z.lnot (CPSR_ALL .& Z.lnot CACHED_CPSR_BITS))
                 .| (val .& (CPSR_ALL .& Z.lnot CACHED_CPSR_BITS)) |>)) as Hw.
  { unfold cpsr_write. cbv zeta. fold ef. rewrite <- Z.land_assoc.
    change (CPSR_ALL .& CPSR_M) with CPSR_M. rewrite land_lxor_l, Hval.
    fold (cpu_mode ef). rewrite Hmf.
    assert (truth (m .^ cpu_mode e) = true) as ->.
    { unfold truth. apply negb_true_iff, Z.eqb_neq. intros H%Z.lxor_eq. congruence. }
    rewrite Hs4, bind_ret. done. }
  eexists. split; [exact Hw|]. split; [|split; [exact R1|exact R2]].
  apply cpsr_write_ok in Hw as [_ ->]; [|done|apply cpsr_read_u32|by vm_compute|].
  - apply u32_ext.
    + apply is_u32_lor; apply is_u32_land; apply cpsr_read_u32.
    + apply cpsr_read_u32.
    + intros n Hn. rewrite Z.lor_spec, !Z.land_spec, Z.lnot_spec by lia.
      assert (Z.testbit CPSR_ALL n = true) as ->.
      { revert n Hn. each_bit; done. }
      cbn. by rewrite andb_false_r, andb_true_r.
  - repeat (apply Forall_cons_2; [by right|]). apply Forall_nil_2.
Qed.

Lemma target_mask `{Semihosting} e e0 m addr mask offset :
  exception_target e = Ok (Enter e0 m addr mask offset) → exc_mask mask.
Proof.
  assert (exc_mask CPSR_I ∧ exc_mask (CPSR_A .| CPSR_I) ∧
          exc_mask (CPSR_A .| CPSR_I .| CPSR_F)) as (M1 & M2 & M3).
  { unfold exc_mask. rewrite !elem_of_cons. tauto. }
  unfold exception_target, swi_target, bkpt_target, smc_target, prefetch_target. cbv zeta.
  repeat match goal with
  | |- (if ?b then _ else _) = _ → _ => destruct b
  | |- Ok _ = Ok _ → _ => intros [= <- <- <- <- <-]; done
  | |- Ok _ = Ok _ → _ => intros [=]
  | |- Err _ = Ok _ → _ => done
  | |- (_ ≫= _) = _ → _ => intros (? & _ & Hk)%bind_Ok; revert Hk
  | |- context [let '(_, _) := ?p in _] => destruct p
  end.
Qed.

(** C32: taking an exception and returning from it is transparent to the
    interrupted program.  Whenever [do_interrupt] vectors to a mode with other
    banked registers, it saves the whole status word in that mode's SPSR, sets
    the mode and the interrupt masks, clears the IT state, points r14 behind
    the interrupted instruction by the exception's offset, jumps to the vector
    and asks for the end of the translation block; writing the SPSR back to
    the status register then restores the status word, r0-r14 and the SPSR of
    the interrupted mode. *)
Theorem exception_entry_and_return `{Semihosting} e m i j addr mask offset :
  cpsr_wf e → cpu_arrays e →
  bank_number (cpu_mode e) = Ok i → bank_number m = Ok j → i ≠ j →
  exception_target e = Ok (Enter e m addr mask offset) →
  ∃ e', do_interrupt_classic e = Ok e' ∧
    cpu_mode e' = m ∧ spsr e' = cpsr_read e ∧ uncached_cpsr e' .& mask = mask ∧
    condexec_bits e' = 0 ∧ reg e' 14 = u32 (reg e 15 + offset) ∧
    reg e' 15 = u32 (addr + vector_base e m) ∧
    interrupt_request e' = interrupt_request e .| CPU_INTERRUPT_EXITTB ∧
  ∃ e'', cpsr_write e' (spsr e') 0xffffffff = Ok e'' ∧ cpsr_read e'' = cpsr_read e ∧
    take 15 (regs e'') = take 15 (regs e) ∧ spsr e'' = spsr e.
Proof.
  intros Hwf He Hi Hj Hij Ht. unfold do_interrupt_classic. rewrite Ht, bind_ret.
  destruct (exception_round_trip e m i j addr mask offset Hwf He Hi Hj Hij (target_mask _ _ _ _ _ _ Ht))
    as (e' & H1 & [E1 E2 E3 E4 E5 E6 E7] & Hret).
  exists e'. done.
Qed.

Definition no_semihosting : Semihosting :=
  {| semihosting_enabled := false; lduw_code := λ _, Ok 0; ldl_code := λ _, Ok 0;
     do_arm_semihosting := λ e, Ok (0, e) |}.

(** The demo CPU in user mode takes an interrupt. *)
Definition demo_user_cpu : CPUARMState :=
  demo_cpu <| uncached_cpsr := ARM_CPU_MODE_USR |> <| exception_index := EXCP_IRQ |>.

Theorem exception_entry_and_return_witness :
  ∃ e', @do_interrupt_classic no_semihosting demo_user_cpu = Ok e' ∧
    reg e' 14 = 119 ∧ reg e' 15 = 0x18 ∧
  ∃ e'', cpsr_write e' (spsr e') 0xffffffff = Ok e'' ∧
    cpsr_read e'' = cpsr_read demo_user_cpu ∧ take 15 (regs e'') = take 15 (regs demo_user_cpu).
Proof.
  destruct (@exception_entry_and_return no_semihosting demo_user_cpu ARM_CPU_MODE_IRQ 0 4 0x18
    (CPSR_A .| CPSR_I) 4) as (e' & H1 & _ & _ & _ & _ & H2 & H3 & _ & e'' & H4 & H5 & H6 & _).
  - by split; vm_compute.
  - by split.
  - reflexivity.
  - reflexivity.
  - discriminate.
  - reflexivity.
  - exists e'. split; [exact H1|]. split; [exact H2|]. split; [exact H3|].
    exists e''. split; [exact H4|]. split; [exact H5|exact H6].
Defined.
