(* ===== verification/PhysMem.v ===== *)
(** * Guest physical memory ([exec.c])

    Loads and stores by physical address: RAM pages are bytes of host memory
    behind the RAM blocks, other pages go to the I/O handler tables, whose
    functions are the interface [IoPorts].  Host and guest are little endian. *)
From S2P Require Import Prelude SoftTlb ArmMmu.

Definition IO_MEM_SHIFT : Z := 3.
Definition IO_MEM_NB_ENTRIES : Z := 128.
Definition CODE_DIRTY_FLAG : Z := 0x02.

(** The handler tables [io_mem_read] and [io_mem_write] with their opaque
    arguments: table index, log2 of the width, address. *)
Class IoPorts (D : Type) := {
  io_mem_read : Z → Z → Z → D → Z * D;
  io_mem_write : Z → Z → Z → Z → D → D
}.

Record physmem (D : Type) := mkPhysMem {
  mach : machine;
  ram : Z → Z;                     (** host memory, by address *)
  devs : D;
  tb_invalidated : list (Z * Z);   (** the ranges of [tb_invalidate_phys_page_range] calls *)
  in_migration : bool
}.
Arguments mkPhysMem {D}. Arguments mach {D}. Arguments ram {D}. Arguments devs {D}.
Arguments tb_invalidated {D}. Arguments in_migration {D}.

Section physmem.
Context {D : Type} `{IoPorts D}.
Implicit Types s : physmem D.

Definition with_mach (m : machine) s : physmem D :=
  mkPhysMem m (ram s) (devs s) (tb_invalidated s) (in_migration s).
Definition with_ram (r : Z → Z) s : physmem D :=
  mkPhysMem (mach s) r (devs s) (tb_invalidated s) (in_migration s).
Definition with_devs (d : D) s : physmem D :=
  mkPhysMem (mach s) (ram s) d (tb_invalidated s) (in_migration s).
Definition tb_invalidate_phys_page_range (start stop : Z) s : physmem D :=
  mkPhysMem (mach s) (ram s) (devs s) ((start, stop) :: tb_invalidated s) (in_migration s).

(** ** Host memory *)

(** [ldub_p], [lduw_p], [ldl_p], [ldq_p] for 1, 2, 4 and 8 bytes. *)
Fixpoint ld_p (n : nat) (p : Z) (r : Z → Z) : Z :=
  match n with O => 0 | S n => u8 (r p) .| (ld_p n (p + 1) r << 8) end.

Definition put_byte (p v : Z) (r : Z → Z) : Z → Z := λ q, if q =? p then u8 v else r q.
Fixpoint st_p (n : nat) (p v : Z) (r : Z → Z) : Z → Z :=
  match n with O => r | S n => st_p n (p + 1) (v >> 8) (put_byte p v r) end.

(** [memcpy] from and to a buffer. *)
Fixpoint ld_buf (n : nat) (p : Z) (r : Z → Z) : list Z :=
  match n with O => [] | S n => u8 (r p) :: ld_buf n (p + 1) r end.
Fixpoint st_buf (p : Z) (buf : list Z) (r : Z → Z) : Z → Z :=
  match buf with [] => r | b :: buf => st_buf (p + 1) buf (put_byte p b r) end.

(** ** Pages *)
Definition io_index (pd : Z) : Z := (pd >> IO_MEM_SHIFT) .& (IO_MEM_NB_ENTRIES - 1).

(** The address an I/O handler gets. *)
Definition io_address (addr : Z) (p : option PhysPageDesc) : Z :=
  match p with Some p => u32 (page_flags addr + region_offset p) | None => addr end.

(** The offset in RAM of an address on a RAM page. *)
Definition ram_offset (pd addr : Z) : Z := page_of pd + page_flags addr.

Definition ram_ptr (offset : Z) s : res (Z * physmem D) :=
  '(p, m) ← qemu_get_ram_ptr offset (mach s); Ok (p, with_mach m s).

(** ** Loads *)

(** The host address of a load: the page's base through the block list, plus the
    offset in the page. *)
Definition load_ptr (pd addr : Z) s : res (Z * physmem D) :=
  '(p, s) ← ram_ptr (page_of pd) s; Ok (u64 (p + page_flags addr), s).

Definition ldl_phys_op (addr : Z) s : res (Z * physmem D) :=
  let '(pd, p) := page_descriptor (mach s) addr in
  if is_io pd then
    let '(v, d) := io_mem_read (io_index pd) 2 (io_address addr p) (devs s) in
    Ok (u32 v, with_devs d s)
  else
    '(ptr, s) ← load_ptr pd addr s; Ok (ld_p 4 ptr (ram s), s).

Definition ldq_phys (addr : Z) s : res (Z * physmem D) :=
  let '(pd, p) := page_descriptor (mach s) addr in
  if is_io pd then
    let addr := io_address addr p in
    let '(v, d) := io_mem_read (io_index pd) 2 addr (devs s) in
    let '(w, d) := io_mem_read (io_index pd) 2 (u32 (addr + 4)) d in
    Ok (u32 v .| (u32 w << 32), with_devs d s)
  else
    '(ptr, s) ← load_ptr pd addr s; Ok (ld_p 8 ptr (ram s), s).

(** ** Stores *)

(** [if (!cpu_physical_memory_is_dirty(addr1))] invalidate code, set dirty. *)
Definition mark_dirty (addr1 len : Z) s : res (physmem D) :=
  d ← cpu_physical_memory_is_dirty addr1 (mach s);
  if d : bool then Ok s
  else
    let s := tb_invalidate_phys_page_range addr1 (addr1 + len) s in
    m ← cpu_physical_memory_set_dirty_flags addr1 (0xff .& Z.lnot CODE_DIRTY_FLAG) (mach s);
    Ok (with_mach m s).

Definition is_ram (pd : Z) : bool := page_flags pd =? IO_MEM_RAM.

Definition stl_phys (addr val : Z) s : res (physmem D) :=
  let '(pd, p) := page_descriptor (mach s) addr in
  if negb (is_ram pd) then
    Ok (with_devs (io_mem_write (io_index pd) 2 (io_address addr p) val (devs s)) s)
  else
    let addr1 := ram_offset pd addr in
    '(ptr, s) ← ram_ptr addr1 s;
    mark_dirty addr1 4 (with_ram (st_p 4 ptr val (ram s)) s).

Definition stl_phys_notdirty (addr val : Z) s : res (physmem D) :=
  let '(pd, p) := page_descriptor (mach s) addr in
  if negb (is_ram pd) then
    Ok (with_devs (io_mem_write (io_index pd) 2 (io_address addr p) val (devs s)) s)
  else
    let addr1 := ram_offset pd addr in
    '(ptr, s) ← ram_ptr addr1 s;
    let s := with_ram (st_p 4 ptr val (ram s)) s in
    if in_migration s then mark_dirty addr1 4 s else Ok s.

Definition stq_phys_notdirty (addr val : Z) s : res (physmem D) :=
  let '(pd, p) := page_descriptor (mach s) addr in
  if negb (is_ram pd) then
    let addr := io_address addr p in
    let d := io_mem_write (io_index pd) 2 addr (u32 val) (devs s) in
    Ok (with_devs (io_mem_write (io_index pd) 2 (u32 (addr + 4)) (u32 (val >> 32)) d) s)
  else
    '(ptr, s) ← load_ptr pd addr s;
    Ok (with_ram (st_p 8 ptr val (ram s)) s).

(** ** Blocks of memory *)

(** The width of one I/O access: 4, 2 or 1 bytes, by what is left of the page
    and the alignment. *)
Definition io_width (l addr1 : Z) : Z :=
  if (4 <=? l) && (addr1 .& 3 =? 0) then 4
  else if (2 <=? l) && (addr1 .& 1 =? 0) then 2 else 1.

(** One round of the loop of a write of [buf], of which [l] bytes are on the
    page: the number of bytes done. *)
Definition write_chunk (addr : Z) (buf : list Z) (l : Z) s : res (Z * physmem D) :=
  let '(pd, p) := page_descriptor (mach s) (page_of addr) in
  if negb (is_ram pd) then
    let addr1 := io_address addr p in
    let w := io_width l addr1 in
    let val := ld_p (Z.to_nat w) 0 (λ i, default 0 (buf !! Z.to_nat i)) in
    Ok (w, with_devs (io_mem_write (io_index pd) (Z.log2 w) addr1 val (devs s)) s)
  else
    let addr1 := ram_offset pd addr in
    '(ptr, s) ← ram_ptr addr1 s;
    s ← mark_dirty addr1 l (with_ram (st_buf ptr (take (Z.to_nat l) buf) (ram s)) s);
    Ok (l, s).

(** One round of a read: the bytes read. *)
Definition read_chunk (addr l : Z) s : res (list Z * physmem D) :=
  let '(pd, p) := page_descriptor (mach s) (page_of addr) in
  if is_io pd then
    let addr1 := io_address addr p in
    let w := io_width l addr1 in
    let '(v, d) := io_mem_read (io_index pd) (Z.log2 w) addr1 (devs s) in
    Ok (ld_buf (Z.to_nat w) 0 (λ i, v >> (8 * i)), with_devs d s)
  else
    '(ptr, s) ← load_ptr pd addr s; Ok (ld_buf (Z.to_nat l) ptr (ram s), s).

(** What is left of the page of [addr], at most [len]. *)
Definition page_rest (addr len : Z) : Z := Z.min (TARGET_PAGE_SIZE - page_flags addr) len.

(** The loop of [cpu_physical_memory_rw]; each round does at least one byte, so
    [length buf] rounds are enough. *)
Fixpoint write_loop (fuel : nat) (addr : Z) (buf : list Z) s : res (physmem D) :=
  match buf, fuel with
  | [], _ => Ok s
  | _, O => Err Diverges
  | _, S fuel =>
      '(l, s) ← write_chunk addr buf (page_rest addr (zlength buf)) s;
      write_loop fuel (u32 (addr + l)) (drop (Z.to_nat l) buf) s
  end.
Definition cpu_physical_memory_write (addr : Z) (buf : list Z) s : res (physmem D) :=
  write_loop (length buf) addr buf s.

Fixpoint read_loop (fuel : nat) (addr len : Z) s : res (list Z * physmem D) :=
  if len <=? 0 then Ok ([], s)
  else match fuel with
       | O => Err Diverges
       | S fuel =>
           '(b, s) ← read_chunk addr (page_rest addr len) s;
           '(bs, s) ← read_loop fuel (u32 (addr + zlength b)) (len - zlength b) s;
           Ok (b ++ bs, s)
       end.
Definition cpu_physical_memory_read (addr len : Z) s : res (list Z * physmem D) :=
  read_loop (Z.to_nat len) addr len s.

(** The little-endian value of a buffer, and back. *)
Definition buf_value (buf : list Z) : Z :=
  ld_p (length buf) 0 (λ i, default 0 (buf !! Z.to_nat i)).
Definition value_buf (n : nat) (val : Z) : list Z := ld_buf n 0 (λ i, val >> (8 * i)).

Definition ldub_phys (addr : Z) s : res (Z * physmem D) :=
  '(b, s) ← cpu_physical_memory_read addr 1 s; Ok (buf_value b, s).
Definition lduw_phys (addr : Z) s : res (Z * physmem D) :=
  '(b, s) ← cpu_physical_memory_read addr 2 s; Ok (buf_value b, s).
Definition stb_phys (addr val : Z) s : res (physmem D) :=
  cpu_physical_memory_write addr (value_buf 1 val) s.
Definition stw_phys (addr val : Z) s : res (physmem D) :=
  cpu_physical_memory_write addr (value_buf 2 val) s.
Definition stq_phys (addr val : Z) s : res (physmem D) :=
  cpu_physical_memory_write addr (value_buf 8 val) s.

(** What a page table walk sees: the value of a load. *)
Definition phys_read s : PhysRead := λ a, '(v, _) ← ldl_phys_op a s; Ok v.
End physmem.
