(* ===== verification/PhysMemFacts.v ===== *)
(** * Correctness of guest physical memory *)
From S2P Require Import Prelude SoftTlb ArmModeFacts ArmMmu PhysMem.

Lemma page_flags_bound a : 0 ≤ page_flags a < TARGET_PAGE_SIZE.
Proof. unfold page_flags, TARGET_PAGE_SIZE. pose proof (land_mask_bound a 0x3FF). lia. Qed.

Lemma page_flags_mod a : page_flags a = a mod 1024.
Proof. unfold page_flags. change 0x3FF with (Z.ones 10). by rewrite Z.land_ones. Qed.

Lemma is_ram_not_io pd : is_ram pd = true → is_io pd = false.
Proof.
  unfold is_ram, is_io. intros ->%Z.eqb_eq. done.
Qed.

(** ** Host memory *)
Lemma st_p_other n p v r q : q < p ∨ p + Z.of_nat n ≤ q → st_p n p v r q = r q.
Proof.
  revert p v r. induction n as [|n IH]; intros p v r Hq; [done|]. cbn [st_p].
  rewrite IH by lia. unfold put_byte. by rewrite (proj2 (Z.eqb_neq q p)) by lia.
Qed.

Lemma u8_idem x : u8 (u8 x) = u8 x.
Proof. apply Z.mod_small, Z.mod_pos_bound. lia. Qed.

(** The bytes of a value, reassembled. *)
Lemma byte_split v n : 0 ≤ n → u8 v .| (((v >> 8) mod 2 ^ n) << 8) = v mod 2 ^ (n + 8).
Proof.
  intros Hn. unfold u8. apply Z.bits_inj'. intros k Hk.
  rewrite Z.lor_spec, Z.shiftl_spec by done.
  destruct (decide (k < 8)).
  - rewrite (Z.testbit_neg_r _ (k - 8)), orb_false_r by lia.
    by rewrite !Z.mod_pow2_bits_low by lia.
  - rewrite Z.mod_pow2_bits_high by lia. cbn [orb]. destruct (decide (k < n + 8)).
    + rewrite !Z.mod_pow2_bits_low, Z.shiftr_spec by lia. f_equal. lia.
    + by rewrite !Z.mod_pow2_bits_high by lia.
Qed.

Lemma ld_st_p n p v r : ld_p n p (st_p n p v r) = v mod 2 ^ (8 * Z.of_nat n).
Proof.
  revert p v r. induction n as [|n IH]; intros p v r.
  - cbn. by rewrite Z.mod_1_r.
  - cbn [ld_p st_p]. rewrite st_p_other by lia. rewrite IH. unfold put_byte.
    rewrite Z.eqb_refl, u8_idem, byte_split by lia. f_equal. f_equal. lia.
Qed.

Lemma ld_buf_length n p r : length (ld_buf n p r) = n.
Proof. revert p. induction n as [|n IH]; intros p; [done|]. cbn. by rewrite IH. Qed.

(** ** The RAM block list *)

(** Blocks hold whole pages, do not overlap and stay away from the end of the
    address space. *)
Record blocks_wf (bs : list RAMBlock) : Prop := {
  blk_pages : Forall (λ b, (1024 | offset b) ∧ (1024 | blength b) ∧ 0 ≤ offset b ∧
                           0 ≤ blength b ∧ offset b + blength b < 2 ^ 63) bs;
  blk_disjoint : ∀ b1 b2 a, b1 ∈ bs → b2 ∈ bs → 0 ≤ a < 2 ^ 63 →
                 in_block a b1 = true → in_block a b2 = true → b1 = b2
}.

Lemma in_block_range b a : 0 ≤ offset b → offset b + blength b < 2 ^ 63 → 0 ≤ a < 2 ^ 63 →
  0 ≤ blength b → in_block a b = true ↔ offset b ≤ a < offset b + blength b.
Proof.
  intros Ho Hl Ha Hb. unfold in_block, u64. rewrite Z.ltb_lt.
  destruct (decide (offset b ≤ a)).
  - rewrite Z.mod_small by lia. lia.
  - replace (a - offset b) with (a - offset b + 2 ^ 64 + (-1) * 2 ^ 64) by lia.
    rewrite Z.mod_add, Z.mod_small by lia. lia.
Qed.

(** A page lies in a block when any of its addresses does. *)
Lemma in_block_page bs b pg fl : blocks_wf bs → b ∈ bs → 0 ≤ pg → pg + 1024 < 2 ^ 63 →
  (1024 | pg) → 0 ≤ fl < 1024 → in_block (pg + fl) b = in_block pg b.
Proof.
  intros [Hf _] Hb Hp Hp2 [q ->] Hfl. rewrite Forall_forall in Hf.
  destruct (Hf b Hb) as ([o Ho] & [l Hl] & H1 & H2 & H3).
  apply eq_true_iff_eq. rewrite !in_block_range by lia. rewrite Ho, Hl. nia.
Qed.

Lemma find_block_spec m a b : blocks_wf (ram_blocks m) → 0 ≤ a < 2 ^ 63 →
  b ∈ ram_blocks m → in_block a b = true →
  ∃ m', qemu_get_ram_ptr a m = Ok (u64 (host b + (a - offset b)), m') ∧
    (∀ x, x ∈ ram_blocks m' ↔ x ∈ ram_blocks m) ∧ m' = m <| ram_blocks := ram_blocks m' |>.
Proof.
  intros Hwf Ha Hb Hin. unfold qemu_get_ram_ptr, find_block.
  destruct (list_find _ (ram_blocks m)) as [[n b']|] eqn:E.
  - apply list_find_Some in E as (Hl & Hin' & _).
    assert (b' ∈ ram_blocks m) as Hb' by by apply list_elem_of_lookup_2 in Hl.
    rewrite (blk_disjoint _ Hwf b' b a Hb' Hb Ha Hin' Hin) in Hl |- *.
    destruct (n =? 0)%nat.
    + exists m. split; [done|]. split; [done|by destruct m].
    + eexists. split; [done|]. split; [|done]. intros x. cbn.
      pose proof (delete_Permutation _ _ _ Hl) as P. rewrite P at 2. done.
  - apply list_find_None in E. rewrite Forall_forall in E. by destruct (E b Hb).
Qed.

(** ** A store and the load after it *)
Section store_load.
Context {D : Type} `{IoPorts D}.
Implicit Types s : physmem D.

(** The address is on a RAM page whose descriptor is [pd], in block [b]. *)
Record ram_at s (addr pd : Z) (b : RAMBlock) : Prop := {
  ra_desc : ∃ p, page_descriptor (mach s) addr = (pd, p);
  ra_ram : is_ram pd = true;
  ra_bound : 0 ≤ page_of pd ∧ page_of pd + 1024 < 2 ^ 63 ∧ (1024 | page_of pd);
  ra_block : b ∈ ram_blocks (mach s) ∧ in_block (page_of pd) b = true;
  ra_wf : blocks_wf (ram_blocks (mach s))
}.

(** The host address of a guest address on such a page. *)
Definition host_of (pd addr : Z) (b : RAMBlock) : Z :=
  u64 (host b + (page_of pd + page_flags addr - offset b)).

Lemma ram_at_block s addr pd b : ram_at s addr pd b →
  in_block (ram_offset pd addr) b = true ∧ 0 ≤ ram_offset pd addr < 2 ^ 63.
Proof.
  intros [_ _ (H1 & H2 & H3) [Hb Hin] Hwf]. pose proof (page_flags_bound addr) as Hfl.
  unfold TARGET_PAGE_SIZE in Hfl. unfold ram_offset. split; [|lia].
  by rewrite (in_block_page _ b (page_of pd) (page_flags addr) Hwf Hb H1 H2 H3 Hfl).
Qed.

Lemma ram_ptr_ok s addr pd b : ram_at s addr pd b →
  ∃ m', ram_ptr (ram_offset pd addr) s = Ok (host_of pd addr b, with_mach m' s) ∧
    (∀ x, x ∈ ram_blocks m' ↔ x ∈ ram_blocks (mach s)) ∧
    m' = (mach s) <| ram_blocks := ram_blocks m' |>.
Proof.
  intros Hr. destruct (ram_at_block s addr pd b Hr) as [Hin Hb].
  destruct (find_block_spec (mach s) (ram_offset pd addr) b (ra_wf _ _ _ _ Hr) Hb
    (proj1 (ra_block _ _ _ _ Hr)) Hin) as (m' & Hm & Hbs & He).
  exists m'. unfold ram_ptr. rewrite Hm, bind_ret. done.
Qed.

Lemma load_ptr_ok s addr pd b : ram_at s addr pd b →
  ∃ s', load_ptr pd addr s = Ok (host_of pd addr b, s') ∧ ram s' = ram s.
Proof.
  intros Hr. destruct (ra_bound _ _ _ _ Hr) as (H1 & H2 & H3).
  destruct (find_block_spec (mach s) (page_of pd) b (ra_wf _ _ _ _ Hr) ltac:(lia)
    (proj1 (ra_block _ _ _ _ Hr)) (proj2 (ra_block _ _ _ _ Hr))) as (m' & Hm & _).
  exists (with_mach m' s). unfold load_ptr, ram_ptr. rewrite Hm, !bind_ret.
  split; [|done]. f_equal. f_equal. rewrite u64_add_l. unfold host_of. f_equal. lia.
Qed.

(** A different order of the same blocks is as good. *)
Lemma blocks_wf_same bs bs' : (∀ x, x ∈ bs' ↔ x ∈ bs) → blocks_wf bs → blocks_wf bs'.
Proof.
  intros Hs [H1 H2]. split.
  - rewrite Forall_forall in *. intros x Hx. by apply H1, Hs.
  - intros b1 b2 a Hb1 Hb2. apply H2; by apply Hs.
Qed.

Lemma ram_at_with s addr pd b m' r tbs : ram_at s addr pd b →
  (∀ x, x ∈ ram_blocks m' ↔ x ∈ ram_blocks (mach s)) → l1_phys_map m' = l1_phys_map (mach s) →
  ram_at (mkPhysMem m' r (devs s) tbs (in_migration s)) addr pd b.
Proof.
  intros [H1 H2 H3 [H4 H5] H6] Hbs Hpm. split; try done.
  - unfold page_descriptor, phys_page_find in *. cbn. by rewrite Hpm.
  - split; [by apply Hbs|done].
  - by apply (blocks_wf_same (ram_blocks (mach s))).
Qed.

Lemma mark_dirty_ok addr1 len s s' : mark_dirty addr1 len s = Ok s' →
  ram s' = ram s ∧ devs s' = devs s ∧ in_migration s' = in_migration s ∧
  ram_blocks (mach s') = ram_blocks (mach s) ∧ l1_phys_map (mach s') = l1_phys_map (mach s) ∧
  (cpu_physical_memory_is_dirty addr1 (mach s) = Ok true ∧ s' = s ∨
   cpu_physical_memory_is_dirty addr1 (mach s) = Ok false ∧
   tb_invalidated s' = (addr1, addr1 + len) :: tb_invalidated s).
Proof.
  unfold mark_dirty. intros (d & Hd & Hk)%bind_Ok. destruct d.
  - injection Hk as <-. repeat split. by left.
  - apply bind_Ok in Hk as (m & Hm & Hk). injection Hk as <-.
    unfold cpu_physical_memory_set_dirty_flags in Hm.
    apply bind_Ok in Hm as (d & _ & Hm). apply bind_Ok in Hm as (ds & _ & Hm).
    injection Hm as <-. repeat split. by right.
Qed.

(** A 32-bit store to a RAM page and the load after it agree, although
    every access may reorder the RAM block list: [ldl_phys] returns the stored
    word.  No other byte of host memory changes, and either the page was fully
    dirty or the translation blocks made from the four bytes are invalidated. *)
Theorem stl_phys_ldl_phys s addr pd b val s' :
  ram_at s addr pd b → stl_phys addr val s = Ok s' →
  (∃ s'', ldl_phys_op addr s' = Ok (u32 val, s'')) ∧
  (∀ q, q < host_of pd addr b ∨ host_of pd addr b + 4 ≤ q → ram s' q = ram s q) ∧
  (cpu_physical_memory_is_dirty (ram_offset pd addr) (mach s) = Ok true ∨
   tb_invalidated s' = (ram_offset pd addr, ram_offset pd addr + 4) :: tb_invalidated s).
Proof.
  intros Hr. destruct (ra_desc _ _ _ _ Hr) as [p Hp]. unfold stl_phys. rewrite Hp.
  rewrite (ra_ram _ _ _ _ Hr). cbn [negb].
  destruct (ram_ptr_ok s addr pd b Hr) as (m' & -> & Hbs & Hm'). rewrite bind_ret.
  set (r := st_p 4 (host_of pd addr b) val (ram s)).
  intros Hk. change (with_ram _ _) with (with_ram r (with_mach m' s)) in Hk.
  apply mark_dirty_ok in Hk as (K1 & K2 & K3 & K4 & K5 & K6).
  assert (l1_phys_map m' = l1_phys_map (mach s)) as Hpm by (rewrite Hm'; done).
  assert (cpu_physical_memory_is_dirty (ram_offset pd addr) m'
          = cpu_physical_memory_is_dirty (ram_offset pd addr) (mach s)) as Hdirty
    by (rewrite Hm'; done).
  assert (ram_at s' addr pd b) as Hr'.
  { destruct s' as [m2 r2 d2 tb2 mg2]. cbn in K1, K2, K3, K4, K5. subst d2 mg2.
    apply (ram_at_with s); [done| |by rewrite K5]. intros x. rewrite K4. apply Hbs. }
  split; [|split].
  - destruct (ra_desc _ _ _ _ Hr') as [p' Hp']. unfold ldl_phys_op. rewrite Hp'.
    rewrite (is_ram_not_io _ (ra_ram _ _ _ _ Hr)).
    destruct (load_ptr_ok s' addr pd b Hr') as (s2 & -> & Hram). rewrite bind_ret.
    exists s2. f_equal. f_equal. rewrite Hram, K1. apply (ld_st_p 4).
  - intros q Hq. rewrite K1. by apply st_p_other.
  - change (mach (with_ram r (with_mach m' s))) with m' in K6. rewrite Hdirty in K6.
    destruct K6 as [[K6 _]|[_ K6]]; [by left|by right].
Qed.
End store_load.

(** ** The block transfer loops end *)
Section loops.
Context {D : Type} `{IoPorts D}.
Implicit Types s : physmem D.

Lemma page_rest_bound addr len : 0 < len → 1 ≤ page_rest addr len ≤ len.
Proof. intros Hl. unfold page_rest. pose proof (page_flags_bound addr). lia. Qed.

Lemma io_width_bound l a : 1 ≤ l → 1 ≤ io_width l a ≤ l.
Proof.
  intros Hl. unfold io_width.
  destruct (Z.leb_spec 4 l), (a .& 3 =? 0), (Z.leb_spec 2 l), (a .& 1 =? 0); cbn [andb]; lia.
Qed.

Lemma ram_ptr_no_loop o s : ram_ptr o s ≠ Err Diverges.
Proof.
  unfold ram_ptr, qemu_get_ram_ptr. destruct (find_block (mach s) o) as [[n b]|]; [|discriminate].
  destruct (n =? 0)%nat; discriminate.
Qed.

Lemma bind_no_loop {A B} (m : res A) (k : A → res B) :
  m ≠ Err Diverges → (∀ a, m = Ok a → k a ≠ Err Diverges) → m ≫= k ≠ Err Diverges.
Proof.
  intros Hm Hk. destruct m as [a|f]; [by apply Hk|].
  intros [=]. congruence.
Qed.

Lemma read_chunk_ok addr l s : 1 ≤ l →
  read_chunk addr l s ≠ Err Diverges ∧
  ∀ b s', read_chunk addr l s = Ok (b, s') → 1 ≤ zlength b ≤ l.
Proof.
  intros Hl. unfold read_chunk. destruct (page_descriptor _ _) as [pd p].
  destruct (is_io pd).
  - destruct (io_mem_read _ _ _ _) as [v d]. split; [done|].
    intros b s' [= <- <-]. unfold zlength. rewrite ld_buf_length.
    pose proof (io_width_bound l (io_address addr p) Hl). lia.
  - unfold load_ptr. split.
    + apply bind_no_loop; [|by intros [ptr s1] _].
      apply bind_no_loop; [apply ram_ptr_no_loop|by intros [ptr s1] _].
    + intros b s' ([ptr s1] & _ & Hk)%bind_Ok. injection Hk as <- <-.
      unfold zlength. rewrite ld_buf_length. lia.
Qed.

Lemma read_loop_ok fuel addr len s : len ≤ Z.of_nat fuel →
  read_loop fuel addr len s ≠ Err Diverges ∧
  ∀ bs s', read_loop fuel addr len s = Ok (bs, s') → zlength bs = Z.max 0 len.
Proof.
  revert addr len s. induction fuel as [|fuel IH]; intros addr len s Hf; cbn [read_loop].
  - destruct (Z.leb_spec len 0); [|lia]. split; [done|]. intros bs s' [= <- <-]. change (zlength []) with 0. lia.
  - destruct (Z.leb_spec len 0) as [|Hpos].
    { split; [done|]. intros bs s' [= <- <-]. change (zlength []) with 0. lia. }
    pose proof (page_rest_bound addr len Hpos) as Hrest.
    destruct (read_chunk_ok addr (page_rest addr len) s ltac:(lia)) as [Hc1 Hc2].
    assert (∀ b s1, read_chunk addr (page_rest addr len) s = Ok (b, s1) →
      len - zlength b ≤ Z.of_nat fuel) as Hdec.
    { intros b s1 Hb. specialize (Hc2 b s1 Hb). lia. }
    split.
    + apply bind_no_loop; [done|]. intros [b s1] Hb. specialize (Hdec b s1 Hb).
      apply bind_no_loop; [by apply IH|by intros [bs s2] _].
    + intros bs s' ([b s1] & Hb & Hk)%bind_Ok. specialize (Hdec b s1 Hb).
      apply bind_Ok in Hk as ([bs2 s2] & Hr & Hk). injection Hk as <- <-.
      apply (IH _ _ _ Hdec) in Hr. specialize (Hc2 b s1 Hb).
      unfold zlength in *. rewrite length_app. lia.
Qed.

Lemma mark_dirty_no_loop a l s : mark_dirty a l s ≠ Err Diverges.
Proof.
  unfold mark_dirty, cpu_physical_memory_is_dirty, cpu_physical_memory_set_dirty_flags, aget, aput.
  destruct (zlookup (phys_dirty (mach s)) (a >> TARGET_PAGE_BITS)) as [d|] eqn:E; [|discriminate].
  cbn [from_option_res]. rewrite bind_ret. destruct (d =? 0xff); [discriminate|].
  cbn [tb_invalidate_phys_page_range mach]. rewrite E. discriminate.
Qed.

Lemma write_chunk_ok addr buf l s : 1 ≤ l →
  write_chunk addr buf l s ≠ Err Diverges ∧
  ∀ w s', write_chunk addr buf l s = Ok (w, s') → 1 ≤ w.
Proof.
  intros Hl. unfold write_chunk. destruct (page_descriptor _ _) as [pd p].
  destruct (negb (is_ram pd)).
  - split; [done|]. intros w s' [= <- <-]. by apply io_width_bound.
  - split.
    + apply bind_no_loop; [apply ram_ptr_no_loop|]. intros [ptr s1] _.
      apply bind_no_loop; [apply mark_dirty_no_loop|done].
    + intros w s' ([ptr s1] & _ & Hk)%bind_Ok. apply bind_Ok in Hk as (s2 & _ & Hk).
      by injection Hk as <- _.
Qed.

Lemma write_loop_ok fuel addr buf s : (length buf ≤ fuel)%nat →
  write_loop fuel addr buf s ≠ Err Diverges.
Proof.
  revert addr buf s. induction fuel as [|fuel IH]; intros addr buf s Hf.
  - by destruct buf; [|cbn in Hf; lia].
  - destruct buf as [|b buf]; [done|]. cbn [write_loop].
    pose proof (page_rest_bound addr (zlength (b :: buf)) ltac:(unfold zlength; cbn [length]; lia)) as Hrest.
    destruct (write_chunk_ok addr (b :: buf) _ s (proj1 Hrest)) as [H1 H2].
    apply bind_no_loop; [done|]. intros [w s1] Hw. specialize (H2 w s1 Hw).
    apply IH. rewrite length_drop. cbn [length] in *. lia.
Qed.

(** The loop of [cpu_physical_memory_rw] ends for every address, length,
    memory map and device: each round transfers at least one byte, whatever
    width the alignment allows, so a transfer of [n] bytes takes at most [n]
    rounds, and a read that succeeds returns exactly the bytes asked for. *)
Theorem cpu_physical_memory_rw_terminates addr len buf s :
  cpu_physical_memory_read addr len s ≠ Err Diverges ∧
  cpu_physical_memory_write addr buf s ≠ Err Diverges ∧
  (∀ bs s', cpu_physical_memory_read addr len s = Ok (bs, s') → zlength bs = Z.max 0 len).
Proof.
  destruct (read_loop_ok (Z.to_nat len) addr len s ltac:(lia)) as [H1 H2].
  split; [exact H1|]. split; [by apply write_loop_ok|exact H2].
Qed.
End loops.

(** ** Witness *)

(** No devices: reads give 0. *)
Definition no_ports : IoPorts unit :=
  {| io_mem_read := λ _ _ _ d, (0, d); io_mem_write := λ _ _ _ _ d, d |}.
Definition demo_phys : physmem unit := mkPhysMem demo_machine (λ _, 0) tt [] false.

Definition demo_block : RAMBlock := mkBlock 0 0x100000 0x7F0000000000 0 "ram".

Lemma demo_ram_at : ram_at demo_phys 0x4010 0x4000 demo_block.
Proof.
  split.
  - eexists. reflexivity.
  - reflexivity.
  - split; [by vm_compute|]. split; [by vm_compute|]. exists 16. reflexivity.
  - split; [by left|reflexivity].
  - split.
    + apply Forall_cons_2; [|apply Forall_nil_2]. cbn.
      split; [by exists 0|]. split; [by exists 1024|]. lia.
    + intros b1 b2 a. cbn. rewrite !list_elem_of_singleton. by intros -> ->.
Qed.

Theorem stl_phys_ldl_phys_witness :
  ∃ s' s'', @stl_phys unit no_ports 0x4010 0x12345678 demo_phys = Ok s' ∧
    @ldl_phys_op unit no_ports 0x4010 s' = Ok (0x12345678, s'').
Proof.
  destruct (@stl_phys unit no_ports 0x4010 0x12345678 demo_phys) as [s'|f] eqn:E;
    [|exfalso; vm_compute in E; discriminate E].
  destruct (@stl_phys_ldl_phys unit no_ports demo_phys 0x4010 0x4000 demo_block 0x12345678 s'
    demo_ram_at E) as [[s'' Hl] _].
  exists s', s''. split; [reflexivity|exact Hl].
Defined.
