(* ===== verification/RamBlocks.v ===== *)
(** * Allocation of guest RAM ([exec.c])

    Guest RAM is a list of blocks of the [ram_addr_t] space, each backed by a
    range of host memory; one dirty byte per page covers the blocks.  The host
    addresses that [qemu_vmalloc] returns and the bytes that a grown array
    starts with are arguments.  KVM is off; the [madvise] calls have no effect
    on the model. *)
From S2P Require Import Prelude SoftTlb PhysMemFacts.

Definition ULONG_MAX : Z := 2 ^ 64 - 1.
Definition RAM_PREALLOC_MASK : Z := 1.

Definition TARGET_PAGE_ALIGN (addr : Z) : Z :=
  u64 (addr + TARGET_PAGE_SIZE - 1) .& Z.lnot (TARGET_PAGE_SIZE - 1).

Definition block_end (b : RAMBlock) : Z := u64 (offset b + blength b).

(** The inner loop: the lowest offset of a block that starts at [stop] or later. *)
Definition next_offset (bs : list RAMBlock) (stop : Z) : Z :=
  foldl (λ next b, if offset b >=? stop then Z.min next (offset b) else next) ULONG_MAX bs.

(** The body of the outer loop: the offset found and its gap. *)
Definition gap_step (bs : list RAMBlock) (size : Z) (st : Z * Z) (b : RAMBlock) : Z * Z :=
  let stop := block_end b in
  let gap := u64 (next_offset bs stop - stop) in
  if (gap >=? size) && (gap <? st.2) then (stop, gap) else st.

Definition find_ram_offset (size : Z) (bs : list RAMBlock) : Z :=
  match bs with
  | [] => 0
  | _ => (foldl (gap_step bs size) (0, ULONG_MAX) bs).1
  end.

Definition last_ram_offset (bs : list RAMBlock) : Z :=
  foldl (λ last b, Z.max last (block_end b)) 0 bs.

(** [qemu_realloc] of a byte array: what it gains is [fill]; a size of 0 aborts. *)
Definition qemu_realloc (fill : Z) (n : Z) (l : list Z) : res (list Z) :=
  if n =? 0 then Err (Aborted "qemu_realloc")
  else Ok (take (Z.to_nat n) l ++ replicate (Z.to_nat n - length l) fill).

Definition memset_bytes (v i n : Z) (l : list Z) : res (list Z) :=
  if (0 <=? i) && (0 <=? n) && (i + n <=? zlength l)
  then Ok (take (Z.to_nat i) l ++ replicate (Z.to_nat n) v ++ drop (Z.to_nat (i + n)) l)
  else Err OutOfBounds.

(** [new_block->idstr]: [pstrcat] keeps 255 characters. *)
Definition block_idstr (name : string) : string := String.substring 0 255 name.

(** [hostp] is the memory the caller gives, 0 for none; [vm] the address
    [qemu_vmalloc] returns when it is called; [mem_path] is set by an option. *)
Definition qemu_ram_alloc_from_ptr (mem_path : bool) (fill vm : Z) (name : string)
    (size hostp : Z) (m : machine) : res (Z * machine) :=
  let size := TARGET_PAGE_ALIGN size in
  let id := block_idstr name in
  if existsb (λ b, String.eqb (idstr b) id) (ram_blocks m)
  then Err (Aborted "RAMBlock already registered")
  else
    '(h, fl) ← (if truth hostp then Ok (hostp, RAM_PREALLOC_MASK)
                else if mem_path then Err (Aborted "-mem-path option unsupported")
                else Ok (vm, 0));
    let off := find_ram_offset size (ram_blocks m) in
    let bs := mkBlock off size h fl id :: ram_blocks m in
    dirty ← qemu_realloc fill (last_ram_offset bs >> TARGET_PAGE_BITS) (phys_dirty m);
    dirty ← memset_bytes 0xff (off >> TARGET_PAGE_BITS) (size >> TARGET_PAGE_BITS) dirty;
    Ok (off, m <| ram_blocks := bs |> <| phys_dirty := dirty |>).

Definition qemu_ram_alloc (mem_path : bool) (fill vm : Z) (name : string) (size : Z)
    (m : machine) : res (Z * machine) :=
  qemu_ram_alloc_from_ptr mem_path fill vm name size 0 m.

(** Unlinks the first block at the offset; with [-mem-path] a block that was not
    given by the caller would close its file, which no block has. *)
Definition qemu_ram_free (addr : Z) (m : machine) : machine :=
  match list_find (λ b, addr = offset b) (ram_blocks m) with
  | Some (n, _) => m <| ram_blocks := delete n (ram_blocks m) |>
  | None => m
  end.

(** ** The invariant of the block list *)

(** Two half-open ranges do not meet. *)
Definition apart (a n b k : Z) : Prop := a + n ≤ b ∨ b + k ≤ a.

Record block_ok (b : RAMBlock) : Prop := {
  bk_offset : (1024 | offset b) ∧ 0 ≤ offset b;
  bk_length : (1024 | blength b) ∧ 0 < blength b;
  bk_end : offset b + blength b < 2 ^ 63;
  bk_host : 0 ≤ host b ∧ host b + blength b < 2 ^ 64
}.

Record ram_wf (m : machine) : Prop := {
  rw_ok : ∀ b, b ∈ ram_blocks m → block_ok b;
  rw_offsets : ∀ b c, b ∈ ram_blocks m → c ∈ ram_blocks m →
    b = c ∨ apart (offset b) (blength b) (offset c) (blength c);
  rw_hosts : ∀ b c, b ∈ ram_blocks m → c ∈ ram_blocks m →
    b = c ∨ apart (host b) (blength b) (host c) (blength c);
  rw_names : NoDup (idstr <$> ram_blocks m);
  rw_dirty : ∀ b, b ∈ ram_blocks m → offset b + blength b ≤ 1024 * zlength (phys_dirty m)
}.

(** Host memory the caller or the allocator gives is not in use by a block. *)
Definition fresh_host (p n : Z) (m : machine) : Prop :=
  0 ≤ p ∧ p + n < 2 ^ 64 ∧ ∀ b, b ∈ ram_blocks m → apart p n (host b) (blength b).

Lemma page_align_spec a : 0 < a → a + 1023 < 2 ^ 64 →
  (1024 | TARGET_PAGE_ALIGN a) ∧ a ≤ TARGET_PAGE_ALIGN a < a + 1024.
Proof.
  intros H1 H2. unfold TARGET_PAGE_ALIGN, TARGET_PAGE_SIZE.
  rewrite u64_small by lia. change (1024 - 1) with (Z.ones 10).
  rewrite <- Z.ldiff_land, Z.ldiff_ones_r, Z.shiftl_mul_pow2, Z.shiftr_div_pow2 by lia.
  change (2 ^ 10) with 1024. split; [apply Z.divide_factor_r|].
  pose proof (Z.div_mod (a + 1024 - 1) 1024 ltac:(lia)).
  pose proof (Z.mod_pos_bound (a + 1024 - 1) 1024 ltac:(lia)). lia.
Qed.

Lemma block_end_ok b : block_ok b → block_end b = offset b + blength b.
Proof. intros [[_ H1] [_ H2] H3 _]. apply u64_small. lia. Qed.

(** ** The search for a gap *)
Lemma elem_snoc {A} (x y : A) l : x ∈ l ++ [y] ↔ x ∈ l ∨ x = y.
Proof. by rewrite elem_of_app, list_elem_of_singleton. Qed.

Lemma next_offset_spec bs stop : 0 ≤ stop ≤ ULONG_MAX →
  stop ≤ next_offset bs stop ≤ ULONG_MAX ∧
  (∀ b, b ∈ bs → stop ≤ offset b → next_offset bs stop ≤ offset b) ∧
  ((∀ b, b ∈ bs → offset b < stop) → next_offset bs stop = ULONG_MAX).
Proof.
  intros Hs. unfold next_offset. induction bs as [|b bs IH] using rev_ind.
  { cbn. split; [lia|]. split; [by intros b ?%not_elem_of_nil|done]. }
  rewrite foldl_app. cbn [foldl]. destruct IH as (I1 & I2 & I3).
  rewrite Z.geb_leb. destruct (Z.leb_spec stop (offset b)) as [Hb|Hb]; (split; [lia|]).
  - split.
    + intros c [Hc| ->]%elem_snoc Hle; [specialize (I2 c Hc Hle)|]; lia.
    + intros Hall. specialize (Hall b (proj2 (elem_snoc b b bs) (or_intror eq_refl))). lia.
  - split.
    + intros c [Hc| ->]%elem_snoc Hle; [by apply I2|lia].
    + intros Hall. apply I3. intros c Hc. apply Hall, elem_snoc. by left.
Qed.

Definition gap (bs : list RAMBlock) (b : RAMBlock) : Z :=
  u64 (next_offset bs (block_end b) - block_end b).

Lemma gap_loop all size bs :
  let r := foldl (gap_step all size) (0, ULONG_MAX) bs in
  (r = (0, ULONG_MAX) ∧ ∀ b, b ∈ bs → ¬ (size ≤ gap all b < ULONG_MAX)) ∨
  (∃ b, b ∈ bs ∧ r = (block_end b, gap all b) ∧ size ≤ gap all b).
Proof.
  induction bs as [|b bs IH] using rev_ind; cbn zeta.
  { left. split; [done|]. by intros b ?%not_elem_of_nil. }
  rewrite foldl_app. cbn [foldl]. set (r := foldl _ _ bs) in *. unfold gap_step. cbv zeta.
  fold (gap all b). rewrite Z.geb_leb.
  destruct ((size <=? gap all b) && (gap all b <? r.2)) eqn:E.
  - apply andb_prop in E as [E1%Z.leb_le _]. right. exists b. by rewrite elem_snoc; auto.
  - destruct IH as [[Hr Hn]|(c & Hc & Hr)].
    + left. split; [done|]. intros c [Hc| ->]%elem_snoc; [by apply Hn|].
      rewrite Hr in E. cbn [snd] in E. lia.
    + right. exists c. rewrite elem_snoc. auto.
Qed.

Lemma last_ram_offset_spec bs :
  0 ≤ last_ram_offset bs ∧ (∀ b, b ∈ bs → block_end b ≤ last_ram_offset bs) ∧
  (last_ram_offset bs = 0 ∨ ∃ b, b ∈ bs ∧ last_ram_offset bs = block_end b).
Proof.
  unfold last_ram_offset. induction bs as [|b bs IH] using rev_ind.
  { split; [done|]. split; [by intros b ?%not_elem_of_nil|by left]. }
  rewrite foldl_app. cbn [foldl]. destruct IH as (I1 & I2 & I3). split; [lia|]. split.
  - intros c [Hc| ->]%elem_snoc; [specialize (I2 c Hc)|]; lia.
  - destruct (Z.max_spec (foldl (λ last b, Z.max last (block_end b)) 0 bs) (block_end b)) as [[H ->]|[H ->]].
    + right. exists b. rewrite elem_snoc. auto.
    + destruct I3 as [I3|(c & Hc & I3)]; [by left|right; exists c; rewrite elem_snoc; auto].
Qed.

(** The offset found does not run into any block, and starts where one ends. *)
Lemma find_ram_offset_spec m size : ram_wf m → 0 < size →
  last_ram_offset (ram_blocks m) + size < 2 ^ 63 →
  let off := find_ram_offset size (ram_blocks m) in
  (1024 | off) ∧ 0 ≤ off ≤ last_ram_offset (ram_blocks m) ∧
  ∀ c, c ∈ ram_blocks m → apart off size (offset c) (blength c).
Proof.
  intros Hwf Hsz Hlast. cbn zeta. pose proof (last_ram_offset_spec (ram_blocks m)) as (L1 & L2 & L3).
  unfold find_ram_offset. destruct (ram_blocks m) as [|b0 bs0] eqn:Ebs.
  { split; [by exists 0|]. split; [done|]. by intros c ?%not_elem_of_nil. }
  rewrite <- Ebs in *. set (bs := ram_blocks m) in *.
  assert (∀ c, c ∈ bs → block_end c = offset c + blength c) as Hend.
  { intros c Hc. by apply block_end_ok, (rw_ok _ Hwf). }
  assert (∀ c, c ∈ bs → 0 < block_end c < 2 ^ 63) as Hrange.
  { intros c Hc. destruct (rw_ok _ Hwf c Hc). rewrite Hend by done. lia. }
  assert (∀ c, c ∈ bs → gap bs c = next_offset bs (block_end c) - block_end c) as Hgap.
  { intros c Hc. unfold gap. specialize (Hrange c Hc).
    destruct (next_offset_spec bs (block_end c)) as (N1 & _); unfold ULONG_MAX in *; [lia|].
    apply u64_small. lia. }
  destruct (gap_loop bs size bs) as [[_ Hno]|(b & Hb & Hr & Hs)].
  - exfalso. destruct L3 as [L3|(b & Hb & L3)].
    { assert (b0 ∈ bs) as Hb0 by (rewrite Ebs; left). specialize (L2 b0 Hb0). specialize (Hrange b0 Hb0). lia. }
    specialize (Hrange b Hb). apply (Hno b Hb). rewrite Hgap by done.
    destruct (next_offset_spec bs (block_end b)) as (_ & _ & N3); unfold ULONG_MAX in *; [lia|].
    rewrite N3; [lia|]. intros c Hc. specialize (L2 c Hc). rewrite Hend in L2 by done.
    destruct (rw_ok _ Hwf c Hc) as [_ [_ ?] _ _]. lia.
  - rewrite Hr. cbn [fst]. specialize (Hrange b Hb). specialize (L2 b Hb).
    destruct (rw_ok _ Hwf b Hb) as [[[q1 B1] B2] [[q2 B3] B4] _ _].
    split; [exists (q1 + q2); rewrite Hend by done; lia|]. split; [lia|].
    intros c Hc. rewrite Hgap in Hs by done.
    destruct (next_offset_spec bs (block_end b)) as (_ & N2 & _); [unfold ULONG_MAX; lia|].
    unfold apart. rewrite Hend in * by done.
    destruct (rw_offsets _ Hwf b c Hb Hc) as [<-|[H|H]].
    + right. lia.
    + left. specialize (N2 c Hc H). lia.
    + right. lia.
Qed.

(** ** Allocation *)
Lemma memset_bytes_spec v i n l : 0 ≤ i → 0 ≤ n → i + n ≤ zlength l →
  ∃ l', memset_bytes v i n l = Ok l' ∧ zlength l' = zlength l ∧
    ∀ j, zlookup l' j = if decide (i ≤ j < i + n) then Some v else zlookup l j.
Proof.
  intros Hi Hn Hl. unfold memset_bytes.
  rewrite (proj2 (Z.leb_le _ _) Hi), (proj2 (Z.leb_le _ _) Hn), (proj2 (Z.leb_le _ _) Hl).
  cbn [andb]. eexists. split; [done|]. unfold zlength in *. split.
  { rewrite !length_app, length_take, length_replicate, length_drop. lia. }
  intros j. unfold zlookup. destruct (Z.leb_spec 0 j); [|by rewrite decide_False by lia].
  case_decide as Hj.
  - rewrite lookup_app_r by (rewrite length_take; lia).
    rewrite lookup_app_l by (rewrite length_replicate, length_take; lia).
    rewrite lookup_replicate_2; [done|]. rewrite length_take. lia.
  - destruct (decide (j < i)).
    + rewrite lookup_app_l by (rewrite length_take; lia). by rewrite lookup_take_lt by lia.
    + rewrite lookup_app_r by (rewrite length_take; lia).
      rewrite lookup_app_r by (rewrite length_replicate, length_take; lia).
      rewrite lookup_drop, length_replicate, length_take. f_equal. lia.
Qed.

Lemma qemu_realloc_spec fill n l : 0 < n →
  ∃ l', qemu_realloc fill n l = Ok l' ∧ zlength l' = n ∧
    ∀ j, j < n → j < zlength l → zlookup l' j = zlookup l j.
Proof.
  intros Hn. unfold qemu_realloc. rewrite (proj2 (Z.eqb_neq n 0)) by lia.
  eexists. split; [done|]. unfold zlength. split.
  { rewrite length_app, length_take, length_replicate. lia. }
  intros j H1 H2. unfold zlookup. destruct (Z.leb_spec 0 j); [|done].
  rewrite lookup_app_l by (rewrite length_take; lia). by rewrite lookup_take_lt by lia.
Qed.

Lemma page_of_sub a : is_u32 a → page_of a = a - a mod 1024.
Proof.
  intros Ha. unfold page_of, TARGET_PAGE_MASK. change 0xFFFFFC00 with (Z.ldiff (Z.ones 32) (Z.ones 10)).
  rewrite Z.ldiff_land, Z.land_assoc, Z.land_ones, Z.mod_small by (lia || exact Ha).
  rewrite <- Z.ldiff_land, Z.ldiff_ones_r, Z.shiftl_mul_pow2, Z.shiftr_div_pow2 by lia.
  change (2 ^ 10) with 1024. Z.div_mod_to_equations. lia.
Qed.

Lemma page_le a b : a ≤ b → a >> TARGET_PAGE_BITS ≤ b >> TARGET_PAGE_BITS.
Proof. intros H. rewrite !Z.shiftr_div_pow2 by done. by apply Z.div_le_mono. Qed.

Lemma page_mul q : (q * 1024) >> TARGET_PAGE_BITS = q.
Proof. rewrite Z.shiftr_div_pow2 by done. by apply Z.div_mul. Qed.

Lemma last_ram_offset_cons b bs : 0 ≤ block_end b →
  last_ram_offset (b :: bs) = Z.max (block_end b) (last_ram_offset bs).
Proof.
  intros Hb. destruct (last_ram_offset_spec bs) as (S1 & S2 & S3).
  destruct (last_ram_offset_spec (b :: bs)) as (L1 & L2 & L3). apply Z.le_antisymm.
  - destruct L3 as [->|(c & [->|Hc]%elem_of_cons & ->)]; [lia|lia|]. specialize (S2 c Hc). lia.
  - apply Z.max_lub; [apply L2; left|].
    destruct S3 as [->|(c & Hc & ->)]; [done|]. apply L2. by right.
Qed.

Section alloc.
Context (m : machine) (Hwf : ram_wf m).

(** A new block in fresh ranges, with its pages fully dirty. *)
Lemma add_block_ok fill b :
  block_ok b → (∀ c, c ∈ ram_blocks m → apart (offset b) (blength b) (offset c) (blength c)) →
  fresh_host (host b) (blength b) m → idstr b ∉ idstr <$> ram_blocks m →
  offset b ≤ last_ram_offset (ram_blocks m) →
  ∃ d1 d2,
    qemu_realloc fill (last_ram_offset (b :: ram_blocks m) >> TARGET_PAGE_BITS) (phys_dirty m) = Ok d1 ∧
    memset_bytes 0xff (offset b >> TARGET_PAGE_BITS) (blength b >> TARGET_PAGE_BITS) d1 = Ok d2 ∧
    ram_wf (m <| ram_blocks := b :: ram_blocks m |> <| phys_dirty := d2 |>) ∧
    (∀ i, offset b ≤ 1024 * i < offset b + blength b → zlookup d2 i = Some 0xff) ∧
    (∀ c i, c ∈ ram_blocks m → offset c ≤ 1024 * i < offset c + blength c →
       zlookup d2 i = zlookup (phys_dirty m) i).
Proof.
  intros Hb Hap (F1 & F2 & F3) Hid Hlast.
  destruct Hb as [[[qo Ho] Ho'] [[ql Hl] Hl'] Hend Hhost] eqn:Eb. clear Eb.
  assert (block_end b = offset b + blength b) as Hbe by (by apply block_end_ok).
  set (last := last_ram_offset (b :: ram_blocks m)).
  assert (last = Z.max (block_end b) (last_ram_offset (ram_blocks m))) as Elast
    by (apply last_ram_offset_cons; lia).
  assert (∀ c, c ∈ b :: ram_blocks m → offset c + blength c ≤ 1024 * (last >> TARGET_PAGE_BITS)) as Hcov.
  { intros c Hc. assert (block_ok c) as [[[q1 C1] C2] [[q2 C3] C4] C5 _]
      by (apply elem_of_cons in Hc as [->|Hc]; [done|by apply (rw_ok _ Hwf)]).
    destruct (last_ram_offset_spec (b :: ram_blocks m)) as (_ & L2 & _). fold last in L2.
    specialize (L2 c Hc). unfold block_end in L2. rewrite u64_small in L2 by lia.
    apply page_le in L2. replace (offset c + blength c) with ((q1 + q2) * 1024) in * by lia.
    rewrite page_mul in L2. lia. }
  destruct (qemu_realloc_spec fill (last >> TARGET_PAGE_BITS) (phys_dirty m)) as (d1 & E1 & Z1 & K1).
  { specialize (Hcov b ltac:(left)). lia. }
  rewrite Ho, Hl, !page_mul. rewrite Ho, Hl in *.
  destruct (memset_bytes_spec 0xff qo ql d1) as (d2 & E2 & Z2 & K2); [lia|lia| |].
  { specialize (Hcov b ltac:(left)). lia. }
  exists d1, d2. split; [done|]. split; [done|]. split; [|split].
  - split; cbn [ram_blocks phys_dirty set_field set_ram_blocks set_phys_dirty].
    + intros c [->|Hc]%elem_of_cons; [done|by apply (rw_ok _ Hwf)].
    + intros c1 c2 [->|H1]%elem_of_cons [->|H2]%elem_of_cons; [by left| | |by apply (rw_offsets _ Hwf)].
      * right. rewrite Ho, Hl. by apply Hap.
      * right. specialize (Hap c1 H1). rewrite Ho, Hl. unfold apart in *. lia.
    + intros c1 c2 [->|H1]%elem_of_cons [->|H2]%elem_of_cons; [by left| | |by apply (rw_hosts _ Hwf)].
      * right. rewrite Hl. by apply F3.
      * right. specialize (F3 c1 H1). rewrite Hl. unfold apart in *. lia.
    + cbn. apply NoDup_cons. split; [done|apply Hwf].
    + intros c Hc. rewrite Z2, Z1. by apply Hcov.
  - intros i Hi. rewrite K2, decide_True by lia. done.
  - intros c i Hc Hi. specialize (Hap c Hc). unfold apart in Hap.
    rewrite K2, decide_False by lia.
    pose proof (rw_dirty _ Hwf c Hc). pose proof (Hcov c ltac:(by right)).
    apply K1; lia.
Qed.
End alloc.

(** ** Host pointers of guest RAM *)
Lemma ram_wf_blocks m : ram_wf m → blocks_wf (ram_blocks m).
Proof.
  intros Hwf. split.
  - apply Forall_forall. intros b Hb. destruct (rw_ok _ Hwf b Hb) as [[? ?] [? ?] ? _].
    repeat split; [done|done|lia|lia|lia].
  - intros b c a Hb Hc Ha Hab Hac.
    destruct (rw_ok _ Hwf b Hb) as [[_ ?] [_ ?] ? _]. destruct (rw_ok _ Hwf c Hc) as [[_ ?] [_ ?] ? _].
    apply in_block_range in Hab, Hac; try lia.
    destruct (rw_offsets _ Hwf b c Hb Hc) as [->|[?|?]]; [done|lia|lia].
Qed.

(** The block of a host pointer is found in any order of the list. *)
Lemma addr_from_host_ok m m' b a : ram_wf m → (∀ x, x ∈ ram_blocks m' ↔ x ∈ ram_blocks m) →
  b ∈ ram_blocks m → offset b ≤ a < offset b + blength b →
  qemu_ram_addr_from_host (host b + (a - offset b)) m' = Some a.
Proof.
  intros Hwf Hm Hb Ha. destruct (rw_ok _ Hwf b Hb) as [[_ B1] [_ B2] B3 B4].
  unfold qemu_ram_addr_from_host.
  destruct (list_find _ (ram_blocks m')) as [[i c]|] eqn:F.
  - apply list_find_Some in F as (Hl & Hin & _).
    assert (c ∈ ram_blocks m) as Hc by (apply Hm; by apply list_elem_of_lookup_2 in Hl).
    destruct (rw_ok _ Hwf c Hc) as [[_ C1] [_ C2] C3 C4].
    apply Z.ltb_lt in Hin. set (p := host b + (a - offset b)) in *.
    assert (c = b) as ->.
    { destruct (rw_hosts _ Hwf b c Hb Hc) as [->|Hap]; [done|exfalso]. unfold apart in Hap.
      revert Hin. unfold u64. destruct (decide (host c ≤ p)).
      - rewrite Z.mod_small by lia. lia.
      - replace (p - host c) with (p - host c + 2 ^ 64 + (-1) * 2 ^ 64) by lia.
        rewrite Z.mod_add, Z.mod_small by lia. lia. }
    f_equal. unfold p. rewrite u64_small by lia. lia.
  - apply list_find_None in F. rewrite Forall_forall in F.
    exfalso. apply (F b); [by apply Hm|]. cbn. apply Z.ltb_lt. rewrite u64_small by lia. lia.
Qed.

(** The address of a byte in host memory, and back. *)
Lemma ram_ptr_roundtrip m b a : ram_wf m → b ∈ ram_blocks m →
  offset b ≤ a < offset b + blength b →
  ∃ m', qemu_get_ram_ptr a m = Ok (host b + (a - offset b), m') ∧
    m' = m <| ram_blocks := ram_blocks m' |> ∧ (∀ x, x ∈ ram_blocks m' ↔ x ∈ ram_blocks m) ∧
    qemu_ram_addr_from_host (host b + (a - offset b)) m' = Some a.
Proof.
  intros Hwf Hb Ha. destruct (rw_ok _ Hwf b Hb) as [[_ B1] [_ B2] B3 B4].
  destruct (find_block_spec m a b (ram_wf_blocks m Hwf)) as (m' & E & Hm & Em); [lia|done| |].
  { apply in_block_range; lia. }
  rewrite u64_small in E by lia. exists m'. split; [done|]. split; [done|]. split; [done|].
  by apply (addr_from_host_ok m).
Qed.

(** Allocating a named block of guest RAM of [size] bytes (rounded up to
    pages) in fresh host memory succeeds whatever a grown dirty array is filled
    with.  The new block overlaps no block that is in use, neither in the
    [ram_addr_t] space nor in host memory; all its pages are dirty and the
    dirty bytes of the other blocks are kept; each of its addresses has its
    own host pointer, which leads back to the address.  A name that is in use
    aborts. *)
Theorem ram_alloc_ok fill vm name size m :
  ram_wf m → 0 < size < 2 ^ 62 →
  let n := TARGET_PAGE_ALIGN size in
  last_ram_offset (ram_blocks m) + n < 2 ^ 63 → fresh_host vm n m →
  if existsb (λ b, String.eqb (idstr b) (block_idstr name)) (ram_blocks m)
  then qemu_ram_alloc false fill vm name size m = Err (Aborted "RAMBlock already registered")
  else ∃ off m',
    qemu_ram_alloc false fill vm name size m = Ok (off, m') ∧ ram_wf m' ∧
    ram_blocks m' = mkBlock off n vm 0 (block_idstr name) :: ram_blocks m ∧
    l1_phys_map m' = l1_phys_map m ∧ size ≤ n ∧ off ≤ last_ram_offset (ram_blocks m) ∧
    (∀ i, off ≤ 1024 * i < off + n → cpu_physical_memory_is_dirty (1024 * i) m' = Ok true) ∧
    (∀ b i, b ∈ ram_blocks m → offset b ≤ 1024 * i < offset b + blength b →
       cpu_physical_memory_is_dirty (1024 * i) m' = cpu_physical_memory_is_dirty (1024 * i) m) ∧
    (∀ a, off ≤ a < off + n →
       ∃ m'', qemu_get_ram_ptr a m' = Ok (vm + (a - off), m'') ∧
         qemu_ram_addr_from_host (vm + (a - off)) m'' = Some a).
Proof.
  intros Hwf Hsz n Hlast Hfresh. destruct (page_align_spec size) as [Hn1 Hn2]; [lia|lia|].
  fold n in Hn1, Hn2. unfold qemu_ram_alloc, qemu_ram_alloc_from_ptr. fold n. cbn zeta.
  destruct (existsb _ _) eqn:Hid; [done|]. change (truth 0) with false. cbn iota. rewrite bind_ret.
  destruct (find_ram_offset_spec m n Hwf ltac:(lia) Hlast) as (O1 & O2 & O3).
  set (off := find_ram_offset n (ram_blocks m)) in *.
  set (b := mkBlock off n vm 0 (block_idstr name)).
  assert (block_ok b) as Hb.
  { destruct Hfresh as (F1 & F2 & _). split; cbn; repeat split; auto with lia. }
  destruct (add_block_ok m Hwf fill b Hb O3 Hfresh) as (d1 & d2 & E1 & E2 & W & D1 & D2); [|cbn; lia|].
  { intros (c & Ec & Hc)%list_elem_of_fmap. apply not_true_iff_false in Hid. apply Hid.
    apply existsb_exists. exists c. split; [by apply list_elem_of_In|]. by apply String.eqb_eq. }
  change (offset b) with off in E2. change (blength b) with n in E2.
  rewrite E1, bind_ret, E2, bind_ret.
  exists off. eexists. split; [reflexivity|]. split; [exact W|]. split; [done|]. split; [done|].
  split; [lia|]. split; [lia|]. unfold cpu_physical_memory_is_dirty, aget. cbn [phys_dirty set_field set_phys_dirty].
  split; [|split].
  - intros i Hi. replace (1024 * i) with (i * 1024) by lia. rewrite page_mul, D1 by done. done.
  - intros c i Hc Hi. replace (1024 * i) with (i * 1024) by lia. rewrite page_mul. by rewrite (D2 c).
  - intros a Ha. destruct (ram_ptr_roundtrip _ b a W) as (m'' & G1 & _ & _ & G2); [by left|done|].
    by exists m''.
Qed.

(** ** Release *)

(** Freeing a block keeps the others as they are. *)
Lemma ram_free_ok m b : ram_wf m → b ∈ ram_blocks m →
  ram_wf (qemu_ram_free (offset b) m) ∧
  (∀ c, c ∈ ram_blocks (qemu_ram_free (offset b) m) ↔ c ∈ ram_blocks m ∧ c ≠ b) ∧
  phys_dirty (qemu_ram_free (offset b) m) = phys_dirty m.
Proof.
  intros Hwf Hb. unfold qemu_ram_free.
  destruct (list_find _ (ram_blocks m)) as [[i c]|] eqn:F.
  - apply list_find_Some in F as (Hl & Ho & _).
    assert (c ∈ ram_blocks m) as Hc by by apply list_elem_of_lookup_2 in Hl.
    assert (c = b) as ->.
    { destruct (rw_ok _ Hwf b Hb) as [_ [_ ?] _ _]. destruct (rw_ok _ Hwf c Hc) as [_ [_ ?] _ _].
      destruct (rw_offsets _ Hwf b c Hb Hc) as [->|[?|?]]; [done|lia|lia]. }
    pose proof (delete_Permutation _ _ _ Hl) as HP.
    assert (NoDup (ram_blocks m)) as Hnd by (by apply NoDup_fmap_1 with idstr, Hwf).
    assert (∀ x, x ∈ delete i (ram_blocks m) ↔ x ∈ ram_blocks m ∧ x ≠ b) as Hmem.
    { intros x. rewrite HP at 2. rewrite elem_of_cons. rewrite HP in Hnd.
      apply NoDup_cons in Hnd as [Hnb _]. split; [|tauto]. intros Hx. split; [by right|]. by intros ->. }
    cbn [ram_blocks phys_dirty set_field set_ram_blocks]. split; [|done].
    split; cbn [ram_blocks phys_dirty set_field set_ram_blocks].
    + intros x [Hx _]%Hmem. by apply (rw_ok _ Hwf).
    + intros x y [Hx _]%Hmem [Hy _]%Hmem. by apply (rw_offsets _ Hwf).
    + intros x y [Hx _]%Hmem [Hy _]%Hmem. by apply (rw_hosts _ Hwf).
    + pose proof (rw_names _ Hwf) as Hn. rewrite HP in Hn. cbn in Hn. by apply NoDup_cons in Hn as [_ ?].
    + intros x [Hx _]%Hmem. by apply (rw_dirty _ Hwf).
  - apply list_find_None in F. rewrite Forall_forall in F. by destruct (F b Hb).
Qed.

(** ** Witness *)
Lemma ram_wf_demo : ram_wf demo_machine.
Proof.
  assert (∀ b, b ∈ ram_blocks demo_machine → b = demo_block) as Hb.
  { intros b Hb. by apply list_elem_of_singleton in Hb. }
  split.
  - intros b ->%Hb. split; cbn; [split; [by exists 0|lia]|split; [by exists 1024|lia]|lia|lia].
  - intros b c ->%Hb ->%Hb. by left.
  - intros b c ->%Hb ->%Hb. by left.
  - cbn. apply NoDup_singleton.
  - intros b ->%Hb. change (zlength (phys_dirty demo_machine)) with 1024. cbn. lia.
Qed.

Definition demo_vram : Z := 0x7F0000200000.

Lemma ram_alloc_ok_witness :
  ∃ m', qemu_ram_alloc false 0x55 demo_vram "vram" 0x4123 demo_machine = Ok (0x100000, m') ∧
    ram_wf m' ∧ cpu_physical_memory_is_dirty 0x104000 m' = Ok true ∧
    ∃ m'', qemu_get_ram_ptr 0x104321 m' = Ok (0x7F0000204321, m'') ∧
      qemu_ram_addr_from_host 0x7F0000204321 m'' = Some 0x104321.
Proof.
  pose proof (ram_alloc_ok 0x55 demo_vram "vram" 0x4123 demo_machine ram_wf_demo ltac:(lia)) as H.
  change (TARGET_PAGE_ALIGN 0x4123) with 0x4400 in H.
  destruct H as (off & m' & E & W & Hbs & _ & _ & _ & D & _ & P).
  { vm_compute. done. }
  { split; [unfold demo_vram; lia|]. split; [unfold demo_vram; lia|].
    intros b Hb. apply list_elem_of_singleton in Hb as ->. right. unfold demo_vram. cbn. lia. }
  assert (off = 0x100000) as ->.
  { vm_compute in E. by injection E as <- _. }
  exists m'. split; [exact E|]. split; [exact W|]. split; [exact (D 1040 ltac:(lia))|].
  exact (P 0x104321 ltac:(lia)).
Defined.
