(* ===== verification/MemMap.v ===== *)
(** * The physical memory map ([exec.c])

    Devices register handler functions in the I/O tables and get a handle, which
    [cpu_register_physical_memory_log] enters for a range of physical addresses,
    as it does the offsets of RAM and ROM.  A page that a range covers in part
    gets a subpage, an object with a handler per byte and width that is itself
    registered in the tables.  A function pointer is a name: the built-in
    handlers, or the number of a device's function. *)
From S2P Require Import Prelude SoftTlb ArmMmu PhysMem RamBlocks.

Definition IO_MEM_SUBPAGE : Z := 2.
Definition IO_MEM_SUBWIDTH : Z := 4.

(** ** Data *)

(** A handler; [w] is the log2 of the width. *)
Inductive io_func :=
| unassigned_mem (w : Z)
| notdirty_mem (w : Z)
| watch_mem (w : Z)
| subpage_mem (w : Z)
| device_mem (f : Z).
(** The [void *] a handler is called with. *)
Inductive io_opaque :=
| no_opaque
| device_opaque (p : Z)
| subpage_opaque (k : Z).
#[export] Instance io_func_eq_dec : EqDecision io_func.
Proof. solve_decision. Defined.
#[export] Instance io_opaque_eq_dec : EqDecision io_opaque.
Proof. solve_decision. Defined.

(** [mem_read[idx][i]] (a pointer to a slot of the tables, whose indices it
    holds), [opaque[idx][0][i]] and [region_offset[idx][0][i]]; [mem_write] has
    the second half of [opaque] and [region_offset]. *)
Record subslot := mkSlot {
  slot_func : option (Z * Z);
  slot_opaque : io_opaque;
  slot_region_offset : Z
}.
Record subpage_t := mkSubpage {
  base : Z;
  sub_read : Z → Z → subslot;
  sub_write : Z → Z → subslot
}.

(** The tables, with the subpages that were allocated. *)
Record io_tables := mkIoTables {
  io_mem_used : list bool;
  io_mem_reads : list (list (option io_func));
  io_mem_writes : list (list (option io_func));
  io_mem_opaque : list io_opaque;
  subpages : list subpage_t
}.
Definition eta_io_tables (T : io_tables) : io_tables :=
  mkIoTables (io_mem_used T) (io_mem_reads T) (io_mem_writes T) (io_mem_opaque T) (subpages T).
#[export] Instance set_io_mem_used : Setter io_mem_used := ltac:(derive_setter eta_io_tables io_mem_used).
#[export] Instance set_io_mem_reads : Setter io_mem_reads := ltac:(derive_setter eta_io_tables io_mem_reads).
#[export] Instance set_io_mem_writes : Setter io_mem_writes := ltac:(derive_setter eta_io_tables io_mem_writes).
#[export] Instance set_io_mem_opaque : Setter io_mem_opaque := ltac:(derive_setter eta_io_tables io_mem_opaque).
#[export] Instance set_subpages : Setter subpages := ltac:(derive_setter eta_io_tables subpages).

(** The tables before [io_mem_init]: static storage. *)
Definition io_tables_zero : io_tables :=
  mkIoTables (replicate (Z.to_nat IO_MEM_NB_ENTRIES) false)
    (replicate (Z.to_nat IO_MEM_NB_ENTRIES) (replicate 4 None))
    (replicate (Z.to_nat IO_MEM_NB_ENTRIES) (replicate 4 None))
    (replicate (Z.to_nat IO_MEM_NB_ENTRIES) no_opaque) [].

(** Reads and writes are treated alike: [wr] selects. *)
Definition io_mem (wr : bool) (T : io_tables) : list (list (option io_func)) :=
  if wr then io_mem_writes T else io_mem_reads T.
Definition sub_slots (wr : bool) (sp : subpage_t) : Z → Z → subslot :=
  if wr then sub_write sp else sub_read sp.

(** ** Handles *)

(** [None] stands for -1. *)
Definition get_free_io_mem_idx (T : io_tables) : option Z * io_tables :=
  match list_find (λ u, u = false) (io_mem_used T) with
  | Some (i, _) => (Some (Z.of_nat i), T <| io_mem_used := <[i := true]> (io_mem_used T) |>)
  | None => (None, T)
  end.

(** [io_mem_read[io_index][i] = f] *)
Definition put_handler (tbl : list (list (option io_func))) (io_index i : Z) (f : option io_func) :
    res (list (list (option io_func))) :=
  row ← aget tbl io_index; row ← aput row i f; aput tbl io_index row.

(** The loop over the three widths. *)
Fixpoint put_handlers (tbl : list (list (option io_func))) (io_index i : Z)
    (fs : list (option io_func)) : res (list (list (option io_func))) :=
  match fs with
  | [] => Ok tbl
  | f :: fs => tbl ← put_handler tbl io_index i f; put_handlers tbl io_index (i + 1) fs
  end.

(** [subwidth]: some function is missing. *)
Definition subwidth (mem_read mem_write : list (option io_func)) : Z :=
  if existsb (λ f : option io_func, match f with None => true | _ => false end) (mem_read ++ mem_write)
  then IO_MEM_SUBWIDTH else 0.

Definition cpu_register_io_memory_fixed (io_index : Z) (mem_read mem_write : list (option io_func))
    (opaque : io_opaque) (T : io_tables) : res (Z * io_tables) :=
  let '(idx, T) :=
    if io_index <=? 0 then get_free_io_mem_idx T
    else let i := io_index >> IO_MEM_SHIFT in
         (if i >=? IO_MEM_NB_ENTRIES then None else Some i, T) in
  match idx with
  | None => Ok (-1, T)
  | Some i =>
      rd ← put_handlers (io_mem_reads T) i 0 mem_read;
      wr ← put_handlers (io_mem_writes T) i 0 mem_write;
      op ← aput (io_mem_opaque T) i opaque;
      Ok ((i << IO_MEM_SHIFT) .| subwidth mem_read mem_write,
          T <| io_mem_reads := rd |> <| io_mem_writes := wr |> <| io_mem_opaque := op |>)
  end.

Definition cpu_register_io_memory (mem_read mem_write : list (option io_func))
    (opaque : io_opaque) (T : io_tables) : res (Z * io_tables) :=
  cpu_register_io_memory_fixed 0 mem_read mem_write opaque T.

(** [unassigned_mem_read], [error_mem_read] and the other arrays of three. *)
Definition handlers (f : Z → io_func) : list (option io_func) := [Some (f 0); Some (f 1); Some (f 2)].
Definition error_mem_read : list (option io_func) := [None; None; None].

Definition cpu_unregister_io_memory (io_table_address : Z) (T : io_tables) : res io_tables :=
  let i := io_table_address >> IO_MEM_SHIFT in
  rd ← put_handlers (io_mem_reads T) i 0 (handlers unassigned_mem);
  wr ← put_handlers (io_mem_writes T) i 0 (handlers unassigned_mem);
  op ← aput (io_mem_opaque T) i no_opaque;
  us ← aput (io_mem_used T) i false;
  Ok (T <| io_mem_reads := rd |> <| io_mem_writes := wr |> <| io_mem_opaque := op |> <| io_mem_used := us |>).

(** The handle of the watchpoint handlers is [io_mem_watch]. *)
Definition io_mem_init (T : io_tables) : res (Z * io_tables) :=
  '(_, T) ← cpu_register_io_memory_fixed IO_MEM_ROM error_mem_read (handlers unassigned_mem) no_opaque T;
  '(_, T) ← cpu_register_io_memory_fixed IO_MEM_UNASSIGNED (handlers unassigned_mem)
              (handlers unassigned_mem) no_opaque T;
  '(_, T) ← cpu_register_io_memory_fixed IO_MEM_NOTDIRTY error_mem_read (handlers notdirty_mem) no_opaque T;
  us ← aput (io_mem_used T) 0 true; us ← aput us 1 true; us ← aput us 2 true;
  us ← aput us 3 true; us ← aput us 4 true;
  cpu_register_io_memory (handlers watch_mem) (handlers watch_mem) no_opaque (T <| io_mem_used := us |>).

(** ** Subpages *)
Definition SUBPAGE_IDX (addr : Z) : Z := page_flags addr.

Definition set_slot (idx i : Z) (v : subslot) (f : Z → Z → subslot) : Z → Z → subslot :=
  λ j k, if (j =? idx) && (k =? i) then v else f j k.

(** One of the two conditional blocks of the inner loop. *)
Definition register_slot (wr : bool) (T : io_tables) (memory region_offset idx i : Z)
    (sp : Z → Z → subslot) : res (Z → Z → subslot) :=
  row ← aget (io_mem wr T) memory;
  f ← aget row i;
  match f with
  | Some _ => op ← aget (io_mem_opaque T) memory;
              Ok (set_slot idx i (mkSlot (Some (memory, i)) op region_offset) sp)
  | None => Ok sp
  end.

(** The inner loop over [i], [n] rounds of it. *)
Fixpoint register_widths (n : nat) (T : io_tables) (memory region_offset idx i : Z)
    (sp : subpage_t) : res subpage_t :=
  match n with
  | O => Ok sp
  | S n =>
      rd ← register_slot false T memory region_offset idx i (sub_read sp);
      wr ← register_slot true T memory region_offset idx i (sub_write sp);
      register_widths n T memory region_offset idx (i + 1) (mkSubpage (base sp) rd wr)
  end.

(** The outer loop over [idx], [n] rounds of it. *)
Fixpoint register_bytes (n : nat) (T : io_tables) (memory region_offset idx : Z)
    (sp : subpage_t) : res subpage_t :=
  match n with
  | O => Ok sp
  | S n =>
      sp ← register_widths 4 T memory region_offset idx 0 sp;
      register_bytes n T memory region_offset (idx + 1) sp
  end.

(** The callers ignore the return value. *)
Definition subpage_register (T : io_tables) (mmio : subpage_t)
    (start stop memory region_offset : Z) : res subpage_t :=
  if (start >=? TARGET_PAGE_SIZE) || (stop >=? TARGET_PAGE_SIZE) then Ok mmio
  else
    let idx := SUBPAGE_IDX start in
    let eidx := SUBPAGE_IDX stop in
    register_bytes (Z.to_nat (eidx - idx + 1)) T (memory >> IO_MEM_SHIFT) region_offset idx mmio.

(** The same on the subpage that has the number [k]. *)
Definition subpage_register_at (k : Z) (start stop memory region_offset : Z) (T : io_tables) :
    res io_tables :=
  sp ← aget (subpages T) k;
  sp ← subpage_register T sp start stop memory region_offset;
  sps ← aput (subpages T) k sp;
  Ok (T <| subpages := sps |>).

Definition subpage_zero (base : Z) : subpage_t :=
  mkSubpage base (λ _ _, mkSlot None no_opaque 0) (λ _ _, mkSlot None no_opaque 0).

(** The subpage's number, [*phys] and the tables. *)
Definition subpage_init (base orig_memory region_offset : Z) (T : io_tables) :
    res (Z * Z * io_tables) :=
  let k := zlength (subpages T) in
  let T := T <| subpages := subpages T ++ [subpage_zero base] |> in
  '(subpage_memory, T) ← cpu_register_io_memory (handlers subpage_mem) (handlers subpage_mem)
                           (subpage_opaque k) T;
  let phys := u64 (subpage_memory .| IO_MEM_SUBPAGE) in
  T ← subpage_register_at k 0 (TARGET_PAGE_SIZE - 1) orig_memory region_offset T;
  Ok (k, phys, T).

(** ** Page descriptors *)
Definition l1_index (index : Z) : Z := (index >> L2_BITS) .& (L1_SIZE - 1).
Definition l2_index (index : Z) : Z := index .& (L2_SIZE - 1).

(** [phys_page_find_alloc(index, 1)] *)
Definition phys_page_find_alloc (index : Z) (m : machine) : PhysPageDesc * machine :=
  match l1_phys_map m (l1_index index) with
  | Some pd => (pd (l2_index index), m)
  | None =>
      let pd := λ i, mkPhys IO_MEM_UNASSIGNED (u32 ((index + i) << TARGET_PAGE_BITS)) in
      (pd (l2_index index),
       m <| l1_phys_map := λ j, if j =? l1_index index then Some pd else l1_phys_map m j |>)
  end.

(** An assignment through the pointer that was found. *)
Definition put_phys_page (index : Z) (p : PhysPageDesc) (m : machine) : machine :=
  m <| l1_phys_map := λ j, if j =? l1_index index
                          then (λ pd i, if i =? l2_index index then p else pd i) <$> l1_phys_map m j
                          else l1_phys_map m j |>.

(** ** Registration *)
Record mem_map := mkMemMap { mm_mach : machine; mm_io : io_tables }.

(** The macro: [start_addr2], [end_addr2] and [need_subpage]. *)
Definition CHECK_SUBPAGE (addr start_addr orig_size : Z) : Z * Z * bool :=
  let '(start_addr2, need) :=
    if addr >? start_addr then (0, false)
    else let s := page_flags start_addr in (s, s >? 0) in
  let '(end_addr2, need) :=
    if u64 (start_addr + orig_size - addr) >=? TARGET_PAGE_SIZE then (TARGET_PAGE_SIZE - 1, need)
    else let e := page_flags (u64 (start_addr + orig_size - 1)) in
         (e, if e <? TARGET_PAGE_SIZE - 1 then true else need) in
  (start_addr2, end_addr2, need).

(** RAM and ROM, whose offset moves with the page. *)
Definition moving (phys_offset : Z) : bool :=
  (page_flags phys_offset <=? IO_MEM_ROM) || truth (phys_offset .& IO_MEM_ROMD).
Definition next_phys_offset (phys_offset : Z) : Z :=
  if moving phys_offset then u64 (phys_offset + TARGET_PAGE_SIZE) else phys_offset.

(** The subpage of a page whose descriptor holds [orig_memory]: its number,
    the page's [phys_offset] and the tables. *)
Definition find_subpage (addr orig_memory region_offset : Z) (T : io_tables) : res (Z * Z * io_tables) :=
  if negb (truth (orig_memory .& IO_MEM_SUBPAGE))
  then subpage_init (page_of addr) orig_memory region_offset T
  else
    op ← aget (io_mem_opaque T) (page_flags orig_memory >> IO_MEM_SHIFT);
    match op with
    | subpage_opaque k => Ok (k, orig_memory, T)
    | no_opaque => Err NullPointer
    | device_opaque _ => Err OutOfBounds
    end.

(** The body of the loop: the [phys_offset] of the next page, and the map. *)
Definition register_page (addr start_addr orig_size phys_offset region_offset : Z) (mm : mem_map) :
    res (Z * mem_map) :=
  let index := addr >> TARGET_PAGE_BITS in
  let '(start_addr2, end_addr2, need_subpage) := CHECK_SUBPAGE addr start_addr orig_size in
  let in_subpage (orig_memory orig_offset : Z) (m : machine) :=
    '(k, phys, T) ← find_subpage addr orig_memory orig_offset (mm_io mm);
    T ← subpage_register_at k start_addr2 end_addr2 phys_offset region_offset T;
    Ok (phys_offset, mkMemMap (put_phys_page index (mkPhys phys 0) m) T) in
  let fresh :=
    let '(_, m) := phys_page_find_alloc index (mm_mach mm) in
    let m := put_phys_page index (mkPhys phys_offset region_offset) m in
    if moving phys_offset then Ok (next_phys_offset phys_offset, mkMemMap m (mm_io mm))
    else if need_subpage then in_subpage IO_MEM_UNASSIGNED (page_of addr) m
    else Ok (phys_offset, mkMemMap m (mm_io mm)) in
  match phys_page_find (mm_mach mm) index with
  | Some p =>
      if SoftTlb.phys_offset p =? IO_MEM_UNASSIGNED then fresh
      else if need_subpage then in_subpage (SoftTlb.phys_offset p) (SoftTlb.region_offset p) (mm_mach mm)
      else Ok (next_phys_offset phys_offset,
               mkMemMap (put_phys_page index (mkPhys phys_offset (SoftTlb.region_offset p)) (mm_mach mm))
                 (mm_io mm))
  | None => fresh
  end.

(** The do-while loop; each round moves [addr] on by a page. *)
Fixpoint register_loop (fuel : nat) (addr end_addr start_addr orig_size phys_offset region_offset : Z)
    (mm : mem_map) : res mem_map :=
  match fuel with
  | O => Err Diverges
  | S fuel =>
      '(phys_offset, mm) ← register_page addr start_addr orig_size phys_offset region_offset mm;
      let region_offset := u64 (region_offset + TARGET_PAGE_SIZE) in
      let addr := u32 (addr + TARGET_PAGE_SIZE) in
      if addr =? end_addr then Ok mm
      else register_loop fuel addr end_addr start_addr orig_size phys_offset region_offset mm
  end.

(** The number of rounds: [addr] meets [end_addr] modulo 2^32, after 2^22 rounds
    when the size is a multiple of 2^32. *)
Definition register_rounds (size : Z) : nat := S (Z.to_nat (u32 (size - 1) >> TARGET_PAGE_BITS)).

(** [envs] are the CPUs' TLBs. *)
Definition cpu_register_physical_memory_log (start_addr size phys_offset region_offset : Z)
    (mm : mem_map) (envs : list soft_tlb) : res (mem_map * list soft_tlb) :=
  let orig_size := size in
  let region_offset := if phys_offset =? IO_MEM_UNASSIGNED then start_addr else region_offset in
  let region_offset := u64 region_offset .& Z.lnot (TARGET_PAGE_SIZE - 1) in
  let size := TARGET_PAGE_ALIGN size in
  let end_addr := u32 (start_addr + u32 size) in
  mm ← register_loop (register_rounds size) start_addr end_addr start_addr orig_size
         phys_offset region_offset mm;
  Ok (mm, map (λ t, tlb_flush t true) envs).

Definition cpu_register_physical_memory_offset (start_addr size phys_offset region_offset : Z)
    (mm : mem_map) (envs : list soft_tlb) : res (mem_map * list soft_tlb) :=
  cpu_register_physical_memory_log start_addr size phys_offset region_offset mm envs.
Definition cpu_register_physical_memory (start_addr size phys_offset : Z)
    (mm : mem_map) (envs : list soft_tlb) : res (mem_map * list soft_tlb) :=
  cpu_register_physical_memory_offset start_addr size phys_offset 0 mm envs.

Definition cpu_get_physical_page_desc (addr : Z) (m : machine) : Z :=
  match phys_page_find m (addr >> TARGET_PAGE_BITS) with
  | None => IO_MEM_UNASSIGNED
  | Some p => SoftTlb.phys_offset p
  end.

(** ** Which handler an access reaches *)

(** [subpage_readlen] and [subpage_writelen] call the function their slot points
    to, with the slot's argument and the address plus its offset; any other
    function is where the access ends. *)
Fixpoint io_call (fuel : nat) (wr : bool) (T : io_tables) (f : io_func) (op : io_opaque) (addr : Z) :
    res (io_func * io_opaque * Z) :=
  match f with
  | subpage_mem len =>
      match fuel, op with
      | O, _ => Err Diverges
      | S fuel, subpage_opaque k =>
          sp ← aget (subpages T) k;
          let s := sub_slots wr sp (SUBPAGE_IDX addr) len in
          '(memory, i) ← from_option_res NullPointer (slot_func s);
          row ← aget (io_mem wr T) memory;
          g ← aget row i;
          g ← from_option_res NullPointer g;
          io_call fuel wr T g (slot_opaque s) (u32 (addr + slot_region_offset s))
      | _, no_opaque => Err NullPointer
      | _, device_opaque _ => Err OutOfBounds
      end
  | _ => Ok (f, op, addr)
  end.

(** [io_mem_read[io_index][len](io_mem_opaque[io_index], addr)] *)
Definition io_dispatch (wr : bool) (T : io_tables) (io_index len addr : Z) :
    res (io_func * io_opaque * Z) :=
  row ← aget (io_mem wr T) io_index;
  f ← aget row len;
  f ← from_option_res NullPointer f;
  op ← aget (io_mem_opaque T) io_index;
  io_call 2 wr T f op addr.

Inductive phys_target :=
| RamTarget (ram_addr : Z)
| IoTarget (f : io_func) (op : io_opaque) (addr : Z).

(** The choice every access function makes: guest RAM, or a call of the handler
    for the width in the tables. *)
Definition phys_access (wr : bool) (len addr : Z) (mm : mem_map) : res phys_target :=
  let '(pd, p) := page_descriptor (mm_mach mm) addr in
  if (if wr then negb (is_ram pd) else is_io pd) then
    '(f, op, addr) ← io_dispatch wr (mm_io mm) (io_index pd) len (io_address addr p);
    Ok (IoTarget f op addr)
  else Ok (RamTarget (ram_offset pd addr)).
