(* ===== verification/MemMapFacts.v ===== *)
(** * Correctness of the physical memory map

    A page of the map holds RAM, the functions of a handle, or a subpage whose
    slots point to the functions of other handles.  [map_wf] says that handles
    in use stay in use and that no two pages share a subpage; registering a
    device then sends exactly its addresses to its functions. *)
From S2P Require Import Prelude SoftTlb ArmMmu PhysMem PhysMemFacts RamBlocks MemMap.

(** ** The tables *)
Record tables_ok (T : io_tables) : Prop := {
  tok_used : zlength (io_mem_used T) = IO_MEM_NB_ENTRIES;
  tok_rows : ∀ wr, zlength (io_mem wr T) = IO_MEM_NB_ENTRIES;
  tok_row : ∀ wr n row, zlookup (io_mem wr T) n = Some row → zlength row = 4;
  tok_opaque : zlength (io_mem_opaque T) = IO_MEM_NB_ENTRIES
}.

(** The function in a slot of a table, if there is one. *)
Definition cell (tbl : list (list (option io_func))) (n i : Z) : option io_func :=
  row ← zlookup tbl n; f ← zlookup row i; f.
Definition handler (wr : bool) (T : io_tables) (n i : Z) : option io_func := cell (io_mem wr T) n i.

Definition used (T : io_tables) (n : Z) : Prop := zlookup (io_mem_used T) n = Some true.

Definition is_subpage_func (f : io_func) : bool :=
  match f with subpage_mem _ => true | _ => false end.

(** A handle of RAM, of a built-in area or of a device. *)
Definition row_plain (T : io_tables) (n : Z) : Prop :=
  used T n ∧ ∀ wr i f, handler wr T n i = Some f → is_subpage_func f = false.

(** The handle of subpage [k]. *)
Record row_sub (T : io_tables) (n k : Z) : Prop := {
  rs_used : used T n;
  rs_handler : ∀ wr i, 0 ≤ i < 3 → handler wr T n i = Some (subpage_mem i);
  rs_opaque : zlookup (io_mem_opaque T) n = Some (subpage_opaque k);
  rs_range : 0 ≤ k < zlength (subpages T)
}.

Record io_wf (T : io_tables) : Prop := {
  iw_tables : tables_ok T;
  iw_slots : ∀ wr k sp idx i m j, zlookup (subpages T) k = Some sp →
    slot_func (sub_slots wr sp idx i) = Some (m, j) → row_plain T m ∧ 0 ≤ j < 4;
  iw_fourth : ∀ wr n, handler wr T n 3 = None;
  iw_reserved : ∀ n, 0 ≤ n < 5 → row_plain T n;
  iw_unassigned : (∀ wr i, 0 ≤ i < 3 → handler wr T 2 i = Some (unassigned_mem i)) ∧
    zlookup (io_mem_opaque T) 2 = Some no_opaque;
  iw_numbers : ∀ n k, zlookup (io_mem_opaque T) n = Some (subpage_opaque k) → k < zlength (subpages T);
  iw_subpages : ∀ n n' k, row_sub T n k → row_sub T n' k → n = n'
}.

Lemma used_range T n : tables_ok T → used T n → 0 ≤ n < IO_MEM_NB_ENTRIES.
Proof. intros [H _ _ _] Hu. apply zlookup_Some_range in Hu. by rewrite H in Hu. Qed.

(** The lookups of an access. *)
Lemma fetch_handler {A} wr T n i (k : option io_func → res A) :
  tables_ok T → 0 ≤ n < IO_MEM_NB_ENTRIES → 0 ≤ i < 4 →
  (row ← aget (io_mem wr T) n; f ← aget row i; k f) = k (handler wr T n i).
Proof.
  intros Hok Hn Hi. destruct (zlookup_in_range (io_mem wr T) n) as [row Hr]; [by rewrite tok_rows|].
  pose proof (tok_row _ Hok wr n row Hr) as Hl.
  destruct (zlookup_in_range row i) as [f Hf]; [lia|].
  unfold handler, cell, aget. rewrite Hr. cbn [from_option_res mbind option_bind res_bind]. rewrite Hf. done.
Qed.

Lemma fetch_opaque T n : tables_ok T → 0 ≤ n < IO_MEM_NB_ENTRIES →
  ∃ op, zlookup (io_mem_opaque T) n = Some op ∧ aget (io_mem_opaque T) n = Ok op.
Proof.
  intros Hok Hn. destruct (zlookup_in_range (io_mem_opaque T) n) as [op Ho]; [by rewrite tok_opaque|].
  exists op. split; [done|]. by apply aget_Ok.
Qed.

(** ** Filling a subpage *)
Section register.
Context (T : io_tables) (Hok : tables_ok T) (memory ro : Z) (op : io_opaque).
Context (Hm : 0 ≤ memory < IO_MEM_NB_ENTRIES) (Hop : zlookup (io_mem_opaque T) memory = Some op).

(** What a slot holds after [memory] was registered for it. *)
Definition new_slot (wr : bool) (i : Z) (old : subslot) : subslot :=
  match handler wr T memory i with Some _ => mkSlot (Some (memory, i)) op ro | None => old end.

Lemma register_slot_ok wr idx i sp : 0 ≤ i < 4 →
  ∃ sp', register_slot wr T memory ro idx i sp = Ok sp' ∧
    ∀ j k, sp' j k = if decide (j = idx ∧ k = i) then new_slot wr i (sp j k) else sp j k.
Proof.
  intros Hi. unfold register_slot, new_slot. rewrite (fetch_handler wr T memory i) by done.
  destruct (handler wr T memory i) as [f|].
  - rewrite (aget_Ok _ _ _ Hop), bind_ret. eexists. split; [done|]. intros j k. unfold set_slot.
    destruct (Z.eqb_spec j idx), (Z.eqb_spec k i); cbn [andb]; case_decide; lia || done.
  - exists sp. split; [done|]. intros j k. by case_decide.
Qed.

Lemma register_widths_ok n idx i sp : 0 ≤ i → i + Z.of_nat n ≤ 4 →
  ∃ sp', register_widths n T memory ro idx i sp = Ok sp' ∧
    ∀ wr j k, sub_slots wr sp' j k =
      if decide (j = idx ∧ i ≤ k < i + Z.of_nat n) then new_slot wr k (sub_slots wr sp j k)
      else sub_slots wr sp j k.
Proof.
  revert i sp. induction n as [|n IH]; intros i sp Hi Hn; cbn [register_widths].
  { exists sp. split; [done|]. intros wr j k. by rewrite decide_False by lia. }
  destruct (register_slot_ok false idx i (sub_read sp)) as (rd & -> & Hrd); [lia|].
  destruct (register_slot_ok true idx i (sub_write sp)) as (wt & -> & Hwt); [lia|].
  rewrite !bind_ret. destruct (IH (i + 1) (mkSubpage (base sp) rd wt)) as (sp' & -> & Hsp); [lia|lia|].
  exists sp'. split; [done|]. intros wr j k. rewrite Hsp.
  assert (sub_slots wr (mkSubpage (base sp) rd wt) j k =
    if decide (j = idx ∧ k = i) then new_slot wr i (sub_slots wr sp j k) else sub_slots wr sp j k) as ->
    by (by destruct wr; cbn).
  repeat case_decide; try lia; try done.
  match goal with H : j = idx ∧ k = i |- _ => by destruct H as [_ ->] end.
Qed.

Lemma register_bytes_ok n idx sp :
  ∃ sp', register_bytes n T memory ro idx sp = Ok sp' ∧
    ∀ wr j k, sub_slots wr sp' j k =
      if decide (idx ≤ j < idx + Z.of_nat n ∧ 0 ≤ k < 4) then new_slot wr k (sub_slots wr sp j k)
      else sub_slots wr sp j k.
Proof.
  revert idx sp. induction n as [|n IH]; intros idx sp; cbn [register_bytes].
  { exists sp. split; [done|]. intros wr j k. by rewrite decide_False by lia. }
  destruct (register_widths_ok 4 idx 0 sp) as (sp1 & -> & H1); [lia|lia|]. rewrite bind_ret.
  destruct (IH (idx + 1) sp1) as (sp' & -> & Hsp). exists sp'. split; [done|].
  intros wr j k. rewrite Hsp, H1 by done. repeat case_decide; lia || done.
Qed.
End register.

Lemma page_flags_small a : 0 ≤ a < TARGET_PAGE_SIZE → page_flags a = a.
Proof. intros Ha. rewrite page_flags_mod. apply Z.mod_small. exact Ha. Qed.

(** Only the subpages change, one of them, and its slots lead to handles in use. *)
Lemma io_wf_subpage T k sp sp' : io_wf T → zlookup (subpages T) k = Some sp →
  (∀ wr idx i m j, slot_func (sub_slots wr sp' idx i) = Some (m, j) → row_plain T m ∧ 0 ≤ j < 4) →
  io_wf (T <| subpages := zinsert k sp' (subpages T) |>).
Proof.
  intros [[H1 H2 H3 H4] Hs H5 Hr Hu Hnum Hn] Hk Hsp. split.
  - by split.
  - intros wr k' sp'' idx i m j. cbn [subpages set_field set_subpages].
    rewrite zlookup_zinsert_dec by (by eapply zlookup_Some_range). case_decide.
    + intros [= <-]. apply Hsp.
    + apply Hs.
  - exact H5.
  - exact Hr.
  - exact Hu.
  - intros n k'. cbn [subpages set_field set_subpages]. rewrite zlength_zinsert. apply Hnum.
  - intros n n' k' [A1 A2 A3 A4] [B1 B2 B3 B4].
    cbn [subpages set_field set_subpages] in A4, B4. rewrite zlength_zinsert in A4, B4.
    by apply (Hn n n' k').
Qed.

Lemma subpage_register_at_ok T k sp s e po ro op : io_wf T → zlookup (subpages T) k = Some sp →
  0 ≤ s < TARGET_PAGE_SIZE → 0 ≤ e < TARGET_PAGE_SIZE → row_plain T (po >> IO_MEM_SHIFT) →
  zlookup (io_mem_opaque T) (po >> IO_MEM_SHIFT) = Some op →
  ∃ sp', let T' := T <| subpages := zinsert k sp' (subpages T) |> in
    subpage_register_at k s e po ro T = Ok T' ∧ io_wf T' ∧
    ∀ wr j i, sub_slots wr sp' j i =
      if decide (s ≤ j ≤ e ∧ 0 ≤ i < 4)
      then new_slot T (po >> IO_MEM_SHIFT) ro op wr i (sub_slots wr sp j i) else sub_slots wr sp j i.
Proof.
  intros Hwf Hk Hs He Hrow Hop. pose proof (iw_tables _ Hwf) as Hok.
  pose proof (used_range _ _ Hok (proj1 Hrow)) as Hm.
  destruct (register_bytes_ok T Hok (po >> IO_MEM_SHIFT) ro op Hm Hop (Z.to_nat (e - s + 1)) s sp)
    as (sp' & E & Hsp).
  assert (∀ wr j i, sub_slots wr sp' j i =
      if decide (s ≤ j ≤ e ∧ 0 ≤ i < 4)
      then new_slot T (po >> IO_MEM_SHIFT) ro op wr i (sub_slots wr sp j i) else sub_slots wr sp j i) as Hsp'.
  { intros wr j i. rewrite Hsp. repeat case_decide; lia || done. }
  exists sp'. cbv zeta. split; [|split; [|exact Hsp']].
  - unfold subpage_register_at. rewrite (aget_Ok _ _ _ Hk), bind_ret. unfold subpage_register, SUBPAGE_IDX.
    rewrite !page_flags_small, E by done.
    rewrite !Z.geb_leb, (proj2 (Z.leb_gt _ _) (proj2 Hs)), (proj2 (Z.leb_gt _ _) (proj2 He)).
    cbn [orb]. rewrite bind_ret, aput_Ok by (by eapply zlookup_Some_range). done.
  - apply (io_wf_subpage T k sp); [done|done|]. intros wr idx i m j. rewrite Hsp'. unfold new_slot.
    case_decide as Hd; [destruct (handler _ _ _ _)|]; [|by apply (iw_slots _ Hwf wr k)..].
    intros [= <- <-]. split; [done|lia].
Qed.

(** ** Handles *)
Definition rows_ok (tbl : list (list (option io_func))) : Prop :=
  zlength tbl = IO_MEM_NB_ENTRIES ∧ ∀ n row, zlookup tbl n = Some row → zlength row = 4.

Lemma put_handler_ok tbl n i f : rows_ok tbl → 0 ≤ n < IO_MEM_NB_ENTRIES → 0 ≤ i < 4 →
  ∃ tbl', put_handler tbl n i f = Ok tbl' ∧ rows_ok tbl' ∧
    ∀ m j, cell tbl' m j = if decide (m = n ∧ j = i) then f else cell tbl m j.
Proof.
  intros [Hl Hr] Hn Hi. destruct (zlookup_in_range tbl n) as [row Hrow]; [by rewrite Hl|].
  pose proof (Hr n row Hrow) as Hlen. unfold put_handler.
  rewrite (aget_Ok _ _ _ Hrow), bind_ret, aput_Ok, bind_ret by lia.
  rewrite aput_Ok by (by rewrite Hl). eexists. split; [done|]. split.
  - split; [by rewrite zlength_zinsert|]. intros m row'. rewrite zlookup_zinsert_dec by (by rewrite Hl).
    case_decide; [|by apply Hr]. intros [= <-]. by rewrite zlength_zinsert.
  - intros m j. unfold cell. rewrite zlookup_zinsert_dec by (by rewrite Hl).
    destruct (decide (n = m)) as [<-|Hne]; [|by rewrite decide_False by (by intros [-> _])].
    cbn [mbind option_bind]. rewrite zlookup_zinsert_dec by lia. rewrite Hrow. cbn [mbind option_bind].
    destruct (decide (i = j)) as [<-|]; [by rewrite decide_True by done|by rewrite decide_False by lia].
Qed.

Lemma put_handlers_ok fs tbl n i : rows_ok tbl → 0 ≤ n < IO_MEM_NB_ENTRIES → 0 ≤ i →
  i + zlength fs ≤ 4 →
  ∃ tbl', put_handlers tbl n i fs = Ok tbl' ∧ rows_ok tbl' ∧
    ∀ m j, cell tbl' m j =
      if decide (m = n ∧ i ≤ j < i + zlength fs) then mjoin (zlookup fs (j - i)) else cell tbl m j.
Proof.
  revert tbl i. induction fs as [|f fs IH]; intros tbl i Hok Hn Hi Hl; cbn [put_handlers].
  { exists tbl. split; [done|]. split; [done|]. intros m j.
    rewrite decide_False; [done|]. change (zlength []) with 0. lia. }
  assert (zlength (f :: fs) = 1 + zlength fs) as El by (unfold zlength; cbn [length]; lia).
  assert (0 ≤ zlength fs) by (unfold zlength; lia). rewrite El in *.
  destruct (put_handler_ok tbl n i f Hok Hn) as (t1 & -> & Hok1 & H1); [lia|]. rewrite bind_ret.
  destruct (IH t1 (i + 1) Hok1 Hn) as (t2 & -> & Hok2 & H2); [lia|lia|].
  exists t2. split; [done|]. split; [done|]. intros m j. rewrite H2, H1.
  destruct (decide (m = n)) as [->|]; [|by rewrite !decide_False by tauto].
  destruct (decide (j = i)) as [->|].
  - rewrite decide_False, !decide_True by lia. by rewrite Z.sub_diag.
  - rewrite (decide_False (P := n = n ∧ j = i)) by tauto.
    destruct (decide (i + 1 ≤ j < i + 1 + zlength fs)).
    + rewrite !decide_True by lia. unfold zlookup.
      rewrite !(proj2 (Z.leb_le _ _)) by lia.
      replace (Z.to_nat (j - i)) with (S (Z.to_nat (j - (i + 1)))) by lia. done.
    + by rewrite !decide_False by lia.
Qed.

(** Free entries of the tables. *)
Definition free_entries (T : io_tables) : nat := length (filter (λ u, u = false) (io_mem_used T)).

Lemma get_free_io_mem_idx_ok T : (0 < free_entries T)%nat →
  ∃ n, get_free_io_mem_idx T = (Some n, T <| io_mem_used := zinsert n true (io_mem_used T) |>) ∧
    zlookup (io_mem_used T) n = Some false ∧
    free_entries T = S (free_entries (T <| io_mem_used := zinsert n true (io_mem_used T) |>)).
Proof.
  unfold free_entries, get_free_io_mem_idx. intros Hf.
  destruct (list_find _ (io_mem_used T)) as [[i u]|] eqn:E.
  - apply list_find_Some in E as (Hl & -> & _). exists (Z.of_nat i).
    unfold zinsert, zlookup. rewrite (proj2 (Z.leb_le _ _)) by lia. rewrite Nat2Z.id.
    split; [done|]. split; [done|]. cbn [io_mem_used set_field set_io_mem_used].
    rewrite <- (take_drop_middle _ _ _ Hl) at 1.
    rewrite insert_take_drop by (by eapply lookup_lt_Some).
    rewrite !filter_app, filter_cons_True, filter_cons_False, !length_app by done. cbn [length]. lia.
  - apply list_find_None in E. exfalso. revert Hf.
    rewrite Forall_forall in E. destruct (filter _ _) as [|u l] eqn:F; [cbn; lia|].
    assert (u ∈ filter (λ u, u = false) (io_mem_used T)) as [Hu Hin]%list_elem_of_filter by (rewrite F; left).
    by destruct (E u Hin).
Qed.

(** What a registration that finds a free entry does to the tables. *)
Record registered (T : io_tables) (n : Z) (mem_read mem_write : list (option io_func))
    (op : io_opaque) (T' : io_tables) : Prop := {
  rg_range : 0 ≤ n < IO_MEM_NB_ENTRIES;
  rg_unused : zlookup (io_mem_used T) n = Some false;
  rg_used : ∀ m, used T' m ↔ m = n ∨ used T m;
  rg_handler : ∀ wr m i, handler wr T' m i =
    if decide (m = n ∧ 0 ≤ i < 3) then mjoin (zlookup (if wr then mem_write else mem_read) i)
    else handler wr T m i;
  rg_opaque : ∀ m, zlookup (io_mem_opaque T') m = if decide (n = m) then Some op else zlookup (io_mem_opaque T) m;
  rg_subpages : subpages T' = subpages T;
  rg_tables : tables_ok T';
  rg_free : free_entries T = S (free_entries T')
}.

Lemma register_io_memory_ok T mem_read mem_write op : tables_ok T → (0 < free_entries T)%nat →
  zlength mem_read = 3 → zlength mem_write = 3 →
  ∃ n T', cpu_register_io_memory mem_read mem_write op T
          = Ok ((n << IO_MEM_SHIFT) .| subwidth mem_read mem_write, T') ∧
    registered T n mem_read mem_write op T'.
Proof.
  intros Hok Hf Hr Hw. unfold cpu_register_io_memory, cpu_register_io_memory_fixed. cbn [Z.leb].
  change (0 <=? 0) with true. cbn iota.
  destruct (get_free_io_mem_idx_ok T Hf) as (n & -> & Hn & Hfree).
  set (T1 := T <| io_mem_used := _ |>) in *.
  assert (0 ≤ n < IO_MEM_NB_ENTRIES) as Hrange.
  { apply zlookup_Some_range in Hn. by rewrite (tok_used _ Hok) in Hn. }
  destruct (put_handlers_ok mem_read (io_mem_reads T1) n 0) as (rd & -> & [R1 R2] & R3);
    [split; [apply (tok_rows _ Hok false)|apply (tok_row _ Hok false)]|done|done|lia|].
  destruct (put_handlers_ok mem_write (io_mem_writes T1) n 0) as (wt & -> & [W1 W2] & W3);
    [split; [apply (tok_rows _ Hok true)|apply (tok_row _ Hok true)]|done|done|lia|].
  rewrite !bind_ret. change (io_mem_opaque T1) with (io_mem_opaque T).
  rewrite aput_Ok, bind_ret by (by rewrite (tok_opaque _ Hok)).
  exists n. eexists. split; [reflexivity|]. rewrite Hr in R3. rewrite Hw in W3. split; try done.
  - intros m. unfold used. cbn [io_mem_used set_field set_io_mem_used set_io_mem_opaque set_io_mem_writes set_io_mem_reads T1].
    rewrite zlookup_zinsert_dec by (by rewrite (tok_used _ Hok)). case_decide as Hm; [by split; [left|]|].
    split; [by right|]. by intros [->|].
  - intros wr m i. unfold handler. destruct wr; cbn [io_mem io_mem_writes io_mem_reads set_field set_io_mem_used set_io_mem_opaque set_io_mem_writes set_io_mem_reads].
    + rewrite W3. by rewrite Z.sub_0_r.
    + rewrite R3. by rewrite Z.sub_0_r.
  - intros m. cbn [io_mem_opaque set_field set_io_mem_opaque].
    rewrite zlookup_zinsert_dec by (by rewrite (tok_opaque _ Hok)). done.
  - split.
    + cbn. rewrite zlength_zinsert. apply (tok_used _ Hok).
    + intros wr. by destruct wr.
    + intros wr. by destruct wr.
    + cbn. rewrite zlength_zinsert. apply (tok_opaque _ Hok).
Qed.

(** ** Handles as numbers *)

(** Checks a property of the 128 table indices by computation. *)
Lemma all_indices (P : Z → bool) : forallb P (seqZ 0 128) = true →
  ∀ n, 0 ≤ n < IO_MEM_NB_ENTRIES → P n = true.
Proof.
  intros H n Hn. rewrite forallb_forall in H. apply H, list_elem_of_In, elem_of_seqZ.
  unfold IO_MEM_NB_ENTRIES in Hn. lia.
Qed.

Lemma subpage_handle n : 0 ≤ n < IO_MEM_NB_ENTRIES →
  u64 (((n << IO_MEM_SHIFT) .| 0) .| IO_MEM_SUBPAGE) = 8 * n + 2.
Proof.
  intros Hn. apply Z.eqb_eq.
  by apply (all_indices (λ n, u64 (((n << IO_MEM_SHIFT) .| 0) .| IO_MEM_SUBPAGE) =? 8 * n + 2)).
Qed.

(** The phys_offset of a page with a subpage, and of a page of a device: [sw] is
    0 or [IO_MEM_SUBWIDTH]. *)
Lemma handle_fields n fl : 0 ≤ n < IO_MEM_NB_ENTRIES → (fl = 0 ∨ fl = 2 ∨ fl = 4) →
  io_index (8 * n + fl) = n ∧ page_flags (8 * n + fl) = 8 * n + fl ∧
  (8 * n + fl) >> IO_MEM_SHIFT = n ∧ truth ((8 * n + fl) .& IO_MEM_ROMD) = false ∧
  truth ((8 * n + fl) .& IO_MEM_SUBPAGE) = (fl =? 2).
Proof.
  intros Hn Hfl.
  pose proof (all_indices (λ n, forallb (λ fl,
    (io_index (8 * n + fl) =? n) && (page_flags (8 * n + fl) =? 8 * n + fl) &&
    ((8 * n + fl) >> IO_MEM_SHIFT =? n) && negb (truth ((8 * n + fl) .& IO_MEM_ROMD)) &&
    Bool.eqb (truth ((8 * n + fl) .& IO_MEM_SUBPAGE)) (fl =? 2)) [0; 2; 4]) eq_refl n Hn) as H.
  rewrite forallb_forall in H. specialize (H fl). cbn beta in H.
  assert (In fl [0; 2; 4]) as Hin by (cbn; lia). specialize (H Hin).
  repeat (apply andb_prop in H as [H ?]).
  repeat match goal with H : (_ =? _) = true |- _ => apply Z.eqb_eq in H end.
  split_and!; [done|done|done|by apply negb_true_iff|by apply eqb_prop].
Qed.

(** ** Page descriptors *)
Definition is_page (i : Z) : Prop := 0 ≤ i < 2 ^ 22.

Lemma index_inj i j : is_page i → is_page j → l1_index i = l1_index j → l2_index i = l2_index j → i = j.
Proof.
  unfold is_page, l1_index, l2_index, L1_SIZE, L2_SIZE, L1_BITS, L2_BITS, TARGET_PAGE_BITS.
  change ((1 << (32 - 10 - 10)) - 1) with (Z.ones 12). change ((1 << 10) - 1) with (Z.ones 10).
  rewrite !Z.land_ones, !Z.shiftr_div_pow2 by lia.
  change (2 ^ 12) with 4096. change (2 ^ 10) with 1024. change (2 ^ 22) with 4194304.
  intros. Z.div_mod_to_equations. lia.
Qed.

Lemma find_put m i j p : is_page i → is_page j → is_Some (phys_page_find m i) →
  phys_page_find (put_phys_page i p m) j = if decide (j = i) then Some p else phys_page_find m j.
Proof.
  intros Hi Hj [q Hq]. unfold phys_page_find, put_phys_page in *.
  fold (l1_index i) in *. fold (l1_index j). fold (l2_index i) in Hq. fold (l2_index j).
  cbn [l1_phys_map set_field set_l1_phys_map].
  destruct (Z.eqb_spec (l1_index j) (l1_index i)) as [E1|E1].
  - rewrite E1 in *. destruct (l1_phys_map m (l1_index i)) as [pd|]; [|done]. cbn.
    destruct (Z.eqb_spec (l2_index j) (l2_index i)) as [E2|E2].
    + rewrite decide_True; [done|]. by apply index_inj.
    + rewrite decide_False; [done|]. by intros ->.
  - rewrite decide_False; [done|]. by intros ->.
Qed.

Lemma find_alloc m i j :
  is_Some (phys_page_find (phys_page_find_alloc i m).2 i) ∧
  (phys_page_find (phys_page_find_alloc i m).2 j = phys_page_find m j ∨
   phys_page_find m j = None ∧
   ∃ o, phys_page_find (phys_page_find_alloc i m).2 j = Some (mkPhys IO_MEM_UNASSIGNED o)).
Proof.
  unfold phys_page_find_alloc. destruct (l1_phys_map m (l1_index i)) as [pd|] eqn:E; cbn [snd].
  { split; [|by left]. unfold phys_page_find. fold (l1_index i). by rewrite E. }
  unfold phys_page_find. fold (l1_index i) (l1_index j) (l2_index i) (l2_index j).
  cbn [l1_phys_map set_field set_l1_phys_map]. rewrite Z.eqb_refl. split; [done|].
  destruct (Z.eqb_spec (l1_index j) (l1_index i)) as [->|]; [|by left].
  right. rewrite E. split; [done|]. by eexists.
Qed.

(** ** The invariant of the map *)
Definition page_desc (m : machine) (i : Z) : Z :=
  match phys_page_find m i with None => IO_MEM_UNASSIGNED | Some p => phys_offset p end.

Definition has_subpage (pd : Z) : bool := truth (pd .& IO_MEM_SUBPAGE).

(** The descriptor of a page leads to a subpage or to another handle in use. *)
Definition page_ok (T : io_tables) (p : PhysPageDesc) : Prop :=
  if has_subpage (phys_offset p)
  then ∃ n k, p = mkPhys (8 * n + 2) 0 ∧ row_sub T n k
  else row_plain T (io_index (phys_offset p)).

Record map_wf (mm : mem_map) : Prop := {
  mw_io : io_wf (mm_io mm);
  mw_page : ∀ i p, is_page i → phys_page_find (mm_mach mm) i = Some p → page_ok (mm_io mm) p;
  mw_own : ∀ i j p, is_page i → is_page j → has_subpage (phys_offset p) = true →
    phys_page_find (mm_mach mm) i = Some p → phys_page_find (mm_mach mm) j = Some p → i = j
}.

Lemma page_is_page addr : is_u32 addr → is_page (addr >> TARGET_PAGE_BITS).
Proof.
  unfold is_u32, is_page, TARGET_PAGE_BITS. rewrite Z.shiftr_div_pow2 by lia.
  intros. change (2 ^ 10) with 1024. change (2 ^ 22) with 4194304. change (2 ^ 32) with 4294967296 in *.
  Z.div_mod_to_equations. lia.
Qed.

(** Handles in use keep their functions. *)
Record io_keep (T T' : io_tables) : Prop := {
  ik_used : ∀ n, used T n → used T' n;
  ik_handler : ∀ n wr i, used T n → handler wr T' n i = handler wr T n i;
  ik_opaque : ∀ n, used T n → zlookup (io_mem_opaque T') n = zlookup (io_mem_opaque T) n;
  ik_length : zlength (subpages T) ≤ zlength (subpages T')
}.
#[export] Instance io_keep_preorder : PreOrder io_keep.
Proof.
  split; [by split|]. intros T1 T2 T3 [A1 A2 A3 A4] [B1 B2 B3 B4]. split.
  - auto.
  - intros n wr i Hn. rewrite B2 by auto. auto.
  - intros n Hn. rewrite B3 by auto. auto.
  - lia.
Qed.

(** Subpages other than [K] are as they were. *)
Definition sub_keep (K : Z) (T T' : io_tables) : Prop :=
  ∀ k, k ≠ K → 0 ≤ k < zlength (subpages T) → zlookup (subpages T') k = zlookup (subpages T) k.

Lemma keep_plain T T' n : io_keep T T' → row_plain T n → row_plain T' n.
Proof.
  intros Hx [Hu Hp]. split; [by apply (ik_used _ _ Hx)|].
  intros wr i f. rewrite (ik_handler _ _ Hx) by done. apply Hp.
Qed.

Lemma keep_sub T T' n k : io_keep T T' → row_sub T n k → row_sub T' n k.
Proof.
  intros Hx [H1 H2 H3 H4]. split.
  - by apply (ik_used _ _ Hx).
  - intros wr i Hi. rewrite (ik_handler _ _ Hx) by done. by apply H2.
  - by rewrite (ik_opaque _ _ Hx).
  - pose proof (ik_length _ _ Hx). lia.
Qed.

Lemma keep_page T T' p : io_keep T T' → page_ok T p → page_ok T' p.
Proof.
  unfold page_ok. intros Hx. destruct (has_subpage _).
  - intros (n & k & -> & Hr). exists n, k. split; [done|]. by eapply keep_sub.
  - by apply keep_plain.
Qed.

(** ** What an access reaches *)

(** Equal, up to the address an unassigned area is told. *)
Definition same_target (t t' : res phys_target) : Prop :=
  t = t' ∨ ∃ w op a a', t = Ok (IoTarget (unassigned_mem w) op a) ∧
                        t' = Ok (IoTarget (unassigned_mem w) op a').
#[export] Instance same_target_equiv : Equivalence same_target.
Proof.
  split.
  - by left.
  - intros x y [->|(w & op & a & a' & -> & ->)]; [by left|right; eauto 10].
  - intros x y z [->|(w & op & a & a' & -> & ->)] [<-|(w' & op' & b & b' & Hy & ->)]; [by left|right; eauto 10..|].
    injection Hy as <- <- <-. right. eauto 10.
Qed.

(** The access does not go to RAM. *)
Definition to_io (wr : bool) (pd : Z) : bool := if wr then negb (is_ram pd) else is_io pd.

Lemma io_call_plain fuel wr T f op addr : is_subpage_func f = false →
  io_call fuel wr T f op addr = Ok (f, op, addr).
Proof. by destruct fuel, f. Qed.

Lemma access_plain mm wr len addr pd p :
  tables_ok (mm_io mm) → page_descriptor (mm_mach mm) addr = (pd, p) → to_io wr pd = true →
  row_plain (mm_io mm) (io_index pd) → 0 ≤ len < 4 →
  phys_access wr len addr mm =
    match handler wr (mm_io mm) (io_index pd) len, zlookup (io_mem_opaque (mm_io mm)) (io_index pd) with
    | Some f, Some op => Ok (IoTarget f op (io_address addr p))
    | _, _ => Err NullPointer
    end.
Proof.
  intros Hok Hpd Hio Hrow Hlen. unfold phys_access, io_dispatch. rewrite Hpd. fold (to_io wr pd). rewrite Hio.
  pose proof (used_range _ _ Hok (proj1 Hrow)) as Hn.
  rewrite (fetch_handler wr (mm_io mm) (io_index pd) len) by done.
  destruct (fetch_opaque (mm_io mm) (io_index pd) Hok Hn) as (op & Ho & Ha).
  destruct (handler _ _ _ _) as [f|] eqn:E; [|done]. cbn [from_option_res].
  rewrite bind_ret, Ha, bind_ret, Ho, io_call_plain, bind_ret by (by apply (proj2 Hrow) in E). done.
Qed.

Lemma io_call_sub fuel wr T len k addr :
  io_call (S fuel) wr T (subpage_mem len) (subpage_opaque k) addr =
  (sp ← aget (subpages T) k;
   let s := sub_slots wr sp (SUBPAGE_IDX addr) len in
   '(memory, i) ← from_option_res NullPointer (slot_func s);
   row ← aget (io_mem wr T) memory;
   g ← aget row i;
   g ← from_option_res NullPointer g;
   io_call fuel wr T g (slot_opaque s) (u32 (addr + slot_region_offset s))).
Proof. done. Qed.

Definition slot_target (T : io_tables) (wr : bool) (s : subslot) (addr : Z) : res phys_target :=
  match slot_func s with
  | Some (m, j) =>
      match handler wr T m j with
      | Some f => Ok (IoTarget f (slot_opaque s) (u32 (addr + slot_region_offset s)))
      | None => Err NullPointer
      end
  | None => Err NullPointer
  end.

Lemma io_address_sub addr pd : io_address addr (Some (mkPhys pd 0)) = page_flags addr.
Proof.
  unfold io_address. cbn [region_offset]. rewrite Z.add_0_r. apply u32_small.
  pose proof (page_flags_bound addr) as H. unfold TARGET_PAGE_SIZE in H. unfold is_u32. lia.
Qed.

Lemma row_sub_range T n k : io_wf T → row_sub T n k → 5 ≤ n < IO_MEM_NB_ENTRIES.
Proof.
  intros Hwf [H1 H2 _ _]. pose proof (used_range _ _ (iw_tables _ Hwf) H1) as Hn.
  destruct (decide (n < 5)); [|lia]. exfalso.
  destruct (iw_reserved _ Hwf n ltac:(lia)) as [_ Hp].
  by specialize (Hp false 0 _ (H2 false 0 ltac:(lia))).
Qed.

Lemma to_io_handle wr n fl : 2 ≤ n < IO_MEM_NB_ENTRIES → (fl = 0 ∨ fl = 2 ∨ fl = 4) →
  to_io wr (8 * n + fl) = true.
Proof.
  intros Hn Hfl. destruct (handle_fields n fl ltac:(lia) Hfl) as (_ & F2 & _ & F4 & _).
  unfold to_io, is_ram, is_io, IO_MEM_RAM, IO_MEM_ROM. rewrite F2, F4.
  destruct wr; [by rewrite (proj2 (Z.eqb_neq _ _)) by lia|].
  by rewrite Z.gtb_ltb, (proj2 (Z.ltb_lt _ _)) by lia.
Qed.

Lemma access_sub mm wr len addr n k sp :
  io_wf (mm_io mm) → row_sub (mm_io mm) n k → zlookup (subpages (mm_io mm)) k = Some sp →
  phys_page_find (mm_mach mm) (addr >> TARGET_PAGE_BITS) = Some (mkPhys (8 * n + 2) 0) →
  0 ≤ len < 3 →
  phys_access wr len addr mm =
    slot_target (mm_io mm) wr (sub_slots wr sp (page_flags addr) len) (page_flags addr).
Proof.
  intros Hwf Hrow Hsp Hp Hlen. pose proof (iw_tables _ Hwf) as Hok.
  pose proof (row_sub_range _ _ _ Hwf Hrow) as Hn. destruct Hrow as [H1 H2 H3 H4].
  destruct (handle_fields n 2 ltac:(lia) ltac:(auto)) as (F1 & _).
  unfold phys_access, io_dispatch, page_descriptor. rewrite Hp. cbn [phys_offset].
  fold (to_io wr (8 * n + 2)). rewrite to_io_handle, F1 by (lia || auto).
  rewrite (fetch_handler wr (mm_io mm) n len) by lia || done. rewrite H2 by done.
  cbn [from_option_res]. rewrite bind_ret, (aget_Ok _ _ _ H3), bind_ret, io_address_sub.
  unfold slot_target. rewrite io_call_sub, (aget_Ok _ _ _ Hsp), bind_ret. cbv zeta. unfold SUBPAGE_IDX.
  rewrite page_flags_small by apply page_flags_bound.
  destruct (slot_func _) as [[m j]|] eqn:E; [|done]. cbn [from_option_res]. rewrite bind_ret.
  destruct (iw_slots _ Hwf wr k sp _ _ m j Hsp E) as [[Hu Hpl] Hj].
  rewrite (fetch_handler wr (mm_io mm) m j) by (done || by eapply used_range).
  destruct (handler wr (mm_io mm) m j) as [f|] eqn:Ef; [|done]. cbn [from_option_res].
  rewrite bind_ret, io_call_plain, bind_ret by (by eapply Hpl). done.
Qed.

Lemma access_unassigned mm wr len addr : io_wf (mm_io mm) → 0 ≤ len < 3 →
  page_desc (mm_mach mm) (addr >> TARGET_PAGE_BITS) = IO_MEM_UNASSIGNED →
  ∃ a, phys_access wr len addr mm = Ok (IoTarget (unassigned_mem len) no_opaque a).
Proof.
  intros Hwf Hlen Hd. destruct (iw_unassigned _ Hwf) as [Hh Ho].
  assert (∃ p, page_descriptor (mm_mach mm) addr = (IO_MEM_UNASSIGNED, p)) as [p Hp].
  { unfold page_descriptor, page_desc in *. destruct (phys_page_find _ _); [|by eexists]. rewrite <- Hd. by eexists. }
  exists (io_address addr p).
  rewrite (access_plain mm wr len addr IO_MEM_UNASSIGNED p); [|apply Hwf|done|by destruct wr| |lia].
  - change (io_index IO_MEM_UNASSIGNED) with 2. by rewrite Hh, Ho.
  - by apply (iw_reserved _ Hwf).
Qed.

(** The page and its tables are the same: so are its accesses. *)
Lemma access_frame K mm mm' wr len addr p :
  io_wf (mm_io mm) → io_wf (mm_io mm') → io_keep (mm_io mm) (mm_io mm') →
  sub_keep K (mm_io mm) (mm_io mm') → 0 ≤ len < 3 →
  phys_page_find (mm_mach mm) (addr >> TARGET_PAGE_BITS) = Some p →
  phys_page_find (mm_mach mm') (addr >> TARGET_PAGE_BITS) = Some p →
  page_ok (mm_io mm) p → (∀ n, p = mkPhys (8 * n + 2) 0 → ¬ row_sub (mm_io mm) n K) →
  phys_access wr len addr mm' = phys_access wr len addr mm.
Proof.
  intros Hwf Hwf' Hx Hsk Hlen Hp Hp' Hok HK. unfold page_ok in Hok.
  destruct (has_subpage (phys_offset p)) eqn:Es.
  - destruct Hok as (n & k & -> & Hrow). cbn [phys_offset] in *.
    assert (k ≠ K) as HkK by (intros ->; by destruct (HK n eq_refl)).
    destruct (zlookup_in_range (subpages (mm_io mm)) k) as [sp Hsp]; [apply Hrow|].
    rewrite (access_sub mm wr len addr n k sp) by done.
    rewrite (access_sub mm' wr len addr n k sp); [|done|by eapply keep_sub| |done|done].
    + unfold slot_target. destruct (slot_func _) as [[m j]|] eqn:E; [|done].
      destruct (iw_slots _ Hwf wr k sp _ _ m j Hsp E) as [[Hu _] _].
      by rewrite (ik_handler _ _ Hx).
    + rewrite Hsk; [done|done|apply Hrow].
  - destruct (to_io wr (phys_offset p)) eqn:Eio.
    + assert (page_descriptor (mm_mach mm) addr = (phys_offset p, Some p)) as D by (unfold page_descriptor; by rewrite Hp).
      assert (page_descriptor (mm_mach mm') addr = (phys_offset p, Some p)) as D' by (unfold page_descriptor; by rewrite Hp').
      rewrite (access_plain mm wr len addr _ _ (iw_tables _ Hwf) D Eio Hok) by lia.
      rewrite (access_plain mm' wr len addr _ _ (iw_tables _ Hwf') D' Eio) by (lia || by eapply keep_plain).
      destruct Hok as [Hu _]. by rewrite (ik_handler _ _ Hx), (ik_opaque _ _ Hx).
    + unfold phys_access, page_descriptor. rewrite Hp, Hp'. fold (to_io wr (phys_offset p)). by rewrite Eio.
Qed.

(** ** Setting one page *)
Record mach_set (m : machine) (i : Z) (p : PhysPageDesc) (m' : machine) : Prop := {
  ms_at : phys_page_find m' i = Some p;
  ms_other : ∀ j, is_page j → j ≠ i →
    phys_page_find m' j = phys_page_find m j ∨
    phys_page_find m j = None ∧ ∃ o, phys_page_find m' j = Some (mkPhys IO_MEM_UNASSIGNED o)
}.

Lemma fresh_set m i p : is_page i → mach_set m i p (put_phys_page i p (phys_page_find_alloc i m).2).
Proof.
  intros Hi. destruct (find_alloc m i i) as [Hs _]. split.
  - by rewrite find_put, decide_True.
  - intros j Hj Hne. rewrite find_put, decide_False by done. apply find_alloc.
Qed.

Lemma put_set m i p q : is_page i → phys_page_find m i = Some q → mach_set m i p (put_phys_page i p m).
Proof.
  intros Hi Hq. split.
  - by rewrite find_put, decide_True.
  - intros j Hj Hne. left. by rewrite find_put, decide_False.
Qed.

Lemma set_put m i p q m' : is_page i → mach_set m i p m' → mach_set m i q (put_phys_page i q m').
Proof.
  intros Hi [Ha Ho]. split.
  - by rewrite find_put, decide_True.
  - intros j Hj Hne. rewrite find_put, decide_False by done. by apply Ho.
Qed.

Lemma set_desc m i p m' j : mach_set m i p m' → is_page j → j ≠ i → page_desc m' j = page_desc m j.
Proof.
  intros Hs Hj Hne. unfold page_desc.
  destruct (ms_other _ _ _ _ Hs j Hj Hne) as [->|[-> [o ->]]]; done.
Qed.

Section set_page.
Context (mm : mem_map) (i : Z) (p : PhysPageDesc) (m' : machine) (T' : io_tables) (K : Z).
Context (Hwf : map_wf mm) (Hio : io_wf T') (Hkeep : io_keep (mm_io mm) T').
Context (Hsub : sub_keep K (mm_io mm) T') (Hset : mach_set (mm_mach mm) i p m').

Lemma set_page_wf : page_ok T' p →
  (has_subpage (phys_offset p) = true → ∀ j, is_page j → j ≠ i → phys_page_find (mm_mach mm) j ≠ Some p) →
  map_wf (mkMemMap m' T').
Proof.
  intros Hp Hown.
  assert (∀ j q, is_page j → j ≠ i → phys_page_find m' j = Some q →
    phys_page_find (mm_mach mm) j = Some q ∨ phys_offset q = IO_MEM_UNASSIGNED) as Hold.
  { intros j q Hj Hne Hq. destruct (ms_other _ _ _ _ Hset j Hj Hne) as [E|[_ [o E]]]; rewrite E in Hq; [by left|].
    injection Hq as <-. by right. }
  split; cbn [mm_mach mm_io]; [done| |].
  - intros j q Hj Hq. destruct (decide (j = i)) as [->|Hne].
    { rewrite (ms_at _ _ _ _ Hset) in Hq. by injection Hq as <-. }
    destruct (Hold j q Hj Hne Hq) as [Hq'|Hun].
    + apply keep_page with (mm_io mm); [done|]. by apply (mw_page _ Hwf j).
    + unfold page_ok. rewrite Hun. change (has_subpage IO_MEM_UNASSIGNED) with false. cbn iota.
      by apply (iw_reserved _ Hio).
  - intros j j' q Hj Hj' Hs Hq Hq'.
    destruct (decide (j = i)) as [->|Hne], (decide (j' = i)) as [->|Hne']; [done| | |].
    + rewrite (ms_at _ _ _ _ Hset) in Hq. injection Hq as <-.
      destruct (Hold j' p Hj' Hne' Hq') as [Hx|Hx]; [by destruct (Hown Hs j' Hj' Hne')|by rewrite Hx in Hs].
    + rewrite (ms_at _ _ _ _ Hset) in Hq'. injection Hq' as <-.
      destruct (Hold j p Hj Hne Hq) as [Hx|Hx]; [by destruct (Hown Hs j Hj Hne)|by rewrite Hx in Hs].
    + destruct (Hold j q Hj Hne Hq) as [Hx|Hx]; [|by rewrite Hx in Hs].
      destruct (Hold j' q Hj' Hne' Hq') as [Hx'|Hx']; [|by rewrite Hx' in Hs].
      by apply (mw_own _ Hwf j j' q).
Qed.

(** The accesses of the other pages. *)
Lemma set_page_other wr len addr :
  (∀ n j, is_page j → j ≠ i → phys_page_find (mm_mach mm) j = Some (mkPhys (8 * n + 2) 0) →
     ¬ row_sub (mm_io mm) n K) →
  is_u32 addr → addr >> TARGET_PAGE_BITS ≠ i → 0 ≤ len < 3 →
  same_target (phys_access wr len addr (mkMemMap m' T')) (phys_access wr len addr mm).
Proof.
  intros HK Ha Hne Hlen. pose proof (page_is_page addr Ha) as Hj.
  destruct (ms_other _ _ _ _ Hset _ Hj Hne) as [E|[E [o E']]].
  - destruct (phys_page_find (mm_mach mm) (addr >> TARGET_PAGE_BITS)) as [q|] eqn:Eq.
    + left. apply access_frame with K q; try done; [apply Hwf|by apply (mw_page _ Hwf (addr >> TARGET_PAGE_BITS))|].
      intros n ->. by apply (HK n (addr >> TARGET_PAGE_BITS)).
    + destruct (access_unassigned mm wr len addr) as [a ->]; [apply Hwf|done|unfold page_desc; by rewrite Eq|].
      destruct (access_unassigned (mkMemMap m' T') wr len addr) as [a' ->]; [done|done|unfold page_desc; cbn; by rewrite E|].
      right. eauto 10.
  - destruct (access_unassigned mm wr len addr) as [a ->]; [apply Hwf|done|unfold page_desc; by rewrite E|].
    destruct (access_unassigned (mkMemMap m' T') wr len addr) as [a' ->]; [done|done|unfold page_desc; cbn; by rewrite E'|].
    right. eauto 10.
Qed.
End set_page.

Lemma sub_has_subpage T n k : io_wf T → row_sub T n k → has_subpage (8 * n + 2) = true.
Proof.
  intros Hwf Hr. pose proof (row_sub_range _ _ _ Hwf Hr).
  destruct (handle_fields n 2 ltac:(lia) ltac:(auto)) as (_ & _ & _ & _ & F). exact F.
Qed.

(** ** One page of a registration *)

(** The page's addresses from [s] to [e] go to handle [n], moved by [ro]; no
    other access changes; [c] handles are taken. *)
Record page_step (mm mm' : mem_map) (i s e n ro : Z) (c : nat) : Prop := {
  st_wf : map_wf mm';
  st_keep : io_keep (mm_io mm) (mm_io mm');
  st_free : free_entries (mm_io mm) = (c + free_entries (mm_io mm'))%nat;
  st_in : ∀ wr len addr f op, is_u32 addr → 0 ≤ len < 3 → addr >> TARGET_PAGE_BITS = i →
    s ≤ page_flags addr ≤ e → handler wr (mm_io mm) n len = Some f →
    zlookup (io_mem_opaque (mm_io mm)) n = Some op →
    phys_access wr len addr mm' = Ok (IoTarget f op (u32 (page_flags addr + ro)));
  st_out : ∀ wr len addr, is_u32 addr → 0 ≤ len < 3 →
    (addr >> TARGET_PAGE_BITS = i → ¬ s ≤ page_flags addr ≤ e) →
    same_target (phys_access wr len addr mm') (phys_access wr len addr mm);
  st_desc : ∀ j, is_page j → j ≠ i → page_desc (mm_mach mm') j = page_desc (mm_mach mm) j
}.

(** The handle of a device: [h] has table index [n]. *)
Definition device_handle (T : io_tables) (h n : Z) : Prop :=
  (h = 8 * n ∨ h = 8 * n + 4) ∧ 3 ≤ n ∧ row_plain T n ∧
  ∀ wr i f, handler wr T n i = Some f → ∃ d, f = device_mem d.

Lemma keep_device T T' h n : io_keep T T' → device_handle T h n → device_handle T' h n.
Proof.
  intros Hk (H1 & H2 & H3 & H4). split; [done|]. split; [done|]. split; [by eapply keep_plain|].
  intros wr i f. rewrite (ik_handler _ _ Hk) by apply H3. apply H4.
Qed.

Lemma device_handle_fields T h n : tables_ok T → device_handle T h n →
  io_index h = n ∧ h >> IO_MEM_SHIFT = n ∧ page_flags h = h ∧ has_subpage h = false ∧
  moving h = false ∧ (∀ wr, to_io wr h = true) ∧ 3 ≤ n < IO_MEM_NB_ENTRIES.
Proof.
  intros Hok (Hh & Hn & Hrow & _). pose proof (used_range _ _ Hok (proj1 Hrow)) as Hr.
  assert (∃ fl, (fl = 0 ∨ fl = 2 ∨ fl = 4) ∧ fl ≠ 2 ∧ h = 8 * n + fl) as (fl & Hfl & Hfl2 & ->).
  { destruct Hh as [->| ->]; [exists 0|exists 4]; split_and!; auto; lia. }
  destruct (handle_fields n fl ltac:(lia) Hfl) as (F1 & F2 & F3 & F4 & F5).
  split_and!; try done.
  - unfold has_subpage. rewrite F5. by apply Z.eqb_neq.
  - unfold moving, IO_MEM_ROM. rewrite F2, F4, orb_false_r. apply Z.leb_gt. lia.
  - intros wr. apply to_io_handle; [lia|done].
  - lia.
Qed.

Section step.
Context (mm : mem_map) (i h n ro : Z) (Hwf : map_wf mm) (Hi : is_page i).
Context (Hdev : device_handle (mm_io mm) h n).

(** The whole page. *)
Lemma step_full m' : page_desc (mm_mach mm) i = IO_MEM_UNASSIGNED →
  mach_set (mm_mach mm) i (mkPhys h ro) m' →
  page_step mm (mkMemMap m' (mm_io mm)) i 0 (TARGET_PAGE_SIZE - 1) n ro 0.
Proof.
  intros Hd Hset. pose proof (mw_io _ Hwf) as Hio. pose proof (iw_tables _ Hio) as Hok.
  destruct (device_handle_fields _ _ _ Hok Hdev) as (F1 & _ & _ & F4 & _ & F6 & _).
  assert (page_ok (mm_io mm) (mkPhys h ro)) as Hp.
  { unfold page_ok. cbn [phys_offset]. rewrite F4, F1. apply Hdev. }
  assert (sub_keep (-1) (mm_io mm) (mm_io mm)) as Hsk by done.
  split; cbn [mm_io]; try done.
  - eapply (set_page_wf mm i); try done. cbn. by rewrite F4.
  - intros wr len addr f op Ha Hlen Hpg _ Hf Hop.
    rewrite (access_plain _ wr len addr h (Some (mkPhys h ro))).
    + cbn [mm_io]. by rewrite F1, Hf, Hop.
    + done.
    + unfold page_descriptor. cbn. by rewrite Hpg, (ms_at _ _ _ _ Hset).
    + apply F6.
    + cbn [mm_io]. rewrite F1. apply Hdev.
    + lia.
  - intros wr len addr Ha Hlen Hout.
    apply (set_page_other mm i (mkPhys h ro) m' (mm_io mm) (-1)); try done.
    + by intros ? ? ? ? ? [_ _ _ ?]; lia.
    + intros Hpg. apply (Hout Hpg). pose proof (page_flags_bound addr). lia.
  - intros j Hj Hne. by apply (set_desc _ i (mkPhys h ro)).
Qed.

(** More of a page that has a subpage. *)
Lemma step_register m' n0 k s e : phys_page_find (mm_mach mm) i = Some (mkPhys (8 * n0 + 2) 0) →
  row_sub (mm_io mm) n0 k → 0 ≤ s < TARGET_PAGE_SIZE → 0 ≤ e < TARGET_PAGE_SIZE →
  mach_set (mm_mach mm) i (mkPhys (8 * n0 + 2) 0) m' →
  ∃ T', subpage_register_at k s e h ro (mm_io mm) = Ok T' ∧
    page_step mm (mkMemMap m' T') i s e n ro 0.
Proof.
  intros Hp Hsub Hs He Hset. pose proof (mw_io _ Hwf) as Hio. pose proof (iw_tables _ Hio) as Hok.
  destruct (device_handle_fields _ _ _ Hok Hdev) as (_ & F2 & _ & _ & _ & _ & Hn).
  destruct (zlookup_in_range (subpages (mm_io mm)) k) as [sp Hsp]; [apply Hsub|].
  destruct (fetch_opaque (mm_io mm) n Hok ltac:(lia)) as (op & Hop & _).
  destruct (subpage_register_at_ok (mm_io mm) k sp s e h ro op Hio Hsp Hs He) as (sp' & E & W & Hsl);
    [rewrite F2; apply Hdev|by rewrite F2|].
  rewrite F2 in Hsl. set (T' := _ <| subpages := _ |>) in *. exists T'. split; [done|].
  assert (io_keep (mm_io mm) T') as Hkeep.
  { split; try done. unfold T'. cbn. by rewrite zlength_zinsert. }
  assert (sub_keep k (mm_io mm) T') as Hsk.
  { intros k' Hk' _. unfold T'. cbn [subpages set_field set_subpages]. by rewrite zlookup_zinsert_ne. }
  assert (zlookup (subpages T') k = Some sp') as Hsp'.
  { unfold T'. cbn [subpages set_field set_subpages]. by apply zlookup_zinsert, Hsub. }
  assert (row_sub T' n0 k) as Hsub' by (by eapply keep_sub).
  assert (∀ n' j, is_page j → j ≠ i → phys_page_find (mm_mach mm) j = Some (mkPhys (8 * n' + 2) 0) →
     ¬ row_sub (mm_io mm) n' k) as Hother.
  { intros n' j Hj Hne Hf Hr. rewrite (iw_subpages _ Hio n' n0 k Hr Hsub) in Hf.
    apply Hne. apply (mw_own _ Hwf j i (mkPhys (8 * n0 + 2) 0)); try done. cbn [phys_offset].
    by eapply sub_has_subpage. }
  assert (∀ wr len addr, addr >> TARGET_PAGE_BITS = i → 0 ≤ len < 3 →
    phys_access wr len addr (mkMemMap m' T') =
      slot_target T' wr (sub_slots wr sp' (page_flags addr) len) (page_flags addr)) as Hacc.
  { intros wr len addr Hpg Hlen. apply access_sub with n0 k; try done. cbn. by rewrite Hpg, (ms_at _ _ _ _ Hset). }
  split; cbn [mm_io]; try done.
  - eapply (set_page_wf mm i); try done.
    + unfold page_ok. cbn [phys_offset]. rewrite (sub_has_subpage _ _ _ Hio Hsub). by exists n0, k.
    + intros _ j Hj Hne Hf. by eapply (Hother n0 j).
  - intros wr len addr f op' Ha Hlen Hpg Hr Hf Hop'. rewrite Hacc, Hsl, decide_True by (done || lia).
    unfold new_slot. rewrite Hf. unfold slot_target. cbn [slot_func slot_opaque slot_region_offset].
    change (handler wr T' n len) with (handler wr (mm_io mm) n len). rewrite Hf. congruence.
  - intros wr len addr Ha Hlen Hout. destruct (decide (addr >> TARGET_PAGE_BITS = i)) as [Hpg|Hpg].
    + left. rewrite Hacc, Hsl, decide_False by (done || tauto).
      rewrite (access_sub mm wr len addr n0 k sp) by (done || by rewrite Hpg). done.
    + by apply (set_page_other mm i (mkPhys (8 * n0 + 2) 0) m' T' k).
  - intros j Hj Hne. by apply (set_desc _ i (mkPhys (8 * n0 + 2) 0)).
Qed.
End step.

(** A new subpage: its slots lead to the unassigned area. *)
Section init.
Context (mm : mem_map) (i n ro : Z) (Hwf : map_wf mm).
Context (Hun : page_desc (mm_mach mm) i = IO_MEM_UNASSIGNED).
Context (Hfree : (0 < free_entries (mm_io mm))%nat).

Definition with_subpage (b : Z) (T : io_tables) : io_tables :=
  T <| subpages := subpages T ++ [subpage_zero b] |>.

Lemma with_subpage_lookup b T k : zlookup (subpages (with_subpage b T)) k =
  if decide (k = zlength (subpages T)) then Some (subpage_zero b) else zlookup (subpages T) k.
Proof.
  unfold with_subpage, zlookup, zlength. cbn [subpages set_field set_subpages].
  destruct (Z.leb_spec 0 k); case_decide as Hk; try lia; try done.
  - subst. rewrite Nat2Z.id, lookup_app_r, Nat.sub_diag by lia. done.
  - destruct (decide (k < Z.of_nat (length (subpages T)))).
    + by rewrite lookup_app_l by lia.
    + rewrite !lookup_ge_None_2; [done|lia|]. rewrite length_app. cbn [length]. lia.
Qed.

(** The tables after the subpage's handle was registered. *)
Lemma subpage_handle_ok b : ∃ n0 T2,
  cpu_register_io_memory (handlers subpage_mem) (handlers subpage_mem)
    (subpage_opaque (zlength (subpages (mm_io mm)))) (with_subpage b (mm_io mm))
  = Ok ((n0 << IO_MEM_SHIFT) .| 0, T2) ∧
  io_wf T2 ∧ io_keep (mm_io mm) T2 ∧ row_sub T2 n0 (zlength (subpages (mm_io mm))) ∧
  subpages T2 = subpages (with_subpage b (mm_io mm)) ∧
  free_entries (mm_io mm) = S (free_entries T2).
Proof.
  set (T := mm_io mm) in *. set (k := zlength (subpages T)). pose proof (mw_io _ Hwf) as Hio. fold T in Hio.
  assert (tables_ok (with_subpage b T)) as Hok by (destruct (iw_tables _ Hio) as [H1 H2 H3 H4]; by split).
  destruct (register_io_memory_ok (with_subpage b T) (handlers subpage_mem) (handlers subpage_mem)
    (subpage_opaque k) Hok Hfree eq_refl eq_refl) as (n0 & T2 & E & [R1 R2 R3 R4 R5 R6 R7 R8]).
  exists n0, T2. split; [done|].
  assert (∀ m, used T m → m ≠ n0) as Hne.
  { intros m Hu ->. unfold used in Hu. change (io_mem_used (with_subpage b T)) with (io_mem_used T) in R2.
    rewrite R2 in Hu. done. }
  assert (zlength (subpages T2) = k + 1) as Hlen.
  { rewrite R6. unfold with_subpage, k, zlength. cbn [subpages set_field set_subpages].
    rewrite length_app. cbn [length]. lia. }
  assert (0 ≤ k) as Hk by (unfold k, zlength; lia).
  assert (io_keep T T2) as Hkeep.
  { split.
    - intros m Hu. apply R3. by right.
    - intros m wr j Hu. rewrite R4, decide_False; [done|]. intros [-> _]. by apply (Hne n0).
    - intros m Hu. rewrite R5, decide_False; [done|]. intros <-. by apply (Hne n0).
    - fold k. lia. }
  assert (row_sub T2 n0 k) as Hsub.
  { split; [apply R3; by left| |by rewrite R5, decide_True|lia].
    intros wr j Hj. rewrite R4, decide_True by done.
    assert (j = 0 ∨ j = 1 ∨ j = 2) as [->|[->| ->]] by lia; by destruct wr. }
  assert (∀ m k', row_sub T2 m k' → m = n0 ∧ k' = k ∨ row_sub T m k') as Hold.
  { intros m k' [A1 A2 A3 A4]. destruct (decide (m = n0)) as [->|Hm].
    - left. rewrite R5, decide_True in A3 by done. by injection A3 as <-.
    - right. assert (used T m) as Hu by (apply R3 in A1 as [?|?]; done).
      split; [done| | |].
      + intros wr j Hj. specialize (A2 wr j Hj). rewrite R4, decide_False in A2 by tauto. done.
      + by rewrite R5, decide_False in A3.
      + rewrite Hlen in A4. destruct (decide (k' = k)) as [->|]; [|fold k; lia]. exfalso.
        pose proof (iw_numbers _ Hio m k) as Hnum. rewrite R5, decide_False in A3 by done.
        specialize (Hnum A3). fold k in Hnum. lia. }
  split; [|by rewrite R6]. split; [exact R7| | | | | |].
  - intros wr k' sp idx j m l. rewrite R6, with_subpage_lookup. case_decide as Hk'.
    + intros [= <-]. by destruct wr.
    + intros Hsp Hf. destruct (iw_slots _ Hio wr k' sp idx j m l Hsp Hf) as [Hp Hl].
      split; [|done]. by eapply keep_plain.
  - intros wr m. rewrite R4, decide_False by lia. apply (iw_fourth _ Hio).
  - intros m Hm. eapply keep_plain; [done|]. by apply (iw_reserved _ Hio).
  - destruct (iw_reserved _ Hio 2 ltac:(lia)) as [Hu _]. destruct (iw_unassigned _ Hio) as [U1 U2]. split.
    + intros wr j Hj. rewrite (ik_handler _ _ Hkeep) by done. by apply U1.
    + by rewrite (ik_opaque _ _ Hkeep).
  - intros m k' Ho. rewrite R5 in Ho. case_decide; [injection Ho as <-; lia|].
    pose proof (iw_numbers _ Hio m k' Ho) as Hq. fold k in Hq. lia.
  - intros m m' k' Hm Hm'. pose proof (rs_range _ _ _ Hm) as Hr.
    destruct (Hold m k' Hm) as [[-> ->]|Ho], (Hold m' _ Hm') as [[-> Hk']|Ho']; [done| | |].
    + destruct Ho' as [_ _ _ ?]. unfold k in *. lia.
    + subst k'. destruct Ho as [_ _ _ ?]. unfold k in *. lia.
    + by apply (iw_subpages _ Hio m m' k').
Qed.

Lemma step_init b o : ∃ n0 k T',
  subpage_init b IO_MEM_UNASSIGNED o (mm_io mm) = Ok (k, 8 * n0 + 2, T') ∧ row_sub T' n0 k ∧
  ∀ m', mach_set (mm_mach mm) i (mkPhys (8 * n0 + 2) 0) m' → page_step mm (mkMemMap m' T') i 1 0 n ro 1.
Proof.
  set (T := mm_io mm) in *. set (k := zlength (subpages T)). pose proof (mw_io _ Hwf) as Hio. fold T in Hio.
  destruct (subpage_handle_ok b) as (n0 & T2 & E & W2 & K2 & S2 & Sp2 & Hf2). fold T k in E, K2, S2, Sp2, Hf2.
  pose proof (row_sub_range _ _ _ W2 S2) as Hn0.
  destruct (iw_unassigned _ W2) as [U1 U2].
  assert (zlookup (subpages T2) k = Some (subpage_zero b)) as Hk.
  { rewrite Sp2, with_subpage_lookup. by rewrite decide_True. }
  destruct (subpage_register_at_ok T2 k (subpage_zero b) 0 (TARGET_PAGE_SIZE - 1) IO_MEM_UNASSIGNED o no_opaque W2 Hk)
    as (sp' & E' & W' & Hsl); [done|done|by apply (iw_reserved _ W2)|done|].
  change (IO_MEM_UNASSIGNED >> IO_MEM_SHIFT) with 2 in Hsl.
  set (T' := T2 <| subpages := _ |>) in *. exists n0, k, T'.
  assert (row_sub T' n0 k) as S'.
  { destruct S2 as [A1 A2 A3 A4]. split; try done. unfold T'. cbn. by rewrite zlength_zinsert. }
  assert (zlookup (subpages T') k = Some sp') as Hsp'.
  { unfold T'. cbn [subpages set_field set_subpages]. by apply zlookup_zinsert, S2. }
  split; [|split; [done|]].
  { unfold subpage_init. fold k. fold (with_subpage b T). rewrite E, bind_ret. cbv zeta.
    rewrite E', bind_ret, subpage_handle by lia. done. }
  assert (io_keep T T') as Hkeep.
  { etransitivity; [exact K2|]. split; try done. unfold T'. cbn. by rewrite zlength_zinsert. }
  assert (sub_keep k T T') as Hsk.
  { intros k' Hk' Hr. unfold T'. cbn [subpages set_field set_subpages].
    rewrite zlookup_zinsert_ne by done. rewrite Sp2, with_subpage_lookup, decide_False; [done|].
    fold k. lia. }
  assert (∀ n', ¬ row_sub T n' k) as Hnew by (intros n' [_ _ _ ?]; unfold k in *; lia).
  intros m' Hset. split; cbn [mm_io]; try done.
  - eapply (set_page_wf mm i); try done.
    + unfold page_ok. cbn [phys_offset]. rewrite (sub_has_subpage _ _ _ W' S'). by exists n0, k.
    + intros _ j Hj Hne Hf. pose proof (mw_page _ Hwf j _ Hj Hf) as Hp. unfold page_ok in Hp.
      cbn [phys_offset] in Hp. rewrite (sub_has_subpage _ _ _ W' S') in Hp.
      destruct Hp as (n1 & k1 & [= Hn1] & Hr). assert (n1 = n0) as -> by lia.
      fold T in Hr. pose proof (keep_sub _ _ _ _ Hkeep Hr) as Hr'.
      pose proof (rs_opaque _ _ _ Hr') as O1. rewrite (rs_opaque _ _ _ S') in O1. injection O1 as <-.
      by apply (Hnew n0).
  - intros; lia.
  - intros wr len addr Ha Hlen _. destruct (decide (addr >> TARGET_PAGE_BITS = i)) as [Hpg|Hpg].
    + destruct (access_unassigned mm wr len addr Hio Hlen) as [a ->]; [by rewrite Hpg|].
      assert (phys_page_find m' (addr >> TARGET_PAGE_BITS) = Some (mkPhys (8 * n0 + 2) 0)) as Hf'
        by (rewrite Hpg; apply Hset).
      rewrite (access_sub (mkMemMap m' T') wr len addr n0 k sp') by done.
      pose proof (page_flags_bound addr). rewrite Hsl, decide_True by lia. unfold new_slot. rewrite U1 by done.
      unfold slot_target. cbn [slot_func slot_opaque slot_region_offset mm_io].
      change (handler wr T' 2 len) with (handler wr T2 2 len). rewrite U1 by done. right. eauto 10.
    + apply (set_page_other mm i (mkPhys (8 * n0 + 2) 0) m' T' k); done.
  - intros j Hj Hne. by apply (set_desc _ i (mkPhys (8 * n0 + 2) 0)).
Qed.
End init.

(** ** The accesses of [PhysMem] *)

(** The interface [IoPorts] of the access functions, as the tables implement
    it: [dev] is what the functions do, given their argument and the log2 of the
    width (and the value, for a write). *)
Section ports.
Context {D : Type} (rd : io_func → io_opaque → Z → Z → D → Z * D).
Context (wt : io_func → io_opaque → Z → Z → Z → D → D).

Record ports_follow `{IoPorts D} (T : io_tables) : Prop := {
  pf_read : ∀ idx w addr d f op a, io_dispatch false T idx w addr = Ok (f, op, a) →
    io_mem_read idx w addr d = rd f op w a d;
  pf_write : ∀ idx w addr v d f op a, io_dispatch true T idx w addr = Ok (f, op, a) →
    io_mem_write idx w addr v d = wt f op w a v d
}.

(** A call that has no function is not made. *)
Definition table_ports (T : io_tables) : IoPorts D := {|
  io_mem_read := λ idx w addr d,
    match io_dispatch false T idx w addr with Ok (f, op, a) => rd f op w a d | Err _ => (0, d) end;
  io_mem_write := λ idx w addr v d,
    match io_dispatch true T idx w addr with Ok (f, op, a) => wt f op w a v d | Err _ => d end
|}.

Lemma table_ports_follow T : @ports_follow (table_ports T) T.
Proof. split; intros until a; cbn; by intros ->. Qed.

Context `{IoPorts D} (T : io_tables) (Hports : ports_follow T).

(** Word accesses call the function that [phys_access] names. *)
Lemma ldl_phys_device addr s f op a :
  phys_access false 2 addr (mkMemMap (mach s) T) = Ok (IoTarget f op a) →
  ldl_phys_op addr s = let '(v, d) := rd f op 2 a (devs s) in Ok (u32 v, with_devs d s).
Proof.
  unfold phys_access, ldl_phys_op. cbn [mm_mach mm_io].
  destruct (page_descriptor (mach s) addr) as [pd p]. destruct (is_io pd); [|done].
  intros ([[f' op'] a'] & Hd & Hk)%bind_Ok. injection Hk as -> -> ->.
  by rewrite (pf_read _ Hports _ _ _ _ _ _ _ Hd).
Qed.

Lemma stl_phys_device addr val s f op a :
  phys_access true 2 addr (mkMemMap (mach s) T) = Ok (IoTarget f op a) →
  stl_phys addr val s = Ok (with_devs (wt f op 2 a val (devs s)) s).
Proof.
  unfold phys_access, stl_phys. cbn [mm_mach mm_io].
  destruct (page_descriptor (mach s) addr) as [pd p]. destruct (negb (is_ram pd)); [|done].
  intros ([[f' op'] a'] & Hd & Hk)%bind_Ok. injection Hk as -> -> ->.
  by rewrite (pf_write _ Hports _ _ _ _ _ _ _ _ Hd).
Qed.
End ports.
