(* ===== verification/MemMapRegister.v ===== *)
(** * Registering a device's range of addresses

    The loop of [cpu_register_physical_memory_log] page by page: whole pages
    get the device's handle, the first and the last page may get a subpage. *)
From S2P Require Import Prelude SoftTlb ArmMmu PhysMem PhysMemFacts RamBlocks MemMap MemMapFacts.

Lemma page_index a : a >> TARGET_PAGE_BITS = a / 1024.
Proof. by rewrite Z.shiftr_div_pow2. Qed.

Lemma page_of_mul a : is_u32 a → page_of a = 1024 * (a / 1024).
Proof. intros Ha. rewrite page_of_sub by done. Z.div_mod_to_equations. lia. Qed.

(** ** One round *)
Lemma register_loop_step fuel addr end_addr start_addr orig_size po ro mm :
  register_loop (S fuel) addr end_addr start_addr orig_size po ro mm =
  ('(po, mm) ← register_page addr start_addr orig_size po ro mm;
   if u32 (addr + TARGET_PAGE_SIZE) =? end_addr then Ok mm
   else register_loop fuel (u32 (addr + TARGET_PAGE_SIZE)) end_addr start_addr orig_size po
          (u64 (ro + TARGET_PAGE_SIZE)) mm).
Proof. done. Qed.

Lemma page_step_trans mm mm1 mm2 i s e n ro c1 c2 :
  used (mm_io mm) n → page_step mm mm1 i 1 0 n ro c1 → page_step mm1 mm2 i s e n ro c2 →
  page_step mm mm2 i s e n ro (c1 + c2).
Proof.
  intros Hn [W1 K1 F1 I1 O1 D1] [W2 K2 F2 I2 O2 D2]. split; [done|by etransitivity|lia| | |].
  - intros wr len addr f op Ha Hlen Hpg Hr Hf Hop. eapply I2; try done.
    + by rewrite (ik_handler _ _ K1).
    + by rewrite (ik_opaque _ _ K1).
  - intros wr len addr Ha Hlen Hout. etransitivity; [by apply O2|]. apply O1; [done|done|lia].
  - intros j Hj Hne. by rewrite D2, D1.
Qed.

Lemma mach_set_refl m i p : phys_page_find m i = Some p → mach_set m i p m.
Proof. intros Hp. split; [done|]. intros j _ _. by left. Qed.

Section round.
Context (mm : mem_map) (h n ro addr start size s e : Z) (need : bool).
Context (Hwf : map_wf mm) (Hdev : device_handle (mm_io mm) h n) (Ha : is_u32 addr).
Context (Hcheck : CHECK_SUBPAGE addr start size = (s, e, need)).
Context (Hs : 0 ≤ s < TARGET_PAGE_SIZE) (He : 0 ≤ e < TARGET_PAGE_SIZE).
Context (Hneed : need = false → s = 0 ∧ e = TARGET_PAGE_SIZE - 1).

(** A page that was not assigned yet. *)
Lemma register_page_fresh : page_desc (mm_mach mm) (addr >> TARGET_PAGE_BITS) = IO_MEM_UNASSIGNED →
  (need = true → (0 < free_entries (mm_io mm))%nat) →
  ∃ mm' c, register_page addr start size h ro mm = Ok (h, mm') ∧
    page_step mm mm' (addr >> TARGET_PAGE_BITS) s e n ro c ∧ (c ≤ if need then 1 else 0)%nat.
Proof.
  intros Hun Hfree. pose proof (page_is_page addr Ha) as Hi. set (i := addr >> TARGET_PAGE_BITS) in *.
  pose proof (iw_tables _ (mw_io _ Hwf)) as Hok.
  destruct (device_handle_fields _ _ _ Hok Hdev) as (_ & _ & _ & _ & F5 & _ & _).
  pose proof (fresh_set (mm_mach mm) i (mkPhys h ro) Hi) as Hset.
  set (m1 := put_phys_page i (mkPhys h ro) (phys_page_find_alloc i (mm_mach mm)).2) in *.
  assert (register_page addr start size h ro mm =
    if need then
      '(k, phys, T) ← find_subpage addr IO_MEM_UNASSIGNED (page_of addr) (mm_io mm);
      T ← subpage_register_at k s e h ro T;
      Ok (h, mkMemMap (put_phys_page i (mkPhys phys 0) m1) T)
    else Ok (h, mkMemMap m1 (mm_io mm))) as ->.
  { unfold register_page. rewrite Hcheck. cbv zeta. fold i. unfold page_desc in Hun.
    unfold m1. destruct (phys_page_find_alloc i (mm_mach mm)) as [q m]. cbn [snd]. rewrite F5.
    destruct (phys_page_find (mm_mach mm) i) as [p|]; [|done]. by rewrite Hun. }
  destruct need.
  - destruct (step_init mm i n ro Hwf Hun (Hfree eq_refl) (page_of addr) (page_of addr))
      as (n0 & k & T1 & E1 & S1 & Hst).
    change (find_subpage addr IO_MEM_UNASSIGNED (page_of addr) (mm_io mm)) with
      (subpage_init (page_of addr) IO_MEM_UNASSIGNED (page_of addr) (mm_io mm)). rewrite E1, bind_ret.
    specialize (Hst _ (set_put _ i _ (mkPhys (8 * n0 + 2) 0) m1 Hi Hset)).
    set (m2 := put_phys_page i (mkPhys (8 * n0 + 2) 0) m1) in *.
    assert (phys_page_find m2 i = Some (mkPhys (8 * n0 + 2) 0)) as Hp2
      by (apply (ms_at _ _ _ _ (set_put _ i _ (mkPhys (8 * n0 + 2) 0) m1 Hi Hset))).
    destruct (step_register (mkMemMap m2 T1) i h n ro (st_wf _ _ _ _ _ _ _ _ Hst) Hi) with
      (m' := m2) (n0 := n0) (k := k) (s := s) (e := e) as (T2 & E2 & Hst2); try done.
    + eapply keep_device; [apply (st_keep _ _ _ _ _ _ _ _ Hst)|done].
    + by apply mach_set_refl.
    + cbn [mm_io] in E2. rewrite E2, bind_ret. eexists _, (1 + 0)%nat. split; [done|]. split; [|lia].
      eapply page_step_trans; [apply Hdev|exact Hst|exact Hst2].
  - destruct (Hneed eq_refl) as [-> ->]. exists (mkMemMap m1 (mm_io mm)), 0%nat. split; [done|]. split; [|lia].
    by apply step_full with h.
Qed.

(** A page of which another range already covers a part. *)
Lemma register_page_shared : has_subpage (page_desc (mm_mach mm) (addr >> TARGET_PAGE_BITS)) = true →
  need = true →
  ∃ mm', register_page addr start size h ro mm = Ok (h, mm') ∧
    page_step mm mm' (addr >> TARGET_PAGE_BITS) s e n ro 0.
Proof.
  intros Hsub Hn. pose proof (page_is_page addr Ha) as Hi. set (i := addr >> TARGET_PAGE_BITS) in *.
  unfold page_desc in Hsub. destruct (phys_page_find (mm_mach mm) i) as [p|] eqn:Hp; [|done].
  pose proof (mw_page _ Hwf i p Hi Hp) as Hpage. unfold page_ok in Hpage. rewrite Hsub in Hpage.
  destruct Hpage as (n0 & k & -> & Hrow). pose proof (mw_io _ Hwf) as Hio.
  pose proof (row_sub_range _ _ _ Hio Hrow) as Hn0.
  destruct (handle_fields n0 2 ltac:(lia) ltac:(auto)) as (_ & F2 & F3 & _ & F5).
  destruct (step_register mm i h n ro Hwf Hi Hdev (put_phys_page i (mkPhys (8 * n0 + 2) 0) (mm_mach mm)) n0 k s e)
    as (T' & E & Hst); [done|done|done|done|by eapply put_set|].
  eexists. split; [|exact Hst]. unfold register_page. rewrite Hcheck. cbv zeta. fold i. rewrite Hp, Hn.
  cbn [phys_offset region_offset]. rewrite (proj2 (Z.eqb_neq _ _)) by (unfold IO_MEM_UNASSIGNED; lia).
  unfold find_subpage. rewrite F5. change (2 =? 2) with true. cbn [negb].
  rewrite F2, F3, (aget_Ok _ _ _ (rs_opaque _ _ _ Hrow)), !bind_ret, E, bind_ret. done.
Qed.
End round.

(** ** The parts of a page a range covers *)
Section range.
Context (start size : Z) (Hstart : 0 ≤ start) (Hsize : 0 < size) (Hend : start + size ≤ 2 ^ 32).
(** The range does not run into a page that its length, rounded up, does not count. *)
Context (Htail : page_flags start + size ≤ TARGET_PAGE_ALIGN size).

Definition pages : Z := TARGET_PAGE_ALIGN size / 1024.

Lemma align_pages : TARGET_PAGE_ALIGN size = 1024 * pages ∧ size ≤ 1024 * pages < size + 1024.
Proof.
  unfold pages. destruct (page_align_spec size) as [[q ->] H]; [lia|lia|].
  rewrite Z.div_mul by lia. lia.
Qed.

Lemma check_subpage_ok k s e need : 0 ≤ k < pages →
  CHECK_SUBPAGE (start + 1024 * k) start size = (s, e, need) →
  0 ≤ s < TARGET_PAGE_SIZE ∧ 0 ≤ e < TARGET_PAGE_SIZE ∧
  (need = false → s = 0 ∧ e = TARGET_PAGE_SIZE - 1) ∧
  (∀ addr, addr / 1024 = (start + 1024 * k) / 1024 →
     start ≤ addr < start + size ↔ s ≤ page_flags addr ≤ e) ∧
  (need = true → k = 0 ∨ k = pages - 1) ∧
  (need = false → start ≤ 1024 * ((start + 1024 * k) / 1024) ∧
                  1024 * ((start + 1024 * k) / 1024) + 1024 ≤ start + size).
Proof.
  intros Hk. destruct align_pages as [Hal Hp]. rewrite Hal in Htail. rewrite page_flags_mod in Htail.
  unfold CHECK_SUBPAGE, TARGET_PAGE_SIZE. rewrite !u64_small by lia. rewrite !Z.gtb_ltb, Z.geb_leb.
  rewrite !page_flags_mod. intros Hc.
  assert (∀ addr, page_flags addr = addr mod 1024) as Hpf by (intros; apply page_flags_mod).
  assert (start + size - (start + 1024 * k) < 1024 →
    (start + size - 1) mod 1024 = (start + size - 1) - 1024 * ((start + 1024 * k) / 1024)) as Hm
    by (intros; Z.div_mod_to_equations; lia).
  destruct (Z.ltb_spec start (start + 1024 * k)) as [Hk0|Hk0];
    [|assert (k = 0) as -> by lia; rewrite Z.mul_0_r, Z.add_0_r in *; destruct (Z.ltb_spec 0 (start mod 1024))];
    (match type of Hc with context [1024 <=? ?r] => destruct (Z.leb_spec 1024 r) end; [clear Hm|
     rewrite Hm in Hc by done;
     match type of Hc with context [?r <? 1024 - 1] => destruct (Z.ltb_spec r (1024 - 1)) end]);
    injection Hc as <- <- <-; split_and!; try (intros addr Ha; rewrite Hpf); try lia;
    Z.div_mod_to_equations; lia.
Qed.

(** ** The loop *)
Context (h n ro : Z).

(** The addresses of the range from round [k] on. *)
Definition covered_from (k addr : Z) : Prop :=
  start ≤ addr < start + size ∧ (start + 1024 * k) / 1024 ≤ addr / 1024.

(** The pages the range may be entered for: not assigned yet, or shared. *)
Definition page_free (mm : mem_map) (i : Z) : Prop :=
  page_desc (mm_mach mm) i = IO_MEM_UNASSIGNED ∨
  has_subpage (page_desc (mm_mach mm) i) = true ∧ ¬ (start ≤ 1024 * i ∧ 1024 * i + 1024 ≤ start + size).

(** What the rounds from [k] on do. *)
Record rounds_done (k : Z) (mm mm' : mem_map) : Prop := {
  rd_wf : map_wf mm';
  rd_keep : io_keep (mm_io mm) (mm_io mm');
  rd_in : ∀ wr len addr f op, is_u32 addr → 0 ≤ len < 3 → covered_from k addr →
    handler wr (mm_io mm) n len = Some f → zlookup (io_mem_opaque (mm_io mm)) n = Some op →
    phys_access wr len addr mm' = Ok (IoTarget f op (u32 (addr - page_of start + ro)));
  rd_out : ∀ wr len addr, is_u32 addr → 0 ≤ len < 3 → ¬ covered_from k addr →
    same_target (phys_access wr len addr mm') (phys_access wr len addr mm)
}.

Lemma register_round_ok k mm : 0 ≤ k < pages → map_wf mm → device_handle (mm_io mm) h n →
  page_free mm ((start + 1024 * k) / 1024) →
  (k = 0 ∨ k = pages - 1 → (0 < free_entries (mm_io mm))%nat) →
  ∃ mm' c s e, register_page (start + 1024 * k) start size h (u64 (ro + 1024 * k)) mm = Ok (h, mm') ∧
    page_step mm mm' ((start + 1024 * k) / 1024) s e n (u64 (ro + 1024 * k)) c ∧ (c ≤ 1)%nat ∧
    (k ≠ 0 → k ≠ pages - 1 → c = 0%nat) ∧
    ∀ addr, addr / 1024 = (start + 1024 * k) / 1024 →
      start ≤ addr < start + size ↔ s ≤ page_flags addr ≤ e.
Proof.
  intros Hk Hwf Hdev Hpg Hfree. destruct align_pages as [_ Hp].
  destruct (CHECK_SUBPAGE (start + 1024 * k) start size) as [[s e] need] eqn:Hc.
  destruct (check_subpage_ok k s e need Hk Hc) as (C1 & C2 & C3 & C4 & C5 & C6).
  assert (is_u32 (start + 1024 * k)) as Ha by (unfold is_u32; lia).
  rewrite <- page_index in *.
  destruct Hpg as [Hun|[Hsub Hnot]].
  - destruct (register_page_fresh mm h n (u64 (ro + 1024 * k)) (start + 1024 * k) start size s e need
      Hwf Hdev Ha Hc C1 C2 C3 Hun) as (mm' & c & E & Hst & Hle).
    { intros ->. by apply Hfree, C5. }
    exists mm', c, s, e. split; [done|]. split; [done|]. split; [destruct need; lia|]. split.
    + intros H1 H2. destruct need; [destruct (C5 eq_refl); lia|lia].
    + exact C4.
  - assert (need = true) as -> by (destruct need; [done|by destruct Hnot; apply C6]).
    destruct (register_page_shared mm h n (u64 (ro + 1024 * k)) (start + 1024 * k) start size s e true
      Hwf Hdev Ha Hc C1 C2 Hsub eq_refl) as (mm' & E & Hst).
    exists mm', 0%nat, s, e. split; [done|]. split; [done|]. split; [lia|]. split; [done|].
    exact C4.
Qed.

Lemma round_address k addr : is_u32 addr → addr / 1024 = (start + 1024 * k) / 1024 → start < 2 ^ 32 →
  u32 (page_flags addr + u64 (ro + 1024 * k)) = u32 (addr - page_of start + ro).
Proof.
  intros Ha Hpg Hst. rewrite page_of_mul by (unfold is_u32; lia). rewrite page_flags_mod.
  assert (addr - 1024 * (start / 1024) = addr mod 1024 + 1024 * k) as -> by (Z.div_mod_to_equations; lia).
  unfold u32, u64. change (2 ^ 32) with 4294967296. change (2 ^ 64) with 18446744073709551616.
  generalize (addr mod 1024). intros a. Z.div_mod_to_equations. lia.
Qed.

Lemma register_loop_ok r k mm : Z.of_nat (S r) = pages - k → 0 ≤ k → map_wf mm →
  device_handle (mm_io mm) h n →
  (∀ i, (start + 1024 * k) / 1024 ≤ i < (start + 1024 * pages) / 1024 → page_free mm i) →
  ((if (k =? 0)%Z then 2 else 1) ≤ free_entries (mm_io mm))%nat →
  ∃ mm', register_loop (S r) (start + 1024 * k) (u32 (start + 1024 * pages)) start size h
      (u64 (ro + 1024 * k)) mm = Ok mm' ∧ rounds_done k mm mm'.
Proof.
  revert k mm. induction r as [|r IH]; intros k mm Hr Hk Hwf Hdev Hpg Hfree; destruct align_pages as [Hal Hp];
    pose proof Htail as Ht; rewrite page_flags_mod, Hal in Ht.
  all: assert (start < 2 ^ 32) as Hs32 by lia.
  all: destruct (register_round_ok k mm ltac:(lia) Hwf Hdev) as (mm1 & c & s & e & E & Hst & Hc1 & Hc2 & Hcov);
    [apply Hpg; Z.div_mod_to_equations; lia|intros _; destruct (k =? 0); lia|].
  all: rewrite register_loop_step, E, bind_ret.
  all: assert (∀ wr len addr f op, is_u32 addr → 0 ≤ len < 3 → start ≤ addr < start + size →
    addr / 1024 = (start + 1024 * k) / 1024 → handler wr (mm_io mm) n len = Some f →
    zlookup (io_mem_opaque (mm_io mm)) n = Some op →
    phys_access wr len addr mm1 = Ok (IoTarget f op (u32 (addr - page_of start + ro)))) as Hin by
   (intros wr len addr f op Ha Hlen Hr1 Hr2 Hf Hop;
    rewrite (st_in _ _ _ _ _ _ _ _ Hst wr len addr f op) by (rewrite ?page_index; done || by apply Hcov);
    by rewrite round_address).
  - assert ((u32 (start + 1024 * k + TARGET_PAGE_SIZE) =? u32 (start + 1024 * pages)) = true) as ->.
    { apply Z.eqb_eq. f_equal. unfold TARGET_PAGE_SIZE. lia. }
    exists mm1. split; [done|]. split.
    + apply Hst.
    + apply Hst.
    + intros wr len addr f op Ha Hlen [H1 H2]. apply Hin; try done. Z.div_mod_to_equations. lia.
    + intros wr len addr Ha Hlen Hout. apply (st_out _ _ _ _ _ _ _ _ Hst); try done.
      rewrite page_index. intros H1 H2. apply Hout. apply Hcov in H2; [|done]. split; [done|lia].
  - assert (u32 (start + 1024 * k + TARGET_PAGE_SIZE) = start + 1024 * (k + 1)) as ->.
    { unfold TARGET_PAGE_SIZE. rewrite u32_small; unfold is_u32; lia. }
    assert ((start + 1024 * (k + 1) =? u32 (start + 1024 * pages)) = false) as ->.
    { apply Z.eqb_neq. unfold u32. change (2 ^ 32) with 4294967296 in *. Z.div_mod_to_equations. lia. }
    assert (u64 (u64 (ro + 1024 * k) + TARGET_PAGE_SIZE) = u64 (ro + 1024 * (k + 1))) as ->.
    { rewrite u64_add_l. unfold TARGET_PAGE_SIZE. f_equal. lia. }
    destruct (IH (k + 1) mm1) as (mm' & E' & [W K I O]); [lia|lia|apply Hst| | | |].
    + eapply keep_device; [apply (st_keep _ _ _ _ _ _ _ _ Hst)|done].
    + intros i Hi. unfold page_free. rewrite (st_desc _ _ _ _ _ _ _ _ Hst).
      * apply Hpg. Z.div_mod_to_equations. lia.
      * unfold is_page. change (2 ^ 22) with 4194304. change (2 ^ 32) with 4294967296 in *. Z.div_mod_to_equations. lia.
      * Z.div_mod_to_equations. lia.
    + pose proof (st_free _ _ _ _ _ _ _ _ Hst) as Hf.
      rewrite (proj2 (Z.eqb_neq (k + 1) 0)) by lia.
      destruct (Z.eqb_spec k 0) as [->|Hk0]; [lia|]. rewrite Hc2 in Hf by lia. lia.
    + exists mm'. split; [done|]. pose proof (st_keep _ _ _ _ _ _ _ _ Hst) as Hk1. split.
      * done.
      * by etransitivity.
      * intros wr len addr f op Ha Hlen [H1 H2] Hf Hop.
        destruct (decide (addr / 1024 = (start + 1024 * k) / 1024)) as [Hsame|Hlater].
        -- destruct (O wr len addr Ha Hlen) as [->|(w & op' & a & a' & _ & Hx)].
           { intros [_ H3]. Z.div_mod_to_equations. lia. }
           { by apply Hin. }
           rewrite (Hin wr len addr f op) in Hx by done. injection Hx as -> _ _.
           destruct Hdev as (_ & _ & _ & Hd). by destruct (Hd _ _ _ Hf).
        -- destruct Hdev as (_ & _ & Hrow & _). apply I; try done.
           ++ split; [done|]. Z.div_mod_to_equations. lia.
           ++ by rewrite (ik_handler _ _ Hk1) by apply Hrow.
           ++ by rewrite (ik_opaque _ _ Hk1) by apply Hrow.
      * intros wr len addr Ha Hlen Hout.
        destruct (decide (covered_from (k + 1) addr)) as [Hcv|Hncv].
        { exfalso. apply Hout. destruct Hcv as [H1 H2]. split; [done|]. Z.div_mod_to_equations. lia. }
        etransitivity; [by apply O|]. apply (st_out _ _ _ _ _ _ _ _ Hst); try done.
        rewrite page_index. intros H1 H2. apply Hout. apply Hcov in H2; [|done]. split; [done|lia].
Qed.
End range.

(** ** The handle of a device *)

(** A device gives a function or none for each of the three widths. *)
Definition device_funcs (fs : list (option Z)) : list (option io_func) :=
  map (λ f, device_mem <$> f) fs.

Lemma device_funcs_lookup fs i : mjoin (zlookup (device_funcs fs) i) = device_mem <$> mjoin (zlookup fs i).
Proof.
  unfold device_funcs. rewrite zlookup_map. by destruct (zlookup fs i) as [[f|]|].
Qed.

Lemma device_handle_number n sw : 0 ≤ n < IO_MEM_NB_ENTRIES → sw = 0 ∨ sw = IO_MEM_SUBWIDTH →
  (n << IO_MEM_SHIFT) .| sw = 8 * n + sw.
Proof.
  intros Hn Hsw. apply Z.eqb_eq.
  destruct Hsw as [->| ->];
    [by apply (all_indices (λ n, (n << IO_MEM_SHIFT) .| 0 =? 8 * n + 0))
    |by apply (all_indices (λ n, (n << IO_MEM_SHIFT) .| IO_MEM_SUBWIDTH =? 8 * n + IO_MEM_SUBWIDTH))].
Qed.

Lemma handler_range wr T n i f : io_wf T → handler wr T n i = Some f → 0 ≤ i < 3.
Proof.
  intros Hio Hf. destruct (decide (i = 3)) as [->|Hi]; [by rewrite (iw_fourth _ Hio) in Hf|].
  unfold handler, cell in Hf. destruct (zlookup (io_mem wr T) n) as [row|] eqn:Er; [|done]. cbn in Hf.
  destruct (zlookup row i) as [g|] eqn:Eg; [|done]. apply zlookup_Some_range in Eg.
  rewrite (tok_row _ (iw_tables _ Hio) _ _ _ Er) in Eg. lia.
Qed.

Lemma device_registered m T mem_read mem_write p :
  map_wf (mkMemMap m T) → (0 < free_entries T)%nat → zlength mem_read = 3 → zlength mem_write = 3 →
  ∃ h n T', cpu_register_io_memory (device_funcs mem_read) (device_funcs mem_write) (device_opaque p) T
            = Ok (h, T') ∧
    map_wf (mkMemMap m T') ∧ io_keep T T' ∧ device_handle T' h n ∧
    (∀ wr i, 0 ≤ i < 3 → handler wr T' n i = device_mem <$> mjoin (zlookup (if wr then mem_write else mem_read) i)) ∧
    zlookup (io_mem_opaque T') n = Some (device_opaque p) ∧ free_entries T = S (free_entries T') ∧
    subpages T' = subpages T.
Proof.
  intros [Hio Hpage Hown] Hfree Hr Hw. cbn [mm_io mm_mach] in *. pose proof (iw_tables _ Hio) as Hok.
  assert (∀ l, zlength (device_funcs l) = zlength l) as Hl
    by (intros l; unfold zlength, device_funcs; by rewrite length_map).
  destruct (register_io_memory_ok T (device_funcs mem_read) (device_funcs mem_write) (device_opaque p) Hok Hfree)
    as (n & T' & E & [R1 R2 R3 R4 R5 R6 R7 R8]); [by rewrite Hl|by rewrite Hl|].
  assert (∀ k, used T k → k ≠ n) as Hne by (intros k Hu ->; unfold used in Hu; by rewrite R2 in Hu).
  assert (io_keep T T') as Hkeep.
  { split; [intros; apply R3; by right| | |by rewrite R6].
    - intros k wr i Hu. rewrite R4, decide_False; [done|]. intros [-> _]. by apply (Hne n).
    - intros k Hu. rewrite R5, decide_False; [done|]. intros <-. by apply (Hne n). }
  assert (∀ wr i, 0 ≤ i < 3 → handler wr T' n i = device_mem <$> mjoin (zlookup (if wr then mem_write else mem_read) i)) as Hn.
  { intros wr i Hi. rewrite R4, decide_True by done. destruct wr; apply device_funcs_lookup. }
  assert (row_plain T' n) as Hrow.
  { split; [apply R3; by left|]. intros wr i f. destruct (decide (0 ≤ i < 3)) as [Hi|Hi].
    - rewrite Hn by done. by destruct (mjoin _) as [d|]; [intros [= <-]|].
    - rewrite R4, decide_False by tauto. intros Hf. exfalso.
      apply Hi. by eapply handler_range. }
  assert (5 ≤ n) as Hn5.
  { destruct (decide (5 ≤ n)); [done|]. exfalso. apply (Hne n); [|done]. by apply (iw_reserved _ Hio); lia. }
  exists ((n << IO_MEM_SHIFT) .| subwidth (device_funcs mem_read) (device_funcs mem_write)), n, T'.
  split; [done|]. split; [split; cbn [mm_io mm_mach]|].
  - split; [done| | | | | |].
    + intros wr k sp idx i j l. rewrite R6. intros Hsp Hf.
      destruct (iw_slots _ Hio wr k sp idx i j l Hsp Hf). split; [by eapply keep_plain|done].
    + intros wr k. rewrite R4, decide_False by lia. apply (iw_fourth _ Hio).
    + intros k Hk. eapply keep_plain; [done|]. by apply (iw_reserved _ Hio).
    + destruct (iw_reserved _ Hio 2 ltac:(lia)) as [Hu _]. destruct (iw_unassigned _ Hio) as [U1 U2]. split.
      * intros wr j Hj. rewrite (ik_handler _ _ Hkeep) by done. by apply U1.
      * by rewrite (ik_opaque _ _ Hkeep).
    + intros k k'. rewrite R5, R6. case_decide; [done|]. apply (iw_numbers _ Hio).
    + assert (∀ j k, row_sub T' j k → row_sub T j k) as Hold.
      { intros j k [A1 A2 A3 A4]. destruct (decide (n = j)) as [<-|Hj]; [by rewrite R5, decide_True in A3|].
        split; [by apply R3 in A1 as [->|?]| |by rewrite R5, decide_False in A3|by rewrite R6 in A4].
        intros wr i Hi. specialize (A2 wr i Hi). rewrite R4, decide_False in A2; [done|]. by intros [-> _]. }
      intros j j' k Hj Hj'. by apply (iw_subpages _ Hio j j' k); apply Hold.
  - intros i q Hi Hq. eapply keep_page; [done|]. by eapply Hpage.
  - exact Hown.
  - split; [done|]. split; [|by split; [exact Hn|]; split; [by rewrite R5, decide_True|]].
    split; [|split; [lia|split; [done|]]].
    + unfold subwidth. destruct (existsb _ _);
        [right; by rewrite device_handle_number by auto|left; rewrite device_handle_number by auto; lia].
    + intros wr i f. destruct (decide (0 ≤ i < 3)) as [Hi|Hi].
      * rewrite Hn by done. destruct (mjoin _) as [d|]; [|done]. intros [= <-]. by exists d.
      * rewrite R4, decide_False by tauto. intros Hf. by destruct Hi; eapply handler_range.
Qed.

(** Registering functions changes no access. *)
Lemma keep_access m T T' wr len addr :
  map_wf (mkMemMap m T) → map_wf (mkMemMap m T') → io_keep T T' → subpages T' = subpages T →
  is_u32 addr → 0 ≤ len < 3 →
  same_target (phys_access wr len addr (mkMemMap m T')) (phys_access wr len addr (mkMemMap m T)).
Proof.
  intros Hwf Hwf' Hkeep Hsp Ha Hlen. pose proof (page_is_page addr Ha) as Hi.
  destruct (phys_page_find m (addr >> TARGET_PAGE_BITS)) as [q|] eqn:Eq.
  - left. apply access_frame with (-1) q; try done; [apply Hwf|apply Hwf'| | |].
    + intros k _ _. cbn. by rewrite Hsp.
    + by apply (mw_page _ Hwf _ _ Hi).
    + intros n _ [_ _ _ ?]. lia.
  - destruct (access_unassigned (mkMemMap m T) wr len addr) as [a ->];
      [apply Hwf|done|unfold page_desc; cbn; by rewrite Eq|].
    destruct (access_unassigned (mkMemMap m T') wr len addr) as [a' ->];
      [apply Hwf'|done|unfold page_desc; cbn; by rewrite Eq|].
    right. eauto 10.
Qed.

(** The page of a region offset, as [ram_addr_t]. *)
Definition region_page (o : Z) : Z := u64 o .& Z.lnot (TARGET_PAGE_SIZE - 1).

Lemma region_page_bound o : u64 (region_page o) = region_page o.
Proof.
  apply u64_small. unfold region_page. rewrite <- Z.ldiff_land. split.
  - apply Z.ldiff_nonneg. left. apply u64_bound.
  - apply Z.le_lt_trans with (u64 o); [|apply u64_bound].
    apply Z.ldiff_le; [apply u64_bound|]. apply Z.bits_inj'. intros i Hi.
    rewrite !Z.ldiff_spec, Z.bits_0. by destruct (Z.testbit (u64 o) i); rewrite ?andb_false_r.
Qed.

(** C17: Let three table entries be free; let the range touch no more pages than
    its length rounded up counts; and let every page it touches be unassigned
    still, or, where the range covers only a part of it, already shared by
    devices (no page that RAM or another device holds whole).  Then a device that
    registers its functions and the range gets exactly the accesses to that
    range: a read or write of 1, 2 or 4 bytes at an address of the range calls
    the device's function of that width with the device's argument and the
    address relative to the start page of the range, plus the page of the region
    offset; every other access reaches what it reached before (an unassigned area
    may be told another address).  The loop ends, all CPUs' TLBs are flushed, and
    the invariant holds again.  Without the conditions it fails:
    [tail_page_lost], [reregistered_page_keeps_offset],
    [subpage_over_ram_out_of_bounds]. *)
Theorem device_range_dispatched m T envs mem_read mem_write p start size region_offset :
  map_wf (mkMemMap m T) → (3 ≤ free_entries T)%nat →
  zlength mem_read = 3 → zlength mem_write = 3 →
  0 ≤ start → 0 < size → start + size ≤ 2 ^ 32 →
  page_flags start + size ≤ TARGET_PAGE_ALIGN size →
  (∀ i, start / 1024 ≤ i ≤ (start + size - 1) / 1024 → page_free start size (mkMemMap m T) i) →
  ∃ h T' mm',
    cpu_register_io_memory (device_funcs mem_read) (device_funcs mem_write) (device_opaque p) T = Ok (h, T') ∧
    cpu_register_physical_memory_log start size h region_offset (mkMemMap m T') envs
      = Ok (mm', map (λ t, tlb_flush t true) envs) ∧
    map_wf mm' ∧
    (∀ (wr : bool) len addr f, 0 ≤ len < 3 → start ≤ addr < start + size →
       zlookup (if wr then mem_write else mem_read) len = Some (Some f) →
       phys_access wr len addr mm' =
         Ok (IoTarget (device_mem f) (device_opaque p) (u32 (addr - page_of start + region_page region_offset)))) ∧
    (∀ wr len addr, is_u32 addr → 0 ≤ len < 3 → ¬ start ≤ addr < start + size →
       same_target (phys_access wr len addr mm') (phys_access wr len addr (mkMemMap m T))).
Proof.
  intros Hwf Hfree Hr Hw Hs Hsz He Ht Hpg.
  destruct (device_registered m T mem_read mem_write p Hwf ltac:(lia) Hr Hw)
    as (h & n & T' & E & Hwf' & Hkeep & Hdev & Hh & Hop & Hf & Hsp).
  destruct (align_pages start size Hs Hsz He) as [Hal Hp].
  assert (start / 1024 + pages size = (start + size - 1) / 1024 + 1) as Hlast.
  { rewrite Hal, page_flags_mod in Ht. Z.div_mod_to_equations. lia. }
  destruct (register_loop_ok start size Hs Hsz He Ht h n (region_page region_offset)
    (Z.to_nat (pages size - 1)) 0 (mkMemMap m T')) as (mm' & L & [W K I O]); [lia|done|done|done| | |].
  { intros i Hi. apply Hpg. rewrite Z.mul_0_r, Z.add_0_r in Hi.
    replace (start + 1024 * pages size) with (start + pages size * 1024) in Hi by lia.
    rewrite Z.div_add in Hi by lia. lia. }
  { cbn [mm_io]. change ((0 =? 0)%Z) with true. cbn iota. lia. }
  exists h, T', mm'. split; [done|]. split; [|split; [done|split]].
  - unfold cpu_register_physical_memory_log. fold (region_page region_offset).
    destruct (device_handle_fields _ _ _ (iw_tables _ (mw_io _ Hwf')) Hdev) as (_ & F2 & _ & _ & _ & _ & F7).
    assert ((h =? IO_MEM_UNASSIGNED) = false) as ->.
    { apply Z.eqb_neq. intros ->. change (IO_MEM_UNASSIGNED >> IO_MEM_SHIFT) with 2 in F2. lia. }
    fold (region_page region_offset). rewrite Hal. unfold register_rounds.
    replace (u32 (1024 * pages size - 1) >> TARGET_PAGE_BITS) with (pages size - 1).
    2:{ rewrite page_index, u32_small by (unfold is_u32; lia). Z.div_mod_to_equations. lia. }
    replace (u32 (start + u32 (1024 * pages size))) with (u32 (start + 1024 * pages size))
      by (unfold u32; by rewrite Zplus_mod_idemp_r).
    rewrite Z.mul_0_r, Z.add_0_r, Z.add_0_r, region_page_bound in L. rewrite L, bind_ret. done.
  - intros wr len addr f Hlen Hr1 Hf1. apply I; try done.
    + unfold is_u32. lia.
    + split; [done|]. rewrite Z.mul_0_r, Z.add_0_r. apply Z.div_le_mono; lia.
    + cbn [mm_io]. rewrite Hh, Hf1 by done. done.
  - intros wr len addr Ha Hlen Hout. etransitivity; [apply O; [done|done|]|].
    + by intros [? _].
    + by apply keep_access.
Qed.

(** ** The tables after [io_mem_init] *)
Definition boot_tables : io_tables :=
  match io_mem_init io_tables_zero with Ok (_, T) => T | Err _ => io_tables_zero end.

Definition check_row (row : list (option io_func)) : bool :=
  (zlength row =? 4) && bool_decide (mjoin (zlookup row 3) = None) &&
  forallb (λ f : option io_func, match f with Some f => negb (is_subpage_func f) | None => true end) row.

Lemma boot_rows wr n row : zlookup (io_mem wr boot_tables) n = Some row → check_row row = true.
Proof.
  assert (forallb check_row (io_mem_reads boot_tables) && forallb check_row (io_mem_writes boot_tables) = true) as H
    by (vm_compute; reflexivity).
  apply andb_prop in H as [H1 H2]. rewrite forallb_forall in H1, H2.
  intros Hr%zlookup_elem%list_elem_of_In. destruct wr; auto.
Qed.

Lemma boot_io : io_mem_init io_tables_zero = Ok (40, boot_tables) ∧ io_wf boot_tables ∧
  free_entries boot_tables = 122%nat.
Proof.
  split; [vm_compute; reflexivity|]. split; [|vm_compute; reflexivity].
  assert (∀ wr n i f, handler wr boot_tables n i = Some f → is_subpage_func f = false) as Hplain.
  { intros wr n i f Hf. unfold handler, cell in Hf.
    destruct (zlookup (io_mem wr boot_tables) n) as [row|] eqn:Er; [|done]. cbn in Hf.
    apply boot_rows in Er. apply andb_prop in Er as [_ Er]. rewrite forallb_forall in Er.
    destruct (zlookup row i) as [g|] eqn:Eg; [|done]. cbn in Hf. subst g.
    specialize (Er (Some f) (proj1 (list_elem_of_In _ _) (zlookup_elem _ _ _ Eg))). by apply negb_true_iff. }
  split.
  - split; [reflexivity|intros wr; by destruct wr| |reflexivity].
    intros wr n row Hr. apply boot_rows in Hr. do 2 apply andb_prop in Hr as [Hr _]. by apply Z.eqb_eq.
  - intros wr k sp idx i m j Hsp. apply zlookup_Some_range in Hsp. change (zlength (subpages boot_tables)) with 0 in Hsp. lia.
  - intros wr n. unfold handler, cell. destruct (zlookup (io_mem wr boot_tables) n) as [row|] eqn:Er; [|done].
    apply boot_rows in Er. apply andb_prop in Er as [Er _]. apply andb_prop in Er as [_ Er].
    by apply bool_decide_eq_true in Er.
  - intros n Hn. split; [|intros wr i f; apply Hplain].
    assert (n = 0 ∨ n = 1 ∨ n = 2 ∨ n = 3 ∨ n = 4) as Hc by lia.
    by repeat destruct Hc as [->|Hc]; [..|subst n].
  - split; [|reflexivity]. intros wr i Hi.
    assert (i = 0 ∨ i = 1 ∨ i = 2) as [->|[->| ->]] by lia; by destruct wr.
  - intros n k Hk. exfalso. assert (forallb (λ o, bool_decide (o = no_opaque)) (io_mem_opaque boot_tables) = true) as H
      by (vm_compute; reflexivity).
    rewrite forallb_forall in H. apply zlookup_elem, list_elem_of_In, H in Hk. by apply bool_decide_eq_true in Hk.
  - intros n n' k [_ _ _ H]. change (zlength (subpages boot_tables)) with 0 in H. lia.
Qed.

(** A machine without RAM and without page descriptors. *)
Definition demo_empty_machine : machine := mkMachine [] [] (λ _, None) 0.
Definition demo_map : mem_map := mkMemMap demo_empty_machine boot_tables.

Lemma demo_map_wf : map_wf demo_map.
Proof. split; [apply boot_io|done|done]. Qed.

(** A device on a part of a page and of the next. *)
Lemma device_range_dispatched_witness :
  ∃ h T' mm',
    cpu_register_io_memory (device_funcs [None; None; Some 7]) (device_funcs [Some 4; Some 5; Some 6])
      (device_opaque 99) boot_tables = Ok (h, T') ∧
    cpu_register_physical_memory_log 0x10000100 0x6F0 h 0 (mkMemMap demo_empty_machine T') [tlb_boot]
      = Ok (mm', [tlb_flush tlb_boot true]) ∧
    phys_access false 2 0x10000404 mm' = Ok (IoTarget (device_mem 7) (device_opaque 99) 0x404) ∧
    same_target (phys_access true 2 0x100000FC mm') (phys_access true 2 0x100000FC demo_map).
Proof.
  destruct (device_range_dispatched demo_empty_machine boot_tables [tlb_boot] [None; None; Some 7]
    [Some 4; Some 5; Some 6] 99 0x10000100 0x6F0 0 demo_map_wf) as (h & T' & mm' & E1 & E2 & _ & H1 & H2);
    try reflexivity; try lia.
  - rewrite (proj2 (proj2 boot_io)). lia.
  - by vm_compute.
  - intros i Hi. left. reflexivity.
  - exists h, T', mm'. split; [exact E1|]. split; [exact E2|]. split.
    + exact (H1 false 2 0x10000404 7 ltac:(lia) ltac:(lia) eq_refl).
    + apply H2; [unfold is_u32; lia|lia|lia].
Defined.

(** A device with one function, registered. *)
Definition demo_device (f : Z) (T : io_tables) : Z * io_tables :=
  match cpu_register_io_memory (device_funcs [Some f; Some f; Some f]) (device_funcs [Some f; Some f; Some f])
          (device_opaque f) T with Ok x => x | Err _ => (0, T) end.

(** A range whose start is not on a page and whose length is a number of pages
    loses its last page: the address 0x100009FC, which is in the range, is not
    registered. *)
Example tail_page_lost :
  (let '(h, T) := demo_device 9 boot_tables in
   '(mm, _) ← cpu_register_physical_memory_log 0x10000200 0x800 h 0 (mkMemMap demo_empty_machine T) [];
   Ok (phys_access false 2 0x100007FC mm, phys_access false 2 0x100009FC mm)) =
  Ok (Ok (IoTarget (device_mem 9) (device_opaque 9) 0x7FC),
      Ok (IoTarget (unassigned_mem 2) no_opaque 0x100009FC)).
Proof. vm_compute. reflexivity. Qed.

(** A device registered over the page of another one is told addresses with the
    region offset of the other: 0x1004 instead of 4. *)
Example reregistered_page_keeps_offset :
  (let '(h1, T) := demo_device 1 boot_tables in
   let '(h2, T) := demo_device 2 T in
   '(mm, _) ← cpu_register_physical_memory_log 0x10000000 0x400 h1 0x1000 (mkMemMap demo_empty_machine T) [];
   '(mm, _) ← cpu_register_physical_memory_log 0x10000000 0x400 h2 0 mm [];
   Ok (phys_access false 2 0x10000004 mm)) =
  Ok (Ok (IoTarget (device_mem 2) (device_opaque 2) 0x1004)).
Proof. vm_compute. reflexivity. Qed.

(** A device over a part of a RAM page: the old contents of the page are looked
    up in the tables of functions at the index of a RAM offset, far outside. *)
Example subpage_over_ram_out_of_bounds :
  (let '(h1, T) := demo_device 1 boot_tables in
   '(mm, _) ← cpu_register_physical_memory_log 0x10000000 0x400 0x4000 0 (mkMemMap demo_empty_machine T) [];
   '(mm, _) ← cpu_register_physical_memory_log 0x10000100 0x100 h1 0 mm [];
   Ok (phys_access false 2 0x10000104 mm)) = Err OutOfBounds.
Proof. vm_compute. reflexivity. Qed.
