(* ===== verification/GuestRam.v ===== *)
(** * Setting up guest RAM

    A board allocates a block of RAM and registers it at a physical address.
    Whole pages of RAM or ROM may be registered over anything. *)
From S2P Require Import Prelude SoftTlb ArmMmu PhysMem PhysMemFacts RamBlocks MemMap MemMapFacts MemMapRegister.

(** An offset of RAM or ROM. *)
Definition memory_offset (po : Z) : Prop :=
  0 ≤ po < 2 ^ 32 ∧ (page_flags po = IO_MEM_RAM ∨ page_flags po = IO_MEM_ROM).

Lemma low_bits po x : page_flags x = x → po .& x = page_flags po .& x.
Proof. unfold page_flags. intros Hx. rewrite <- Hx at 1. by rewrite (Z.land_comm x), Z.land_assoc. Qed.

Lemma memory_offset_fields po : memory_offset po →
  moving po = true ∧ has_subpage po = false ∧ is_io po = false ∧ 0 ≤ io_index po < 2.
Proof.
  intros [Hr Hf]. unfold moving, has_subpage, is_io.
  rewrite (low_bits po IO_MEM_SUBPAGE), (low_bits po IO_MEM_ROMD) by done.
  assert (io_index po = page_flags po >> 3) as ->.
  { unfold io_index, page_flags, IO_MEM_SHIFT, IO_MEM_NB_ENTRIES. rewrite Z.shiftr_land.
    change (0x3FF >> 3) with 127. done. }
  destruct Hf as [-> | ->]; cbn; split_and!; done.
Qed.

Lemma memory_offset_add po k : memory_offset po → 0 ≤ k → po + 1024 * k < 2 ^ 32 →
  memory_offset (po + 1024 * k) ∧ page_of (po + 1024 * k) = page_of po + 1024 * k.
Proof.
  intros [Hr Hf] Hk Hb. rewrite !page_of_sub by (unfold is_u32; lia).
  unfold memory_offset. rewrite !page_flags_mod in *.
  replace (po + 1024 * k) with (po + k * 1024) by lia. rewrite Z.mod_add by lia.
  split; [split; [lia|done]|lia].
Qed.

(** ** One page *)
Section step.
Context (mm : mem_map) (Hwf : map_wf mm).

Lemma step_memory i po ro m' : memory_offset po →
  mach_set (mm_mach mm) i (mkPhys po ro) m' →
  map_wf (mkMemMap m' (mm_io mm)) ∧
  (∀ wr len addr, addr >> TARGET_PAGE_BITS = i → to_io wr po = false →
     phys_access wr len addr (mkMemMap m' (mm_io mm)) = Ok (RamTarget (page_of po + page_flags addr))) ∧
  (∀ wr len addr, is_u32 addr → 0 ≤ len < 3 → addr >> TARGET_PAGE_BITS ≠ i →
     same_target (phys_access wr len addr (mkMemMap m' (mm_io mm))) (phys_access wr len addr mm)).
Proof.
  intros Hpo Hset. pose proof (mw_io _ Hwf) as Hio.
  destruct (memory_offset_fields po Hpo) as (_ & F2 & _ & F4).
  assert (sub_keep (-1) (mm_io mm) (mm_io mm)) as Hsk by done.
  split; [|split].
  - eapply (set_page_wf mm i (mkPhys po ro)); try done.
    + unfold page_ok. cbn [phys_offset]. rewrite F2. apply (iw_reserved _ Hio). lia.
    + cbn. by rewrite F2.
  - intros wr len addr Hpg Hto. unfold phys_access, page_descriptor. cbn [mm_mach].
    rewrite Hpg, (ms_at _ _ _ _ Hset). cbn [phys_offset]. fold (to_io wr po). by rewrite Hto.
  - intros wr len addr Ha Hlen Hne.
    apply (set_page_other mm i (mkPhys po ro) m' (mm_io mm) (-1)); try done.
    intros n j _ _ _ [_ _ _ ?]. lia.
Qed.

(** A whole page is entered whatever it was. *)
Lemma register_page_memory addr start size po ro : is_u32 addr → memory_offset po →
  CHECK_SUBPAGE addr start size = (0, TARGET_PAGE_SIZE - 1, false) →
  ∃ o m', register_page addr start size po ro mm = Ok (u64 (po + TARGET_PAGE_SIZE), mkMemMap m' (mm_io mm)) ∧
    mach_set (mm_mach mm) (addr >> TARGET_PAGE_BITS) (mkPhys po o) m' ∧
    ram_blocks m' = ram_blocks (mm_mach mm) ∧ phys_dirty m' = phys_dirty (mm_mach mm).
Proof.
  intros Ha Hpo Hc. pose proof (page_is_page addr Ha) as Hi. set (i := addr >> TARGET_PAGE_BITS) in *.
  destruct (memory_offset_fields po Hpo) as (F1 & _).
  pose proof (fresh_set (mm_mach mm) i (mkPhys po ro) Hi) as Hset.
  unfold register_page. rewrite Hc. cbv zeta. fold i. unfold next_phys_offset. rewrite F1.
  assert (ram_blocks (phys_page_find_alloc i (mm_mach mm)).2 = ram_blocks (mm_mach mm) ∧
    phys_dirty (phys_page_find_alloc i (mm_mach mm)).2 = phys_dirty (mm_mach mm)) as Hkeep.
  { unfold phys_page_find_alloc. by destruct (l1_phys_map _ _). }
  destruct (phys_page_find_alloc i (mm_mach mm)) as [q m]. cbn [snd] in Hset, Hkeep.
  destruct (phys_page_find (mm_mach mm) i) as [p|] eqn:Ep; [|by exists ro; eexists].
  destruct (SoftTlb.phys_offset p =? IO_MEM_UNASSIGNED); [by exists ro; eexists|].
  exists (region_offset p). eexists. split; [done|]. split; [by eapply put_set|done].
Qed.
End step.

(** ** The loop *)
Section range.
Context (start size : Z) (Hstart : 0 ≤ start) (Hsize : 0 < size) (Hend : start + size ≤ 2 ^ 32).
Context (Hal1 : (1024 | start)) (Hal2 : (1024 | size)).
Context (po : Z) (Hpo : memory_offset po) (Hpo2 : po + size ≤ 2 ^ 32).

Lemma aligned_pages : size = 1024 * pages size ∧ TARGET_PAGE_ALIGN size = size.
Proof.
  unfold pages. destruct (page_align_spec size) as [[q Hq] H]; [lia|lia|].
  destruct Hal2 as [n Hn]. assert (q = n) as -> by lia. rewrite Hq, Z.div_mul by lia. lia.
Qed.

Lemma check_aligned k : 0 ≤ k < pages size →
  CHECK_SUBPAGE (start + 1024 * k) start size = (0, TARGET_PAGE_SIZE - 1, false).
Proof.
  intros Hk. destruct aligned_pages as [E _]. unfold CHECK_SUBPAGE, TARGET_PAGE_SIZE.
  rewrite u64_small by lia. rewrite Z.gtb_ltb, Z.geb_leb.
  rewrite (proj2 (Z.leb_le 1024 _)) by lia.
  assert (page_flags start = 0) as ->.
  { rewrite page_flags_mod. by apply Z.mod_divide. }
  by destruct (start <? start + 1024 * k).
Qed.

Record memory_rounds (k : Z) (mm mm' : mem_map) : Prop := {
  mr_wf : map_wf mm';
  mr_io : mm_io mm' = mm_io mm;
  mr_mach : ram_blocks (mm_mach mm') = ram_blocks (mm_mach mm) ∧ phys_dirty (mm_mach mm') = phys_dirty (mm_mach mm);
  mr_in : ∀ wr len addr, start + 1024 * k ≤ addr < start + size → 0 ≤ len < 3 → to_io wr po = false →
    phys_access wr len addr mm' = Ok (RamTarget (page_of po + (addr - start)));
  mr_out : ∀ wr len addr, is_u32 addr → 0 ≤ len < 3 → ¬ start + 1024 * k ≤ addr < start + size →
    same_target (phys_access wr len addr mm') (phys_access wr len addr mm)
}.

Lemma memory_loop_ok r k ro mm : Z.of_nat (S r) = pages size - k → 0 ≤ k → map_wf mm →
  ∃ mm', register_loop (S r) (start + 1024 * k) (u32 (start + 1024 * pages size)) start size
      (po + 1024 * k) ro mm = Ok mm' ∧ memory_rounds k mm mm'.
Proof.
  destruct aligned_pages as [Ep _]. destruct (memory_offset_fields po Hpo) as (_ & _ & Fio & _).
  pose proof (proj1 Hpo) as Hpo0.
  revert k ro mm. induction r as [|r IH]; intros k ro mm Hr Hk Hwf;
    (assert (is_u32 (start + 1024 * k)) as Ha by (unfold is_u32; lia));
    (destruct (memory_offset_add po k Hpo Hk ltac:(lia)) as [Hpk Epk]);
    (destruct (register_page_memory mm (start + 1024 * k) start size (po + 1024 * k) ro Ha Hpk
       (check_aligned k ltac:(lia))) as (o & m1 & E & Hset & Hmach));
    (destruct (step_memory mm Hwf _ _ o m1 Hpk Hset) as (W1 & I1 & O1));
    rewrite register_loop_step, E, bind_ret; unfold TARGET_PAGE_SIZE.
  all: assert ((start + 1024 * k) >> TARGET_PAGE_BITS = start / 1024 + k) as Epg by
    (rewrite page_index; replace (start + 1024 * k) with (start + k * 1024) by lia; by rewrite Z.div_add).
  all: assert (∀ wr, to_io wr (po + 1024 * k) = to_io wr po) as Eto by
    (intros wr; destruct (memory_offset_fields _ Hpk) as (_ & _ & Fk & _); destruct wr; cbn; [|by rewrite Fio, Fk];
     unfold is_ram; rewrite !page_flags_mod; replace (po + 1024 * k) with (po + k * 1024) by lia; by rewrite Z.mod_add).
  all: assert (start mod 1024 = 0) as Hs0 by (by apply Z.mod_divide).
  all: assert (∀ wr len addr, start + 1024 * k ≤ addr < start + 1024 * k + 1024 → to_io wr po = false →
    phys_access wr len addr (mkMemMap m1 (mm_io mm)) = Ok (RamTarget (page_of po + (addr - start)))) as Hin by
    (intros wr len addr Hr1 Hto; rewrite I1; [|rewrite page_index, Epg; Z.div_mod_to_equations; lia|by rewrite Eto];
     rewrite Epk, page_flags_mod; do 2 f_equal; Z.div_mod_to_equations; lia).
  - assert ((u32 (start + 1024 * k + 1024) =? u32 (start + 1024 * pages size)) = true) as ->.
    { apply Z.eqb_eq. f_equal. lia. }
    eexists. split; [done|]. split; try done.
    + intros wr len addr Hr1 _. apply Hin. lia.
    + intros wr len addr Hu Hlen Hout. apply O1; [done|done|]. rewrite page_index, Epg.
      Z.div_mod_to_equations. lia.
  - rewrite (u32_small (start + 1024 * k + 1024)) by (unfold is_u32; lia).
    assert ((start + 1024 * k + 1024 =? u32 (start + 1024 * pages size)) = false) as ->.
    { apply Z.eqb_neq. unfold u32. change (2 ^ 32) with 4294967296 in *. Z.div_mod_to_equations. lia. }
    rewrite (u64_small (po + 1024 * k + 1024)) by lia.
    replace (start + 1024 * k + 1024) with (start + 1024 * (k + 1)) by lia.
    replace (po + 1024 * k + 1024) with (po + 1024 * (k + 1)) by lia.
    destruct (IH (k + 1) (u64 (ro + 1024)) _ ltac:(lia) ltac:(lia) W1) as (mm' & -> & [M1 M2 M3 M4 M5]).
    exists mm'. split; [done|]. split.
    + done.
    + by rewrite M2.
    + destruct M3 as [-> ->]. done.
    + intros wr len addr Hr1 Hlen Hto. destruct (decide (start + 1024 * (k + 1) ≤ addr)).
      * apply M4; [lia|done|done].
      * destruct (M5 wr len addr) as [->|(w & op & a & a' & _ & Hx)];
          [unfold is_u32; lia|done|lia|apply Hin; [lia|done]|].
        rewrite (Hin wr len addr) in Hx by (lia || done). discriminate Hx.
    + intros wr len addr Hu Hlen Hout. etransitivity; [apply M5; [done|done|lia]|].
      apply O1; [done|done|]. rewrite page_index, Epg. Z.div_mod_to_equations. lia.
Qed.

(** RAM or ROM is registered; the map's other addresses are as they were. *)
Lemma memory_registered mm envs ro : map_wf mm → po ≠ IO_MEM_UNASSIGNED →
  ∃ mm', cpu_register_physical_memory_log start size po ro mm envs
         = Ok (mm', map (λ t, tlb_flush t true) envs) ∧ memory_rounds 0 mm mm'.
Proof.
  intros Hwf Hne. destruct aligned_pages as [Ep Eal].
  destruct (memory_loop_ok (Z.to_nat (pages size - 1)) 0 (region_page ro) mm ltac:(lia) ltac:(lia) Hwf)
    as (mm' & E & Hm).
  exists mm'. split; [|done]. unfold cpu_register_physical_memory_log.
  rewrite (proj2 (Z.eqb_neq _ _) Hne). fold (region_page ro). rewrite Eal. unfold register_rounds.
  replace (u32 (size - 1) >> TARGET_PAGE_BITS) with (pages size - 1).
  2:{ rewrite page_index, u32_small by (unfold is_u32; lia). Z.div_mod_to_equations. lia. }
  replace (u32 (start + u32 size)) with (u32 (start + 1024 * pages size))
    by (rewrite <- Ep; unfold u32; by rewrite Zplus_mod_idemp_r).
  rewrite !Z.mul_0_r, !Z.add_0_r in E. by rewrite E.
Qed.
End range.

(** The map depends on the machine through the page descriptors. *)
Lemma map_wf_mach m m' T : (∀ i, phys_page_find m' i = phys_page_find m i) →
  map_wf (mkMemMap m T) → map_wf (mkMemMap m' T).
Proof.
  intros Hfind [H1 H2 H3]. split; [done| |]; cbn [mm_mach] in *.
  - intros i p Hi. rewrite Hfind. by apply H2.
  - intros i j p. rewrite !Hfind. apply H3.
Qed.

Lemma is_dirty_page a m :
  cpu_physical_memory_is_dirty a m = cpu_physical_memory_is_dirty (1024 * (a / 1024)) m.
Proof.
  unfold cpu_physical_memory_is_dirty. do 2 f_equal.
  rewrite !page_index. symmetry. rewrite Z.mul_comm. by apply Z.div_mul.
Qed.

(** C18: A board that allocates RAM and registers it at a page-aligned address
    gets it there: the allocation and the registration succeed, they overlap no
    other block, and every address of the range then reads and writes the
    block, at the same distance from its start, whose host memory is the memory
    allocated at that distance; no other address changes its meaning, every
    page of the block starts dirty, and the CPUs' TLBs are flushed. *)
Theorem guest_ram_set_up m T envs fill vm name start size ro :
  ram_wf m → map_wf (mkMemMap m T) →
  existsb (λ b, String.eqb (idstr b) (block_idstr name)) (ram_blocks m) = false →
  0 < size → (1024 | size) → (1024 | start) → 0 ≤ start → start + size ≤ 2 ^ 32 →
  last_ram_offset (ram_blocks m) + size ≤ 2 ^ 32 → fresh_host vm size m →
  ∃ off m1 mm2,
    qemu_ram_alloc false fill vm name size m = Ok (off, m1) ∧
    cpu_register_physical_memory_log start size off ro (mkMemMap m1 T) envs
      = Ok (mm2, map (λ t, tlb_flush t true) envs) ∧
    ram_wf (mm_mach mm2) ∧ map_wf mm2 ∧
    (∀ b, b ∈ ram_blocks m → apart off size (offset b) (blength b)) ∧
    (∀ wr len addr, start ≤ addr < start + size → 0 ≤ len < 3 →
       phys_access wr len addr mm2 = Ok (RamTarget (off + (addr - start))) ∧
       (∃ m3, qemu_get_ram_ptr (off + (addr - start)) (mm_mach mm2) = Ok (vm + (addr - start), m3)) ∧
       cpu_physical_memory_is_dirty (off + (addr - start)) (mm_mach mm2) = Ok true) ∧
    (∀ wr len addr, is_u32 addr → 0 ≤ len < 3 → ¬ start ≤ addr < start + size →
       same_target (phys_access wr len addr mm2) (phys_access wr len addr (mkMemMap m T))).
Proof.
  intros Hram Hmap Hname Hsz Hal2 Hal1 Hs He Hlast Hfresh.
  destruct (aligned_pages start size Hs Hsz He Hal2) as [_ Eal].
  pose proof (ram_alloc_ok fill vm name size m Hram ltac:(lia)) as H. cbn zeta in H. rewrite Eal, Hname in H.
  destruct (H ltac:(lia) Hfresh) as (off & m1 & E & W & Hbs & El1 & _ & Hoff & Hdirty & _).
  set (b := mkBlock off size vm 0 (block_idstr name)) in *.
  assert (b ∈ ram_blocks m1) as Hb by (rewrite Hbs; left).
  destruct (rw_ok _ W b Hb) as [[B1 B2] _ _ _]. cbn [offset b] in B1, B2.
  assert (page_flags off = 0) as Hfl by (rewrite page_flags_mod; by apply Z.mod_divide).
  assert (memory_offset off) as Hpo by (split; [lia|by left]).
  assert (∀ i, phys_page_find m1 i = phys_page_find m i) as Hfind by (intros i; unfold phys_page_find; by rewrite El1).
  pose proof (map_wf_mach m m1 T Hfind Hmap) as Hmap1.
  destruct (memory_registered start size Hs Hsz He Hal1 Hal2 off Hpo ltac:(lia) (mkMemMap m1 T) envs ro Hmap1)
    as (mm2 & Er & [M1 M2 [M3 M4] M5 M6]).
  { intros ->. vm_compute in Hfl. discriminate Hfl. }
  cbn [mm_mach mm_io] in *. rewrite Z.mul_0_r, Z.add_0_r in M5, M6.
  assert (ram_wf (mm_mach mm2)) as W2.
  { destruct W as [W1 W2 W3 W4 W5]. split; rewrite ?M3, ?M4; done. }
  exists off, m1, mm2. split; [done|]. split; [done|]. split; [done|]. split; [done|]. split; [|split].
  - intros c Hc. destruct (rw_offsets _ W b c Hb) as [<-|Hap]; [by rewrite Hbs; right| |done].
    exfalso. apply not_true_iff_false in Hname. apply Hname, existsb_exists. exists b.
    split; [by apply list_elem_of_In|]. apply String.eqb_refl.
  - intros wr len addr Ha Hlen. split; [|split].
    + rewrite M5; [|done|done|].
      * rewrite page_of_sub by (unfold is_u32; lia). rewrite page_flags_mod in Hfl. rewrite Hfl. do 2 f_equal. lia.
      * destruct (memory_offset_fields off Hpo) as (_ & _ & Fio & _). destruct wr; cbn; [|done].
        unfold is_ram. by rewrite Hfl.
    + destruct (ram_ptr_roundtrip (mm_mach mm2) b (off + (addr - start)) W2) as (m3 & G & _);
        [by rewrite M3|cbn; lia|]. exists m3. rewrite G. cbn. do 2 f_equal. lia.
    + rewrite is_dirty_page. destruct B1 as [q Hq].
      rewrite <- (Hdirty ((off + (addr - start)) / 1024)) by (Z.div_mod_to_equations; lia).
      unfold cpu_physical_memory_is_dirty. by rewrite M4.
  - intros wr len addr Ha Hlen Hout. etransitivity; [by apply M6|].
    unfold phys_access, page_descriptor. cbn [mm_mach mm_io]. rewrite Hfind. done.
Qed.

(** ** Witness *)
Lemma demo_empty_ram_wf : ram_wf demo_empty_machine.
Proof.
  assert (∀ b, b ∉ ram_blocks demo_empty_machine) as Hno by (intros b; apply not_elem_of_nil).
  split; [by intros b []%Hno|by intros b c []%Hno|by intros b c []%Hno|apply NoDup_nil_2|by intros b []%Hno].
Qed.

Lemma guest_ram_set_up_witness :
  ∃ off m1 mm2,
    qemu_ram_alloc false 0 0x7F0000000000 "ram" 0x8000 demo_empty_machine = Ok (off, m1) ∧
    cpu_register_physical_memory_log 0x80000000 0x8000 off 0 (mkMemMap m1 boot_tables) [tlb_boot]
      = Ok (mm2, [tlb_flush tlb_boot true]) ∧
    phys_access false 2 0x80001234 mm2 = Ok (RamTarget (off + 0x1234)).
Proof.
  destruct (guest_ram_set_up demo_empty_machine boot_tables [tlb_boot] 0 0x7F0000000000 "ram" 0x80000000 0x8000 0
    demo_empty_ram_wf demo_map_wf) as (off & m1 & mm2 & E1 & E2 & _ & _ & _ & H & _);
    try reflexivity; try lia.
  - by exists 32.
  - by exists 2097152.
  - by vm_compute.
  - split; [lia|]. split; [lia|]. by intros b ?%not_elem_of_nil.
  - exists off, m1, mm2. split; [exact E1|]. split; [exact E2|].
    exact (proj1 (H false 2 0x80001234 ltac:(lia) ltac:(lia))).
Defined.
