(* ===== verification/MapMem.v ===== *)
(** * Mapping guest memory for devices ([exec.c])

    [cpu_physical_memory_map] gives a device a host pointer to guest memory: into
    the RAM blocks, or to the one bounce buffer for memory that is not RAM;
    [cpu_physical_memory_unmap] makes the writes visible.  Also the writes of a
    ROM loader and of a debugger.  The address [qemu_memalign] returns is an
    argument; a callback of a map client is a function of the interface. *)
From S2P Require Import Prelude SoftTlb ArmCpu ArmMmu PhysMem.

Record BounceBuffer := mkBounce { buffer : Z; bounce_addr : Z; bounce_len : Z }.

(** A client is known by its pointer. *)
Record MapClient := mkClient { client : Z; client_opaque : Z; callback : Z }.

Record map_mem (D : Type) := mkMapMem {
  phys : physmem D;
  bounce : BounceBuffer;
  map_client_list : list MapClient
}.
Arguments mkMapMem {D}. Arguments phys {D}. Arguments bounce {D}. Arguments map_client_list {D}.

(** What a client's callback does with its argument; it may map memory and
    register clients. *)
Class MapCallbacks (D : Type) := run_callback : Z → Z → map_mem D → res (map_mem D).

Section map_mem.
Context {D : Type} `{IoPorts D} `{MapCallbacks D}.
Implicit Types S : map_mem D.
Implicit Types s : physmem D.

Definition with_phys s S : map_mem D := mkMapMem s (bounce S) (map_client_list S).
Definition with_bounce (b : BounceBuffer) S : map_mem D := mkMapMem (phys S) b (map_client_list S).
Definition with_clients (l : list MapClient) S : map_mem D := mkMapMem (phys S) (bounce S) l.

(** ** Map clients *)

(** [p] is the address of the new structure. *)
Definition cpu_register_map_client (p opaque cb : Z) S : Z * map_mem D :=
  (p, with_clients (mkClient p opaque cb :: map_client_list S) S).

(** [QLIST_REMOVE]; a client that is not on the list would be a wild pointer. *)
Definition remove_client (p : Z) S : res (map_mem D) :=
  match list_find (λ c, client c = p) (map_client_list S) with
  | Some (n, _) => Ok (with_clients (delete n (map_client_list S)) S)
  | None => Err UseAfterFree
  end.
Definition cpu_unregister_map_client (p : Z) S : res (map_mem D) := remove_client p S.

(** The client is removed after its callback has run. *)
Fixpoint cpu_notify_map_clients (fuel : nat) S : res (map_mem D) :=
  match map_client_list S with
  | [] => Ok S
  | c :: _ =>
      match fuel with
      | O => Err Diverges
      | Datatypes.S fuel =>
          S ← run_callback (callback c) (client_opaque c) S;
          S ← remove_client (client c) S;
          cpu_notify_map_clients fuel S
      end
  end.

(** ** Mapping *)

(** The host pointer for the [l] bytes at [addr], which are on one page; [None]
    when the loop stops.  [vm] is the memory a bounce buffer would get. *)
Definition map_chunk (vm addr l done : Z) (is_write : bool) S : res (option Z * map_mem D) :=
  let '(pd, _) := page_descriptor (mach (phys S)) (page_of addr) in
  if negb (is_ram pd) then
    if truth done || truth (buffer (bounce S)) then Ok (None, S)
    else
      let S := with_bounce (mkBounce vm addr l) S in
      if is_write then Ok (Some vm, S)
      else
        '(bs, s) ← cpu_physical_memory_read addr l (phys S);
        Ok (Some vm, with_phys (with_ram (st_buf vm bs (ram s)) s) S)
  else
    '(p, s) ← ram_ptr (ram_offset pd addr) (phys S);
    Ok (Some p, with_phys s S).

(** The loop: the pointer, the length and the state. *)
Fixpoint map_loop (fuel : nat) (vm addr len done ret : Z) (is_write : bool) S :
    res (Z * Z * map_mem D) :=
  if len <=? 0 then Ok (ret, done, S)
  else match fuel with
  | O => Err Diverges
  | Datatypes.S fuel =>
      let l := page_rest addr len in
      '(ptr, S) ← map_chunk vm addr l done is_write S;
      match ptr with
      | None => Ok (ret, done, S)
      | Some p =>
          if negb (truth done) then map_loop fuel vm (u32 (addr + l)) (len - l) (done + l) p is_write S
          else if negb (u64 (ret + done) =? p) then Ok (ret, done, S)
          else map_loop fuel vm (u32 (addr + l)) (len - l) (done + l) ret is_write S
      end
  end.

(** Each round maps at least a byte. *)
Definition cpu_physical_memory_map (vm addr len : Z) (is_write : bool) S : res (Z * Z * map_mem D) :=
  map_loop (Z.to_nat len) vm addr len 0 0 is_write S.

(** The loop of the unmapping of RAM. *)
Fixpoint dirty_loop (fuel : nat) (addr1 access_len : Z) s : res (physmem D) :=
  if access_len =? 0 then Ok s
  else match fuel with
  | O => Err Diverges
  | Datatypes.S fuel =>
      let l := Z.min TARGET_PAGE_SIZE access_len in
      s ← mark_dirty addr1 l s;
      dirty_loop fuel (u64 (addr1 + l)) (access_len - l) s
  end.

(** [len] is not used. [fuel] bounds the number of map clients notified. *)
Definition cpu_physical_memory_unmap (fuel : nat) (buf : Z) (is_write : bool) (access_len : Z) S :
    res (map_mem D) :=
  if negb (buf =? buffer (bounce S)) then
    if is_write then
      addr1 ← qemu_ram_addr_from_host_nofail buf (mach (phys S));
      s ← dirty_loop (Z.to_nat access_len) addr1 access_len (phys S);
      Ok (with_phys s S)
    else Ok S
  else
    s ← (if is_write
         then cpu_physical_memory_write (bounce_addr (bounce S))
                (ld_buf (Z.to_nat access_len) (buffer (bounce S)) (ram (phys S))) (phys S)
         else Ok (phys S));
    let S := with_bounce (mkBounce 0 (bounce_addr (bounce S)) (bounce_len (bounce S))) (with_phys s S) in
    cpu_notify_map_clients fuel S.

(** ** Writing to ROM *)
Definition rom_chunk (addr : Z) (buf : list Z) (l : Z) s : res (physmem D) :=
  let '(pd, _) := page_descriptor (mach s) (page_of addr) in
  if negb (is_ram pd) && negb (page_flags pd =? IO_MEM_ROM) && negb (truth (pd .& IO_MEM_ROMD)) then Ok s
  else
    '(ptr, s) ← ram_ptr (ram_offset pd addr) s;
    Ok (with_ram (st_buf ptr (take (Z.to_nat l) buf) (ram s)) s).

Fixpoint rom_loop (fuel : nat) (addr : Z) (buf : list Z) s : res (physmem D) :=
  match buf, fuel with
  | [], _ => Ok s
  | _, O => Err Diverges
  | _, Datatypes.S fuel =>
      let l := page_rest addr (zlength buf) in
      s ← rom_chunk addr buf l s;
      rom_loop fuel (u32 (addr + l)) (drop (Z.to_nat l) buf) s
  end.
Definition cpu_physical_memory_write_rom (addr : Z) (buf : list Z) s : res (physmem D) :=
  rom_loop (length buf) addr buf s.

(** ** Access by virtual address, for a debugger *)

(** The page walk reads guest memory as [phys_read] does.  The results are the
    return value and, for a read, the bytes of [buf] that were filled. *)
Definition debug_page (env : CPUARMState) (addr : Z) s : res Z :=
  @cpu_get_phys_page_debug (phys_read s) env (page_of addr).

Fixpoint debug_write (fuel : nat) (env : CPUARMState) (addr : Z) (buf : list Z) s :
    res (Z * physmem D) :=
  match buf, fuel with
  | [], _ => Ok (0, s)
  | _, O => Err Diverges
  | _, Datatypes.S fuel =>
      phys_addr ← debug_page env addr s;
      if phys_addr =? no_addr then Ok (-1, s)
      else
        let l := page_rest addr (zlength buf) in
        s ← cpu_physical_memory_write_rom (u32 (phys_addr + page_flags addr)) (take (Z.to_nat l) buf) s;
        debug_write fuel env (u32 (addr + l)) (drop (Z.to_nat l) buf) s
  end.

Fixpoint debug_read (fuel : nat) (env : CPUARMState) (addr len : Z) s :
    res (Z * list Z * physmem D) :=
  if len <=? 0 then Ok (0, [], s)
  else match fuel with
  | O => Err Diverges
  | Datatypes.S fuel =>
      phys_addr ← debug_page env addr s;
      if phys_addr =? no_addr then Ok (-1, [], s)
      else
        let l := page_rest addr len in
        '(bs, s) ← cpu_physical_memory_read (u32 (phys_addr + page_flags addr)) l s;
        '(r, bs', s) ← debug_read fuel env (u32 (addr + l)) (len - l) s;
        Ok (r, bs ++ bs', s)
  end.

(** [is_write] selects. *)
Definition cpu_memory_rw_debug_write (env : CPUARMState) (addr : Z) (buf : list Z) s :
    res (Z * physmem D) :=
  debug_write (length buf) env addr buf s.
Definition cpu_memory_rw_debug_read (env : CPUARMState) (addr len : Z) s :
    res (Z * list Z * physmem D) :=
  debug_read (Z.to_nat len) env addr len s.
End map_mem.
