(* ===== verification/MapMemFacts.v ===== *)
(** * Correctness of mapping guest memory

    A mapping of RAM is a run of one block: the pages follow each other in guest
    physical memory, in the [ram_addr_t] space and in host memory.  Reading or
    writing through the pointer is then what [cpu_physical_memory_rw] does. *)
From S2P Require Import Prelude SoftTlb ArmModeFacts ArmMmu PhysMem PhysMemFacts RamBlocks MapMem.

(** ** The order of the block list *)

(** The same machine up to the order of the blocks. *)
Definition mach_perm (m m' : machine) : Prop :=
  ram_blocks m' ≡ₚ ram_blocks m ∧ m' = m <| ram_blocks := ram_blocks m' |>.
#[export] Instance mach_perm_equiv : Equivalence mach_perm.
Proof.
  split.
  - intros [bs d p w]. by split.
  - intros [bs d p w] [bs' d' p' w'] [H1 [= -> -> ->]]. by split.
  - intros [bs d p w] [bs' d' p' w'] [bs2 d2 p2 w2] [H1 [= -> -> ->]] [H2 [= -> -> ->]].
    split; [by rewrite H2|done].
Qed.

Lemma mach_perm_fields m m' : mach_perm m m' →
  phys_dirty m' = phys_dirty m ∧ l1_phys_map m' = l1_phys_map m ∧
  (∀ b, b ∈ ram_blocks m' ↔ b ∈ ram_blocks m).
Proof. intros [H1 ->]. split; [done|]. split; [done|]. intros b. cbn. by rewrite H1. Qed.

Lemma ram_wf_perm m m' : mach_perm m m' → ram_wf m → ram_wf m'.
Proof.
  intros Hp [H1 H2 H3 H4 H5]. destruct (mach_perm_fields m m' Hp) as (Hd & _ & Hb). split.
  - intros b Hx%Hb. by apply H1.
  - intros b c Hx%Hb Hy%Hb. by apply H2.
  - intros b c Hx%Hb Hy%Hb. by apply H3.
  - destruct Hp as [Hp _]. by rewrite Hp.
  - intros b Hx%Hb. rewrite Hd. by apply H5.
Qed.

Lemma descriptor_perm m m' addr : mach_perm m m' → page_descriptor m' addr = page_descriptor m addr.
Proof. intros [_ ->]. done. Qed.

Lemma get_ram_ptr_perm a m p m' : qemu_get_ram_ptr a m = Ok (p, m') →
  mach_perm m m' ∧ ∃ b, b ∈ ram_blocks m ∧ in_block a b = true ∧ p = u64 (host b + (a - offset b)).
Proof.
  unfold qemu_get_ram_ptr, find_block.
  destruct (list_find _ (ram_blocks m)) as [[n b]|] eqn:E; [|done].
  apply list_find_Some in E as (Hl & Hin & _). intros [= <- <-]. split.
  - destruct (n =? 0)%nat; [done|]. split; [|done]. cbn [ram_blocks set_field set_ram_blocks].
    symmetry. by apply delete_Permutation.
  - exists b. split; [by apply list_elem_of_lookup_2 in Hl|done].
Qed.

(** In a well-formed list the address has one block. *)
Lemma get_ram_ptr_in m b a : ram_wf m → b ∈ ram_blocks m → offset b ≤ a < offset b + blength b →
  ∃ m', qemu_get_ram_ptr a m = Ok (host b + (a - offset b), m') ∧ mach_perm m m'.
Proof.
  intros Hwf Hb Ha. destruct (ram_ptr_roundtrip m b a Hwf Hb Ha) as (m' & E & _).
  exists m'. split; [done|]. by apply get_ram_ptr_perm in E as [? _].
Qed.

Lemma in_block_ok b a : block_ok b → 0 ≤ a < 2 ^ 63 →
  in_block a b = true ↔ offset b ≤ a < offset b + blength b.
Proof. intros [[_ H1] [_ H2] H3 _] Ha. apply in_block_range; lia. Qed.

(** ** States up to the order of the blocks *)
Section phys_equiv.
Context {D : Type} `{IoPorts D}.
Implicit Types s : physmem D.

Record phys_equiv s s' : Prop := {
  pe_mach : mach_perm (mach s) (mach s');
  pe_ram : ram s' = ram s;
  pe_devs : devs s' = devs s;
  pe_inv : tb_invalidated s' = tb_invalidated s;
  pe_mig : in_migration s' = in_migration s
}.
#[export] Instance phys_equiv_equiv : Equivalence phys_equiv.
Proof.
  split.
  - by intros s.
  - intros s s' [H1 H2 H3 H4 H5]. by split.
  - intros s1 s2 s3 [A1 A2 A3 A4 A5] [B1 B2 B3 B4 B5]. split; [by etransitivity|congruence..].
Qed.

Lemma with_mach_equiv m s : mach_perm (mach s) m → phys_equiv s (with_mach m s).
Proof. by split. Qed.

Lemma with_ram_equiv r s s' : phys_equiv s s' → phys_equiv (with_ram r s) (with_ram r s').
Proof. by intros [H1 H2 H3 H4 H5]; split. Qed.

Lemma mark_dirty_equiv a l s s' t : phys_equiv s s' → mark_dirty a l s = Ok t →
  ∃ t', mark_dirty a l s' = Ok t' ∧ phys_equiv t t'.
Proof.
  destruct s as [m r d tb mg], s' as [m' r' d' tb' mg']. intros [H1 H2 H3 H4 H5] Hm. cbn in *. subst.
  destruct (mach_perm_fields m m' H1) as (Hd & _ & _). destruct H1 as [H1 E].
  unfold mark_dirty, cpu_physical_memory_is_dirty, cpu_physical_memory_set_dirty_flags in *.
  cbn [mach tb_invalidate_phys_page_range] in *. rewrite Hd.
  destruct (aget (phys_dirty m) (a >> TARGET_PAGE_BITS)) as [x|]; [|done].
  rewrite !bind_ret in *. destruct (x =? 0xff).
  - injection Hm as <-. eexists. split; [done|]. by split.
  - destruct (aput _ _ _) as [ds|]; [|done]. rewrite !bind_ret in *.
    injection Hm as <-. eexists. split; [done|]. split; try done. cbn. split; [done|]. by rewrite E.
Qed.

Lemma dirty_loop_equiv fuel a l s s' t : phys_equiv s s' → dirty_loop fuel a l s = Ok t →
  ∃ t', dirty_loop fuel a l s' = Ok t' ∧ phys_equiv t t'.
Proof.
  revert a l s s'. induction fuel as [|fuel IH]; intros a l s s' Hs; cbn [dirty_loop].
  - destruct (l =? 0); [|done]. intros [= <-]. by exists s'.
  - destruct (l =? 0). { intros [= <-]. by exists s'. }
    intros (s1 & H1 & H2)%bind_Ok. destruct (mark_dirty_equiv _ _ _ _ _ Hs H1) as (s1' & -> & Hs1).
    rewrite bind_ret. by eapply IH.
Qed.

(** Marking pages does not look at the bytes. *)
Lemma mark_dirty_ram a l r s : mark_dirty a l (with_ram r s) = t ← mark_dirty a l s; Ok (with_ram r t).
Proof.
  unfold mark_dirty. change (mach (with_ram r s)) with (mach s).
  destruct (cpu_physical_memory_is_dirty a (mach s)) as [[]|]; [done| |done]. rewrite !bind_ret.
  change (mach (tb_invalidate_phys_page_range a (a + l) (with_ram r s))) with (mach s).
  change (mach (tb_invalidate_phys_page_range a (a + l) s)) with (mach s).
  by destruct (cpu_physical_memory_set_dirty_flags _ _ _).
Qed.

(** Marking a page of a block succeeds and keeps what the loops rely on. *)
Lemma mark_dirty_total a l b s : ram_wf (mach s) → b ∈ ram_blocks (mach s) →
  offset b ≤ a < offset b + blength b →
  ∃ t, mark_dirty a l s = Ok t ∧ ram_wf (mach t) ∧ ram_blocks (mach t) = ram_blocks (mach s) ∧
    l1_phys_map (mach t) = l1_phys_map (mach s) ∧ ram t = ram s ∧ devs t = devs s.
Proof.
  intros Hwf Hb Ha. pose proof (rw_dirty _ Hwf b Hb) as Hd. destruct (rw_ok _ Hwf b Hb) as [[_ H1] _ _ _].
  assert (0 ≤ a >> TARGET_PAGE_BITS < zlength (phys_dirty (mach s))) as Hr.
  { rewrite Z.shiftr_div_pow2 by done. change (2 ^ TARGET_PAGE_BITS) with 1024.
    Z.div_mod_to_equations. lia. }
  destruct (zlookup_in_range _ _ Hr) as [x Hx].
  unfold mark_dirty, cpu_physical_memory_is_dirty, cpu_physical_memory_set_dirty_flags.
  cbn [mach tb_invalidate_phys_page_range]. rewrite (aget_Ok _ _ _ Hx), !bind_ret.
  destruct (x =? 0xff); [by exists s|]. rewrite aput_Ok, !bind_ret by done.
  eexists. split; [done|]. split; [|done]. destruct Hwf as [W1 W2 W3 W4 W5]. split; try done.
  intros c Hc. cbn. rewrite zlength_zinsert. by apply W5.
Qed.
End phys_equiv.

(** ** Runs of RAM *)

(** The [n] bytes at [addr] are RAM, from offset [o] of block [b] on. *)
Record ram_run (m : machine) (addr n : Z) (b : RAMBlock) (o : Z) : Prop := {
  rr_block : b ∈ ram_blocks m;
  rr_range : offset b ≤ o ∧ o + n ≤ offset b + blength b;
  rr_page : ∀ k, 0 ≤ k < n → ∃ pd p, page_descriptor m (page_of (u32 (addr + k))) = (pd, p) ∧
    is_ram pd = true ∧ ram_offset pd (u32 (addr + k)) = o + k
}.

Lemma ram_run_perm m m' addr n b o : mach_perm m m' → ram_run m addr n b o → ram_run m' addr n b o.
Proof.
  intros Hp [H1 H2 H3]. split; [by apply (mach_perm_fields _ _ Hp)|done|].
  intros k Hk. rewrite (descriptor_perm _ _ _ Hp). by apply H3.
Qed.

Lemma ram_run_drop m addr n b o l : 0 ≤ l → ram_run m addr n b o →
  ram_run m (u32 (addr + l)) (n - l) b (o + l).
Proof.
  intros Hl [H1 H2 H3]. split; [done|lia|]. intros k Hk.
  replace (u32 (u32 (addr + l) + k)) with (u32 (addr + (l + k)))
    by (unfold u32; rewrite Zplus_mod_idemp_l; f_equal; lia).
  rewrite <- Z.add_assoc. apply H3. lia.
Qed.

Lemma page_flags_u32 a : page_flags (u32 a) = a mod 1024.
Proof. rewrite page_flags_mod. unfold u32. by rewrite Z.mod_mod_divide by (by exists 4194304). Qed.

Lemma page_of_range pd : 0 ≤ page_of pd < 2 ^ 32 ∧ (1024 | page_of pd).
Proof.
  unfold page_of. pose proof (land_mask_bound pd TARGET_PAGE_MASK ltac:(unfold TARGET_PAGE_MASK; lia)) as H.
  unfold TARGET_PAGE_MASK in *. split; [lia|].
  apply Z.mod_divide; [lia|]. change 1024 with (2 ^ 10). rewrite <- Z.land_ones, <- Z.land_assoc by lia.
  change (0xFFFFFC00 .& Z.ones 10) with 0. apply Z.land_0_r.
Qed.

(** On one page the offset moves with the address. *)
Lemma same_page addr k : is_u32 addr → 0 ≤ k < TARGET_PAGE_SIZE - page_flags addr →
  page_of (u32 (addr + k)) = page_of addr ∧ page_flags (u32 (addr + k)) = page_flags addr + k.
Proof.
  unfold TARGET_PAGE_SIZE. intros Ha Hk. rewrite page_flags_u32. rewrite !page_flags_mod in *.
  assert (is_u32 (addr + k)) as Hak.
  { unfold is_u32 in *. change (2 ^ 32) with 4294967296 in *. Z.div_mod_to_equations. lia. }
  rewrite u32_small by done. rewrite !page_of_sub by done. Z.div_mod_to_equations. lia.
Qed.

(** The first bytes of a page: a run by themselves. *)
Lemma page_run m addr l pd p b : ram_wf m → is_u32 addr → 0 ≤ l ≤ TARGET_PAGE_SIZE - page_flags addr →
  page_descriptor m (page_of addr) = (pd, p) → is_ram pd = true → b ∈ ram_blocks m →
  in_block (ram_offset pd addr) b = true → ram_run m addr l b (ram_offset pd addr).
Proof.
  intros Hwf Ha Hl Hpd Hram Hb Hin. pose proof (rw_ok _ Hwf b Hb) as Hok.
  destruct (page_of_range pd) as [P1 [q Hq]]. pose proof (page_flags_bound addr) as Hfl.
  apply in_block_ok in Hin; [|done|unfold ram_offset, TARGET_PAGE_SIZE in *; lia].
  destruct Hok as [[[o1 B1] _] [[o2 B2] _] _ _]. unfold ram_offset, TARGET_PAGE_SIZE in *. split; [done|lia|].
  intros k Hk. destruct (same_page addr k Ha) as [E1 E2]; [unfold TARGET_PAGE_SIZE; lia|].
  exists pd, p. unfold ram_offset. rewrite E1, E2. split; [done|]. split; [done|lia].
Qed.

Lemma run_page m addr n b o : is_u32 addr → 0 < n → ram_run m addr n b o →
  ∃ pd p, page_descriptor m (page_of addr) = (pd, p) ∧ is_ram pd = true ∧ ram_offset pd addr = o.
Proof.
  intros Ha Hn [_ _ H3]. destruct (H3 0 ltac:(lia)) as (pd & p & E). rewrite Z.add_0_r, u32_small in E by done.
  exists pd, p. by rewrite Z.add_0_r in E.
Qed.

(** ** Buffers *)
Lemma ld_buf_app a b p r : ld_buf (a + b) p r = ld_buf a p r ++ ld_buf b (p + Z.of_nat a) r.
Proof.
  revert p. induction a as [|a IH]; intros p; cbn [ld_buf Nat.add app]; [by rewrite Z.add_0_r|].
  rewrite IH. do 3 f_equal. lia.
Qed.

Lemma st_buf_app b1 b2 p r : st_buf p (b1 ++ b2) r = st_buf (p + zlength b1) b2 (st_buf p b1 r).
Proof.
  revert p r. induction b1 as [|x b1 IH]; intros p r; cbn [st_buf app].
  - by rewrite Z.add_0_r.
  - rewrite IH. f_equal. unfold zlength. cbn [length]. lia.
Qed.

Lemma st_buf_other p buf r q : q < p ∨ p + zlength buf ≤ q → st_buf p buf r q = r q.
Proof.
  revert p r. induction buf as [|x buf IH]; intros p r Hq; [done|]. cbn [st_buf].
  assert (zlength (x :: buf) = 1 + zlength buf) as E by (unfold zlength; cbn [length]; lia).
  assert (0 ≤ zlength buf) by (unfold zlength; lia).
  rewrite IH by lia. unfold put_byte. by rewrite (proj2 (Z.eqb_neq q p)) by lia.
Qed.

Lemma ld_st_buf p buf r : ld_buf (length buf) p (st_buf p buf r) = map u8 buf.
Proof.
  revert p r. induction buf as [|x buf IH]; intros p r; [done|]. cbn [ld_buf st_buf length map].
  rewrite IH. f_equal. rewrite st_buf_other by lia. unfold put_byte. by rewrite Z.eqb_refl, u8_idem.
Qed.

Lemma ld_buf_bytes n p r : map u8 (ld_buf n p r) = ld_buf n p r.
Proof. revert p. induction n as [|n IH]; intros p; [done|]. cbn. by rewrite IH, u8_idem. Qed.

(** ** Reading and writing a run *)
Section run.
Context {D : Type} `{IoPorts D}.
Implicit Types s : physmem D.

Definition run_ptr (b : RAMBlock) (o : Z) : Z := host b + (o - offset b).

Lemma ram_ptr_run s b o : ram_wf (mach s) → b ∈ ram_blocks (mach s) →
  offset b ≤ o < offset b + blength b →
  ∃ s', ram_ptr o s = Ok (run_ptr b o, s') ∧ phys_equiv s s'.
Proof.
  intros Hwf Hb Ho. destruct (get_ram_ptr_in _ b o Hwf Hb Ho) as (m' & E & Hp).
  exists (with_mach m' s). unfold ram_ptr. rewrite E, bind_ret. split; [done|]. by apply with_mach_equiv.
Qed.

Lemma read_chunk_run s addr n b o : ram_wf (mach s) → is_u32 addr → 0 < n → ram_run (mach s) addr n b o →
  0 ≤ n → ∃ s', read_chunk addr n s = Ok (ld_buf (Z.to_nat n) (run_ptr b o) (ram s), s') ∧ phys_equiv s s'.
Proof.
  intros Hwf Ha Hn Hrun _. destruct (run_page _ _ _ _ _ Ha Hn Hrun) as (pd & p & Hpd & Hram & Ho).
  destruct Hrun as [Hb Hr _]. destruct (rw_ok _ Hwf b Hb) as [[[q1 B1] _] [[q2 B2] _] B3 B4].
  unfold read_chunk. rewrite Hpd, (is_ram_not_io _ Hram). unfold load_ptr.
  destruct (page_of_range pd) as [P1 [q Hq]]. pose proof (page_flags_bound addr) as Hfl.
  unfold ram_offset, TARGET_PAGE_SIZE in *.
  destruct (ram_ptr_run s b (page_of pd) Hwf Hb) as (s' & -> & He); [lia|].
  rewrite !bind_ret. exists s'. rewrite (pe_ram _ _ He).
  replace (u64 (run_ptr b (page_of pd) + page_flags addr)) with (run_ptr b o); [done|].
  unfold run_ptr. rewrite u64_small by lia. lia.
Qed.

(** [read_loop] reads a run in pieces of a page. *)
Lemma read_run fuel addr n b o s : ram_wf (mach s) → is_u32 addr → 0 ≤ n → n ≤ Z.of_nat fuel →
  ram_run (mach s) addr n b o →
  ∃ s', read_loop fuel addr n s = Ok (ld_buf (Z.to_nat n) (run_ptr b o) (ram s), s') ∧ phys_equiv s s'.
Proof.
  revert addr n o s. induction fuel as [|fuel IH]; intros addr n o s Hwf Ha Hn Hf Hrun; cbn [read_loop].
  { assert (n = 0) as -> by lia. by exists s. }
  destruct (Z.leb_spec n 0). { assert (n = 0) as -> by lia. by exists s. }
  pose proof (page_rest_bound addr n ltac:(lia)) as Hl. set (l := page_rest addr n) in *.
  assert (ram_run (mach s) addr l b o) as Hrun1.
  { destruct Hrun as [R1 R2 R3]. split; [done|lia|]. intros k Hk. apply R3. lia. }
  destruct (read_chunk_run s addr l b o Hwf Ha ltac:(lia) Hrun1 ltac:(lia)) as (s1 & -> & He). rewrite bind_ret.
  assert (zlength (ld_buf (Z.to_nat l) (run_ptr b o) (ram s)) = l) as El
    by (unfold zlength; rewrite ld_buf_length; lia).
  rewrite El. pose proof (ram_run_drop _ _ _ _ _ l ltac:(lia) Hrun) as Hrest.
  destruct (IH (u32 (addr + l)) (n - l) (o + l) s1) as (s2 & -> & He2); [|apply u32_bound|lia|lia| |].
  - by apply (ram_wf_perm (mach s)); [apply He|].
  - apply (ram_run_perm (mach s)); [apply He|done].
  - rewrite bind_ret. exists s2. split; [|by etransitivity]. f_equal. f_equal.
    replace (Z.to_nat n) with (Z.to_nat l + Z.to_nat (n - l))%nat by lia. rewrite ld_buf_app.
    rewrite (pe_ram _ _ He). f_equal. f_equal. unfold run_ptr. lia.
Qed.

(** Marking a run dirty in pieces of a page. *)
Lemma dirty_loop_total fuel o n b s : ram_wf (mach s) → b ∈ ram_blocks (mach s) → 0 ≤ n ≤ Z.of_nat fuel →
  offset b ≤ o → o + n ≤ offset b + blength b →
  ∃ t, dirty_loop fuel o n s = Ok t ∧ ram t = ram s ∧ devs t = devs s.
Proof.
  revert o n s. induction fuel as [|fuel IH]; intros o n s Hwf Hb Hn Ho He; cbn [dirty_loop].
  { assert (n = 0) as -> by lia. by exists s. }
  destruct (Z.eqb_spec n 0) as [->|]; [by exists s|].
  destruct (mark_dirty_total o (Z.min TARGET_PAGE_SIZE n) b s Hwf Hb ltac:(lia))
    as (t & -> & W & Eb & El & Er & Ed). rewrite bind_ret. unfold TARGET_PAGE_SIZE.
  pose proof (rw_ok _ Hwf b Hb) as [[_ B1] _ B2 _]. rewrite u64_small by lia.
  destruct (IH (o + Z.min 1024 n) (n - Z.min 1024 n) t) as (t' & -> & E1 & E2); [done|by rewrite Eb|lia|lia|lia|].
  exists t'. split; [done|]. by rewrite E1, E2.
Qed.

Lemma dirty_loop_ram fuel o n r s :
  dirty_loop fuel o n (with_ram r s) = t ← dirty_loop fuel o n s; Ok (with_ram r t).
Proof.
  revert o n s. induction fuel as [|fuel IH]; intros o n s; cbn [dirty_loop]; destruct (n =? 0); try done.
  rewrite mark_dirty_ram. destruct (mark_dirty o _ s) as [t|]; [|done]. rewrite !bind_ret. apply IH.
Qed.

Lemma write_chunk_run s addr buf b o : ram_wf (mach s) → is_u32 addr → 0 < zlength buf →
  ram_run (mach s) addr (zlength buf) b o →
  ∀ l, 0 < l ≤ zlength buf → ∃ s1 t, phys_equiv s s1 ∧
    mark_dirty o l (with_ram (st_buf (run_ptr b o) (take (Z.to_nat l) buf) (ram s)) s1) = Ok t ∧
    write_chunk addr buf l s = Ok (l, t).
Proof.
  intros Hwf Ha Hn Hrun l Hl. destruct (run_page _ _ _ _ _ Ha Hn Hrun) as (pd & p & Hpd & Hram & Ho).
  destruct Hrun as [Hb Hr _]. destruct (ram_ptr_run s b o Hwf Hb ltac:(lia)) as (s1 & E & He).
  exists s1. pose proof (mach_perm_fields _ _ (pe_mach _ _ He)) as (_ & _ & Hbs).
  destruct (mark_dirty_total o l b (with_ram (st_buf (run_ptr b o) (take (Z.to_nat l) buf) (ram s)) s1))
    as (t & Et & _); [by apply (ram_wf_perm (mach s)); [apply He|]|by apply Hbs|lia|].
  exists t. split; [done|]. split; [done|]. unfold write_chunk. rewrite Hpd, Hram. cbn [negb].
  cbv zeta. rewrite Ho, E, bind_ret, (pe_ram _ _ He), Et, bind_ret. done.
Qed.
End run.

Lemma ram_run_same m m' addr n b o : ram_blocks m' = ram_blocks m → l1_phys_map m' = l1_phys_map m →
  ram_run m addr n b o → ram_run m' addr n b o.
Proof.
  intros E1 E2 [H1 H2 H3]. split; [by rewrite E1|done|]. intros k Hk.
  destruct (H3 k Hk) as (pd & p & E). exists pd, p. unfold page_descriptor, phys_page_find in *. by rewrite E2.
Qed.

(** A range the unmapping cuts into the same pieces as a write does. *)
Definition same_pieces (addr n : Z) : Prop :=
  page_flags addr = 0 ∨ page_flags addr + n ≤ TARGET_PAGE_SIZE.

Lemma same_pieces_rest addr n : 0 < n → same_pieces addr n →
  page_rest addr n = Z.min TARGET_PAGE_SIZE n ∧
  same_pieces (u32 (addr + page_rest addr n)) (n - page_rest addr n).
Proof.
  unfold same_pieces, page_rest, TARGET_PAGE_SIZE. rewrite page_flags_u32, !page_flags_mod.
  intros Hn Hs. pose proof (Z.mod_pos_bound addr 1024 ltac:(lia)) as Hm. split; [lia|].
  pose proof (Z.mod_pos_bound (addr + Z.min (1024 - addr mod 1024) n) 1024 ltac:(lia)) as Hm2.
  destruct (decide (n ≤ 1024 - addr mod 1024)); [right; lia|left].
  rewrite Z.min_l by lia. Z.div_mod_to_equations. lia.
Qed.

Section write_run.
Context {D : Type} `{IoPorts D}.
Implicit Types s : physmem D.

Lemma write_run fuel fuel' addr buf b o s t :
  ram_wf (mach s) → is_u32 addr → (length buf ≤ fuel)%nat → ram_run (mach s) addr (zlength buf) b o →
  same_pieces addr (zlength buf) → dirty_loop fuel' o (zlength buf) s = Ok t →
  ∃ s', write_loop fuel addr buf s = Ok s' ∧
    phys_equiv (with_ram (st_buf (run_ptr b o) buf (ram s)) t) s'.
Proof.
  revert fuel' addr buf o s t. induction fuel as [|fuel IH]; intros fuel' addr buf o s t Hwf Ha Hf Hrun Hsp Hd;
    (destruct buf as [|x buf0]; [exists s; split; [done|];
      assert (t = s) as -> by (by destruct fuel'; injection Hd); by destruct s|]); [cbn in Hf; lia|].
  set (buf := x :: buf0) in *. assert (0 < zlength buf) as Hn by (unfold zlength, buf; cbn [length]; lia).
  destruct (same_pieces_rest addr (zlength buf) Hn Hsp) as [El Hsp'].
  pose proof (page_rest_bound addr (zlength buf) Hn) as Hl. set (l := page_rest addr (zlength buf)) in *.
  assert (write_loop (Datatypes.S fuel) addr buf s =
    ('(l, s) ← write_chunk addr buf l s; write_loop fuel (u32 (addr + l)) (drop (Z.to_nat l) buf) s)) as -> by done.
  destruct (write_chunk_run s addr buf b o Hwf Ha Hn Hrun l ltac:(lia)) as (s1 & t1 & He & Ht1 & ->).
  rewrite bind_ret. set (r1 := st_buf (run_ptr b o) (take (Z.to_nat l) buf) (ram s)) in *.
  destruct fuel' as [|fuel']; cbn [dirty_loop] in Hd;
    (destruct (Z.eqb_spec (zlength buf) 0); [lia|]); [done|].
  apply bind_Ok in Hd as (sd & Hsd & Hd). rewrite <- El in Hsd, Hd. fold l in Hsd, Hd.
  pose proof (rr_range _ _ _ _ _ Hrun) as Ho. pose proof (rr_block _ _ _ _ _ Hrun) as Hb.
  destruct (mark_dirty_total o l b s Hwf Hb ltac:(lia)) as (sd' & Hsd' & W & Eb & E1 & Er & _).
  rewrite Hsd in Hsd'. injection Hsd' as <-.
  assert (phys_equiv (with_ram r1 sd) t1) as Heq.
  { pose proof (mark_dirty_ram o l r1 s) as Hr. rewrite Hsd, bind_ret in Hr.
    destruct (mark_dirty_equiv o l _ _ _ (with_ram_equiv r1 _ _ He) Hr) as (t1' & Ht1' & Heq).
    rewrite Ht1 in Ht1'. by injection Ht1' as <-. }
  assert (u64 (o + l) = o + l) as Eo.
  { pose proof (rw_ok _ Hwf b Hb) as [[_ ?] _ ? _]. apply u64_small. lia. }
  rewrite Eo in Hd.
  destruct (dirty_loop_equiv fuel' (o + l) (zlength buf - l) (with_ram r1 sd) t1 (with_ram r1 t) Heq)
    as (t2 & Hd2 & Heq2). { rewrite dirty_loop_ram, Hd. done. }
  assert (zlength (drop (Z.to_nat l) buf) = zlength buf - l) as Edrop
    by (unfold zlength in *; rewrite length_drop; lia).
  destruct (IH fuel' (u32 (addr + l)) (drop (Z.to_nat l) buf) (o + l) t1 t2) as (s' & -> & Hs').
  - apply (ram_wf_perm (mach sd)); [apply (pe_mach _ _ Heq)|done].
  - apply u32_bound.
  - unfold zlength in *. rewrite length_drop. lia.
  - rewrite Edrop. apply (ram_run_perm (mach sd)); [apply (pe_mach _ _ Heq)|].
    apply (ram_run_same (mach s)); [done|done|]. apply ram_run_drop; [lia|done].
  - by rewrite Edrop.
  - by rewrite Edrop.
  - exists s'. split; [done|]. etransitivity; [|exact Hs'].
    assert (st_buf (run_ptr b o) buf (ram s) = st_buf (run_ptr b (o + l)) (drop (Z.to_nat l) buf) (ram t1)) as ->.
    { rewrite (pe_ram _ _ Heq). cbn [ram with_ram]. unfold r1.
      rewrite <- (take_drop (Z.to_nat l) buf) at 1. rewrite st_buf_app. f_equal.
      unfold run_ptr, zlength in *. rewrite length_take. lia. }
    apply (with_ram_equiv _ _ _ Heq2).
Qed.

(** ** Writing to a page that is not RAM *)
Lemma io_write fuel addr buf m pd p : is_u32 addr → page_descriptor m (page_of addr) = (pd, p) →
  is_ram pd = false → page_flags addr + zlength buf ≤ TARGET_PAGE_SIZE → (length buf ≤ fuel)%nat →
  ∀ d, ∃ d', ∀ s, l1_phys_map (mach s) = l1_phys_map m → devs s = d →
    write_loop fuel addr buf s = Ok (with_devs d' s).
Proof.
  revert addr buf. induction fuel as [|fuel IH]; intros addr buf Ha Hpd Hram Hl Hf d;
    (destruct buf as [|x buf0]; [exists d; intros s _ <-; by destruct s|]); [cbn in Hf; lia|].
  set (buf := x :: buf0) in *. assert (0 < zlength buf) as Hn by (unfold zlength, buf; cbn [length]; lia).
  pose proof (page_rest_bound addr (zlength buf) Hn) as Hpr. set (l := page_rest addr (zlength buf)) in *.
  set (addr1 := io_address addr p). pose proof (io_width_bound l addr1 ltac:(lia)) as Hw.
  set (w := io_width l addr1) in *.
  set (val := ld_p (Z.to_nat w) 0 (λ i, default 0 (buf !! Z.to_nat i))).
  set (d1 := io_mem_write (io_index pd) (Z.log2 w) addr1 val d).
  assert (zlength (drop (Z.to_nat w) buf) = zlength buf - w) as Ed
    by (unfold zlength in *; rewrite length_drop; lia).
  assert (∃ d', ∀ s, l1_phys_map (mach s) = l1_phys_map m → devs s = d1 →
    write_loop fuel (u32 (addr + w)) (drop (Z.to_nat w) buf) s = Ok (with_devs d' s)) as [d' Hd'].
  { destruct (decide (zlength buf = w)) as [Eq|Hne].
    - exists d1. intros s _ <-. destruct (drop (Z.to_nat w) buf); [destruct fuel; by destruct s|].
      unfold zlength in Ed. cbn [length] in Ed. unfold zlength in *. lia.
    - destruct (same_page addr w Ha ltac:(lia)) as [E1 E2]. apply IH; [apply u32_bound|by rewrite E1|done|lia|].
      unfold zlength in *. lia. }
  exists d'. intros s Hm <-.
  assert (write_loop (Datatypes.S fuel) addr buf s =
    ('(l, s) ← write_chunk addr buf l s; write_loop fuel (u32 (addr + l)) (drop (Z.to_nat l) buf) s)) as -> by done.
  unfold write_chunk. assert (page_descriptor (mach s) (page_of addr) = (pd, p)) as ->.
  { unfold page_descriptor, phys_page_find in *. by rewrite Hm. }
  rewrite Hram. cbn [negb]. cbv zeta. fold addr1 w val d1. rewrite bind_ret.
  rewrite (Hd' (with_devs d1 s)); [done|done|done].
Qed.
End write_run.

(** ** What a mapping is *)
Lemma ram_run_take m addr n b o l : l ≤ n → ram_run m addr n b o → ram_run m addr l b o.
Proof. intros Hl [H1 H2 H3]. split; [done|lia|]. intros k Hk. apply H3. lia. Qed.

Section maps.
Context {D : Type} `{IoPorts D} `{MapCallbacks D}.
Implicit Types S : map_mem D.
Implicit Types s : physmem D.

Lemma ram_ptr_perm o s p s' : ram_ptr o s = Ok (p, s') →
  phys_equiv s s' ∧ ∃ b, b ∈ ram_blocks (mach s) ∧ in_block o b = true ∧ p = u64 (run_ptr b o).
Proof.
  unfold ram_ptr. intros ([q m] & Hq & Hk)%bind_Ok. injection Hk as <- <-.
  destruct (get_ram_ptr_perm _ _ _ _ Hq) as [Hp Hb]. split; [by apply with_mach_equiv|done].
Qed.

(** Reading changes no RAM, and gives bytes. *)
Lemma read_loop_keeps fuel addr len s bs s' : read_loop fuel addr len s = Ok (bs, s') →
  mach_perm (mach s) (mach s') ∧ map u8 bs = bs ∧ ram s' = ram s.
Proof.
  revert addr len s bs s'. induction fuel as [|fuel IH]; intros addr len s bs s'; cbn [read_loop].
  { destruct (len <=? 0); [|done]. by intros [= <- <-]. }
  destruct (len <=? 0). { by intros [= <- <-]. }
  intros ([b s1] & Hc & Hk)%bind_Ok. apply bind_Ok in Hk as ([bs2 s2] & Hr & Hk). injection Hk as <- <-.
  apply IH in Hr as (R1 & R2 & R3).
  assert (mach_perm (mach s) (mach s1) ∧ map u8 b = b ∧ ram s1 = ram s) as (C1 & C2 & C3).
  { unfold read_chunk in Hc. destruct (page_descriptor _ _) as [pd p]. destruct (is_io pd).
    - destruct (io_mem_read _ _ _ _) as [v d]. injection Hc as <- <-. by rewrite ld_buf_bytes.
    - apply bind_Ok in Hc as ([ptr s3] & Hl & Hc). injection Hc as <- <-.
      unfold load_ptr in Hl. apply bind_Ok in Hl as ([q s4] & Hq & Hl). injection Hl as <- <-.
      apply ram_ptr_perm in Hq as [He _]. rewrite ld_buf_bytes. by destruct He. }
  split; [by etransitivity|]. split; [by rewrite map_app, C2, R2|by rewrite R3].
Qed.

(** Blocks are not next to each other in host memory. *)
Definition hosts_separate (m : machine) : Prop :=
  ∀ b c, b ∈ ram_blocks m → c ∈ ram_blocks m →
    b = c ∨ host b + blength b < host c ∨ host c + blength c < host b.

(** The allocator gives the bounce buffer memory of its own. *)
Definition bounce_room (vm : Z) (m : machine) : Prop :=
  0 < vm ∧ vm + TARGET_PAGE_SIZE < 2 ^ 64 ∧
  ∀ b, b ∈ ram_blocks m → vm + TARGET_PAGE_SIZE < host b ∨ host b + blength b ≤ vm.

Record map_ok (vm : Z) S : Prop := {
  mo_ram : ram_wf (mach (phys S));
  mo_hosts : hosts_separate (mach (phys S));
  mo_room : bounce_room vm (mach (phys S));
  mo_buffer : ∀ b, b ∈ ram_blocks (mach (phys S)) → ¬ host b ≤ buffer (bounce S) < host b + blength b
}.

Lemma hosts_separate_perm m m' : mach_perm m m' → hosts_separate m → hosts_separate m'.
Proof. intros Hp Hs b c Hb Hc. apply Hs; by apply (mach_perm_fields _ _ Hp). Qed.

Lemma run_ptr_in m b o : ram_wf m → b ∈ ram_blocks m → offset b ≤ o < offset b + blength b →
  host b ≤ run_ptr b o < host b + blength b ∧ u64 (run_ptr b o) = run_ptr b o.
Proof.
  intros Hwf Hb Ho. destruct (rw_ok _ Hwf b Hb) as [_ _ _ Hh]. unfold run_ptr.
  rewrite u64_small by lia. lia.
Qed.

(** The rounds after the first one, on RAM. *)
Lemma map_loop_ram fuel vm addr0 len done b o w S ret' done' S' :
  ram_wf (mach (phys S)) → hosts_separate (mach (phys S)) → ram_run (mach (phys S)) addr0 done b o →
  0 < done → (len ≤ 0 ∨ page_flags (u32 (addr0 + done)) = 0) →
  map_loop fuel vm (u32 (addr0 + done)) len done (run_ptr b o) w S = Ok (ret', done', S') →
  ret' = run_ptr b o ∧ done ≤ done' ≤ done + Z.max 0 len ∧ ram_run (mach (phys S)) addr0 done' b o ∧
  ∃ s', S' = with_phys s' S ∧ phys_equiv (phys S) s'.
Proof.
  revert len done S. induction fuel as [|fuel IH]; intros len dn S Hwf Hsep Hrun Hdn Hfl; cbn [map_loop].
  - destruct (Z.leb_spec len 0); [|done]. intros [= <- <- <-]. split; [done|]. split; [lia|]. split; [done|].
    exists (phys S). by destruct S.
  - destruct (Z.leb_spec len 0).
    { intros [= <- <- <-]. split; [done|]. split; [lia|]. split; [done|]. exists (phys S). by destruct S. }
    destruct Hfl as [|Hfl]; [lia|]. set (addr := u32 (addr0 + dn)) in *.
    assert (is_u32 addr) as Ha by apply u32_bound.
    pose proof (page_rest_bound addr len ltac:(lia)) as Hl. set (l := page_rest addr len) in *.
    assert (l ≤ 1024) as Hl2 by (unfold l, page_rest, TARGET_PAGE_SIZE; lia).
    assert (truth dn = true) as Et by (unfold truth; by rewrite (proj2 (Z.eqb_neq dn 0)) by lia).
    unfold map_chunk. destruct (page_descriptor (mach (phys S)) (page_of addr)) as [pd p] eqn:Hpd.
    destruct (is_ram pd) eqn:Hram; cbn [negb].
    2:{ rewrite Et. cbn [orb]. rewrite bind_ret. intros [= <- <- <-]. split; [done|]. split; [lia|].
        split; [done|]. exists (phys S). by destruct S. }
    intros ([ptr S1] & Hm & Hk)%bind_Ok. apply bind_Ok in Hm as ([q s1] & Hq & Hm). injection Hm as <- <-.
    apply ram_ptr_perm in Hq as [He (c & Hc & Hin & ->)]. rewrite Et in Hk. cbn [negb] in Hk.
    set (a := ram_offset pd addr) in *.
    destruct (u64 (run_ptr b o + dn) =? u64 (run_ptr c a)) eqn:Eq; cbn [negb] in Hk.
    2:{ injection Hk as <- <- <-. split; [done|]. split; [lia|]. split; [done|]. by exists s1. }
    apply Z.eqb_eq in Eq.
    pose proof (rr_block _ _ _ _ _ Hrun) as Hb. destruct (rr_range _ _ _ _ _ Hrun) as [R1 R2].
    pose proof (page_run (mach (phys S)) addr l pd p c Hwf Ha ltac:(unfold TARGET_PAGE_SIZE; lia) Hpd Hram Hc Hin)
      as Hpage. fold a in Hpage. destruct (rr_range _ _ _ _ _ Hpage) as [P1 P2].
    destruct (run_ptr_in _ c a Hwf Hc ltac:(lia)) as [Q1 Q2]. rewrite Q2 in Eq.
    destruct (rw_ok _ Hwf b Hb) as [_ _ _ Hhb].
    assert (u64 (run_ptr b o + dn) = run_ptr b o + dn) as Eu by (apply u64_small; unfold run_ptr; lia).
    rewrite Eu in Eq.
    assert (c = b ∧ a = o + dn) as [-> Ea].
    { destruct (Hsep b c Hb Hc) as [<-|[Hx|Hx]]; [|unfold run_ptr in *; lia..].
      split; [done|]. unfold run_ptr in Eq. lia. }
    assert (ram_run (mach (phys S)) addr0 (dn + l) b o) as Hrun2.
    { split; [done|lia|]. intros k Hk'. destruct (decide (k < dn)) as [Hlt|Hge]; [apply Hrun; lia|].
      destruct (rr_page _ _ _ _ _ Hpage (k - dn) ltac:(lia)) as (pd' & p' & E1 & E2 & E3).
      replace (u32 (addr + (k - dn))) with (u32 (addr0 + k)) in *
        by (unfold addr, u32; rewrite Zplus_mod_idemp_l; f_equal; lia).
      exists pd', p'. split; [done|]. split; [done|lia]. }
    destruct (IH (len - l) (dn + l) (with_phys s1 S)) as (I1 & I2 & I3 & s' & I4 & I5).
    + by apply (ram_wf_perm (mach (phys S))); [apply He|].
    + by apply (hosts_separate_perm (mach (phys S))); [apply He|].
    + by apply (ram_run_perm (mach (phys S))); [apply He|].
    + lia.
    + destruct (decide (len - l ≤ 0)); [by left|right].
      assert (l = 1024) as -> by (unfold l, page_rest, TARGET_PAGE_SIZE in *; lia).
      unfold addr in Hfl. rewrite page_flags_u32 in *. Z.div_mod_to_equations. lia.
    + rewrite <- Hk. f_equal. unfold addr, u32. rewrite Zplus_mod_idemp_l. f_equal. lia.
    + split; [done|]. split; [lia|]. split.
      * by apply (ram_run_perm (mach s1)); [symmetry; apply He|].
      * exists s'. split; [by rewrite I4|]. by etransitivity.
Qed.

(** A mapping is a run of RAM, or the bounce buffer. *)
Definition mapped_ram S (addr ret plen : Z) S' : Prop :=
  ∃ b o s', ram_run (mach (phys S)) addr plen b o ∧ ret = run_ptr b o ∧
    S' = with_phys s' S ∧ phys_equiv (phys S) s'.

Definition mapped_bounce (vm : Z) (w : bool) S (addr ret plen : Z) S' : Prop :=
  ret = vm ∧ buffer (bounce S) = 0 ∧ page_flags addr + plen ≤ TARGET_PAGE_SIZE ∧
  (∃ pd p, page_descriptor (mach (phys S)) (page_of addr) = (pd, p) ∧ is_ram pd = false) ∧
  ∃ s0 s', S' = with_phys s' (with_bounce (mkBounce vm addr plen) S) ∧ phys_equiv s0 s' ∧
    if w then s0 = phys S
    else ∃ bs s1, cpu_physical_memory_read addr plen (phys S) = Ok (bs, s1) ∧
           s0 = with_ram (st_buf vm bs (ram s1)) s1.

(** After the bounce buffer nothing more is mapped. *)
Lemma map_loop_bounce fuel vm addr len l w S ret' done' S' :
  bounce_room vm (mach (phys S)) → ram_wf (mach (phys S)) → 0 < l ≤ TARGET_PAGE_SIZE →
  map_loop fuel vm addr len l vm w S = Ok (ret', done', S') →
  ret' = vm ∧ done' = l ∧ ∃ s', S' = with_phys s' S ∧ phys_equiv (phys S) s'.
Proof.
  intros (V1 & V2 & V3) Hwf Hl. unfold TARGET_PAGE_SIZE in *.
  assert (truth l = true) as Et by (unfold truth; by rewrite (proj2 (Z.eqb_neq l 0)) by lia).
  assert (∀ s, s = phys S → S = with_phys s S) as Hid by (intros s ->; by destruct S).
  destruct fuel as [|fuel]; cbn [map_loop]; (destruct (len <=? 0);
    [intros [= <- <- <-]; split; [done|]; split; [done|]; exists (phys S); split; [by apply Hid|done]|]); [done|].
  unfold map_chunk. destruct (page_descriptor _ _) as [pd p]. destruct (negb (is_ram pd)).
  { rewrite Et. cbn [orb]. rewrite bind_ret. intros [= <- <- <-]. split; [done|]. split; [done|].
    exists (phys S). split; [by apply Hid|done]. }
  intros ([ptr S1] & Hm & Hk)%bind_Ok. apply bind_Ok in Hm as ([q s1] & Hq & Hm). injection Hm as <- <-.
  apply ram_ptr_perm in Hq as [He (c & Hc & Hin & ->)]. rewrite Et in Hk. cbn [negb] in Hk.
  assert ((u64 (vm + l) =? u64 (run_ptr c (ram_offset pd addr))) = false) as Hne.
  { apply Z.eqb_neq. destruct (page_of_range pd) as [P1 _]. pose proof (page_flags_bound addr) as Hfl.
    unfold TARGET_PAGE_SIZE in Hfl.
    apply in_block_ok in Hin; [|by apply (rw_ok _ Hwf)|unfold ram_offset; lia].
    destruct (run_ptr_in _ c (ram_offset pd addr) Hwf Hc Hin) as [Q1 ->].
    rewrite u64_small by lia. destruct (V3 c Hc); lia. }
  rewrite Hne in Hk. injection Hk as <- <- <-. split; [done|]. split; [done|]. by exists s1.
Qed.

Lemma map_result vm addr len w S ret plen S' : map_ok vm S → is_u32 addr →
  cpu_physical_memory_map vm addr len w S = Ok (ret, plen, S') → 0 < plen →
  plen ≤ len ∧ (mapped_ram S addr ret plen S' ∨ mapped_bounce vm w S addr ret plen S').
Proof.
  intros [Hwf Hsep Hroom Hbuf] Ha Hmap Hplen. unfold cpu_physical_memory_map in Hmap.
  assert (0 < len) as Hlen.
  { destruct (Z.to_nat len) as [|f] eqn:Ef; cbn [map_loop] in Hmap; destruct (Z.leb_spec len 0); try done;
      injection Hmap as <- <- <-; lia. }
  destruct (Z.to_nat len) as [|fuel] eqn:Ef; [lia|]. cbn [map_loop] in Hmap.
  destruct (Z.leb_spec len 0); [lia|].
  pose proof (page_rest_bound addr len ltac:(lia)) as Hl. set (l := page_rest addr len) in *.
  pose proof (page_flags_bound addr) as Hfl.
  assert (page_flags addr + l ≤ TARGET_PAGE_SIZE) as Hl2 by (unfold l, page_rest; lia).
  apply bind_Ok in Hmap as ([ptr S1] & Hc & Hk). unfold map_chunk in Hc.
  destruct (page_descriptor (mach (phys S)) (page_of addr)) as [pd p] eqn:Hpd.
  destruct (is_ram pd) eqn:Hram; cbn [negb] in Hc.
  - apply bind_Ok in Hc as ([q s1] & Hq & Hc). injection Hc as <- <-. change (negb (truth 0)) with true in Hk.
    cbn iota in Hk. apply ram_ptr_perm in Hq as [He (b & Hb & Hin & ->)].
    pose proof (page_run (mach (phys S)) addr l pd p b Hwf Ha ltac:(lia) Hpd Hram Hb Hin) as Hrun.
    set (o := ram_offset pd addr) in *. destruct (rr_range _ _ _ _ _ Hrun) as [R1 R2].
    destruct (run_ptr_in _ b o Hwf Hb ltac:(lia)) as [_ Eu]. rewrite Eu in Hk.
    destruct (map_loop_ram fuel vm addr (len - l) l b o w (with_phys s1 S) ret plen S')
      as (-> & M1 & M2 & s' & -> & M3).
    + by apply (ram_wf_perm (mach (phys S))); [apply He|].
    + by apply (hosts_separate_perm (mach (phys S))); [apply He|].
    + by apply (ram_run_perm (mach (phys S))); [apply He|].
    + lia.
    + destruct (decide (len - l ≤ 0)); [by left|right]. rewrite page_flags_u32.
      assert (l = TARGET_PAGE_SIZE - page_flags addr) as -> by (unfold l, page_rest in *; lia).
      rewrite page_flags_mod. unfold TARGET_PAGE_SIZE. Z.div_mod_to_equations. lia.
    + exact Hk.
    + split; [lia|]. left. exists b, o, s'. split; [|split; [done|split; [done|by etransitivity]]].
      by apply (ram_run_perm (mach s1)); [symmetry; apply He|].
  - change (truth 0) with false in Hc. cbn [orb] in Hc.
    destruct (truth (buffer (bounce S))) eqn:Eb.
    { injection Hc as <- <-. injection Hk as <- <- <-. lia. }
    assert (buffer (bounce S) = 0) as Eb0 by (unfold truth in Eb; by apply negb_false_iff, Z.eqb_eq in Eb).
    assert (∃ s0, ptr = Some vm ∧ S1 = with_phys s0 (with_bounce (mkBounce vm addr l) S) ∧
      mach_perm (mach (phys S)) (mach s0) ∧
      if w then s0 = phys S
      else ∃ bs s1, cpu_physical_memory_read addr l (phys S) = Ok (bs, s1) ∧
             s0 = with_ram (st_buf vm bs (ram s1)) s1) as (s0 & -> & -> & Hp & Hw).
    { destruct w.
      - injection Hc as <- <-. exists (phys S). split; [done|]. split; [by destruct S|]. by split.
      - apply bind_Ok in Hc as ([bs s1] & Hr & Hc). injection Hc as <- <-.
        change (phys (with_bounce (mkBounce vm addr l) S)) with (phys S) in Hr.
        eexists. split; [done|]. split; [done|]. split; [|by exists bs, s1].
        by apply read_loop_keeps in Hr as (R & _). }
    change (negb (truth 0)) with true in Hk. cbn iota in Hk. rewrite Z.add_0_l in Hk.
    apply map_loop_bounce in Hk as (-> & -> & s' & -> & He).
    + split; [lia|]. right. split; [done|]. split; [done|]. split; [done|]. split; [by exists pd, p|].
      by exists s0, s'.
    + destruct Hroom as (V1 & V2 & V3). split; [done|]. split; [done|]. intros b Hb. apply V3.
      by apply (mach_perm_fields _ _ Hp).
    + by apply (ram_wf_perm (mach (phys S))).
    + unfold TARGET_PAGE_SIZE in *. lia.
Qed.

Lemma map_loop_ends fuel vm addr len done ret w S : len ≤ Z.of_nat fuel →
  map_loop fuel vm addr len done ret w S ≠ Err Diverges.
Proof.
  revert addr len done ret S. induction fuel as [|fuel IH]; intros addr len dn ret S Hf; cbn [map_loop].
  { by destruct (Z.leb_spec len 0); [|lia]. }
  destruct (Z.leb_spec len 0); [done|].
  pose proof (page_rest_bound addr len ltac:(lia)) as Hl.
  apply bind_no_loop.
  - unfold map_chunk. destruct (page_descriptor _ _) as [pd p]. destruct (negb (is_ram pd)).
    + destruct (_ || _); [done|]. destruct w; [done|].
      apply bind_no_loop; [|by intros [bs s1] _]. apply read_loop_ok. lia.
    + apply bind_no_loop; [apply ram_ptr_no_loop|by intros [q s1] _].
  - intros [[p|] S1] _; [|done]. destruct (negb (truth dn)); [apply IH; lia|].
    destruct (negb (_ =? _)); [done|apply IH; lia].
Qed.

(** What the caller does with a mapping it got for writing. *)
Definition store_mapped (ret : Z) (bs : list Z) S : map_mem D :=
  with_phys (with_ram (st_buf ret bs (ram (phys S))) (phys S)) S.

Definition same_memory (vm : Z) s s' : Prop :=
  devs s' = devs s ∧ tb_invalidated s' = tb_invalidated s ∧ mach_perm (mach s) (mach s') ∧
  ∀ q, ¬ vm ≤ q < vm + TARGET_PAGE_SIZE → ram s' q = ram s q.

Lemma unmap_ram vm addr ret plen bs fuel S S' :
  map_ok vm S → is_u32 addr → mapped_ram S addr ret plen S' → zlength bs ≤ plen → 0 < plen →
  same_pieces addr (zlength bs) →
  ∃ s1 s2, cpu_physical_memory_write addr bs (phys S) = Ok s1 ∧
    cpu_physical_memory_unmap fuel ret true (zlength bs) (store_mapped ret bs S') = Ok (with_phys s2 S) ∧
    ret ≠ vm ∧ same_memory vm s1 s2.
Proof.
  intros [Hwf Hsep Hroom Hbuf] Ha (b & o & s' & Hrun & -> & -> & He) Hbs Hplen Hsp.
  pose proof (rr_block _ _ _ _ _ Hrun) as Hb. destruct (rr_range _ _ _ _ _ Hrun) as [R1 R2].
  destruct (run_ptr_in _ b o Hwf Hb ltac:(lia)) as [Q1 Q2].
  set (r := st_buf (run_ptr b o) bs (ram s')).
  destruct (dirty_loop_total (Z.to_nat (zlength bs)) o (zlength bs) b (phys S) Hwf Hb) as (t & Ht & _ & _);
    [unfold zlength; lia|lia|lia|].
  destruct (dirty_loop_equiv _ _ _ _ _ _ He Ht) as (t2 & Ht2 & He2).
  destruct (write_run (length bs) (Z.to_nat (zlength bs)) addr bs b o (phys S) t Hwf Ha) as (s1 & E1 & Hs1);
    [done|by eapply ram_run_take|done|done|].
  exists s1, (with_ram r t2). split; [exact E1|]. split; [|split].
  - unfold cpu_physical_memory_unmap, store_mapped. cbn [bounce with_phys phys].
    assert ((run_ptr b o =? buffer (bounce S)) = false) as ->.
    { apply Z.eqb_neq. intros Eq. apply (Hbuf b Hb). rewrite <- Eq. lia. }
    cbn [negb]. fold r. change (mach (with_ram r s')) with (mach s').
    unfold qemu_ram_addr_from_host_nofail, run_ptr.
    rewrite (addr_from_host_ok (mach (phys S)) (mach s') b o Hwf); [|apply mach_perm_fields, He|done|lia].
    cbn [from_option_res]. rewrite bind_ret, dirty_loop_ram, Ht2, !bind_ret. done.
  - intros Eq. destruct Hroom as (V1 & V2 & V3). unfold TARGET_PAGE_SIZE in *. destruct (V3 b Hb); lia.
  - assert (phys_equiv s1 (with_ram r t2)) as [M1 M2 M3 M4 _].
    { etransitivity; [symmetry; exact Hs1|]. unfold r. rewrite (pe_ram _ _ He). by apply with_ram_equiv. }
    split; [done|]. split; [done|]. split; [done|]. intros q _. by rewrite M2.
Qed.

Lemma unmap_bounce vm addr ret plen bs fuel S S' :
  is_u32 addr → mapped_bounce vm true S addr ret plen S' → zlength bs ≤ plen → map u8 bs = bs →
  ∃ s1 s2, cpu_physical_memory_write addr bs (phys S) = Ok s1 ∧
    cpu_physical_memory_unmap fuel ret true (zlength bs) (store_mapped ret bs S') =
      cpu_notify_map_clients fuel
        (with_bounce (mkBounce 0 addr plen) (with_phys s2 S)) ∧
    ret = vm ∧ same_memory vm s1 s2.
Proof.
  intros Ha (-> & Hb0 & Hfl & (pd & p & Hpd & Hram) & s0 & s' & -> & He & ->) Hbs Hu8.
  destruct (io_write (length bs) addr bs (mach (phys S)) pd p Ha Hpd Hram ltac:(lia) ltac:(lia) (devs (phys S)))
    as [d' Hw].
  set (x := with_ram (st_buf vm bs (ram s')) s').
  exists (with_devs d' (phys S)), (with_devs d' x). split; [by apply Hw|]. split; [|split; [done|]].
  - unfold cpu_physical_memory_unmap, store_mapped. cbn [bounce with_phys with_bounce phys buffer].
    rewrite Z.eqb_refl. cbn [negb bounce_addr]. fold x.
    replace (Z.to_nat (zlength bs)) with (length bs) by (unfold zlength; lia).
    change (ram x) with (st_buf vm bs (ram s')). rewrite ld_st_buf, Hu8.
    unfold cpu_physical_memory_write. rewrite Hw, bind_ret; [done| |apply He].
    apply (mach_perm_fields _ _ (pe_mach _ _ He)).
  - destruct He as [M1 M2 M3 M4 M5]. split; [done|]. split; [done|]. split; [done|].
    intros q Hq. cbn [ram with_devs with_ram x]. pose proof (page_flags_bound addr).
    rewrite st_buf_other, M2; [done|]. lia.
Qed.

(** C19: Mapping guest memory is [cpu_physical_memory_rw], where no two blocks of
    RAM are neighbours in host memory.  The loop of [cpu_physical_memory_map]
    ends.  A mapping for reading gives at most the length asked for, and its bytes
    are those that a read of the same range returns.  Storing bytes through a
    mapping for writing and unmapping it with their number leaves the devices, the
    RAM, the dirty pages and the invalidated code as a write of the bytes does
    (the memory of the bounce buffer apart), if the access starts on a page or
    stays in its first page: for others see [unaligned_unmap_misses_page].  A
    bounced mapping also notifies the clients that wait for the buffer, which is
    then free. *)
Theorem map_unmap_is_rw vm addr len S :
  map_ok vm S → is_u32 addr →
  (∀ w, cpu_physical_memory_map vm addr len w S ≠ Err Diverges) ∧
  (∀ ret plen S', cpu_physical_memory_map vm addr len false S = Ok (ret, plen, S') → 0 < plen →
     plen ≤ len ∧ ∃ s1, cpu_physical_memory_read addr plen (phys S) =
                          Ok (ld_buf (Z.to_nat plen) ret (ram (phys S')), s1)) ∧
  (∀ ret plen S' bs fuel, cpu_physical_memory_map vm addr len true S = Ok (ret, plen, S') → 0 < plen →
     zlength bs ≤ plen → map u8 bs = bs → same_pieces addr (zlength bs) →
     ∃ s1 S2, cpu_physical_memory_write addr bs (phys S) = Ok s1 ∧
       cpu_physical_memory_unmap fuel ret true (zlength bs) (store_mapped ret bs S') =
         (if ret =? vm then cpu_notify_map_clients fuel S2 else Ok S2) ∧
       buffer (bounce S2) = buffer (bounce S) ∧ map_client_list S2 = map_client_list S ∧
       same_memory vm s1 (phys S2)).
Proof.
  intros Hok Ha. split; [|split].
  - intros w. apply map_loop_ends. lia.
  - intros ret plen S' Hmap Hp. destruct (map_result _ _ _ _ _ _ _ _ Hok Ha Hmap Hp) as [Hle [Hm|Hm]]; (split; [done|]).
    + destruct Hm as (b & o & s' & Hrun & -> & -> & He). cbn [phys with_phys]. rewrite (pe_ram _ _ He).
      destruct (read_run (Z.to_nat plen) addr plen b o (phys S) (mo_ram _ _ Hok) Ha ltac:(lia) ltac:(lia) Hrun)
        as (s1 & E & _). by exists s1.
    + destruct Hm as (-> & _ & _ & _ & s0 & s' & -> & He & bs & s1 & Hr & ->). exists s1.
      cbn [phys with_phys]. rewrite (pe_ram _ _ He). cbn [ram with_ram].
      pose proof (proj2 (read_loop_ok (Z.to_nat plen) addr plen (phys S) ltac:(lia)) _ _ Hr) as Hlen.
      apply read_loop_keeps in Hr as Hk. destruct Hk as (_ & Hu8 & _).
      replace (Z.to_nat plen) with (length bs) by (unfold zlength in Hlen; lia). by rewrite ld_st_buf, Hu8.
  - intros ret plen S' bs fuel Hmap Hp Hbs Hu8 Hsp.
    destruct (map_result _ _ _ _ _ _ _ _ Hok Ha Hmap Hp) as [Hle [Hm|Hm]].
    + destruct (unmap_ram _ _ _ _ bs fuel _ _ Hok Ha Hm Hbs Hp Hsp) as (s1 & s2 & E1 & E2 & Hne & Hsame).
      exists s1, (with_phys s2 S). rewrite (proj2 (Z.eqb_neq ret vm) Hne). done.
    + pose proof Hm as (_ & Hb0 & _).
      destruct (unmap_bounce _ _ _ _ bs fuel _ _ Ha Hm Hbs Hu8) as (s1 & s2 & E1 & E2 & -> & Hsame).
      rewrite Z.eqb_refl. eexists s1, _. split; [done|]. split; [exact E2|]. by rewrite Hb0.
Qed.
End maps.

(** ** Witness *)
Definition demo_callbacks : MapCallbacks unit := λ _ _ S, Ok S.
Definition demo_map_mem : map_mem unit := mkMapMem demo_phys (mkBounce 0 0 0) [].
Definition demo_vm : Z := 0x600000000000.

Lemma demo_map_ok : map_ok demo_vm demo_map_mem.
Proof.
  assert (∀ b, b ∈ ram_blocks demo_machine → b = demo_block) as Hb.
  { intros b Hb. by apply list_elem_of_singleton in Hb. }
  split.
  - exact ram_wf_demo.
  - intros b c ->%Hb ->%Hb. by left.
  - split; [unfold demo_vm; lia|]. split; [unfold demo_vm, TARGET_PAGE_SIZE; lia|].
    intros b ->%Hb. left. vm_compute. done.
  - intros b ->%Hb. cbn. lia.
Qed.

(** Three pages of RAM in one mapping. *)
Lemma map_unmap_is_rw_witness :
  ∃ ret plen S' s1 S2,
    @cpu_physical_memory_map unit no_ports demo_vm 0x4000 0xC00 true demo_map_mem = Ok (ret, plen, S') ∧
    plen = 0xC00 ∧
    @cpu_physical_memory_write unit no_ports 0x4000 [1; 2; 3] demo_phys = Ok s1 ∧
    @cpu_physical_memory_unmap unit no_ports demo_callbacks 0 ret true 3 (store_mapped ret [1; 2; 3] S') = Ok S2 ∧
    same_memory demo_vm s1 (phys S2).
Proof.
  destruct (@cpu_physical_memory_map unit no_ports demo_vm 0x4000 0xC00 true demo_map_mem)
    as [[[ret plen] S']|] eqn:E; [|vm_compute in E; discriminate E].
  assert (ret = 0x7F0000004000 ∧ plen = 0xC00) as [-> ->].
  { vm_compute in E. injection E as <- <- _. done. }
  destruct (@map_unmap_is_rw unit no_ports demo_callbacks demo_vm 0x4000 0xC00 demo_map_mem demo_map_ok
    ltac:(unfold is_u32; lia)) as (_ & _ & Hw).
  destruct (Hw _ _ _ [1; 2; 3] 0%nat E ltac:(lia) ltac:(by vm_compute) eq_refl ltac:(by left))
    as (s1 & S2 & W & U & _ & _ & M).
  exists 0x7F0000004000, 0xC00, S', s1, S2. split; [reflexivity|]. split; [reflexivity|].
  split; [exact W|]. split; [exact U|exact M].
Defined.

(** An unaligned mapping of two pages whose second page is clean: the unmapping
    marks the page of [addr1 + 1024] only when a piece starts on it, so the last
    page stays clean. *)
Definition demo_clean : physmem unit :=
  with_mach (demo_machine <| phys_dirty := replicate 1024 0 |>) demo_phys.
Example unaligned_unmap_misses_page :
  (match
     (S ← (let '(ret, plen, S') := default (0, 0, demo_map_mem)
             (match @cpu_physical_memory_map unit no_ports demo_vm 0x4200 0x400 true
                      (with_phys demo_clean demo_map_mem) with Ok x => Some x | Err _ => None end) in
           @cpu_physical_memory_unmap unit no_ports demo_callbacks 0 ret true plen S');
      s ← @cpu_physical_memory_write unit no_ports 0x4200 (replicate 1024 0) demo_clean;
      Ok (zlookup (phys_dirty (mach (phys S))) 17, zlookup (phys_dirty (mach s)) 17))
   with Ok x => Some x | Err _ => None end) = Some (Some 0, Some 0xFD).
Proof. vm_compute. reflexivity. Qed.
