(* ===== verification/DebugPoints.v ===== *)
(** * Watchpoints and breakpoints of a debugger ([exec.c])

    A watchpoint works through the software TLB: its page is flushed, and
    [tlb_set_page_exec] then sends every access to the page to the watch
    handlers.  A breakpoint invalidates the code translated from its address.
    A point is known by its pointer. *)
From S2P Require Import Prelude SoftTlb ArmCpu ArmMmu PhysMem.

Definition BP_WATCHPOINT_HIT : Z := 0x08.
Definition BP_GDB : Z := 0x10.
Definition EINVAL : Z := 22.
Definition ENOENT : Z := 2.

Record CPUWatchpoint := mkWatchpoint { wp : Z; wp_vaddr : Z; len_mask : Z; wp_flags : Z }.
Record CPUBreakpoint := mkBreakpoint { bp : Z; bp_pc : Z; bp_flags : Z }.

(** ** Watchpoints *)

(** The list of the CPU; its TLB sees the addresses. *)
Record watch_state := mkWatch { watch_list : list CPUWatchpoint; watch_tlb : soft_tlb }.
Definition set_watch_list (l : list CPUWatchpoint) (s : watch_state) : watch_state :=
  mkWatch l (watch_tlb s <| watchpoints := map wp_vaddr l |>).
Definition flush_watch (addr : Z) (s : watch_state) : res watch_state :=
  t ← tlb_flush_page addr (watch_tlb s); Ok (mkWatch (watch_list s) t).

(** [p] is the address of the new structure. *)
Definition cpu_watchpoint_insert (p addr len flags : Z) (s : watch_state) : res (Z * watch_state) :=
  let len_mask := u32 (Z.lnot (len - 1)) in
  if (negb (len =? 1) && negb (len =? 2) && negb (len =? 4) && negb (len =? 8)) ||
     truth (addr .& u32 (Z.lnot len_mask))
  then Ok (- EINVAL, s)
  else
    let w := mkWatchpoint p addr len_mask flags in
    let l := if truth (flags .& BP_GDB) then w :: watch_list s else watch_list s ++ [w] in
    s ← flush_watch addr (set_watch_list l s);
    Ok (0, s).

Definition cpu_watchpoint_remove_by_ref (w : CPUWatchpoint) (s : watch_state) : res watch_state :=
  match list_find (λ x, wp x = wp w) (watch_list s) with
  | Some (n, _) => flush_watch (wp_vaddr w) (set_watch_list (delete n (watch_list s)) s)
  | None => Err UseAfterFree
  end.

(** The first one that matches. *)
Definition cpu_watchpoint_remove (addr len flags : Z) (s : watch_state) : res (Z * watch_state) :=
  let len_mask0 := u32 (Z.lnot (len - 1)) in
  match list_find (λ w, (addr =? wp_vaddr w) && (len_mask0 =? len_mask w) &&
                        (flags =? wp_flags w .& Z.lnot BP_WATCHPOINT_HIT) = true) (watch_list s) with
  | Some (_, w) => s ← cpu_watchpoint_remove_by_ref w s; Ok (0, s)
  | None => Ok (- ENOENT, s)
  end.

(** The loop goes over the list as it was. *)
Fixpoint watch_remove_loop (ws : list CPUWatchpoint) (mask : Z) (s : watch_state) : res watch_state :=
  match ws with
  | [] => Ok s
  | w :: ws =>
      s ← (if truth (wp_flags w .& mask) then cpu_watchpoint_remove_by_ref w s else Ok s);
      watch_remove_loop ws mask s
  end.
Definition cpu_watchpoint_remove_all (mask : Z) (s : watch_state) : res watch_state :=
  watch_remove_loop (watch_list s) mask s.

(** ** Breakpoints *)
Section breakpoints.
Context {D : Type} `{IoPorts D}.
Implicit Types s : physmem D.

Record break_state := mkBreak { break_list : list CPUBreakpoint; break_mem : physmem D }.

Definition breakpoint_invalidate (env : CPUARMState) (pc : Z) s : res (physmem D) :=
  addr ← @cpu_get_phys_page_debug (phys_read s) env pc;
  let '(pd, _) := page_descriptor (mach s) addr in
  let ram_addr := page_of pd .| page_flags pc in
  Ok (tb_invalidate_phys_page_range ram_addr (ram_addr + 1) s).

Definition cpu_breakpoint_insert (env : CPUARMState) (p pc flags : Z) (b : break_state) :
    res (Z * break_state) :=
  let x := mkBreakpoint p pc flags in
  let l := if truth (flags .& BP_GDB) then x :: break_list b else break_list b ++ [x] in
  s ← breakpoint_invalidate env pc (break_mem b);
  Ok (0, mkBreak l s).

Definition cpu_breakpoint_remove_by_ref (env : CPUARMState) (x : CPUBreakpoint) (b : break_state) :
    res break_state :=
  match list_find (λ y, bp y = bp x) (break_list b) with
  | Some (n, _) =>
      s ← breakpoint_invalidate env (bp_pc x) (break_mem b);
      Ok (mkBreak (delete n (break_list b)) s)
  | None => Err UseAfterFree
  end.

Definition cpu_breakpoint_remove (env : CPUARMState) (pc flags : Z) (b : break_state) :
    res (Z * break_state) :=
  match list_find (λ x, (bp_pc x =? pc) && (bp_flags x =? flags) = true) (break_list b) with
  | Some (_, x) => b ← cpu_breakpoint_remove_by_ref env x b; Ok (0, b)
  | None => Ok (- ENOENT, b)
  end.

Fixpoint break_remove_loop (env : CPUARMState) (xs : list CPUBreakpoint) (mask : Z) (b : break_state) :
    res break_state :=
  match xs with
  | [] => Ok b
  | x :: xs =>
      b ← (if truth (bp_flags x .& mask) then cpu_breakpoint_remove_by_ref env x b else Ok b);
      break_remove_loop env xs mask b
  end.
Definition cpu_breakpoint_remove_all (env : CPUARMState) (mask : Z) (b : break_state) : res break_state :=
  break_remove_loop env (break_list b) mask b.
End breakpoints.
Arguments mkBreak {D}. Arguments break_list {D}. Arguments break_mem {D}.

(** ** A watched page is trapped *)
Lemma watch_loop_spec ws vaddr paddr io address i :
  watch_loop ws vaddr paddr io address i =
    if existsb (λ w, vaddr =? page_of w) ws then (address .| TLB_MMIO, u32 (io + paddr)) else (address, i).
Proof.
  revert address i. induction ws as [|w ws IH]; intros address i; [done|]. cbn [watch_loop existsb].
  fold (page_of w). destruct (vaddr =? page_of w); cbn [orb]; rewrite IH; [|done].
  destruct (existsb _ ws); [|done]. by rewrite <- Z.lor_assoc, Z.lor_diag.
Qed.

(** The entry goes to an I/O handler. *)
Definition is_mmio (a : Z) : Prop := truth (a .& TLB_MMIO) = true.

Lemma is_mmio_lor a : is_mmio (a .| TLB_MMIO).
Proof.
  unfold is_mmio, truth. apply negb_true_iff, Z.eqb_neq. intros H.
  apply (f_equal (λ z, Z.testbit z 5)) in H. rewrite Z.land_spec, Z.lor_spec in H. cbn in H.
  by rewrite orb_true_r in H.
Qed.

Lemma is_mmio_more a f : is_mmio a → is_mmio (a .| f).
Proof.
  unfold is_mmio, truth. rewrite !negb_true_iff, !Z.eqb_neq. intros Ha H. apply Ha.
  rewrite Z.land_lor_distr_l in H. by apply Z.lor_eq_0_l in H.
Qed.

Lemma write_address_mmio pd address prot dirty aw : write_address pd address prot dirty = Ok aw →
  truth (prot .& PAGE_WRITE) = true → is_mmio address → is_mmio aw.
Proof.
  unfold write_address. intros H Hw Ha. rewrite Hw in H. destruct (_ || _); [injection H as <-; apply is_mmio_lor|].
  destruct (_ =? _); [|by injection H as <-].
  apply bind_Ok in H as (d & _ & H). injection H as <-. destruct (negb d); [by apply is_mmio_more|done].
Qed.

(** Entering a watched page. *)
Lemma watched_page_enters t m w paddr prot mmu_idx t' m' :
  tlb_wf t → 0 ≤ mmu_idx < NB_MMU_MODES → w ∈ watchpoints t →
  tlb_set_page_exec (page_of w) paddr prot mmu_idx t m = Ok (t', m') →
  ∃ e, get_entry t' mmu_idx (tlb_index (page_of w)) = Ok e ∧
    (truth (prot .& PAGE_READ) = true → is_mmio (addr_read e)) ∧
    (truth (prot .& PAGE_WRITE) = true → is_mmio (addr_write e)).
Proof.
  intros Hwf Hm Hw H. unfold tlb_set_page_exec in H. set (vaddr := page_of w) in *.
  destruct (page_descriptor m paddr) as [pd p]. apply bind_Ok in H as ([hb m1] & _ & H).
  rewrite watch_loop_spec in H.
  assert (existsb (λ x, vaddr =? page_of x) (watchpoints t) = true) as Hex.
  { apply existsb_exists. exists w. split; [by apply list_elem_of_In|]. apply Z.eqb_refl. }
  rewrite Hex in H. set (a0 := if is_io pd then _ else _) in H.
  set (address := a0 .| TLB_MMIO) in H.
  assert (is_mmio address) as Ha by apply is_mmio_lor. clearbody address.
  set (i := u32 (io_mem_watch m1 + paddr)) in H.
  destruct (put_iotlb_ok t Hwf mmu_idx (tlb_index vaddr) (u32 (i - vaddr)) Hm (tlb_index_bound vaddr))
    as (io & Hio & Hwf1).
  rewrite Hio, bind_ret in H. set (t1 := t <| iotlb := io |>) in *.
  destruct (get_entry_ok t1 Hwf1 mmu_idx (tlb_index vaddr) Hm (tlb_index_bound vaddr)) as [e He].
  rewrite He, bind_ret in H. apply bind_Ok in H as (aw & Haw & H).
  set (e' := _ <| addr_write := aw |>) in H.
  destruct (put_entry_ok t1 Hwf1 mmu_idx (tlb_index vaddr) e' Hm (tlb_index_bound vaddr))
    as (t2 & Hp & _ & Hg & _).
  rewrite Hp, bind_ret in H. injection H as <- <-. exists e'. rewrite Hg, decide_True by done.
  split; [done|]. split.
  - intros Hr. change (addr_read e') with (if truth (prot .& PAGE_READ) then address else no_addr). by rewrite Hr.
  - intros Hwr. change (addr_write e') with aw. by eapply write_address_mmio.
Qed.

(** Setting a watchpoint flushes its page, so that the next access enters it
    again, and from then on every read and write of the page goes to a handler
    in all modes. *)
Theorem watchpoint_traps p addr len flags s s' :
  tlb_wf (watch_tlb s) → cpu_watchpoint_insert p addr len flags s = Ok (0, s') →
  tlb_wf (watch_tlb s') ∧ watchpoints (watch_tlb s') = map wp_vaddr (watch_list s') ∧
  (∀ m a x, 0 ≤ m < NB_MMU_MODES → page_of x = page_of addr → tlb_hit (watch_tlb s') m x a = Ok false) ∧
  (∀ t m paddr prot mmu_idx t' m', tlb_wf t → watchpoints t = watchpoints (watch_tlb s') →
     0 ≤ mmu_idx < NB_MMU_MODES →
     tlb_set_page_exec (page_of addr) paddr prot mmu_idx t m = Ok (t', m') →
     ∃ e, get_entry t' mmu_idx (tlb_index (page_of addr)) = Ok e ∧
       (truth (prot .& PAGE_READ) = true → is_mmio (addr_read e)) ∧
       (truth (prot .& PAGE_WRITE) = true → is_mmio (addr_write e))).
Proof.
  intros Hwf H. unfold cpu_watchpoint_insert in H. cbv zeta in H. destruct (_ || _) in H; [done|].
  set (w := mkWatchpoint p addr _ flags) in *.
  set (l := if truth (flags .& BP_GDB) then w :: watch_list s else watch_list s ++ [w]) in *.
  assert (w ∈ l) as Hw.
  { unfold l. destruct (truth _); [left|]. apply elem_of_app. right. by left. }
  apply bind_Ok in H as (s1 & Hs1 & H). injection H as <-.
  unfold flush_watch in Hs1. apply bind_Ok in Hs1 as (t & Ht & Hs1). injection Hs1 as <-.
  assert (tlb_wf (watch_tlb (set_watch_list l s))) as Hwf1 by (destruct Hwf; by split).
  destruct (flush_page_ok _ addr Hwf1) as (t' & Ht' & Hwf' & Hmiss & _). rewrite Ht in Ht'. injection Ht' as <-.
  assert (watchpoints t = map wp_vaddr l) as Hps.
  { unfold tlb_flush_page, each_mode, put_entry, tlb_flush_jmp_cache in Ht. inv_res. done. }
  cbn [watch_tlb watch_list]. split; [done|]. split; [done|]. split; [done|].
  intros t2 m paddr prot mmu_idx t2' m' Hwf2 Hwps Hm Hset.
  apply (watched_page_enters t2 m addr paddr prot mmu_idx t2' m'); try done.
  rewrite Hwps, Hps. apply list_elem_of_fmap. by exists w.
Qed.
