(* ===== verification/SoftMmu.v ===== *)
(** * Guest loads and stores ([softmmu_template.h], [softmmu_header.h],
    [tlb_fill] in [target-arm/op_helper.c], the not-dirty handlers of [exec.c])

    The code every guest access goes through: a fast path when the software TLB
    maps the page as plain RAM, a slow path that refills the TLB, does I/O and
    splits unaligned accesses.  The access is reported to the tracer on the
    way.  Sizes are 1, 2, 4 or 8 bytes; [CONFIG_MEMCHECK] and instruction
    counting are off; [GETPC()] is an argument. *)
From S2P Require Import Prelude TlbCore TlbTrace SoftTlb ArmCpu ArmMode ArmMmu GetPtes PhysMem.

(** The translator's reaction to a store on a page with translated code. *)
Class TbCache := tb_invalidate_phys_page_fast : Z → Z → machine → machine.

Record smmu (D : Type) := mkSmmu {
  cpu : CPUARMState;
  pmem : physmem D;
  trc : tracer;
  mem_io_vaddr : Z;
  mem_io_pc : Z
}.
Arguments mkSmmu {D}. Arguments cpu {D}. Arguments pmem {D}. Arguments trc {D}.
Arguments mem_io_vaddr {D}. Arguments mem_io_pc {D}.

(** An access is done, raises a guest exception (a [longjmp] out of the
    generated code), or the tracer ends the process. *)
Inductive out (D A : Type) : Type :=
| Done (a : A) (s : smmu D)
| Raised (excp : Z) (s : smmu D)
| Quit (s : smmu D).
Arguments Done {D A}. Arguments Raised {D A}. Arguments Quit {D A}.

Definition sm (D A : Type) : Type := smmu D → res (out D A).

Definition sm_ret {D A} (a : A) : sm D A := λ s, Ok (Done a s).
Definition sm_bind {D A B} (m : sm D A) (k : A → sm D B) : sm D B := λ s,
  o ← m s;
  match o with
  | Done a s => k a s
  | Raised e s => Ok (Raised e s)
  | Quit s => Ok (Quit s)
  end.
Definition sm_get {D A} (f : smmu D → A) : sm D A := λ s, Ok (Done (f s) s).
Definition sm_set {D} (f : smmu D → smmu D) : sm D unit := λ s, Ok (Done tt (f s)).
Definition sm_res {D A} (r : res A) : sm D A := λ s, a ← r; Ok (Done a s).

Notation "x <-- m ;; k" := (sm_bind m (λ x, k))
  (at level 100, m at next level, right associativity) : c_scope.
Notation "m ;;; k" := (sm_bind m (λ _, k)) (at level 100, right associativity) : c_scope.

Section softmmu.
Context {D : Type} `{IoPorts D} `{TbCache}.
Implicit Types s : smmu D.

Definition with_cpu (e : CPUARMState) s : smmu D :=
  mkSmmu e (pmem s) (trc s) (mem_io_vaddr s) (mem_io_pc s).
Definition with_pmem (m : physmem D) s : smmu D :=
  mkSmmu (cpu s) m (trc s) (mem_io_vaddr s) (mem_io_pc s).
Definition with_trc (t : tracer) s : smmu D :=
  mkSmmu (cpu s) (pmem s) t (mem_io_vaddr s) (mem_io_pc s).
Definition with_io (vaddr pc : Z) s : smmu D := mkSmmu (cpu s) (pmem s) (trc s) vaddr pc.

(** ** The tracer's view *)

(** Words of guest memory for the tracer's walker; a word no load can reach
    reads as 0. *)
Definition guest_words s : Z → Z := λ a,
  match phys_read (pmem s) a with Ok v => v | Err _ => 0 end.

(** [tlbtrace_refmem_qemu(addr, 0)] *)
Definition trace_ref (addr : Z) : sm D unit := λ s,
  o ← tlbtrace_refmem_qemu (guest_words s) addr 0 (cpu s) (trc s);
  match o with
  | Returns _ t => Ok (Done tt (with_trc t s))
  | Exits t => Ok (Quit (with_trc t s))
  end.

(** ** Refilling the TLB *)

(** [is_write]: 0 load, 1 store, 2 instruction fetch.  The guest program
    counter is restored by the translator. *)
Definition tlb_fill (addr is_write mmu_idx : Z) : sm D unit := λ s,
  '(ret, e, m) ← @cpu_arm_handle_mmu_fault (phys_read (pmem s)) (cpu s) (mach (pmem s))
                   addr is_write mmu_idx;
  let s := with_pmem (with_mach m (pmem s)) (with_cpu e s) in
  if ret =? 0 then Ok (Done tt s) else Ok (Raised (exception_index e) s).

Definition access_code (a : access) : Z := match a with Read => 0 | Write => 1 | Code => 2 end.

(** The [redo] loop: the entry that maps [addr], refilled as often as needed. *)
Fixpoint probe (fuel : nat) (addr : Z) (a : access) (mmu_idx : Z) : sm D CPUTLBEntry :=
  e <-- (λ s, sm_res (get_entry (tlb (cpu s)) mmu_idx (tlb_index addr)) s) ;;
  if entry_hits addr a e then sm_ret e
  else match fuel with
       | O => sm_res (Err Diverges)
       | S fuel => tlb_fill addr (access_code a) mmu_idx ;;; probe fuel addr a mmu_idx
       end.

(** ** Bytes and I/O *)
Definition misaligned (sz addr : Z) : bool := truth (addr .& (sz - 1)).
Definition spans (sz addr : Z) : bool := TARGET_PAGE_SIZE <=? page_flags addr + sz - 1.
Definition host_addr (addr : Z) (e : CPUTLBEntry) : Z := u64 (addr + addend e).

Definition load_raw (sz addr : Z) (e : CPUTLBEntry) : sm D Z :=
  sm_get (λ s, ld_p (Z.to_nat sz) (host_addr addr e) (ram (pmem s))).
Definition store_raw (sz addr val : Z) (e : CPUTLBEntry) : sm D unit :=
  sm_set (λ s, with_pmem (with_ram (st_p (Z.to_nat sz) (host_addr addr e) val (ram (pmem s)))
                            (pmem s)) s).

(** One call through [io_mem_read]: the ROM and not-dirty entries have no read
    functions, unassigned memory reads 0. *)
Definition io_call_read (index shift physaddr : Z) : sm D Z := λ s,
  if (index =? 1) || (index =? 3) then Err BadIndirectCall
  else if index =? 2 then Ok (Done 0 s)
  else
    let '(v, d) := io_mem_read index shift physaddr (devs (pmem s)) in
    Ok (Done v (with_pmem (with_devs d (pmem s)) s)).

(** [notdirty_mem_writeb], [w] and [l]. *)
Definition notdirty_mem_write (shift ram_addr val : Z) : sm D unit := λ s,
  let len := 2 ^ shift in
  let m := mach (pmem s) in
  flags ← aget (phys_dirty m) (ram_addr >> TARGET_PAGE_BITS);
  let m := if truth (flags .& CODE_DIRTY_FLAG) then m
           else tb_invalidate_phys_page_fast ram_addr len m in
  flags ← aget (phys_dirty m) (ram_addr >> TARGET_PAGE_BITS);
  '(ptr, m) ← qemu_get_ram_ptr ram_addr m;
  let r := st_p (Z.to_nat len) ptr val (ram (pmem s)) in
  let flags := flags .| (0xff .& Z.lnot CODE_DIRTY_FLAG) in
  m ← cpu_physical_memory_set_dirty_flags ram_addr flags m;
  let s := with_pmem (with_ram r (with_mach m (pmem s))) s in
  if flags =? 0xff then
    t ← tlb_set_dirty (mem_io_vaddr s) (tlb (cpu s));
    Ok (Done tt (with_cpu ((cpu s) <| tlb := t |>) s))
  else Ok (Done tt s).

Definition io_call_write (index shift physaddr val : Z) : sm D unit := λ s,
  if (index =? 1) || (index =? 2) then Ok (Done tt s)
  else if index =? 3 then notdirty_mem_write shift physaddr val s
  else Ok (Done tt (with_pmem (with_devs (io_mem_write index shift physaddr val (devs (pmem s)))
                                 (pmem s)) s)).

Definition io_read (sz physaddr addr retaddr : Z) : sm D Z :=
  let index := io_index physaddr in
  let physaddr := u32 (page_of physaddr + addr) in
  sm_set (with_io addr retaddr) ;;;
  if sz <=? 4 then
    v <-- io_call_read index (Z.log2 sz) physaddr ;; sm_ret (v mod 2 ^ (8 * sz))
  else
    v <-- io_call_read index 2 physaddr ;;
    w <-- io_call_read index 2 (u32 (physaddr + 4)) ;;
    sm_ret (u32 v .| (u32 w << 32)).

Definition io_write (sz physaddr val addr retaddr : Z) : sm D unit :=
  let index := io_index physaddr in
  let physaddr := u32 (page_of physaddr + addr) in
  sm_set (with_io addr retaddr) ;;;
  if sz <=? 4 then io_call_write index (Z.log2 sz) physaddr val
  else
    io_call_write index 2 physaddr (u32 val) ;;;
    io_call_write index 2 (u32 (physaddr + 4)) (u32 (val >> 32)).

Definition get_iotlb (addr mmu_idx : Z) : sm D Z := λ s,
  sm_res (row ← aget (iotlb (tlb (cpu s))) mmu_idx; aget row (tlb_index addr)) s.

(** ** Loads *)

(** [slow_ld]: [depth] bounds the recursion on the two aligned halves. *)
Fixpoint slow_ld (depth fuel : nat) (sz addr : Z) (a : access) (mmu_idx retaddr : Z) : sm D Z :=
  let unaligned :=
    match depth with
    | O => sm_res (Err Diverges)
    | S depth =>
        let addr1 := u32 (addr .& Z.lnot (sz - 1)) in
        let addr2 := u32 (addr1 + sz) in
        res1 <-- slow_ld depth fuel sz addr1 a mmu_idx retaddr ;;
        res2 <-- slow_ld depth fuel sz addr2 a mmu_idx retaddr ;;
        let shift := (addr .& (sz - 1)) * 8 in
        sm_ret (((res1 >> shift) .| (res2 << (sz * 8 - shift))) mod 2 ^ (8 * sz))
    end in
  e <-- probe fuel addr a mmu_idx ;;
  if truth (page_flags (tlb_addr a e)) then
    if misaligned sz addr then unaligned
    else ioaddr <-- get_iotlb addr mmu_idx ;; io_read sz ioaddr addr retaddr
  else if spans sz addr then unaligned
  else load_raw sz addr e.

(** [__ld] *)
Definition ld_slow_path (fuel : nat) (sz addr : Z) (a : access) (mmu_idx retaddr : Z) : sm D Z :=
  trace_ref addr ;;;
  e <-- probe fuel addr a mmu_idx ;;
  if truth (page_flags (tlb_addr a e)) then
    if misaligned sz addr then slow_ld 1 fuel sz addr a mmu_idx retaddr
    else ioaddr <-- get_iotlb addr mmu_idx ;; io_read sz ioaddr addr retaddr
  else if spans sz addr then slow_ld 1 fuel sz addr a mmu_idx retaddr
  else load_raw sz addr e.

(** [(addr & (TARGET_PAGE_MASK | (DATA_SIZE - 1)))] *)
Definition fast_key (sz addr : Z) : Z := addr .& (TARGET_PAGE_MASK .| (sz - 1)).

(** [ld]: an entry equal to the key is RAM without flags, and the access is
    aligned. *)
Definition ld (fuel : nat) (sz addr : Z) (a : access) (mmu_idx retaddr : Z) : sm D Z :=
  e <-- (λ s, sm_res (get_entry (tlb (cpu s)) mmu_idx (tlb_index addr)) s) ;;
  if tlb_addr a e =? fast_key sz addr then trace_ref addr ;;; load_raw sz addr e
  else ld_slow_path fuel sz addr a mmu_idx retaddr.

(** [lds]: sign-extended to [int]. *)
Definition lds (fuel : nat) (sz addr : Z) (a : access) (mmu_idx retaddr : Z) : sm D Z :=
  v <-- ld fuel sz addr a mmu_idx retaddr ;; sm_ret (sext (8 * sz) v).

(** ** Stores *)

(** [slow_stb]: a byte is never split. *)
Definition slow_stb (fuel : nat) (addr val mmu_idx retaddr : Z) : sm D unit :=
  e <-- probe fuel addr Write mmu_idx ;;
  if truth (page_flags (addr_write e)) then
    ioaddr <-- get_iotlb addr mmu_idx ;; io_write 1 ioaddr (u8 val) addr retaddr
  else store_raw 1 addr (u8 val) e.

(** [for (i = DATA_SIZE - 1; i >= 0; i--)] *)
Fixpoint store_bytes (n : nat) (fuel : nat) (addr val mmu_idx retaddr : Z) : sm D unit :=
  match n with
  | O => sm_ret tt
  | S n =>
      let i := Z.of_nat n in
      slow_stb fuel (u32 (addr + i)) (val >> (i * 8)) mmu_idx retaddr ;;;
      store_bytes n fuel addr val mmu_idx retaddr
  end.

Definition slow_st (fuel : nat) (sz addr val mmu_idx retaddr : Z) : sm D unit :=
  e <-- probe fuel addr Write mmu_idx ;;
  if truth (page_flags (addr_write e)) then
    if misaligned sz addr then store_bytes (Z.to_nat sz) fuel addr val mmu_idx retaddr
    else ioaddr <-- get_iotlb addr mmu_idx ;; io_write sz ioaddr val addr retaddr
  else if spans sz addr then store_bytes (Z.to_nat sz) fuel addr val mmu_idx retaddr
  else store_raw sz addr val e.

(** [__st] *)
Definition st_slow_path (fuel : nat) (sz addr val mmu_idx retaddr : Z) : sm D unit :=
  trace_ref addr ;;;
  e <-- probe fuel addr Write mmu_idx ;;
  if truth (page_flags (addr_write e)) then
    if misaligned sz addr then slow_st fuel sz addr val mmu_idx retaddr
    else ioaddr <-- get_iotlb addr mmu_idx ;; io_write sz ioaddr val addr retaddr
  else if spans sz addr then slow_st fuel sz addr val mmu_idx retaddr
  else store_raw sz addr val e.

Definition st (fuel : nat) (sz addr val mmu_idx retaddr : Z) : sm D unit :=
  e <-- (λ s, sm_res (get_entry (tlb (cpu s)) mmu_idx (tlb_index addr)) s) ;;
  if addr_write e =? fast_key sz addr then trace_ref addr ;;; store_raw sz addr val e
  else st_slow_path fuel sz addr val mmu_idx retaddr.
End softmmu.
