(* ===== verification/SoftMmuFacts.v ===== *)
(** * Correctness of guest loads and stores *)
From S2P Require Import Prelude TlbCore TlbTrace TlbTraceFacts SoftTlb ArmCpu ArmMode.
From S2P Require Import ArmModeFacts ArmMmu ArmMmuFacts GetPtes PhysMem PhysMemFacts SoftMmu.

Section facts.
Context {D : Type} `{IoPorts D} `{TbCache}.
Implicit Types s : smmu D.

(** ** Tracing *)

(** Code that does not touch the tracer. *)
Definition untraced {A} (m : sm D A) : Prop := ∀ s o, m s = Ok o →
  match o with
  | Done _ s' | Raised _ s' => trc s' = trc s
  | Quit _ => False
  end.

Lemma untraced_bind {A B} (m : sm D A) (k : A → sm D B) :
  untraced m → (∀ a, untraced (k a)) → untraced (sm_bind m k).
Proof.
  intros Hm Hk s o. unfold sm_bind. intros (o1 & H1 & H2)%bind_Ok.
  specialize (Hm s o1 H1). destruct o1 as [a s1|e s1|s1]; [| |done].
  - specialize (Hk a s1 o H2). destruct o; congruence || done.
  - by injection H2 as <-.
Qed.

Lemma untraced_ret {A} (a : A) : untraced (sm_ret a).
Proof. intros s o [= <-]. done. Qed.

Lemma untraced_res {A} (r : smmu D → res A) : untraced (λ s, sm_res (r s) s).
Proof. intros s o. unfold sm_res. intros (a & _ & Hk)%bind_Ok. by injection Hk as <-. Qed.

Lemma untraced_err {A} f : untraced (A:=A) (sm_res (Err f)).
Proof. intros s o. unfold sm_res. by intros (a & Ha & _)%bind_Ok. Qed.

Lemma untraced_get {A} (f : smmu D → A) : untraced (sm_get f).
Proof. intros s o [= <-]. done. Qed.

Lemma untraced_set f : (∀ s, trc (f s) = trc s) → untraced (sm_set f).
Proof. intros Hf s o [= <-]. apply Hf. Qed.

Lemma untraced_fill addr w i : untraced (tlb_fill addr w i).
Proof.
  intros s o. unfold tlb_fill. intros ([[ret e] m] & _ & Hk)%bind_Ok.
  destruct (ret =? 0); by injection Hk as <-.
Qed.

#[local] Create HintDb untraced.
#[local] Hint Resolve untraced_bind untraced_ret untraced_res untraced_err untraced_get untraced_fill
  : untraced.

Lemma untraced_probe fuel addr a i : untraced (probe fuel addr a i).
Proof.
  induction fuel as [|fuel IH]; cbn [probe]; apply untraced_bind; auto with untraced;
    intros e; destruct (entry_hits addr a e); auto with untraced.
Qed.

Lemma untraced_notdirty shift addr val : untraced (notdirty_mem_write shift addr val).
Proof.
  intros s o. unfold notdirty_mem_write. intros (f1 & _ & Hk)%bind_Ok.
  apply bind_Ok in Hk as (f2 & _ & Hk). apply bind_Ok in Hk as ([ptr m] & _ & Hk).
  apply bind_Ok in Hk as (m2 & _ & Hk). destruct (_ =? 0xff).
  - apply bind_Ok in Hk as (t & _ & Hk). by injection Hk as <-.
  - by injection Hk as <-.
Qed.

Lemma untraced_io_call_read i sh p : untraced (io_call_read i sh p).
Proof.
  intros s o. unfold io_call_read. destruct (_ || _); [done|].
  destruct (i =? 2); [intros [= <-]; done|].
  destruct (io_mem_read _ _ _ _) as [v d]. by intros [= <-].
Qed.

Lemma untraced_io_call_write i sh p v : untraced (io_call_write i sh p v).
Proof.
  intros s o. unfold io_call_write. destruct (_ || _); [intros [= <-]; done|].
  destruct (i =? 3); [apply untraced_notdirty|]. by intros [= <-].
Qed.
#[local] Hint Resolve untraced_probe untraced_io_call_read untraced_io_call_write : untraced.

Lemma untraced_io_read sz p addr ra : untraced (io_read sz p addr ra).
Proof.
  unfold io_read. cbv zeta. apply untraced_bind; [by apply untraced_set|]. intros _.
  destruct (sz <=? 4); repeat (apply untraced_bind; [auto with untraced|intros ?]);
    auto with untraced.
Qed.

Lemma untraced_io_write sz p v addr ra : untraced (io_write sz p v addr ra).
Proof.
  unfold io_write. cbv zeta. apply untraced_bind; [by apply untraced_set|]. intros _.
  destruct (sz <=? 4); [auto with untraced|]. apply untraced_bind; auto with untraced.
Qed.

Lemma untraced_iotlb addr i : untraced (get_iotlb addr i).
Proof. apply untraced_res. Qed.
Lemma untraced_load_raw sz addr e : untraced (load_raw (D:=D) sz addr e).
Proof. apply untraced_get. Qed.
Lemma untraced_store_raw sz addr v e : untraced (store_raw (D:=D) sz addr v e).
Proof. by apply untraced_set. Qed.
#[local] Hint Resolve untraced_io_read untraced_io_write untraced_iotlb untraced_load_raw
  untraced_store_raw : untraced.

(** The tests and the sequencing of an access. *)
Ltac untraced_access :=
  apply untraced_bind; [auto with untraced|]; intros ?;
  repeat match goal with |- untraced (if ?b then _ else _) => destruct b end;
  auto with untraced.

Lemma untraced_slow_ld depth fuel sz addr a i ra : untraced (slow_ld depth fuel sz addr a i ra).
Proof.
  revert addr. induction depth as [|depth IH]; intros addr; cbn [slow_ld]; untraced_access;
    apply untraced_bind; auto with untraced; intros ?; apply untraced_bind; auto with untraced.
Qed.

Lemma untraced_slow_stb fuel addr v i ra : untraced (slow_stb fuel addr v i ra).
Proof. unfold slow_stb. untraced_access. Qed.

Lemma untraced_store_bytes n fuel addr v i ra : untraced (store_bytes n fuel addr v i ra).
Proof.
  induction n as [|n IH]; cbn [store_bytes]; [auto with untraced|].
  apply untraced_bind; [apply untraced_slow_stb|done].
Qed.
#[local] Hint Resolve untraced_slow_ld untraced_store_bytes : untraced.

Lemma untraced_slow_st fuel sz addr v i ra : untraced (slow_st fuel sz addr v i ra).
Proof. unfold slow_st. untraced_access. Qed.
#[local] Hint Resolve untraced_slow_st : untraced.

(** The access reports [addr] to the tracer once and does nothing else to it. *)
Definition traced_once {A} (addr : Z) (m : sm D A) : Prop := ∀ s o, m s = Ok o →
  ∃ o1, trace_ref addr s = Ok o1 ∧
    match o1, o with
    | Done _ s1, (Done _ s' | Raised _ s') => trc s' = trc s1
    | Quit s1, Quit s' => s' = s1
    | _, _ => False
    end.

Lemma trace_then_untraced {A} addr (m : sm D A) :
  untraced m → traced_once addr (trace_ref addr ;;; m).
Proof.
  intros Hm s o. unfold sm_bind. intros (o1 & H1 & H2)%bind_Ok. exists o1. split; [done|].
  destruct o1 as [a s1|e s1|s1].
  - specialize (Hm s1 o H2). by destruct o.
  - exfalso. unfold trace_ref in H1. apply bind_Ok in H1 as (o2 & _ & H1).
    by destruct o2.
  - by injection H2 as <-.
Qed.

Lemma get_then_traced {A B} addr (f : smmu D → res A) (k : A → sm D B) :
  (∀ a, traced_once addr (k a)) → traced_once addr (sm_bind (λ s, sm_res (f s) s) k).
Proof.
  intros Hk s o. unfold sm_bind, sm_res. intros (o1 & H1 & H2)%bind_Ok.
  apply bind_Ok in H1 as (a & _ & H1). injection H1 as <-. by apply (Hk a).
Qed.

Lemma once_ld_slow_path fuel sz addr a i ra : traced_once addr (ld_slow_path fuel sz addr a i ra).
Proof. apply trace_then_untraced. untraced_access. Qed.
Lemma once_st_slow_path fuel sz addr v i ra : traced_once addr (st_slow_path fuel sz addr v i ra).
Proof. apply trace_then_untraced. untraced_access. Qed.

Lemma once_ld fuel sz addr a i ra : traced_once addr (ld fuel sz addr a i ra).
Proof.
  apply get_then_traced. intros e.
  destruct (_ =? _); [apply trace_then_untraced; auto with untraced|apply once_ld_slow_path].
Qed.
Lemma once_st fuel sz addr v i ra : traced_once addr (st fuel sz addr v i ra).
Proof.
  apply get_then_traced. intros e.
  destruct (_ =? _); [apply trace_then_untraced; auto with untraced|apply once_st_slow_path].
Qed.

(** C20: Every load and store through the softmmu functions of the helpers and
    of the translator ([ldl_data], [ldl_code], [stl_data], ...) is reported to
    the tracer exactly once, at its own address, whichever path it takes: the
    TLB hit in line, the refill, I/O, or the split of an unaligned access.
    Nothing else changes the tracer, and only the tracer's own limit ends the
    process.  In particular an access that spans two pages is reported for its
    first page only.  Accesses that do not go through these functions are not
    meant: hits that generated code inlines ([inlined_hits_are_not_traced]) and
    the structure accesses of NEON are not reported. *)
Theorem softmmu_traces_once fuel sz addr val a mmu_idx retaddr :
  traced_once addr (ld fuel sz addr a mmu_idx retaddr) ∧
  traced_once addr (lds fuel sz addr a mmu_idx retaddr) ∧
  traced_once addr (st fuel sz addr val mmu_idx retaddr).
Proof.
  split; [apply once_ld|]. split; [|apply once_st].
  intros s o. unfold lds, sm_bind. intros (o1 & H1 & H2)%bind_Ok.
  destruct (once_ld _ _ _ _ _ _ s o1 H1) as (o2 & H3 & H4). exists o2. split; [done|].
  destruct o1 as [v s1|e s1|s1]; injection H2 as <-; done.
Qed.

(** ** Refills end *)

(** What a refill needs and keeps. *)
Definition mmu_inv s : Prop :=
  tlb_wf (tlb (cpu s)) ∧ arm_feature (cpu s) ARM_FEATURE_MPU = false.

Definition out_state {A} (o : out D A) : smmu D :=
  match o with Done _ s | Raised _ s | Quit s => s end.

(** The code does not loop and keeps the invariant. *)
Definition runs {A} (m : sm D A) : Prop := ∀ s, mmu_inv s →
  m s ≠ Err Diverges ∧ ∀ o, m s = Ok o → mmu_inv (out_state o).

Lemma runs_bind {A B} (m : sm D A) (k : A → sm D B) :
  runs m → (∀ a, runs (k a)) → runs (sm_bind m k).
Proof.
  intros Hm Hk s Hs. destruct (Hm s Hs) as [H1 H2]. unfold sm_bind. split.
  - apply bind_no_loop; [done|]. intros [a s1|e s1|s1] Ho; [|done|done].
    apply (Hk a s1). apply (H2 _ Ho).
  - intros o (o1 & Ho1 & Ho)%bind_Ok. specialize (H2 o1 Ho1).
    destruct o1 as [a s1|e s1|s1]; [|by injection Ho as <-|by injection Ho as <-].
    by apply (Hk a s1 H2).
Qed.

Lemma aget_no_loop {A} (l : list A) i : aget l i ≠ Err Diverges.
Proof. unfold aget. by destruct (zlookup l i). Qed.
Lemma aput_no_loop {A} (l : list A) i x : aput l i x ≠ Err Diverges.
Proof. unfold aput. by destruct (zlookup l i). Qed.

Lemma runs_ret {A} (a : A) : runs (sm_ret a).
Proof. intros s Hs. split; [done|]. by intros o [= <-]. Qed.

Lemma runs_res {A} (r : smmu D → res A) : (∀ s, r s ≠ Err Diverges) → runs (λ s, sm_res (r s) s).
Proof.
  intros Hr s Hs. split.
  - apply bind_no_loop; [apply Hr|done].
  - intros o (a & _ & Ho)%bind_Ok. by injection Ho as <-.
Qed.

Lemma runs_get {A} (f : smmu D → A) : runs (sm_get f).
Proof. intros s Hs. split; [done|]. by intros o [= <-]. Qed.

Lemma runs_set f : (∀ s, cpu (f s) = cpu s) → runs (sm_set f).
Proof.
  intros Hf s Hs. split; [done|]. intros o [= <-]. unfold mmu_inv in *. cbn. by rewrite Hf.
Qed.

Lemma get_entry_no_loop t i j : get_entry t i j ≠ Err Diverges.
Proof. apply bind_no_loop; [apply aget_no_loop|intros ? _; apply aget_no_loop]. Qed.
Lemma put_entry_no_loop i j e t : put_entry i j e t ≠ Err Diverges.
Proof.
  apply bind_no_loop; [apply aget_no_loop|intros ? _].
  apply bind_no_loop; [apply aput_no_loop|intros ? _].
  apply bind_no_loop; [apply aput_no_loop|done].
Qed.
Lemma put_iotlb_no_loop i j v t : put_iotlb i j v t ≠ Err Diverges.
Proof.
  apply bind_no_loop; [apply aget_no_loop|intros ? _].
  apply bind_no_loop; [apply aput_no_loop|intros ? _].
  apply bind_no_loop; [apply aput_no_loop|done].
Qed.
Lemma get_ram_ptr_no_loop a m : qemu_get_ram_ptr a m ≠ Err Diverges.
Proof.
  unfold qemu_get_ram_ptr. destruct (find_block m a) as [[n b]|]; [|done].
  by destruct (n =? 0)%nat.
Qed.
Lemma is_dirty_no_loop a m : cpu_physical_memory_is_dirty a m ≠ Err Diverges.
Proof. apply bind_no_loop; [apply aget_no_loop|done]. Qed.
Lemma set_dirty_no_loop a f m : cpu_physical_memory_set_dirty_flags a f m ≠ Err Diverges.
Proof.
  apply bind_no_loop; [apply aget_no_loop|intros ? _].
  apply bind_no_loop; [apply aput_no_loop|done].
Qed.

Lemma set_page_no_loop v p prot i t m : tlb_set_page_exec v p prot i t m ≠ Err Diverges.
Proof.
  unfold tlb_set_page_exec. destruct (page_descriptor m p) as [pd q].
  apply bind_no_loop; [apply get_ram_ptr_no_loop|intros [hb m1] _].
  destruct (watch_loop _ _ _ _ _ _) as [wa wi].
  apply bind_no_loop; [apply put_iotlb_no_loop|intros t1 _].
  apply bind_no_loop; [apply get_entry_no_loop|intros e _].
  apply bind_no_loop; [|intros aw _; apply bind_no_loop; [apply put_entry_no_loop|done]].
  unfold write_address. destruct (truth _); [|done]. destruct (_ || _); [done|].
  destruct (_ =? _); [|done]. apply bind_no_loop; [apply is_dirty_no_loop|done].
Qed.

Lemma phys_read_no_loop (p : physmem D) a : phys_read p a ≠ Err Diverges.
Proof.
  apply bind_no_loop; [|by intros [v p'] _]. unfold ldl_phys_op.
  destruct (page_descriptor _ _) as [pd q]. destruct (is_io pd).
  - by destruct (io_mem_read _ _ _ _).
  - apply bind_no_loop; [|by intros [ptr p1] _].
    apply bind_no_loop; [apply ram_ptr_no_loop|by intros [ptr p1] _].
Qed.

Lemma check_ap_no_loop e ap d w u : check_ap e ap d w u ≠ Err Diverges.
Proof. unfold check_ap. repeat case_match; discriminate. Qed.

Lemma walk_no_loop (PR : PhysRead) e addr w u :
  (∀ a, ldl_phys a ≠ Err Diverges) → arm_feature e ARM_FEATURE_MPU = false →
  get_phys_addr e addr w u ≠ Err Diverges.
Proof.
  intros Hl Hm. unfold get_phys_addr. rewrite Hm. destruct (_ =? 0); [done|].
  assert (∀ p ap sz c d, v5_finish e p ap sz c d w u ≠ Err Diverges) as H5.
  { intros p ap sz c d. apply bind_no_loop; [apply check_ap_no_loop|].
    intros prot _. by destruct (prot =? 0). }
  assert (∀ p ap xn sz c d, v6_finish e p ap xn sz c d w u ≠ Err Diverges) as H6.
  { intros p ap xn sz c d. unfold v6_finish. destruct (d =? 3); [done|].
    destruct (truth xn && _); [done|]. destruct (truth _ && _); [done|].
    apply bind_no_loop; [apply check_ap_no_loop|]. intros prot _. by destruct (prot =? 0). }
  destruct (truth _).
  - apply bind_no_loop; [apply Hl|]. intros desc _. cbv zeta. destruct (_ || _); [done|].
    destruct (_ || _); [done|]. destruct (_ =? 2).
    + by destruct (truth (desc .& (1 << 18))).
    + apply bind_no_loop; [apply Hl|]. intros desc2 _.
      destruct (v6_page _ desc2) as [[[p xn] sz]|]; done.
  - apply bind_no_loop; [apply Hl|]. intros desc _. cbv zeta. destruct (_ =? 0); [done|].
    destruct (_ || _); [done|]. destruct (_ =? 2); [done|].
    apply bind_no_loop; [apply Hl|]. intros desc2 _.
    destruct (v5_page e _ _ desc2) as [[[p ap] sz]|]; done.
Qed.

Lemma access_code_range a : 0 ≤ access_code a ≤ 2.
Proof. by destruct a. Qed.
Lemma access_of_code a : access_of (access_code a) = a.
Proof. by destruct a. Qed.

(** A completed refill makes the access hit. *)
Lemma fill_ok addr a i s : mmu_inv s → 0 ≤ i < NB_MMU_MODES →
  tlb_fill addr (access_code a) i s ≠ Err Diverges ∧
  ∀ o, tlb_fill addr (access_code a) i s = Ok o →
    mmu_inv (out_state o) ∧
    ∀ u s1, o = Done u s1 → tlb_hit (tlb (cpu s1)) i addr a = Ok true.
Proof.
  intros [Hwf Hm] Hi. unfold tlb_fill. split.
  - apply bind_no_loop; [|intros [[ret e] m] _; by destruct (ret =? 0)].
    unfold cpu_arm_handle_mmu_fault. cbv zeta.
    apply bind_no_loop; [apply (walk_no_loop (phys_read (pmem s))); [|done]|].
    + intros b. apply phys_read_no_loop.
    + intros [p prot sz|code] _; [|done].
      apply bind_no_loop; [apply set_page_no_loop|by intros [t m] _].
  - intros o ([[ret e] m] & Hr & Ho)%bind_Ok.
    destruct (@mmu_fault_ok (phys_read (pmem s)) _ _ _ _ _ _ _ _ Hwf (access_code_range a) Hi Hm Hr)
      as [(-> & Hwf' & He & Hh)|(-> & Ht & _)].
    + injection Ho as <-. split; [split; [done|rewrite He; done]|].
      intros u s1 [= _ <-]. rewrite access_of_code in Hh. by apply Hh.
    + injection Ho as <-. split; [|done]. split; cbn; [by rewrite Ht|].
      unfold cpu_arm_handle_mmu_fault in Hr. cbv zeta in Hr.
      apply bind_Ok in Hr as ([p prot sz|code] & _ & Hr).
      * apply bind_Ok in Hr as ([t m1] & _ & Hr). discriminate Hr.
      * injection Hr as <- _. unfold report_fault.
        destruct (_ =? 2); [done|]. by destruct (_ && _).
Qed.

(** One refill is enough. *)
Lemma sm_res_bind {A B} (r : smmu D → res A) (k : A → sm D B) s x :
  r s = Ok x → sm_bind (λ s, sm_res (r s) s) k s = k x s.
Proof. intros Hr. unfold sm_bind, sm_res. by rewrite Hr. Qed.

Lemma probe_hit n addr a i s : tlb_hit (tlb (cpu s)) i addr a = Ok true →
  ∃ e, probe n addr a i s = Ok (Done e s).
Proof.
  intros (e & He & Hh)%bind_Ok. injection Hh as Hh. exists e.
  destruct n; cbn [probe]; rewrite (sm_res_bind _ _ _ e He), Hh; done.
Qed.

Lemma runs_probe fuel addr a i : 0 ≤ i < NB_MMU_MODES → runs (probe (S fuel) addr a i).
Proof.
  intros Hi s Hs. cbn [probe].
  destruct (get_entry_ok (tlb (cpu s)) (proj1 Hs) i (tlb_index addr) Hi (tlb_index_bound addr))
    as [e He].
  rewrite (sm_res_bind _ _ _ e He). destruct (entry_hits addr a e).
  { split; [done|]. by intros o [= <-]. }
  destruct (fill_ok addr a i s Hs Hi) as [F1 F2]. unfold sm_bind. split.
  - apply bind_no_loop; [done|]. intros [u s1|x s1|s1] Ho; [|done|done].
    destruct (F2 _ Ho) as [G1 G2].
    by destruct (probe_hit fuel addr a i s1 (G2 _ _ eq_refl)) as [e1 ->].
  - intros o (o1 & Ho1 & Ho)%bind_Ok. destruct (F2 _ Ho1) as [G1 G2].
    destruct o1 as [u s1|x s1|s1]; [|by injection Ho as <-|by injection Ho as <-].
    destruct (probe_hit fuel addr a i s1 (G2 _ _ eq_refl)) as [e1 Hp]. rewrite Hp in Ho.
    by injection Ho as <-.
Qed.

(** *** I/O and raw accesses *)
Lemma runs_io_call_read i sh p : runs (io_call_read i sh p).
Proof.
  intros s Hs. unfold io_call_read. destruct (_ || _); [done|].
  destruct (i =? 2); [split; [done|by intros o [= <-]]|].
  destruct (io_mem_read _ _ _ _) as [v d]. split; [done|]. by intros o [= <-].
Qed.

Lemma set_dirty_runs vaddr t : tlb_wf t →
  ∃ t', tlb_set_dirty vaddr t = Ok t' ∧ tlb_wf t'.
Proof.
  intros Hwf.
  destruct (each_mode_ok t (tlb_index (vaddr .& TARGET_PAGE_MASK))
              (tlb_set_dirty1 (vaddr .& TARGET_PAGE_MASK)) Hwf (tlb_index_bound _))
    as (t' & Ht & Hwf' & _). by exists t'.
Qed.

Lemma runs_notdirty shift addr val : runs (notdirty_mem_write shift addr val).
Proof.
  intros s [Hwf Hm]. unfold notdirty_mem_write. cbv zeta. split.
  - apply bind_no_loop; [apply aget_no_loop|intros f1 _].
    apply bind_no_loop; [apply aget_no_loop|intros f2 _].
    apply bind_no_loop; [apply get_ram_ptr_no_loop|intros [ptr m] _].
    apply bind_no_loop; [apply set_dirty_no_loop|intros m2 _].
    destruct (_ =? 0xff); [|done].
    by destruct (set_dirty_runs (mem_io_vaddr s) _ Hwf) as (t' & Ht & _); cbn; rewrite Ht.
  - intros o (f1 & _ & Ho)%bind_Ok. apply bind_Ok in Ho as (f2 & _ & Ho).
    apply bind_Ok in Ho as ([ptr m] & _ & Ho). apply bind_Ok in Ho as (m2 & _ & Ho).
    destruct (_ =? 0xff); [|by injection Ho as <-].
    destruct (set_dirty_runs (mem_io_vaddr s) _ Hwf) as (t' & Ht & Hwf').
    cbn in Ho. rewrite Ht in Ho. by injection Ho as <-.
Qed.

Lemma runs_io_call_write i sh p v : runs (io_call_write i sh p v).
Proof.
  intros s Hs. unfold io_call_write.
  destruct (_ || _); [split; [done|by intros o [= <-]]|].
  destruct (i =? 3); [by apply runs_notdirty|]. split; [done|]. by intros o [= <-].
Qed.

Create HintDb runs.
#[local] Hint Resolve runs_bind runs_ret runs_get runs_probe runs_io_call_read runs_io_call_write
  : runs.

Lemma runs_io_read sz p addr ra : runs (io_read sz p addr ra).
Proof.
  unfold io_read. cbv zeta. apply runs_bind; [by apply runs_set|]. intros _.
  destruct (sz <=? 4); repeat (apply runs_bind; [auto with runs|intros ?]); auto with runs.
Qed.
Lemma runs_io_write sz p v addr ra : runs (io_write sz p v addr ra).
Proof.
  unfold io_write. cbv zeta. apply runs_bind; [by apply runs_set|]. intros _.
  destruct (sz <=? 4); [auto with runs|]. apply runs_bind; auto with runs.
Qed.
Lemma runs_iotlb addr i : runs (get_iotlb addr i).
Proof.
  apply runs_res. intros s. apply bind_no_loop; [apply aget_no_loop|intros ? _; apply aget_no_loop].
Qed.
Lemma runs_load_raw sz addr e : runs (load_raw sz addr e).
Proof. apply runs_get. Qed.
Lemma runs_store_raw sz addr v e : runs (store_raw sz addr v e).
Proof. by apply runs_set. Qed.
#[local] Hint Resolve runs_io_read runs_io_write runs_iotlb runs_load_raw runs_store_raw : runs.

(** *** Splitting *)

(** The access sizes of the templates. *)
Definition data_size (sz : Z) : Prop := ∃ k, 0 ≤ k ≤ 3 ∧ sz = 2 ^ k.

Lemma misaligned_mod sz addr : data_size sz → misaligned sz addr = negb (addr mod sz =? 0).
Proof.
  intros (k & Hk & ->). unfold misaligned.
  replace (2 ^ k - 1) with (Z.ones k) by (rewrite Z.ones_equiv; lia).
  by rewrite Z.land_ones by lia.
Qed.

(** The first half is aligned, and so is the one after it. *)
Lemma halves_aligned sz addr : data_size sz →
  let addr1 := u32 (addr .& Z.lnot (sz - 1)) in
  addr1 mod sz = 0 ∧ u32 (addr1 + sz) mod sz = 0.
Proof.
  intros (k & Hk & ->). cbv zeta.
  assert (∀ a, u32 a mod 2 ^ k = a mod 2 ^ k) as Hu.
  { intros a. unfold u32. apply Z.mod_mod_divide. exists (2 ^ (32 - k)). rewrite <- Z.pow_add_r by lia. f_equal. lia. }
  assert ((addr .& Z.lnot (2 ^ k - 1)) mod 2 ^ k = 0) as H1.
  { rewrite <- Z.land_ones, <- Z.land_assoc by lia.
    replace (2 ^ k - 1) with (Z.ones k) by (rewrite Z.ones_equiv; lia).
    by rewrite (Z.land_comm (Z.lnot _)), Z.land_lnot_diag, Z.land_0_r. }
  rewrite !Hu. split; [done|]. rewrite Z.add_mod, Hu, H1, Z.mod_same by lia. done.
Qed.

(** An aligned access stays in its page. *)
Lemma aligned_in_page sz addr : data_size sz → addr mod sz = 0 → spans sz addr = false.
Proof.
  intros (k & Hk & ->) Ha. unfold spans. rewrite page_flags_mod. apply Z.leb_gt.
  change TARGET_PAGE_SIZE with (2 ^ 10). change 1024 with (2 ^ 10).
  assert (addr mod 2 ^ 10 mod 2 ^ k = 0) as H1.
  { rewrite Z.mod_mod_divide; [done|]. exists (2 ^ (10 - k)). rewrite <- Z.pow_add_r by lia. f_equal. lia. }
  pose proof (Z.mod_pos_bound addr (2 ^ 10) ltac:(lia)).
  pose proof (Z.div_mod (addr mod 2 ^ 10) (2 ^ k) ltac:(lia)) as Hd. rewrite H1 in Hd.
  assert (2 ^ 10 = 2 ^ k * 2 ^ (10 - k)) as Hp
    by (rewrite <- Z.pow_add_r by lia; f_equal; lia).
  assert (addr mod 2 ^ 10 / 2 ^ k < 2 ^ (10 - k)).
  { apply Z.div_lt_upper_bound; [lia|]. rewrite <- Hp. lia. }
  pose proof (Z.mul_le_mono_nonneg_l (addr mod 2 ^ 10 / 2 ^ k + 1) (2 ^ (10 - k)) (2 ^ k)
    ltac:(lia) ltac:(lia)). lia.
Qed.

(** A half is served without a further split. *)
Lemma runs_slow_ld_aligned depth fuel sz addr a i ra :
  data_size sz → 0 ≤ i < NB_MMU_MODES → addr mod sz = 0 →
  runs (slow_ld depth (S fuel) sz addr a i ra).
Proof.
  intros Hsz Hi Ha.
  destruct depth; cbn [slow_ld]; apply runs_bind; [auto with runs| |auto with runs|]; intros e;
    rewrite (misaligned_mod _ _ Hsz), (aligned_in_page _ _ Hsz Ha), Ha;
    (destruct (truth _); cbn [Z.eqb negb]; [|auto with runs]);
    (apply runs_bind; auto with runs).
Qed.

Lemma runs_slow_ld depth fuel sz addr a i ra : data_size sz → 0 ≤ i < NB_MMU_MODES →
  runs (slow_ld (S depth) (S fuel) sz addr a i ra).
Proof.
  intros Hsz Hi. destruct (halves_aligned sz addr Hsz) as [H1 H2]. cbn [slow_ld].
  apply runs_bind; [auto with runs|]. intros e.
  pose proof (runs_slow_ld_aligned depth fuel sz _ a i ra Hsz Hi H1).
  pose proof (runs_slow_ld_aligned depth fuel sz _ a i ra Hsz Hi H2).
  destruct (truth _); [destruct (misaligned _ _)|destruct (spans _ _)];
    auto 8 with runs.
Qed.

Lemma runs_slow_stb fuel addr v i ra : 0 ≤ i < NB_MMU_MODES → runs (slow_stb (S fuel) addr v i ra).
Proof.
  intros Hi. unfold slow_stb. apply runs_bind; [auto with runs|]. intros e.
  destruct (truth _); auto with runs.
Qed.

Lemma runs_store_bytes n fuel addr v i ra : 0 ≤ i < NB_MMU_MODES →
  runs (store_bytes n (S fuel) addr v i ra).
Proof.
  intros Hi. induction n as [|n IH]; cbn [store_bytes]; [auto with runs|].
  apply runs_bind; [by apply runs_slow_stb|done].
Qed.
#[local] Hint Resolve runs_slow_ld runs_store_bytes : runs.

Lemma runs_slow_st fuel sz addr v i ra : 0 ≤ i < NB_MMU_MODES →
  runs (slow_st (S fuel) sz addr v i ra).
Proof.
  intros Hi. unfold slow_st. apply runs_bind; [auto with runs|]. intros e.
  destruct (truth _); [destruct (misaligned _ _)|destruct (spans _ _)]; auto with runs.
Qed.
#[local] Hint Resolve runs_slow_st : runs.

(** The tracer's call comes first. *)
Lemma after_trace {A} addr (m : sm D A) s : mmu_inv s → runs m →
  trace_ref addr s ≠ Err Diverges → (trace_ref addr ;;; m) s ≠ Err Diverges.
Proof.
  intros Hs Hm Ht. apply bind_no_loop; [done|]. intros o Ho. unfold trace_ref in Ho.
  apply bind_Ok in Ho as ([r t|t] & _ & Ho); injection Ho as <-; [|done].
  by apply (Hm (with_trc t s)).
Qed.

Lemma runs_ld_body fuel sz addr a i ra s : mmu_inv s → data_size sz → 0 ≤ i < NB_MMU_MODES →
  trace_ref addr s ≠ Err Diverges → ld (S fuel) sz addr a i ra s ≠ Err Diverges.
Proof.
  intros Hs Hsz Hi Ht. unfold ld.
  destruct (get_entry_ok (tlb (cpu s)) (proj1 Hs) i (tlb_index addr) Hi (tlb_index_bound addr))
    as [e He].
  rewrite (sm_res_bind _ _ _ e He).
  destruct (_ =? _); apply after_trace; auto with runs.
  apply runs_bind; [auto with runs|]. intros e'.
  destruct (truth _); [destruct (misaligned _ _)|destruct (spans _ _)]; auto with runs.
Qed.

Lemma runs_st_body fuel sz addr v i ra s : mmu_inv s → data_size sz → 0 ≤ i < NB_MMU_MODES →
  trace_ref addr s ≠ Err Diverges → st (S fuel) sz addr v i ra s ≠ Err Diverges.
Proof.
  intros Hs Hsz Hi Ht. unfold st.
  destruct (get_entry_ok (tlb (cpu s)) (proj1 Hs) i (tlb_index addr) Hi (tlb_index_bound addr))
    as [e He].
  rewrite (sm_res_bind _ _ _ e He).
  destruct (_ =? _); apply after_trace; auto with runs.
  apply runs_bind; [auto with runs|]. intros e'.
  destruct (truth _); [destruct (misaligned _ _)|destruct (spans _ _)]; auto with runs.
Qed.

(** C26: guest loads and stores end.  On a CPU with an MMU, the [redo] loop of
    the slow path refills the TLB at most once (one unit of fuel is enough:
    after a refill that succeeds the entry hits, after one that fails the
    access leaves with the guest's exception), and an unaligned load is split
    at most once, its halves being aligned.  The access loops only if the
    tracer's own call does. *)
Theorem softmmu_access_terminates fuel sz addr val a mmu_idx retaddr s :
  tlb_wf (tlb (cpu s)) → arm_feature (cpu s) ARM_FEATURE_MPU = false →
  data_size sz → 0 ≤ mmu_idx < NB_MMU_MODES → trace_ref addr s ≠ Err Diverges →
  ld (S fuel) sz addr a mmu_idx retaddr s ≠ Err Diverges ∧
  st (S fuel) sz addr val mmu_idx retaddr s ≠ Err Diverges.
Proof.
  intros Hwf Hm Hsz Hi Ht.
  split; [apply runs_ld_body|apply runs_st_body]; try assumption; by split.
Qed.

(** ** What was stored is loaded *)

(** An entry that maps the page of [addr] as plain RAM, for loads and stores. *)
Definition plain_ram (e : CPUTLBEntry) (addr : Z) : Prop :=
  addr_read e = page_of addr ∧ addr_write e = page_of addr.

Lemma page_of_flags addr : page_flags (page_of addr) = 0.
Proof.
  unfold page_flags, page_of. rewrite <- Z.land_assoc. change (TARGET_PAGE_MASK .& 0x3FF) with 0.
  apply Z.land_0_r.
Qed.

Lemma plain_hits e addr a : plain_ram e addr → a ≠ Code → entry_hits addr a e = true.
Proof.
  intros [Hr Hw] Ha. unfold entry_hits. apply Z.eqb_eq.
  assert (page_of addr .& (TARGET_PAGE_MASK .| TLB_INVALID_MASK) = page_of addr) as Hp.
  { unfold page_of. rewrite <- Z.land_assoc. f_equal. }
  destruct a; [by cbn; rewrite Hr|by cbn; rewrite Hw|done].
Qed.

Lemma plain_probe fuel addr a i s e :
  get_entry (tlb (cpu s)) i (tlb_index addr) = Ok e → plain_ram e addr → a ≠ Code →
  probe fuel addr a i s = Ok (Done e s).
Proof.
  intros He Hp Ha. destruct fuel; cbn [probe];
    by rewrite (sm_res_bind _ _ _ e He), (plain_hits e addr a Hp Ha).
Qed.

(** Tracing changes the tracer only. *)
Lemma trace_ref_keeps addr s u s1 : trace_ref addr s = Ok (Done u s1) →
  cpu s1 = cpu s ∧ pmem s1 = pmem s.
Proof.
  unfold trace_ref. intros ([r t|t] & _ & Ht)%bind_Ok; [|discriminate Ht].
  injection Ht as _ <-. done.
Qed.

Lemma trace_ref_off addr s : truth (started (trc s)) = false → trace_ref addr s = Ok (Done tt s).
Proof.
  intros Hs. unfold trace_ref, tlbtrace_refmem_qemu. rewrite Hs. by destruct s.
Qed.

(** Either path of an access inside a RAM page is the raw access. *)
Lemma plain_ld fuel sz addr i ra s s1 e :
  get_entry (tlb (cpu s)) i (tlb_index addr) = Ok e → plain_ram e addr → spans sz addr = false →
  trace_ref addr s = Ok (Done tt s1) →
  ld fuel sz addr Read i ra s = load_raw sz addr e s1.
Proof.
  intros He Hp Hin Ht. unfold ld. rewrite (sm_res_bind _ _ _ e He).
  destruct (trace_ref_keeps _ _ _ _ Ht) as [Hs1 _].
  destruct (_ =? _); unfold ld_slow_path; unfold sm_bind at 1; rewrite Ht, bind_ret; [done|].
  unfold sm_bind. rewrite (plain_probe fuel addr Read i s1 e), bind_ret; [|by rewrite Hs1|done..].
  cbn [tlb_addr]. rewrite (proj1 Hp), page_of_flags. change (truth 0) with false. cbv match.
  by rewrite Hin.
Qed.

Lemma plain_st fuel sz addr v i ra s s1 e :
  get_entry (tlb (cpu s)) i (tlb_index addr) = Ok e → plain_ram e addr → spans sz addr = false →
  trace_ref addr s = Ok (Done tt s1) →
  st fuel sz addr v i ra s = store_raw sz addr v e s1.
Proof.
  intros He Hp Hin Ht. unfold st. rewrite (sm_res_bind _ _ _ e He).
  destruct (trace_ref_keeps _ _ _ _ Ht) as [Hs1 _].
  destruct (_ =? _); unfold st_slow_path; unfold sm_bind at 1; rewrite Ht, bind_ret; [done|].
  unfold sm_bind. rewrite (plain_probe fuel addr Write i s1 e), bind_ret; [|by rewrite Hs1|done..].
  rewrite (proj2 Hp), page_of_flags. change (truth 0) with false. cbv match. by rewrite Hin.
Qed.

(** C29: a store to a page the TLB maps as plain RAM, at any alignment within
    the page, writes exactly the bytes of the access at the host address of
    the entry, little-endian, and a load of the same size from the same
    address then returns the stored value, truncated to the access. *)
Theorem softmmu_store_load fuel sz addr val mmu_idx retaddr s s1 e :
  data_size sz → spans sz addr = false →
  get_entry (tlb (cpu s)) mmu_idx (tlb_index addr) = Ok e → plain_ram e addr →
  trace_ref addr s = Ok (Done tt s1) →
  ∃ s2, st fuel sz addr val mmu_idx retaddr s = Ok (Done tt s2) ∧ trc s2 = trc s1 ∧
    (∀ q, q < host_addr addr e ∨ host_addr addr e + sz ≤ q → ram (pmem s2) q = ram (pmem s) q) ∧
    ∀ s3, trace_ref addr s2 = Ok (Done tt s3) →
      ld fuel sz addr Read mmu_idx retaddr s2 = Ok (Done (val mod 2 ^ (8 * sz)) s3).
Proof.
  intros Hsz Hin He Hp Ht.
  assert (Z.of_nat (Z.to_nat sz) = sz) as Hn by (destruct Hsz as (k & Hk & ->); lia).
  destruct (trace_ref_keeps _ _ _ _ Ht) as [K1 K2].
  rewrite (plain_st fuel sz addr val mmu_idx retaddr s s1 e He Hp Hin Ht).
  eexists. split; [reflexivity|]. split; [done|]. split.
  - intros q Hq. cbn. rewrite st_p_other by (rewrite Hn; done). by rewrite K2.
  - intros s3 Ht2. destruct (trace_ref_keeps _ _ _ _ Ht2) as [_ K3].
    rewrite (plain_ld fuel sz addr mmu_idx retaddr _ s3 e); [|cbn; by rewrite K1|done..].
    unfold load_raw, sm_get. rewrite K3. cbn [pmem with_pmem ram with_ram].
    by rewrite ld_st_p, Hn.
Qed.
End facts.

(** A machine whose TLB maps the page at [0x1000] as plain RAM; the MMU is off
    and no code is cached. *)
Definition no_tbs : TbCache := λ _ _ m, m.
Definition demo_ram_cpu : CPUARMState :=
  demo_cpu <| tlb := tlb_boot <| tlb_table :=
    replicate 2 (<[4%nat := mkEntry 0x1000 0x1000 0x1000 0x7F0000000000]>
      (replicate (Z.to_nat CPU_TLB_SIZE) (mkEntry 0 0 0 0))) |> |>.
Definition demo_smmu : smmu unit := mkSmmu demo_ram_cpu demo_phys tracer_boot 0 0.

Theorem softmmu_store_load_witness :
  ∃ s2, @st unit no_ports no_tbs 1 4 0x1002 0x1122334455 1 0 demo_smmu = Ok (Done tt s2) ∧
    @ld unit no_ports 1 4 0x1002 Read 1 0 s2 = Ok (Done 0x22334455 s2).
Proof.
  destruct (@softmmu_store_load unit no_ports no_tbs 1 4 0x1002 0x1122334455 1 0 demo_smmu demo_smmu
    (mkEntry 0x1000 0x1000 0x1000 0x7F0000000000)
    ltac:(exists 2; lia) ltac:(vm_compute; reflexivity) ltac:(vm_compute; reflexivity)
    ltac:(split; reflexivity) (trace_ref_off 0x1002 demo_smmu eq_refl)) as (s2 & Hs & Ht & _ & Hl).
  exists s2. split; [exact Hs|]. apply (Hl s2), trace_ref_off. rewrite Ht. reflexivity.
Defined.

Lemma demo_ram_wf : tlb_wf (tlb (cpu demo_smmu)).
Proof.
  split; try reflexivity; apply Forall_replicate; [|reflexivity].
  unfold zlength. by rewrite length_insert, length_replicate.
Qed.

(** An unaligned access to a page that is not in the TLB. *)
Theorem softmmu_access_terminates_witness :
  @ld unit no_ports 1 4 0x8001 Read 1 0 demo_smmu ≠ Err Diverges ∧
  @st unit no_ports no_tbs 1 4 0x8001 5 1 0 demo_smmu ≠ Err Diverges.
Proof.
  apply (@softmmu_access_terminates unit no_ports no_tbs 0 4 0x8001 5 Read 1 0 demo_smmu).
  - exact demo_ram_wf.
  - reflexivity.
  - exists 2. lia.
  - unfold NB_MMU_MODES. lia.
  - rewrite (trace_ref_off 0x8001 demo_smmu eq_refl). discriminate.
Defined.
