(* ===== verification/TbLists.v ===== *)
(** * Linked lists threaded through structures

    [exec.c] links translation blocks through fields of the blocks themselves:
    by physical hash, by guest page, and by the blocks that jump to a block.  A
    pointer of the last two lists carries in its low two bits which field of
    the block it points to holds the next pointer.  Memory is a map from field
    addresses to such pointers; this file has the lists and what inserting and
    removing one element does to them. *)
From S2P Require Import Prelude.

(** A pointer to a block, by its index in [tbs], and its low two bits; [None]
    is the null pointer. *)
Notation tagged := (Z * Z)%type.
Definition ptr : Type := option tagged.

(** Addresses of the pointer fields. *)
Inductive loc : Type :=
| LHash (h : Z)              (** [&tb_phys_hash[h]] *)
| LHashNext (tb : Z)         (** [&tb->phys_hash_next] *)
| LPage (p : Z)              (** [&p->first_tb] of the descriptor of page [p] *)
| LPageNext (tb n : Z)       (** [&tb->page_next[n]] *)
| LJmpNext (tb n : Z)        (** [&tb->jmp_next[n]] *)
| LJmpFirst (tb : Z).        (** [&tb->jmp_first] *)

#[export] Instance loc_eq_dec : EqDecision loc.
Proof. solve_decision. Defined.
#[export] Instance loc_countable : Countable loc.
Proof.
  refine (inj_countable'
    (λ l, match l with
          | LHash h => (0, h, 0) | LHashNext t => (1, t, 0) | LPage p => (2, p, 0)
          | LPageNext t n => (3, t, n) | LJmpNext t n => (4, t, n) | LJmpFirst t => (5, t, 0)
          end)
    (λ '(k, a, b), match k with
          | 0 => LHash a | 1 => LHashNext a | 2 => LPage a
          | 3 => LPageNext a b | 4 => LJmpNext a b | _ => LJmpFirst a
          end) _); by intros [].
Defined.

Definition heap : Type := gmap loc tagged.
(** [*l = p] *)
Definition store (l : loc) (p : ptr) (h : heap) : heap := partial_alter (λ _, p) l h.

Lemma store_eq l p h : store l p h !! l = p.
Proof. apply lookup_partial_alter_eq. Qed.
Lemma store_ne l l' p h : l ≠ l' → store l p h !! l' = h !! l'.
Proof. apply lookup_partial_alter_ne. Qed.

(** The loops that look for the pointer to an element:
    [for (;;) { tb1 = *ptb; if (found) break; ptb = &next; }]; following a null
    pointer is a fault. *)
Fixpoint find_cell (fuel : nat) (nxt : tagged → loc) (found : tagged → bool) (l : loc) (h : heap)
    : res loc :=
  match fuel with
  | O => Err Diverges
  | S fuel =>
      match h !! l with
      | None => Err NullPointer
      | Some x => if found x then Ok l else find_cell fuel nxt found (nxt x) h
      end
  end.

(** ** Segments *)

(** From [a], the elements [l] and then the pointer [z]. *)
Fixpoint seg (h : heap) (nxt : tagged → loc) (a : loc) (l : list tagged) (z : ptr) : Prop :=
  match l with
  | [] => h !! a = z
  | x :: l => h !! a = Some x ∧ seg h nxt (nxt x) l z
  end.

Lemma elem_of_map {A B} (f : A → B) l y : y ∈ map f l ↔ ∃ x, y = f x ∧ x ∈ l.
Proof. apply list_elem_of_fmap. Qed.

Section segments.
Context (nxt : tagged → loc).
Implicit Types (h : heap) (a : loc) (x : tagged) (l : list tagged) (z : ptr).

(** The cells of a segment, and the last of them. *)
Definition cells a l : list loc := a :: map nxt l.
Definition last_cell a l : loc := match last l with None => a | Some x => nxt x end.

Lemma last_cell_app a l x l' : last_cell a (l ++ x :: l') = last_cell (nxt x) l'.
Proof.
  unfold last_cell. rewrite last_app_cons. destruct l' as [|y l']; [done|].
  rewrite last_cons_cons. by destruct (last (y :: l')) eqn:E; [|apply last_None in E].
Qed.
Lemma last_cell_in a l : last_cell a l ∈ cells a l.
Proof.
  unfold last_cell, cells. destruct (last l) as [x|] eqn:E; [|by left].
  right. apply last_Some in E as [l' ->]. rewrite map_app. apply elem_of_app. right. by left.
Qed.

Lemma seg_app h a l1 x l2 z :
  seg h nxt a (l1 ++ x :: l2) z ↔ seg h nxt a l1 (Some x) ∧ seg h nxt (nxt x) l2 z.
Proof.
  revert a. induction l1 as [|y l1 IH]; intros a; cbn [app seg]; [done|]. rewrite IH. tauto.
Qed.
Lemma seg_last h a l z : seg h nxt a l z → h !! last_cell a l = z.
Proof.
  revert a. induction l as [|x l IH]; intros a; [done|]. intros [_ Hs].
  change (x :: l) with ([] ++ x :: l). rewrite last_cell_app. by apply IH.
Qed.

Lemma seg_frame h h' a l z : (∀ c, c ∈ cells a l → h' !! c = h !! c) →
  seg h nxt a l z → seg h' nxt a l z.
Proof.
  revert a. induction l as [|x l IH]; intros a Hc; cbn [seg].
  - rewrite Hc; [done|]. by left.
  - intros [Ha Hs]. split; [rewrite Hc; [done|by left]|].
    apply IH; [|done]. intros c Hin. apply Hc. by right.
Qed.

(** The last pointer changed. *)
Lemma seg_store_last h a l z p : NoDup (cells a l) →
  seg h nxt a l z → seg (store (last_cell a l) p h) nxt a l p.
Proof.
  revert a. induction l as [|x l IH]; intros a Hnd; cbn [seg]; [intros _; apply store_eq|].
  intros [Ha Hs]. apply NoDup_cons in Hnd as [Hna Hnd].
  change (x :: l) with ([] ++ x :: l). rewrite last_cell_app. split; [|by apply IH].
  rewrite store_ne; [done|]. intros <-. apply Hna. apply last_cell_in.
Qed.

Lemma find_cell_seg h fuel found a l x : seg h nxt a l (Some x) →
  (∀ y, y ∈ l → found y = false) → found x = true → (length l < fuel)%nat →
  find_cell fuel nxt found a h = Ok (last_cell a l).
Proof.
  revert fuel a. induction l as [|y l IH]; intros fuel a Hs Hl Hx Hf;
    destruct fuel as [|fuel]; try (cbn in Hf; lia); cbn [find_cell seg] in *.
  - by rewrite Hs, Hx.
  - destruct Hs as [-> Hs]. rewrite Hl by (by left).
    change (y :: l) with ([] ++ y :: l). rewrite last_cell_app.
    apply IH; [done| |done|cbn in Hf; lia]. intros y' Hy. apply Hl. by right.
Qed.

(** A segment that ends in a pointer is no longer than the memory. *)
Lemma seg_dom h a l x : seg h nxt a l (Some x) → ∀ c, c ∈ cells a l → c ∈ dom h.
Proof.
  revert a. induction l as [|y l IH]; intros a; cbn [seg]; intros Hs c Hc.
  - apply list_elem_of_singleton in Hc as ->. apply elem_of_dom. by exists x.
  - destruct Hs as [Ha Hs]. apply elem_of_cons in Hc as [-> | Hc]; [apply elem_of_dom; by exists y|].
    by apply (IH _ Hs).
Qed.
Lemma seg_cells_dom h a l x : NoDup (cells a l) → seg h nxt a l (Some x) → (S (length l) ≤ size h)%nat.
Proof.
  intros Hnd Hs. pose proof (size_dom (D := gset loc) h) as Hd.
  assert (size (list_to_set (cells a l) : gset loc) ≤ size (dom h : gset loc))%nat as Hle.
  { apply subseteq_size. intros c Hc. apply elem_of_list_to_set in Hc. by eapply seg_dom. }
  rewrite size_list_to_set in Hle by done. unfold cells in Hle. rewrite length_cons, length_map in Hle.
  unfold heap in *. lia.
Qed.
Lemma seg_length h a l z : NoDup (cells a l) → seg h nxt a l z → (length l < S (size h))%nat.
Proof.
  intros Hnd Hs. destruct l as [|y l] using rev_ind; [cbn; lia|].
  apply seg_app in Hs as [Hs _]. apply seg_cells_dom in Hs; [rewrite length_app; cbn; lia|].
  unfold cells in *. rewrite map_app, app_comm_cons in Hnd. by apply NoDup_app in Hnd as [? _].
Qed.

Lemma seg_head h a l : seg h nxt a l None → h !! a = head l.
Proof. destruct l; cbn [seg head]; [done|by intros [? _]]. Qed.
End segments.

(** ** Families of lists

    All lists of one kind: list [k] starts at the cell [head k], goes on through
    the cells [nxt x] and ends in [z k]; no element is in two lists. *)
Definition upd {K A} `{EqDecision K} (k : K) (v : A) (f : K → A) : K → A :=
  λ k', if decide (k' = k) then v else f k'.
Lemma upd_eq {K A} `{EqDecision K} (k : K) (v : A) f : upd k v f k = v.
Proof. unfold upd. by rewrite decide_True. Qed.
Lemma upd_ne {K A} `{EqDecision K} (k k' : K) (v : A) f : k' ≠ k → upd k v f k' = f k'.
Proof. intros. unfold upd. by rewrite decide_False. Qed.

Section family.
Context {K : Type} `{EqDecision K} (head : K → loc) (nxt : tagged → loc) (z : K → ptr).
Context (ok : tagged → Prop) (here : K → Prop).
Context (head_inj : ∀ k k', head k = head k' → k = k').
Context (nxt_inj : ∀ x y, ok x → ok y → nxt x = nxt y → x = y).
Context (head_nxt : ∀ k x, ok x → head k ≠ nxt x).
Implicit Types (h : heap) (k : K) (x : tagged) (ch : K → list tagged).

Record family h ch : Prop := {
  fam_seg : ∀ k, here k → seg h nxt (head k) (ch k) (z k);
  fam_nodup : ∀ k, here k → NoDup (ch k);
  fam_disj : ∀ k k' x, here k → here k' → x ∈ ch k → x ∈ ch k' → k = k';
  fam_ok : ∀ k x, here k → x ∈ ch k → ok x
}.

Lemma in_cells c k l : c ∈ cells nxt (head k) l ↔ c = head k ∨ ∃ x, x ∈ l ∧ c = nxt x.
Proof.
  unfold cells. rewrite elem_of_cons, elem_of_map. split.
  - intros [?|(x & ? & ?)]; eauto.
  - intros [?|(x & ? & ?)]; eauto.
Qed.
Lemma nodup_nxt l : (∀ x, x ∈ l → ok x) → NoDup l → NoDup (map nxt l).
Proof.
  induction l as [|x l IH]; intros Ho Hn; [constructor|]. apply NoDup_cons in Hn as [Hx Hn].
  apply NoDup_cons. split; [|apply IH; [intros y Hy; apply Ho; by right|done]].
  fold (map nxt l). rewrite elem_of_map. intros (y & Hy & Hin).
  apply nxt_inj in Hy as ->; [done|apply Ho; by left|apply Ho; by right].
Qed.
Lemma nodup_cells k l : (∀ x, x ∈ l → ok x) → NoDup l → NoDup (cells nxt (head k) l).
Proof.
  intros Ho Hn. apply NoDup_cons. split; [|by apply nodup_nxt]. rewrite elem_of_map.
  intros (y & Hy & Hin). by apply head_nxt in Hy; [|apply Ho].
Qed.

Lemma fam_cells_disj h ch k k' c : family h ch → here k → here k' → k ≠ k' →
  c ∈ cells nxt (head k) (ch k) → c ∉ cells nxt (head k') (ch k').
Proof.
  intros F Hk Hk' Hne. rewrite !in_cells. intros [-> | (x & Hx & ->)] [Hc|(y & Hy & Hc)].
  - by apply head_inj in Hc.
  - by apply head_nxt in Hc; [|apply (fam_ok h ch F k')].
  - symmetry in Hc. by apply head_nxt in Hc; [|apply (fam_ok h ch F k)].
  - apply nxt_inj in Hc as ->; [|by apply (fam_ok h ch F k)|by apply (fam_ok h ch F k')]. by apply Hne, (fam_disj h ch F _ _ y).
Qed.

(** The memory changed outside the lists. *)
Lemma fam_frame h h' ch : (∀ k c, here k → c ∈ cells nxt (head k) (ch k) → h' !! c = h !! c) →
  family h ch → family h' ch.
Proof.
  intros Hc []. split; [|done..]. intros k Hk. apply (seg_frame nxt h); eauto.
Qed.

(** One list replaced. *)
Lemma fam_replace h h' ch k l : here k → family h ch →
  (∀ k' c, here k' → k' ≠ k → c ∈ cells nxt (head k') (ch k') → h' !! c = h !! c) →
  seg h' nxt (head k) l (z k) → NoDup l → (∀ x, x ∈ l → ok x) →
  (∀ k' x, here k' → k' ≠ k → x ∈ l → x ∉ ch k') →
  family h' (upd k l ch).
Proof.
  intros Hk F Hc Hs Hn Ho Hd. split.
  - intros k' Hk'. destruct (decide (k' = k)) as [->|Hne]; [by rewrite upd_eq|].
    rewrite upd_ne by done. apply (seg_frame nxt h); [eauto|]. by apply (fam_seg h ch F).
  - intros k' Hk'. destruct (decide (k' = k)) as [->|Hne]; [by rewrite upd_eq|].
    rewrite upd_ne by done. by apply (fam_nodup h ch F).
  - intros k1 k2 x H1 H2. unfold upd. destruct (decide (k1 = k)) as [->|N1], (decide (k2 = k)) as [->|N2];
      intros Hx1 Hx2; [done|by apply Hd in Hx2|by apply Hd in Hx1|by apply (fam_disj h ch F _ _ x)].
  - intros k' x Hk'. unfold upd. destruct (decide (k' = k)) as [->|Hne]; [apply Ho|by apply (fam_ok h ch F)].
Qed.

(** Insertion at the head: [x->next = *head; *head = x]. *)
Lemma fam_push h ch k x : here k → ok x → (∀ k', here k' → x ∉ ch k') → family h ch →
  family (store (head k) (Some x) (store (nxt x) (h !! head k) h)) (upd k (x :: ch k) ch).
Proof.
  intros Hk Hx Hnew F.
  assert (∀ k' y, here k' → y ∈ ch k' → nxt x ≠ nxt y) as Hxy.
  { intros k' y Hk' Hy E. apply nxt_inj in E as ->; [|done|by apply (fam_ok h ch F k')]. by apply (Hnew k'). }
  assert (∀ k' y, here k' → y ∈ ch k' → head k ≠ nxt y) as Hhy.
  { intros k' y Hk' Hy. apply head_nxt. by apply (fam_ok h ch F k'). }
  apply (fam_replace h); [done|done|..].
  - intros k' c Hk' Hne Hc. apply in_cells in Hc as [-> | (y & Hy & ->)].
    + rewrite !store_ne; [done|intros E; symmetry in E; by apply head_nxt in E|intros E; apply head_inj in E; by subst].
    + rewrite !store_ne; [done|by apply (Hxy k')|by apply (Hhy k')].
  - cbn [seg]. split; [apply store_eq|].
    pose proof (fam_seg h ch F k Hk) as Hs. pose proof (nodup_cells k _ (λ y, fam_ok h ch F k y Hk) (fam_nodup h ch F k Hk)) as Hn.
    destruct (ch k) as [|y l] eqn:E; cbn [seg] in *.
    + rewrite store_ne, store_eq by (by apply head_nxt). done.
    + destruct Hs as [Hy Hs]. rewrite store_ne, store_eq by (by apply head_nxt). split; [done|].
      apply (seg_frame nxt h); [|done]. intros c Hc. apply NoDup_cons in Hn as [Hn _].
      assert (∃ y', y' ∈ ch k ∧ c = nxt y') as (y' & Hy' & ->).
      { rewrite E. apply elem_of_cons in Hc as [-> | (y' & -> & Hin)%elem_of_map];
          [exists y; split; [by left|done]|exists y'; split; [by right|done]]. }
      rewrite !store_ne; [done|by apply (Hxy k)|by apply (Hhy k)].
  - apply NoDup_cons. split; [by apply Hnew|by apply (fam_nodup h ch F)].
  - intros y [-> | Hy]%elem_of_cons; [done|by apply (fam_ok h ch F k)].
  - intros k' y Hk' Hne [-> | Hy]%elem_of_cons Hin; [by apply (Hnew k')|].
    by apply Hne, (fam_disj h ch F _ _ y).
Qed.

(** Removal: the pointer to [x] becomes [x]'s next pointer. *)
Lemma fam_remove h ch k l1 x l2 : here k → ch k = l1 ++ x :: l2 → family h ch →
  family (store (last_cell nxt (head k) l1) (h !! nxt x) h) (upd k (l1 ++ l2) ch).
Proof.
  intros Hk E F. pose proof (fam_seg h ch F k Hk) as Hs. rewrite E in Hs.
  apply seg_app in Hs as [Hs1 Hs2].
  pose proof (fam_nodup h ch F k Hk) as Hn. rewrite E in Hn.
  assert (∀ y, y ∈ l1 ++ x :: l2 → ok y) as Ho by (intros y Hy; apply (fam_ok h ch F k); [done|by rewrite E]).
  assert (∀ y, y ∈ l1 ++ l2 → y ∈ l1 ++ x :: l2) as Hsub by (intros y; rewrite !elem_of_app, elem_of_cons; tauto).
  apply NoDup_app in Hn as (Hn1 & Hn12 & [Hxn Hn2]%NoDup_cons).
  apply (fam_replace h); [done|done|..].
  - intros k' c Hk' Hne Hc. apply store_ne. intros <-.
    apply (fam_cells_disj h ch k' k _ F Hk' Hk Hne) in Hc as Hc'. apply Hc'.
    apply in_cells. pose proof (last_cell_in nxt (head k) l1) as Hl. apply in_cells in Hl as [-> | (y & Hy & ->)];
      [by left|right]. exists y. split; [|done]. rewrite E. apply elem_of_app. by left.
  - assert (seg (store (last_cell nxt (head k) l1) (h !! nxt x) h) nxt (head k) l1 (h !! nxt x)) as Hl1.
    { eapply seg_store_last; [|exact Hs1]. apply nodup_cells; [|done]. intros y Hy. apply Ho, elem_of_app. by left. }
    destruct l2 as [|y l2]; cbn [seg] in Hs2; [by rewrite app_nil_r, <- Hs2|].
    destruct Hs2 as [Hy Hs2]. rewrite Hy in Hl1. rewrite Hy. apply seg_app. split; [done|].
    apply (seg_frame nxt h); [|done]. intros c Hc. apply store_ne. intros <-.
    assert (∃ y', y' ∈ y :: l2 ∧ last_cell nxt (head k) l1 = nxt y') as (y' & Hy' & Ey).
    { apply elem_of_cons in Hc as [-> | (y' & -> & Hin)%elem_of_map];
        [exists y; split; [by left|done]|exists y'; split; [by right|done]]. }
    pose proof (last_cell_in nxt (head k) l1) as Hl. apply in_cells in Hl as [Hl|(w & Hw & Hl)]; rewrite Hl in Ey.
    + apply head_nxt in Ey; [done|]. apply Ho, elem_of_app. right. by right.
    + apply nxt_inj in Ey as ->; [|apply Ho, elem_of_app; by left|apply Ho, elem_of_app; right; by right].
      apply (Hn12 y'); [done|by right].
  - apply NoDup_app. split; [done|]. split; [|done]. intros y Hy Hy2. apply (Hn12 y Hy). by right.
  - intros y Hy. by apply Ho, Hsub.
  - intros k' y Hk' Hne Hy Hin. apply Hne. apply (fam_disj h ch F _ _ y); [done..|]. rewrite E. by apply Hsub.
Qed.

(** The search for the pointer to [x] finds the cell that [fam_remove]
    changes. *)
Lemma fam_find h ch k l1 x l2 found : here k → ch k = l1 ++ x :: l2 → family h ch →
  found x = true → (∀ y, y ∈ l1 → found y = false) →
  find_cell (S (size h)) nxt found (head k) h = Ok (last_cell nxt (head k) l1).
Proof.
  intros Hk E F Hx Hl. pose proof (fam_seg h ch F k Hk) as Hs. rewrite E in Hs.
  apply seg_app in Hs as [Hs1 _]. pose proof (fam_nodup h ch F k Hk) as Hn. rewrite E in Hn.
  apply NoDup_app in Hn as (Hn1 & _).
  apply (find_cell_seg nxt h _ _ _ _ x); [done..|]. eapply seg_length; [|done].
  apply nodup_cells; [|done]. intros y Hy. apply (fam_ok h ch F k); [done|]. rewrite E. apply elem_of_app. by left.
Qed.

(** The same search in a circular list, from [x] around to itself. *)
Lemma fam_find_round h ch k l1 x l2 last found : here k → ch k = l1 ++ x :: l2 → family h ch →
  z k = Some last → nxt last = head k →
  found x = true → (∀ y, y ∈ last :: ch k → y ≠ x → found y = false) → last ∉ ch k →
  find_cell (S (size h)) nxt found (nxt x) h = Ok (last_cell nxt (head k) l1).
Proof.
  intros Hk E F Hz Hlast Hx Hl Hnl. pose proof (fam_seg h ch F k Hk) as Hs. rewrite E, Hz in Hs.
  apply seg_app in Hs as [Hs1 Hs2].
  pose proof (fam_nodup h ch F k Hk) as Hn.
  pose proof (nodup_cells k _ (λ y, fam_ok h ch F k y Hk) Hn) as Hc.
  assert (seg h nxt (nxt x) (l2 ++ last :: l1) (Some x)) as Hs by (apply seg_app; by rewrite Hlast).
  rewrite <- Hlast, <- last_cell_app with (a := nxt x) (l := l2).
  apply (find_cell_seg nxt h _ _ _ _ x); [done| |done|].
  - assert (x ∉ l1 ++ l2) as Hnx.
    { rewrite E in Hn. apply NoDup_app in Hn as (_ & H12 & [? _]%NoDup_cons).
      rewrite elem_of_app. intros [Hi|Hi]; [|done]. apply (H12 x Hi). by left. }
    intros y Hy. apply Hl.
    + rewrite E. rewrite elem_of_app, elem_of_cons in Hy. rewrite elem_of_cons, elem_of_app, elem_of_cons. tauto.
    + intros ->. rewrite elem_of_app, elem_of_cons in Hy. rewrite elem_of_app in Hnx.
      destruct Hy as [?|[-> |?]]; [tauto| |tauto]. apply Hnl. rewrite E. apply elem_of_app. right. by left.
  - eapply seg_length; [|done]. unfold cells in *. rewrite E in Hc.
    rewrite map_app in Hc |- *. cbn [map] in *. rewrite Hlast.
    revert Hc. apply NoDup_Permutation_proper.
    change (head k :: map nxt l1 ++ nxt x :: map nxt l2) with ((head k :: map nxt l1) ++ (nxt x :: map nxt l2)).
    change (nxt x :: map nxt l2 ++ head k :: map nxt l1) with ((nxt x :: map nxt l2) ++ (head k :: map nxt l1)).
    apply Permutation_app_comm.
Qed.
End family.
Arguments fam_seg {K head nxt z ok here h ch} _ k _.
Arguments fam_nodup {K head nxt z ok here h ch} _ k _.
Arguments fam_disj {K head nxt z ok here h ch} _ k k' x _ _ _ _.
Arguments fam_ok {K head nxt z ok here h ch} _ k x _ _.
