(* ===== verification/TransBlocks.v ===== *)
(** * Translated blocks ([exec.c], [exec-all.h], [cpu-exec.c])

    The table of translated blocks and the lists that run through it: by
    physical hash, by guest page, and by chained jump; linking, lookup,
    invalidation when code is modified, chaining, and flushing.  What the code
    generator makes of a block, and the translation of a code address by the
    software TLB, are parameters. *)
From S2P Require Import Prelude SoftTlb PhysMem TbLists.

Definition CODE_GEN_ALIGN : Z := 16.
Definition CODE_GEN_PHYS_HASH_SIZE : Z := 1 << 15.
Definition SMC_BITMAP_USE_THRESHOLD : Z := 10.

Record TranslationBlock := mkTB {
  tb_pc : Z; tb_cs_base : Z; tb_flags : Z; tb_size : Z; tb_cflags : Z;
  tc_ptr : Z;
  page_addr0 : Z; page_addr1 : Z;                (** [page_addr[2]] *)
  tb_next_offset0 : Z; tb_next_offset1 : Z       (** [tb_next_offset[2]] *)
}.
Definition page_addr (n : Z) (t : TranslationBlock) : Z :=
  if n =? 0 then page_addr0 t else page_addr1 t.
Definition set_page_addr (n a : Z) (t : TranslationBlock) : TranslationBlock :=
  mkTB (tb_pc t) (tb_cs_base t) (tb_flags t) (tb_size t) (tb_cflags t) (tc_ptr t)
    (if n =? 0 then a else page_addr0 t) (if n =? 0 then page_addr1 t else a)
    (tb_next_offset0 t) (tb_next_offset1 t).
Definition tb_next_offset (n : Z) (t : TranslationBlock) : Z :=
  if n =? 0 then tb_next_offset0 t else tb_next_offset1 t.

(** The fields of a page descriptor other than the list head. *)
Record PageDesc := mkPageDesc { code_write_count : Z; code_bitmap : option (list Z) }.

Record tb_state := mkTbState {
  tbs : gmap Z TranslationBlock;
  nb_tbs : Z; code_gen_max_blocks : Z;
  code_gen_buffer : Z; code_gen_ptr : Z; code_gen_buffer_size : Z; code_gen_buffer_max_size : Z;
  links : heap;                          (** every pointer field *)
  l1_map : gset Z;                       (** the second-level tables that exist *)
  page_descs : gmap Z PageDesc;
  jmp_target : gmap tagged Z;            (** where jump [n] of a block goes *)
  tb_invalidated_flag : Z; tb_flush_count : Z; tb_phys_invalidate_count : Z;
  cpu_single_env : bool;                 (** not null: inside [cpu_exec] *)
  request : Z;                           (** [env->interrupt_request] *)
  stlb : soft_tlb; guest_ram : machine
}.
Definition eta_tb_state (s : tb_state) : tb_state :=
  mkTbState (tbs s) (nb_tbs s) (code_gen_max_blocks s) (code_gen_buffer s) (code_gen_ptr s)
    (code_gen_buffer_size s) (code_gen_buffer_max_size s) (links s) (l1_map s) (page_descs s)
    (jmp_target s) (tb_invalidated_flag s) (tb_flush_count s) (tb_phys_invalidate_count s)
    (cpu_single_env s) (request s) (stlb s) (guest_ram s).
#[export] Instance set_tbs : Setter tbs := ltac:(derive_setter eta_tb_state tbs).
#[export] Instance set_nb_tbs : Setter nb_tbs := ltac:(derive_setter eta_tb_state nb_tbs).
#[export] Instance set_code_gen_ptr : Setter code_gen_ptr := ltac:(derive_setter eta_tb_state code_gen_ptr).
#[export] Instance set_links : Setter links := ltac:(derive_setter eta_tb_state links).
#[export] Instance set_l1_map : Setter l1_map := ltac:(derive_setter eta_tb_state l1_map).
#[export] Instance set_page_descs : Setter page_descs := ltac:(derive_setter eta_tb_state page_descs).
#[export] Instance set_jmp_target : Setter jmp_target := ltac:(derive_setter eta_tb_state jmp_target).
#[export] Instance set_tb_invalidated_flag : Setter tb_invalidated_flag := ltac:(derive_setter eta_tb_state tb_invalidated_flag).
#[export] Instance set_tb_flush_count : Setter tb_flush_count := ltac:(derive_setter eta_tb_state tb_flush_count).
#[export] Instance set_tb_phys_invalidate_count : Setter tb_phys_invalidate_count := ltac:(derive_setter eta_tb_state tb_phys_invalidate_count).
#[export] Instance set_request : Setter request := ltac:(derive_setter eta_tb_state request).
#[export] Instance set_stlb : Setter stlb := ltac:(derive_setter eta_tb_state stlb).
#[export] Instance set_guest_ram : Setter guest_ram := ltac:(derive_setter eta_tb_state guest_ram).
Implicit Types s : tb_state.

(** A block as the jump cache and [current_tb] point to it; 0 is NULL. *)
Definition tb_ptr (tb : Z) : Z := tb + 1.

Definition get_tb (tb : Z) s : res TranslationBlock := from_option_res OutOfBounds (tbs s !! tb).
(** [*l = p] *)
Definition set_link (l : loc) (p : ptr) s : tb_state := s <| links := store l p (links s) |>.
Definition fuel_of s : nat := S (size (links s)).

(** ** Pages *)
Definition page_found (index : Z) s : bool := bool_decide ((index >> L2_BITS) ∈ l1_map s).
Definition page_desc (p : Z) s : PageDesc := default (mkPageDesc 0 None) (page_descs s !! p).
Definition set_page_desc (p : Z) (d : PageDesc) s : tb_state :=
  s <| page_descs := <[p := d]> (page_descs s) |>.
(** [page_find_alloc]: a table allocated is zeroed. *)
Definition page_find_alloc (index : Z) s : tb_state :=
  s <| l1_map := {[index >> L2_BITS]} ∪ l1_map s |>.
Definition invalidate_page_bitmap (p : Z) s : tb_state := set_page_desc p (mkPageDesc 0 None) s.

(** ** Write protection of pages with code *)

(** [p[i] &= mask] for [n] pages. *)
Fixpoint mask_dirty (n : nat) (i mask : Z) (ds : list Z) : res (list Z) :=
  match n with
  | O => Ok ds
  | S n => d ← aget ds i; ds ← aput ds i (d .& mask); mask_dirty n (i + 1) mask ds
  end.
Definition cpu_physical_memory_mask_dirty_range (start length dirty_flags : Z) (m : machine) : res machine :=
  ds ← mask_dirty (Z.to_nat (length >> TARGET_PAGE_BITS)) (start >> TARGET_PAGE_BITS)
         (Z.lnot dirty_flags) (phys_dirty m);
  Ok (m <| phys_dirty := ds |>).

Definition TARGET_PAGE_ALIGN (a : Z) : Z := page_of (u64 (a + TARGET_PAGE_SIZE - 1)).
Definition cpu_physical_memory_reset_dirty (start stop dirty_flags : Z) (t : soft_tlb) (m : machine)
    : res (soft_tlb * machine) :=
  let start := page_of start in
  let stop := TARGET_PAGE_ALIGN stop in
  let length := u64 (stop - start) in
  if length =? 0 then Ok (t, m)
  else
    m ← cpu_physical_memory_mask_dirty_range start length dirty_flags m;
    start1 ← qemu_safe_ram_ptr start m;
    last ← qemu_safe_ram_ptr (stop - 1) m;
    if negb (u64 (last - start1) =? (stop - 1) - start) then Err (Aborted "abort")
    else Ok (t <| tlb_table := map (map (tlb_reset_dirty_range start1 length)) (tlb_table t) |>, m).

Definition tlb_protect_code (ram_addr : Z) s : res tb_state :=
  '(t, m) ← cpu_physical_memory_reset_dirty ram_addr (ram_addr + TARGET_PAGE_SIZE) CODE_DIRTY_FLAG
              (stlb s) (guest_ram s);
  Ok (s <| stlb := t |> <| guest_ram := m |>).
Definition tlb_unprotect_code_phys (ram_addr : Z) s : res tb_state :=
  m ← cpu_physical_memory_set_dirty_flags ram_addr CODE_DIRTY_FLAG (guest_ram s);
  Ok (s <| guest_ram := m |>).

(** ** Removing a block from a list *)
Definition hash_next (x : tagged) : loc := LHashNext x.1.
Definition page_next (x : tagged) : loc := LPageNext x.1 x.2.
Definition jmp_next (x : tagged) : loc := LJmpNext x.1 x.2.
(** The circular list of jumps also passes through [jmp_first]. *)
Definition jmp_step (x : tagged) : loc := if x.2 =? 2 then LJmpFirst x.1 else LJmpNext x.1 x.2.

Definition tb_remove (ptb : loc) (tb : Z) s : res tb_state :=
  c ← find_cell (fuel_of s) hash_next (λ x, x.1 =? tb) ptb (links s);
  Ok (set_link c (links s !! LHashNext tb) s).
Definition tb_page_remove (ptb : loc) (tb : Z) s : res tb_state :=
  c ← find_cell (fuel_of s) page_next (λ x, x.1 =? tb) ptb (links s);
  x ← from_option_res NullPointer (links s !! c);
  Ok (set_link c (links s !! page_next x) s).
Definition tb_jmp_remove (tb n : Z) s : res tb_state :=
  match links s !! LJmpNext tb n with
  | None => Ok s
  | Some _ =>
      c ← find_cell (fuel_of s) jmp_step (λ x, (x.2 =? n) && (x.1 =? tb)) (LJmpNext tb n) (links s);
      let s := set_link c (links s !! LJmpNext tb n) s in
      Ok (set_link (LJmpNext tb n) None s)
  end.

(** ** Jumps *)
Definition tb_set_jmp_target (tb n addr : Z) s : tb_state :=
  s <| jmp_target := <[(tb, n) := addr]> (jmp_target s) |>.
Definition tb_reset_jump (tb n : Z) s : res tb_state :=
  t ← get_tb tb s; Ok (tb_set_jmp_target tb n (tc_ptr t + tb_next_offset n t) s).

Definition tb_add_jump (tb n tb_next : Z) s : res tb_state :=
  match links s !! LJmpNext tb n with
  | Some _ => Ok s
  | None =>
      t ← get_tb tb_next s;
      let s := tb_set_jmp_target tb n (tc_ptr t) s in
      let s := set_link (LJmpNext tb n) (links s !! LJmpFirst tb_next) s in
      Ok (set_link (LJmpFirst tb_next) (Some (tb, n)) s)
  end.

(** The loop over the jumps to a block. *)
Fixpoint drop_jumps (fuel : nat) (tb1 : ptr) s : res tb_state :=
  match fuel with
  | O => Err Diverges
  | S fuel =>
      match tb1 with
      | None => Err NullPointer
      | Some (tb1, n1) =>
          if n1 =? 2 then Ok s
          else
            let tb2 := links s !! LJmpNext tb1 n1 in
            s ← tb_reset_jump tb1 n1 s;
            drop_jumps fuel tb2 (set_link (LJmpNext tb1 n1) None s)
      end
  end.

(** ** Invalidation *)
Definition tb_phys_hash_func (pc : Z) : Z := (pc >> 2) .& (CODE_GEN_PHYS_HASH_SIZE - 1).
(** The physical address a block starts at. *)
Definition tb_phys_pc (t : TranslationBlock) : Z := u32 (page_addr0 t + page_flags (tb_pc t)).

(** [p = page_find(...); tb_page_remove(&p->first_tb, tb); invalidate_page_bitmap(p);] *)
Definition remove_from_page (tb addr : Z) s : res tb_state :=
  let p := addr >> TARGET_PAGE_BITS in
  if page_found p s then
    s ← tb_page_remove (LPage p) tb s; Ok (invalidate_page_bitmap p s)
  else Err NullPointer.

(** [if (env->tb_jmp_cache[h] == tb) env->tb_jmp_cache[h] = NULL;] *)
Definition clear_jmp_cache (tb pc : Z) s : res tb_state :=
  let h := tb_jmp_cache_hash_func pc in
  v ← aget (tb_jmp_cache (stlb s)) h;
  if v =? tb_ptr tb then
    l ← aput (tb_jmp_cache (stlb s)) h 0; Ok (s <| stlb := (stlb s) <| tb_jmp_cache := l |> |>)
  else Ok s.

(** [remove the TB from the page list] *)
Definition leave_pages (tb addr : Z) (t : TranslationBlock) s : res tb_state :=
  s ← (if page_addr0 t =? addr then Ok s else remove_from_page tb (page_addr0 t) s);
  if (page_addr1 t =? no_addr) || (page_addr1 t =? addr) then Ok s
  else remove_from_page tb (page_addr1 t) s.

Definition tb_phys_invalidate (tb addr : Z) s : res tb_state :=
  t ← get_tb tb s;
  s ← tb_remove (LHash (tb_phys_hash_func (tb_phys_pc t))) tb s;
  s ← leave_pages tb addr t s;
  let s := s <| tb_invalidated_flag := 1 |> in
  s ← clear_jmp_cache tb (tb_pc t) s;
  s ← tb_jmp_remove tb 0 s;
  s ← tb_jmp_remove tb 1 s;
  s ← drop_jumps (fuel_of s) (links s !! LJmpFirst tb) s;
  let s := set_link (LJmpFirst tb) (Some (tb, 2)) s in
  Ok (s <| tb_phys_invalidate_count := tb_phys_invalidate_count s + 1 |>).

(** ** Unchaining a running block *)

(** [find head of list]: the block that the jump goes to. *)
Fixpoint find_head (fuel : nat) (tb1 : ptr) s : res Z :=
  match fuel with
  | O => Err Diverges
  | S fuel =>
      match tb1 with
      | None => Err NullPointer
      | Some (tb1, n1) => if n1 =? 2 then Ok tb1 else find_head fuel (links s !! LJmpNext tb1 n1) s
      end
  end.

Definition tb_reset_jump_recursive2 (rec : Z → tb_state → res tb_state) (tb n : Z) s : res tb_state :=
  match links s !! LJmpNext tb n with
  | None => Ok s
  | Some tb1 =>
      tb_next ← find_head (fuel_of s) (Some tb1) s;
      c ← find_cell (fuel_of s) jmp_next (λ x, (x.2 =? n) && (x.1 =? tb)) (LJmpFirst tb_next) (links s);
      let s := set_link c (links s !! LJmpNext tb n) s in
      let s := set_link (LJmpNext tb n) None s in
      s ← tb_reset_jump tb n s;
      rec tb_next s
  end.
Fixpoint tb_reset_jump_recursive (fuel : nat) (tb : Z) s : res tb_state :=
  match fuel with
  | O => Err Diverges
  | S fuel =>
      s ← tb_reset_jump_recursive2 (tb_reset_jump_recursive fuel) tb 0 s;
      tb_reset_jump_recursive2 (tb_reset_jump_recursive fuel) tb 1 s
  end.

(** The running block and all that it may jump to are unlinked. *)
Definition cpu_unlink_tb s : res tb_state :=
  let tb := current_tb (stlb s) in
  if truth tb then
    let s := s <| stlb := (stlb s) <| current_tb := 0 |> |> in
    tb_reset_jump_recursive (fuel_of s) (tb - 1) s
  else Ok s.
(** [cpu_interrupt] in the thread of the CPU, without instruction counting. *)
Definition cpu_interrupt_tb (mask : Z) s : res tb_state :=
  cpu_unlink_tb (s <| request := request s .| mask |>).

(** ** Code that is modified *)

(** Bytes of the bitmap. *)
Definition or_byte (i mask : Z) (tab : list Z) : res (list Z) :=
  b ← aget tab i; aput tab i (u8 (b .| mask)).
Fixpoint fill_bytes (n : nat) (i : Z) (tab : list Z) : res (list Z) :=
  match n with
  | O => Ok tab
  | S n => tab ← aput tab i 0xff; fill_bytes n (i + 1) tab
  end.
Definition set_bits (tab : list Z) (start len : Z) : res (list Z) :=
  let stop := start + len in
  let i := start >> 3 in
  let mask := 0xff << (start .& 7) in
  if (start .& Z.lnot 7) =? (stop .& Z.lnot 7) then
    if start <? stop then or_byte i (mask .& Z.lnot (0xff << (stop .& 7))) tab else Ok tab
  else
    tab ← or_byte i mask tab;
    let start := (start + 8) .& Z.lnot 7 in
    let stop1 := stop .& Z.lnot 7 in
    let full := (stop1 - start) / 8 in
    tab ← fill_bytes (Z.to_nat full) (i + 1) tab;
    if Z.max start stop1 <? stop
    then or_byte (i + 1 + Z.max 0 full) (Z.lnot (0xff << (stop .& 7))) tab else Ok tab.

(** The part of its page [n] that a block covers, as offsets in the page. *)
Definition tb_range (n : Z) (t : TranslationBlock) : Z * Z :=
  if n =? 0 then (page_flags (tb_pc t), page_flags (tb_pc t) + tb_size t)
  else (0, page_flags (tb_pc t + tb_size t)).

Fixpoint bitmap_loop (fuel : nat) (tb : ptr) (bits : list Z) s : res (list Z) :=
  match fuel with
  | O => Err Diverges
  | S fuel =>
      match tb with
      | None => Ok bits
      | Some x =>
          t ← get_tb x.1 s;
          let '(tb_start, tb_end) := tb_range x.2 t in
          let tb_end := if tb_end >? TARGET_PAGE_SIZE then TARGET_PAGE_SIZE else tb_end in
          bits ← set_bits bits tb_start (tb_end - tb_start);
          bitmap_loop fuel (links s !! page_next x) bits s
      end
  end.
Definition build_page_bitmap (p : Z) s : res tb_state :=
  bits ← bitmap_loop (fuel_of s) (links s !! LPage p) (replicate (Z.to_nat (TARGET_PAGE_SIZE / 8)) 0) s;
  Ok (set_page_desc p (mkPageDesc (code_write_count (page_desc p s)) (Some bits)) s).

(** [!(tb_end <= start || tb_start >= end)] for a block on its page [n]; the
    addresses are [target_ulong]s. *)
Definition tb_overlaps (start stop n : Z) (t : TranslationBlock) : bool :=
  let tb_start := u32 (page_addr n t + (tb_range n t).1) in
  let tb_end := u32 (page_addr n t + (tb_range n t).2) in
  negb ((tb_end <=? start) || (tb_start >=? stop)).

(** [cpu_interrupt(env, env->interrupt_request)] after an invalidation, for
    which [current_tb] was set aside. *)
Definition check_interrupt s : res tb_state :=
  if cpu_single_env s && truth (request s) && truth (current_tb (stlb s))
  then cpu_interrupt_tb (request s) s else Ok s.

Fixpoint invalidate_loop (fuel : nat) (tb : ptr) (start stop : Z) s : res tb_state :=
  match fuel with
  | O => Err Diverges
  | S fuel =>
      match tb with
      | None => Ok s
      | Some x =>
          t ← get_tb x.1 s;
          let tb_next := links s !! page_next x in
          s ← (if tb_overlaps start stop x.2 t then
                 s ← tb_phys_invalidate x.1 no_addr s; check_interrupt s
               else Ok s);
          invalidate_loop fuel tb_next start stop s
      end
  end.

(** The write count and, after enough writes, the bitmap. *)
Definition count_write (p : Z) (is_cpu_write_access : bool) s : res tb_state :=
  let d := page_desc p s in
  match code_bitmap d with
  | Some _ => Ok s
  | None =>
      let n := u32 (code_write_count d + 1) in
      let s := set_page_desc p (mkPageDesc n None) s in
      if (SMC_BITMAP_USE_THRESHOLD <=? n) && is_cpu_write_access then build_page_bitmap p s else Ok s
  end.

Definition tb_invalidate_phys_page_range (start stop : Z) (is_cpu_write_access : bool) s : res tb_state :=
  let p := start >> TARGET_PAGE_BITS in
  if page_found p s then
    s ← count_write p is_cpu_write_access s;
    s ← invalidate_loop (fuel_of s) (links s !! LPage p) start stop s;
    match links s !! LPage p with
    | Some _ => Ok s
    | None =>
        let s := invalidate_page_bitmap p s in
        if is_cpu_write_access then
          if cpu_single_env s then tlb_unprotect_code_phys start s else Err NullPointer
        else Ok s
    end
  else Ok s.

(** A store of [len] bytes to a page with code. *)
Definition tb_invalidate_phys_page_fast (start len : Z) s : res tb_state :=
  let p := start >> TARGET_PAGE_BITS in
  if page_found p s then
    match code_bitmap (page_desc p s) with
    | Some bits =>
        let offset := page_flags start in
        b ← aget bits (offset >> 3);
        if truth ((b >> (offset .& 7)) .& ((1 << len) - 1))
        then tb_invalidate_phys_page_range start (start + len) true s else Ok s
    | None => tb_invalidate_phys_page_range start (start + len) true s
    end
  else Ok s.

(** ** Linking a new block *)
Definition update_tb (tb : Z) (f : TranslationBlock → TranslationBlock) s : res tb_state :=
  t ← get_tb tb s; Ok (s <| tbs := <[tb := f t]> (tbs s) |>).

Definition tb_alloc_page (tb n addr : Z) s : res tb_state :=
  s ← update_tb tb (set_page_addr n addr) s;
  let p := addr >> TARGET_PAGE_BITS in
  let s := page_find_alloc p s in
  let last_first_tb := links s !! LPage p in
  let s := set_link (LPageNext tb n) last_first_tb s in
  let s := set_link (LPage p) (Some (tb, n)) s in
  let s := invalidate_page_bitmap p s in
  match last_first_tb with None => tlb_protect_code addr s | Some _ => Ok s end.

(** [if (tb->tb_next_offset[n] != 0xffff) tb_reset_jump(tb, n);] *)
Definition init_jump (tb n : Z) s : res tb_state :=
  t ← get_tb tb s;
  if negb (tb_next_offset n t =? 0xffff) then tb_reset_jump tb n s else Ok s.

Definition tb_link_phys (tb phys_pc phys_page2 : Z) s : res tb_state :=
  let h := tb_phys_hash_func phys_pc in
  let s := set_link (LHashNext tb) (links s !! LHash h) s in
  let s := set_link (LHash h) (Some (tb, 0)) s in
  s ← tb_alloc_page tb 0 (page_of phys_pc) s;
  s ← (if negb (phys_page2 =? no_addr) then tb_alloc_page tb 1 phys_page2 s
       else update_tb tb (set_page_addr 1 no_addr) s);
  let s := set_link (LJmpFirst tb) (Some (tb, 2)) s in
  let s := set_link (LJmpNext tb 0) None s in
  let s := set_link (LJmpNext tb 1) None s in
  s ← init_jump tb 0 s;
  init_jump tb 1 s.

(** [None]: too many blocks or too much code. *)
Definition tb_alloc (pc : Z) s : option Z * tb_state :=
  if (code_gen_max_blocks s <=? nb_tbs s) ||
     (code_gen_buffer_max_size s <=? code_gen_ptr s - code_gen_buffer s)
  then (None, s)
  else
    let tb := nb_tbs s in
    let old := default (mkTB 0 0 0 0 0 0 0 0 0 0) (tbs s !! tb) in
    let t := mkTB pc (tb_cs_base old) (tb_flags old) (tb_size old) 0 (tc_ptr old) (page_addr0 old)
               (page_addr1 old) (tb_next_offset0 old) (tb_next_offset1 old) in
    (Some tb, s <| nb_tbs := nb_tbs s + 1 |> <| tbs := <[tb := t]> (tbs s) |>).
Definition tb_free (tb : Z) s : res tb_state :=
  if (0 <? nb_tbs s) && (tb =? nb_tbs s - 1) then
    t ← get_tb tb s; Ok (s <| code_gen_ptr := tc_ptr t |> <| nb_tbs := nb_tbs s - 1 |>)
  else Ok s.

(** [memset] of the hash table, and the list heads of all pages. *)
Definition is_head (l : loc) : bool := match l with LHash _ | LPage _ => true | _ => false end.
Definition page_flush_tb s : tb_state :=
  s <| links := filter (λ '(l, _), is_head l = false) (links s) |> <| page_descs := ∅ |>.
Definition tb_flush s : res tb_state :=
  if u64 (code_gen_ptr s - code_gen_buffer s) >? code_gen_buffer_size s
  then Err (Aborted "Internal error: code buffer overflow")
  else
    let s := s <| nb_tbs := 0 |> in
    let s := s <| stlb := (stlb s) <| tb_jmp_cache := replicate (Z.to_nat TB_JMP_CACHE_SIZE) 0 |> |> in
    let s := page_flush_tb s in
    Ok (s <| code_gen_ptr := code_gen_buffer s |> <| tb_flush_count := tb_flush_count s + 1 |>).

Section find.
(** The software TLB's translation of a code address, and what the code
    generator makes of a block: its size in the guest, the size of the code and
    the offsets of its jumps. *)
Context (get_phys_addr_code : Z → Z).
Context (cpu_gen_code : Z → Z → Z → Z → Z * Z * Z * Z).

Definition tb_gen_code (pc cs_base flags cflags : Z) s : res (Z * tb_state) :=
  let phys_pc := get_phys_addr_code pc in
  '(tb, s) ← (match tb_alloc pc s with
              | (Some tb, s) => Ok (tb, s)
              | (None, s) =>
                  s ← tb_flush s;
                  match tb_alloc pc s with
                  | (Some tb, s) => Ok (tb, s <| tb_invalidated_flag := 1 |>)
                  | (None, _) => Err NullPointer
                  end
              end);
  let '(size, code_gen_size, off0, off1) := cpu_gen_code pc cs_base flags cflags in
  s ← update_tb tb (λ t, mkTB (tb_pc t) cs_base flags size cflags (code_gen_ptr s)
                          (page_addr0 t) (page_addr1 t) off0 off1) s;
  let s := s <| code_gen_ptr :=
    u64 (code_gen_ptr s + code_gen_size + CODE_GEN_ALIGN - 1) .& Z.lnot (CODE_GEN_ALIGN - 1) |> in
  let virt_page2 := page_of (u32 (pc + size - 1)) in
  let phys_page2 := if page_of pc =? virt_page2 then no_addr else get_phys_addr_code virt_page2 in
  s ← tb_link_phys tb phys_pc phys_page2 s;
  Ok (tb, s).

(** ** Lookup *)
Definition tb_matches (pc cs_base flags : Z) (t : TranslationBlock) : bool :=
  (tb_pc t =? pc) && (page_addr0 t =? page_of (get_phys_addr_code pc)) &&
  (tb_cs_base t =? cs_base) && (tb_flags t =? flags) &&
  (if negb (page_addr1 t =? no_addr)
   then page_addr1 t =? get_phys_addr_code (u32 (page_of pc + TARGET_PAGE_SIZE)) else true).

(** The pointer [ptb1] where the search ends and the block found. *)
Fixpoint hash_search (fuel : nat) (pc cs_base flags : Z) (l : loc) s : res (loc * option Z) :=
  match fuel with
  | O => Err Diverges
  | S fuel =>
      match links s !! l with
      | None => Ok (l, None)
      | Some x =>
          t ← get_tb x.1 s;
          if tb_matches pc cs_base flags t then Ok (l, Some x.1)
          else hash_search fuel pc cs_base flags (hash_next x) s
      end
  end.

(** The block found moves to the head of its list. *)
Definition move_to_head (ptb1 : loc) (tb h : Z) s : tb_state :=
  match links s !! ptb1 with
  | Some _ =>
      let s := set_link ptb1 (links s !! LHashNext tb) s in
      let s := set_link (LHashNext tb) (links s !! LHash h) s in
      set_link (LHash h) (Some (tb, 0)) s
  | None => s
  end.

Definition tb_find_slow (pc cs_base flags : Z) s : res (Z * tb_state) :=
  let s := s <| tb_invalidated_flag := 0 |> in
  let h := tb_phys_hash_func (get_phys_addr_code pc) in
  '(ptb1, found) ← hash_search (fuel_of s) pc cs_base flags (LHash h) s;
  '(tb, s) ← (match found with
              | Some tb => Ok (tb, s)
              | None => tb_gen_code pc cs_base flags 0 s
              end);
  let s := move_to_head ptb1 tb h s in
  l ← aput (tb_jmp_cache (stlb s)) (tb_jmp_cache_hash_func pc) (tb_ptr tb);
  Ok (tb, s <| stlb := (stlb s) <| tb_jmp_cache := l |> |>).

(** [pc], [cs_base] and [flags]: what [cpu_get_tb_cpu_state] gives. *)
Definition tb_find_fast (pc cs_base flags : Z) s : res (Z * tb_state) :=
  v ← aget (tb_jmp_cache (stlb s)) (tb_jmp_cache_hash_func pc);
  if truth v then
    t ← get_tb (v - 1) s;
    if (tb_pc t =? pc) && (tb_cs_base t =? cs_base) && (tb_flags t =? flags)
    then Ok (v - 1, s) else tb_find_slow pc cs_base flags s
  else tb_find_slow pc cs_base flags s.
End find.

(** ** The block of a host address *)
Fixpoint find_pc_loop (fuel : nat) (tc_ptr' m_min m_max : Z) s : res Z :=
  match fuel with
  | O => Err Diverges
  | S fuel =>
      if m_min <=? m_max then
        let m := (m_min + m_max) >> 1 in
        t ← get_tb m s;
        let v := tc_ptr t in
        if v =? tc_ptr' then Ok m
        else if tc_ptr' <? v then find_pc_loop fuel tc_ptr' m_min (m - 1) s
        else find_pc_loop fuel tc_ptr' (m + 1) m_max s
      else Ok m_max
  end.
Definition tb_find_pc (tc_ptr' : Z) s : res (option Z) :=
  if nb_tbs s <=? 0 then Ok None
  else if (tc_ptr' <? code_gen_buffer s) || (tc_ptr' >=? code_gen_ptr s) then Ok None
  else m ← find_pc_loop (S (Z.to_nat (nb_tbs s))) tc_ptr' 0 (nb_tbs s - 1) s; Ok (Some m).
