(* ===== verification/TransBlocksFacts.v ===== *)
(** * Correctness of the translated-block lists

    The lists against an abstract state: the set of linked blocks and the map of
    chained jumps.  Linking, chaining and invalidating refine the operations on
    that state; an invalidated range leaves no block that covers it. *)
From S2P Require Import Prelude SoftTlb ArmModeFacts PhysMem PhysMemFacts TbLists TransBlocks.

(** ** The lists of each kind *)
Definition tag01 (x : tagged) : Prop := x.2 = 0 ∨ x.2 = 1.

Definition hash_lists : heap → (Z → list tagged) → Prop :=
  family LHash hash_next (λ _, None) (λ x, x.2 = 0) (λ _, True).
Definition page_lists : heap → (Z → list tagged) → Prop :=
  family LPage page_next (λ _, None) tag01 (λ _, True).
Definition jmp_lists (known : gset Z) : heap → (Z → list tagged) → Prop :=
  family LJmpFirst jmp_step (λ u, Some (u, 2)) tag01 (λ u, u ∈ known).

Definition is_hash (l : loc) : Prop := match l with LHash _ | LHashNext _ => True | _ => False end.
Definition is_page (l : loc) : Prop := match l with LPage _ | LPageNext _ _ => True | _ => False end.
Definition is_jmp (l : loc) : Prop := match l with LJmpNext _ _ | LJmpFirst _ => True | _ => False end.

(** Memory that agrees on the cells of one kind. *)
Definition agree (P : loc → Prop) (h h' : heap) : Prop := ∀ l, P l → h' !! l = h !! l.

Lemma agree_refl P h : agree P h h.
Proof. done. Qed.
Lemma agree_trans P h1 h2 h3 : agree P h1 h2 → agree P h2 h3 → agree P h1 h3.
Proof. intros H12 H23 l Hl. by rewrite H23, H12. Qed.
Lemma agree_store P h l p : ¬ P l → agree P h (store l p h).
Proof. intros Hl l' Hl'. apply store_ne. by intros ->. Qed.

Lemma hash_head_inj k k' : LHash k = LHash k' → k = k'.
Proof. congruence. Qed.
Lemma hash_next_inj x y : x.2 = 0 → y.2 = 0 → hash_next x = hash_next y → x = y.
Proof. destruct x, y. unfold hash_next. cbn. congruence. Qed.
Lemma hash_head_next k x : x.2 = 0 → LHash k ≠ hash_next x.
Proof. done. Qed.
Lemma page_head_inj k k' : LPage k = LPage k' → k = k'.
Proof. congruence. Qed.
Lemma page_next_inj x y : tag01 x → tag01 y → page_next x = page_next y → x = y.
Proof. destruct x, y. unfold page_next. cbn. congruence. Qed.
Lemma page_head_next k x : tag01 x → LPage k ≠ page_next x.
Proof. done. Qed.
Lemma jmp_head_inj k k' : LJmpFirst k = LJmpFirst k' → k = k'.
Proof. congruence. Qed.
Lemma jmp_step_tag x : tag01 x → jmp_step x = LJmpNext x.1 x.2.
Proof. unfold jmp_step. by intros [-> | ->]. Qed.
Lemma jmp_step_inj x y : tag01 x → tag01 y → jmp_step x = jmp_step y → x = y.
Proof. intros Hx Hy. rewrite !jmp_step_tag by done. destruct x, y. cbn. congruence. Qed.
Lemma jmp_head_step k x : tag01 x → LJmpFirst k ≠ jmp_step x.
Proof. intros Hx. by rewrite jmp_step_tag. Qed.
Create HintDb tbs.
#[export] Hint Resolve hash_head_inj hash_next_inj hash_head_next page_head_inj page_next_inj
  page_head_next jmp_head_inj jmp_step_inj jmp_head_step agree_refl : tbs.

Lemma hash_frame h h' ch : agree is_hash h h' → hash_lists h ch → hash_lists h' ch.
Proof.
  intros Ha. apply fam_frame. intros k c _ Hc. apply Ha. apply in_cells in Hc as [-> | (x & _ & ->)]; done.
Qed.
Lemma page_frame h h' ch : agree is_page h h' → page_lists h ch → page_lists h' ch.
Proof.
  intros Ha. apply fam_frame. intros k c _ Hc. apply Ha. apply in_cells in Hc as [-> | (x & _ & ->)]; done.
Qed.
Lemma jmp_step_is_jmp x : is_jmp (jmp_step x).
Proof. unfold jmp_step. by destruct (_ =? _). Qed.
Lemma jmp_frame known h h' ch : agree is_jmp h h' → jmp_lists known h ch → jmp_lists known h' ch.
Proof.
  intros Ha. apply fam_frame. intros k c _ Hc. apply Ha.
  apply in_cells in Hc as [-> | (x & _ & ->)]; [done|apply jmp_step_is_jmp].
Qed.

Lemma hash_cell c k l : c ∈ cells hash_next (LHash k) l → is_hash c.
Proof. by intros [-> | (x & _ & ->)]%in_cells. Qed.
Lemma page_cell c k l : c ∈ cells page_next (LPage k) l → is_page c.
Proof. by intros [-> | (x & _ & ->)]%in_cells. Qed.
Lemma jmp_cell c k l : c ∈ cells jmp_step (LJmpFirst k) l → is_jmp c.
Proof. intros [-> | (x & _ & ->)]%in_cells; [done|apply jmp_step_is_jmp]. Qed.

Lemma hash_only c : is_hash c → ¬ is_page c ∧ ¬ is_jmp c.
Proof. destruct c; cbn; tauto. Qed.
Lemma page_only c : is_page c → ¬ is_hash c ∧ ¬ is_jmp c.
Proof. destruct c; cbn; tauto. Qed.
Lemma jmp_only c : is_jmp c → ¬ is_hash c ∧ ¬ is_page c.
Proof. destruct c; cbn; tauto. Qed.

(** A list without one element. *)
Definition without (x : tagged) (l : list tagged) : list tagged := filter (λ y, y ≠ x) l.
Lemma elem_of_without x y l : y ∈ without x l ↔ y ≠ x ∧ y ∈ l.
Proof. unfold without. by rewrite list_elem_of_filter. Qed.
Lemma without_id x l : x ∉ l → without x l = l.
Proof. intros Hx. apply list_filter_id. by intros y Hy ->. Qed.
Lemma without_split x l1 l2 : NoDup (l1 ++ x :: l2) → without x (l1 ++ x :: l2) = l1 ++ l2.
Proof.
  intros (_ & H1 & [H2 _]%NoDup_cons)%NoDup_app. unfold without.
  rewrite filter_app, filter_cons_False by naive_solver. fold (without x l1) (without x l2).
  rewrite !without_id; [done|done|]. intros Hx. apply (H1 x Hx). by left.
Qed.

(** ** Removal from the hash and page lists *)
Lemma tb_remove_ok s hc h tb : hash_lists (links s) hc → (tb, 0) ∈ hc h →
  ∃ L, tb_remove (LHash h) tb s = Ok (s <| links := L |>) ∧
       hash_lists L (upd h (without (tb, 0) (hc h)) hc) ∧
       agree is_page (links s) L ∧ agree is_jmp (links s) L.
Proof.
  intros F Hin. apply list_elem_of_split in Hin as (l1 & l2 & E).
  pose proof (fam_nodup F h I) as Hn. rewrite E in Hn.
  assert (∀ y, y ∈ l1 → (y.1 =? tb) = false) as Hl1.
  { intros y Hy. apply Z.eqb_neq. intros Ey.
    assert (y.2 = 0) as Ey2 by (apply (fam_ok F h); [done|rewrite E; apply elem_of_app; by left]).
    apply NoDup_app in Hn as (_ & H12 & _). apply (H12 y Hy). destruct y; cbn in *; subst. by left. }
  unfold tb_remove, fuel_of.
  rewrite (fam_find LHash hash_next (λ _, None) (λ x, x.2 = 0) (λ _, True) hash_next_inj hash_head_next
    (links s) hc h l1 (tb, 0) l2); [|done|done|done|by cbn; rewrite Z.eqb_refl|done].
  rewrite bind_ret. eexists. split; [reflexivity|]. rewrite E, without_split by done.
  change (LHashNext tb) with (hash_next (tb, 0)). split.
  - by apply (fam_remove LHash hash_next (λ _, None) (λ x, x.2 = 0) (λ _, True)); eauto with tbs.
  - pose proof (hash_cell _ _ _ (last_cell_in hash_next (LHash h) l1)) as Hc.
    split; apply agree_store, (hash_only _ Hc).
Qed.

Lemma tb_page_remove_ok s pc p tb n : page_lists (links s) pc → (tb, n) ∈ pc p →
  (∀ m, (tb, m) ∈ pc p → m = n) →
  ∃ L, tb_page_remove (LPage p) tb s = Ok (s <| links := L |>) ∧
       page_lists L (upd p (without (tb, n) (pc p)) pc) ∧
       agree is_hash (links s) L ∧ agree is_jmp (links s) L.
Proof.
  intros F Hin Huniq. apply list_elem_of_split in Hin as (l1 & l2 & E).
  pose proof (fam_nodup F p I) as Hn. rewrite E in Hn.
  assert (∀ y, y ∈ l1 → (y.1 =? tb) = false) as Hl1.
  { intros [t m] Hy. apply Z.eqb_neq. cbn. intros ->.
    assert (m = n) as -> by (apply Huniq; rewrite E; apply elem_of_app; by left).
    apply NoDup_app in Hn as (_ & H12 & _). apply (H12 _ Hy). by left. }
  unfold tb_page_remove, fuel_of.
  rewrite (fam_find LPage page_next (λ _, None) tag01 (λ _, True) page_next_inj page_head_next
    (links s) pc p l1 (tb, n) l2); [|done|done|done|by cbn; rewrite Z.eqb_refl|done].
  rewrite bind_ret.
  pose proof (fam_seg F p I) as Hs. rewrite E in Hs. apply seg_app in Hs as [Hs _].
  apply seg_last in Hs. rewrite Hs. cbn [from_option_res]. rewrite bind_ret.
  eexists. split; [reflexivity|]. rewrite E, without_split by done. split.
  - by apply (fam_remove LPage page_next (λ _, None) tag01 (λ _, True)); eauto with tbs.
  - pose proof (page_cell _ _ _ (last_cell_in page_next (LPage p) l1)) as Hc.
    split; apply agree_store, (page_only _ Hc).
Qed.

(** ** Removal from a list of jumps *)
Lemma tb_jmp_remove_ok s known jc u tb n : jmp_lists known (links s) jc → u ∈ known →
  (tb, n) ∈ jc u →
  ∃ L, tb_jmp_remove tb n s = Ok (s <| links := L |>) ∧
       jmp_lists known L (upd u (without (tb, n) (jc u)) jc) ∧
       L !! LJmpNext tb n = None ∧
       agree is_hash (links s) L ∧ agree is_page (links s) L ∧
       (∀ t m, (∀ u', u' ∈ known → (t, m) ∉ jc u') → L !! LJmpNext t m = links s !! LJmpNext t m).
Proof.
  intros F Hu Hin. apply list_elem_of_split in Hin as (l1 & l2 & E).
  pose proof (fam_nodup F u Hu) as Hn. rewrite E in Hn.
  assert (tag01 (tb, n)) as Htag.
  { apply (fam_ok F u); [done|]. rewrite E. apply elem_of_app. right. by left. }
  assert (jmp_step (tb, n) = LJmpNext tb n) as Hstep by by apply jmp_step_tag.
  pose proof (fam_seg F u Hu) as Hs. rewrite E in Hs. apply seg_app in Hs as [Hs1 Hs2].
  assert (is_Some (links s !! LJmpNext tb n)) as [v Hv].
  { rewrite Hstep in Hs2. destruct l2; cbn [seg] in Hs2; [by eexists|destruct Hs2; by eexists]. }
  unfold tb_jmp_remove, fuel_of. rewrite Hv, <- Hstep.
  rewrite (fam_find_round LJmpFirst jmp_step (λ u, Some (u, 2)) tag01 (λ u, u ∈ known) jmp_step_inj
    jmp_head_step (links s) jc u l1 (tb, n) l2 (u, 2)); [|done|done|done|done|done|..].
  - rewrite bind_ret, Hstep. eexists. split; [reflexivity|]. rewrite E, without_split by done.
    pose proof (jmp_cell _ _ _ (last_cell_in jmp_step (LJmpFirst u) l1)) as Hc.
    pose proof (last_cell_in jmp_step (LJmpFirst u) l1) as Hcl.
    set (c := last_cell jmp_step (LJmpFirst u) l1) in *.
    assert (∀ t m, (∀ u', u' ∈ known → (t, m) ∉ jc u') → c ≠ LJmpNext t m) as Hcne.
    { intros t m Hno Ec. apply in_cells in Hcl as [Ex|(y & Hy & Ex)]; [by rewrite Ec in Ex|].
      assert (y ∈ jc u) as Hyu by (rewrite E; apply elem_of_app; by left).
      rewrite jmp_step_tag in Ex by by apply (fam_ok F u). rewrite Ec in Ex.
      apply (Hno u Hu). destruct y. cbn in Ex. by injection Ex as -> ->. }
    cbn [links set_field set_links set_link]. split; [|split; [apply store_eq|split; [|split]]].
    + assert (jmp_lists known (store c (links s !! jmp_step (tb, n)) (links s)) (upd u (l1 ++ l2) jc)) as F'
        by (by apply (fam_remove LJmpFirst jmp_step (λ u, Some (u, 2)) tag01 (λ u, u ∈ known)); eauto with tbs).
      rewrite Hstep, Hv in F'. refine (fam_frame _ _ _ _ _ _ _ _ _ F'). intros k b Hk Hb. apply store_ne. intros <-.
      apply in_cells in Hb as [Hb|(y & Hy & Hb)]; [done|].
      rewrite <- Hstep in Hb. apply jmp_step_inj in Hb as <-; [|done|by apply (fam_ok F' k)].
      destruct (decide (k = u)) as [->|Hne].
      * rewrite upd_eq in Hy. apply NoDup_app in Hn as (_ & H12 & [Hx2 _]%NoDup_cons).
        apply elem_of_app in Hy as [Hy|Hy]; [apply (H12 _ Hy); by left|done].
      * rewrite upd_ne in Hy by done. apply Hne. apply (fam_disj F k u (tb, n)); [done..|].
        rewrite E. apply elem_of_app. right. by left.
    + eapply agree_trans; apply agree_store; [apply (jmp_only _ Hc)|by intros []].
    + eapply agree_trans; apply agree_store; [apply (jmp_only _ Hc)|by intros []].
    + intros t m Hno. rewrite !store_ne; [done|by apply Hcne|].
      intros [= -> ->]. apply (Hno u Hu). rewrite E. apply elem_of_app. right. by left.
  - by cbn; rewrite !Z.eqb_refl.
  - intros [t m] _ Hne. cbn. apply andb_false_iff.
    destruct (decide (m = n)) as [->|]; [right|left]; apply Z.eqb_neq; congruence.
  - intros Hx. apply (fam_ok F u) in Hx; [|done]. by destruct Hx.
Qed.

(** ** Dropping the jumps to a block *)

(** The pointer [v] starts the list [l]. *)
Definition starts (h : heap) (v : ptr) (l : list tagged) (z : ptr) : Prop :=
  match l with [] => v = z | x :: l => v = Some x ∧ seg h jmp_step (jmp_step x) l z end.
Lemma seg_starts h a l z : seg h jmp_step a l z ↔ starts h (h !! a) l z.
Proof. by destruct l. Qed.

Lemma drop_jumps_ok u l : ∀ fuel s v, (length l < fuel)%nat → NoDup l →
  (∀ x, x ∈ l → tag01 x ∧ is_Some (tbs s !! x.1)) → starts (links s) v l (Some (u, 2)) →
  ∃ L J, drop_jumps fuel v s = Ok (s <| links := L |> <| jmp_target := J |>) ∧
    (∀ x, x ∈ l → L !! LJmpNext x.1 x.2 = None) ∧
    (∀ c, (∀ x, x ∈ l → c ≠ LJmpNext x.1 x.2) → L !! c = links s !! c) ∧
    (∀ x, x ∈ l → ∃ t, tbs s !! x.1 = Some t ∧ J !! x = Some (tc_ptr t + tb_next_offset x.2 t)) ∧
    (∀ x, x ∉ l → J !! x = jmp_target s !! x).
Proof.
  induction l as [|[t n] l IH]; intros fuel s v Hf Hn Hl Hv; (destruct fuel as [|fuel]; [cbn in Hf; lia|]);
    cbn [drop_jumps starts] in *.
  { subst v. exists (links s), (jmp_target s). split; [by destruct s|]. split_and!; try done; set_solver. }
  destruct Hv as [-> Hs]. destruct (Hl (t, n) ltac:(by left)) as [Htag [T HT]].
  rewrite jmp_step_tag in Hs by done. cbn [fst snd] in *.
  replace (n =? 2) with false by (destruct Htag as [E|E]; cbn in E; by rewrite E).
  unfold tb_reset_jump, get_tb. rewrite HT. cbn [from_option_res]. rewrite !bind_ret.
  apply NoDup_cons in Hn as [Hx Hn].
  assert (∀ x, x ∈ l → LJmpNext t n ≠ LJmpNext x.1 x.2) as Hne.
  { intros [t' n'] Hin [= -> ->]. done. }
  set (s1 := set_link _ _ _).
  destruct (IH fuel s1 (links s !! LJmpNext t n)) as (L & J & -> & HL & Ho & HJ & HJo).
  - cbn in Hf. lia.
  - done.
  - intros x Hin. apply Hl. by right.
  - apply seg_starts in Hs. destruct l as [|y l]; [done|]. cbn [starts] in *. destruct Hs as [-> Hs].
    split; [done|]. apply (seg_frame jmp_step (links s)); [|done]. intros c Hc. apply store_ne. intros <-.
    apply elem_of_cons in Hc as [Hc|(x & Hc & Hin)%elem_of_map];
      (rewrite jmp_step_tag in Hc; [apply Hne in Hc; [done|]|apply Hl; right]); (by left) || (by right).
  - exists L, J. split; [done|]. split_and!.
    + intros x [-> | Hin]%elem_of_cons; [|by apply HL]. cbn [fst snd]. rewrite Ho by done. apply store_eq.
    + intros c Hc. rewrite Ho by (intros x Hin; apply Hc; by right).
      apply store_ne. intros <-. by apply (Hc (t, n)); [left|].
    + intros x [-> | Hin]%elem_of_cons; [|by apply HJ]. exists T. split; [done|].
      rewrite HJo by done. cbn. by rewrite lookup_insert_eq.
    + intros x Hin. rewrite HJo by set_solver. cbn. rewrite lookup_insert_ne; [done|]. set_solver.
Qed.

(** ** The abstract state *)

(** Blocks that are linked and may be found; blocks whose jump fields are set
    up (an invalidated block may still be running and be chained once more);
    and the chained jumps, each with the block it goes to. *)
Record blocks := mkBlocks { live : gset Z; known : gset Z; jumps : gmap tagged Z }.

Definition blk (B : gmap Z TranslationBlock) (t : Z) : TranslationBlock :=
  default (mkTB 0 0 0 0 0 0 0 0 0 0) (B !! t).
Definition hash_key (t : TranslationBlock) : Z := tb_phys_hash_func (tb_phys_pc t).
Definition page_key (n : Z) (t : TranslationBlock) : Z := page_addr n t >> TARGET_PAGE_BITS.

(** The three kinds of lists hold exactly the blocks, page entries and jumps. *)
Definition hash_ok (B : gmap Z TranslationBlock) (L : heap) (lv : gset Z) : Prop :=
  ∃ hc, hash_lists L hc ∧ ∀ h x, x ∈ hc h ↔ x.2 = 0 ∧ x.1 ∈ lv ∧ hash_key (blk B x.1) = h.
Definition page_at (B : gmap Z TranslationBlock) (L : heap) (E : tagged → Prop) (pc : Z → list tagged) : Prop :=
  page_lists L pc ∧ ∀ p x, x ∈ pc p ↔ E x ∧ page_key x.2 (blk B x.1) = p.
Definition jump_ok (L : heap) (kn : gset Z) (js : gmap tagged Z) : Prop :=
  ∃ jc, jmp_lists kn L jc ∧ (∀ u x, u ∈ kn → (x ∈ jc u ↔ js !! x = Some u)) ∧
    (∀ x, tag01 x → js !! x = None → x.1 ∈ kn → L !! LJmpNext x.1 x.2 = None).

Lemma hash_ok_frame B L L' lv : agree is_hash L L' → hash_ok B L lv → hash_ok B L' lv.
Proof. intros Ha (hc & F & Hm). exists hc. split; [by eapply hash_frame|done]. Qed.
Lemma page_at_frame B L L' E pc : agree is_page L L' → page_at B L E pc → page_at B L' E pc.
Proof. intros Ha (F & Hm). split; [by eapply page_frame|done]. Qed.
Lemma jump_ok_frame L L' kn js : agree is_jmp L L' → jump_ok L kn js → jump_ok L' kn js.
Proof.
  intros Ha (jc & F & Hm & Hn). exists jc. split; [by eapply jmp_frame|]. split; [done|].
  intros x Hx Hj Hk. rewrite Ha by done. by apply Hn.
Qed.
Lemma page_at_ext B L E E' pc : (∀ x, E x ↔ E' x) → page_at B L E pc → page_at B L E' pc.
Proof. intros He (F & Hm). split; [done|]. intros p x. by rewrite Hm, He. Qed.
Lemma page_at_fun B L E pc pc' : (∀ p, pc' p = pc p) → page_at B L E pc → page_at B L E pc'.
Proof.
  intros He ([Hs Hn Hd Ho] & Hm). split; [split|].
  - intros k Hk. rewrite He. by apply Hs.
  - intros k Hk. rewrite He. by apply Hn.
  - intros k k' x. rewrite !He. apply Hd.
  - intros k x. rewrite He. apply Ho.
  - intros p x. by rewrite He.
Qed.
Lemma jump_ok_ext L kn js js' : (∀ x, js !! x = js' !! x) → jump_ok L kn js → jump_ok L kn js'.
Proof. intros He. by rewrite (map_eq js js' He). Qed.
#[export] Hint Resolve hash_ok_frame page_at_frame jump_ok_frame : tbs.

Lemma hash_ok_remove s lv t : hash_ok (tbs s) (links s) lv → t ∈ lv →
  ∃ L, tb_remove (LHash (hash_key (blk (tbs s) t))) t s = Ok (s <| links := L |>) ∧
       hash_ok (tbs s) L (lv ∖ {[t]}) ∧ agree is_page (links s) L ∧ agree is_jmp (links s) L.
Proof.
  intros (hc & F & Hm) Ht.
  destruct (tb_remove_ok s hc (hash_key (blk (tbs s) t)) t F) as (L & HL & F' & Hp & Hj); [by apply Hm|].
  exists L. split; [done|]. split; [|done]. eexists. split; [exact F'|]. intros h x.
  unfold upd. case_decide as Eh; [subst h; rewrite elem_of_without|]; rewrite Hm, elem_of_difference, elem_of_singleton.
  - destruct x as [t' n']. cbn. split; [|naive_solver congruence].
    intros (Hne & -> & ? & ?). split_and!; [done..| |done]. intros ->. by apply Hne.
  - naive_solver.
Qed.

Lemma page_at_remove s E pc t n : page_at (tbs s) (links s) E pc → E (t, n) →
  (∀ m, E (t, m) → page_key m (blk (tbs s) t) = page_key n (blk (tbs s) t) → m = n) →
  let p := page_key n (blk (tbs s) t) in
  ∃ L, tb_page_remove (LPage p) t s = Ok (s <| links := L |>) ∧
       page_at (tbs s) L (λ x, E x ∧ x ≠ (t, n)) (upd p (without (t, n) (pc p)) pc) ∧
       agree is_hash (links s) L ∧ agree is_jmp (links s) L.
Proof.
  intros (F & Hm) Ht Hu p.
  destruct (tb_page_remove_ok s pc p t n F) as (L & HL & F' & Hp & Hj); [by apply Hm| |].
  { intros m [? ?]%Hm. by apply Hu. }
  exists L. split; [done|]. split; [|done]. split; [exact F'|]. intros p' x.
  unfold upd. case_decide as Eh; [subst p'; rewrite elem_of_without|]; rewrite Hm; naive_solver.
Qed.

Lemma jump_ok_remove s kn js t n : jump_ok (links s) kn js → tag01 (t, n) → t ∈ kn →
  (∀ x u, js !! x = Some u → u ∈ kn) →
  ∃ L, tb_jmp_remove t n s = Ok (s <| links := L |>) ∧ jump_ok L kn (delete (t, n) js) ∧
       agree is_hash (links s) L ∧ agree is_page (links s) L.
Proof.
  intros (jc & F & Hm & Hn) Htag Ht Hd. destruct (js !! (t, n)) as [u|] eqn:Eu.
  - pose proof (Hd _ _ Eu) as Hu.
    destruct (tb_jmp_remove_ok s kn jc u t n F Hu) as (L & HL & F' & H0 & Hh & Hp & Ho); [by apply Hm|].
    exists L. split; [done|]. split; [|done]. eexists. split; [exact F'|]. split.
    + intros u' x Hu'. unfold upd. case_decide as E; [subst u'; rewrite elem_of_without|];
        rewrite Hm by done; rewrite lookup_delete_Some; [naive_solver|].
      split; [|by intros [_ ?]]. intros Hx. split; [|done]. intros <-. apply E.
      assert (Some u' = Some u) as [= ->] by (rewrite <- Hx; exact Eu). done.
    + intros x Hx Hj Hk. destruct (decide (x = (t, n))) as [->|Hne]; [done|].
      rewrite lookup_delete_ne in Hj by done. destruct x as [t' n']. cbn [fst snd] in *.
      rewrite Ho; [by apply (Hn (t', n'))|]. intros u' Hu' Hin. apply Hm in Hin; [|done]. congruence.
  - exists (links s). rewrite delete_id by done. split_and!; [|by exists jc|done|done].
    unfold tb_jmp_remove. pose proof (Hn (t, n) Htag Eu Ht) as Hnull. cbn in Hnull. rewrite Hnull. by destruct s.
Qed.

Lemma jump_ok_drop s kn js t : jump_ok (links s) kn js → t ∈ kn →
  (∀ x, js !! x = Some t → is_Some (tbs s !! x.1)) →
  ∃ L J, drop_jumps (fuel_of s) (links s !! LJmpFirst t) s = Ok (s <| links := L |> <| jmp_target := J |>) ∧
    jump_ok (store (LJmpFirst t) (Some (t, 2)) L) kn (filter (λ '(_, u), u ≠ t) js) ∧
    agree is_hash (links s) L ∧ agree is_page (links s) L ∧
    (∀ x, js !! x = Some t →
      ∃ T, tbs s !! x.1 = Some T ∧ J !! x = Some (tc_ptr T + tb_next_offset x.2 T)) ∧
    (∀ x, js !! x ≠ Some t → J !! x = jmp_target s !! x).
Proof.
  intros (jc & F & Hm & Hn) Ht Hd.
  assert (∀ x, x ∈ jc t → tag01 x) as Htag by (intros x; by apply (fam_ok F t)).
  pose proof (nodup_cells LJmpFirst jmp_step tag01 jmp_step_inj jmp_head_step t _ Htag (fam_nodup F t Ht)) as Hnd.
  destruct (drop_jumps_ok t (jc t) (fuel_of s) s (links s !! LJmpFirst t)) as (L & J & HL & Hz & Ho & HJ & HJo).
  - eapply seg_length; [exact Hnd|by apply (fam_seg F)].
  - by apply (fam_nodup F).
  - intros x Hin. split; [by apply Htag|]. by apply Hd, Hm.
  - apply seg_starts. by apply (fam_seg F).
  - assert (∀ P : loc → Prop, (∀ a b, ¬ P (LJmpNext a b)) → agree P (links s) L) as Hag.
    { intros P HP c Hc. apply Ho. intros x _ ->. by apply HP in Hc. }
    exists L, J. split; [done|]. split_and!; [|apply Hag; by intros ? ? []..| |].
    + exists (upd t [] jc). split; [|split].
      * apply (fam_replace LJmpFirst jmp_step (λ u, Some (u, 2)) tag01 (λ u, u ∈ kn) (links s)); try done.
        -- intros k c Hk Hne Hc. rewrite store_ne.
           ++ apply Ho. intros x Hx ->. apply in_cells in Hc as [Hc|(y & Hy & Hc)]; [done|].
              rewrite <- jmp_step_tag in Hc by by apply Htag.
              apply jmp_step_inj in Hc as <-; [|by apply Htag|by apply (fam_ok F k)].
              apply Hne. by apply (fam_disj F k t x).
           ++ intros <-. apply in_cells in Hc as [[= ->]|(y & Hy & Hc)]; [done|].
              rewrite jmp_step_tag in Hc; [done|by apply (fam_ok F k)].
        -- apply store_eq.
        -- constructor.
        -- by intros x Hx%elem_of_nil.
        -- by intros k x _ _ Hx%elem_of_nil.
      * intros u x Hu. rewrite map_lookup_filter_Some. unfold upd. case_decide as E.
        -- subst u. rewrite elem_of_nil. naive_solver.
        -- rewrite Hm by done. naive_solver.
      * intros x Hx Hj Hk. rewrite store_ne by done. destruct (decide (js !! x = Some t)) as [E|E].
        -- apply Hz. by apply Hm.
        -- rewrite Ho.
           ++ apply Hn; [done| |done]. destruct (js !! x) as [u|] eqn:Eu; [|done].
              apply map_lookup_filter_None in Hj as [Hj|Hj]; [congruence|]. exfalso.
              apply (Hj u Eu). congruence.
           ++ intros y Hy Ey. apply Hm in Hy as Hy'; [|done]. apply E.
              rewrite <- !jmp_step_tag in Ey by (done || by apply Htag).
              apply jmp_step_inj in Ey as ->; [done..|by apply Htag].
    + intros x Hx. apply HJ. by apply Hm.
    + intros x Hx. apply HJo. by intros ?%Hm.
Qed.

(** ** Well-formed states *)

(** A page of RAM that is not the last two of the address space. *)
Definition ram_page (a : Z) : Prop := 0 ≤ a ≤ 2 ^ 32 - 2 * TARGET_PAGE_SIZE ∧ page_of a = a.

(** A block has at most a page of code, so it lies on one page or on two
    different ones. *)
Record tb_ok (t : TranslationBlock) : Prop := {
  ok_pc : is_u32 (tb_pc t);
  ok_size : 1 ≤ tb_size t ≤ TARGET_PAGE_SIZE;
  ok_page0 : ram_page (page_addr0 t);
  ok_page1 : if page_flags (tb_pc t) + tb_size t <=? TARGET_PAGE_SIZE
             then page_addr1 t = no_addr else ram_page (page_addr1 t);
  ok_distinct : page_addr0 t ≠ page_addr1 t
}.

(** The entries of the page lists. *)
Definition entry (B : gmap Z TranslationBlock) (lv : gset Z) (x : tagged) : Prop :=
  x.1 ∈ lv ∧ tag01 x ∧ page_addr x.2 (blk B x.1) ≠ no_addr.

(** Bit [o] of a bitmap. *)
Definition bitmap_bit (bits : list Z) (o : Z) : bool :=
  Z.testbit (default 0 (zlookup bits (o >> 3))) (o .& 7).
Definition covers (n o : Z) (t : TranslationBlock) : Prop := (tb_range n t).1 ≤ o < (tb_range n t).2.

(** Where jump [x] of a block goes when it is not chained: to the end of the
    block's own code. *)
Definition stub (B : gmap Z TranslationBlock) (x : tagged) : Z :=
  tc_ptr (blk B x.1) + tb_next_offset x.2 (blk B x.1).

Record tbs_wf s (A : blocks) : Prop := {
  wf_hash : hash_ok (tbs s) (links s) (live A);
  wf_page : ∃ pc, page_at (tbs s) (links s) (entry (tbs s) (live A)) pc;
  wf_jump : jump_ok (links s) (known A) (jumps A);
  wf_jumps : ∀ x u, jumps A !! x = Some u →
    tag01 x ∧ x.1 ∈ known A ∧ u ∈ live A ∧ jmp_target s !! x = Some (tc_ptr (blk (tbs s) u));
  wf_stub : ∀ x, tag01 x → x.1 ∈ live A → jumps A !! x = None →
    tb_next_offset x.2 (blk (tbs s) x.1) ≠ 0xffff → jmp_target s !! x = Some (stub (tbs s) x);
  wf_live : live A ⊆ known A;
  wf_known : ∀ t, t ∈ known A → 0 ≤ t < nb_tbs s ∧ is_Some (tbs s !! t);
  wf_tb : ∀ t, t ∈ live A → tb_ok (blk (tbs s) t);
  wf_found : ∀ x, entry (tbs s) (live A) x → page_found (page_key x.2 (blk (tbs s) x.1)) s = true;
  wf_bitmap : ∀ p bits, code_bitmap (page_desc p s) = Some bits →
    zlength bits = TARGET_PAGE_SIZE / 8 ∧
    (∃ x, entry (tbs s) (live A) x ∧ page_key x.2 (blk (tbs s) x.1) = p) ∧
    ∀ x o, entry (tbs s) (live A) x → page_key x.2 (blk (tbs s) x.1) = p →
      0 ≤ o < TARGET_PAGE_SIZE → covers x.2 o (blk (tbs s) x.1) → bitmap_bit bits o = true;
  wf_protected : ∀ x, entry (tbs s) (live A) x →
    ∃ d, zlookup (phys_dirty (guest_ram s)) (page_key x.2 (blk (tbs s) x.1)) = Some d ∧
         d .& CODE_DIRTY_FLAG = 0;
  wf_cache : zlength (tb_jmp_cache (stlb s)) = TB_JMP_CACHE_SIZE ∧
    ∀ i v, zlookup (tb_jmp_cache (stlb s)) i = Some v → v ≠ 0 →
      v - 1 ∈ live A ∧ tb_jmp_cache_hash_func (tb_pc (blk (tbs s) (v - 1))) = i
}.

(** ** Invalidating a block *)
Definition invalidate (t : Z) (A : blocks) : blocks :=
  mkBlocks (live A ∖ {[t]}) (known A) (filter (λ '(x, u), x.1 ≠ t ∧ u ≠ t) (jumps A)).

(** The bounds of the code buffer. *)
Definition gen_bounds s : Z * Z * Z * Z :=
  (code_gen_max_blocks s, code_gen_buffer s, code_gen_buffer_size s, code_gen_buffer_max_size s).

(** What an invalidation leaves as it is. *)
Definition unchanged s s' : Prop :=
  tbs s' = tbs s ∧ nb_tbs s' = nb_tbs s ∧ l1_map s' = l1_map s ∧ request s' = request s ∧
  cpu_single_env s' = cpu_single_env s ∧ guest_ram s' = guest_ram s ∧
  code_gen_ptr s' = code_gen_ptr s ∧ current_tb (stlb s') = current_tb (stlb s) ∧
  tlb_table (stlb s') = tlb_table (stlb s) ∧ gen_bounds s' = gen_bounds s.

Lemma blk_get s t : is_Some (tbs s !! t) → get_tb t s = Ok (blk (tbs s) t).
Proof. unfold get_tb, blk. by intros [T ->]. Qed.

(** Page arithmetic. *)
Lemma page_of_div a : is_u32 a → page_of a = a / 1024 * 1024.
Proof.
  intros Ha. unfold page_of. change TARGET_PAGE_MASK with (Z.ones 22 << 10).
  change 1024 with (2 ^ 10). rewrite <- Z.shiftr_div_pow2, <- Z.shiftl_mul_pow2 by lia.
  apply Z.bits_inj'. intros n Hn. rewrite Z.land_spec, !Z.shiftl_spec by done.
  destruct (Z.ltb_spec n 10).
  - by rewrite !(Z.testbit_neg_r _ (n - 10)), andb_false_r by lia.
  - rewrite Z.shiftr_spec, Z.testbit_ones_nonneg by lia. replace (n - 10 + 10) with n by lia.
    destruct (Z.ltb_spec (n - 10) 22); [by rewrite andb_true_r|].
    by rewrite testbit_of_high by (done || lia).
Qed.
Lemma ram_page_key a : ram_page a → a = (a >> TARGET_PAGE_BITS) * 1024 ∧ is_u32 a.
Proof.
  unfold ram_page, TARGET_PAGE_SIZE. intros [Hb Hp].
  assert (is_u32 a) as Ha by (unfold is_u32; lia). split; [|done].
  rewrite page_of_div in Hp by done. unfold TARGET_PAGE_BITS.
  rewrite Z.shiftr_div_pow2 by lia. change (2 ^ 10) with 1024. lia.
Qed.

Lemma second_page T : tb_ok T → page_addr1 T ≠ no_addr → ram_page (page_addr1 T).
Proof. intros [_ _ _ H _] Hn. by destruct (_ <=? _). Qed.
Lemma key_distinct T : tb_ok T → page_addr1 T ≠ no_addr → page_key 0 T ≠ page_key 1 T.
Proof.
  intros Hok Hn E. apply (ok_distinct T Hok).
  destruct (ram_page_key _ (ok_page0 T Hok)) as [-> _].
  destruct (ram_page_key _ (second_page T Hok Hn)) as [-> _].
  unfold page_key, page_addr in E. cbn in E. by rewrite E.
Qed.
Lemma first_page T : tb_ok T → page_addr0 T ≠ no_addr.
Proof. intros [_ _ [H _] _ _]. unfold no_addr, TARGET_PAGE_SIZE in *. lia. Qed.

Lemma filter_ext_in {A} (P Q : A → Prop) `{∀ x, Decision (P x)} `{∀ x, Decision (Q x)} (l : list A) :
  (∀ x, x ∈ l → P x ↔ Q x) → filter P l = filter Q l.
Proof.
  induction l as [|x l IH]; intros He; [done|].
  assert (filter P l = filter Q l) as IHl by (apply IH; intros y Hy; apply He; by right).
  destruct (decide (P x)) as [HP|HP].
  - assert (Q x) by (apply He; [by left|done]). by rewrite !filter_cons_True, IHl by done.
  - rewrite !filter_cons_False; [done|intros HQ; apply HP, He; [by left|done]|done].
Qed.
Definition drop_block (t : Z) (l : list tagged) : list tagged := filter (λ y, y.1 ≠ t) l.
Lemma elem_of_drop t x l : x ∈ drop_block t l ↔ x.1 ≠ t ∧ x ∈ l.
Proof. unfold drop_block. by rewrite list_elem_of_filter. Qed.

(** One page list loses its entry of [t]. *)
Lemma remove_from_page_ok s E pc t n : page_at (tbs s) (links s) E pc → E (t, n) →
  (∀ m, E (t, m) → page_key m (blk (tbs s) t) = page_key n (blk (tbs s) t) → m = n) →
  let a := page_addr n (blk (tbs s) t) in
  let p := a >> TARGET_PAGE_BITS in
  page_found p s = true →
  ∃ L, remove_from_page t a s = Ok (invalidate_page_bitmap p (s <| links := L |>)) ∧
       page_at (tbs s) L (λ x, E x ∧ x ≠ (t, n)) (upd p (drop_block t (pc p)) pc) ∧
       agree is_hash (links s) L ∧ agree is_jmp (links s) L.
Proof.
  intros HP Ht Hu a p Hp. destruct (page_at_remove s E pc t n HP Ht Hu) as (L & HL & HP' & Hag).
  exists L. unfold remove_from_page. fold p. rewrite Hp.
  change (page_key n (blk (tbs s) t)) with p in *. rewrite HL, bind_ret. split; [done|]. split; [|done].
  replace (drop_block t (pc p)) with (without (t, n) (pc p)); [done|].
  apply filter_ext_in. intros [t' m] Hin. cbn. split; [|congruence].
  intros Hne ->. apply Hne. destruct HP as [_ Hm]. apply Hm in Hin as [HE Hk]. cbn in *.
  by rewrite (Hu m).
Qed.

(** Both page lists. *)
Lemma drop_upd_eq t p (pc : Z → list tagged) : ∀ q,
  upd p (drop_block t (pc p)) pc q = if decide (q = p) then drop_block t (pc q) else pc q.
Proof. intros q. unfold upd. by case_decide; subst. Qed.
Lemma drop_block_id t l : (∀ x, x ∈ l → x.1 ≠ t) → drop_block t l = l.
Proof. apply list_filter_id. Qed.

Lemma leave_pages_ok s lv pc t : page_at (tbs s) (links s) (entry (tbs s) lv) pc → t ∈ lv →
  tb_ok (blk (tbs s) t) →
  (∀ x, entry (tbs s) lv x → page_found (page_key x.2 (blk (tbs s) x.1)) s = true) →
  ∃ L D pc', leave_pages t no_addr (blk (tbs s) t) s = Ok (s <| links := L |> <| page_descs := D |>) ∧
    page_at (tbs s) L (entry (tbs s) (lv ∖ {[t]})) pc' ∧ (∀ p, pc' p = drop_block t (pc p)) ∧
    agree is_hash (links s) L ∧ agree is_jmp (links s) L ∧
    (∀ p n, (t, n) ∈ pc p → D !! p = Some (mkPageDesc 0 None)) ∧
    (∀ p, (∀ n, (t, n) ∉ pc p) → D !! p = page_descs s !! p).
Proof.
  intros HP Ht Hok Hf. set (T := blk (tbs s) t) in *.
  pose proof (first_page T Hok) as Hn0.
  assert (entry (tbs s) lv (t, 0)) as H0 by (split_and!; [done|by left|done]).
  unfold leave_pages. rewrite (proj2 (Z.eqb_neq _ _) Hn0), orb_diag.
  assert (∀ m, entry (tbs s) lv (t, m) → page_key m T = page_key 0 T → m = 0) as Hu0.
  { intros m (_ & [Hm|Hm] & Hne) Hk; cbn in Hm, Hne; subst m; [done|].
    symmetry in Hk. by apply key_distinct in Hk. }
  destruct (remove_from_page_ok s _ pc t 0 HP H0 Hu0 (Hf _ H0)) as (L & HL & HP' & Hh & Hj).
  change (page_addr 0 (blk (tbs s) t)) with (page_addr0 T) in *. rewrite HL, bind_ret.
  set (p0 := page_addr0 T >> TARGET_PAGE_BITS) in *.
  set (s1 := invalidate_page_bitmap p0 (s <| links := L |>)).
  pose proof HP as [_ Hm].
  assert (∀ p m, (t, m) ∈ pc p → p = page_key m T) as Hat by (by intros p m [_ ?]%Hm).
  destruct (Z.eqb_spec (page_addr1 T) no_addr) as [E1|Hn1].
  - exists L, (<[p0 := mkPageDesc 0 None]> (page_descs s)), (upd p0 (drop_block t (pc p0)) pc).
    assert (∀ m, entry (tbs s) lv (t, m) → m = 0) as Honly.
    { intros m (_ & [Hm'|Hm'] & Hne); cbn in Hm', Hne; subst m; [done|]. destruct (Hne E1). }
    split; [done|]. split.
    { eapply page_at_ext, HP'. intros [t' m]. unfold entry. cbn [fst snd].
      rewrite elem_of_difference, elem_of_singleton. split.
      - intros [He Hne]. split; [|by destruct He]. split; [by destruct He|]. intros ->.
        apply Hne. by rewrite (Honly m He).
      - intros ([? ?] & ? & ?). split; [done|]. intros [= -> ->]. done. }
    split.
    { intros p. rewrite drop_upd_eq. case_decide as Ep; [done|]. symmetry. apply drop_block_id.
      intros [t' m] Hin Et. cbn in Et. subst t'. apply Hm in Hin as Hin'.
      destruct Hin' as [He Hk]. rewrite (Honly m He) in Hk. by apply Ep. }
    split; [done|]. split; [done|]. split.
    + intros p n Hin. apply Hm in Hin as [He Hk]. rewrite (Honly n He) in Hk. cbn in Hk.
      change (page_key 0 (blk (tbs s) t)) with p0 in Hk. subst p. apply lookup_insert_eq.
    + intros p Hno. apply lookup_insert_ne. intros <-. apply (Hno 0). by apply Hm.
  - assert (entry (tbs s) lv (t, 1)) as H1 by (split_and!; [done|by right|done]).
    destruct (remove_from_page_ok s1 (λ x, entry (tbs s) lv x ∧ x ≠ (t, 0)) _ t 1 HP') as (L2 & HL2 & HP2 & Hh2 & Hj2).
    + split; [done|]. congruence.
    + intros m [(_ & [Hm'|Hm'] & _) Hne] Hk; cbn in Hm'; subst m; [|done]. exfalso. by apply Hne.
    + apply (Hf _ H1).
    + change (page_addr 1 (blk (tbs s1) t)) with (page_addr1 T) in *.
      set (p1 := page_addr1 T >> TARGET_PAGE_BITS) in *.
      assert (p0 ≠ p1) as Hp01 by (by apply key_distinct).
      exists L2, (<[p1 := mkPageDesc 0 None]> (<[p0 := mkPageDesc 0 None]> (page_descs s))),
        (upd p1 (drop_block t (upd p0 (drop_block t (pc p0)) pc p1)) (upd p0 (drop_block t (pc p0)) pc)).
      split; [rewrite HL2; done|]. split.
      { eapply page_at_ext, HP2. intros [t' m]. unfold entry. cbn [fst snd].
        rewrite elem_of_difference, elem_of_singleton. split.
        - intros [[He Hne] Hne']. destruct He as (? & Htag & ?). split; [|done]. split; [done|].
          cbn in *. intros ->. destruct Htag as [Et|Et]; cbn in Et; subst m; [by apply Hne|by apply Hne'].
        - intros ([? ?] & ? & ?). split; [split; [done|]|]; intros [= -> ->]; done. }
      split.
      { intros p. rewrite !drop_upd_eq. case_decide as Ep1; [|case_decide as Ep0; [done|]].
        - subst p. by rewrite decide_False by done.
        - symmetry. apply drop_block_id. intros [t' m] Hin Et. cbn in Et. subst t'.
          apply Hm in Hin as [(_ & [Em|Em] & _) Hk]; cbn in Em; subst m; [by apply Ep0|by apply Ep1]. }
      split; [by eapply agree_trans|]. split; [by eapply agree_trans|]. split.
      * intros p n Hin. apply Hm in Hin as [(_ & [En|En] & _) Hk]; cbn in En, Hk; subst n p.
        -- change (page_key 0 (blk (tbs s) t)) with p0. rewrite lookup_insert_ne by done. apply lookup_insert_eq.
        -- apply lookup_insert_eq.
      * intros p Hno. rewrite !lookup_insert_ne; [done|intros <-; apply (Hno 0); by apply Hm|].
        intros <-. apply (Hno 1). by apply Hm.
Qed.

(** The jump cache forgets the block. *)
Lemma clear_jmp_cache_ok s t pc : zlength (tb_jmp_cache (stlb s)) = TB_JMP_CACHE_SIZE →
  ∃ l, clear_jmp_cache t pc s = Ok (s <| stlb := (stlb s) <| tb_jmp_cache := l |> |>) ∧
    zlength l = TB_JMP_CACHE_SIZE ∧
    ∀ i v, zlookup l i = Some v → v ≠ 0 →
      zlookup (tb_jmp_cache (stlb s)) i = Some v ∧ (i = tb_jmp_cache_hash_func pc → v - 1 ≠ t).
Proof.
  intros Hl. set (h := tb_jmp_cache_hash_func pc).
  assert (0 ≤ h < zlength (tb_jmp_cache (stlb s))) as Hh.
  { rewrite Hl. pose proof (hash_func_range pc). pose proof (hash_page_bound pc). unfold TB_JMP_CACHE_SIZE. lia. }
  destruct (zlookup_in_range _ _ Hh) as [v Hv].
  unfold clear_jmp_cache. fold h. rewrite (aget_Ok _ _ _ Hv), bind_ret.
  destruct (Z.eqb_spec v (tb_ptr t)) as [->|Hne].
  - rewrite aput_Ok by done. rewrite bind_ret. eexists. split; [reflexivity|].
    split; [by rewrite zlength_zinsert|]. intros i w. rewrite zlookup_zinsert_dec by done.
    case_decide; [by intros [= <-]|]. intros Hw _. split; [done|]. by intros ->.
  - exists (tb_jmp_cache (stlb s)). split; [by destruct s as [????????????????[]]|].
    split; [done|]. intros i w Hw _. split; [done|]. intros ->. unfold tb_ptr in Hne.
    rewrite Hv in Hw. injection Hw as ->. lia.
Qed.

(** The abstract jumps after the three steps on the jump lists. *)
Lemma dropped_jumps (js : gmap tagged Z) t x : (∀ x u, js !! x = Some u → tag01 x) →
  filter (λ '(_, u), u ≠ t) (delete (t, 1) (delete (t, 0) js)) !! x
  = filter (λ '(x, u), x.1 ≠ t ∧ u ≠ t) js !! x.
Proof.
  intros Htag. apply option_eq. intros u.
  rewrite !map_lookup_filter_Some, !lookup_delete_Some. split.
  - intros [(H1 & H0 & Hx) Hu]. split; [done|]. split; [|done].
    intros E. destruct x as [t' n]. cbn in E. subst t'. destruct (Htag _ _ Hx) as [En|En]; cbn in En; subst n; done.
  - intros (Hx & Ht & Hu). split_and!; [by intros <-|by intros <-|done..].
Qed.

Lemma bitmap_kept s s' A t p bits :
  tbs_wf s A → tbs s' = tbs s →
  (∀ x, entry (tbs s) (live A) x → x.1 = t → page_key x.2 (blk (tbs s) x.1) ≠ p) →
  code_bitmap (page_desc p s) = Some bits →
  zlength bits = TARGET_PAGE_SIZE / 8 ∧
  (∃ x, entry (tbs s') (live A ∖ {[t]}) x ∧ page_key x.2 (blk (tbs s') x.1) = p) ∧
  ∀ x o, entry (tbs s') (live A ∖ {[t]}) x → page_key x.2 (blk (tbs s') x.1) = p →
    0 ≤ o < TARGET_PAGE_SIZE → covers x.2 o (blk (tbs s') x.1) → bitmap_bit bits o = true.
Proof.
  intros Hwf Et Hp Hb. rewrite Et. destruct (wf_bitmap s A Hwf p bits Hb) as (Hl & (x & Hx & Hk) & Hc).
  split; [done|]. split.
  - exists x. split; [|done]. pose proof Hx as (Hxl & Hxt). split; [|done].
    apply elem_of_difference. split; [done|]. rewrite elem_of_singleton. intros Ex. by apply (Hp x).
  - intros y o (Hy & ? & ?) Hky Ho Hcov. apply elem_of_difference in Hy as [Hy _]. by apply (Hc y o).
Qed.

Lemma tb_phys_invalidate_ok s A t pc : tbs_wf s A → t ∈ live A →
  page_at (tbs s) (links s) (entry (tbs s) (live A)) pc →
  ∃ s', tb_phys_invalidate t no_addr s = Ok s' ∧ tbs_wf s' (invalidate t A) ∧ unchanged s s' ∧
    page_at (tbs s') (links s') (entry (tbs s') (live (invalidate t A))) (λ p, drop_block t (pc p)) ∧
    tb_invalidated_flag s' = 1.
Proof.
  intros Hwf Ht HP.
  assert (t ∈ known A) as Hkn by by apply (wf_live s A Hwf).
  pose proof (wf_known s A Hwf t Hkn) as [_ HT].
  pose proof (wf_tb s A Hwf t Ht) as Hok.
  unfold tb_phys_invalidate. rewrite (blk_get s t HT), bind_ret.
  set (T := blk (tbs s) t) in *.
  (* the hash list *)
  destruct (hash_ok_remove s (live A) t (wf_hash s A Hwf) Ht) as (L1 & HL1 & HH & Hp1 & Hj1).
  change (hash_key (blk (tbs s) t)) with (tb_phys_hash_func (tb_phys_pc T)) in HL1.
  rewrite HL1, bind_ret. clear HL1. set (s1 := s <| links := L1 |>).
  (* the page lists *)
  destruct (leave_pages_ok s1 (live A) pc t) as (L2 & D & pc' & HL2 & HP2 & Hpc & Hh2 & Hj2 & HDin & HDout);
    [by apply (page_at_frame _ (links s))|done|done|apply (wf_found s A Hwf)|].
  change (blk (tbs s1) t) with T in HL2. rewrite HL2, bind_ret. clear HL2.
  set (s2 := _ <| tb_invalidated_flag := 1 |>).
  (* the jump cache *)
  destruct (wf_cache s A Hwf) as [Hcl Hc].
  destruct (clear_jmp_cache_ok s2 t (tb_pc T) Hcl) as (l & -> & Hll & Hl). rewrite bind_ret.
  set (s3 := s2 <| stlb := _ |>).
  (* the jumps from and to the block *)
  assert (∀ x u, jumps A !! x = Some u → u ∈ known A) as Hjk.
  { intros x u Hx. apply (wf_live s A Hwf). by apply (wf_jumps s A Hwf) in Hx as (_ & _ & ? & _). }
  assert (jump_ok (links s3) (known A) (jumps A)) as HJ3.
  { apply (jump_ok_frame (links s)); [by eapply agree_trans|apply (wf_jump s A Hwf)]. }
  destruct (jump_ok_remove s3 (known A) (jumps A) t 0 HJ3 ltac:(by left) Hkn Hjk) as (L4 & -> & HJ4 & Hh4 & Hp4).
  rewrite bind_ret. set (s4 := s3 <| links := L4 |>).
  destruct (jump_ok_remove s4 (known A) _ t 1 HJ4 ltac:(by right) Hkn) as (L5 & -> & HJ5 & Hh5 & Hp5).
  { intros x u [_ Hx]%lookup_delete_Some. by apply (Hjk x). }
  rewrite bind_ret. set (s5 := s4 <| links := L5 |>).
  destruct (jump_ok_drop s5 (known A) _ t HJ5 Hkn) as (L6 & J & -> & HJ6 & Hh6 & Hp6 & HJt & HJo).
  { intros x [_ [_ Hx]%lookup_delete_Some]%lookup_delete_Some.
    apply (wf_jumps s A Hwf) in Hx as (_ & Hx & _). by apply (wf_known s A Hwf). }
  rewrite bind_ret.
  set (L7 := store (LJmpFirst t) (Some (t, 2)) L6) in *.
  assert (agree is_hash L1 L7) as HagH.
  { repeat (eapply agree_trans; [eassumption|]). apply agree_store. by intros []. }
  assert (agree is_page L2 L7) as HagP.
  { eapply agree_trans; [exact Hp4|]. eapply agree_trans; [exact Hp5|]. eapply agree_trans; [exact Hp6|].
    apply agree_store. by intros []. }
  assert (page_at (tbs s) L7 (entry (tbs s) (live A ∖ {[t]})) (λ p, drop_block t (pc p))) as HP7.
  { apply (page_at_frame _ L2); [done|]. by apply (page_at_fun _ _ _ pc'). }
  pose proof (λ x u Hx, proj1 (wf_jumps s A Hwf x u Hx)) as Htags.
  eexists. split; [reflexivity|]. split; [|by split_and!].
  split; cbn [live known jumps invalidate].
  - by apply (hash_ok_frame _ L1).
  - eexists. exact HP7.
  - eapply jump_ok_ext; [|exact HJ6]. intros x. apply dropped_jumps. exact Htags.
  - intros x u (Hx & Hxt & Hu)%map_lookup_filter_Some.
    destruct (wf_jumps s A Hwf x u Hx) as (? & ? & ? & Hj).
    split; [done|]. split; [done|]. split; [set_solver|]. cbn. rewrite HJo; [done|].
    intros [_ [_ Hx']%lookup_delete_Some]%lookup_delete_Some. congruence.
  - intros x Hx [Hlx Hne]%elem_of_difference Hj Ho. rewrite elem_of_singleton in Hne. cbn.
    assert (delete (t, 1) (delete (t, 0) (jumps A)) !! x = jumps A !! x) as Ed
      by (rewrite !lookup_delete_ne by (by intros <-); done).
    destruct (decide (jumps A !! x = Some t)) as [Et|Et].
    + destruct (HJt x) as (T' & HT' & ->); [by rewrite Ed|].
      change (tbs s5) with (tbs s) in HT'. unfold stub, blk. by rewrite HT'.
    + rewrite HJo by (by rewrite Ed). apply (wf_stub s A Hwf); try done.
      destruct (jumps A !! x) as [u|] eqn:Eu; [|done]. exfalso.
      apply map_lookup_filter_None in Hj as [Hj|Hj]; [congruence|]. apply (Hj u Eu). cbn. split; [done|congruence].
  - intros x Hx. apply (wf_live s A Hwf). set_solver.
  - apply (wf_known s A Hwf).
  - intros x Hx. apply (wf_tb s A Hwf). set_solver.
  - intros x (Hx & ? & ?). apply (wf_found s A Hwf). split; [set_solver|done].
  - intros p bits Hb. destruct (decide (t ∈ map fst (pc p))) as [Hin|Hin].
    + apply elem_of_map in Hin as ([t' n] & Et & Hin). cbn in Et. subst t'.
      unfold page_desc in Hb. cbn in Hb. by rewrite (HDin p n Hin) in Hb.
    + apply (bitmap_kept s); [done|done| |].
      * intros [t' n] Hx Et Hk. cbn in Et. subst t'. apply Hin, elem_of_map. exists (t, n).
        split; [done|]. by apply (proj2 HP).
      * unfold page_desc in *. cbn in Hb. rewrite HDout in Hb; [done|].
        intros n Hn. apply Hin, elem_of_map. by exists (t, n).
  - intros x (Hx & ? & ?). apply (wf_protected s A Hwf). split; [set_solver|done].
  - split; [done|]. intros i v Hv Hv0. cbn in Hv. destruct (Hl i v Hv Hv0) as [Hv' Hne].
    destruct (Hc i v Hv' Hv0) as [Hlv Hi]. split; [|done].
    apply elem_of_difference. split; [done|]. rewrite elem_of_singleton. intros Ev.
    apply Hne; [|done]. rewrite <- Hi, Ev. done.
Qed.

(** ** Unchaining *)

Lemma seg_ext h nxt nxt' a l z : (∀ y, y ∈ l → nxt' y = nxt y) → seg h nxt a l z → seg h nxt' a l z.
Proof.
  revert a. induction l as [|x l IH]; intros a He; cbn [seg]; [done|]. intros [Ha Hs]. split; [done|].
  rewrite He by by left. apply IH; [|done]. intros y Hy. apply He. by right.
Qed.
Lemma last_cell_ext nxt nxt' a l : (∀ y, y ∈ l → nxt' y = nxt y) → last_cell nxt' a l = last_cell nxt a l.
Proof.
  intros He. unfold last_cell. destruct (last l) as [x|] eqn:E; [|done].
  apply He. apply last_Some in E as [l' ->]. apply elem_of_app. right. by left.
Qed.

Lemma find_head_ok u l : ∀ fuel s v, (length l < fuel)%nat → (∀ x, x ∈ l → tag01 x) →
  starts (links s) v l (Some (u, 2)) → find_head fuel v s = Ok u.
Proof.
  induction l as [|[t n] l IH]; intros fuel s v Hf Hl Hv; (destruct fuel as [|fuel]; [cbn in Hf; lia|]);
    cbn [find_head starts] in *; [by rewrite Hv|].
  destruct Hv as [-> Hs]. pose proof (Hl (t, n) ltac:(by left)) as Htag.
  rewrite jmp_step_tag in Hs by done. cbn [fst snd] in Hs.
  replace (n =? 2) with false by (destruct Htag as [E|E]; cbn in E; by rewrite E).
  apply IH; [cbn in Hf; lia|intros x Hx; apply Hl; by right|by apply seg_starts].
Qed.

(** Following a jump to its block and unlinking it from there is the removal
    from the circular list. *)
Lemma reset_unlinks rec s kn js t n u : jump_ok (links s) kn js → js !! (t, n) = Some u → u ∈ kn →
  tb_reset_jump_recursive2 rec t n s =
    (s ← tb_jmp_remove t n s; s ← tb_reset_jump t n s; rec u s).
Proof.
  intros (jc & F & Hm & _) Hu Hk. pose proof (proj2 (Hm u (t, n) Hk) Hu) as Hin.
  apply list_elem_of_split in Hin as (l1 & l2 & E).
  pose proof (λ x, fam_ok F u x Hk) as Htags.
  pose proof (nodup_cells LJmpFirst jmp_step tag01 jmp_step_inj jmp_head_step u _ Htags (fam_nodup F u Hk)) as Hnd.
  pose proof (fam_seg F u Hk) as Hs. pose proof (seg_length jmp_step _ _ _ _ Hnd Hs) as Hlen.
  pose proof (fam_nodup F u Hk) as Hn. rewrite E in Hs, Hlen, Htags, Hn.
  assert (tag01 (t, n)) as Htag by (apply Htags, elem_of_app; right; by left).
  assert (∀ y, y ∈ l1 → jmp_next y = jmp_step y) as Hnx.
  { intros y Hy. rewrite jmp_step_tag; [done|]. apply Htags, elem_of_app. by left. }
  apply seg_app in Hs as [Hs1 Hs2]. rewrite jmp_step_tag in Hs2 by done. cbn [fst snd] in Hs2.
  apply seg_starts in Hs2 as Hst.
  assert (is_Some (links s !! LJmpNext t n)) as [v Hv] by (destruct l2; cbn [starts] in Hst; destruct_and?; by eexists).
  assert (∀ y, y ∈ l1 → (y.2 =? n) && (y.1 =? t) = false) as Hl1.
  { intros [t' m] Hy. cbn. apply andb_false_iff. apply NoDup_app in Hn as (_ & H12 & _).
    destruct (decide (m = n)) as [->|]; [right|left]; apply Z.eqb_neq; [|done].
    intros ->. apply (H12 _ Hy). by left. }
  unfold tb_reset_jump_recursive2, tb_jmp_remove, fuel_of. rewrite Hv.
  rewrite (find_head_ok u l2), bind_ret; [| | |by rewrite <- Hv]; cycle 1.
  { rewrite length_app in Hlen. cbn in Hlen. lia. }
  { intros x Hx. apply Htags, elem_of_app. right. by right. }
  rewrite (find_cell_seg jmp_next (links s) _ _ _ l1 (t, n)); [|by eapply seg_ext|done|by cbn; rewrite !Z.eqb_refl|].
  2: { rewrite length_app in Hlen. lia. }
  assert (find_cell (S (size (links s))) jmp_step (λ x, (x.2 =? n) && (x.1 =? t)) (LJmpNext t n) (links s)
    = Ok (last_cell jmp_step (LJmpFirst u) l1)) as Hround.
  { change (LJmpNext t n) with (LJmpNext (t, n).1 (t, n).2). rewrite <- jmp_step_tag by done.
    apply (fam_find_round LJmpFirst jmp_step (λ u, Some (u, 2)) tag01 (λ u, u ∈ kn) jmp_step_inj
      jmp_head_step (links s) jc u l1 (t, n) l2 (u, 2)); [done..| | |].
    - by cbn; rewrite !Z.eqb_refl.
    - intros [t' m] _ Hne. cbn. apply andb_false_iff.
      destruct (decide (m = n)) as [->|]; [right|left]; apply Z.eqb_neq; congruence.
    - intros Hx. rewrite E in Hx. apply Htags in Hx. by destruct Hx. }
  by rewrite Hround, (last_cell_ext jmp_step), !bind_ret.
Qed.

(** A change of the jumps alone. *)
Definition with_jumps (js : gmap tagged Z) (A : blocks) : blocks := mkBlocks (live A) (known A) js.
Lemma wf_jumps_only s A L J js : tbs_wf s A → agree is_hash (links s) L → agree is_page (links s) L →
  jump_ok L (known A) js →
  (∀ x u, js !! x = Some u →
     tag01 x ∧ x.1 ∈ known A ∧ u ∈ live A ∧ J !! x = Some (tc_ptr (blk (tbs s) u))) →
  (∀ x, tag01 x → x.1 ∈ live A → js !! x = None →
     tb_next_offset x.2 (blk (tbs s) x.1) ≠ 0xffff → J !! x = Some (stub (tbs s) x)) →
  tbs_wf (s <| links := L |> <| jmp_target := J |>) (with_jumps js A).
Proof.
  intros [] Hh Hp Hj Hjs Hstub. split; cbn [with_jumps live known jumps]; try done.
  - by eapply hash_ok_frame.
  - destruct wf_page0 as [pc HP]. exists pc. by eapply page_at_frame.
Qed.

Lemma tb_add_jump_ok s A t n u : tbs_wf s A → tag01 (t, n) → t ∈ known A → u ∈ live A →
  jumps A !! (t, n) = None →
  ∃ s', tb_add_jump t n u s = Ok s' ∧ tbs_wf s' (with_jumps (<[(t, n) := u]> (jumps A)) A) ∧ unchanged s s'.
Proof.
  intros Hwf Htag Ht Hu Hnone. pose proof (wf_live s A Hwf u Hu) as Huk.
  destruct (wf_jump s A Hwf) as (jc & F & Hm & Hn). pose proof (Hn (t, n) Htag Hnone Ht) as H0. cbn in H0.
  unfold tb_add_jump. rewrite H0, (blk_get s u) by (by apply (wf_known s A Hwf)). rewrite bind_ret.
  eexists. split; [reflexivity|]. split; [|by split_and!].
  change (LJmpNext t n) with (LJmpNext (t, n).1 (t, n).2). rewrite <- jmp_step_tag by done.
  apply (wf_jumps_only s A (store (LJmpFirst u) (Some (t, n)) (store (jmp_step (t, n)) (links s !! LJmpFirst u) (links s)))
           (<[(t, n) := tc_ptr (blk (tbs s) u)]> (jmp_target s))); [done|..].
  - rewrite jmp_step_tag by done. eapply agree_trans; apply agree_store; by intros [].
  - rewrite jmp_step_tag by done. eapply agree_trans; apply agree_store; by intros [].
  - assert (∀ k, k ∈ known A → (t, n) ∉ jc k) as Hfresh by (intros k Hk ?%Hm; [congruence|done]).
    exists (upd u ((t, n) :: jc u) jc). split; [|split].
    + by apply (fam_push LJmpFirst jmp_step (λ u, Some (u, 2)) tag01 (λ u, u ∈ known A)); eauto with tbs.
    + intros k x Hk. unfold upd. case_decide as E; [subst k; rewrite elem_of_cons|];
        rewrite Hm, lookup_insert_Some by done; naive_solver.
    + intros x Hx Hj Hk. apply lookup_insert_None in Hj as [Hj Hne].
      rewrite store_ne, store_ne; [by apply Hn| |done]. rewrite <- jmp_step_tag by done.
      intros E. by apply jmp_step_inj in E.
  - intros x v [[<- <-]|[Hne Hx]]%lookup_insert_Some.
    + split_and!; [done..|]. by rewrite lookup_insert_eq.
    + rewrite lookup_insert_ne by done. by apply (wf_jumps s A Hwf).
  - intros x Hx Hl [Hj Hne]%lookup_insert_None Ho. rewrite lookup_insert_ne by done. by apply (wf_stub s A Hwf).
Qed.

(** One jump unlinked. *)
Definition same_lists s s' : Prop :=
  agree is_hash (links s) (links s') ∧ agree is_page (links s) (links s') ∧
  page_descs s' = page_descs s ∧ tb_jmp_cache (stlb s') = tb_jmp_cache (stlb s).

Lemma unlink_ok s A t n u : tbs_wf s A → jumps A !! (t, n) = Some u →
  ∃ s', (s ← tb_jmp_remove t n s; tb_reset_jump t n s) = Ok s' ∧
    tbs_wf s' (with_jumps (delete (t, n) (jumps A)) A) ∧ unchanged s s' ∧ same_lists s s' ∧
    jmp_target s' !! (t, n) = Some (tc_ptr (blk (tbs s) t) + tb_next_offset n (blk (tbs s) t)).
Proof.
  intros Hwf Hu. destruct (wf_jumps s A Hwf _ _ Hu) as (Htag & Ht & Hul & _). cbn in Ht.
  destruct (jump_ok_remove s (known A) (jumps A) t n (wf_jump s A Hwf) Htag Ht) as (L & -> & HJ & Hh & Hp).
  { intros x v Hx. apply (wf_live s A Hwf). by apply (wf_jumps s A Hwf) in Hx as (_ & _ & ? & _). }
  rewrite bind_ret. unfold tb_reset_jump.
  rewrite (blk_get (s <| links := L |>)) by (by apply (wf_known s A Hwf)). rewrite bind_ret.
  eexists. split; [reflexivity|]. split; [|split; [by split_and!|split; [by split_and!|]]].
  - apply (wf_jumps_only s A L (<[(t, n) := _]> (jmp_target s))); [done..| |].
    + intros x v [Hne Hx]%lookup_delete_Some. rewrite lookup_insert_ne by done. by apply (wf_jumps s A Hwf).
    + intros x Hx Hl Hj Ho. destruct (decide (x = (t, n))) as [->|Hne]; [by rewrite lookup_insert_eq|].
      rewrite lookup_delete_ne in Hj by done. rewrite lookup_insert_ne by done. by apply (wf_stub s A Hwf).
  - cbn. by rewrite lookup_insert_eq.
Qed.

Lemma unchanged_refl s : unchanged s s.
Proof. by split_and!. Qed.
Lemma unchanged_trans s1 s2 s3 : unchanged s1 s2 → unchanged s2 s3 → unchanged s1 s3.
Proof. unfold unchanged. intros. destruct_and!. split_and!; congruence. Qed.
Lemma same_lists_refl s : same_lists s s.
Proof. by split_and!. Qed.
Lemma same_lists_trans s1 s2 s3 : same_lists s1 s2 → same_lists s2 s3 → same_lists s1 s3.
Proof.
  intros (? & ? & ? & ?) (? & ? & ? & ?). split_and!; [by eapply agree_trans|by eapply agree_trans|congruence|congruence].
Qed.

(** After unchaining from [t], neither [t] nor any block reached from it by a
    chained jump has a chained jump; the other jumps stay. *)
Definition unchained (t : Z) (js js' : gmap tagged Z) : Prop :=
  js' ⊆ js ∧ js' !! (t, 0) = None ∧ js' !! (t, 1) = None ∧
  ∀ x u, js !! x = Some u → js' !! x = None → js' !! (u, 0) = None ∧ js' !! (u, 1) = None.


Section unchain.
Context (fuel : nat).
Context (IH : ∀ s A t, tbs_wf s A → t ∈ known A → (size (jumps A) < fuel)%nat →
  ∃ s' js', tb_reset_jump_recursive fuel t s = Ok s' ∧ tbs_wf s' (with_jumps js' A) ∧
    unchained t (jumps A) js' ∧ unchanged s s' ∧ same_lists s s').

Lemma recursive2_ok s A t n : tbs_wf s A → t ∈ known A → tag01 (t, n) → (size (jumps A) ≤ fuel)%nat →
  ∃ s' js', tb_reset_jump_recursive2 (tb_reset_jump_recursive fuel) t n s = Ok s' ∧
    tbs_wf s' (with_jumps js' A) ∧ js' ⊆ jumps A ∧ js' !! (t, n) = None ∧
    (∀ x u, jumps A !! x = Some u → js' !! x = None → js' !! (u, 0) = None ∧ js' !! (u, 1) = None) ∧
    unchanged s s' ∧ same_lists s s'.
Proof.
  intros Hwf Ht Htag Hsize. destruct (jumps A !! (t, n)) as [u|] eqn:Eu.
  - destruct (wf_jumps s A Hwf _ _ Eu) as (_ & _ & Hul & _).
    assert (u ∈ known A) as Huk by by apply (wf_live s A Hwf).
    rewrite (reset_unlinks _ s (known A) (jumps A) t n u (wf_jump s A Hwf) Eu Huk).
    destruct (unlink_ok s A t n u Hwf Eu) as (s1 & H1 & Hwf1 & Hun1 & Hsl1 & _).
    destruct (IH s1 _ u Hwf1 Huk) as (s' & js' & H2 & Hwf' & (Hsub & Hu0 & Hu1 & Hcl) & Hun & Hsl).
    { cbn. rewrite map_size_delete_Some by (by eexists).
      assert (size (jumps A) ≠ 0%nat) by (intros E; apply map_size_empty_inv in E; by rewrite E in Eu). lia. }
    cbn [with_jumps jumps live known] in *.
    exists s', js'. split.
    { apply bind_Ok in H1 as (s0 & -> & H1). rewrite bind_ret, H1, bind_ret. exact H2. }
    split; [done|]. split; [etransitivity; [exact Hsub|apply delete_subseteq]|]. split.
    { eapply lookup_weaken_None; [|exact Hsub]. apply lookup_delete_eq. }
    split; [|split; [by eapply unchanged_trans|by eapply same_lists_trans]].
    intros x v Hx Hx'. destruct (decide (x = (t, n))) as [->|Hne].
    + rewrite Eu in Hx. injection Hx as <-. done.
    + apply (Hcl x); [by rewrite lookup_delete_ne|done].
  - exists s, (jumps A). unfold tb_reset_jump_recursive2.
    destruct (wf_jump s A Hwf) as (jc & F & Hm & Hn). pose proof (Hn (t, n) Htag Eu Ht) as H0. cbn in H0.
    rewrite H0. split; [done|]. split; [by destruct A|]. split; [done|]. split; [done|].
    split; [intros x u Hx Hx'; congruence|]. split; [apply unchanged_refl|apply same_lists_refl].
Qed.
End unchain.

Lemma reset_jump_recursive_ok fuel : ∀ s A t, tbs_wf s A → t ∈ known A → (size (jumps A) < fuel)%nat →
  ∃ s' js', tb_reset_jump_recursive fuel t s = Ok s' ∧ tbs_wf s' (with_jumps js' A) ∧
    unchained t (jumps A) js' ∧ unchanged s s' ∧ same_lists s s'.
Proof.
  induction fuel as [|fuel IH]; intros s A t Hwf Ht Hsize; [lia|]. cbn [tb_reset_jump_recursive].
  destruct (recursive2_ok fuel IH s A t 0 Hwf Ht ltac:(by left) ltac:(lia))
    as (s1 & js1 & H1 & Hwf1 & Hsub1 & H10 & Hcl1 & Hun1 & Hsl1).
  rewrite H1, bind_ret.
  destruct (recursive2_ok fuel IH s1 _ t 1 Hwf1 Ht ltac:(by right))
    as (s2 & js2 & H2 & Hwf2 & Hsub2 & H21 & Hcl2 & Hun2 & Hsl2).
  { cbn. apply map_subseteq_size in Hsub1. lia. }
  cbn [with_jumps jumps] in *. exists s2, js2. split; [done|]. split; [done|].
  split; [|split; [by eapply unchanged_trans|by eapply same_lists_trans]].
  split; [by etransitivity|]. split; [by eapply lookup_weaken_None|]. split; [done|].
  intros x u Hx Hx'. destruct (js1 !! x) as [u'|] eqn:E1.
  - apply (Hcl2 x); [|done]. rewrite E1. pose proof (lookup_weaken _ _ _ _ E1 Hsub1). congruence.
  - destruct (Hcl1 x u Hx E1). split; by eapply lookup_weaken_None.
Qed.

(** A chained jump has a pointer, so there are no more of them than pointers. *)
Lemma jump_link L kn js x u : jump_ok L kn js → js !! x = Some u → u ∈ kn → is_Some (L !! LJmpNext x.1 x.2).
Proof.
  intros (jc & F & Hm & _) Hx Hu. apply Hm in Hx; [|done].
  pose proof (fam_ok F u x Hu Hx) as Htag.
  apply list_elem_of_split in Hx as (l1 & l2 & E). pose proof (fam_seg F u Hu) as Hs. rewrite E in Hs.
  apply seg_app in Hs as [_ Hs]. rewrite jmp_step_tag in Hs by done. apply seg_starts in Hs.
  destruct l2; cbn [starts] in Hs; destruct_and?; by eexists.
Qed.
Lemma jumps_fuel s A : tbs_wf s A → (size (jumps A) < fuel_of s)%nat.
Proof.
  intros Hwf. unfold fuel_of. apply Nat.lt_succ_r.
  rewrite <- (size_dom (D := gset tagged)). pose proof (size_dom (D := gset loc) (links s)) as Hd.
  set (f := λ x : tagged, LJmpNext x.1 x.2).
  assert (NoDup (f <$> elements (dom (jumps A)))) as Hn.
  { apply NoDup_fmap; [|apply NoDup_elements]. intros [] [] [= -> ->]. done. }
  assert (size (list_to_set (f <$> elements (dom (jumps A))) : gset loc) ≤ size (dom (links s) : gset loc))%nat as Hle.
  { apply subseteq_size. intros c (x & -> & Hx)%elem_of_list_to_set%elem_of_map.
    apply elem_of_elements, elem_of_dom in Hx as [u Hx].
    destruct (wf_jumps s A Hwf x u Hx) as (_ & _ & Hu & _).
    apply elem_of_dom. eapply jump_link; [apply (wf_jump s A Hwf)|done|by apply (wf_live s A Hwf)]. }
  rewrite size_list_to_set, length_fmap in Hle by done. unfold heap in *.
  change (size (dom (jumps A))) with (length (elements (dom (jumps A)))). lia.
Qed.

(** [current_tb] is a block whose jump fields are set up, or null. *)
Definition current_ok s (A : blocks) : Prop :=
  current_tb (stlb s) ≠ 0 → current_tb (stlb s) - 1 ∈ known A.

Lemma cpu_unlink_tb_ok s A : tbs_wf s A → current_ok s A →
  ∃ s' js', cpu_unlink_tb s = Ok s' ∧ tbs_wf s' (with_jumps js' A) ∧ same_lists s s' ∧
    js' ⊆ jumps A ∧
    (current_tb (stlb s) ≠ 0 → unchained (current_tb (stlb s) - 1) (jumps A) js') ∧
    current_tb (stlb s') = 0 ∧ tbs s' = tbs s ∧ nb_tbs s' = nb_tbs s ∧ l1_map s' = l1_map s ∧
    request s' = request s ∧ cpu_single_env s' = cpu_single_env s ∧ guest_ram s' = guest_ram s ∧
    code_gen_ptr s' = code_gen_ptr s ∧ tlb_table (stlb s') = tlb_table (stlb s) ∧ gen_bounds s' = gen_bounds s.
Proof.
  intros Hwf Hc. unfold cpu_unlink_tb, truth. destruct (Z.eqb_spec (current_tb (stlb s)) 0) as [E|E]; cbn [negb].
  - exists s, (jumps A). split; [done|]. split; [by destruct A|]. split; [apply same_lists_refl|]. by split_and!.
  - set (s1 := s <| stlb := _ |>).
    assert (tbs_wf s1 A) as Hwf1 by (destruct Hwf; by split).
    destruct (reset_jump_recursive_ok (fuel_of s1) s1 A (current_tb (stlb s) - 1) Hwf1 (Hc E) (jumps_fuel s1 A Hwf1))
      as (s' & js' & H1 & Hwf' & Hun & (? & ? & ? & ? & ? & ? & ? & ? & ? & ?) & Hsl).
    exists s', js'. split; [done|]. split; [done|]. split; [done|]. split; [apply Hun|]. by split_and!.
Qed.
