(* ===== verification/TbSmc.v ===== *)
(** * Code that is modified

    The bitmap of the code on a page, the invalidation of the blocks that a
    range of bytes meets, and the fast path of a store. *)
From Stdlib Require Import ZifyBool.
From S2P Require Import Prelude SoftTlb ArmModeFacts PhysMem PhysMemFacts TbLists TransBlocks TransBlocksFacts.

Ltac dlia := Z.to_euclidean_division_equations; lia.

(** ** Setting bits *)
Lemma land_7 o : o .& 7 = o mod 8.
Proof. change 7 with (Z.ones 3). by rewrite Z.land_ones. Qed.
Lemma shiftr_3 o : o >> 3 = o / 8.
Proof. by rewrite Z.shiftr_div_pow2. Qed.
Lemma land_not_7 o : o .& Z.lnot 7 = 8 * (o / 8).
Proof.
  change 7 with (Z.ones 3). rewrite <- Z.ldiff_land, Z.ldiff_ones_r, Z.shiftr_div_pow2, Z.shiftl_mul_pow2 by lia.
  change (2 ^ 3) with 8. lia.
Qed.
Lemma testbit_ff s k : 0 ≤ s → 0 ≤ k < 8 → Z.testbit (0xff << s) k = (s <=? k).
Proof.
  intros Hs Hk. rewrite Z.shiftl_spec by lia. change 0xff with (Z.ones 8).
  destruct (Z.leb_spec s k); [rewrite Z.testbit_ones_nonneg by lia; apply Z.ltb_lt; lia|].
  apply Z.testbit_neg_r. lia.
Qed.
Lemma testbit_not_ff s k : 0 ≤ s → 0 ≤ k < 8 → Z.testbit (Z.lnot (0xff << s)) k = (k <? s).
Proof.
  intros Hs Hk. rewrite Z.lnot_spec, testbit_ff by lia. by rewrite Z.ltb_antisym.
Qed.
Lemma bitmap_bit_div bits o : bitmap_bit bits o = Z.testbit (default 0 (zlookup bits (o / 8))) (o mod 8).
Proof. unfold bitmap_bit. by rewrite land_7, shiftr_3. Qed.

Lemma or_byte_ok tab i mask : 0 ≤ i < zlength tab →
  ∃ tab', or_byte i mask tab = Ok tab' ∧ zlength tab' = zlength tab ∧
    ∀ o, bitmap_bit tab' o = bitmap_bit tab o || ((o / 8 =? i) && Z.testbit mask (o mod 8)).
Proof.
  intros Hi. destruct (zlookup_in_range _ _ Hi) as [b Hb]. unfold or_byte.
  rewrite (aget_Ok _ _ _ Hb), bind_ret, aput_Ok by done. eexists. split; [done|].
  split; [apply zlength_zinsert|]. intros o. rewrite !bitmap_bit_div, zlookup_zinsert_dec by done.
  pose proof (Z.mod_pos_bound o 8 ltac:(lia)). destruct (Z.eqb_spec (o / 8) i) as [<-|Hne].
  - rewrite decide_True, Hb by done. cbn. unfold u8. by rewrite Z.mod_pow2_bits_low, Z.lor_spec by lia.
  - rewrite decide_False by done. cbn. by rewrite orb_false_r.
Qed.

Lemma fill_bytes_ok n : ∀ i tab, 0 ≤ i → i + Z.of_nat n ≤ zlength tab →
  ∃ tab', fill_bytes n i tab = Ok tab' ∧ zlength tab' = zlength tab ∧
    ∀ o, bitmap_bit tab' o = bitmap_bit tab o || ((i <=? o / 8) && (o / 8 <? i + Z.of_nat n)).
Proof.
  induction n as [|n IH]; intros i tab Hi Hn; cbn [fill_bytes].
  - exists tab. split; [done|]. split; [done|]. intros o.
    lia.
  - rewrite aput_Ok, bind_ret by lia.
    destruct (IH (i + 1) (zinsert i 0xff tab)) as (tab' & -> & Hl & Hb); [lia|rewrite zlength_zinsert; lia|].
    rewrite zlength_zinsert in Hl. exists tab'. split; [done|]. split; [done|]. intros o.
    rewrite Hb, !bitmap_bit_div, zlookup_zinsert_dec by lia.
    pose proof (Z.mod_pos_bound o 8 ltac:(lia)). case_decide as E.
    + subst i. cbn [default from_option id]. change 0xff with (Z.ones 8). rewrite Z.testbit_ones_nonneg by lia.
      rewrite (proj2 (Z.ltb_lt _ _)) by lia. symmetry. cbn [orb]. apply orb_true_iff. right. lia.
    + f_equal. lia.
Qed.

(** [set_bits] sets the bits of its range and no other. *)
Lemma set_bits_ok tab start len : 0 ≤ start → 0 ≤ len → start + len ≤ 8 * zlength tab →
  ∃ tab', set_bits tab start len = Ok tab' ∧ zlength tab' = zlength tab ∧
    ∀ o, bitmap_bit tab' o = bitmap_bit tab o || ((start <=? o) && (o <? start + len)).
Proof.
  intros Hs Hl Hb. unfold set_bits. rewrite !land_not_7, !land_7, shiftr_3.
  set (stop := start + len) in *.
  destruct (Z.eqb_spec (8 * (start / 8)) (8 * (stop / 8))) as [E|E].
  - destruct (Z.ltb_spec start stop) as [Hlt|Hge].
    + destruct (or_byte_ok tab (start / 8) ((0xff << (start mod 8)) .& Z.lnot (0xff << (stop mod 8))))
        as (tab' & -> & Hl' & Hb'); [dlia|].
      exists tab'. split; [done|]. split; [done|]. intros o. rewrite Hb'. f_equal.
      rewrite Z.land_spec, testbit_ff, testbit_not_ff by dlia. dlia.
    + exists tab. split; [done|]. split; [done|]. intros o.
      dlia.
  - destruct (or_byte_ok tab (start / 8) (0xff << (start mod 8))) as (t1 & -> & Hl1 & Hb1); [dlia|].
    rewrite bind_ret. replace (8 * ((start + 8) / 8)) with (8 * (start / 8 + 1)) by dlia.
    replace ((8 * (stop / 8) - 8 * (start / 8 + 1)) / 8) with (stop / 8 - (start / 8 + 1))
      by (replace (8 * (stop / 8) - 8 * (start / 8 + 1)) with ((stop / 8 - (start / 8 + 1)) * 8) by lia;
          by rewrite Z.div_mul).
    destruct (fill_bytes_ok (Z.to_nat (stop / 8 - (start / 8 + 1))) (start / 8 + 1) t1)
      as (t2 & -> & Hl2 & Hb2); [dlia..|]. rewrite bind_ret, Z.max_r, Z.max_r by dlia.
    destruct (Z.ltb_spec (8 * (stop / 8)) stop) as [Hlt|Hge].
    + destruct (or_byte_ok t2 (start / 8 + 1 + (stop / 8 - (start / 8 + 1))) (Z.lnot (0xff << (stop mod 8))))
        as (t3 & -> & Hl3 & Hb3); [dlia|].
      exists t3. split; [done|]. split; [congruence|]. intros o. rewrite Hb3, Hb2, Hb1.
      rewrite testbit_ff, testbit_not_ff by dlia. dlia.
    + exists t2. split; [done|]. split; [congruence|]. intros o. rewrite Hb2, Hb1.
      rewrite testbit_ff by dlia. dlia.
Qed.

(** ** The bitmap of a page *)

(** What a block covers of a page that it is on. *)
Lemma tb_range_ok t n : tb_ok t → tag01 (0, n) → page_addr n t ≠ no_addr →
  0 ≤ (tb_range n t).1 < TARGET_PAGE_SIZE ∧ (tb_range n t).1 < (tb_range n t).2 ∧
  (n = 1 → (tb_range n t).2 < TARGET_PAGE_SIZE) ∧ (tb_range n t).2 < 2 * TARGET_PAGE_SIZE.
Proof.
  intros [Hpc Hsz _ H1 _] Hn Hp. unfold tb_range. rewrite !page_flags_mod in *. unfold TARGET_PAGE_SIZE in *.
  destruct Hn as [E|E]; cbn in E; subst n; cbn [fst snd Z.eqb].
  - dlia.
  - destruct (Z.leb_spec (tb_pc t mod 1024 + tb_size t) 1024) as [Hle|Hgt]; [done|]. dlia.
Qed.

Lemma bitmap_loop_ok s l : ∀ fuel a bits, (length l < fuel)%nat → seg (links s) page_next a l None →
  zlength bits = TARGET_PAGE_SIZE / 8 →
  (∀ x, x ∈ l → is_Some (tbs s !! x.1) ∧ tag01 x ∧ tb_ok (blk (tbs s) x.1) ∧
                page_addr x.2 (blk (tbs s) x.1) ≠ no_addr) →
  ∃ bits', bitmap_loop fuel (links s !! a) bits s = Ok bits' ∧ zlength bits' = TARGET_PAGE_SIZE / 8 ∧
    ∀ o, 0 ≤ o < TARGET_PAGE_SIZE →
      bitmap_bit bits' o = true ↔ bitmap_bit bits o = true ∨ ∃ x, x ∈ l ∧ covers x.2 o (blk (tbs s) x.1).
Proof.
  induction l as [|x l IH]; intros fuel a bits Hf Hs Hz Hl; (destruct fuel as [|fuel]; [cbn in Hf; lia|]);
    cbn [bitmap_loop seg] in *.
  - rewrite Hs. exists bits. split; [done|]. split; [done|]. intros o _. set_solver.
  - destruct Hs as [-> Hs]. destruct (Hl x ltac:(by left)) as (HT & Htag & Hok & Hp).
    rewrite blk_get, bind_ret by done. set (t := blk (tbs s) x.1) in *.
    destruct (tb_range_ok t x.2 Hok Htag Hp) as (Hlo & Hhi & _).
    unfold covers in *. destruct (tb_range x.2 t) as [lo hi] eqn:Er. cbn [fst snd] in *.
    set (hi' := if hi >? TARGET_PAGE_SIZE then TARGET_PAGE_SIZE else hi).
    assert (hi' = Z.min hi TARGET_PAGE_SIZE) as Hhi' by (unfold hi'; destruct (Z.gtb_spec hi TARGET_PAGE_SIZE); lia).
    unfold TARGET_PAGE_SIZE in *.
    destruct (set_bits_ok bits lo (hi' - lo)) as (b1 & -> & Hz1 & Hb1); [lia..| |].
    { rewrite Hz. change (1024 / 8) with 128. lia. }
    rewrite bind_ret. destruct (IH fuel (page_next x) b1) as (b2 & -> & Hz2 & Hb2);
      [cbn in Hf; lia|done|congruence|intros y Hy; apply Hl; by right|].
    exists b2. split; [done|]. split; [done|]. intros o Ho. rewrite Hb2, Hb1 by done.
    rewrite orb_true_iff, andb_true_iff, Z.leb_le, Z.ltb_lt.
    setoid_rewrite elem_of_cons. split.
    + intros [[?|?]|(y & ? & ?)]; [by left|right; exists x|right; exists y]; [|by eauto].
      split; [by left|]. fold t. rewrite Er. cbn. lia.
    + intros [?|(y & [-> |?] & Hy)]; [by left; left| |right; by exists y].
      left; right. fold t in Hy. rewrite Er in Hy. cbn in Hy. lia.
Qed.

Lemma page_entries s A pc p x : tbs_wf s A → page_at (tbs s) (links s) (entry (tbs s) (live A)) pc → x ∈ pc p →
  is_Some (tbs s !! x.1) ∧ tag01 x ∧ tb_ok (blk (tbs s) x.1) ∧ page_addr x.2 (blk (tbs s) x.1) ≠ no_addr.
Proof.
  intros Hwf [_ Hm] Hx. apply Hm in Hx as [(Hl & Htag & Hne) _]. split; [|split; [done|split; [|done]]].
  - by apply (wf_known s A Hwf), (wf_live s A Hwf).
  - by apply (wf_tb s A Hwf).
Qed.
Lemma page_fuel s E pc p : page_at (tbs s) (links s) E pc → (length (pc p) < fuel_of s)%nat.
Proof.
  intros [F _]. apply (seg_length page_next (links s) (LPage p) (pc p) None); [|by apply (fam_seg F)].
  apply (nodup_cells LPage page_next tag01 page_next_inj page_head_next); [|by apply (fam_nodup F)].
  intros x. by apply (fam_ok F p).
Qed.
Lemma page_head s E pc p : page_at (tbs s) (links s) E pc → links s !! LPage p = head (pc p).
Proof. intros [F _]. apply (seg_head page_next). by apply (fam_seg F). Qed.

(** The descriptor of a page changed. *)
Lemma page_desc_set p d s q : page_desc q (set_page_desc p d s) = if decide (q = p) then d else page_desc q s.
Proof. unfold page_desc, set_page_desc. cbn. case_decide; [subst; by rewrite lookup_insert_eq|by rewrite lookup_insert_ne]. Qed.
Lemma wf_set_page_desc s A p d : tbs_wf s A →
  (∀ bits, code_bitmap d = Some bits →
    zlength bits = TARGET_PAGE_SIZE / 8 ∧
    (∃ x, entry (tbs s) (live A) x ∧ page_key x.2 (blk (tbs s) x.1) = p) ∧
    ∀ x o, entry (tbs s) (live A) x → page_key x.2 (blk (tbs s) x.1) = p →
      0 ≤ o < TARGET_PAGE_SIZE → covers x.2 o (blk (tbs s) x.1) → bitmap_bit bits o = true) →
  tbs_wf (set_page_desc p d s) A.
Proof.
  intros Hwf Hd. pose proof (wf_bitmap s A Hwf) as Hbm. destruct Hwf. split; try done.
  intros q bits. rewrite page_desc_set. case_decide as E; [subst q; apply Hd|apply Hbm].
Qed.

(** The bitmap built marks exactly the bytes that blocks cover. *)
Lemma build_page_bitmap_ok s A pc p : tbs_wf s A → page_at (tbs s) (links s) (entry (tbs s) (live A)) pc →
  ∃ bits, build_page_bitmap p s = Ok (set_page_desc p (mkPageDesc (code_write_count (page_desc p s)) (Some bits)) s) ∧
    zlength bits = TARGET_PAGE_SIZE / 8 ∧
    ∀ o, 0 ≤ o < TARGET_PAGE_SIZE →
      bitmap_bit bits o = true ↔ ∃ x, x ∈ pc p ∧ covers x.2 o (blk (tbs s) x.1).
Proof.
  intros Hwf HP. unfold build_page_bitmap. pose proof HP as [F _].
  destruct (bitmap_loop_ok s (pc p) (fuel_of s) (LPage p) (replicate (Z.to_nat (TARGET_PAGE_SIZE / 8)) 0))
    as (bits & -> & Hz & Hb).
  - by eapply page_fuel.
  - by apply (fam_seg F).
  - done.
  - intros x. by apply (page_entries s A).
  - exists bits. split; [done|]. split; [done|]. intros o Ho. rewrite Hb by done. split; [|by right].
    intros [E|E]; [|done]. exfalso. rewrite bitmap_bit_div in E. unfold TARGET_PAGE_SIZE in *.
    assert (∀ i v, zlookup (replicate (Z.to_nat (1024 / 8)) 0) i = Some v → v = 0) as Hr.
    { intros i v Hv. apply zlookup_elem in Hv. by apply elem_of_replicate in Hv as [? _]. }
    destruct (zlookup _ _) as [v|] eqn:Ev; [apply Hr in Ev as ->|]; cbn in E; by rewrite Z.testbit_0_l in E.
Qed.

(** Counting a write may build the bitmap; on a page with blocks that keeps the
    state well formed. *)
Lemma count_write_ok s A pc p w : tbs_wf s A → page_at (tbs s) (links s) (entry (tbs s) (live A)) pc →
  ∃ d, count_write p w s = Ok (set_page_desc p d s) ∧ (pc p ≠ [] → tbs_wf (set_page_desc p d s) A).
Proof.
  intros Hwf HP. pose proof HP as [_ Hm]. unfold count_write.
  destruct (code_bitmap (page_desc p s)) as [bits|] eqn:Ebits.
  - exists (page_desc p s). assert (set_page_desc p (page_desc p s) s = s) as ->; [|done].
    unfold set_page_desc. rewrite insert_id; [by destruct s|].
    unfold page_desc in *. destruct (page_descs s !! p); [done|discriminate].
  - set (d := mkPageDesc (u32 (code_write_count (page_desc p s) + 1)) None).
    assert (tbs_wf (set_page_desc p d s) A) as Hwf1 by by apply wf_set_page_desc.
    destruct (_ && w); [|by exists d].
    destruct (build_page_bitmap_ok (set_page_desc p d s) A pc p Hwf1 HP) as (bits & -> & Hz & Hb).
    rewrite page_desc_set, decide_True by done. cbn [code_write_count d].
    exists (mkPageDesc (code_write_count d) (Some bits)). split.
    { unfold set_page_desc. cbn. by rewrite insert_insert_eq. }
    intros Hne. apply wf_set_page_desc; [done|]. intros ? [= <-]. split; [done|]. split.
    + destruct (pc p) as [|x l] eqn:E; [done|]. exists x. apply Hm. rewrite E. by left.
    + intros x o Hx Hk Ho Hc. apply Hb; [done|]. exists x. split; [by apply Hm|done].
Qed.

(** ** Invalidating a list of blocks *)

(** The blocks [D] invalidated, and perhaps more jumps unlinked. *)
Record shrunk (D : gset Z) (quiet : Prop) (A A' : blocks) : Prop := {
  sh_live : live A' = live A ∖ D;
  sh_known : known A' = known A;
  sh_jumps : ∀ x u, jumps A' !! x = Some u → jumps A !! x = Some u ∧ x.1 ∉ D ∧ u ∉ D;
  sh_kept : quiet → ∀ x u, jumps A !! x = Some u → x.1 ∉ D → u ∉ D → jumps A' !! x = Some u
}.
Lemma shrunk_refl q A : shrunk ∅ q A A.
Proof. split; [by rewrite difference_empty_L|done|set_solver|done]. Qed.
Lemma shrunk_trans D1 D2 q A1 A2 A3 : shrunk D1 q A1 A2 → shrunk D2 q A2 A3 → shrunk (D1 ∪ D2) q A1 A3.
Proof.
  intros [L1 K1 J1 P1] [L2 K2 J2 P2]. split.
  - rewrite L2, L1. set_solver.
  - congruence.
  - intros x u Hx. apply J2 in Hx as (Hx & ? & ?). apply J1 in Hx as (? & ? & ?). set_solver.
  - intros Hq x u Hx ? ?. apply P2; [done|apply P1; [done..| |]| |]; set_solver.
Qed.
Lemma invalidate_shrunk q t A : shrunk {[t]} q A (invalidate t A).
Proof.
  split; [done|done| |].
  - intros x u. cbn. rewrite map_lookup_filter_Some. set_solver.
  - intros _ x u ? ? ?. cbn. apply map_lookup_filter_Some. set_solver.
Qed.
Lemma with_jumps_shrunk (q : Prop) js A : js ⊆ jumps A → (q → js = jumps A) → shrunk ∅ q A (with_jumps js A).
Proof.
  intros Hs Hq. split; [cbn; by rewrite difference_empty_L|done| |].
  - intros x u Hx. split; [by eapply lookup_weaken|set_solver].
  - intros HQ x u Hx _ _. cbn. by rewrite Hq.
Qed.

(** The fields that a range invalidation leaves as they are. *)
Definition stays s s' : Prop :=
  tbs s' = tbs s ∧ nb_tbs s' = nb_tbs s ∧ l1_map s' = l1_map s ∧ request s' = request s ∧
  cpu_single_env s' = cpu_single_env s ∧ guest_ram s' = guest_ram s ∧
  code_gen_ptr s' = code_gen_ptr s ∧ tlb_table (stlb s') = tlb_table (stlb s) ∧ gen_bounds s' = gen_bounds s.
Lemma stays_refl s : stays s s.
Proof. by split_and!. Qed.
Lemma stays_trans s1 s2 s3 : stays s1 s2 → stays s2 s3 → stays s1 s3.
Proof. unfold stays. intros. destruct_and!. split_and!; congruence. Qed.

Lemma check_interrupt_ok s A : tbs_wf s A → current_ok s A →
  ∃ s' A', check_interrupt s = Ok s' ∧ tbs_wf s' A' ∧ current_ok s' A' ∧ shrunk ∅ (request s = 0) A A' ∧
    same_lists s s' ∧ stays s s'.
Proof.
  intros Hwf Hc. unfold check_interrupt, truth.
  destruct (Z.eqb_spec (request s) 0) as [E|E]; cbn [negb];
    [rewrite andb_false_r|destruct (cpu_single_env s) eqn:Ee; cbn [andb]; [destruct (Z.eqb_spec (current_tb (stlb s)) 0); cbn [negb]|]].
  1, 2, 4: by exists s, A; split_and!; [done..|apply shrunk_refl|apply same_lists_refl|apply stays_refl].
  unfold cpu_interrupt_tb. set (s1 := s <| request := _ |>).
  assert (tbs_wf s1 A) as Hwf1 by (destruct Hwf; by split).
  destruct (cpu_unlink_tb_ok s1 A Hwf1 Hc) as
    (s' & js' & -> & Hwf' & Hsl & Hsub & _ & Hcur & ? & ? & ? & Hreq & ? & ? & ? & ? & ?).
  exists s', (with_jumps js' A). split; [done|]. split; [done|]. split; [by intros ?|].
  split; [by apply with_jumps_shrunk|]. split; [done|]. split_and!; try done.
  rewrite Hreq. cbn. apply Z.lor_diag.
Qed.

(** One block on a page list. *)
Lemma list_unique s A pc p x y : tbs_wf s A → page_at (tbs s) (links s) (entry (tbs s) (live A)) pc →
  x ∈ pc p → y ∈ pc p → x.1 = y.1 → x = y.
Proof.
  intros Hwf [_ Hm] Hx Hy E. apply Hm in Hx as [(Hlx & Tx & Px) Kx]. apply Hm in Hy as [(Hly & Ty & Py) Ky].
  destruct x as [t n], y as [t' m]. cbn [fst snd] in *. subst t'. f_equal.
  pose proof (wf_tb s A Hwf t Hlx) as Hok.
  destruct Tx as [E|E], Ty as [E'|E']; cbn in E, E'; subst n m; [done|exfalso..|done];
    eapply key_distinct; eauto; congruence.
Qed.

Section range.
Context (start stop : Z) (p : Z).
(** The blocks on page [p] that the range meets. *)
Definition meets (B : gmap Z TranslationBlock) (x : tagged) : bool := tb_overlaps start stop x.2 (blk B x.1).
Definition met (B : gmap Z TranslationBlock) (l : list tagged) : gset Z :=
  list_to_set (map fst (filter (λ x, meets B x = true) l)).

Lemma elem_of_met B l t : t ∈ met B l ↔ ∃ x, x.1 = t ∧ x ∈ l ∧ meets B x = true.
Proof.
  unfold met. rewrite elem_of_list_to_set, elem_of_map. setoid_rewrite list_elem_of_filter.
  split; intros (x & ? & ?); exists x; naive_solver.
Qed.

Lemma met_cons B x l : met B (x :: l) = (if meets B x then {[x.1]} else ∅) ∪ met B l.
Proof.
  apply set_eq. intros t. rewrite elem_of_union, !elem_of_met. setoid_rewrite elem_of_cons.
  destruct (meets B x) eqn:E; [rewrite elem_of_singleton|rewrite elem_of_empty]; naive_solver congruence.
Qed.

Lemma invalidate_loop_ok todo : ∀ fuel s A pc kept, tbs_wf s A → current_ok s A →
  page_at (tbs s) (links s) (entry (tbs s) (live A)) pc → pc p = kept ++ todo → (length todo < fuel)%nat →
  ∃ s' A' pc', invalidate_loop fuel (head todo) start stop s = Ok s' ∧ tbs_wf s' A' ∧ current_ok s' A' ∧
    page_at (tbs s') (links s') (entry (tbs s') (live A')) pc' ∧
    shrunk (met (tbs s) todo) (request s = 0) A A' ∧ stays s s' ∧
    pc' p = kept ++ filter (λ x, meets (tbs s) x = false) todo.
Proof.
  induction todo as [|x todo IH]; intros fuel s A pc kept Hwf Hc HP E Hf;
    (destruct fuel as [|fuel]; [cbn in Hf; lia|]); cbn [invalidate_loop head].
  { exists s, A, pc. split_and!; try done; [apply shrunk_refl]. }
  assert (x ∈ pc p) as Hx by (rewrite E, elem_of_app; right; by left).
  pose proof (page_entries s A pc p x Hwf HP Hx) as (HT & Htag & _).
  rewrite blk_get, bind_ret by done. fold (meets (tbs s) x).
  pose proof HP as [F Hm]. pose proof (fam_seg F p I) as Hs. rewrite E in Hs.
  apply seg_app in Hs as [_ Hs]. apply seg_head in Hs as ->.
  rewrite met_cons.
  destruct (meets (tbs s) x) eqn:Emeets.
  - assert (x.1 ∈ live A) as Hlive by by apply Hm in Hx as [[? _] _].
    destruct (tb_phys_invalidate_ok s A x.1 pc Hwf Hlive HP) as (s1 & -> & Hwf1 & Hun1 & HP1 & _).
    destruct Hun1 as (Et1 & ? & ? & Er1 & ? & ? & ? & Hcur1 & ? & ?). rewrite bind_ret.
    destruct (check_interrupt_ok s1 (invalidate x.1 A) Hwf1) as (s2 & A2 & -> & Hwf2 & Hc2 & Hsh2 & (_ & Hp2 & _) & Hst2).
    { intros Hn. cbn. rewrite Hcur1 in *. by apply Hc. }
    rewrite bind_ret. assert (stays s s2) as Hst by (eapply stays_trans; [by split_and!|exact Hst2]).
    pose proof Hst as (Et2 & _ & _ & Er2 & _).
    destruct (IH fuel s2 A2 (λ q, drop_block x.1 (pc q)) kept Hwf2 Hc2) as (s' & A' & pc' & -> & ? & ? & ? & Hsh & Hst' & Hpc).
    + rewrite Et2, <- Et1. rewrite (sh_live _ _ _ _ Hsh2), difference_empty_L.
      eapply page_at_frame; [exact Hp2|done].
    + assert (∀ y, y ∈ kept ++ todo → y.1 ≠ x.1) as Hne.
      { intros y Hy Ey. assert (y ∈ pc p) as Hyp by (rewrite E; set_solver).
        rewrite (list_unique s A pc p y x Hwf HP Hyp Hx Ey) in Hy.
        pose proof (fam_nodup F p I) as Hn. rewrite E in Hn.
        apply NoDup_app in Hn as (_ & H12 & [? _]%NoDup_cons). apply elem_of_app in Hy as [Hy|Hy]; [|done].
        apply (H12 _ Hy). by left. }
      rewrite E. unfold drop_block. rewrite filter_app, filter_cons_False by (by intros []).
      rewrite <- filter_app. by apply list_filter_id.
    + cbn in Hf. lia.
    + exists s', A', pc'. rewrite Et2 in *. rewrite Er2 in Hsh. split_and!; try done.
      * eapply shrunk_trans; [apply invalidate_shrunk|].
        rewrite <- (union_empty_l_L (met _ _)). eapply shrunk_trans; [|exact Hsh]. by rewrite <- Er1.
      * by eapply stays_trans.
      * rewrite Hpc. rewrite filter_cons_False; [done|]. by rewrite Emeets.
  - rewrite bind_ret, union_empty_l_L.
    destruct (IH fuel s A pc (kept ++ [x]) Hwf Hc HP) as (s' & A' & pc' & -> & ? & ? & ? & Hsh & Hst & Hpc).
    + by rewrite <- app_assoc.
    + cbn in Hf. lia.
    + exists s', A', pc'. split_and!; try done.
      rewrite Hpc, <- app_assoc. by rewrite filter_cons_True.
Qed.
End range.

(** ** A range of a page *)

(** The byte at physical address [a] is code of block [t]. *)
Definition code_at (B : gmap Z TranslationBlock) (t a : Z) : Prop :=
  ∃ n, tag01 (t, n) ∧ page_addr n (blk B t) ≠ no_addr ∧ page_key n (blk B t) = a >> TARGET_PAGE_BITS ∧
       covers n (page_flags a) (blk B t).

Lemma shiftr_page a : a >> TARGET_PAGE_BITS = a / 1024.
Proof. unfold TARGET_PAGE_BITS. by rewrite Z.shiftr_div_pow2. Qed.
Lemma entry_page t n : tb_ok t → tag01 (0, n) → page_addr n t ≠ no_addr → ram_page (page_addr n t).
Proof.
  intros Hok [E|E] Hne; cbn in E; subst n; [apply (ok_page0 t Hok)|by apply second_page].
Qed.

(** The comparison of addresses is the overlap of the block's bytes on the page
    with the range. *)
Lemma overlaps_iff start stop n t : tb_ok t → tag01 (0, n) → page_addr n t ≠ no_addr →
  start < stop → page_key n t = start >> TARGET_PAGE_BITS → (stop - 1) >> TARGET_PAGE_BITS = start >> TARGET_PAGE_BITS →
  tb_overlaps start stop n t = true ↔
  ∃ a, start ≤ a < stop ∧ page_key n t = a >> TARGET_PAGE_BITS ∧ covers n (page_flags a) t.
Proof.
  intros Hok Htag Hne Hlt Hk Hsame. pose proof (tb_range_ok t n Hok Htag Hne) as (Hlo & Hhi & _ & Hhi2).
  pose proof (entry_page t n Hok Htag Hne) as Hram. pose proof (ram_page_key _ Hram) as [Hp _].
  destruct Hram as [Hb _]. unfold page_key in *. rewrite !shiftr_page in *.
  setoid_rewrite shiftr_page. unfold tb_overlaps, covers, TARGET_PAGE_SIZE in *.
  destruct (tb_range n t) as [lo hi]. cbn [fst snd] in *. setoid_rewrite page_flags_mod.
  rewrite !u32_small by (unfold is_u32; lia).
  rewrite negb_true_iff, orb_false_iff, Z.leb_gt, Z.geb_leb, Z.leb_gt.
  set (q := page_addr n t / 1024) in *. split.
  - intros [H1 H2]. exists (Z.max start (q * 1024 + lo)). dlia.
  - intros (a & Ha & Hka & Hc). dlia.
Qed.

(** At most the code bit of page [p] was set in the dirty bytes. *)
Definition code_dirtied (p : Z) (m m' : machine) : Prop :=
  m' = m <| phys_dirty := phys_dirty m' |> ∧ zlength (phys_dirty m') = zlength (phys_dirty m) ∧
  ∀ q, zlookup (phys_dirty m') q = zlookup (phys_dirty m) q ∨
       q = p ∧ ∃ d, zlookup (phys_dirty m) q = Some d ∧ zlookup (phys_dirty m') q = Some (d .| CODE_DIRTY_FLAG).
Lemma code_dirtied_refl p m : code_dirtied p m m.
Proof. split_and!; [by destruct m|done|by left]. Qed.

(** What a range invalidation does to the fields that are not lists. *)
Definition range_frame (p : Z) s s' : Prop :=
  tbs s' = tbs s ∧ nb_tbs s' = nb_tbs s ∧ l1_map s' = l1_map s ∧ request s' = request s ∧
  cpu_single_env s' = cpu_single_env s ∧ code_gen_ptr s' = code_gen_ptr s ∧
  tlb_table (stlb s') = tlb_table (stlb s) ∧ gen_bounds s' = gen_bounds s ∧
  code_dirtied p (guest_ram s) (guest_ram s').
Lemma stays_frame p s s' : stays s s' → range_frame p s s'.
Proof.
  unfold stays, range_frame. intros. destruct_and!. split_and!; try done.
  match goal with H : guest_ram s' = _ |- _ => rewrite H end. apply code_dirtied_refl.
Qed.

Lemma stays_range_frame p s1 s2 s3 : stays s1 s2 → range_frame p s2 s3 → range_frame p s1 s3.
Proof.
  unfold stays, range_frame. intros. destruct_and!. split_and!; congruence.
Qed.

(** The end of a range invalidation, on a page without blocks. *)
Definition page_emptied (start : Z) (w : bool) s : res tb_state :=
  let s := invalidate_page_bitmap (start >> TARGET_PAGE_BITS) s in
  if w then if cpu_single_env s then tlb_unprotect_code_phys start s else Err NullPointer else Ok s.

Lemma page_emptied_ok start w s A pc : let p := start >> TARGET_PAGE_BITS in
  tbs_wf s A → current_ok s A → page_at (tbs s) (links s) (entry (tbs s) (live A)) pc → pc p = [] →
  0 ≤ p < zlength (phys_dirty (guest_ram s)) → (w = true → cpu_single_env s = true) →
  ∃ s', page_emptied start w s = Ok s' ∧ tbs_wf s' A ∧ current_ok s' A ∧ range_frame p s s'.
Proof.
  intros p Hwf Hc HP Hp Hr Hw. unfold page_emptied. fold p.
  set (s1 := invalidate_page_bitmap p s).
  assert (tbs_wf s1 A) as Hwf1 by by apply wf_set_page_desc.
  destruct w.
  - unfold tlb_unprotect_code_phys, cpu_physical_memory_set_dirty_flags. cbn [cpu_single_env s1 invalidate_page_bitmap].
    change (cpu_single_env s1) with (cpu_single_env s). change (guest_ram s1) with (guest_ram s). fold p.
    rewrite Hw by done. destruct (zlookup_in_range _ _ Hr) as [d Hd].
    rewrite (aget_Ok _ _ _ Hd), bind_ret, aput_Ok, !bind_ret by done.
    eexists. split; [done|]. split; [|split; [done|]].
    + pose proof (wf_protected s1 A Hwf1) as Hpr. destruct Hwf1. split; try done.
      intros x Hx. destruct (Hpr x Hx) as (d' & Hd' & ?). exists d'. split; [|done]. cbn.
      rewrite zlookup_zinsert_ne; [done|]. intros E.
      assert (x ∈ pc p) as Hin by (apply (proj2 HP); by split). rewrite Hp in Hin. by apply elem_of_nil in Hin.
    + split_and!; try done. split; [done|]. split; [apply zlength_zinsert|]. cbn. intros q.
      rewrite zlookup_zinsert_dec by done. case_decide as E; [right|by left].
      subst q. split; [done|]. by exists d.
  - exists s1. split; [done|]. split; [done|]. split; [done|]. by apply stays_frame.
Qed.

(** A range invalidation: exactly the live blocks with code in the range go. *)
Lemma range_ok start stop w s A : tbs_wf s A → current_ok s A →
  start < stop → (stop - 1) >> TARGET_PAGE_BITS = start >> TARGET_PAGE_BITS →
  0 ≤ start >> TARGET_PAGE_BITS < zlength (phys_dirty (guest_ram s)) → (w = true → cpu_single_env s = true) →
  ∃ s' A' D, tb_invalidate_phys_page_range start stop w s = Ok s' ∧ tbs_wf s' A' ∧ current_ok s' A' ∧
    shrunk D (request s = 0) A A' ∧ range_frame (start >> TARGET_PAGE_BITS) s s' ∧
    ∀ t, t ∈ D ↔ t ∈ live A ∧ ∃ a, start ≤ a < stop ∧ code_at (tbs s) t a.
Proof.
  intros Hwf Hc Hlt Hsame Hr Hw. set (p := start >> TARGET_PAGE_BITS) in *.
  destruct (wf_page s A Hwf) as [pc HP]. pose proof HP as [_ Hm].
  assert (∀ t, t ∈ met start stop (tbs s) (pc p) ↔ t ∈ live A ∧ ∃ a, start ≤ a < stop ∧ code_at (tbs s) t a) as HD.
  { intros t. rewrite elem_of_met. split.
    - intros ([? n] & <- & Hx & Ho). cbn [fst] in *. apply Hm in Hx as [(Hl & Htag & Hne) Hk]. cbn [fst snd] in *.
      split; [done|]. apply overlaps_iff in Ho as (a & ? & ? & ?); [|by eauto using wf_tb..].
      exists a. split; [done|]. by exists n.
    - intros (Hl & a & Ha & n & Htag & Hne & Hk & Hcov). exists (t, n). split; [done|].
      assert (a >> TARGET_PAGE_BITS = p) as Hap by (unfold p in *; rewrite !shiftr_page in *; dlia).
      split; [apply Hm; split; [done|by rewrite <- Hap]|].
      unfold meets. cbn [fst snd]. apply overlaps_iff; try done; [by apply (wf_tb s A Hwf)|by rewrite Hk|by exists a]. }
  unfold tb_invalidate_phys_page_range. fold p. destruct (page_found p s) eqn:Ef.
  - destruct (count_write_ok s A pc p w Hwf HP) as (d & -> & Hwf1). rewrite bind_ret.
    set (s1 := set_page_desc p d s) in *.
    assert (links s1 !! LPage p = head (pc p)) as -> by by apply (page_head s (entry (tbs s) (live A))).
    destruct (decide (pc p = [])) as [Enil|Hne].
    + rewrite Enil in *. cbn [head fuel_of invalidate_loop]. rewrite bind_ret.
      assert (links s1 !! LPage p = None) as -> by (by rewrite (page_head s1 (entry (tbs s) (live A)) pc p HP), Enil).
      assert (invalidate_page_bitmap p s1 = invalidate_page_bitmap p s) as ->.
      { unfold invalidate_page_bitmap, set_page_desc. cbn. by rewrite insert_insert_eq. }
      destruct (page_emptied_ok start w s A pc Hwf Hc HP Enil Hr Hw) as (s' & E & Hwf' & Hc' & Hfr).
      exists s', A, ∅. unfold page_emptied in E. fold p in E. split; [done|]. split; [done|]. split; [done|].
      split; [apply shrunk_refl|]. split; [done|]. intros t. by rewrite <- HD, elem_of_empty, elem_of_met; set_solver.
    + destruct (invalidate_loop_ok start stop p (pc p) (fuel_of s1) s1 A pc [] (Hwf1 Hne) Hc HP eq_refl)
        as (s2 & A2 & pc2 & -> & Hwf2 & Hc2 & HP2 & Hsh & Hst & Hpc2); [by eapply page_fuel|].
      rewrite bind_ret, (page_head s2 _ pc2 p HP2). change (tbs s1) with (tbs s) in *.
      pose proof Hst as (? & ? & ? & ? & Henv & Hram & ? & ?).
      destruct (pc2 p) as [|y l] eqn:E2; cbn [head].
      * destruct (page_emptied_ok start w s2 A2 pc2 Hwf2 Hc2 HP2 E2) as (s' & E & Hwf' & Hc' & Hfr).
        { by rewrite Hram. }
        { by rewrite Henv. }
        exists s', A2, (met start stop (tbs s) (pc p)). unfold page_emptied in E. fold p in E.
        split; [done|]. split; [done|]. split; [done|]. split; [done|]. split; [|done].
        by apply (stays_range_frame p s s2).
      * exists s2, A2, (met start stop (tbs s) (pc p)). split_and!; try done. by apply (stays_frame p s1).
  - exists s, A, ∅. split; [done|]. split; [done|]. split; [done|]. split; [apply shrunk_refl|].
    split; [by apply stays_frame|]. intros t. rewrite <- HD, elem_of_empty, elem_of_met. split; [done|].
    intros (x & _ & Hx & _). apply Hm in Hx as [Hx Hk]. apply (wf_found s A Hwf) in Hx. congruence.
Qed.

(** ** The fast path of a store *)

Lemma invalidate_loop_none start stop s todo : ∀ fuel a, (length todo < fuel)%nat →
  seg (links s) page_next a todo None → (∀ x, x ∈ todo → is_Some (tbs s !! x.1) ∧ meets start stop (tbs s) x = false) →
  invalidate_loop fuel (head todo) start stop s = Ok s.
Proof.
  induction todo as [|x todo IH]; intros fuel a Hf Hs Hx; (destruct fuel as [|fuel]; [cbn in Hf; lia|]);
    cbn [invalidate_loop head seg] in *; [done|].
  destruct Hs as [_ Hs]. destruct (Hx x ltac:(by left)) as [HT Hmeets].
  rewrite blk_get, bind_ret by done. fold (meets start stop (tbs s) x). rewrite Hmeets, bind_ret.
  rewrite (seg_head page_next _ _ _ Hs). apply (IH fuel (page_next x)); [cbn in Hf; lia|done|].
  intros y Hy. apply Hx. by right.
Qed.

(** An access of a power of two bytes stays in one byte of the bitmap. *)
Lemma access_bits len start a : len ∈ [1; 2; 4; 8] → (len | start) → start ≤ a < start + len →
  page_flags a = page_flags start + (a - start) ∧ page_flags start mod 8 + (a - start) < 8 ∧
  a >> TARGET_PAGE_BITS = start >> TARGET_PAGE_BITS.
Proof.
  rewrite !page_flags_mod, !shiftr_page. intros Hlen [k ->] Ha.
  repeat (apply elem_of_cons in Hlen as [-> | Hlen]); [..|by apply elem_of_nil in Hlen]; dlia.
Qed.
Lemma bits_clear b i len k : 0 ≤ i → 0 ≤ k < len → (b >> i) .& ((1 << len) - 1) = 0 → Z.testbit b (i + k) = false.
Proof.
  intros Hi Hk Hz. replace ((1 << len) - 1) with (Z.ones len) in Hz by (rewrite Z.shiftl_1_l, Z.ones_equiv; lia).
  assert (Z.testbit ((b >> i) .& Z.ones len) k = false) as Hb by (by rewrite Hz, Z.testbit_0_l).
  rewrite Z.land_spec, Z.testbit_ones_nonneg, Z.shiftr_spec, (proj2 (Z.ltb_lt _ _)), andb_true_r in Hb by lia.
  rewrite <- Hb. f_equal. lia.
Qed.

Lemma fast_is_range s A start len : tbs_wf s A → len ∈ [1; 2; 4; 8] → (len | start) →
  tb_invalidate_phys_page_fast start len s = tb_invalidate_phys_page_range start (start + len) true s.
Proof.
  intros Hwf Hlen Hdiv. unfold tb_invalidate_phys_page_fast. set (p := start >> TARGET_PAGE_BITS).
  destruct (page_found p s) eqn:Ef; [|unfold tb_invalidate_phys_page_range; fold p; by rewrite Ef].
  destruct (code_bitmap (page_desc p s)) as [bits|] eqn:Ebits; [|done].
  destruct (wf_bitmap s A Hwf p bits Ebits) as (Hz & (y & Hy & Hky) & Hcov).
  pose proof (page_flags_bound start) as Hpf. rewrite shiftr_3, land_7.
  destruct (zlookup_in_range bits (page_flags start / 8)) as [b Hb].
  { rewrite Hz. unfold TARGET_PAGE_SIZE in *. change (1024 / 8) with 128. dlia. }
  rewrite (aget_Ok _ _ _ Hb), bind_ret. unfold truth. destruct (Z.eqb_spec ((b >> (page_flags start mod 8)) .& ((1 << len) - 1)) 0)
    as [E|E]; [|done]. cbn [negb].
  destruct (wf_page s A Hwf) as [pc HP]. pose proof HP as [F Hm].
  unfold tb_invalidate_phys_page_range. fold p. rewrite Ef. unfold count_write. rewrite Ebits, bind_ret.
  rewrite (page_head s _ pc p HP).
  rewrite (invalidate_loop_none start (start + len) s (pc p) (fuel_of s) (LPage p)), bind_ret.
  - assert (y ∈ pc p) as Hin by by apply Hm. rewrite (page_head s _ pc p HP).
    by destruct (pc p); [apply elem_of_nil in Hin|].
  - by eapply page_fuel.
  - by apply (fam_seg F).
  - intros x Hx. pose proof (page_entries s A pc p x Hwf HP Hx) as (HT & Htag & Hok & Hne).
    split; [done|]. apply not_true_iff_false. apply Hm in Hx as [He Hk].
    assert (1 ≤ len) by (repeat (apply elem_of_cons in Hlen as [-> | Hlen]); [..|by apply elem_of_nil in Hlen]; lia).
    unfold meets. rewrite overlaps_iff; [|done..|lia|done|by apply (access_bits len start); [done|done|lia]].
    intros (a & Ha & Hka & Hc). destruct (access_bits len start a Hlen Hdiv Ha) as (Hpa & H8 & _).
    pose proof (Z.mod_pos_bound (page_flags start) 8 ltac:(lia)).
    pose proof (Hcov x (page_flags a) He Hk (page_flags_bound a) Hc) as Hbit.
    rewrite bitmap_bit_div in Hbit.
    replace (page_flags a / 8) with (page_flags start / 8) in Hbit by dlia.
    replace (page_flags a mod 8) with (page_flags start mod 8 + (a - start)) in Hbit by dlia.
    rewrite Hb in Hbit. cbn in Hbit. rewrite (bits_clear _ _ len) in Hbit; [done|lia|lia|done].
Qed.
