(* ===== verification/TbLink.v ===== *)
(** * Linking, flushing and finding blocks *)
From S2P Require Import Prelude SoftTlb ArmModeFacts PhysMem PhysMemFacts TbLists TransBlocks TransBlocksFacts TbSmc.

(** ** Write protection of a page *)

(** A page of RAM with a dirty byte. *)
Record code_page (m : machine) (a : Z) : Prop := {
  cp_page : ram_page a;
  cp_block : ∃ b, b ∈ ram_blocks m ∧ in_block a b = true;
  cp_wf : blocks_wf (ram_blocks m);
  cp_dirty : a >> TARGET_PAGE_BITS < zlength (phys_dirty m)
}.
Definition protected (m : machine) (p : Z) : Prop :=
  ∃ d, zlookup (phys_dirty m) p = Some d ∧ d .& CODE_DIRTY_FLAG = 0.

Lemma safe_ptr_ok m a b : blocks_wf (ram_blocks m) → 0 ≤ a < 2 ^ 63 → b ∈ ram_blocks m →
  in_block a b = true → qemu_safe_ram_ptr a m = Ok (u64 (host b + (a - offset b))).
Proof.
  intros Hwf Ha Hb Hin. destruct (find_block_spec m a b Hwf Ha Hb Hin) as (m' & H & _).
  unfold qemu_get_ram_ptr, qemu_safe_ram_ptr in *. destruct (find_block m a) as [[n b']|]; [|done].
  by injection H as ->.
Qed.
Lemma clear_code_bit d : (d .& Z.lnot CODE_DIRTY_FLAG) .& CODE_DIRTY_FLAG = 0.
Proof. apply Z.bits_inj'. intros n Hn. rewrite !Z.land_spec, Z.lnot_spec, Z.bits_0 by done. by destruct (Z.testbit d n), (Z.testbit _ n). Qed.

(** The page's host address. *)
Definition host_page (m : machine) (a h : Z) : Prop :=
  ∃ b, b ∈ ram_blocks m ∧ in_block a b = true ∧ h = u64 (host b + (a - offset b)).

Lemma ram_page_align a : ram_page a → page_of a = a ∧ TARGET_PAGE_ALIGN (a + TARGET_PAGE_SIZE) = a + TARGET_PAGE_SIZE.
Proof.
  intros Hr. pose proof (ram_page_key a Hr) as [Hk _]. destruct Hr as [Hb Hp]. split; [done|].
  unfold TARGET_PAGE_ALIGN, TARGET_PAGE_SIZE in *. rewrite u64_small by lia.
  rewrite shiftr_page in Hk. rewrite page_of_div by (unfold is_u32; lia). dlia.
Qed.

Lemma reset_dirty_ok a t m : code_page m a → ∃ d h,
  zlookup (phys_dirty m) (a >> TARGET_PAGE_BITS) = Some d ∧ host_page m a h ∧
  cpu_physical_memory_reset_dirty a (a + TARGET_PAGE_SIZE) CODE_DIRTY_FLAG t m =
    Ok (t <| tlb_table := map (map (tlb_reset_dirty_range h TARGET_PAGE_SIZE)) (tlb_table t) |>,
        m <| phys_dirty := zinsert (a >> TARGET_PAGE_BITS) (d .& Z.lnot CODE_DIRTY_FLAG) (phys_dirty m) |>).
Proof.
  intros [Hr (b & Hb & Hin) Hwf Hd]. pose proof (ram_page_align a Hr) as [Hpg Hal].
  pose proof (ram_page_key a Hr) as [Hk _]. destruct Hr as [Hr _].
  unfold TARGET_PAGE_SIZE in *. rewrite shiftr_page in *.
  destruct (zlookup_in_range (phys_dirty m) (a / 1024)) as [d Hd']; [dlia|].
  exists d, (u64 (host b + (a - offset b))). split; [done|]. split; [by exists b|].
  unfold cpu_physical_memory_reset_dirty. rewrite Hpg, Hal, u64_small by lia.
  replace (a + 1024 - a) with 1024 by lia. cbn [Z.eqb].
  unfold cpu_physical_memory_mask_dirty_range. change (Z.to_nat (1024 >> TARGET_PAGE_BITS)) with 1%nat.
  cbn [mask_dirty]. rewrite shiftr_page, (aget_Ok _ _ _ Hd'), bind_ret, aput_Ok, !bind_ret by dlia.
  set (m' := m <| phys_dirty := _ |>).
  rewrite (safe_ptr_ok m' a b), bind_ret by (done || lia).
  replace (a + 1024 - 1) with (a + 1023) by lia.
  assert (in_block (a + 1023) b = true) as Hin2.
  { rewrite (in_block_page (ram_blocks m) b a 1023); [done|done|done|lia|lia|by exists (a / 1024)|lia]. }
  rewrite (safe_ptr_ok m' (a + 1023) b), bind_ret by (done || lia).
  replace (u64 _ =? _) with true; [done|]. symmetry. apply Z.eqb_eq. solve_u64.
Qed.

(** ** Pages that are stored to directly

    A TLB entry without flags in its write address maps a page of RAM that is
    wholly dirty, so stores through it need no handler. *)
Definition clean_entry (m : machine) (e : CPUTLBEntry) : Prop :=
  page_flags (addr_write e) = IO_MEM_RAM →
  ∃ a, 0 ≤ a < 2 ^ 63 ∧ (1024 | a) ∧ host_page m a (u64 (page_of (addr_write e) + addend e)) ∧
       zlookup (phys_dirty m) (a >> TARGET_PAGE_BITS) = Some 0xff.
Definition tlb_clean (t : soft_tlb) (m : machine) : Prop :=
  ∀ row e, row ∈ tlb_table t → e ∈ row → clean_entry m e.

Lemma host_page_fun m a h h' : blocks_wf (ram_blocks m) → 0 ≤ a < 2 ^ 63 → host_page m a h → host_page m a h' → h = h'.
Proof.
  intros Hwf Ha (b & Hb & Hi & ->) (b' & Hb' & Hi' & ->). by rewrite (blk_disjoint _ Hwf b b' a Hb Hb' Ha Hi Hi').
Qed.
Lemma notdirty_flags a : page_flags (page_of a .| TLB_NOTDIRTY) ≠ IO_MEM_RAM.
Proof.
  unfold page_flags, IO_MEM_RAM. intros E. assert (Z.testbit ((page_of a .| TLB_NOTDIRTY) .& 0x3FF) 4 = false) as Hb
    by (by rewrite E, Z.testbit_0_l).
  rewrite Z.land_spec, Z.lor_spec in Hb. by rewrite orb_true_r in Hb.
Qed.

Lemma reset_dirty_clean a h t m d : blocks_wf (ram_blocks m) → ram_page a → host_page m a h →
  zlookup (phys_dirty m) (a >> TARGET_PAGE_BITS) = Some d → tlb_clean t m →
  tlb_clean (t <| tlb_table := map (map (tlb_reset_dirty_range h TARGET_PAGE_SIZE)) (tlb_table t) |>)
    (m <| phys_dirty := zinsert (a >> TARGET_PAGE_BITS) (d .& Z.lnot CODE_DIRTY_FLAG) (phys_dirty m) |>).
Proof.
  intros Hwf Hr Hh Hd Hc row e (row' & -> & Hrow)%elem_of_map (e' & -> & He)%elem_of_map.
  pose proof (zlookup_Some_range _ _ _ Hd) as Hrange. unfold tlb_reset_dirty_range.
  destruct (Z.eqb_spec (page_flags (addr_write e')) IO_MEM_RAM) as [Ef|Ef]; [|by intros ?].
  destruct (Z.ltb_spec (u64 (u64 (page_of (addr_write e') + addend e') - h)) TARGET_PAGE_SIZE) as [Hin|Hout].
  - intros E. by apply notdirty_flags in E.
  - intros E. destruct (Hc row' e' Hrow He E) as (b & Hb & Hdiv & Hhb & Hff). exists b. split; [done|]. split; [done|].
    split; [done|]. cbn. rewrite zlookup_zinsert_dec by done. case_decide as Ek; [exfalso|done].
    pose proof (ram_page_key a Hr) as [Hka _]. assert (b = a) as ->.
    { destruct Hdiv as [q ->]. rewrite !shiftr_page in *. rewrite Z.div_mul in Ek by lia. lia. }
    rewrite (host_page_fun m a _ h Hwf Hb Hhb Hh), Z.sub_diag in Hout. done.
Qed.

(** What linking a page may change besides the lists: pages become protected. *)
Record link_frame s s' : Prop := {
  lf_nb : nb_tbs s' = nb_tbs s;
  lf_target : jmp_target s' = jmp_target s;
  lf_env : cpu_single_env s' = cpu_single_env s ∧ request s' = request s ∧
           code_gen_ptr s' = code_gen_ptr s ∧ tb_invalidated_flag s' = tb_invalidated_flag s;
  lf_gen : code_gen_buffer s' = code_gen_buffer s ∧ code_gen_buffer_size s' = code_gen_buffer_size s ∧
    code_gen_buffer_max_size s' = code_gen_buffer_max_size s ∧ code_gen_max_blocks s' = code_gen_max_blocks s;
  lf_cache : tb_jmp_cache (stlb s') = tb_jmp_cache (stlb s);
  lf_current : current_tb (stlb s') = current_tb (stlb s);
  lf_page : ∀ a, code_page (guest_ram s) a → code_page (guest_ram s') a;
  lf_protected : ∀ q, protected (guest_ram s) q → protected (guest_ram s') q;
  lf_clean : tlb_clean (stlb s) (guest_ram s) → tlb_clean (stlb s') (guest_ram s')
}.
Lemma link_frame_refl s : link_frame s s.
Proof. by split. Qed.
Lemma link_frame_trans s1 s2 s3 : link_frame s1 s2 → link_frame s2 s3 → link_frame s1 s3.
Proof. intros [] []. destruct_and!. split; try congruence; try (split_and!; congruence); auto. Qed.

Lemma tlb_protect_code_ok a s : code_page (guest_ram s) a →
  ∃ s', tlb_protect_code a s = Ok s' ∧ link_frame s s' ∧ protected (guest_ram s') (a >> TARGET_PAGE_BITS) ∧
    tbs s' = tbs s ∧ links s' = links s ∧ l1_map s' = l1_map s ∧ page_descs s' = page_descs s.
Proof.
  intros Hcp. unfold tlb_protect_code.
  destruct (reset_dirty_ok a (stlb s) (guest_ram s) Hcp) as (d & h & Hd & Hh & ->). rewrite bind_ret.
  eexists. split; [done|]. pose proof (zlookup_Some_range _ _ _ Hd) as Hr. split; [|split; [|done]].
  - split; try done.
    + intros b [? ? ? ?]. split; try done. cbn. by rewrite zlength_zinsert.
    + intros q (d' & Hq & Hz). unfold protected. cbn. rewrite zlookup_zinsert_dec by done.
      case_decide; [|by exists d']. eexists. split; [done|]. apply clear_code_bit.
    + apply reset_dirty_clean; [apply (cp_wf _ _ Hcp)|apply (cp_page _ _ Hcp)|done|done].
  - eexists. split; [by apply zlookup_zinsert|]. apply clear_code_bit.
Qed.

Lemma upd_blk B tb t t' : t ≠ tb → blk (<[tb := t']> B) t = blk B t.
Proof. intros Hne. unfold blk. by rewrite lookup_insert_ne. Qed.
Lemma upd_blk_eq B tb t' : blk (<[tb := t']> B) tb = t'.
Proof. unfold blk. by rewrite lookup_insert_eq. Qed.

(** One page of a new block. *)
Lemma tb_alloc_page_ok s E pc tb n a t : page_at (tbs s) (links s) E pc → tag01 (tb, n) → ¬ E (tb, n) →
  (∀ m, E (tb, m) → page_key m (set_page_addr n a t) = page_key m t) →
  tbs s !! tb = Some t → code_page (guest_ram s) a →
  (∀ x, E x → protected (guest_ram s) (page_key x.2 (blk (tbs s) x.1))) →
  let p := a >> TARGET_PAGE_BITS in
  ∃ s', tb_alloc_page tb n a s = Ok s' ∧ link_frame s s' ∧
    tbs s' = <[tb := set_page_addr n a t]> (tbs s) ∧
    page_at (tbs s') (links s') (λ x, E x ∨ x = (tb, n)) (upd p ((tb, n) :: pc p) pc) ∧
    agree is_hash (links s) (links s') ∧ agree is_jmp (links s) (links s') ∧
    l1_map s' = {[p >> L2_BITS]} ∪ l1_map s ∧ page_descs s' = <[p := mkPageDesc 0 None]> (page_descs s) ∧
    protected (guest_ram s') p.
Proof.
  intros HP Htag Hnew Hsame Ht Hcp Hprot p. pose proof HP as [F Hm].
  unfold tb_alloc_page, update_tb, get_tb. rewrite Ht. cbn [from_option_res]. rewrite !bind_ret. fold p.
  set (s1 := invalidate_page_bitmap p _).
  assert (page_key n (set_page_addr n a t) = p) as Hkn.
  { unfold page_key, page_addr, set_page_addr. destruct Htag as [Hn|Hn]; cbn in Hn; by subst n. }
  assert (page_at (tbs s1) (links s1) (λ x, E x ∨ x = (tb, n)) (upd p ((tb, n) :: pc p) pc)) as HP1.
  { split.
    - apply (fam_push LPage page_next (λ _, None) tag01 (λ _, True)); eauto with tbs.
      intros q _ Hin. by apply Hm in Hin as [? _].
    - change (tbs s1) with (<[tb := set_page_addr n a t]> (tbs s)). intros q x.
      assert (∀ m, E (tb, m) → page_key m (blk (tbs s) tb) = page_key m (set_page_addr n a t)) as Hs.
      { intros m Hx. rewrite Hsame by done. unfold blk. by rewrite Ht. }
      assert (E x → page_key x.2 (blk (<[tb := set_page_addr n a t]> (tbs s)) x.1) = page_key x.2 (blk (tbs s) x.1)) as Hx.
      { intros Hx. destruct x as [t' m]. cbn [fst snd]. destruct (decide (t' = tb)) as [->|Hne].
        - by rewrite upd_blk_eq, Hs.
        - by rewrite upd_blk. }
      unfold upd. case_decide as Eq; [subst q; rewrite elem_of_cons|]; rewrite Hm; split.
      + intros [-> | [? ?]]; [split; [by right|cbn; by rewrite upd_blk_eq]|split; [by left|by rewrite Hx]].
      + intros [[HE|HE] Hk]; [right; split; [done|by rewrite <- Hx]|by left].
      + intros [? ?]. split; [by left|by rewrite Hx].
      + intros [[HE| ->] Hk]; [split; [done|by rewrite <- Hx]|]. cbn in Hk. rewrite upd_blk_eq in Hk. congruence. }
  assert (agree is_hash (links s) (links s1)) as Hh by (eapply agree_trans; apply agree_store; by intros []).
  assert (agree is_jmp (links s) (links s1)) as Hj by (eapply agree_trans; apply agree_store; by intros []).
  lazymatch goal with |- context [match ?o with None => _ | Some _ => _ end] => change o with (links s !! LPage p) end.
  rewrite (page_head s E pc p HP). destruct (pc p) as [|y l] eqn:Ep; cbn [head].
  - destruct (tlb_protect_code_ok a s1 Hcp) as (s' & -> & Hf & Hpr & Et & El & E1 & Ed).
    exists s'. rewrite Et, El, E1, Ed. split; [done|]. split; [|by split_and!].
    eapply link_frame_trans; [|exact Hf]. by split.
  - exists s1. split; [done|]. split; [by split|]. split_and!; try done.
    assert (y ∈ pc p) as Hy by (rewrite Ep; by left). apply Hm in Hy as [HE Hk].
    rewrite <- Hk. by apply Hprot.
Qed.

(** ** A new block *)
Definition link (tb : Z) (A : blocks) : blocks := mkBlocks ({[tb]} ∪ live A) ({[tb]} ∪ known A) (jumps A).

Lemma hash_ok_push B B' L lv tb h : hash_ok B L lv → tb ∉ lv → (∀ t, t ∈ lv → blk B' t = blk B t) →
  hash_key (blk B' tb) = h →
  hash_ok B' (store (LHash h) (Some (tb, 0)) (store (LHashNext tb) (L !! LHash h) L)) ({[tb]} ∪ lv).
Proof.
  intros (hc & F & Hm) Hnew HB Hk. exists (upd h ((tb, 0) :: hc h) hc). split.
  - apply (fam_push LHash hash_next (λ _, None) (λ x, x.2 = 0) (λ _, True)); eauto with tbs.
    intros k _ Hin. by apply Hm in Hin as (_ & ? & _).
  - intros k x. rewrite elem_of_union, elem_of_singleton. destruct x as [t n]. cbn [fst snd].
    assert (t ∈ lv → hash_key (blk B' t) = hash_key (blk B t)) as Ht by (intros; by rewrite HB).
    unfold upd. case_decide as E; [subst k; rewrite elem_of_cons|]; rewrite Hm; cbn [fst snd]; split.
    + intros [[= -> ->]|(? & ? & ?)]; [by auto|]. split; [done|]. split; [by right|]. by rewrite Ht.
    + intros (-> & [-> |Hl] & ?); [by left|]. right. split; [done|]. split; [done|]. by rewrite <- Ht.
    + intros (? & ? & ?). split; [done|]. split; [by right|]. by rewrite Ht.
    + intros (-> & [-> |Hl] & ?); [congruence|]. split; [done|]. split; [done|]. by rewrite <- Ht.
Qed.

Lemma jump_ok_new L kn js tb : jump_ok L kn js → tb ∉ kn →
  (∀ x u, js !! x = Some u → tag01 x ∧ x.1 ∈ kn ∧ u ∈ kn) →
  jump_ok (store (LJmpNext tb 1) None (store (LJmpNext tb 0) None (store (LJmpFirst tb) (Some (tb, 2)) L)))
    ({[tb]} ∪ kn) js.
Proof.
  intros (jc & F & Hm & Hn) Hnew Hjs.
  assert (∀ u, u ∈ {[tb]} ∪ kn → u ≠ tb → u ∈ kn) as Hkn by set_solver.
  exists (upd tb [] jc). split; [split|split].
  - intros u Hu. destruct (decide (u = tb)) as [->|Hne].
    + rewrite upd_eq. cbn [seg]. rewrite !store_ne by done. apply store_eq.
    + rewrite upd_ne by done. apply (seg_frame jmp_step L); [|by apply (fam_seg F), Hkn].
      intros c [-> | ([t n] & Hx & ->)]%in_cells; [by rewrite !store_ne by congruence|].
      apply Hm in Hx; [|by apply Hkn]. apply Hjs in Hx as (Htag & Ht & _).
      rewrite jmp_step_tag by done. cbn in Ht |- *. rewrite !store_ne; [done|congruence..].
  - intros u Hu. unfold upd. case_decide; [constructor|by apply (fam_nodup F), Hkn].
  - intros u v x Hu Hv. unfold upd. case_decide; case_decide; intros Hx Hy; try by apply elem_of_nil in Hx || apply elem_of_nil in Hy.
    apply (fam_disj F u v x); auto.
  - intros u x Hu. unfold upd. case_decide; [by intros Hx%elem_of_nil|by apply (fam_ok F), Hkn].
  - intros u x Hu. unfold upd. case_decide as E; [|by apply Hm, Hkn]. subst u. rewrite elem_of_nil.
    split; [done|]. by intros (_ & _ & ?)%Hjs.
  - intros [t n] Htag Hx Ht. cbn [fst snd]. destruct (decide (t = tb)) as [->|Hne].
    + destruct Htag as [E|E]; cbn in E; subst n; [rewrite store_ne by done|]; by rewrite store_eq.
    + rewrite !store_ne by congruence. apply (Hn (t, n)); [done..|]. by apply Hkn.
Qed.

Lemma page_at_blk B B' L E pc : (∀ x, E x → page_key x.2 (blk B' x.1) = page_key x.2 (blk B x.1)) →
  page_at B L E pc → page_at B' L E pc.
Proof.
  intros HB [F Hm]. split; [done|]. intros p x. rewrite Hm. split; intros [HE Hk]; (split; [done|]).
  - by rewrite HB.
  - by rewrite <- HB.
Qed.

Lemma init_jump_ok s tb n t : tbs s !! tb = Some t →
  ∃ J, init_jump tb n s = Ok (s <| jmp_target := J |>) ∧ (∀ x, x ≠ (tb, n) → J !! x = jmp_target s !! x) ∧
       (tb_next_offset n t ≠ 0xffff → J !! (tb, n) = Some (tc_ptr t + tb_next_offset n t)).
Proof.
  intros Ht. unfold init_jump, tb_reset_jump, get_tb. rewrite Ht. cbn [from_option_res]. rewrite bind_ret.
  destruct (Z.eqb_spec (tb_next_offset n t) 0xffff) as [E|E]; cbn [negb].
  - exists (jmp_target s). split; [by destruct s|done].
  - eexists. split; [done|]. split; [intros x Hne; by apply lookup_insert_ne|]. intros _. apply lookup_insert_eq.
Qed.

(** The code of a new block: where it is in memory. *)
Record placed (m : machine) (t : TranslationBlock) (phys_pc phys_page2 : Z) : Prop := {
  pl_pc : is_u32 (tb_pc t) ∧ is_u32 phys_pc ∧ page_flags phys_pc = page_flags (tb_pc t);
  pl_size : 1 ≤ tb_size t ≤ TARGET_PAGE_SIZE;
  pl_page1 : code_page m (page_of phys_pc);
  pl_page2 : if page_flags (tb_pc t) + tb_size t <=? TARGET_PAGE_SIZE then phys_page2 = no_addr
             else code_page m phys_page2 ∧ phys_page2 ≠ page_of phys_pc
}.
Definition place (phys_pc phys_page2 : Z) (t : TranslationBlock) : TranslationBlock :=
  set_page_addr 1 phys_page2 (set_page_addr 0 (page_of phys_pc) t).

Lemma place_ok m t a b : placed m t a b → tb_ok (place a b t).
Proof.
  intros [(? & ? & ?) ? Hp1 Hp2]. split; cbn; [done|done|apply Hp1| |].
  - destruct (_ <=? _); [done|]. apply Hp2.
  - destruct (_ <=? _); [|naive_solver]. subst b. destruct (cp_page _ _ Hp1) as [Hb _].
    unfold no_addr, TARGET_PAGE_SIZE in *. lia.
Qed.
Lemma placed_second m t a b : placed m t a b → b ≠ no_addr → code_page m b.
Proof. intros [_ _ _ H2] Hb. by destruct (_ <=? _); [|apply H2]. Qed.
Lemma place_key m t a b : placed m t a b → hash_key (place a b t) = tb_phys_hash_func a.
Proof.
  intros [(? & Ha & Hf) _ _ _]. unfold hash_key, tb_phys_pc. cbn. f_equal.
  rewrite <- Hf, page_flags_mod, page_of_div by done. replace (a / 1024 * 1024 + a mod 1024) with a by dlia.
  by apply u32_small.
Qed.

Lemma entry_place B lv m tb t a b x : tb ∉ lv → placed m t a b →
  entry (<[tb := place a b t]> B) ({[tb]} ∪ lv) x ↔
  entry B lv x ∨ x = (tb, 0) ∨ (b ≠ no_addr ∧ x = (tb, 1)).
Proof.
  intros Hnew Hpl. pose proof (first_page _ (place_ok m t a b Hpl)) as H0.
  destruct x as [t' n]. unfold entry. cbn [fst snd]. rewrite elem_of_union, elem_of_singleton. split.
  - intros ([-> |Hl] & Htag & Hne).
    + right. rewrite upd_blk_eq in Hne. destruct Htag as [E|E]; cbn in E; subst n; [by left|]. by right.
    + left. rewrite upd_blk in Hne by (by intros ->). done.
  - intros [(Hl & ? & ?)|[[= -> ->]|[? [= -> ->]]]].
    + rewrite upd_blk by (by intros ->). split; [by right|done].
    + rewrite upd_blk_eq. split; [by left|]. split; [by left|done].
    + rewrite upd_blk_eq. split; [by left|]. split; [by right|done].
Qed.

Definition link_pages (tb a b : Z) s : res tb_state :=
  s ← tb_alloc_page tb 0 (page_of a) s;
  if negb (b =? no_addr) then tb_alloc_page tb 1 b s else update_tb tb (set_page_addr 1 no_addr) s.

Lemma page_found_more p q s s' : l1_map s' = {[q >> L2_BITS]} ∪ l1_map s →
  page_found p s' = true ↔ p >> L2_BITS = q >> L2_BITS ∨ page_found p s = true.
Proof. unfold page_found. intros ->. rewrite !bool_decide_eq_true. set_solver. Qed.

Lemma link_pages_ok s lv pc tb t a b : page_at (tbs s) (links s) (entry (tbs s) lv) pc → tb ∉ lv →
  tbs s !! tb = Some t → placed (guest_ram s) t a b →
  (∀ x, entry (tbs s) lv x → protected (guest_ram s) (page_key x.2 (blk (tbs s) x.1))) →
  (∀ x, entry (tbs s) lv x → page_found (page_key x.2 (blk (tbs s) x.1)) s = true) →
  ∃ s' pc', let B := <[tb := place a b t]> (tbs s) in let E := entry B ({[tb]} ∪ lv) in
    link_pages tb a b s = Ok s' ∧ link_frame s s' ∧ tbs s' = B ∧ page_at B (links s') E pc' ∧
    agree is_hash (links s) (links s') ∧ agree is_jmp (links s) (links s') ∧
    (∀ x, E x → protected (guest_ram s') (page_key x.2 (blk B x.1))) ∧
    (∀ x, E x → page_found (page_key x.2 (blk B x.1)) s' = true) ∧
    (∀ p, page_descs s' !! p = page_descs s !! p ∧ (∀ n, E (tb, n) → page_key n (place a b t) ≠ p) ∨
          page_descs s' !! p = Some (mkPageDesc 0 None)).
Proof.
  intros HP Hnew Ht Hpl Hprot Hfound. pose proof (λ x, entry_place (tbs s) lv _ tb t a b x Hnew Hpl) as HE.
  pose proof (place_ok _ _ _ _ Hpl) as Hok. unfold link_pages.
  assert (¬ entry (tbs s) lv (tb, 0) ∧ ¬ entry (tbs s) lv (tb, 1)) as [N0 N1] by (by split; intros [? _]).
  destruct (tb_alloc_page_ok s _ pc tb 0 (page_of a) t HP ltac:(by left) N0) as
    (s1 & -> & Hf1 & Et1 & HP1 & Hh1 & Hj1 & El1 & Ed1 & Hp1);
    [by intros m [? _]|done|apply (pl_page1 _ _ _ _ Hpl)|done|].
  rewrite bind_ret. set (p0 := page_of a >> TARGET_PAGE_BITS) in *.
  set (t1 := set_page_addr 0 (page_of a) t) in *. set (E1 := λ x, entry (tbs s) lv x ∨ x = (tb, 0)) in *.
  assert (∀ x, entry (tbs s) lv x → x.1 ≠ tb) as Hne by (intros x [Hl _] Ex; by rewrite Ex in Hl).
  assert (∀ x, E1 x → page_key x.2 (blk (tbs s1) x.1) = p0 ∧ x = (tb, 0) ∨
            entry (tbs s) lv x ∧ page_key x.2 (blk (tbs s1) x.1) = page_key x.2 (blk (tbs s) x.1)) as HE1.
  { rewrite Et1. intros x [Hx| ->]; [right|left; cbn; by rewrite upd_blk_eq].
    split; [done|]. by rewrite upd_blk by auto. }
  assert (∀ x, E1 x → protected (guest_ram s1) (page_key x.2 (blk (tbs s1) x.1))) as Hprot1.
  { intros x Hx. destruct (HE1 x Hx) as [[-> _]|[He ->]]; [done|]. by apply (lf_protected s s1 Hf1), Hprot. }
  assert (∀ x, E1 x → page_found (page_key x.2 (blk (tbs s1) x.1)) s1 = true) as Hfound1.
  { intros x Hx. apply (page_found_more _ p0 s s1 El1). destruct (HE1 x Hx) as [[-> _]|[He ->]]; [by left|]. right. by apply Hfound. }
  destruct (Z.eqb_spec b no_addr) as [Eb|Nb]; cbn [negb].
  - unfold update_tb, get_tb. rewrite Et1, lookup_insert_eq. cbn [from_option_res]. rewrite bind_ret.
    assert (<[tb := set_page_addr 1 no_addr t1]> (<[tb := t1]> (tbs s)) = <[tb := place a b t]> (tbs s)) as EB.
    { by rewrite insert_insert_eq, Eb. }
    rewrite EB. set (B := <[tb := place a b t]> (tbs s)) in *.
    assert (∀ x, entry B ({[tb]} ∪ lv) x ↔ E1 x) as HEE.
    { intros x. rewrite HE. unfold E1. naive_solver. }
    assert (∀ x, E1 x → page_key x.2 (blk B x.1) = page_key x.2 (blk (tbs s1) x.1)) as Hkeys.
    { intros x Hx. unfold B. rewrite Et1. destruct Hx as [Hx| ->]; [by rewrite !upd_blk by auto|by cbn; rewrite !upd_blk_eq]. }
    eexists _, _. split; [done|]. split; [destruct Hf1; by split|]. split; [done|]. split.
    { eapply page_at_ext; [intros x; symmetry; apply HEE|]. by eapply page_at_blk, HP1. }
    split; [done|]. split; [done|]. split; [|split].
    + intros x Hx%HEE. rewrite Hkeys by done. by apply Hprot1.
    + intros x Hx%HEE. rewrite Hkeys by done. by apply (Hfound1 x).
    + intros p. cbn. rewrite Ed1. destruct (decide (p = p0)) as [->|Hp]; [right; apply lookup_insert_eq|].
      left. rewrite lookup_insert_ne by done. split; [done|]. intros n [Hx|[= ->]]%HEE; [by apply Hne in Hx|done].
  - pose proof (placed_second _ _ _ _ Hpl Nb) as Hcp.
    destruct (tb_alloc_page_ok s1 E1 _ tb 1 b t1 HP1 ltac:(by right)) as
      (s2 & -> & Hf2 & Et2 & HP2 & Hh2 & Hj2 & El2 & Ed2 & Hp2).
    + by intros [?|?].
    + intros m [Hx|[= ->]]; [by apply Hne in Hx|done].
    + by rewrite Et1, lookup_insert_eq.
    + by apply (lf_page s s1 Hf1).
    + done.
    + set (p1 := b >> TARGET_PAGE_BITS) in *. rewrite Et1, insert_insert_eq in Et2.
      change (set_page_addr 1 b t1) with (place a b t) in *. rewrite Et2 in HP2.
      set (B := <[tb := place a b t]> (tbs s)) in *.
      assert (∀ x, entry B ({[tb]} ∪ lv) x ↔ E1 x ∨ x = (tb, 1)) as HEE.
      { intros x. rewrite HE. unfold E1. naive_solver. }
      assert (∀ x, E1 x → page_key x.2 (blk B x.1) = page_key x.2 (blk (tbs s1) x.1)) as Hkeys.
      { intros x Hx. unfold B. rewrite Et1. destruct Hx as [Hx| ->]; [by rewrite !upd_blk by auto|by cbn; rewrite !upd_blk_eq]. }
      exists s2, (upd p1 ((tb, 1) :: upd p0 ((tb, 0) :: pc p0) pc p1) (upd p0 ((tb, 0) :: pc p0) pc)).
      split; [done|]. split; [by eapply link_frame_trans|]. split; [done|]. split.
      { eapply page_at_ext; [intros x; symmetry; apply HEE|done]. }
      split; [by eapply agree_trans|]. split; [by eapply agree_trans|]. split; [|split].
      * intros x [Hx| ->]%HEE; [rewrite Hkeys by done; by apply (lf_protected s1 s2 Hf2), Hprot1|].
        unfold B. cbn. by rewrite upd_blk_eq.
      * intros x [Hx| ->]%HEE; apply (page_found_more _ p1 s1 s2 El2); [right; rewrite Hkeys by done; by apply Hfound1|].
        left. unfold B. cbn. by rewrite upd_blk_eq.
      * intros p. rewrite Ed2, Ed1. destruct (decide (p = p1)) as [->|Hpp1]; [right; apply lookup_insert_eq|].
        rewrite lookup_insert_ne by done. destruct (decide (p = p0)) as [->|Hpp0]; [right; apply lookup_insert_eq|].
        left. rewrite lookup_insert_ne by done. split; [done|]. intros n [[Hx|[= ->]]|[= ->]]%HEE; [by apply Hne in Hx|done..].
Qed.

Lemma bitmap_linked s B lv tb p bits t : blk B tb = t → tb ∉ lv → (∀ u, u ∈ lv → blk B u = blk (tbs s) u) →
  (∀ n, entry B ({[tb]} ∪ lv) (tb, n) → page_key n t ≠ p) →
  (∃ x, entry (tbs s) lv x ∧ page_key x.2 (blk (tbs s) x.1) = p) ∧
  (∀ x o, entry (tbs s) lv x → page_key x.2 (blk (tbs s) x.1) = p →
     0 ≤ o < TARGET_PAGE_SIZE → covers x.2 o (blk (tbs s) x.1) → bitmap_bit bits o = true) →
  (∃ x, entry B ({[tb]} ∪ lv) x ∧ page_key x.2 (blk B x.1) = p) ∧
  (∀ x o, entry B ({[tb]} ∪ lv) x → page_key x.2 (blk B x.1) = p →
     0 ≤ o < TARGET_PAGE_SIZE → covers x.2 o (blk B x.1) → bitmap_bit bits o = true).
Proof.
  intros Et Hnew HB Hno [(x & (Hl & Htag & Hne) & Hk) Hc]. split.
  - exists x. rewrite HB by done. split; [|done]. split; [set_solver|]. split; [done|]. by rewrite HB.
  - intros [u n] o (Hu & Htu & Hnu) Hku Ho Hcov. cbn [fst snd] in *. apply elem_of_union in Hu as [Hu|Hu].
    + apply elem_of_singleton in Hu as ->. exfalso. apply (Hno n); [split; [set_solver|done]|by rewrite <- Et].
    + rewrite HB in * by done. by apply (Hc (u, n)).
Qed.

Lemma tb_link_phys_ok s A tb t a b : tbs_wf s A → tb ∉ known A → 0 ≤ tb < nb_tbs s →
  tbs s !! tb = Some t → placed (guest_ram s) t a b →
  ∃ s' J, tb_link_phys tb a b s = Ok (s' <| jmp_target := J |>) ∧ tbs_wf (s' <| jmp_target := J |>) (link tb A) ∧
    tbs s' = <[tb := place a b t]> (tbs s) ∧ link_frame s s' ∧
    links s' !! LHash (tb_phys_hash_func a) = Some (tb, 0) ∧
    (∀ u, links s' !! LHashNext u = if decide (u = tb) then links s !! LHash (tb_phys_hash_func a)
                                    else links s !! LHashNext u).
Proof.
  intros Hwf Hnew Hnb Ht Hpl. assert (tb ∉ live A) as Hnl by (intros ?%(wf_live s A Hwf); done).
  destruct (wf_page s A Hwf) as [pc HP]. unfold tb_link_phys.
  set (B := <[tb := place a b t]> (tbs s)).
  set (s1 := set_link (LHash _) _ _).
  assert (hash_ok B (links s1) ({[tb]} ∪ live A)) as HH1.
  { apply (hash_ok_push (tbs s) B (links s) (live A) tb (tb_phys_hash_func a)); [apply (wf_hash s A Hwf)|done|..].
    - intros u Hu. apply upd_blk. by intros ->.
    - unfold B. rewrite upd_blk_eq. by eapply place_key. }
  assert (agree is_page (links s) (links s1)) as Hp1 by (eapply agree_trans; apply agree_store; by intros []).
  assert (agree is_jmp (links s) (links s1)) as Hj1 by (eapply agree_trans; apply agree_store; by intros []).
  destruct (link_pages_ok s1 (live A) pc tb t a b) as
    (s2 & pc2 & H2 & Hf2 & Et2 & HP2 & Hh2 & Hj2 & Hprot2 & Hfound2 & Hd2);
    [by apply (page_at_frame _ (links s))|done|done|done|apply (wf_protected s A Hwf)|apply (wf_found s A Hwf)|].
  change (tbs s1) with (tbs s) in *. fold B in Et2, HP2, Hprot2, Hfound2, Hd2.
  apply bind_Ok in H2 as (s1' & -> & H2). rewrite bind_ret, H2, bind_ret. clear H2 s1'.
  set (L3 := store (LJmpNext tb 1) None (store (LJmpNext tb 0) None (store (LJmpFirst tb) (Some (tb, 2)) (links s2)))).
  set (s3 := set_link (LJmpNext tb 1) None _).
  assert (∀ x u, jumps A !! x = Some u → tag01 x ∧ x.1 ∈ known A ∧ u ∈ known A) as Hjs.
  { intros x u Hx. apply (wf_jumps s A Hwf) in Hx as (? & ? & ? & _). split_and!; [done..|by apply (wf_live s A Hwf)]. }
  assert (jump_ok L3 ({[tb]} ∪ known A) (jumps A)) as HJ3.
  { apply jump_ok_new; [|done|done]. apply (jump_ok_frame (links s)); [by eapply agree_trans|apply (wf_jump s A Hwf)]. }
  assert (agree is_hash (links s1) L3 ∧ agree is_page (links s2) L3) as [Hh3 Hp3].
  { split; intros c Hc; unfold L3; (rewrite !store_ne; [|by intros <-..]); [by apply Hh2|done]. }
  assert (tbs s3 !! tb = Some (place a b t)) as Ht3 by (change (tbs s3) with (tbs s2); rewrite Et2; apply lookup_insert_eq).
  destruct (init_jump_ok s3 tb 0 _ Ht3) as (J1 & -> & HJ1 & HJ1'). rewrite bind_ret.
  set (s4 := s3 <| jmp_target := J1 |>).
  destruct (init_jump_ok s4 tb 1 (place a b t) Ht3) as (J2 & -> & HJ2 & HJ2').
  exists s3, J2. split; [done|]. split; [|split; [done|split; [destruct Hf2; by split|split]]].
  2: { change (links s3) with L3. rewrite (Hh3 (LHash _)) by done. apply store_eq. }
  2: { intros u. change (links s3) with L3. rewrite (Hh3 (LHashNext u)) by done.
       change (links s1) with (store (LHash (tb_phys_hash_func a)) (Some (tb, 0))
         (store (LHashNext tb) (links s !! LHash (tb_phys_hash_func a)) (links s))). rewrite store_ne by done.
       case_decide as E; [subst u; by rewrite store_eq|by rewrite store_ne by congruence]. }
  assert (∀ u, u ∈ known A → blk B u = blk (tbs s) u) as HB by (intros u Hu; apply upd_blk; by intros ->).
  assert (∀ u, u ∈ live A → blk B u = blk (tbs s) u) as HBl by (intros u Hu; by apply HB, (wf_live s A Hwf)).
  split; cbn [live known jumps link]; change (tbs (s3 <| jmp_target := J2 |>)) with (tbs s2); rewrite ?Et2.
  - by apply (hash_ok_frame B (links s1)).
  - exists pc2. by apply (page_at_frame B (links s2)).
  - done.
  - intros x u Hx. destruct (wf_jumps s A Hwf x u Hx) as (? & Hk & Hu & Hj).
    split; [done|]. split; [set_solver|]. split; [set_solver|]. rewrite HBl by done. rewrite <- Hj.
    assert (x.1 ≠ tb) as Hx1 by (intros Ex; by rewrite Ex in Hk).
    cbn. rewrite HJ2, HJ1 by (by intros ->). change (jmp_target s3) with (jmp_target s2). by rewrite (lf_target s1 s2 Hf2).
  - intros [u n] Hx Hu Hj. unfold stub. cbn [fst snd] in *. apply elem_of_union in Hu as [->%elem_of_singleton|Hu].
    + unfold B. rewrite upd_blk_eq. intros Ho. cbn. destruct Hx as [En|En]; cbn in En; subst n.
      * rewrite HJ2 by congruence. by apply HJ1'.
      * by apply HJ2'.
    + rewrite HBl by done. intros Ho. assert (u ≠ tb) by (by intros ->).
      cbn. rewrite HJ2, HJ1 by congruence. change (jmp_target s3) with (jmp_target s2).
      rewrite (lf_target s1 s2 Hf2). by apply (wf_stub s A Hwf (u, n)).
  - apply union_mono_l, (wf_live s A Hwf).
  - intros u [->%elem_of_singleton|Hu]%elem_of_union.
    + change (nb_tbs (s3 <| jmp_target := J2 |>)) with (nb_tbs s2). rewrite (lf_nb s1 s2 Hf2).
      split; [done|]. unfold B. rewrite lookup_insert_eq. done.
    + change (nb_tbs (s3 <| jmp_target := J2 |>)) with (nb_tbs s2). rewrite (lf_nb s1 s2 Hf2).
      destruct (wf_known s A Hwf u Hu) as [? ?]. split; [done|]. unfold B. by rewrite lookup_insert_ne by (by intros ->).
  - intros u [->%elem_of_singleton|Hu]%elem_of_union.
    + unfold B. rewrite upd_blk_eq. by eapply place_ok.
    + rewrite HBl by done. by apply (wf_tb s A Hwf).
  - done.
  - intros p bits Hb. change (page_desc p (s3 <| jmp_target := J2 |>)) with (page_desc p s2) in Hb.
    unfold page_desc in Hb. destruct (Hd2 p) as [[E Hno]|E]; rewrite E in Hb; [|done].
    destruct (wf_bitmap s A Hwf p bits Hb) as [? Hbm]. split; [done|].
    apply (bitmap_linked s B (live A) tb p bits (place a b t)); [apply upd_blk_eq|done..].
  - done.
  - change (tb_jmp_cache (stlb (s3 <| jmp_target := J2 |>))) with (tb_jmp_cache (stlb s2)).
    rewrite (lf_cache s1 s2 Hf2). destruct (wf_cache s A Hwf) as [? Hc]. split; [done|].
    intros i v Hv Hv0. destruct (Hc i v Hv Hv0) as [Hl Hh]. split; [set_solver|]. by rewrite HBl.
Qed.

(** ** Flushing *)
Definition no_blocks : blocks := mkBlocks ∅ ∅ ∅.

Lemma wf_empty s : (∀ h, links s !! LHash h = None) → (∀ p, links s !! LPage p = None) → page_descs s = ∅ →
  zlength (tb_jmp_cache (stlb s)) = TB_JMP_CACHE_SIZE → Forall (eq 0) (tb_jmp_cache (stlb s)) →
  tbs_wf s no_blocks.
Proof.
  intros Hh Hp Hd Hz Hc. split; cbn [live known jumps no_blocks]; try done.
  - exists (λ _, []). split; [split|].
    + intros k _. apply Hh.
    + intros k _. constructor.
    + by intros ? ? ? _ _ ?%elem_of_nil.
    + by intros ? ? _ ?%elem_of_nil.
    + intros h x. rewrite elem_of_nil. set_solver.
  - exists (λ _, []). split; [split|].
    + intros k _. apply Hp.
    + intros k _. constructor.
    + by intros ? ? ? _ _ ?%elem_of_nil.
    + by intros ? ? _ ?%elem_of_nil.
    + intros h x. rewrite elem_of_nil. unfold entry. set_solver.
  - exists (λ _, []). split; [split|split]; set_solver.
  - by intros x [? _].
  - intros p bits. unfold page_desc. by rewrite Hd.
  - by intros x [? _].
  - split; [done|]. intros i v Hv Hne. apply zlookup_elem in Hv. rewrite Forall_forall in Hc.
    apply Hc in Hv. by subst v.
Qed.

(** Flushing establishes the invariant whatever the state was. *)
Lemma tb_flush_ok s : u64 (code_gen_ptr s - code_gen_buffer s) ≤ code_gen_buffer_size s →
  ∃ s', tb_flush s = Ok s' ∧ tbs_wf s' no_blocks ∧ nb_tbs s' = 0 ∧ code_gen_ptr s' = code_gen_buffer s ∧
    code_gen_buffer s' = code_gen_buffer s ∧ code_gen_max_blocks s' = code_gen_max_blocks s ∧
    code_gen_buffer_size s' = code_gen_buffer_size s ∧ code_gen_buffer_max_size s' = code_gen_buffer_max_size s ∧
    guest_ram s' = guest_ram s ∧ tbs s' = tbs s ∧ current_tb (stlb s') = current_tb (stlb s) ∧
    tlb_table (stlb s') = tlb_table (stlb s) ∧
    tb_flush_count s' = tb_flush_count s + 1 ∧
    (∀ h, links s' !! LHash h = None) ∧ (∀ u, links s' !! LHashNext u = links s !! LHashNext u).
Proof.
  intros Hb. unfold tb_flush. rewrite Z.gtb_ltb, (proj2 (Z.ltb_ge _ _)) by done.
  eexists. split; [done|].
  assert (∀ l (L : heap), is_head l = true → filter (λ '(l, _), is_head l = false) L !! l = None) as Hnone.
  { intros l L Hl. apply map_lookup_filter_None. right. intros x _. by rewrite Hl. }
  assert (∀ l (L : heap), is_head l = false → filter (λ '(l, _), is_head l = false) L !! l = L !! l) as Hkeep.
  { intros l L Hl. apply option_eq. intros x. split.
    - by intros [? _]%map_lookup_filter_Some.
    - intros Hx. by apply map_lookup_filter_Some. }
  split; [|split_and!; try done].
  - apply wf_empty; [intros h; by apply Hnone|intros p; by apply Hnone|done|done|].
    apply Forall_replicate. done.
  - intros h. by apply Hnone.
  - intros u. by apply Hkeep.
Qed.
