(* ===== verification/TbFind.v ===== *)
(** * Finding a block, or generating it *)
From S2P Require Import Prelude SoftTlb ArmModeFacts PhysMem PhysMemFacts TbLists TransBlocks TransBlocksFacts TbSmc TbLink.

(** ** Room for code *)

(** The buffer of generated code; [max_block] bytes hold the code of any
    block. *)
Record gen_ok s : Prop := {
  go_nb : 0 ≤ nb_tbs s;
  go_max : 0 < code_gen_max_blocks s ∧ 0 < code_gen_buffer_max_size s ≤ code_gen_buffer_size s;
  go_ptr : 0 ≤ code_gen_buffer s ≤ code_gen_ptr s ∧ code_gen_ptr s ≤ code_gen_buffer s + code_gen_buffer_size s;
  go_top : code_gen_buffer s + code_gen_buffer_size s + CODE_GEN_ALIGN < 2 ^ 64
}.

Lemma unused_block s A : tbs_wf s A → nb_tbs s ∉ known A.
Proof. intros Hwf Hin. destruct (wf_known s A Hwf _ Hin) as [? _]. lia. Qed.

(** The array slot taken is outside every list. *)
Lemma wf_slot s A tb t n : tbs_wf s A → tb ∉ known A → nb_tbs s ≤ n →
  tbs_wf (s <| nb_tbs := n |> <| tbs := <[tb := t]> (tbs s) |>) A.
Proof.
  intros Hwf Hnew Hn.
  set (B := <[tb := t]> (tbs s)).
  assert (∀ u, u ∈ known A → blk B u = blk (tbs s) u) as HB by (intros u Hu; apply upd_blk; by intros ->).
  assert (∀ u, u ∈ live A → blk B u = blk (tbs s) u) as HBl by (intros u Hu; by apply HB, (wf_live s A Hwf)).
  assert (∀ x, entry B (live A) x ↔ entry (tbs s) (live A) x) as HE.
  { intros x. unfold entry. split; intros (? & ? & ?); (split; [done|split; [done|]]); [by rewrite <- HBl|by rewrite HBl]. }
  assert (∀ x, entry B (live A) x → page_key x.2 (blk B x.1) = page_key x.2 (blk (tbs s) x.1)) as HK.
  { intros x [? _]. by rewrite HBl. }
  split; cbn [tbs links set_field set_tbs set_nb_tbs]; fold B.
  - destruct (wf_hash s A Hwf) as (hc & F & Hm). exists hc. split; [done|]. intros h x. rewrite Hm.
    split; intros (? & ? & ?); (split; [done|split; [done|]]); [by rewrite HBl|by rewrite <- HBl].
  - destruct (wf_page s A Hwf) as [pc HP]. exists pc. eapply page_at_ext; [intros x; symmetry; apply HE|].
    eapply page_at_blk, HP. intros x Hx. by apply HK, HE.
  - apply (wf_jump s A Hwf).
  - intros x u Hx. destruct (wf_jumps s A Hwf x u Hx) as (? & ? & ? & ?). split_and!; [done..|]. by rewrite HBl.
  - intros x ? Hl ?. unfold stub. rewrite HBl by done. by apply (wf_stub s A Hwf).
  - apply (wf_live s A Hwf).
  - intros u Hu. destruct (wf_known s A Hwf u Hu) as [? ?]. cbn. split; [lia|]. unfold B.
    by rewrite lookup_insert_ne by congruence.
  - intros u Hu. rewrite HBl by done. by apply (wf_tb s A Hwf).
  - intros x Hx. rewrite HK by done. by apply (wf_found s A Hwf x), HE.
  - intros p bits Hb. destruct (wf_bitmap s A Hwf p bits Hb) as (? & (x & Hx & Hk) & Hc). split; [done|]. split.
    + exists x. split; [by apply HE|]. by rewrite HK by by apply HE.
    + intros y o Hy Hky Ho Hcov. rewrite HK in Hky by done. apply (Hc y o); [by apply HE|done|done|].
      destruct Hy as [Hy _]. by rewrite HBl in Hcov.
  - intros x Hx. rewrite HK by done. by apply (wf_protected s A Hwf x), HE.
  - destruct (wf_cache s A Hwf) as [? Hc]. split; [done|]. intros i v Hv Hv0.
    destruct (Hc i v Hv Hv0) as [? ?]. by rewrite HBl.
Qed.

Lemma wf_code_gen_ptr s A v : tbs_wf s A → tbs_wf (s <| code_gen_ptr := v |>) A.
Proof. intros []. by split. Qed.
Lemma wf_flag s A v : tbs_wf s A → tbs_wf (s <| tb_invalidated_flag := v |>) A.
Proof. intros []. by split. Qed.
Lemma wf_set_tb s A tb t : tbs_wf s A → tb ∉ known A → tbs_wf (s <| tbs := <[tb := t]> (tbs s) |>) A.
Proof.
  intros Hwf Hnew. pose proof (wf_slot s A tb t (nb_tbs s) Hwf Hnew ltac:(lia)) as H. by destruct s.
Qed.

(** What the search for a block may change besides the lists. *)
Definition find_frame s s' : Prop :=
  code_gen_buffer s' = code_gen_buffer s ∧ code_gen_buffer_size s' = code_gen_buffer_size s ∧
  code_gen_buffer_max_size s' = code_gen_buffer_max_size s ∧ code_gen_max_blocks s' = code_gen_max_blocks s ∧
  current_tb (stlb s') = current_tb (stlb s) ∧ (∀ a, code_page (guest_ram s) a → code_page (guest_ram s') a) ∧
  (tlb_clean (stlb s) (guest_ram s) → tlb_clean (stlb s') (guest_ram s')).

Section gen.
Context (get_phys_addr_code : Z → Z) (cpu_gen_code : Z → Z → Z → Z → Z * Z * Z * Z).

(** The page that the end of the block is on. *)
Definition last_page (pc size : Z) : Z := page_of (u32 (pc + size - 1)).

(** The block that would be generated lies in RAM, on one page or on two
    different ones, and its code fits in the room kept for it. *)
Record code_mapped s (pc cs_base flags cflags size gen_size : Z) : Prop := {
  cm_pc : is_u32 pc ∧ is_u32 (get_phys_addr_code pc) ∧ page_flags (get_phys_addr_code pc) = page_flags pc;
  cm_gen : (cpu_gen_code pc cs_base flags cflags).1.1 = (size, gen_size);
  cm_size : 1 ≤ size ≤ TARGET_PAGE_SIZE;
  cm_room : 0 ≤ gen_size ≤ code_gen_buffer_size s - code_gen_buffer_max_size s - CODE_GEN_ALIGN;
  cm_page1 : code_page (guest_ram s) (page_of (get_phys_addr_code pc));
  cm_page2 : page_flags pc + size ≤ TARGET_PAGE_SIZE ∨
    code_page (guest_ram s) (get_phys_addr_code (last_page pc size)) ∧
    get_phys_addr_code (last_page pc size) ≠ page_of (get_phys_addr_code pc)
}.

Lemma crosses_page pc size : is_u32 pc → 1 ≤ size ≤ TARGET_PAGE_SIZE →
  (page_of pc =? last_page pc size) = (page_flags pc + size <=? TARGET_PAGE_SIZE).
Proof.
  intros Hpc Hs. unfold last_page. rewrite !page_of_div, page_flags_mod by (done || apply u32_bound).
  unfold TARGET_PAGE_SIZE, is_u32, u32 in *. destruct (Z.leb_spec (pc mod 1024 + size) 1024); [apply Z.eqb_eq|apply Z.eqb_neq].
  - rewrite Z.mod_small by dlia. dlia.
  - destruct (decide (pc + size - 1 < 2 ^ 32)); [rewrite Z.mod_small by lia; dlia|].
    replace (pc + size - 1) with (pc + size - 1 - 2 ^ 32 + 1 * 2 ^ 32) by lia.
    rewrite Z.mod_add, Z.mod_small by lia. dlia.
Qed.

(** Every allocated block has been linked. *)
Definition dense s (A : blocks) : Prop := ∀ u, 0 ≤ u < nb_tbs s → u ∈ known A.

(** The allocation of a block, after a flush when there is no room. *)
Definition get_slot (pc : Z) s : res (Z * tb_state) :=
  match tb_alloc pc s with
  | (Some tb, s) => Ok (tb, s)
  | (None, s) =>
      s ← tb_flush s;
      match tb_alloc pc s with
      | (Some tb, s) => Ok (tb, s <| tb_invalidated_flag := 1 |>)
      | (None, _) => Err NullPointer
      end
  end.

Lemma tb_alloc_room pc s A : tbs_wf s A → gen_ok s → nb_tbs s < code_gen_max_blocks s →
  code_gen_ptr s - code_gen_buffer s < code_gen_buffer_max_size s →
  ∃ s' t, tb_alloc pc s = (Some (nb_tbs s), s') ∧ tbs_wf s' A ∧ tb_pc t = pc ∧
    s' = s <| nb_tbs := nb_tbs s + 1 |> <| tbs := <[nb_tbs s := t]> (tbs s) |>.
Proof.
  intros Hwf Hg Hb Hm. unfold tb_alloc.
  rewrite (proj2 (Z.leb_gt _ _) Hb), (proj2 (Z.leb_gt _ _) Hm). cbn [orb].
  eexists _, _. split; [reflexivity|]. split; [|split; [|reflexivity]]; [|done].
  apply wf_slot; [done|by apply unused_block|lia].
Qed.

Lemma get_slot_ok pc s A : tbs_wf s A → gen_ok s →
  ∃ tb s' A' t, get_slot pc s = Ok (tb, s') ∧ (A' = A ∨ A' = no_blocks) ∧ tbs_wf s' A' ∧ gen_ok s' ∧ tb ∉ known A' ∧
    0 ≤ tb < nb_tbs s' ∧ tbs s' !! tb = Some t ∧ tb_pc t = pc ∧
    code_gen_ptr s' - code_gen_buffer s' < code_gen_buffer_max_size s' ∧
    find_frame s s' ∧ guest_ram s' = guest_ram s ∧
    (∀ h c, (c = LHash h ∨ ∃ u, u ∈ live A ∧ c = LHashNext u) → links s !! c = None → links s' !! c = None) ∧
    (A' = A ∨ ∀ h, links s' !! LHash h = None) ∧
    nb_tbs s' = tb + 1 ∧ (dense s A → ∀ u, 0 ≤ u < tb → u ∈ known A').
Proof.
  intros Hwf Hg. pose proof Hg as [Hnb [Hmb Hms] Hptr Htop]. unfold get_slot.
  destruct (decide (nb_tbs s < code_gen_max_blocks s ∧ code_gen_ptr s - code_gen_buffer s < code_gen_buffer_max_size s))
    as [[H1 H2]|Hno].
  - destruct (tb_alloc_room pc s A Hwf Hg H1 H2) as (s' & t & -> & Hwf' & Htp & ->).
    exists (nb_tbs s). eexists _, A, t. split; [reflexivity|]. split; [by left|]. split; [done|].
    split; [split; cbn; lia|]. split; [by apply unused_block|]. cbn. split; [lia|].
    split; [apply lookup_insert_eq|]. split; [done|]. split; [done|]. split; [by split_and!|]. split; [done|]. auto 10.
  - assert (tb_alloc pc s = (None, s)) as ->.
    { unfold tb_alloc. by replace (_ || _) with true by lia. }
    destruct (tb_flush_ok s) as (s1 & -> & Hwf1 & Enb & Eptr & Ebuf & Emb & Ebs & Ems & Eram & Etbs & Ecur & Etab & _ & Hh & Hn).
    { rewrite u64_small; unfold CODE_GEN_ALIGN in *; lia. }
    rewrite bind_ret.
    assert (gen_ok s1) as Hg1 by (split; rewrite ?Enb, ?Eptr, ?Ebuf, ?Emb, ?Ebs, ?Ems; lia).
    destruct (tb_alloc_room pc s1 no_blocks Hwf1 Hg1) as (s' & t & -> & Hwf' & Htp & ->); [lia..|].
    exists (nb_tbs s1). eexists _, no_blocks, t. split; [reflexivity|]. split; [by right|].
    split; [by apply wf_flag|]. split; [split; cbn; lia|]. split; [by intros ?%elem_of_empty|]. cbn. split; [lia|].
    split; [apply lookup_insert_eq|]. split; [done|]. split; [lia|].
    split; [unfold find_frame, tlb_clean; cbn; rewrite Eram, Etab; by split_and!|]. split; [done|]. split; [|split; [by right|split; [done|]]].
    + intros h c [-> |(u & _ & ->)] Hc; [by apply Hh|]. by rewrite Hn.
    + intros _ u Hu. rewrite Enb in Hu. lia.
Qed.

Lemma align_16 x : x .& Z.lnot (CODE_GEN_ALIGN - 1) = 16 * (x / 16).
Proof.
  change (CODE_GEN_ALIGN - 1) with (Z.ones 4). rewrite <- Z.ldiff_land, Z.ldiff_ones_r, Z.shiftr_div_pow2, Z.shiftl_mul_pow2 by lia.
  change (2 ^ 4) with 16. lia.
Qed.
Lemma gen_ok_ptr s v : gen_ok s → code_gen_buffer s ≤ v ≤ code_gen_buffer s + code_gen_buffer_size s →
  gen_ok (s <| code_gen_ptr := v |>).
Proof. intros [? ? ? ?] Hv. split; cbn; lia. Qed.

(** The pages of the block generated. *)
Definition page2_of (pc size : Z) : Z :=
  if page_of pc =? last_page pc size then no_addr else get_phys_addr_code (last_page pc size).

Lemma mapped_placed s m pc cs_base flags cflags size gsize t : code_mapped s pc cs_base flags cflags size gsize →
  m = guest_ram s → tb_pc t = pc → tb_size t = size → placed m t (get_phys_addr_code pc) (page2_of pc size).
Proof.
  intros [(? & ? & ?) _ ? _ ? H2] -> Ep Es. unfold page2_of. split; rewrite ?Ep, ?Es; [done..|].
  rewrite crosses_page by done. destruct (Z.leb_spec (page_flags pc + size) TARGET_PAGE_SIZE); [done|].
  by destruct H2 as [?|?]; [lia|].
Qed.

Lemma tb_gen_code_ok s A pc cs_base flags cflags size gsize : tbs_wf s A → gen_ok s →
  code_mapped s pc cs_base flags cflags size gsize →
  ∃ tb s' A' t, tb_gen_code get_phys_addr_code cpu_gen_code pc cs_base flags cflags s = Ok (tb, s') ∧
    (A' = A ∨ A' = no_blocks) ∧ tb ∉ known A' ∧ tbs_wf s' (link tb A') ∧ gen_ok s' ∧ find_frame s s' ∧
    blk (tbs s') tb = t ∧ tb_pc t = pc ∧ tb_cs_base t = cs_base ∧ tb_flags t = flags ∧ tb_size t = size ∧
    (dense s A → dense s' (link tb A')) ∧
    tb_cflags t = cflags ∧ page_addr0 t = page_of (get_phys_addr_code pc) ∧ page_addr1 t = page2_of pc size ∧
    let h := tb_phys_hash_func (get_phys_addr_code pc) in
    links s' !! LHash h = Some (tb, 0) ∧
    ∀ c, (c = LHash h ∨ ∃ u, u ∈ live A ∧ c = LHashNext u) → links s !! c = None →
         c = LHash h ∨ links s' !! c = None.
Proof.
  intros Hwf Hg Hm. unfold tb_gen_code. fold (get_slot pc s).
  destruct (get_slot_ok pc s A Hwf Hg) as
    (tb & s1 & A' & t0 & -> & HA & Hwf1 & Hg1 & Hnew & Htb & Ht0 & Hpc0 & Hroom & Hfr1 & Eram1 & Hnull & Hempty & Enb1 & Hdense).
  rewrite bind_ret. pose proof Hm as [_ Hgen Hsize Hgs _ _].
  destruct (cpu_gen_code pc cs_base flags cflags) as [[[size' gsize'] off0] off1] eqn:Egen.
  cbn in Hgen. injection Hgen as -> ->.
  unfold update_tb, get_tb. rewrite Ht0. cbn [from_option_res]. rewrite !bind_ret.
  set (t1 := mkTB _ _ _ _ _ _ _ _ _ _). fold (last_page pc size). fold (page2_of pc size).
  set (s2 := s1 <| tbs := _ |>). set (ptr := _ .& _).
  assert (code_gen_buffer s1 ≤ ptr ≤ code_gen_buffer s1 + code_gen_buffer_size s1) as Hptr.
  { destruct Hfr1 as (? & E1 & E2 & _). rewrite <- E1, <- E2 in Hgs. destruct Hg1 as [_ _ ? ?]. unfold ptr.
    rewrite align_16. change (code_gen_ptr s2) with (code_gen_ptr s1). unfold CODE_GEN_ALIGN in *.
    rewrite u64_small by lia. dlia. }
  assert (tbs_wf s2 A') as Hwf2 by by apply wf_set_tb.
  set (s3 := s2 <| code_gen_ptr := ptr |>).
  assert (tbs_wf s3 A') as Hwf3 by by apply wf_code_gen_ptr.
  assert (placed (guest_ram s3) t1 (get_phys_addr_code pc) (page2_of pc size)) as Hpl by by eapply mapped_placed.
  assert (tbs s3 !! tb = Some t1) as Ht1 by apply lookup_insert_eq.
  destruct (tb_link_phys_ok s3 A' tb t1 _ _ Hwf3 Hnew Htb Ht1 Hpl) as
    (s4 & J & -> & Hwf4 & Etbs4 & Hf4 & Hhead & Hnext).
  rewrite bind_ret. eexists tb, _, A', _. split; [reflexivity|]. split; [done|]. split; [done|]. split; [done|].
  split; [|split; [|split; [reflexivity|]]].
  - apply (gen_ok_ptr s1 ptr) in Hg1; [|done]. destruct Hg1 as [? ? ? ?], Hf4 as [Enb _ (_ & _ & Ep & _) (E1 & E2 & E3 & E4) _ _ _ _ _].
    split; cbn in *; rewrite ?Enb, ?Ep, ?E1, ?E2, ?E3, ?E4; cbn; done.
  - destruct Hf4 as [_ _ _ (E1 & E2 & E3 & E4) _ Ec Hp _ Hcl], Hfr1 as (? & ? & ? & ? & ? & Hp1 & Hcl1).
    split_and!; [etransitivity; [eassumption|done]..| |].
    + intros a Ha. by apply Hp, Hp1.
    + intros Hc. by apply Hcl, Hcl1.
  - cbn. rewrite Etbs4, upd_blk_eq. split_and!; try done.
    { intros Hd u Hu. cbn in *. rewrite (lf_nb _ _ Hf4) in Hu. change (nb_tbs s3) with (nb_tbs s1) in Hu.
      rewrite Enb1 in Hu. destruct (decide (u = tb)) as [->|Hne]; [set_solver|].
      apply elem_of_union. right. apply Hdense; [done|lia]. }
    intros c Hc Hcn. destruct (decide (c = LHash (tb_phys_hash_func (get_phys_addr_code pc)))) as [->|Hne]; [by left|right].
    destruct Hc as [->|(u & Hu & ->)]; [done|]. cbn. rewrite Hnext. case_decide as E.
    + destruct Hempty as [->|He]; [|apply He]. subst u. by apply (wf_live s A Hwf) in Hu.
    + change (links s3) with (links s1). apply (Hnull (tb_phys_hash_func (get_phys_addr_code pc))); [right; by exists u|done].
Qed.

(** ** Lookup *)
Lemma hash_search_ok pc cs_base flags s l : ∀ fuel a, (length l < fuel)%nat → seg (links s) hash_next a l None →
  (∀ x, x ∈ l → is_Some (tbs s !! x.1)) →
  ∃ c o, hash_search get_phys_addr_code fuel pc cs_base flags a s = Ok (c, o) ∧
    let matches t := tb_matches get_phys_addr_code pc cs_base flags (blk (tbs s) t) in
    match o with
    | None => c = last_cell hash_next a l ∧ ∀ x, x ∈ l → matches x.1 = false
    | Some t => ∃ l1 x l2, l = l1 ++ x :: l2 ∧ x.1 = t ∧ c = last_cell hash_next a l1 ∧ matches t = true
    end.
Proof.
  induction l as [|x l IH]; intros fuel a Hf Hs Hl; (destruct fuel as [|fuel]; [cbn in Hf; lia|]);
    cbn [hash_search seg] in *.
  - rewrite Hs. exists a, None. split; [done|]. split; [done|]. by intros x Hx%elem_of_nil.
  - destruct Hs as [-> Hs]. rewrite blk_get, bind_ret by (apply Hl; by left).
    destruct (tb_matches _ _ _ _ _) eqn:Em.
    + exists a, (Some x.1). split; [done|]. by exists [], x, l.
    + destruct (IH fuel (hash_next x)) as (c & o & -> & Ho);
        [cbn in Hf; lia|done|intros y Hy; apply Hl; by right|].
      exists c, o. split; [done|]. destruct o as [t|].
      * destruct Ho as (l1 & y & l2 & -> & ? & -> & ?). exists (x :: l1), y, l2. split; [done|]. split; [done|].
        split; [|done]. change (x :: l1) with ([] ++ x :: l1). by rewrite last_cell_app.
      * destruct Ho as [-> Ho]. split.
        -- change (x :: l) with ([] ++ x :: l). by rewrite last_cell_app.
        -- intros y [-> |Hy]%elem_of_cons; [done|by apply Ho].
Qed.

Lemma wf_hash_only s A L : tbs_wf s A → hash_ok (tbs s) L (live A) → agree is_page (links s) L →
  agree is_jmp (links s) L → tbs_wf (s <| links := L |>) A.
Proof.
  intros Hwf HH Hp Hj. destruct (wf_page s A Hwf) as [pc HP]. pose proof (wf_jump s A Hwf) as HJ.
  destruct Hwf. split; try done.
  - exists pc. by eapply page_at_frame.
  - by eapply jump_ok_frame.
Qed.

(** Moving a block to the head of its list keeps the set of blocks. *)
Lemma move_to_head_ok s A hc h l1 tb l2 : tbs_wf s A → hash_lists (links s) hc →
  (∀ h x, x ∈ hc h ↔ x.2 = 0 ∧ x.1 ∈ live A ∧ hash_key (blk (tbs s) x.1) = h) → hc h = l1 ++ (tb, 0) :: l2 →
  ∃ L, move_to_head (last_cell hash_next (LHash h) l1) tb h s = s <| links := L |> ∧ tbs_wf (s <| links := L |>) A.
Proof.
  intros Hwf F Hm E. set (c := last_cell hash_next (LHash h) l1).
  pose proof (fam_seg F h I) as Hs. rewrite E in Hs. apply seg_app in Hs as [Hs _]. apply seg_last in Hs. fold c in Hs.
  unfold move_to_head. rewrite Hs.
  pose proof (fam_remove LHash hash_next (λ _, None) (λ x, x.2 = 0) (λ _, True) hash_head_inj hash_next_inj hash_head_next
    (links s) hc h l1 (tb, 0) l2 I E F) as F1.
  change (hash_next (tb, 0)) with (LHashNext tb) in F1. fold c in F1.
  pose proof (fam_nodup F h I) as Hn. rewrite E in Hn. apply NoDup_app in Hn as (_ & H12 & [Hx2 _]%NoDup_cons).
  assert (∀ k, True → (tb, 0) ∉ upd h (l1 ++ l2) hc k) as Hnew.
  { intros k _. unfold upd. case_decide as Ek.
    - rewrite elem_of_app. intros [?|?]; [|done]. eapply H12; [done|by left].
    - intros Hin. apply Ek. apply (fam_disj F k h (tb, 0)); [done..|]. rewrite E, elem_of_app. right. by left. }
  pose proof (fam_push LHash hash_next (λ _, None) (λ x, x.2 = 0) (λ _, True) hash_head_inj hash_next_inj hash_head_next
    _ _ h (tb, 0) I eq_refl Hnew F1) as F2.
  eexists. split; [reflexivity|]. pose proof (hash_cell _ _ _ (last_cell_in hash_next (LHash h) l1)) as Hc. fold c in Hc.
  assert (∀ P : loc → Prop, (∀ b, is_hash b → ¬ P b) →
    agree P (links s) (store (LHash h) (Some (tb, 0)) (store (LHashNext tb)
      (store c (links s !! LHashNext tb) (links s) !! LHash h) (store c (links s !! LHashNext tb) (links s))))) as Hag.
  { intros P HP. eapply agree_trans; [eapply agree_trans|]; [apply agree_store..|]; [..|apply agree_store]; by apply HP. }
  apply wf_hash_only; [done| |..].
  - eexists. split; [exact F2|]. intros k x. rewrite <- Hm. destruct (decide (k = h)) as [->|Ek]; [|by rewrite !upd_ne].
    rewrite !upd_eq, E. rewrite elem_of_cons, !elem_of_app, elem_of_cons. tauto.
  - apply Hag. apply hash_only.
  - apply Hag. apply hash_only.
Qed.

(** The jump cache entry that a lookup leaves. *)
Lemma cache_put_ok s A tb pc : tbs_wf s A → tb ∈ live A → tb_pc (blk (tbs s) tb) = pc →
  ∃ l, aput (tb_jmp_cache (stlb s)) (tb_jmp_cache_hash_func pc) (tb_ptr tb) = Ok l ∧
    tbs_wf (s <| stlb := (stlb s) <| tb_jmp_cache := l |> |>) A.
Proof.
  intros Hwf Hl Hpc. destruct (wf_cache s A Hwf) as [Hz Hc].
  assert (0 ≤ tb_jmp_cache_hash_func pc < zlength (tb_jmp_cache (stlb s))) as Hr.
  { rewrite Hz. pose proof (hash_func_range pc). pose proof (hash_page_bound pc). unfold TB_JMP_CACHE_SIZE. lia. }
  rewrite aput_Ok by done. eexists. split; [done|].
  destruct Hwf. split; try done. cbn. rewrite zlength_zinsert. split; [done|].
  intros i v. rewrite zlookup_zinsert_dec by done. case_decide as E; [|apply Hc].
  intros [= <-] _. unfold tb_ptr. replace (tb + 1 - 1) with tb by lia. by rewrite Hpc.
Qed.

Definition matches (B : gmap Z TranslationBlock) (pc cs_base flags t : Z) : Prop :=
  tb_matches get_phys_addr_code pc cs_base flags (blk B t) = true.

Lemma last_page_next pc size : is_u32 pc → 1 ≤ size ≤ TARGET_PAGE_SIZE → page_of pc ≠ last_page pc size →
  last_page pc size = u32 (page_of pc + TARGET_PAGE_SIZE).
Proof.
  intros Hpc Hs Hne. apply Z.eqb_neq in Hne. rewrite crosses_page in Hne by done.
  apply Z.leb_gt in Hne. unfold last_page. rewrite !page_of_div by (done || apply u32_bound).
  rewrite page_flags_mod in Hne. unfold TARGET_PAGE_SIZE, is_u32, u32 in *.
  destruct (decide (pc + size - 1 < 2 ^ 32)).
  - rewrite (Z.mod_small (pc + size - 1)), Z.mod_small by dlia. dlia.
  - replace (pc + size - 1) with (pc + size - 1 - 2 ^ 32 + 1 * 2 ^ 32) by lia.
    replace (pc / 1024 * 1024 + 1024) with (pc / 1024 * 1024 + 1024 - 2 ^ 32 + 1 * 2 ^ 32) by lia.
    rewrite !Z.mod_add, !Z.mod_small by dlia. dlia.
Qed.

Lemma generated_matches s t pc cs_base flags size gsize : code_mapped s pc cs_base flags 0 size gsize →
  tb_pc t = pc → tb_cs_base t = cs_base → tb_flags t = flags → page_addr0 t = page_of (get_phys_addr_code pc) →
  page_addr1 t = page2_of pc size → tb_matches get_phys_addr_code pc cs_base flags t = true.
Proof.
  unfold tb_matches, page2_of. intros [(Hpc & _) _ Hs _ _ _] -> -> -> -> ->. rewrite !Z.eqb_refl. cbn [andb].
  destruct (Z.eqb_spec (page_of pc) (last_page pc size)) as [E|E]; [done|].
  rewrite <- (last_page_next pc size) by done. destruct (negb _); [apply Z.eqb_refl|done].
Qed.

(** A block that matches is on the list that is searched. *)
Lemma matches_key B pc cs_base flags t : is_u32 (get_phys_addr_code pc) →
  page_flags (get_phys_addr_code pc) = page_flags pc → matches B pc cs_base flags t →
  hash_key (blk B t) = tb_phys_hash_func (get_phys_addr_code pc).
Proof.
  unfold matches, tb_matches. intros Hu Hf Hm.
  apply andb_prop in Hm as [[[[Hp Hpg]%andb_prop _]%andb_prop _]%andb_prop _].
  apply Z.eqb_eq in Hp. apply Z.eqb_eq in Hpg. unfold hash_key, tb_phys_pc. f_equal.
  rewrite Hp, Hpg, <- Hf, page_flags_mod, page_of_div by done.
  replace (get_phys_addr_code pc / 1024 * 1024 + get_phys_addr_code pc mod 1024) with (get_phys_addr_code pc) by dlia.
  by apply u32_small.
Qed.

Lemma tb_find_slow_ok s A pc cs_base flags size gsize : tbs_wf s A → gen_ok s → is_u32 (get_phys_addr_code pc) →
  page_flags (get_phys_addr_code pc) = page_flags pc →
  ((∀ t, t ∈ live A → ¬ matches (tbs s) pc cs_base flags t) → code_mapped s pc cs_base flags 0 size gsize) →
  ∃ tb s' A', tb_find_slow get_phys_addr_code cpu_gen_code pc cs_base flags s = Ok (tb, s') ∧
    tbs_wf s' A' ∧ gen_ok s' ∧ find_frame s s' ∧ (dense s A → dense s' A') ∧ tb ∈ live A' ∧ matches (tbs s') pc cs_base flags tb ∧
    ((∃ t, t ∈ live A ∧ matches (tbs s) pc cs_base flags t) → A' = A ∧ tbs s' = tbs s) ∧
    ((∀ t, t ∈ live A → ¬ matches (tbs s) pc cs_base flags t) → A' = link tb A ∨ A' = link tb no_blocks).
Proof.
  intros Hwf Hg Hu Hf Hmap. unfold tb_find_slow. set (s0 := s <| tb_invalidated_flag := 0 |>).
  set (h := tb_phys_hash_func (get_phys_addr_code pc)).
  assert (tbs_wf s0 A) as Hwf0 by by apply wf_flag.
  destruct (wf_hash s A Hwf) as (hc & F & Hm).
  assert (∀ x, x ∈ hc h → is_Some (tbs s !! x.1)) as Hsome.
  { intros x (_ & Hl & _)%Hm. by apply (wf_known s A Hwf), (wf_live s A Hwf). }
  pose proof (fam_seg F h I) as Hs. pose proof (fam_nodup F h I) as Hn.
  assert (length (hc h) < fuel_of s)%nat as Hfuel.
  { apply (seg_length hash_next (links s) (LHash h) (hc h) None); [|done].
    apply (nodup_cells LHash hash_next (λ x, x.2 = 0) hash_next_inj hash_head_next); [|done]. intros x. by apply (fam_ok F h). }
  destruct (hash_search_ok pc cs_base flags s0 (hc h) (fuel_of s) (LHash h) Hfuel Hs Hsome) as (c & o & HE & Ho).
  change (fuel_of s) with (fuel_of s0) in HE. rewrite HE, bind_ret. destruct o as [t|].
  - destruct Ho as (l1 & [t' n] & l2 & E & Et & -> & Hmt). cbn in Et. subst t'. rewrite bind_ret.
    assert ((t, n) ∈ hc h) as Hin by (rewrite E, elem_of_app; right; by left).
    apply Hm in Hin as (En & Htl & _). cbn in En. subst n. cbn [fst] in Htl.
    destruct (move_to_head_ok s0 A hc h l1 t l2 Hwf0 F Hm E) as (L & -> & Hwf1).
    destruct (cache_put_ok _ A t pc Hwf1 Htl) as (l & -> & Hwf2).
    { unfold tb_matches in Hmt. rewrite !andb_true_iff in Hmt. destruct_and!. by apply Z.eqb_eq. }
    rewrite bind_ret. eexists t, _, A. split; [reflexivity|]. split; [done|].
    split; [destruct Hg; by split|]. split; [by split_and!|]. split; [done|]. split; [done|]. split; [done|]. split; [done|].
    intros Hno. by apply Hno in Hmt.
  - destruct Ho as [-> Ho].
    assert (∀ t, t ∈ live A → ¬ matches (tbs s) pc cs_base flags t) as Hno.
    { intros t Ht Hmt. assert ((t, 0) ∈ hc h) as Hin by (apply Hm; split_and!; [done..|by eapply matches_key]).
      apply Ho in Hin. unfold matches in Hmt. cbn in Hin. congruence. }
    specialize (Hmap Hno). assert (gen_ok s0) as Hg0 by (destruct Hg; by split).
    assert (code_mapped s0 pc cs_base flags 0 size gsize) as Hmap0 by (destruct Hmap; by split).
    destruct (tb_gen_code_ok s0 A pc cs_base flags 0 size gsize Hwf0 Hg0 Hmap0) as
      (tb & s1 & A1 & t & -> & HA & Hnew & Hwf1 & Hg1 & Hfr & Et & ? & ? & ? & ? & Hdense & _ & ? & ? & Hhead & Hnull).
    rewrite bind_ret. fold h in Hhead, Hnull.
    assert (tb ∈ live (link tb A1)) as Hlive by set_solver.
    assert (tb_matches get_phys_addr_code pc cs_base flags t = true) as Hmt by by eapply generated_matches.
    assert (∃ L, move_to_head (last_cell hash_next (LHash h) (hc h)) tb h s1 = s1 <| links := L |> ∧
                 tbs_wf (s1 <| links := L |>) (link tb A1)) as (L & -> & Hwf2).
    { destruct (Hnull (last_cell hash_next (LHash h) (hc h))) as [E|E].
      - pose proof (last_cell_in hash_next (LHash h) (hc h)) as Hin.
        apply in_cells in Hin as [?|([t' n] & Hx & ?)]; [by left|right]. exists t'.
        apply Hm in Hx as (_ & ? & _). by split.
      - by apply seg_last in Hs.
      - destruct (wf_hash _ _ Hwf1) as (hc1 & F1 & Hm1). pose proof (fam_seg F1 h I) as Hs1. apply seg_head in Hs1.
        rewrite Hhead in Hs1. destruct (hc1 h) as [|x l2] eqn:El; [done|]. injection Hs1 as <-.
        rewrite E. by apply (move_to_head_ok s1 (link tb A1) hc1 h [] tb l2).
      - exists (links s1). unfold move_to_head. rewrite E. split; by destruct s1. }
    destruct (cache_put_ok _ _ tb pc Hwf2 Hlive) as (l & -> & Hwf3).
    { change (tb_pc (blk (tbs s1) tb) = pc). by rewrite Et. }
    rewrite bind_ret. eexists tb, _, (link tb A1). split; [reflexivity|]. split; [done|].
    split; [destruct Hg1; by split|]. split; [done|]. split; [done|]. split; [done|].
    split; [unfold matches; change (tb_matches get_phys_addr_code pc cs_base flags (blk (tbs s1) tb) = true); by rewrite Et|].
    split; [intros (u & ? & Hu'); by apply Hno in Hu'|]. intros _. destruct HA as [->| ->]; [by left|by right].
Qed.

(** The program state that a block was made for. *)
Definition made_for (B : gmap Z TranslationBlock) (pc cs_base flags t : Z) : Prop :=
  tb_pc (blk B t) = pc ∧ tb_cs_base (blk B t) = cs_base ∧ tb_flags (blk B t) = flags.
Lemma matches_made B pc cs_base flags t : matches B pc cs_base flags t → made_for B pc cs_base flags t.
Proof.
  unfold matches, tb_matches. rewrite !andb_true_iff. intros. destruct_and!. by split_and!; apply Z.eqb_eq.
Qed.

Lemma tb_find_fast_ok s A pc cs_base flags size gsize : tbs_wf s A → gen_ok s → is_u32 (get_phys_addr_code pc) →
  page_flags (get_phys_addr_code pc) = page_flags pc →
  ((∀ t, t ∈ live A → ¬ matches (tbs s) pc cs_base flags t) → code_mapped s pc cs_base flags 0 size gsize) →
  ∃ tb s' A', tb_find_fast get_phys_addr_code cpu_gen_code pc cs_base flags s = Ok (tb, s') ∧
    tbs_wf s' A' ∧ gen_ok s' ∧ find_frame s s' ∧ (dense s A → dense s' A') ∧ tb ∈ live A' ∧
    made_for (tbs s') pc cs_base flags tb ∧
    ((∃ t, t ∈ live A ∧ matches (tbs s) pc cs_base flags t) → A' = A ∧ tbs s' = tbs s).
Proof.
  intros Hwf Hg Hu Hf Hmap. destruct (wf_cache s A Hwf) as [Hz Hc].
  assert (0 ≤ tb_jmp_cache_hash_func pc < zlength (tb_jmp_cache (stlb s))) as Hr.
  { rewrite Hz. pose proof (hash_func_range pc). pose proof (hash_page_bound pc). unfold TB_JMP_CACHE_SIZE. lia. }
  destruct (tb_find_slow_ok s A pc cs_base flags size gsize Hwf Hg Hu Hf Hmap) as
    (tb & s' & A' & Eslow & Hwf' & Hg' & Hfr & Hd & Hlive & Hmt & Hfound & _).
  apply matches_made in Hmt. destruct (zlookup_in_range _ _ Hr) as [v Hv].
  unfold tb_find_fast. rewrite (aget_Ok _ _ _ Hv), bind_ret, Eslow. unfold truth.
  destruct (Z.eqb_spec v 0) as [E|Hv0]; cbn [negb]; [by exists tb, s', A'; split_and!|].
  destruct (Hc _ v Hv Hv0) as [Hl _].
  rewrite blk_get, bind_ret by (by apply (wf_known s A Hwf), (wf_live s A Hwf)).
  destruct (_ && _) eqn:E; [|by exists tb, s', A'; split_and!].
  rewrite !andb_true_iff, !Z.eqb_eq in E. destruct E as [[? ?] ?].
  exists (v - 1), s, A. by split_and!.
Qed.
End gen.

(** Chaining a block to the one found after it. *)
Definition chain_next (prev : option tagged) (tb : Z) s : res tb_state :=
  match prev with None => Ok s | Some (t, n) => tb_add_jump t n tb s end.
Lemma chain_next_ok s A prev tb : tbs_wf s A → dense s A → tb ∈ live A →
  (∀ t n, prev = Some (t, n) → tag01 (t, n) ∧ 0 ≤ t < nb_tbs s) →
  ∃ s' js, chain_next prev tb s = Ok s' ∧ tbs_wf s' (with_jumps js A) ∧ unchanged s s' ∧
    (∀ x u, js !! x = Some u → jumps A !! x = Some u ∨ prev = Some x ∧ u = tb).
Proof.
  intros Hwf Hd Hl Hp. destruct prev as [[t n]|]; cbn [chain_next].
  - destruct (Hp t n eq_refl) as [Htag Ht]. apply Hd in Ht.
    destruct (jumps A !! (t, n)) as [u|] eqn:Eu.
    + exists s, (jumps A). split; [|split; [by destruct A|split; [by apply unchanged_refl|by left]]].
      destruct (wf_jumps s A Hwf _ _ Eu) as (_ & _ & Hul & _).
      destruct (jump_link _ _ _ _ _ (wf_jump s A Hwf) Eu (wf_live s A Hwf u Hul)) as [v Hv].
      unfold tb_add_jump. cbn in Hv. by rewrite Hv.
    + destruct (tb_add_jump_ok s A t n tb Hwf Htag Ht Hl Eu) as (s' & -> & Hwf' & Hun).
      eexists s', _. split; [done|]. split; [done|]. split; [done|].
      intros x w [[<- <-]|[_ Hx]]%lookup_insert_Some; [by right|by left].
  - exists s, (jumps A). split; [done|]. split; [by destruct A|]. split; [by apply unchanged_refl|by left].
Qed.
