(* ===== verification/TbCoherence.v ===== *)
(** * Pages that are stored to directly hold no translated code

    The software TLB and the block lists together: a transition system of what
    the execution loop and the memory system do to them, and its invariant. *)
From S2P Require Import Prelude SoftTlb ArmModeFacts PhysMem PhysMemFacts TbLists TransBlocks TransBlocksFacts TbSmc TbLink TbFind.

(** ** Entries of the software TLB *)
Lemma put_entry_elem m i e t t' row x : put_entry m i e t = Ok t' → row ∈ tlb_table t' → x ∈ row →
  x = e ∨ ∃ row', row' ∈ tlb_table t ∧ x ∈ row'.
Proof.
  unfold put_entry. intros H Hr Hx. apply bind_Ok in H as (r & Hr0 & H). apply bind_Ok in H as (r' & Hr' & H).
  apply bind_Ok in H as (tab & Htab & [= <-]). cbn in Hr.
  unfold aget, aput in *.
  destruct (zlookup (tlb_table t) m) as [r1|] eqn:E1; [|done]. cbn in Hr0. injection Hr0 as ->.
  injection Htab as <-. destruct (zlookup r i) as [y|] eqn:E2; [|done]. injection Hr' as <-.
  apply zlookup_split in E1 as (l1 & l2 & El & Hl). rewrite Hl in Hr.
  apply zlookup_split in E2 as (k1 & k2 & Ek & Hk). rewrite Hk in Hr. rewrite El. setoid_rewrite elem_of_app. setoid_rewrite elem_of_cons.
  apply elem_of_app in Hr as [Hr|[-> |Hr]%elem_of_cons]; [right; exists row; tauto| |right; exists row; tauto].
  apply elem_of_app in Hx as [Hx|[-> |Hx]%elem_of_cons]; [|by left|];
    (right; exists r; split; [tauto|]); rewrite Ek, elem_of_app, elem_of_cons; tauto.
Qed.
Definition tlb_all (P : CPUTLBEntry → Prop) (t : soft_tlb) : Prop := ∀ row e, row ∈ tlb_table t → e ∈ row → P e.
Lemma put_entry_all P m i e t t' : put_entry m i e t = Ok t' → tlb_all P t → P e → tlb_all P t'.
Proof.
  intros H Hc He row x Hr Hx. destruct (put_entry_elem _ _ _ _ _ _ _ H Hr Hx) as [->|(row' & ? & ?)]; eauto.
Qed.
Lemma put_iotlb_table m i v t t' : put_iotlb m i v t = Ok t' → tlb_table t' = tlb_table t.
Proof.
  unfold put_iotlb. intros H. apply bind_Ok in H as (r & _ & H). apply bind_Ok in H as (r' & _ & H).
  by apply bind_Ok in H as (tab & _ & [= <-]).
Qed.
Lemma get_entry_elem t m i e : get_entry t m i = Ok e → ∃ row, row ∈ tlb_table t ∧ e ∈ row.
Proof.
  unfold get_entry, aget. intros H. apply bind_Ok in H as (row & Hr & He).
  destruct (zlookup (tlb_table t) m) as [r|] eqn:E; [|done]. injection Hr as ->.
  destruct (zlookup row i) as [x|] eqn:E2; [|done]. injection He as ->.
  exists row. split; by eapply zlookup_elem.
Qed.

Lemma clean_more t m m' : ram_blocks m' = ram_blocks m →
  (∀ q, zlookup (phys_dirty m) q = Some 0xff → zlookup (phys_dirty m') q = Some 0xff) →
  tlb_clean t m → tlb_clean t m'.
Proof.
  intros Hb Hd Hc row e Hr He E. destruct (Hc row e Hr He E) as (a & ? & ? & Hh & ?). exists a.
  split; [done|split; [done|split; [|by apply Hd]]]. unfold host_page in *. by rewrite Hb.
Qed.
Lemma code_dirtied_clean t p m m' : code_dirtied p m m' → tlb_clean t m → tlb_clean t m'.
Proof.
  intros (E & _ & Hd). apply clean_more; [by rewrite E|]. intros q Hq.
  destruct (Hd q) as [-> |(_ & d & Hq' & ->)]; [done|]. rewrite Hq in Hq'. by injection Hq' as <-.
Qed.

(** An entry that is not valid for stores. *)
Lemma no_write_clean m e : addr_write e = no_addr → clean_entry m e.
Proof. intros E. unfold clean_entry. rewrite E. by intros ?. Qed.
Lemma tlb_flush_clean t g m : tlb_clean (tlb_flush t g) m.
Proof.
  intros row e (row' & -> & _)%elem_of_map (e' & -> & _)%elem_of_map. by apply no_write_clean.
Qed.
Lemma each_mode_all P i f t t' : each_mode i f t = Ok t' → (∀ e, P e → P (f e)) → tlb_all P t → tlb_all P t'.
Proof.
  unfold each_mode. intros H Hf Hc. apply bind_Ok in H as (e0 & H0 & H). apply bind_Ok in H as (t1 & H1 & H).
  apply bind_Ok in H as (e1 & H2 & H3).
  assert (tlb_all P t1) as Hc1.
  { eapply put_entry_all; [exact H1|done|]. apply Hf. apply get_entry_elem in H0 as (row & ? & ?). by apply (Hc row). }
  eapply put_entry_all; [exact H3|done|]. apply Hf. apply get_entry_elem in H2 as (row & ? & ?). by apply (Hc1 row).
Qed.
Lemma tlb_flush_page_clean a t t' m : tlb_flush_page a t = Ok t' → tlb_clean t m → tlb_clean t' m.
Proof.
  unfold tlb_flush_page. intros H Hc. apply bind_Ok in H as (t1 & H1 & H).
  assert (tlb_clean t1 m) as Hc1.
  { apply (each_mode_all (clean_entry m) _ _ _ _ H1); [|done]. intros e He. unfold tlb_flush_entry.
    destruct (_ || _); [by apply no_write_clean|done]. }
  unfold tlb_flush_jmp_cache in H. apply bind_Ok in H as (c1 & _ & H). by apply bind_Ok in H as (c2 & _ & [= <-]).
Qed.

(** ** Entering a translation *)
Lemma get_ram_ptr_inv a m p m' : qemu_get_ram_ptr a m = Ok (p, m') →
  ∃ b, b ∈ ram_blocks m ∧ in_block a b = true ∧ p = u64 (host b + (a - offset b)) ∧
    (∀ x, x ∈ ram_blocks m' ↔ x ∈ ram_blocks m) ∧ phys_dirty m' = phys_dirty m.
Proof.
  unfold qemu_get_ram_ptr, find_block. destruct (list_find _ (ram_blocks m)) as [[n b]|] eqn:E; [|done].
  apply list_find_Some in E as (Hl & Hin & _). intros [= <- <-]. exists b.
  split; [by eapply list_elem_of_lookup_2|]. split; [done|]. split; [done|].
  destruct (n =? 0)%nat; [done|]. split; [|done]. intros x. cbn.
  pose proof (delete_Permutation _ _ _ Hl) as P. by rewrite P at 2.
Qed.
Lemma clean_blocks t m m' : (∀ x, x ∈ ram_blocks m' ↔ x ∈ ram_blocks m) → phys_dirty m' = phys_dirty m →
  tlb_clean t m → tlb_clean t m'.
Proof.
  intros Hb Hd Hc row e Hr He E. destruct (Hc row e Hr He E) as (a & ? & ? & (b & ? & ?) & ?). exists a.
  split; [done|split; [done|split; [|by rewrite Hd]]]. exists b. by rewrite Hb.
Qed.

Lemma flag_not_ram a n : 0 ≤ n < 10 → Z.testbit a n = true → page_flags a ≠ IO_MEM_RAM.
Proof.
  unfold page_flags, IO_MEM_RAM. intros Hn Ha E.
  assert (Z.testbit (a .& 0x3FF) n = false) as Hb by (by rewrite E, Z.testbit_0_l).
  change 0x3FF with (Z.ones 10) in Hb. rewrite Z.land_spec, Ha, Z.testbit_ones_nonneg in Hb by lia. cbn in Hb. lia.
Qed.
Lemma watch_loop_flag wps vaddr paddr w a io : let a' := (watch_loop wps vaddr paddr w a io).1 in
  a' = a ∨ Z.testbit a' 5 = true.
Proof.
  revert a io. induction wps as [|wp wps IH]; intros a io; cbn [watch_loop]; [by left|].
  destruct (_ =? _); [|apply IH]. right. destruct (IH (a .| TLB_MMIO) (u32 (w + paddr))) as [-> | ->]; [|done].
  by rewrite Z.lor_spec, orb_true_r.
Qed.

(** A physical page descriptor: RAM, or at least the index of ROM. *)
Definition desc_ok (pd : Z) : Prop := is_u32 pd ∧ (page_flags pd = IO_MEM_RAM ∨ IO_MEM_ROM ≤ page_flags pd).

Lemma write_address_clean pd prot dirty address aw vaddr : desc_ok pd → page_flags vaddr = 0 →
  (address = vaddr ∧ is_io pd = false ∨ Z.testbit address 5 = true) →
  write_address pd address prot dirty = Ok aw → page_flags aw = IO_MEM_RAM →
  aw = vaddr ∧ page_flags pd = IO_MEM_RAM ∧ dirty = Ok true.
Proof.
  intros [Hu Hd] Hv Ha. unfold write_address. destruct (truth _); [|by intros [= <-]].
  assert (∀ x, page_flags (x .| TLB_MMIO) ≠ IO_MEM_RAM) as Hmm.
  { intros x. apply (flag_not_ram _ 5); [lia|]. by rewrite Z.lor_spec, orb_true_r. }
  destruct (Z.eqb_spec (page_flags pd) IO_MEM_ROM) as [Erom|Erom]; cbn [orb].
  { intros [= <-] E. by apply Hmm in E. }
  destruct (truth (pd .& IO_MEM_ROMD)) eqn:Eromd; [intros [= <-] E; by apply Hmm in E|].
  destruct (Z.eqb_spec (page_flags pd) IO_MEM_RAM) as [Eram|Eram].
  - intros H E. apply bind_Ok in H as (d & -> & [= <-]). destruct d; cbn [negb] in *.
    + destruct Ha as [[-> _]|Ha]; [done|]. by apply (flag_not_ram _ 5) in E.
    + exfalso. revert E. apply (flag_not_ram _ 4); [lia|]. by rewrite Z.lor_spec, orb_true_r.
  - intros [= <-] E. destruct Ha as [[-> Hio]|Ha]; [|by apply (flag_not_ram _ 5) in E].
    exfalso. unfold is_io in Hio. rewrite Eromd in Hio. cbn in Hio. rewrite andb_true_r in Hio.
    destruct Hd as [?|Hd]; [done|]. rewrite Z.gtb_ltb in Hio. apply Z.ltb_ge in Hio. lia.
Qed.

Lemma set_page_clean vaddr paddr prot mmu_idx t m t' m' : tlb_clean t m → page_of vaddr = vaddr → page_flags vaddr = 0 →
  desc_ok (page_descriptor m paddr).1 →
  tlb_set_page_exec vaddr paddr prot mmu_idx t m = Ok (t', m') →
  tlb_clean t' m' ∧ (∀ x, x ∈ ram_blocks m' ↔ x ∈ ram_blocks m) ∧ phys_dirty m' = phys_dirty m ∧
  tb_jmp_cache t' = tb_jmp_cache t ∧ current_tb t' = current_tb t.
Proof.
  intros Hc Hv Hvf Hd H. unfold tlb_set_page_exec in H.
  destruct (page_descriptor m paddr) as [pd p] eqn:Ed. cbn [fst] in Hd.
  apply bind_Ok in H as ([hb m1] & Hram & H).
  destruct (get_ram_ptr_inv _ _ _ _ Hram) as (b & Hb & Hin & -> & Hbs & Hdirty).
  set (address := if is_io pd then _ else _) in H.
  destruct (watch_loop (watchpoints t) vaddr paddr (io_mem_watch m1) address (iotlb_value pd paddr p)) as [addr' io'] eqn:Ew.
  apply bind_Ok in H as (t1 & Ht1 & H). apply bind_Ok in H as (e & He & H). apply bind_Ok in H as (aw & Haw & H).
  apply bind_Ok in H as (t2 & Ht2 & [= <- <-]).
  pose proof (put_iotlb_table _ _ _ _ _ Ht1) as Etab.
  assert (tlb_clean t1 m1) as Hc1 by (unfold tlb_clean; rewrite Etab; by apply (clean_blocks t m)).
  assert (tb_jmp_cache t2 = tb_jmp_cache t ∧ current_tb t2 = current_tb t) as [Hj Hcur].
  { unfold put_iotlb in Ht1. unfold put_entry in Ht2. repeat (apply bind_Ok in Ht1 as (? & _ & Ht1)).
    repeat (apply bind_Ok in Ht2 as (? & _ & Ht2)). injection Ht1 as <-. injection Ht2 as <-. done. }
  split; [|by rewrite Hdirty]. apply (put_entry_all (clean_entry m1) _ _ _ _ _ Ht2); [done|].
  intros E. cbn in E.
  assert (addr' = vaddr ∧ is_io pd = false ∨ Z.testbit addr' 5 = true) as Haddr.
  { pose proof (watch_loop_flag (watchpoints t) vaddr paddr (io_mem_watch m1) address (iotlb_value pd paddr p)) as Hw.
    rewrite Ew in Hw. cbn in Hw. destruct Hw as [-> |?]; [|by right]. unfold address.
    destruct (is_io pd) eqn:Eio; [right; by rewrite Z.lor_spec, orb_true_r|by left]. }
  destruct (write_address_clean _ _ _ _ _ _ Hd Hvf Haddr Haw E) as (-> & Epd & Edirty).
  destruct Hd as [Hu _]. unfold cpu_physical_memory_is_dirty in Edirty. apply bind_Ok in Edirty as (d & Hdd & Eff).
  injection Eff as Eff. apply Z.eqb_eq in Eff. subst d.
  exists (page_of pd). pose proof (page_of_div pd Hu) as Hp. unfold is_u32 in Hu.
  split; [dlia|]. split; [exists (pd / 1024); lia|]. split.
  - exists b. rewrite Hbs. split; [done|]. split; [done|]. cbn. rewrite Hv. solve_u64.
  - rewrite shiftr_page in *. replace (page_of pd / 1024) with (pd / 1024) by dlia. unfold aget in Hdd.
    by destruct (zlookup _ _) eqn:Ez in Hdd; [injection Hdd as ->|].
Qed.

(** ** The invariant of the software TLB and the blocks *)
Record coherent s (A : blocks) : Prop := {
  co_wf : tbs_wf s A;
  co_current : current_ok s A;
  co_gen : gen_ok s;
  co_dense : dense s A;
  co_clean : tlb_clean (stlb s) (guest_ram s)
}.

Lemma wf_outside s A t m : tbs_wf s A → zlength (tb_jmp_cache t) = TB_JMP_CACHE_SIZE →
  (∀ i v, zlookup (tb_jmp_cache t) i = Some v → v = 0 ∨ zlookup (tb_jmp_cache (stlb s)) i = Some v) →
  (∀ q, protected (guest_ram s) q → protected m q) →
  tbs_wf (s <| stlb := t |> <| guest_ram := m |>) A.
Proof.
  intros Hwf Hz Hc Hp. destruct (wf_cache s A Hwf) as [_ Hc0]. pose proof (wf_protected s A Hwf) as Hp0.
  destruct Hwf. split; try done.
  - intros x Hx. by apply Hp, Hp0.
  - split; [done|]. intros i v Hv Hv0. destruct (Hc i v Hv) as [?|Hv']; [done|]. by apply Hc0.
Qed.
Lemma gen_ok_outside s t m : gen_ok s → gen_ok (s <| stlb := t |> <| guest_ram := m |>).
Proof. intros []. by split. Qed.
Lemma gen_ok_bounds s s' : gen_bounds s' = gen_bounds s → nb_tbs s' = nb_tbs s → code_gen_ptr s' = code_gen_ptr s →
  gen_ok s → gen_ok s'.
Proof.
  unfold gen_bounds. intros [= E1 E2 E3 E4] E5 E6 []. split; rewrite ?E1, ?E2, ?E3, ?E4, ?E5, ?E6; done.
Qed.

Lemma coherent_outside s A t m : coherent s A → zlength (tb_jmp_cache t) = TB_JMP_CACHE_SIZE →
  (∀ i v, zlookup (tb_jmp_cache t) i = Some v → v = 0 ∨ zlookup (tb_jmp_cache (stlb s)) i = Some v) →
  (∀ q, protected (guest_ram s) q → protected m q) →
  (current_tb t ≠ 0 → current_tb t - 1 ∈ known A) → tlb_clean t m →
  coherent (s <| stlb := t |> <| guest_ram := m |>) A.
Proof. intros [] ? ? ? ? ?. split; try done; [by apply wf_outside|by apply gen_ok_outside]. Qed.

Lemma clear_range_lookup i n l l' : clear_range i n l = Ok l' → zlength l' = zlength l ∧
  ∀ j v, zlookup l' j = Some v → v = 0 ∨ zlookup l j = Some v.
Proof.
  unfold clear_range. destruct (Z.leb_spec 0 i); [|done]. destruct (Z.leb_spec (i + Z.of_nat n) (zlength l)); [|done].
  cbn [andb]. intros [= <-]. unfold zlength in *.
  assert (length (take (Z.to_nat i) l) = Z.to_nat i) as Ht by (rewrite length_take; lia).
  split; [rewrite !length_app, length_replicate, length_drop; lia|].
  intros j v. unfold zlookup. destruct (Z.leb_spec 0 j); [|done].
  destruct (decide (Z.to_nat j < Z.to_nat i)%nat).
  - rewrite lookup_app_l, lookup_take_lt by lia. by right.
  - rewrite lookup_app_r, Ht by lia. destruct (decide (Z.to_nat j - Z.to_nat i < n)%nat).
    + rewrite lookup_app_l by (rewrite length_replicate; lia). intros Hv%lookup_replicate. by left; destruct Hv.
    + rewrite lookup_app_r, length_replicate, lookup_drop by (rewrite length_replicate; lia).
      intros Hv. right. rewrite <- Hv. f_equal. lia.
Qed.
Lemma put_entry_rest m i e t t' : put_entry m i e t = Ok t' →
  tb_jmp_cache t' = tb_jmp_cache t ∧ current_tb t' = current_tb t.
Proof. unfold put_entry. intros H. repeat (apply bind_Ok in H as (? & _ & H)). by injection H as <-. Qed.
Lemma each_mode_rest i f t t' : each_mode i f t = Ok t' →
  tb_jmp_cache t' = tb_jmp_cache t ∧ current_tb t' = current_tb t.
Proof.
  unfold each_mode. intros H. apply bind_Ok in H as (e0 & _ & H). apply bind_Ok in H as (t1 & H1 & H).
  apply bind_Ok in H as (e1 & _ & H). apply put_entry_rest in H1 as [? ?], H as [? ?]. split; congruence.
Qed.
Lemma flush_page_cache a t t' : tlb_flush_page a t = Ok t' → zlength (tb_jmp_cache t) = TB_JMP_CACHE_SIZE →
  zlength (tb_jmp_cache t') = TB_JMP_CACHE_SIZE ∧ current_tb t' = 0 ∧
  ∀ j v, zlookup (tb_jmp_cache t') j = Some v → v = 0 ∨ zlookup (tb_jmp_cache t) j = Some v.
Proof.
  unfold tlb_flush_page. intros H Hz. apply bind_Ok in H as (t1 & H1 & H).
  destruct (each_mode_rest _ _ _ _ H1) as [Ej Ec].
  change (tb_jmp_cache t1 = tb_jmp_cache t) in Ej.
  unfold tlb_flush_jmp_cache in H. apply bind_Ok in H as (c1 & H2 & H). apply bind_Ok in H as (c2 & H3 & [= <-]).
  apply clear_range_lookup in H2 as [Hz2 Hc2], H3 as [Hz3 Hc3]. cbn. rewrite Hz3, Hz2, Ej. split; [done|].
  split; [done|]. intros j v Hv. destruct (Hc3 j v Hv) as [?|Hv']; [by left|]. rewrite <- Ej. by apply Hc2.
Qed.

(** ** What happens to the blocks while a machine runs *)
Section steps.
Context (get_phys_addr_code : Z → Z) (cpu_gen_code : Z → Z → Z → Z → Z * Z * Z * Z).

(** [env->current_tb = tb;] *)
Definition enter_tb (v : Z) s : tb_state := s <| stlb := (stlb s) <| current_tb := v |> |>.
Definition same_page (start stop : Z) s : Prop :=
  start < stop ∧ (stop - 1) >> TARGET_PAGE_BITS = start >> TARGET_PAGE_BITS ∧
  0 ≤ start >> TARGET_PAGE_BITS < zlength (phys_dirty (guest_ram s)).

Inductive tb_step : tb_state → tb_state → Prop :=
| step_run pc cs_base flags size gsize prev tb s s1 s2 :     (** find, chain and enter a block *)
    current_tb (stlb s) = 0 → code_mapped get_phys_addr_code cpu_gen_code s pc cs_base flags 0 size gsize →
    tb_find_fast get_phys_addr_code cpu_gen_code pc cs_base flags s = Ok (tb, s1) →
    (∀ t n, prev = Some (t, n) → tag01 (t, n) ∧ 0 ≤ t < nb_tbs s1) → chain_next prev tb s1 = Ok s2 →
    tb_step s (enter_tb (tb_ptr tb) s2)
| step_leave s : tb_step s (enter_tb 0 s)
| step_store start len s s' : len ∈ [1; 2; 4; 8] → (len | start) → same_page start (start + len) s →
    cpu_single_env s = true → tb_invalidate_phys_page_fast start len s = Ok s' → tb_step s s'
| step_write start stop s s' : same_page start stop s →
    tb_invalidate_phys_page_range start stop false s = Ok s' → tb_step s s'
| step_interrupt mask s s' : cpu_interrupt_tb mask s = Ok s' → tb_step s s'
| step_fill vaddr paddr prot mmu_idx t m s : page_of vaddr = vaddr → page_flags vaddr = 0 →
    desc_ok (page_descriptor (guest_ram s) paddr).1 →
    tlb_set_page_exec vaddr paddr prot mmu_idx (stlb s) (guest_ram s) = Ok (t, m) →
    tb_step s (s <| stlb := t |> <| guest_ram := m |>)
| step_tlb_flush g s : tb_step s (s <| stlb := tlb_flush (stlb s) g |> <| guest_ram := guest_ram s |>)
| step_tlb_flush_page a t s : tlb_flush_page a (stlb s) = Ok t →
    tb_step s (s <| stlb := t |> <| guest_ram := guest_ram s |>)
| step_tb_flush s s' : current_tb (stlb s) = 0 → tb_flush s = Ok s' → tb_step s s'
| step_dirty a fl m s : 0 ≤ fl < 256 →                       (** dirty bits of a page *)
    (fl .& CODE_DIRTY_FLAG = 0 ∨ ¬ protected (guest_ram s) (a >> TARGET_PAGE_BITS)) →
    cpu_physical_memory_set_dirty_flags a fl (guest_ram s) = Ok m →
    tb_step s (s <| stlb := stlb s |> <| guest_ram := m |>)
| step_set_dirty vaddr t s :                                 (** a page that is wholly dirty *)
    (∀ row e, row ∈ tlb_table (stlb s) → e ∈ row → addr_write e = (page_of vaddr .| TLB_NOTDIRTY) →
       clean_entry (guest_ram s) (e <| addr_write := page_of vaddr |>)) →
    tlb_set_dirty vaddr (stlb s) = Ok t → tb_step s (s <| stlb := t |> <| guest_ram := guest_ram s |>).

Lemma lor_ff fl : 0 ≤ fl < 256 → 0xff .| fl = 0xff.
Proof.
  intros Hf. change 0xff with (Z.ones 8). rewrite Z.lor_comm. destruct (decide (fl = 0)) as [->|]; [done|].
  apply Z.lor_ones_low; [lia|]. apply Z.log2_lt_pow2; [lia|]. change (2 ^ 8) with 256. lia.
Qed.
Lemma set_dirty_flags_facts a fl m m' : cpu_physical_memory_set_dirty_flags a fl m = Ok m' → 0 ≤ fl < 256 →
  (fl .& CODE_DIRTY_FLAG = 0 ∨ ¬ protected m (a >> TARGET_PAGE_BITS)) →
  (∀ q, protected m q → protected m' q) ∧ ∀ t, tlb_clean t m → tlb_clean t m'.
Proof.
  unfold cpu_physical_memory_set_dirty_flags. intros H Hf Hp. apply bind_Ok in H as (d & Hd & H).
  apply bind_Ok in H as (ds & Hds & [= <-]). unfold aget in Hd.
  destruct (zlookup (phys_dirty m) (a >> TARGET_PAGE_BITS)) as [d'|] eqn:E; [|done]. injection Hd as ->.
  pose proof (zlookup_Some_range _ _ _ E) as Hr. rewrite aput_Ok in Hds by done. injection Hds as <-. split.
  - intros q (d' & Hq & Hz). unfold protected. cbn. rewrite zlookup_zinsert_dec by done.
    case_decide as Eq; [|by exists d']. subst q. rewrite E in Hq. injection Hq as <-.
    eexists. split; [done|]. rewrite Z.land_lor_distr_l, Hz. destruct Hp as [-> |Hp]; [done|].
    exfalso. apply Hp. by exists d.
  - intros t. apply clean_more; [done|]. intros q Hq. cbn. rewrite zlookup_zinsert_dec by done.
    case_decide as Eq; [|done]. subst q. rewrite E in Hq. injection Hq as ->. by rewrite lor_ff.
Qed.

Lemma range_coherent p D (q : Prop) s s' A A' : coherent s A → tbs_wf s' A' → current_ok s' A' → shrunk D q A A' →
  range_frame p s s' → coherent s' A'.
Proof.
  intros [] Hwf Hc [_ Hk _ _] (_ & Enb & _ & _ & _ & Ep & Et & Eb & Hd). split; [done|done| | |].
  - by apply (gen_ok_bounds s).
  - intros u Hu. rewrite Hk. apply co_dense0. by rewrite <- Enb.
  - unfold tlb_clean. rewrite Et. by eapply code_dirtied_clean.
Qed.

Lemma coherent_enter v s A : coherent s A → (v ≠ 0 → v - 1 ∈ known A) → coherent (enter_tb v s) A.
Proof. intros [Hwf _ Hg ? ?] Hv. split; try done; [destruct Hwf; by split|destruct Hg; by split]. Qed.

Lemma set_dirty_clean vaddr t t' m : tlb_set_dirty vaddr t = Ok t' → tlb_clean t m →
  (∀ row e, row ∈ tlb_table t → e ∈ row → addr_write e = (page_of vaddr .| TLB_NOTDIRTY) →
     clean_entry m (e <| addr_write := page_of vaddr |>)) → tlb_clean t' m.
Proof.
  intros H Hc Hv. set (va := page_of vaddr) in *.
  set (P := λ e, clean_entry m e ∧ (addr_write e = (va .| TLB_NOTDIRTY) → clean_entry m (e <| addr_write := va |>))).
  assert (tlb_all P t') as HP; [|intros row e Hr He; by destruct (HP row e Hr He)].
  apply (each_mode_all P _ _ _ _ H).
  - intros e [He1 He2]. unfold tlb_set_dirty1. fold (page_of vaddr). fold va.
    destruct (Z.eqb_spec (addr_write e) (va .| TLB_NOTDIRTY)) as [E|E]; [|done].
    split; [by apply He2|]. cbn. intros Eva. exfalso.
    assert (Z.testbit va 4 = true) as Hb by (by rewrite Eva, Z.lor_spec, orb_true_r).
    unfold va, page_of in Hb. rewrite Z.land_spec in Hb. by rewrite andb_false_r in Hb.
  - intros row e Hr He. split; [by apply (Hc row)|by apply (Hv row)].
Qed.

(** Every step keeps the invariant. *)
Lemma tb_step_coherent s s' A : tb_step s s' → coherent s A → ∃ A', coherent s' A'.
Proof.
  intros Hstep Hco. pose proof Hco as [Hwf Hc Hg Hd Hcl]. destruct Hstep.
  - (* run *)
    pose proof H0 as [(? & ? & ?) _ _ _ _ _].
    destruct (tb_find_fast_ok get_phys_addr_code cpu_gen_code s A pc cs_base flags size gsize Hwf Hg)
      as (u & s' & A1 & E & Hwf1 & Hg1 & (_ & _ & _ & _ & Ecur & _ & Hcl1) & Hd1 & Hl & _); [done..|].
    rewrite H1 in E. injection E as <- <-.
    destruct (chain_next_ok s1 A1 prev tb Hwf1 (Hd1 Hd) Hl H2) as
      (s3 & js & E & Hwf3 & (_ & Enb & _ & _ & _ & Er & Ep & Ec & Et & Eb) & _).
    rewrite H3 in E. injection E as <-. exists (with_jumps js A1). apply coherent_enter.
    + split; [done| | | |].
      * intros Hn. by rewrite Ec, Ecur, H in Hn.
      * by apply (gen_ok_bounds s1).
      * intros v Hv. rewrite Enb in Hv. by apply Hd1.
      * unfold tlb_clean. rewrite Et, Er. by apply Hcl1.
    + intros _. unfold tb_ptr. replace (tb + 1 - 1) with tb by lia. by apply (wf_live s1 A1 Hwf1).
  - exists A. by apply coherent_enter.
  - destruct H1 as (H11 & H12 & H13). rewrite (fast_is_range s A start len) in H3 by done.
    destruct (range_ok start (start + len) true s A Hwf Hc H11 H12 H13) as (s1 & A1 & D & E & ? & ? & ? & ? & _); [done|].
    rewrite H3 in E. injection E as <-. exists A1. by eapply range_coherent.
  - destruct H as (H11 & H12 & H13).
    destruct (range_ok start stop false s A Hwf Hc H11 H12 H13) as (s1 & A1 & D & E & ? & ? & ? & ? & _); [done|].
    rewrite H0 in E. injection E as <-. exists A1. by eapply range_coherent.
  - (* interrupt *)
    unfold cpu_interrupt_tb in H. set (s1 := s <| request := _ |>) in H.
    assert (tbs_wf s1 A) as Hwf1 by (destruct Hwf; by split).
    destruct (cpu_unlink_tb_ok s1 A Hwf1 Hc) as (s2 & js & E & Hwf2 & Hsl & Hsub & _ & Hcur & ? & Enb & ? & ? & ? & Er & Ep & Et & Eb).
    rewrite H in E. injection E as <-. exists (with_jumps js A). split; [done|by intros ?| | |].
    + apply (gen_ok_bounds s1); [done..|]. destruct Hg; by split.
    + intros u Hu. rewrite Enb in Hu. by apply Hd.
    + unfold tlb_clean. rewrite Et, Er. exact Hcl.
  - (* fill *)
    destruct (set_page_clean _ _ _ _ _ _ _ _ Hcl H H0 H1 H2) as (Hcl' & _ & Edirty & Ej & Ec).
    exists A. apply coherent_outside; try done; rewrite ?Ej, ?Ec; [apply (wf_cache s A Hwf)|by right| |done].
    intros q. unfold protected. by rewrite Edirty.
  - exists A. apply coherent_outside; try done; [|apply tlb_flush_clean].
    intros i v Hv. left. cbn in Hv. apply zlookup_elem, elem_of_replicate in Hv as [-> _]. done.
  - destruct (flush_page_cache _ _ _ H (proj1 (wf_cache s A Hwf))) as (? & E & ?).
    exists A. apply coherent_outside; try done. by eapply tlb_flush_page_clean.
  - (* tb_flush *)
    destruct (tb_flush_ok s) as (s1 & E & Hwf1 & Enb & Eptr & Ebuf & Emb & Ebs & Ems & Eram & Etbs & Ecur & Etab & _).
    { pose proof Hg as [? ? ? ?]. unfold CODE_GEN_ALIGN in *. rewrite u64_small; lia. }
    rewrite H0 in E. injection E as <-. exists no_blocks. split; [done| | | |].
    + intros Hn. by rewrite Ecur in Hn.
    + destruct Hg. split; rewrite ?Enb, ?Eptr, ?Ebuf, ?Emb, ?Ebs, ?Ems; lia.
    + intros u Hu. rewrite Enb in Hu. lia.
    + unfold tlb_clean. by rewrite Etab, Eram.
  - destruct (set_dirty_flags_facts _ _ _ _ H1 H H0) as [Hp Hcl'].
    exists A. apply coherent_outside; [done|apply (wf_cache s A Hwf)|by right|done|done|by apply Hcl'].
  - exists A. apply coherent_outside; [done|..]; [| |done| |by eapply set_dirty_clean].
    all: destruct (each_mode_rest _ _ _ _ H0) as [Ej Ec]; rewrite ?Ej, ?Ec; apply (wf_cache s A Hwf) || (by right) || done.
Qed.
End steps.
