(* ===== verification/TbCorrect.v ===== *)
(** * What the management of translated blocks guarantees

    The theorems about translated blocks, each with a state to which it
    applies. *)
From Stdlib Require Import ZifyBool.
From S2P Require Import Prelude SoftTlb ArmModeFacts PhysMem PhysMemFacts TbLists TransBlocks TransBlocksFacts TbSmc TbLink TbFind TbCoherence.

(** ** A machine with one block *)
Definition demo_tbs : tb_state :=
  mkTbState ∅ 0 1024 0x1000 0x1000 0x100000 0xF0000 ∅ ∅ ∅ ∅ 0 0 0 true 0 (tlb_flush tlb_boot true) demo_machine.
(** Identity mapping; blocks of 16 bytes with two jumps. *)
Definition demo_phys_addr (pc : Z) : Z := pc.
Definition demo_gen (pc cs_base flags cflags : Z) : Z * Z * Z * Z := (16, 64, 20, 40).

Lemma demo_blocks_wf : blocks_wf (ram_blocks demo_machine).
Proof.
  split.
  - apply Forall_singleton. cbn. split; [by exists 0|]. split; [by exists 1024|lia].
  - by intros b1 b2 a ->%list_elem_of_singleton ->%list_elem_of_singleton.
Qed.
Lemma demo_code_page p m : 0 ≤ p < 1000 → ram_blocks m = ram_blocks demo_machine →
  zlength (phys_dirty m) = 1024 → code_page m (p * 1024).
Proof.
  intros Hp Hb Hd. assert (is_u32 (p * 1024)) as Hu by (unfold is_u32; lia). split.
  - split; [unfold TARGET_PAGE_SIZE; lia|]. rewrite page_of_div by done. by rewrite Z.div_mul.
  - rewrite Hb. eexists. split; [by left|]. unfold in_block. cbn [offset blength]. apply Z.ltb_lt.
    rewrite u64_small; lia.
  - rewrite Hb. apply demo_blocks_wf.
  - rewrite Hd, shiftr_page, Z.div_mul; lia.
Qed.

Lemma demo_coherent : coherent demo_tbs no_blocks.
Proof.
  split.
  - apply wf_empty; try done. by apply Forall_replicate.
  - by intros ?.
  - split; cbn; unfold CODE_GEN_ALIGN; lia.
  - intros u Hu. cbn in Hu. lia.
  - apply tlb_flush_clean.
Qed.
Lemma demo_mapped s pc : 0 ≤ pc < 1000 * 1024 → pc mod 1024 < 1000 → ram_blocks (guest_ram s) = ram_blocks demo_machine →
  zlength (phys_dirty (guest_ram s)) = 1024 → gen_bounds s = gen_bounds demo_tbs →
  code_mapped demo_phys_addr demo_gen s pc 0 0 0 16 64.
Proof.
  intros Hpc Hm Hb Hd [= _ _ E1 E2]. assert (is_u32 pc) as Hu by (unfold is_u32; lia). split.
  - done.
  - done.
  - unfold TARGET_PAGE_SIZE. lia.
  - rewrite E1, E2. unfold CODE_GEN_ALIGN. lia.
  - unfold demo_phys_addr. rewrite page_of_div by done. apply demo_code_page; [dlia|done|done].
  - left. rewrite page_flags_mod. unfold TARGET_PAGE_SIZE. lia.
Qed.

(** The state after the block at 0x1008 was made, entered, and its page's bitmap
    built. *)
Definition res_state (r : res (Z * tb_state)) : tb_state := match r with Ok (_, s) => s | Err _ => demo_tbs end.
Definition one_block : tb_state := res_state (tb_find_fast demo_phys_addr demo_gen 0x1008 0 0 demo_tbs).
Definition two_blocks : tb_state := res_state (tb_find_fast demo_phys_addr demo_gen 0x2010 0 0 one_block).
Definition default_tbs (r : res tb_state) : tb_state := match r with Ok s => s | Err _ => demo_tbs end.
Definition marked : tb_state := default_tbs (build_page_bitmap 4 one_block).

(** Looking up a block keeps the invariant. *)
Lemma find_coherent gpa gen pc cs_base flags size gsize s A : coherent s A → current_tb (stlb s) = 0 →
  code_mapped gpa gen s pc cs_base flags 0 size gsize →
  ∃ tb s' A', tb_find_fast gpa gen pc cs_base flags s = Ok (tb, s') ∧ coherent s' A' ∧ tb ∈ live A' ∧
    current_tb (stlb s') = 0.
Proof.
  intros [Hwf Hc Hg Hd Hcl] H0 Hm. pose proof (cm_pc _ _ _ _ _ _ _ _ _ Hm) as (? & ? & ?).
  destruct (tb_find_fast_ok gpa gen s A pc cs_base flags size gsize Hwf Hg) as
    (tb & s' & A' & E & Hwf' & Hg' & (_ & _ & _ & _ & Ec & _ & Hcl') & Hd' & Hl & _); [done..|].
  exists tb, s', A'. split; [done|]. split; [|split; [done|congruence]].
  split; [done| |done|by apply Hd'|by apply Hcl']. intros Hn. by rewrite Ec, H0 in Hn.
Qed.

Lemma one_block_ok : ∃ A, coherent one_block A ∧ 0 ∈ live A ∧ current_tb (stlb one_block) = 0.
Proof.
  assert (code_mapped demo_phys_addr demo_gen demo_tbs 0x1008 0 0 0 16 64) as Hm by by apply demo_mapped.
  destruct (find_coherent _ _ _ _ _ _ _ _ _ demo_coherent eq_refl Hm) as (tb & s' & A & E & Hco & Hl & Hc).
  assert (tb = 0) as ->.
  { assert (match tb_find_fast demo_phys_addr demo_gen 0x1008 0 0 demo_tbs with Ok (t, _) => t | Err _ => 1 end = 0)
      as H by (by vm_compute). by rewrite E in H. }
  exists A. unfold one_block. rewrite E. exact (conj Hco (conj Hl Hc)).
Qed.
Lemma two_blocks_ok : ∃ A, coherent two_blocks A ∧ 0 ∈ known A ∧ 1 ∈ live A ∧ current_tb (stlb two_blocks) = 0.
Proof.
  destruct one_block_ok as (A0 & Hco & H0 & Hc).
  assert (code_mapped demo_phys_addr demo_gen one_block 0x2010 0 0 0 16 64) as Hm by (by apply demo_mapped; vm_compute).
  destruct (find_coherent _ _ _ _ _ _ _ _ _ Hco Hc Hm) as (tb & s' & A & E & Hco' & Hl & Hc').
  assert (tb = 1 ∧ nb_tbs s' = 2) as [-> Hn].
  { assert (match tb_find_fast demo_phys_addr demo_gen 0x2010 0 0 one_block with Ok (t, s) => (t, nb_tbs s) | Err _ => (0, 0) end
      = (1, 2)) as H by (by vm_compute). rewrite E in H. injection H as E1 E2. split; [exact E1|exact E2]. }
  exists A. unfold two_blocks. rewrite E. split; [exact Hco'|]. split; [|exact (conj Hl Hc')].
  apply (co_dense _ _ Hco'). rewrite Hn. lia.
Qed.

(** ** The lists refine the abstract state *)

(** The jump of a block, unless it is chained already. *)
Definition chain (x : tagged) (u : Z) (A : blocks) : blocks :=
  with_jumps (match jumps A !! x with Some _ => jumps A | None => <[x := u]> (jumps A) end) A.

(** C10: Linking a new block, chaining two blocks, invalidating a block and
    flushing never fault or loop on well-formed lists, and each does to the hash,
    page and jump lists what adding a block, adding a jump, removing a block with
    its jumps, and removing everything do to the set of live blocks and the map of
    chained jumps. *)
Theorem block_lists_refine s A : tbs_wf s A →
  (∀ tb t phys_pc phys_page2, tb ∉ known A → 0 ≤ tb < nb_tbs s → tbs s !! tb = Some t →
     placed (guest_ram s) t phys_pc phys_page2 →
     ∃ s', tb_link_phys tb phys_pc phys_page2 s = Ok s' ∧ tbs_wf s' (link tb A)) ∧
  (∀ t n u, tag01 (t, n) → t ∈ known A → u ∈ live A →
     ∃ s', tb_add_jump t n u s = Ok s' ∧ tbs_wf s' (chain (t, n) u A)) ∧
  (∀ t, t ∈ live A → ∃ s', tb_phys_invalidate t no_addr s = Ok s' ∧ tbs_wf s' (invalidate t A)) ∧
  (u64 (code_gen_ptr s - code_gen_buffer s) ≤ code_gen_buffer_size s →
     ∃ s', tb_flush s = Ok s' ∧ tbs_wf s' no_blocks).
Proof.
  intros Hwf. split; [|split; [|split]].
  - intros tb t a b ? ? ? ?. destruct (tb_link_phys_ok s A tb t a b) as (s' & J & E & ? & _); [done..|]. eauto.
  - intros t n u Htag Ht Hu. unfold chain. destruct (jumps A !! (t, n)) as [v|] eqn:Ev.
    + exists s. split; [|by destruct A]. destruct (wf_jumps s A Hwf _ _ Ev) as (_ & _ & Hv & _).
      destruct (jump_link _ _ _ _ _ (wf_jump s A Hwf) Ev (wf_live s A Hwf v Hv)) as [w Hw].
      unfold tb_add_jump. cbn in Hw. by rewrite Hw.
    + destruct (tb_add_jump_ok s A t n u) as (s' & E & ? & _); [done..|]. eauto.
  - intros t Ht. destruct (wf_page s A Hwf) as [pc HP].
    destruct (tb_phys_invalidate_ok s A t pc Hwf Ht HP) as (s' & E & ? & _). eauto.
  - intros Hb. destruct (tb_flush_ok s Hb) as (s' & E & ? & _). eauto.
Qed.
Lemma block_lists_refine_witness : ∃ A, 0 ∈ known A ∧ 1 ∈ live A ∧
  (∃ s', tb_add_jump 0 1 1 two_blocks = Ok s' ∧ tbs_wf s' (chain (0, 1) 1 A)) ∧
  (∃ s', tb_phys_invalidate 1 no_addr two_blocks = Ok s' ∧ tbs_wf s' (invalidate 1 A)).
Proof.
  destruct two_blocks_ok as (A & Hco & H0 & H1 & _). exists A. split; [exact H0|]. split; [exact H1|].
  destruct (block_lists_refine two_blocks A (co_wf _ _ Hco)) as (_ & Hj & Hi & _).
  split; [apply Hj; [by right|exact H0|exact H1]|by apply Hi].
Defined.

(** ** Code that is modified *)

(** C12: After bytes of a page are modified, exactly the live blocks with code among
    these bytes have been invalidated: no stale translation of them can be found
    or jumped to, every other block stays, and unless an interrupt is pending every
    jump between other blocks stays too. *)
Theorem range_invalidates_exactly s A start stop w : tbs_wf s A → current_ok s A → same_page start stop s →
  (w = true → cpu_single_env s = true) →
  ∃ s' A', tb_invalidate_phys_page_range start stop w s = Ok s' ∧ tbs_wf s' A' ∧ tbs s' = tbs s ∧
    (∀ t, t ∈ live A' ↔ t ∈ live A ∧ ¬ ∃ a, start ≤ a < stop ∧ code_at (tbs s) t a) ∧
    (∀ x u, jumps A' !! x = Some u → jumps A !! x = Some u ∧ ¬ ∃ a, start ≤ a < stop ∧ code_at (tbs s) u a) ∧
    (request s = 0 → ∀ x u, jumps A !! x = Some u → x.1 ∈ live A' → u ∈ live A' → jumps A' !! x = Some u).
Proof.
  intros Hwf Hc (Hlt & Hsame & Hr) Hw.
  destruct (range_ok start stop w s A Hwf Hc Hlt Hsame Hr Hw) as (s' & A' & D & E & Hwf' & _ & [Hl _ Hj Hk] & (Et & _) & HD).
  assert (∀ t, t ∈ live A' ↔ t ∈ live A ∧ ¬ ∃ a, start ≤ a < stop ∧ code_at (tbs s) t a) as Hlive.
  { intros t. rewrite Hl, elem_of_difference, HD. tauto. }
  exists s', A'. split; [done|]. split; [done|]. split; [done|]. split; [exact Hlive|]. split.
  - intros x u Hx. split; [by apply Hj|]. apply (wf_jumps s' A' Hwf') in Hx as (_ & _ & Hx & _). by apply Hlive in Hx as [_ ?].
  - intros Hq x u Hx Hx1 Hu. apply Hk; [done|done|..].
    + intros Hin%HD. apply Hlive in Hx1. naive_solver.
    + intros Hin%HD. apply Hlive in Hu. naive_solver.
Qed.
Lemma range_invalidates_exactly_witness : ∃ A s' A', 0 ∈ live A ∧
  tb_invalidate_phys_page_range 0x1010 0x1014 true one_block = Ok s' ∧
  (∀ t, t ∈ live A' ↔ t ∈ live A ∧ ¬ ∃ a, 0x1010 ≤ a < 0x1014 ∧ code_at (tbs one_block) t a).
Proof.
  destruct one_block_ok as (A & Hco & H0 & _).
  destruct (range_invalidates_exactly one_block A 0x1010 0x1014 true (co_wf _ _ Hco) (co_current _ _ Hco)) as
    (s' & A' & E & _ & _ & Hl & _).
  - split; [lia|]. split; [reflexivity|]. vm_compute. split; congruence.
  - reflexivity.
  - exists A, s', A'. exact (conj H0 (conj E Hl)).
Defined.

(** C16: For an aligned store of 1, 2, 4 or 8 bytes the check against the page's
    bitmap of code never changes the outcome: when it skips the invalidation, the
    invalidation would have found nothing and changed nothing. *)
Theorem fast_path_is_range s A start len : tbs_wf s A → len ∈ [1; 2; 4; 8] → (len | start) →
  tb_invalidate_phys_page_fast start len s = tb_invalidate_phys_page_range start (start + len) true s.
Proof. apply fast_is_range. Qed.

Lemma marked_ok : ∃ A, tbs_wf marked A ∧ 0 ∈ live A.
Proof.
  destruct one_block_ok as (A & Hco & H0 & _). pose proof (co_wf _ _ Hco) as Hwf. exists A. split; [|exact H0].
  destruct (wf_page _ _ Hwf) as [pc HP]. destruct (build_page_bitmap_ok one_block A pc 4 Hwf HP) as (bits & E & Hz & Hb).
  unfold marked. rewrite E. apply (wf_set_page_desc one_block A 4 _ Hwf). intros bits' [= <-]. split; [exact Hz|].
  assert (page_key 0 (blk (tbs one_block) 0) = 4) as Hk by (vm_compute; reflexivity).
  assert (page_addr 0 (blk (tbs one_block) 0) ≠ no_addr) as Hp by (vm_compute; congruence).
  split.
  - exists (0, 0). split; [split; [exact H0|split; [by left|exact Hp]]|exact Hk].
  - intros x o Hx Hkx Ho Hc. apply Hb; [exact Ho|]. exists x. split; [apply (proj2 HP); exact (conj Hx Hkx)|exact Hc].
Qed.
Lemma fast_path_is_range_witness : (∃ bits, code_bitmap (page_desc 4 marked) = Some bits) ∧
  tb_invalidate_phys_page_fast 0x1004 4 marked = tb_invalidate_phys_page_range 0x1004 0x1008 true marked ∧
  tb_invalidate_phys_page_fast 0x1010 2 marked = tb_invalidate_phys_page_range 0x1010 0x1012 true marked.
Proof.
  destruct marked_ok as (A & Hwf & _). split; [|split].
  - eexists. vm_compute. reflexivity.
  - apply (fast_path_is_range marked A 0x1004 4 Hwf); [right; right; by left|by exists 0x401].
  - apply (fast_path_is_range marked A 0x1010 2 Hwf); [right; by left|by exists 0x808].
Defined.

(** ** Interrupting chained blocks *)

(** The blocks that run after [t] without a return to the execution loop. *)
Inductive chained (js : gmap tagged Z) (t : Z) : Z → Prop :=
| chained_refl : chained js t t
| chained_step u v n : chained js t u → js !! (u, n) = Some v → chained js t v.

Lemma unchained_reach t js js' u : (∀ x v, js !! x = Some v → tag01 x) → unchained t js js' → chained js t u →
  js' !! (u, 0) = None ∧ js' !! (u, 1) = None.
Proof.
  intros Htag (_ & H0 & H1 & Hcl). induction 1 as [|u v n _ IH Hv]; [done|].
  apply (Hcl (u, n)); [done|]. destruct (Htag _ _ Hv) as [E|E]; cbn in E; subst n; apply IH.
Qed.

Lemma chained_live s A t u : tbs_wf s A → t ∈ live A → chained (jumps A) t u → u ∈ live A.
Proof. intros Hwf Ht. induction 1 as [|u v n _ _ Hv]; [done|]. by destruct (wf_jumps s A Hwf _ _ Hv) as (_ & _ & ? & _). Qed.

(** C14: After an interrupt request every block that the running one, which has
    not been invalidated, can reach through chained jumps leaves to the execution
    loop at either of its jumps; so execution returns to the loop at the end of a
    block, however the blocks were chained, loops included.  (A block that was
    invalidated while it runs is the exception: [invalidated_block_jumps_on].) *)
Theorem interrupt_unchains s A mask : tbs_wf s A → current_tb (stlb s) ≠ 0 → current_tb (stlb s) - 1 ∈ live A →
  ∃ s' js, cpu_interrupt_tb mask s = Ok s' ∧ tbs_wf s' (with_jumps js A) ∧ js ⊆ jumps A ∧
    request s' = request s .| mask ∧ current_tb (stlb s') = 0 ∧
    ∀ u, chained (jumps A) (current_tb (stlb s) - 1) u → u ∈ live A ∧
      ∀ n, tag01 (u, n) → js !! (u, n) = None ∧
        (tb_next_offset n (blk (tbs s) u) ≠ 0xffff → jmp_target s' !! (u, n) = Some (stub (tbs s) (u, n))).
Proof.
  intros Hwf Hcur Hlive. unfold cpu_interrupt_tb. set (s1 := s <| request := _ |>).
  assert (tbs_wf s1 A) as Hwf1 by (destruct Hwf; by split).
  assert (current_ok s1 A) as Hc by (intros _; by apply (wf_live _ _ Hwf)).
  destruct (cpu_unlink_tb_ok s1 A Hwf1 Hc) as
    (s' & js & -> & Hwf' & _ & Hsub & Hun & Hc' & Et & _ & _ & Hr & _).
  exists s', js. split; [done|]. split; [done|]. split; [done|]. split; [done|]. split; [done|].
  intros u Hu. pose proof (chained_live _ _ _ _ Hwf Hlive Hu) as Hul. split; [done|]. intros n Htag.
  assert (js !! (u, n) = None) as Hnone.
  { destruct (unchained_reach _ _ js u (λ x v Hx, proj1 (wf_jumps s A Hwf x v Hx)) (Hun Hcur) Hu) as [? ?].
    by destruct Htag as [E|E]; cbn in E; subst n. }
  split; [done|]. intros Ho. change (tbs s) with (tbs s1). rewrite <- Et.
  apply (wf_stub s' _ Hwf' (u, n)); try done. cbn. by rewrite Et.
Qed.

(** A block that jumps to itself. *)
Definition looping : tb_state := enter_tb 2 (default_tbs (tb_add_jump 1 0 1 two_blocks)).
Lemma looping_ok : ∃ A, tbs_wf looping A ∧ 1 ∈ live A ∧ jumps A !! (1, 0) = Some 1.
Proof.
  destruct two_blocks_ok as (A & Hco & _ & H1 & _). pose proof (co_wf _ _ Hco) as Hwf.
  pose proof (wf_live _ _ Hwf 1 H1) as H1k.
  assert (jumps A !! (1, 0) = None) as Hnone.
  { destruct (jumps A !! (1, 0)) as [u|] eqn:E; [exfalso|reflexivity].
    destruct (wf_jumps _ _ Hwf _ _ E) as (_ & _ & Hu & _).
    destruct (jump_link _ _ _ _ _ (wf_jump _ _ Hwf) E (wf_live _ _ Hwf u Hu)) as [v Hv].
    assert (links two_blocks !! LJmpNext 1 0 = None) as Hn by (vm_compute; reflexivity). cbn in Hv. congruence. }
  destruct (tb_add_jump_ok two_blocks A 1 0 1 Hwf ltac:(by left) H1k H1 Hnone) as (s' & E & Hwf' & _).
  exists (with_jumps (<[(1, 0) := 1]> (jumps A)) A). unfold looping. rewrite E. split; [|split; [exact H1|]].
  - clear -Hwf'. destruct Hwf'. by split.
  - apply lookup_insert_eq.
Qed.
Lemma interrupt_unchains_witness : ∃ A s' (js : gmap tagged Z), jumps A !! (1, 0) = Some 1 ∧
  cpu_interrupt_tb 2 looping = Ok s' ∧ js !! (1, 0) = None ∧ jmp_target s' !! (1, 0) = Some (stub (tbs looping) (1, 0)).
Proof.
  destruct looping_ok as (A & Hwf & H1 & Hj).
  destruct (interrupt_unchains looping A 2 Hwf) as (s' & js & E & _ & _ & _ & _ & Hu).
  - vm_compute. congruence.
  - exact H1.
  - exists A, s', js. destruct (Hu 1 (chained_refl _ _)) as [_ Hn]. destruct (Hn 0) as [Hnone Ht]; [by left|].
    split; [exact Hj|]. split; [exact E|]. split; [exact Hnone|]. apply Ht. vm_compute. congruence.
Defined.

(** ** Finding blocks *)

(** C15: Looking up the block for a program counter always ends, through any
    collision in the jump cache or the hash table and through a flush when there
    is no room, with a live block made for the program counter, code segment and
    flags of the CPU; code is generated only when no live block of that physical
    address fits, and the lists stay well formed. *)
Theorem tb_find_fast_finds gpa gen s A pc cs_base flags size gsize :
  tbs_wf s A → gen_ok s → is_u32 (gpa pc) → page_flags (gpa pc) = page_flags pc →
  ((∀ t, t ∈ live A → ¬ matches gpa (tbs s) pc cs_base flags t) → code_mapped gpa gen s pc cs_base flags 0 size gsize) →
  ∃ tb s' A', tb_find_fast gpa gen pc cs_base flags s = Ok (tb, s') ∧ tbs_wf s' A' ∧ gen_ok s' ∧
    tb ∈ live A' ∧ made_for (tbs s') pc cs_base flags tb ∧
    ((∃ t, t ∈ live A ∧ matches gpa (tbs s) pc cs_base flags t) → A' = A ∧ tbs s' = tbs s).
Proof.
  intros Hwf Hg Hu Hf Hm. destruct (tb_find_fast_ok gpa gen s A pc cs_base flags size gsize Hwf Hg Hu Hf Hm) as
    (tb & s' & A' & E & ? & ? & _ & _ & ? & ? & ?). by exists tb, s', A'.
Qed.
Lemma tb_find_fast_finds_witness : ∃ tb s' A',
  tb_find_fast demo_phys_addr demo_gen 0x1008 0 0 demo_tbs = Ok (tb, s') ∧ tb ∈ live A' ∧ made_for (tbs s') 0x1008 0 0 tb.
Proof.
  destruct (tb_find_fast_finds demo_phys_addr demo_gen demo_tbs no_blocks 0x1008 0 0 16 64) as
    (tb & s' & A' & E & _ & _ & Hl & Hm & _).
  - exact (co_wf _ _ demo_coherent).
  - exact (co_gen _ _ demo_coherent).
  - vm_compute. split; congruence.
  - reflexivity.
  - intros _. apply demo_mapped; [lia|reflexivity..].
  - exists tb, s', A'. exact (conj E (conj Hl Hm)).
Defined.

(** ** The block of a host address *)
Lemma find_pc_loop_ok s x : ∀ fuel m_min m_max, Z.of_nat fuel > m_max - m_min + 1 → 0 ≤ m_min → m_max < nb_tbs s →
  m_min ≤ m_max + 1 → 0 ≤ m_max →
  (∀ m, 0 ≤ m < nb_tbs s → is_Some (tbs s !! m)) →
  (∀ i j, 0 ≤ i < j → j < nb_tbs s → tc_ptr (blk (tbs s) i) < tc_ptr (blk (tbs s) j)) →
  tc_ptr (blk (tbs s) 0) ≤ x →
  (0 < m_min → tc_ptr (blk (tbs s) (m_min - 1)) < x) → (m_max + 1 < nb_tbs s → x < tc_ptr (blk (tbs s) (m_max + 1))) →
  ∃ m, find_pc_loop fuel x m_min m_max s = Ok m ∧ 0 ≤ m < nb_tbs s ∧ tc_ptr (blk (tbs s) m) ≤ x ∧
    (m + 1 < nb_tbs s → x < tc_ptr (blk (tbs s) (m + 1))).
Proof.
  induction fuel as [|fuel IH]; intros lo hi Hf H0 Hhi Hlh H0h Hs Hsort Hx Hlo Hup; [lia|]. cbn [find_pc_loop].
  destruct (Z.leb_spec lo hi) as [Hle|Hgt].
  - rewrite Z.shiftr_div_pow2 by lia. change (2 ^ 1) with 2. set (m := (lo + hi) / 2).
    assert (lo ≤ m ≤ hi) as Hm by (unfold m; dlia).
    rewrite blk_get, bind_ret by (apply Hs; lia).
    destruct (Z.eqb_spec (tc_ptr (blk (tbs s) m)) x) as [E|E].
    + exists m. split; [done|]. split; [lia|]. split; [lia|]. intros Hm1. rewrite <- E. apply Hsort; lia.
    + destruct (Z.ltb_spec x (tc_ptr (blk (tbs s) m))) as [Hlt|Hge].
      * assert (m ≠ 0) as Hm0 by (intros ->; lia).
        apply IH; try done; try lia. intros _. by replace (m - 1 + 1) with m by lia.
      * apply IH; try done; try lia. intros _. replace (m + 1 - 1) with m by lia. lia.
  - exists hi. split; [done|]. split; [lia|]. split; [|done]. destruct (decide (hi = 0)) as [->|]; [done|].
    replace hi with (lo - 1) by lia. pose proof (Hlo ltac:(lia)). lia.
Qed.

(** The binary search for the block of a host address ends and is exact: with the
    blocks in order of their code, it gives the block whose code the address is in,
    and none for an address outside the code buffer's used part. *)
Theorem tb_find_pc_finds s x : 0 < nb_tbs s → (∀ m, 0 ≤ m < nb_tbs s → is_Some (tbs s !! m)) →
  (∀ i j, 0 ≤ i < j → j < nb_tbs s → tc_ptr (blk (tbs s) i) < tc_ptr (blk (tbs s) j)) →
  tc_ptr (blk (tbs s) 0) = code_gen_buffer s →
  (code_gen_buffer s ≤ x < code_gen_ptr s →
     ∃ m, tb_find_pc x s = Ok (Some m) ∧ 0 ≤ m < nb_tbs s ∧ tc_ptr (blk (tbs s) m) ≤ x ∧
       (m + 1 < nb_tbs s → x < tc_ptr (blk (tbs s) (m + 1)))) ∧
  (¬ code_gen_buffer s ≤ x < code_gen_ptr s → tb_find_pc x s = Ok None).
Proof.
  intros Hnb Hs Hsort H0. unfold tb_find_pc. rewrite (proj2 (Z.leb_gt _ _) Hnb), Z.geb_leb. split.
  - intros Hx. rewrite (proj2 (Z.ltb_ge x _)), (proj2 (Z.leb_gt _ x)) by lia. cbn [orb].
    destruct (find_pc_loop_ok s x (S (Z.to_nat (nb_tbs s))) 0 (nb_tbs s - 1)) as (m & -> & ? & ? & ?);
      try done; try lia. by exists m.
  - intros Hx. by replace (_ || _) with true by lia.
Qed.
Lemma tb_find_pc_finds_witness : ∃ m, tb_find_pc 0x1048 two_blocks = Ok (Some m) ∧
  tc_ptr (blk (tbs two_blocks) m) ≤ 0x1048.
Proof.
  destruct (tb_find_pc_finds two_blocks 0x1048) as [H _].
  - vm_compute. reflexivity.
  - intros m Hm. assert (nb_tbs two_blocks = 2) as E by (vm_compute; reflexivity). rewrite E in Hm.
    assert (m = 0 ∨ m = 1) as [->| ->] by lia; vm_compute; by eexists.
  - intros i j Hi Hj. assert (nb_tbs two_blocks = 2) as E by (vm_compute; reflexivity). rewrite E in Hj.
    assert (i = 0) as -> by lia. assert (j = 1) as -> by lia. vm_compute. reflexivity.
  - vm_compute. reflexivity.
  - destruct H as (m & E & _ & Hm & _); [vm_compute; split; congruence|]. exists m. exact (conj E Hm).
Defined.

(** ** Stores that need no handler *)

(** C11: Whatever blocks are found, chained, entered, interrupted or flushed, whatever
    pages are entered in the software TLB or removed from it, and whatever code is
    modified: a page that a TLB entry lets generated code store to directly, without
    the handler that checks for translated code, has no byte of code of any live
    block; and the lists, the jump cache and the code buffer stay well formed. *)
Theorem direct_stores_avoid_code gpa gen s0 A0 s : coherent s0 A0 → rtc (tb_step gpa gen) s0 s →
  ∃ A, coherent s A ∧ ∀ mmu_idx i e, get_entry (stlb s) mmu_idx i = Ok e → page_flags (addr_write e) = IO_MEM_RAM →
    ∃ a, (1024 | a) ∧ host_page (guest_ram s) a (u64 (page_of (addr_write e) + addend e)) ∧
      ∀ t b, t ∈ live A → b >> TARGET_PAGE_BITS = a >> TARGET_PAGE_BITS → ¬ code_at (tbs s) t b.
Proof.
  intros Hco Hsteps. assert (∃ A, coherent s A) as [A HA].
  { revert A0 Hco. induction Hsteps as [s|s s1 s2 H _ IH]; intros A0 Hco; [by exists A0|].
    destruct (tb_step_coherent gpa gen s s1 A0 H Hco) as [A1 ?]. by apply (IH A1). }
  exists A. split; [done|]. intros mmu_idx i e He Hf. pose proof HA as [Hwf _ _ _ Hcl].
  destruct (get_entry_elem _ _ _ _ He) as (row & Hrow & Hin).
  destruct (Hcl row e Hrow Hin Hf) as (a & _ & Hdiv & Hh & Hff). exists a. split; [done|]. split; [done|].
  intros t b Ht Hb (n & Htag & Hne & Hk & _).
  destruct (wf_protected s A Hwf (t, n)) as (d & Hd & Hz); [by split_and!|]. cbn in Hd.
  rewrite Hk, Hb, Hff in Hd. by injection Hd as <-.
Qed.

Definition demo_fill : tb_state :=
  match tlb_set_page_exec 0x8000 0x4000 (PAGE_READ .| PAGE_WRITE) 1 (stlb one_block) (guest_ram one_block) with
  | Ok (t, m) => one_block <| stlb := t |> <| guest_ram := m |>
  | Err _ => one_block
  end.
Lemma direct_stores_avoid_code_witness : ∃ A e a, coherent demo_fill A ∧ get_entry (stlb demo_fill) 1 32 = Ok e ∧
  host_page (guest_ram demo_fill) a (u64 (page_of (addr_write e) + addend e)) ∧
  ∀ t b, t ∈ live A → b >> TARGET_PAGE_BITS = a >> TARGET_PAGE_BITS → ¬ code_at (tbs demo_fill) t b.
Proof.
  destruct one_block_ok as (A0 & Hco0 & _ & _).
  assert (tb_step demo_phys_addr demo_gen one_block demo_fill) as Hstep.
  { unfold demo_fill.
    destruct (tlb_set_page_exec 0x8000 0x4000 (PAGE_READ .| PAGE_WRITE) 1 (stlb one_block) (guest_ram one_block))
      as [[t m]|] eqn:E; [|exfalso; revert E; vm_compute; congruence].
    apply (step_fill demo_phys_addr demo_gen 0x8000 0x4000 (PAGE_READ .| PAGE_WRITE) 1 t m one_block); [reflexivity|reflexivity| |exact E].
    split; [vm_compute; split; congruence|left; vm_compute; reflexivity]. }
  destruct (direct_stores_avoid_code demo_phys_addr demo_gen one_block A0 demo_fill Hco0 (rtc_once _ _ Hstep)) as (A & HA & H).
  destruct (get_entry (stlb demo_fill) 1 32) as [e|] eqn:E; [|exfalso; revert E; vm_compute; congruence].
  assert (page_flags (addr_write e) = IO_MEM_RAM) as Hf.
  { assert (match get_entry (stlb demo_fill) 1 32 with Ok e => page_flags (addr_write e) | Err _ => 1 end = 0) as Hx
      by (vm_compute; reflexivity). rewrite E in Hx. exact Hx. }
  destruct (H 1 32 e E Hf) as (a & _ & Hh & Hc). exists A, e, a. exact (conj HA (conj eq_refl (conj Hh Hc))).
Defined.

(** ** Limits *)

(** Two virtual pages mapped to one physical page: a block that crosses from one to
    the other is twice on the list of that page, and invalidating it for the
    second entry follows a null pointer. *)
Definition alias_phys_addr (pc : Z) : Z := 0x1000 + pc mod 1024.
Lemma same_page_twice_faults :
  let s := res_state (tb_find_fast alias_phys_addr demo_gen 0x13F8 0 0 demo_tbs) in
  nb_tbs s = 1 ∧ links s !! LPage 4 = Some (0, 1) ∧ links s !! LPageNext 0 1 = Some (0, 0) ∧
  tb_invalidate_phys_page_range 0x1000 0x1400 true s = Err NullPointer.
Proof. vm_compute. repeat split. Qed.

(** A block that is invalidated while it runs keeps its direct jumps but leaves the
    lists, so an interrupt does not unlink the blocks it goes on to: here block 1,
    which jumps to itself. *)
Definition running : tb_state :=
  enter_tb 1 (default_tbs (tb_add_jump 0 0 1 (default_tbs (tb_add_jump 1 0 1 two_blocks)))).
Lemma invalidated_block_jumps_on :
  let s := default_tbs (cpu_interrupt_tb 2 (default_tbs (tb_invalidate_phys_page_fast 0x1010 4 running))) in
  jmp_target s !! (0, 0) = Some (tc_ptr (blk (tbs s) 1)) ∧ jmp_target s !! (1, 0) = Some (tc_ptr (blk (tbs s) 1)) ∧
  request s = 2 ∧ current_tb (stlb s) = 0.
Proof. vm_compute. repeat split. Qed.
