(* ===== verification/TbStore.v ===== *)
(** * Stores through the not-dirty handler

    The softmmu code takes the reaction to a store on a page with code as an
    interface ([TbCache]); here it is what the block lists do. *)
From S2P Require Import Prelude TlbTrace SoftTlb ArmCpu ArmMode ArmModeFacts PhysMem PhysMemFacts SoftMmu SoftMmuFacts TbLists TransBlocks TransBlocksFacts TbSmc TbLink TbFind TbCoherence TbCorrect.

(** The machine after the blocks have reacted to a store. *)
Definition tb_reaction (s : tb_state) : SoftMmu.TbCache := λ start len m,
  match TransBlocks.tb_invalidate_phys_page_fast start len (s <| guest_ram := m |>) with
  | Ok s' => guest_ram s'
  | Err _ => m
  end.

Lemma set_flags_protected a fl m m' : cpu_physical_memory_set_dirty_flags a fl m = Ok m' →
  (fl .& CODE_DIRTY_FLAG = 0 ∨ ¬ protected m (a >> TARGET_PAGE_BITS)) → ∀ q, protected m q → protected m' q.
Proof.
  unfold cpu_physical_memory_set_dirty_flags. intros H Hp. apply bind_Ok in H as (d & Hd & H).
  apply bind_Ok in H as (ds & Hds & [= <-]). unfold aget in Hd.
  destruct (zlookup (phys_dirty m) (a >> TARGET_PAGE_BITS)) as [d'|] eqn:E; [|done]. injection Hd as ->.
  pose proof (zlookup_Some_range _ _ _ E) as Hr. rewrite aput_Ok in Hds by done. injection Hds as <-.
  intros q (d' & Hq & Hz). unfold protected. cbn. rewrite zlookup_zinsert_dec by done.
  case_decide as Eq; [|by exists d']. subst q. rewrite E in Hq. injection Hq as <-.
  eexists. split; [done|]. rewrite Z.land_lor_distr_l, Hz. destruct Hp as [-> |Hp]; [done|].
  exfalso. apply Hp. by exists d.
Qed.
Lemma wf_ram s A m : tbs_wf s A → (∀ q, protected (guest_ram s) q → protected m q) → tbs_wf (s <| guest_ram := m |>) A.
Proof.
  intros Hwf Hp. pose proof (wf_protected s A Hwf) as Hp0. destruct Hwf. split; try done.
  intros x Hx. by apply Hp, Hp0.
Qed.
Lemma other_bits f : f .& CODE_DIRTY_FLAG = 0 → (f .| (0xff .& Z.lnot CODE_DIRTY_FLAG)) .& CODE_DIRTY_FLAG = 0.
Proof. intros Hf. by rewrite Z.land_lor_distr_l, Hf. Qed.

Section store.
Context {D : Type}.
Implicit Types σ : smmu D.

(** The write count and dirty bytes that the handler leaves. *)
Lemma notdirty_rest (m : machine) shift ram_addr val σ σ' :
  (flags ← aget (phys_dirty m) (ram_addr >> TARGET_PAGE_BITS);
   '(ptr, m) ← qemu_get_ram_ptr ram_addr m;
   let r := st_p (Z.to_nat (2 ^ shift)) ptr val (ram (pmem σ)) in
   let flags := flags .| (0xff .& Z.lnot CODE_DIRTY_FLAG) in
   m ← cpu_physical_memory_set_dirty_flags ram_addr flags m;
   let s := with_pmem (with_ram r (with_mach m (pmem σ))) σ in
   if flags =? 0xff then
     t ← tlb_set_dirty (mem_io_vaddr s) (tlb (cpu s));
     Ok (Done tt (with_cpu ((cpu s) <| tlb := t |>) s))
   else Ok (Done tt s)) = Ok (Done tt σ') →
  ∀ q, protected m q → protected (mach (pmem σ')) q.
Proof.
  intros H. apply bind_Ok in H as (f & Hf & H). apply bind_Ok in H as ([ptr m1] & Hp & H).
  destruct (get_ram_ptr_inv _ _ _ _ Hp) as (b & _ & _ & _ & _ & Ed).
  apply bind_Ok in H as (m2 & Hm & H).
  assert (mach (pmem σ') = m2) as ->.
  { destruct (_ =? 0xff); [apply bind_Ok in H as (t & _ & [= <-])|injection H as <-]; done. }
  assert (∀ q, protected m q ↔ protected m1 q) as Hiff by (intros q; unfold protected; by rewrite Ed).
  intros q Hq. apply (set_flags_protected _ _ _ _ Hm); [|by apply Hiff].
  destruct (decide (f .& CODE_DIRTY_FLAG = 0)) as [E|E]; [left; by apply other_bits|right].
  intros (d & Hd & Hz)%Hiff. unfold aget in Hf. rewrite Hd in Hf. injection Hf as ->. done.
Qed.
End store.

(** C13: When a store goes through the not-dirty handler of the softmmu, with the block
    lists as what reacts to it, afterwards no live block has code among the bytes
    stored, exactly the blocks that had are gone, and the lists are well formed over
    the new machine, whose other pages with code are still protected. *)
Theorem notdirty_store_invalidates {D : Type} s A (σ σ' : smmu D) shift ram_addr val :
  tbs_wf s A → current_ok s A → cpu_single_env s = true → mach (pmem σ) = guest_ram s →
  2 ^ shift ∈ [1; 2; 4; 8] → (2 ^ shift | ram_addr) → same_page ram_addr (ram_addr + 2 ^ shift) s →
  @notdirty_mem_write D (tb_reaction s) shift ram_addr val σ = Ok (Done tt σ') →
  ∃ s' A', tbs_wf (s' <| guest_ram := mach (pmem σ') |>) A' ∧ tbs s' = tbs s ∧
    (TransBlocks.tb_invalidate_phys_page_fast ram_addr (2 ^ shift) s = Ok s' ∨ s' = s) ∧
    ∀ t, t ∈ live A' ↔ t ∈ live A ∧ ¬ ∃ a, ram_addr ≤ a < ram_addr + 2 ^ shift ∧ code_at (tbs s) t a.
Proof.
  intros Hwf Hc Henv Hm Hlen Hdiv (Hlt & Hsame & Hr) H. unfold notdirty_mem_write in H. rewrite Hm in H.
  apply bind_Ok in H as (d & Hd & H). unfold truth in H. unfold aget in Hd.
  destruct (zlookup (phys_dirty (guest_ram s)) (ram_addr >> TARGET_PAGE_BITS)) as [d'|] eqn:Ed; [|done]. injection Hd as ->.
  destruct (Z.eqb_spec (d .& CODE_DIRTY_FLAG) 0) as [E|E]; cbn [negb] in H.
  - destruct (range_ok ram_addr (ram_addr + 2 ^ shift) true s A Hwf Hc Hlt Hsame Hr) as
      (s1 & A1 & B & E1 & Hwf1 & _ & [Hl _ _ _] & (Et & _) & HB); [done|].
    rewrite <- (fast_is_range s A) in E1 by done.
    exists s1, A1. split; [|split; [done|split; [by left|]]].
    + apply wf_ram; [done|]. apply (notdirty_rest (guest_ram s1) shift ram_addr val σ σ').
      unfold SoftMmu.tb_invalidate_phys_page_fast, tb_reaction in H.
      replace (s <| guest_ram := guest_ram s |>) with s in H by (by destruct s). rewrite E1 in H. exact H.
    + intros t. rewrite Hl, elem_of_difference, HB. tauto.
  - exists s, A. split; [|split; [done|split; [by right|]]].
    + apply wf_ram; [done|]. by apply (notdirty_rest (guest_ram s) shift ram_addr val σ σ').
    + intros t. split; [intros Ht; split; [done|]|by intros [? _]].
      intros (a & Ha & n & Htag & Hne & Hk & _).
      destruct (wf_protected s A Hwf (t, n)) as (d' & Hd' & Hz); [by split_and!|]. cbn in Hd'. apply E.
      replace (a >> TARGET_PAGE_BITS) with (ram_addr >> TARGET_PAGE_BITS) in Hk
        by (rewrite !shiftr_page in *; dlia).
      rewrite Hk, Ed in Hd'. by injection Hd' as ->.
Qed.
Definition demo_store : smmu unit :=
  mkSmmu demo_ram_cpu (mkPhysMem (guest_ram one_block) (λ _, 0) tt [] false) (trc demo_smmu) 0x1010 0.
Lemma notdirty_store_invalidates_witness : ∃ (σ' : smmu unit) A A', 0 ∈ live A ∧
  @notdirty_mem_write unit (tb_reaction one_block) 2 0x1010 0xABCD demo_store = Ok (Done tt σ') ∧
  ∀ t, t ∈ live A' ↔ t ∈ live A ∧ ¬ ∃ a, 0x1010 ≤ a < 0x1014 ∧ code_at (tbs one_block) t a.
Proof.
  destruct one_block_ok as (A & Hco & H0 & _).
  destruct (@notdirty_mem_write unit (tb_reaction one_block) 2 0x1010 0xABCD demo_store) as [o|] eqn:E;
    [|exfalso; revert E; vm_compute; congruence].
  assert (match o with Done _ _ => true | _ => false end = true) as Ho.
  { assert (match @notdirty_mem_write unit (tb_reaction one_block) 2 0x1010 0xABCD demo_store with
            | Ok (Done _ _) => true | _ => false end = true) as Hx by (vm_compute; reflexivity).
    rewrite E in Hx. exact Hx. }
  destruct o as [[] σ'|e σ'|σ']; [|exfalso; discriminate Ho..].
  destruct (@notdirty_store_invalidates unit one_block A demo_store σ' 2 0x1010 0xABCD
    (co_wf _ _ Hco) (co_current _ _ Hco) eq_refl eq_refl) as (s' & A' & _ & _ & _ & Hl).
  - right. right. by left.
  - by exists 0x404.
  - split; [reflexivity|]. split; [reflexivity|]. vm_compute. split; congruence.
  - exact E.
  - exists σ', A, A'. exact (conj H0 (conj eq_refl Hl)).
Defined.
