(* ===== verification/ArmAlu.v ===== *)
(** * Arithmetic helpers ([target-arm/op_helper.c], [target-arm/helper.c],
    [target-arm/op_addsub.h])

    Flag-setting addition and subtraction, shifts by a register, saturation,
    the parallel operations on bytes and halfwords, and the floating-point
    status register.  Operands are 32-bit words; a helper that assigns a flag
    returns the CPU. *)
From S2P Require Import Prelude SoftTlb ArmCpu.

Definition SIGNBIT : Z := 0x80000000.

Definition set_q (e : CPUARMState) : CPUARMState := e <| QF := 1 |>.

(** ** Saturation with the Q flag *)

(** [((res ^ a) & SIGNBIT) && !((a ^ b) & SIGNBIT)], and with the second test
    negated. *)
Definition add_overflows (a b res : Z) : bool :=
  truth ((res .^ a) .& SIGNBIT) && negb (truth ((a .^ b) .& SIGNBIT)).
Definition sub_overflows (a b res : Z) : bool :=
  truth ((res .^ a) .& SIGNBIT) && truth ((a .^ b) .& SIGNBIT).

(** [~(((int32_t)a >> 31) ^ SIGNBIT)] *)
Definition saturated (a : Z) : Z := u32 (Z.lnot (u32 (s32 a >> 31) .^ SIGNBIT)).

Definition add_setq (a b : Z) (e : CPUARMState) : Z * CPUARMState :=
  let res := u32 (a + b) in
  if add_overflows a b res then (res, set_q e) else (res, e).
Definition add_saturate (a b : Z) (e : CPUARMState) : Z * CPUARMState :=
  let res := u32 (a + b) in
  if add_overflows a b res then (saturated a, set_q e) else (res, e).
Definition sub_saturate (a b : Z) (e : CPUARMState) : Z * CPUARMState :=
  let res := u32 (a - b) in
  if sub_overflows a b res then (saturated a, set_q e) else (res, e).

(** [val] is an [int32_t]. *)
Definition double_saturate (val : Z) (e : CPUARMState) : Z * CPUARMState :=
  if val >=? 0x40000000 then (u32 (Z.lnot SIGNBIT), set_q e)
  else if val <=? s32 0xc0000000 then (SIGNBIT, set_q e)
  else (u32 (val << 1), e).

Definition add_usaturate (a b : Z) (e : CPUARMState) : Z * CPUARMState :=
  let res := u32 (a + b) in
  if res <? a then (u32 (Z.lnot 0), set_q e) else (res, e).
Definition sub_usaturate (a b : Z) (e : CPUARMState) : Z * CPUARMState :=
  let res := u32 (a - b) in
  if res >? a then (0, set_q e) else (res, e).

(** [val] is an [int32_t]; the results are [uint32_t]. *)
Definition do_ssat (val shift : Z) (e : CPUARMState) : Z * CPUARMState :=
  let top := val >> shift in
  let mask := u32 (1 << shift) - 1 in
  if 0 <? top then (mask, set_q e)
  else if top <? -1 then (u32 (Z.lnot mask), set_q e)
  else (u32 val, e).
Definition do_usat (val shift : Z) (e : CPUARMState) : Z * CPUARMState :=
  let max := u32 (1 << shift) - 1 in
  if val <? 0 then (0, set_q e)
  else if u32 val >? max then (max, set_q e)
  else (u32 val, e).

Definition ssat (x shift : Z) (e : CPUARMState) : Z * CPUARMState := do_ssat (s32 x) shift e.
Definition usat (x shift : Z) (e : CPUARMState) : Z * CPUARMState := do_usat (s32 x) shift e.

(** Both halfwords, the low one first. *)
Definition ssat16 (x shift : Z) (e : CPUARMState) : Z * CPUARMState :=
  let '(lo, e) := do_ssat (s16 x) shift e in
  let '(hi, e) := do_ssat (s32 x >> 16) shift e in
  (u16 lo .| u32 (hi << 16), e).
Definition usat16 (x shift : Z) (e : CPUARMState) : Z * CPUARMState :=
  let '(lo, e) := do_usat (s16 x) shift e in
  let '(hi, e) := do_usat (s32 x >> 16) shift e in
  (u16 lo .| u32 (hi << 16), e).

(** ** Arithmetic that sets the condition flags *)
Definition add_cc (a b : Z) (e : CPUARMState) : Z * CPUARMState :=
  let result := u32 (a + b) in
  (result, e <| NF := result |> <| ZF := result |> <| CF := of_bool (result <? a) |>
             <| VF := (a .^ b .^ 0xffffffff) .& (a .^ result) |>).

Definition adc_cc (a b : Z) (e : CPUARMState) : Z * CPUARMState :=
  let '(result, e) :=
    if negb (truth (CF e)) then
      let result := u32 (a + b) in (result, e <| CF := of_bool (result <? a) |>)
    else
      let result := u32 (a + b + 1) in (result, e <| CF := of_bool (result <=? a) |>) in
  (result, e <| VF := (a .^ b .^ 0xffffffff) .& (a .^ result) |>
             <| NF := result |> <| ZF := result |>).

Definition sub_cc (a b : Z) (e : CPUARMState) : Z * CPUARMState :=
  let result := u32 (a - b) in
  (result, e <| NF := result |> <| ZF := result |> <| CF := of_bool (a >=? b) |>
             <| VF := (a .^ b) .& (a .^ result) |>).

Definition sbc_cc (a b : Z) (e : CPUARMState) : Z * CPUARMState :=
  let '(result, e) :=
    if negb (truth (CF e)) then (u32 (a - b - 1), e <| CF := of_bool (a >? b) |>)
    else (u32 (a - b), e <| CF := of_bool (a >=? b) |>) in
  (result, e <| VF := (a .^ b) .& (a .^ result) |> <| NF := result |> <| ZF := result |>).

(** ** Shifts by a register *)
Definition shl (x i : Z) : Z :=
  let shift := i .& 0xff in if shift >=? 32 then 0 else u32 (x << shift).
Definition shr (x i : Z) : Z :=
  let shift := i .& 0xff in if shift >=? 32 then 0 else x >> shift.
Definition sar (x i : Z) : Z :=
  let shift := i .& 0xff in
  let shift := if shift >=? 32 then 31 else shift in
  u32 (s32 x >> shift).

Definition set_c (c : Z) (e : CPUARMState) : CPUARMState := e <| CF := c |>.

Definition shl_cc (x i : Z) (e : CPUARMState) : Z * CPUARMState :=
  let shift := i .& 0xff in
  if shift >=? 32 then (0, set_c (if shift =? 32 then x .& 1 else 0) e)
  else if negb (shift =? 0) then (u32 (x << shift), set_c ((x >> (32 - shift)) .& 1) e)
  else (x, e).
Definition shr_cc (x i : Z) (e : CPUARMState) : Z * CPUARMState :=
  let shift := i .& 0xff in
  if shift >=? 32 then (0, set_c (if shift =? 32 then (x >> 31) .& 1 else 0) e)
  else if negb (shift =? 0) then (x >> shift, set_c ((x >> (shift - 1)) .& 1) e)
  else (x, e).
Definition sar_cc (x i : Z) (e : CPUARMState) : Z * CPUARMState :=
  let shift := i .& 0xff in
  if shift >=? 32 then (u32 (s32 x >> 31), set_c ((x >> 31) .& 1) e)
  else if negb (shift =? 0) then (u32 (s32 x >> shift), set_c ((x >> (shift - 1)) .& 1) e)
  else (x, e).
Definition ror_cc (x i : Z) (e : CPUARMState) : Z * CPUARMState :=
  let shift1 := i .& 0xff in
  let shift := shift1 .& 0x1f in
  if shift =? 0 then
    (x, if negb (shift1 =? 0) then set_c ((x >> 31) .& 1) e else e)
  else ((x >> shift) .| u32 (x << (32 - shift)), set_c ((x >> (shift - 1)) .& 1) e).

(** ** Parallel addition and subtraction ([op_addsub.h]) *)

(** What [ADD16] and the other macros compute for one lane: the value given to
    [RESULT] and whether the lane sets its GE bits. *)
Definition lane_op : Type := Z → Z → Z * bool.

(** [RESULT(val, n, width)] and the GE bits: [3 << (n * 2)] for a halfword,
    [1 << n] for a byte.  The accumulator holds [res] and [ge]. *)
Definition put_lane (width : Z) (n : Z) (r : Z * bool) (acc : Z * Z) : Z * Z :=
  let ge_bits := if width =? 16 then 3 << (n * 2) else 1 << n in
  (acc.1 .| ((r.1 mod 2 ^ width) << (n * width)),
   if r.2 then acc.2 .| ge_bits else acc.2).

Section addsub.
Context (ADD16 SUB16 ADD8 SUB8 : lane_op).

Definition pfx_add16 (a b : Z) : Z * Z :=
  put_lane 16 1 (ADD16 (a >> 16) (b >> 16)) (put_lane 16 0 (ADD16 a b) (0, 0)).
Definition pfx_sub16 (a b : Z) : Z * Z :=
  put_lane 16 1 (SUB16 (a >> 16) (b >> 16)) (put_lane 16 0 (SUB16 a b) (0, 0)).
Definition lanes8 (op : lane_op) (a b : Z) : Z * Z :=
  put_lane 8 3 (op (a >> 24) (b >> 24)) (put_lane 8 2 (op (a >> 16) (b >> 16))
    (put_lane 8 1 (op (a >> 8) (b >> 8)) (put_lane 8 0 (op a b) (0, 0)))).
Definition pfx_add8 (a b : Z) : Z * Z := lanes8 ADD8 a b.
Definition pfx_sub8 (a b : Z) : Z * Z := lanes8 SUB8 a b.
Definition pfx_subaddx (a b : Z) : Z * Z :=
  put_lane 16 1 (SUB16 (a >> 16) b) (put_lane 16 0 (ADD16 a (b >> 16)) (0, 0)).
Definition pfx_addsubx (a b : Z) : Z * Z :=
  put_lane 16 1 (ADD16 (a >> 16) b) (put_lane 16 0 (SUB16 a (b >> 16)) (0, 0)).
End addsub.

(** *** Prefix q: signed saturation *)
Definition sat_lane (w : Z) (over : bool) (a res : Z) : Z :=
  if over then (if truth (a .& (1 << (w - 1))) then 1 << (w - 1) else (1 << (w - 1)) - 1) else res.

Definition add16_sat (a b : Z) : Z :=
  let a := u16 a in let b := u16 b in
  let res := u16 (a + b) in
  sat_lane 16 (truth ((res .^ a) .& 0x8000) && negb (truth ((a .^ b) .& 0x8000))) a res.
Definition sub16_sat (a b : Z) : Z :=
  let a := u16 a in let b := u16 b in
  let res := u16 (a - b) in
  sat_lane 16 (truth ((res .^ a) .& 0x8000) && truth ((a .^ b) .& 0x8000)) a res.
Definition add8_sat (a b : Z) : Z :=
  let a := u8 a in let b := u8 b in
  let res := u8 (a + b) in
  sat_lane 8 (truth ((res .^ a) .& 0x80) && negb (truth ((a .^ b) .& 0x80))) a res.
Definition sub8_sat (a b : Z) : Z :=
  let a := u8 a in let b := u8 b in
  let res := u8 (a - b) in
  sat_lane 8 (truth ((res .^ a) .& 0x80) && truth ((a .^ b) .& 0x80)) a res.

(** *** Prefix uq: unsigned saturation *)
Definition add16_usat (a b : Z) : Z :=
  let a := u16 a in let b := u16 b in
  let res := u16 (a + b) in if res <? a then 0xffff else res.
Definition sub16_usat (a b : Z) : Z :=
  let a := u16 a in let b := u16 b in if a >? b then u16 (a - b) else 0.
Definition add8_usat (a b : Z) : Z :=
  let a := u8 a in let b := u8 b in
  let res := u8 (a + b) in if res <? a then 0xff else res.
Definition sub8_usat (a b : Z) : Z :=
  let a := u8 a in let b := u8 b in if a >? b then u8 (a - b) else 0.

(** Macros without GE bits. *)
Definition no_ge (f : Z → Z → Z) : lane_op := λ a b, (f a b, false).

(** *** Prefixes s and u: modulo arithmetic with GE bits *)
Definition sarith16 (op : Z → Z → Z) : lane_op := λ a b,
  let sum := op (s16 a) (s16 b) in (sum, sum >=? 0).
Definition sarith8 (op : Z → Z → Z) : lane_op := λ a b,
  let sum := op (s8 a) (s8 b) in (sum, sum >=? 0).
Definition uadd16_lane : lane_op := λ a b,
  let sum := u32 (u16 a + u16 b) in (sum, sum >> 16 =? 1).
Definition uadd8_lane : lane_op := λ a b,
  let sum := u32 (u8 a + u8 b) in (sum, sum >> 8 =? 1).
Definition usub16_lane : lane_op := λ a b,
  let sum := u32 (u16 a - u16 b) in (sum, sum >> 16 =? 0).
Definition usub8_lane : lane_op := λ a b,
  let sum := u32 (u8 a - u8 b) in (sum, sum >> 8 =? 0).

(** *** Prefixes sh and uh: halved *)
Definition shalf16 (op : Z → Z → Z) : lane_op := no_ge (λ a b, op (s16 a) (s16 b) >> 1).
Definition shalf8 (op : Z → Z → Z) : lane_op := no_ge (λ a b, op (s8 a) (s8 b) >> 1).
Definition uhalf16 (op : Z → Z → Z) : lane_op := no_ge (λ a b, u32 (op (u16 a) (u16 b)) >> 1).
Definition uhalf8 (op : Z → Z → Z) : lane_op := no_ge (λ a b, u32 (op (u8 a) (u8 b)) >> 1).

(** The macros of one prefix, and the six helpers that [op_addsub.h] makes of
    them. *)
Record prefix := mkPrefix { p_add16 : lane_op; p_sub16 : lane_op; p_add8 : lane_op; p_sub8 : lane_op }.
Definition pfx_q : prefix :=
  mkPrefix (no_ge add16_sat) (no_ge sub16_sat) (no_ge add8_sat) (no_ge sub8_sat).
Definition pfx_uq : prefix :=
  mkPrefix (no_ge add16_usat) (no_ge sub16_usat) (no_ge add8_usat) (no_ge sub8_usat).
Definition pfx_s : prefix := mkPrefix (sarith16 Z.add) (sarith16 Z.sub) (sarith8 Z.add) (sarith8 Z.sub).
Definition pfx_u : prefix := mkPrefix uadd16_lane usub16_lane uadd8_lane usub8_lane.
Definition pfx_sh : prefix := mkPrefix (shalf16 Z.add) (shalf16 Z.sub) (shalf8 Z.add) (shalf8 Z.sub).
Definition pfx_uh : prefix := mkPrefix (uhalf16 Z.add) (uhalf16 Z.sub) (uhalf8 Z.add) (uhalf8 Z.sub).

Inductive addsub_insn : Type := Add16 | Sub16 | Add8 | Sub8 | SubAddX | AddSubX.

(** The result and the GE bits; the prefixes without [ARITH_GE] have none. *)
Definition parallel (p : prefix) (i : addsub_insn) (a b : Z) : Z * Z :=
  match i with
  | Add16 => pfx_add16 (p_add16 p) a b
  | Sub16 => pfx_sub16 (p_sub16 p) a b
  | Add8 => pfx_add8 (p_add8 p) a b
  | Sub8 => pfx_sub8 (p_sub8 p) a b
  | SubAddX => pfx_subaddx (p_add16 p) (p_sub16 p) a b
  | AddSubX => pfx_addsubx (p_add16 p) (p_sub16 p) a b
  end.

(** ** Sums of differences, selection, flags of a 64-bit value *)
Definition do_usad (a b : Z) : Z :=
  let a := u8 a in let b := u8 b in if a >? b then u8 (a - b) else u8 (b - a).
Definition usad8 (a b : Z) : Z :=
  u32 (do_usad a b + do_usad (a >> 8) (b >> 8) + do_usad (a >> 16) (b >> 16)
       + do_usad (a >> 24) (b >> 24)).

Definition sel_flags (flags a b : Z) : Z :=
  let mask := 0 in
  let mask := if truth (flags .& 1) then mask .| 0xff else mask in
  let mask := if truth (flags .& 2) then mask .| 0xff00 else mask in
  let mask := if truth (flags .& 4) then mask .| 0xff0000 else mask in
  let mask := if truth (flags .& 8) then mask .| 0xff000000 else mask in
  (a .& mask) .| (b .& Z.lnot mask).

Definition logicq_cc (val : Z) : Z := u32 (val >> 32) .| of_bool (negb (val =? 0)).

(** ** The floating-point status register *)
Definition float_flag_invalid : Z := 1.
Definition float_flag_divbyzero : Z := 4.
Definition float_flag_overflow : Z := 8.
Definition float_flag_underflow : Z := 16.
Definition float_flag_inexact : Z := 32.
Definition float_flag_input_denormal : Z := 64.
Definition float_flag_output_denormal : Z := 128.

(** [if (bits & from) target_bits |= to] *)
Definition carry_bit (bits from to acc : Z) : Z := if truth (bits .& from) then acc .| to else acc.

Definition vfp_exceptbits_from_host (host_bits : Z) : Z :=
  let t := carry_bit host_bits float_flag_invalid 1 0 in
  let t := carry_bit host_bits float_flag_divbyzero 2 t in
  let t := carry_bit host_bits float_flag_overflow 4 t in
  let t := carry_bit host_bits (float_flag_underflow .| float_flag_output_denormal) 8 t in
  let t := carry_bit host_bits float_flag_inexact 0x10 t in
  carry_bit host_bits float_flag_input_denormal 0x80 t.
Definition vfp_exceptbits_to_host (target_bits : Z) : Z :=
  let h := carry_bit target_bits 1 float_flag_invalid 0 in
  let h := carry_bit target_bits 2 float_flag_divbyzero h in
  let h := carry_bit target_bits 4 float_flag_overflow h in
  let h := carry_bit target_bits 8 float_flag_underflow h in
  let h := carry_bit target_bits 0x10 float_flag_inexact h in
  carry_bit target_bits 0x80 float_flag_input_denormal h.

Definition fpscr_reg (e : CPUARMState) : Z := nth ARM_VFP_FPSCR (xregs (vfp e)) 0.

Definition vfp_get_fpscr (e : CPUARMState) : Z :=
  let v := vfp e in
  let fpscr := (fpscr_reg e .& 0xffc8ffff) .| (vec_len v << 16) .| (vec_stride v << 20) in
  let i := float_exception_flags (fp_status v) .| float_exception_flags (standard_fp_status v) in
  fpscr .| vfp_exceptbits_from_host i.

Definition float_rounding (i : Z) : Z :=
  match i with 0 => 0 | 1 => 2 | 2 => 1 | 3 => 3 | _ => i end.

Definition on_fp (f : float_status → float_status) (e : CPUARMState) : CPUARMState :=
  on_vfp (λ v, v <| fp_status := f (fp_status v) |>) e.

Definition vfp_set_fpscr (e : CPUARMState) (val : Z) : CPUARMState :=
  let changed := fpscr_reg e in
  let e := set_xreg ARM_VFP_FPSCR (val .& 0xffc8ffff) e in
  let e := on_vfp (λ v, v <| vec_len := (val >> 16) .& 7 |> <| vec_stride := (val >> 20) .& 3 |>) e in
  let changed := changed .^ val in
  let e := if truth (changed .& (3 << 22))
           then on_fp (λ f, f <| float_rounding_mode := float_rounding ((val >> 22) .& 3) |>) e
           else e in
  let e := if truth (changed .& (1 << 24))
           then let z := of_bool (truth (val .& (1 << 24))) in
                on_fp (λ f, f <| flush_to_zero := z |> <| flush_inputs_to_zero := z |>) e
           else e in
  let e := if truth (changed .& (1 << 25))
           then on_fp (λ f, f <| default_nan_mode := of_bool (truth (val .& (1 << 25))) |>) e
           else e in
  let e := on_fp (λ f, f <| float_exception_flags := vfp_exceptbits_to_host val |>) e in
  on_vfp (λ v, v <| standard_fp_status := standard_fp_status v <| float_exception_flags := 0 |> |>) e.
