(* ===== verification/ArmAluFacts.v ===== *)
(** * Correctness of the arithmetic helpers

    The helpers against reference definitions: the architecture's
    [AddWithCarry], shifts of the unbounded value, saturation as clamping, and
    lanes computed one by one. *)
From S2P Require Import Prelude SoftTlb ArmCpu ArmMode ArmModeFacts ArmAlu.

(** [split_tests] splits the comparisons of the goal, the innermost first. *)
Ltac no_if x := lazymatch x with context [if _ then _ else _] => fail | _ => idtac end.
Ltac split_tests :=
  rewrite ?Z.gtb_ltb, ?Z.geb_leb;
  repeat match goal with
  | |- context [?x <? ?y] => no_if x; no_if y; destruct (Z.ltb_spec x y)
  | |- context [?x <=? ?y] => no_if x; no_if y; destruct (Z.leb_spec x y)
  | |- context [?x =? ?y] => no_if x; no_if y; destruct (Z.eqb_spec x y)
  end; cbn [andb orb negb xorb]; try (exfalso; lia).

(** ** Signed words of any width *)

(** The range of a signed [w]-bit number, and the nearest number in it. *)
Definition fits (w x : Z) : bool := (- 2 ^ (w - 1) <=? x) && (x <? 2 ^ (w - 1)).
Definition clamp (w x : Z) : Z := Z.max (- 2 ^ (w - 1)) (Z.min (2 ^ (w - 1) - 1) x).

Section width.
Context (w : Z) (Hw : 0 < w).
Implicit Types a b x : Z.

Lemma pow_half : 2 ^ w = 2 * 2 ^ (w - 1).
Proof. rewrite <- Z.pow_succ_r by lia. f_equal. lia. Qed.
Lemma half_pos : 0 < 2 ^ (w - 1).
Proof. apply Z.pow_pos_nonneg; lia. Qed.

Lemma top_bit x : 0 ≤ x < 2 ^ w → Z.testbit x (w - 1) = (2 ^ (w - 1) <=? x).
Proof.
  intros Hx. pose proof pow_half. pose proof half_pos. apply eq_true_iff_eq. rewrite Z.leb_le, Z.testbit_true by lia.
  destruct (decide (2 ^ (w - 1) ≤ x)) as [Hl|Hl].
  - replace (x / 2 ^ (w - 1)) with 1; [done|].
    apply (Z.div_unique _ _ _ (x - 2 ^ (w - 1))); lia.
  - rewrite Z.div_small by lia. done.
Qed.

Lemma sext_case x : 0 ≤ x < 2 ^ w →
  sext w x = if 2 ^ (w - 1) <=? x then x - 2 ^ w else x.
Proof.
  intros Hx. unfold sext. rewrite Z.mod_small by done.
  destruct (Z.ltb_spec x (2 ^ (w - 1))), (Z.leb_spec (2 ^ (w - 1)) x); lia.
Qed.

Lemma mod_case x : - 2 ^ w ≤ x < 2 * 2 ^ w →
  x mod 2 ^ w = if x <? 0 then x + 2 ^ w else if 2 ^ w <=? x then x - 2 ^ w else x.
Proof.
  intros Hx. pose proof pow_half. pose proof half_pos.
  destruct (Z.ltb_spec x 0); [|destruct (Z.leb_spec (2 ^ w) x)].
  - symmetry. apply (Z.mod_unique_pos _ _ (-1)); lia.
  - symmetry. apply (Z.mod_unique_pos _ _ 1); lia.
  - apply Z.mod_small. lia.
Qed.

(** The tests on the sign bits of [a], [b] and the wrapped result. *)
Definition add_test a b res : bool :=
  xorb (Z.testbit res (w - 1)) (Z.testbit a (w - 1)) &&
  negb (xorb (Z.testbit a (w - 1)) (Z.testbit b (w - 1))).
Definition sub_test a b res : bool :=
  xorb (Z.testbit res (w - 1)) (Z.testbit a (w - 1)) &&
  xorb (Z.testbit a (w - 1)) (Z.testbit b (w - 1)).

Ltac cases_width :=
  pose proof pow_half; pose proof half_pos; split_tests; try reflexivity; try lia.

Lemma add_test_spec a b : 0 ≤ a < 2 ^ w → 0 ≤ b < 2 ^ w →
  add_test a b ((a + b) mod 2 ^ w) = negb (fits w (sext w a + sext w b)).
Proof.
  intros Ha Hb. unfold add_test, fits.
  rewrite !top_bit, !sext_case, mod_case by (done || (apply Z.mod_pos_bound; lia) || lia).
  cases_width.
Qed.
Lemma sub_test_spec a b : 0 ≤ a < 2 ^ w → 0 ≤ b < 2 ^ w →
  sub_test a b ((a - b) mod 2 ^ w) = negb (fits w (sext w a - sext w b)).
Proof.
  intros Ha Hb. unfold sub_test, fits.
  rewrite !top_bit, !sext_case, mod_case by (done || (apply Z.mod_pos_bound; lia) || lia).
  cases_width.
Qed.

Lemma clamp_fits x : clamp w x = if fits w x then x else if x <? 0 then - 2 ^ (w - 1) else 2 ^ (w - 1) - 1.
Proof. unfold clamp, fits. cases_width. Qed.

(** The wrapped sum is the sum of the signed readings, wrapped. *)
Lemma sext_mod x : sext w x mod 2 ^ w = x mod 2 ^ w.
Proof.
  unfold sext. pose proof half_pos. pose proof pow_half.
  destruct (_ <? _); [by rewrite Z.mod_mod by lia|].
  rewrite <- (Z.mod_add _ 1) by lia.
  replace (x mod 2 ^ w - 2 ^ w + 1 * 2 ^ w) with (x mod 2 ^ w) by lia. by rewrite Z.mod_mod by lia.
Qed.
Lemma sext_add_mod a b : (sext w a + sext w b) mod 2 ^ w = (a + b) mod 2 ^ w.
Proof. by rewrite Z.add_mod, !sext_mod, <- Z.add_mod by (pose proof half_pos; pose proof pow_half; lia). Qed.
Lemma sext_sub_mod a b : (sext w a - sext w b) mod 2 ^ w = (a - b) mod 2 ^ w.
Proof. by rewrite Zminus_mod, !sext_mod, <- Zminus_mod. Qed.

(** A sum out of range has the sign of its operands, a difference that of the
    first. *)
Lemma over_sign a b : 0 ≤ a < 2 ^ w → 0 ≤ b < 2 ^ w →
  fits w (sext w a + sext w b) = false → (sext w a + sext w b <? 0) = Z.testbit a (w - 1).
Proof.
  intros Ha Hb. unfold fits. rewrite !top_bit, !sext_case by done. cases_width; try discriminate.
Qed.
Lemma over_sign_sub a b : 0 ≤ a < 2 ^ w → 0 ≤ b < 2 ^ w →
  fits w (sext w a - sext w b) = false → (sext w a - sext w b <? 0) = Z.testbit a (w - 1).
Proof.
  intros Ha Hb. unfold fits. rewrite !top_bit, !sext_case by done. cases_width; try discriminate.
Qed.

(** The saturated result, as the helpers pick it by the sign of [a]. *)
Lemma sat_add a b : 0 ≤ a < 2 ^ w → 0 ≤ b < 2 ^ w →
  (if add_test a b ((a + b) mod 2 ^ w)
   then (if Z.testbit a (w - 1) then 2 ^ (w - 1) else 2 ^ (w - 1) - 1)
   else (a + b) mod 2 ^ w) = clamp w (sext w a + sext w b) mod 2 ^ w.
Proof.
  intros Ha Hb. pose proof pow_half. pose proof half_pos.
  rewrite add_test_spec, clamp_fits by done.
  destruct (fits w (sext w a + sext w b)) eqn:Hf; cbn [negb]; [by rewrite sext_add_mod|].
  rewrite (over_sign a b Ha Hb Hf). destruct (Z.testbit a (w - 1)).
  - rewrite mod_case by lia. cases_width.
  - rewrite Z.mod_small; lia.
Qed.
Lemma sat_sub a b : 0 ≤ a < 2 ^ w → 0 ≤ b < 2 ^ w →
  (if sub_test a b ((a - b) mod 2 ^ w)
   then (if Z.testbit a (w - 1) then 2 ^ (w - 1) else 2 ^ (w - 1) - 1)
   else (a - b) mod 2 ^ w) = clamp w (sext w a - sext w b) mod 2 ^ w.
Proof.
  intros Ha Hb. pose proof pow_half. pose proof half_pos.
  rewrite sub_test_spec, clamp_fits by done.
  destruct (fits w (sext w a - sext w b)) eqn:Hf; cbn [negb]; [by rewrite sext_sub_mod|].
  rewrite (over_sign_sub a b Ha Hb Hf). destruct (Z.testbit a (w - 1)).
  - rewrite mod_case by lia. cases_width.
  - rewrite Z.mod_small; lia.
Qed.
End width.

(** ** Sign tests of the code *)
Lemma truth_bit x k n : 0 ≤ n → k = 2 ^ n → truth (x .& k) = Z.testbit x n.
Proof. intros. symmetry. by apply single_bit. Qed.

Lemma add_overflows_spec a b : is_u32 a → is_u32 b →
  add_overflows a b (u32 (a + b)) = negb (fits 32 (s32 a + s32 b)).
Proof.
  intros Ha Hb. unfold s32. rewrite <- add_test_spec by (done || lia).
  unfold add_overflows, add_test. by rewrite !(truth_bit _ SIGNBIT 31), !Z.lxor_spec by done.
Qed.
Lemma sub_overflows_spec a b : is_u32 a → is_u32 b →
  sub_overflows a b (u32 (a - b)) = negb (fits 32 (s32 a - s32 b)).
Proof.
  intros Ha Hb. unfold s32. rewrite <- sub_test_spec by (done || lia).
  unfold sub_overflows, sub_test. by rewrite !(truth_bit _ SIGNBIT 31), !Z.lxor_spec by done.
Qed.

(** The bounds of the signed words. *)
Lemma s32_range x : - 2 ^ 31 ≤ s32 x < 2 ^ 31.
Proof.
  unfold s32, sext. pose proof (Z.mod_pos_bound x (2 ^ 32) ltac:(lia)).
  change (2 ^ (32 - 1)) with (2 ^ 31). destruct (Z.ltb_spec (x mod 2 ^ 32) (2 ^ 31)); lia.
Qed.

Lemma saturated_eq a : is_u32 a → saturated a = if Z.testbit a 31 then 2 ^ 31 else 2 ^ 31 - 1.
Proof.
  intros Ha. unfold saturated.
  replace (s32 a >> 31) with (if Z.testbit a 31 then -1 else 0); [by destruct (Z.testbit a 31)|].
  pose proof (s32_range a). unfold s32. change 31 with (32 - 1) at 1.
  rewrite top_bit, (sext_case 32) by (done || lia). unfold is_u32 in Ha.
  change (32 - 1) with 31. rewrite Z.shiftr_div_pow2 by lia.
  destruct (Z.leb_spec (2 ^ 31) a).
  - apply (Z.div_unique _ _ _ (a - 2 ^ 31)); lia.
  - symmetry. apply Z.div_small. lia.
Qed.

(** ** Saturation *)

(** The exact result [x] clamped to [lo .. hi], as a word, and Q set when that
    changed it. *)
Definition saturate (lo hi x : Z) (e : CPUARMState) : Z * CPUARMState :=
  (u32 (Z.max lo (Z.min hi x)), if (lo <=? x) && (x <=? hi) then e else set_q e).
Definition saturate_signed (w x : Z) := saturate (- 2 ^ (w - 1)) (2 ^ (w - 1) - 1) x.

Lemma saturate_signed_eq w x e : 0 < w →
  saturate_signed w x e = (u32 (clamp w x), if fits w x then e else set_q e).
Proof.
  intros. unfold saturate_signed, saturate, clamp, fits. do 2 f_equal.
  by replace (x <=? 2 ^ (w - 1) - 1) with (x <? 2 ^ (w - 1)) by lia.
Qed.

Lemma add_saturate_eq a b e : is_u32 a → is_u32 b →
  add_saturate a b e = saturate_signed 32 (s32 a + s32 b) e.
Proof.
  intros Ha Hb. rewrite saturate_signed_eq by lia.
  pose proof (sat_add 32 ltac:(lia) a b Ha Hb) as Hs.
  unfold add_saturate. rewrite add_overflows_spec, saturated_eq by done.
  rewrite add_test_spec in Hs by (done || lia). unfold s32, u32. rewrite <- Hs.
  by destruct (fits 32 _).
Qed.
Lemma sub_saturate_eq a b e : is_u32 a → is_u32 b →
  sub_saturate a b e = saturate_signed 32 (s32 a - s32 b) e.
Proof.
  intros Ha Hb. rewrite saturate_signed_eq by lia.
  pose proof (sat_sub 32 ltac:(lia) a b Ha Hb) as Hs.
  unfold sub_saturate. rewrite sub_overflows_spec, saturated_eq by done.
  rewrite sub_test_spec in Hs by (done || lia). unfold s32, u32. rewrite <- Hs.
  by destruct (fits 32 _).
Qed.

Lemma add_usaturate_eq a b e : is_u32 a → is_u32 b →
  add_usaturate a b e = saturate 0 (2 ^ 32 - 1) (a + b) e.
Proof.
  unfold is_u32. intros Ha Hb. unfold add_usaturate, saturate, u32.
  change (Z.lnot 0) with (-1). rewrite !(mod_case 32) by lia. split_tests; f_equal; lia.
Qed.
Lemma sub_usaturate_eq a b e : is_u32 a → is_u32 b →
  sub_usaturate a b e = saturate 0 (2 ^ 32 - 1) (a - b) e.
Proof.
  unfold is_u32. intros Ha Hb. unfold sub_usaturate, saturate, u32.
  rewrite !(mod_case 32) by lia. split_tests; f_equal; lia.
Qed.

(** Doubling also sets Q for the least value whose double still fits. *)
Lemma double_saturate_eq v e : - 2 ^ 31 ≤ v < 2 ^ 31 →
  double_saturate v e =
    if v =? - 2 ^ 30 then (SIGNBIT, set_q e) else saturate_signed 32 (2 * v) e.
Proof.
  intros Hv. unfold double_saturate, saturate_signed, saturate, u32, SIGNBIT.
  change (s32 0xc0000000) with (- 2 ^ 30). change (0x40000000) with (2 ^ 30).
  change (Z.lnot 0x80000000) with (- 2 ^ 31 - 1).
  change (32 - 1) with 31. rewrite Z.shiftl_mul_pow2, !(mod_case 32) by lia.
  split_tests; f_equal; lia.
Qed.

Lemma shifted_one n : 0 ≤ n < 32 → u32 (1 << n) = 2 ^ n ∧ 1 ≤ 2 ^ n ≤ 2 ^ 31.
Proof.
  intros Hn. pose proof (Z.pow_le_mono_r 2 n 31 ltac:(lia) ltac:(lia)).
  pose proof (Z.pow_pos_nonneg 2 n ltac:(lia) ltac:(lia)).
  rewrite Z.shiftl_mul_pow2, Z.mul_1_l, u32_small by (unfold is_u32; lia || lia). lia.
Qed.
Lemma do_ssat_eq v n e : - 2 ^ 31 ≤ v < 2 ^ 31 → 0 ≤ n < 32 →
  do_ssat v n e = saturate_signed (n + 1) v e.
Proof.
  intros Hv Hn. unfold do_ssat, saturate_signed, saturate.
  destruct (shifted_one n Hn) as [-> ?]. replace (n + 1 - 1) with n by lia.
  rewrite Z.shiftr_div_pow2 by lia.
  pose proof (Z.div_mod v (2 ^ n) ltac:(lia)). pose proof (Z.mod_pos_bound v (2 ^ n) ltac:(lia)).
  set (q := v / 2 ^ n) in *.
  destruct (Z.ltb_spec 0 q); [|destruct (Z.ltb_spec q (-1))].
  - assert (2 ^ n ≤ v) by nia. rewrite Z.min_l, Z.max_r by lia.
    rewrite u32_small by (unfold is_u32; lia). split_tests. done.
  - assert (v < - 2 ^ n) by nia. rewrite Z.min_r, Z.max_l by lia.
    split_tests. f_equal. f_equal. unfold Z.lnot. lia.
  - assert (- 2 ^ n ≤ v < 2 ^ n) by nia. rewrite Z.min_r, Z.max_r by lia. split_tests. done.
Qed.
Lemma do_usat_eq v n e : - 2 ^ 31 ≤ v < 2 ^ 31 → 0 ≤ n < 32 →
  do_usat v n e = saturate 0 (2 ^ n - 1) v e.
Proof.
  intros Hv Hn. unfold do_usat, saturate. destruct (shifted_one n Hn) as [-> ?].
  unfold u32. rewrite !(mod_case 32) by lia. split_tests; f_equal; lia.
Qed.

(** C37: The saturating helpers return the exact result clamped to the range of
    the result type, and set Q exactly when that changed it: signed and
    unsigned addition and subtraction, [SSAT] and [USAT] to any width up to 32
    and 31 bits.  Doubling does so except for [-2^30], whose double fits and
    still sets Q. *)
Theorem saturating_arithmetic a b n e (Ha : is_u32 a) (Hb : is_u32 b) (Hn : 0 ≤ n < 32) :
  add_saturate a b e = saturate_signed 32 (s32 a + s32 b) e ∧
  sub_saturate a b e = saturate_signed 32 (s32 a - s32 b) e ∧
  add_usaturate a b e = saturate 0 (2 ^ 32 - 1) (a + b) e ∧
  sub_usaturate a b e = saturate 0 (2 ^ 32 - 1) (a - b) e ∧
  ssat a n e = saturate_signed (n + 1) (s32 a) e ∧
  usat a n e = saturate 0 (2 ^ n - 1) (s32 a) e ∧
  add_setq a b e = (u32 (a + b), (add_saturate a b e).2) ∧
  double_saturate (s32 a) e =
    if s32 a =? - 2 ^ 30 then (2 ^ 31, set_q e) else saturate_signed 32 (2 * s32 a) e.
Proof.
  pose proof (s32_range a). split_and!.
  - by apply add_saturate_eq.
  - by apply sub_saturate_eq.
  - by apply add_usaturate_eq.
  - by apply sub_usaturate_eq.
  - by apply do_ssat_eq.
  - by apply do_usat_eq.
  - unfold add_setq, add_saturate. by destruct (add_overflows _ _ _).
  - by apply double_saturate_eq.
Qed.

Lemma saturating_arithmetic_witness :
  add_saturate 0x7fffffff 1 demo_cpu = (0x7fffffff, set_q demo_cpu) ∧
  ssat 0x7fffffff 7 demo_cpu = (127, set_q demo_cpu) ∧
  add_saturate 0x7fffffff 1 demo_cpu
    = saturate_signed 32 (s32 0x7fffffff + s32 1) demo_cpu.
Proof.
  split; [by vm_compute|]. split; [by vm_compute|].
  apply (saturating_arithmetic 0x7fffffff 1 7 demo_cpu); [by split|by split|done].
Defined.

(** ** Addition with carry *)

(** The architecture's [AddWithCarry(x, y, carry_in)]: the result, carry and
    overflow of the unsigned and the signed sum. *)
Definition AddWithCarry (x y : Z) (carry_in : bool) : Z * bool * bool :=
  let c := of_bool carry_in in
  let result := u32 (x + y + c) in
  (result, negb (result =? x + y + c), negb (s32 result =? s32 x + s32 y + c)).
Definition NOT (x : Z) : Z := 2 ^ 32 - 1 - x.

(** N, Z, C and V as the rest of the code reads them. *)
Definition nzcv (e : CPUARMState) : bool * bool * bool * bool :=
  (Z.testbit (NF e) 31, ZF e =? 0, truth (CF e), Z.testbit (VF e) 31).

(** The helper [r] computes the sum [s], sets the flags from it and changes
    nothing else. *)
Definition sets_flags_from (e : CPUARMState) (r : Z * CPUARMState) (s : Z * bool * bool) : Prop :=
  let '(result, carry, overflow) := s in
  r.1 = result ∧
  nzcv r.2 = (s32 result <? 0, result =? 0, carry, overflow) ∧
  CF r.2 = of_bool carry ∧
  r.2 = e <| NF := NF r.2 |> <| ZF := ZF r.2 |> <| CF := CF r.2 |> <| VF := VF r.2 |>.

Lemma negative_bit x : is_u32 x → Z.testbit x 31 = (s32 x <? 0).
Proof.
  intros Hx. change 31 with (32 - 1). unfold s32. rewrite top_bit, (sext_case 32) by (done || lia).
  unfold is_u32 in Hx. change (32 - 1) with 31. split_tests; done.
Qed.

Lemma carry_out x y (c : bool) : is_u32 x → is_u32 y →
  negb (u32 (x + y + of_bool c) =? x + y + of_bool c) = (2 ^ 32 <=? x + y + of_bool c).
Proof.
  unfold is_u32. intros Hx Hy. assert (0 ≤ of_bool c ≤ 1) by (destruct c; cbn; lia).
  unfold u32. rewrite (mod_case 32) by lia. split_tests; done.
Qed.

(** The sign test of the code, with a carry. *)
Lemma overflow_out x y (c : bool) : is_u32 x → is_u32 y →
  negb (s32 (u32 (x + y + of_bool c)) =? s32 x + s32 y + of_bool c)
  = add_test 32 x y (u32 (x + y + of_bool c)).
Proof.
  unfold is_u32. intros Hx Hy. assert (0 ≤ of_bool c ≤ 1) by (destruct c; cbn; lia).
  pose proof (u32_bound (x + y + of_bool c)) as Hr. unfold is_u32 in Hr.
  unfold add_test, s32. rewrite !top_bit, !(sext_case 32) by (done || lia).
  unfold u32. rewrite (mod_case 32) by lia. change (32 - 1) with 31. split_tests; done.
Qed.

Lemma NOT_bit x : is_u32 x → Z.testbit (NOT x) 31 = negb (Z.testbit x 31).
Proof.
  unfold is_u32. intros Hx. change 31 with (32 - 1). unfold NOT.
  rewrite !top_bit by lia. change (32 - 1) with 31. split_tests; done.
Qed.
Lemma NOT_u32 x : is_u32 x → is_u32 (NOT x).
Proof. unfold is_u32, NOT. lia. Qed.

(** The common part: a helper that stores the sum in [NF] and [ZF], the carry
    in [CF] and a word with the overflow as bit 31 in [VF]. *)
Lemma sets_flags_intro e x y (c carry : bool) v :
  let result := u32 (x + y + of_bool c) in
  is_u32 x → is_u32 y →
  carry = (2 ^ 32 <=? x + y + of_bool c) →
  Z.testbit v 31 = add_test 32 x y result →
  sets_flags_from e
    (result, e <| NF := result |> <| ZF := result |> <| CF := of_bool carry |> <| VF := v |>)
    (AddWithCarry x y c).
Proof.
  intros result Hx Hy Hc Hv. subst result. unfold sets_flags_from, AddWithCarry.
  rewrite carry_out, overflow_out, <- Hc, <- Hv by done. split_and!; [done| |done|done].
  unfold nzcv. cbn [snd set_field NF ZF CF VF].
  rewrite <- negative_bit by apply u32_bound. by destruct carry.
Qed.

(** The words the helpers store in [VF]. *)
Lemma vf_add a b r :
  Z.testbit ((a .^ b .^ 0xffffffff) .& (a .^ r)) 31 = add_test 32 a b r.
Proof.
  unfold add_test. change (32 - 1) with 31. rewrite Z.land_spec, !Z.lxor_spec.
  change (Z.testbit 0xffffffff 31) with true.
  by destruct (Z.testbit a 31), (Z.testbit b 31), (Z.testbit r 31).
Qed.
Lemma vf_sub a b r : is_u32 b →
  Z.testbit ((a .^ b) .& (a .^ r)) 31 = add_test 32 a (NOT b) r.
Proof.
  intros Hb. unfold add_test. change (32 - 1) with 31.
  rewrite NOT_bit, Z.land_spec, !Z.lxor_spec by done.
  by destruct (Z.testbit a 31), (Z.testbit b 31), (Z.testbit r 31).
Qed.

(** Rewrites the sum of a helper to the shape of [sets_flags_intro]. *)
Lemma u32_minus a b (c : bool) : u32 (a + NOT b + of_bool c) = u32 (a - b - (1 - of_bool c)).
Proof.
  unfold NOT, u32. rewrite <- (Z.mod_add _ 1 (2 ^ 32)) by lia. symmetry.
  rewrite <- (Z.mod_add _ 2 (2 ^ 32)) by lia. f_equal. lia.
Qed.

Ltac alu_case :=
  unfold is_u32, NOT, of_bool in *; unfold u32; rewrite ?(mod_case 32) by lia;
  split_tests; done || lia.

Lemma add_cc_eq a b e : is_u32 a → is_u32 b → sets_flags_from e (add_cc a b e) (AddWithCarry a b false).
Proof.
  intros Ha Hb. unfold add_cc.
  replace (u32 (a + b)) with (u32 (a + b + of_bool false)) by (f_equal; cbn; lia).
  apply sets_flags_intro; [done|done|alu_case|apply vf_add].
Qed.
Lemma adc_cc_eq a b e : is_u32 a → is_u32 b →
  sets_flags_from e (adc_cc a b e) (AddWithCarry a b (truth (CF e))).
Proof.
  intros Ha Hb. unfold adc_cc. destruct (truth (CF e)); cbn [negb].
  - apply (sets_flags_intro e a b true); [done|done|alu_case|apply vf_add].
  - replace (u32 (a + b)) with (u32 (a + b + of_bool false)) by (f_equal; cbn; lia).
    apply (sets_flags_intro e a b false); [done|done|alu_case|apply vf_add].
Qed.
Lemma sub_cc_eq a b e : is_u32 a → is_u32 b →
  sets_flags_from e (sub_cc a b e) (AddWithCarry a (NOT b) true).
Proof.
  intros Ha Hb. unfold sub_cc.
  replace (u32 (a - b)) with (u32 (a + NOT b + of_bool true)) by (rewrite u32_minus; f_equal; cbn; lia).
  apply sets_flags_intro; [done|by apply NOT_u32|alu_case|by apply vf_sub].
Qed.
Lemma sbc_cc_eq a b e : is_u32 a → is_u32 b →
  sets_flags_from e (sbc_cc a b e) (AddWithCarry a (NOT b) (truth (CF e))).
Proof.
  intros Ha Hb. unfold sbc_cc. destruct (truth (CF e)); cbn [negb].
  - replace (u32 (a - b)) with (u32 (a + NOT b + of_bool true)) by (rewrite u32_minus; f_equal; cbn; lia).
    apply (sets_flags_intro e a _ true); [done|by apply NOT_u32|alu_case|by apply vf_sub].
  - replace (u32 (a - b - 1)) with (u32 (a + NOT b + of_bool false)) by (rewrite u32_minus; f_equal; cbn; lia).
    apply (sets_flags_intro e a _ false); [done|by apply NOT_u32|alu_case|by apply vf_sub].
Qed.

(** C34: The flag-setting additions and subtractions are the architecture's
    [AddWithCarry]: of [(a, b, 0)], [(a, b, C)], [(a, NOT b, 1)] and
    [(a, NOT b, C)].  The result, N, Z, C and V as later code reads them are
    those of the unsigned and signed sums, C is left as 0 or 1, and no other
    part of the CPU changes. *)
Theorem alu_is_add_with_carry a b e (Ha : is_u32 a) (Hb : is_u32 b) :
  sets_flags_from e (add_cc a b e) (AddWithCarry a b false) ∧
  sets_flags_from e (adc_cc a b e) (AddWithCarry a b (truth (CF e))) ∧
  sets_flags_from e (sub_cc a b e) (AddWithCarry a (NOT b) true) ∧
  sets_flags_from e (sbc_cc a b e) (AddWithCarry a (NOT b) (truth (CF e))).
Proof.
  split_and!; [by apply add_cc_eq|by apply adc_cc_eq|by apply sub_cc_eq|by apply sbc_cc_eq].
Qed.

(** [0x80000000 - 1] overflows: N = 0, Z = 0, C = 1, V = 1. *)
Lemma alu_is_add_with_carry_witness :
  (sub_cc 0x80000000 1 demo_cpu).1 = 0x7fffffff ∧
  nzcv (sub_cc 0x80000000 1 demo_cpu).2 = (false, false, true, true) ∧
  sets_flags_from demo_cpu (sub_cc 0x80000000 1 demo_cpu) (AddWithCarry 0x80000000 (NOT 1) true).
Proof.
  split; [by vm_compute|]. split; [by vm_compute|].
  apply (alu_is_add_with_carry 0x80000000 1 demo_cpu); by split.
Defined.

(** ** Shifts by a register *)

Inductive shift_type : Type := LSL | LSR | ASR | ROR.

(** The architecture's [Shift_C] on unbounded values, by [n] places: the
    extended operand is moved and cut to a word; the carry is the last bit
    moved out.  A rotation is a window on the doubled word. *)
Definition Shift_C (t : shift_type) (x n : Z) : Z * bool :=
  match t with
  | LSL => (u32 (x * 2 ^ n), Z.testbit (x * 2 ^ n) 32)
  | LSR => (x / 2 ^ n, Z.testbit x (n - 1))
  | ASR => (u32 (s32 x / 2 ^ n), Z.testbit (s32 x) (n - 1))
  | ROR => let r := u32 ((x + x * 2 ^ 32) / 2 ^ (n mod 32)) in (r, Z.testbit r 31)
  end.

(** A shift by 0 leaves the carry as it was. *)
Definition shifts (t : shift_type) (x i : Z) (e : CPUARMState) : Z * CPUARMState :=
  let n := i mod 256 in
  let '(r, c) := Shift_C t x n in
  (r, if n =? 0 then e else set_c (of_bool c) e).

Lemma shift_amount i : i .& 0xff = i mod 256 ∧ 0 ≤ i mod 256 < 256.
Proof.
  split; [|by apply Z.mod_pos_bound]. change 0xff with (Z.ones 8). by rewrite Z.land_ones by lia.
Qed.

Lemma bit_value x k : 0 ≤ k → (x >> k) .& 1 = of_bool (Z.testbit x k).
Proof.
  intros Hk. change 1 with (Z.ones 1). rewrite Z.land_ones, Z.shiftr_div_pow2 by lia.
  change (2 ^ 1) with 2. rewrite <- Z.testbit_spec' by done. by destruct (Z.testbit x k).
Qed.

Lemma shifted_out x n : is_u32 x → 32 ≤ n → x / 2 ^ n = 0 ∧ u32 (x * 2 ^ n) = 0.
Proof.
  unfold is_u32. intros Hx Hn. pose proof (Z.pow_le_mono_r 2 32 n ltac:(lia) Hn). split.
  - apply Z.div_small. lia.
  - unfold u32. replace n with (n - 32 + 32) by lia.
    rewrite Z.pow_add_r, Z.mul_assoc by lia. apply Z.mod_mul. lia.
Qed.

(** Bits of the sign extension. *)
Lemma s32_bit x n : is_u32 x → 0 ≤ n → Z.testbit (s32 x) n = Z.testbit x (Z.min n 31).
Proof.
  intros Hx Hn. unfold is_u32 in Hx. destruct (Z.ltb_spec n 32).
  - rewrite <- (u32_testbit (s32 x)) by lia. unfold u32, s32. rewrite sext_mod by lia.
    rewrite Z.mod_small by lia. by replace (Z.min n 31) with n by lia || replace n with 31 by lia.
  - rewrite Z.min_r by lia. change 31 with (32 - 1) at 1. rewrite top_bit by (done || lia).
    unfold s32. rewrite (sext_case 32) by (done || lia). change (32 - 1) with 31.
    pose proof (Z.pow_le_mono_r 2 32 n ltac:(lia) ltac:(lia)).
    destruct (Z.leb_spec (2 ^ 31) x).
    + rewrite Z.testbit_true by lia. replace ((x - 2 ^ 32) / 2 ^ n) with (-1); [done|].
      apply (Z.div_unique _ _ _ (x - 2 ^ 32 + 2 ^ n)); lia.
    + rewrite Z.testbit_false by lia. by rewrite Z.div_small by lia.
Qed.

(** An arithmetic shift past the word leaves copies of the sign. *)
Lemma asr_far x n : is_u32 x → 31 ≤ n → s32 x / 2 ^ n = s32 x / 2 ^ 31.
Proof.
  intros Hx Hn. pose proof (s32_range x). pose proof (Z.pow_le_mono_r 2 31 n ltac:(lia) ltac:(lia)).
  destruct (Z.leb_spec 0 (s32 x)); [by rewrite !Z.div_small by lia|].
  transitivity (-1); [|symmetry].
  - symmetry. apply (Z.div_unique _ _ _ (s32 x + 2 ^ n)); lia.
  - symmetry. apply (Z.div_unique _ _ _ (s32 x + 2 ^ 31)); lia.
Qed.

Lemma shl_cc_eq x i e : is_u32 x → shl_cc x i e = shifts LSL x i e.
Proof.
  intros Hx. unfold shl_cc, shifts, Shift_C. destruct (shift_amount i) as [-> Hn].
  set (n := i mod 256) in *. rewrite Z.geb_leb. destruct (Z.leb_spec 32 n).
  - destruct (shifted_out x n Hx ltac:(lia)) as [_ ->].
    rewrite (proj2 (Z.eqb_neq n 0)), Z.mul_pow2_bits by lia. do 3 f_equal.
    destruct (Z.eqb_spec n 32) as [->|].
    + by rewrite <- bit_value by lia.
    + rewrite Z.testbit_neg_r by lia. done.
  - destruct (Z.eqb_spec n 0) as [->|]; cbn [negb].
    + by rewrite Z.mul_1_r, u32_small.
    + by rewrite Z.shiftl_mul_pow2, bit_value, Z.mul_pow2_bits by lia.
Qed.
Lemma shr_cc_eq x i e : is_u32 x → shr_cc x i e = shifts LSR x i e.
Proof.
  intros Hx. unfold shr_cc, shifts, Shift_C. destruct (shift_amount i) as [-> Hn].
  set (n := i mod 256) in *. rewrite Z.geb_leb. destruct (Z.leb_spec 32 n).
  - destruct (shifted_out x n Hx ltac:(lia)) as [-> _].
    rewrite (proj2 (Z.eqb_neq n 0)) by lia. do 3 f_equal.
    destruct (Z.eqb_spec n 32) as [->|]; [by rewrite bit_value by lia|].
    by rewrite testbit_of_high by (done || lia).
  - destruct (Z.eqb_spec n 0) as [->|]; cbn [negb]; [by rewrite Z.div_1_r|].
    by rewrite bit_value, Z.shiftr_div_pow2 by lia.
Qed.
Lemma sar_cc_eq x i e : is_u32 x → sar_cc x i e = shifts ASR x i e.
Proof.
  intros Hx. unfold sar_cc, shifts, Shift_C. destruct (shift_amount i) as [-> Hn].
  set (n := i mod 256) in *. rewrite Z.geb_leb. destruct (Z.leb_spec 32 n).
  - rewrite (proj2 (Z.eqb_neq n 0)) by lia.
    rewrite bit_value, Z.shiftr_div_pow2, (asr_far x n), s32_bit by (done || lia).
    by rewrite Z.min_r by lia.
  - destruct (Z.eqb_spec n 0) as [->|]; cbn [negb].
    + rewrite Z.div_1_r. unfold s32, u32. by rewrite sext_mod, Z.mod_small by (done || lia).
    + by rewrite bit_value, Z.shiftr_div_pow2, s32_bit, Z.min_l by (done || lia).
Qed.

(** Bits of the doubled word. *)
Lemma doubled_bit x k : is_u32 x → 0 ≤ k →
  Z.testbit (x + x * 2 ^ 32) k = Z.testbit x (if k <? 32 then k else k - 32).
Proof.
  intros Hx Hk. rewrite Z.add_nocarry_lxor; [|apply Z.bits_inj'].
  - rewrite Z.lxor_spec, Z.mul_pow2_bits by lia. destruct (Z.ltb_spec k 32).
    + by rewrite (Z.testbit_neg_r x (k - 32)), xorb_false_r by lia.
    + by rewrite (testbit_of_high x k) by (done || lia).
  - intros j Hj. rewrite Z.land_spec, Z.bits_0, Z.mul_pow2_bits by lia.
    destruct (Z.ltb_spec j 32).
    + by rewrite (Z.testbit_neg_r x (j - 32)), andb_false_r by lia.
    + by rewrite (testbit_of_high x j) by (done || lia).
Qed.

(** The two parts the code joins are the window on the doubled word. *)
Lemma rotated x m : is_u32 x → 0 < m < 32 →
  (x >> m) .| u32 (x << (32 - m)) = u32 ((x + x * 2 ^ 32) / 2 ^ m).
Proof.
  intros Hx Hm. pose proof (Z.pow_pos_nonneg 2 m ltac:(lia) ltac:(lia)).
  apply u32_ext; [|apply u32_bound|].
  - apply is_u32_lor; [|apply u32_bound]. unfold is_u32 in *.
    rewrite Z.shiftr_div_pow2 by lia. split; [apply Z.div_pos; lia|].
    apply Z.div_lt_upper_bound; nia.
  - intros k Hk. rewrite Z.lor_spec, !u32_testbit, Z.shiftr_spec, Z.shiftl_spec by lia.
    rewrite <- Z.shiftr_div_pow2, Z.shiftr_spec by lia.
    rewrite doubled_bit by (done || lia).
    replace (k - (32 - m)) with (k + m - 32) by lia.
    destruct (Z.ltb_spec (k + m) 32).
    + rewrite (Z.testbit_neg_r x (k + m - 32)) by lia. by rewrite orb_false_r.
    + by rewrite (testbit_of_high x (k + m)) by (done || lia).
Qed.

Lemma ror_cc_eq x i e : is_u32 x → ror_cc x i e = shifts ROR x i e.
Proof.
  intros Hx. unfold ror_cc, shifts, Shift_C. destruct (shift_amount i) as [-> Hn].
  set (n := i mod 256) in *. change (n .& 0x1f) with (n .& Z.ones 5). rewrite Z.land_ones by lia.
  change (2 ^ 5) with 32. pose proof (Z.mod_pos_bound n 32 ltac:(lia)).
  destruct (Z.eqb_spec (n mod 32) 0) as [->|].
  - replace (u32 _) with x; [|unfold is_u32, u32 in *; rewrite Z.div_1_r, Z.mod_add, Z.mod_small by lia; done].
    rewrite bit_value by lia. by destruct (n =? 0).
  - rewrite rotated, bit_value by (done || lia).
    replace (n =? 0) with false by (symmetry; apply Z.eqb_neq; intros E; by rewrite E in *).
    do 3 f_equal. rewrite <- rotated, Z.lor_spec, u32_testbit, Z.shiftr_spec, Z.shiftl_spec by (done || lia).
    rewrite (testbit_of_high x (31 + n mod 32)) by (done || lia). rewrite orb_false_l. f_equal. lia.
Qed.

(** The forms that leave the carry alone. *)
Lemma shl_eq x i e : is_u32 x → shl x i = (shifts LSL x i e).1.
Proof.
  intros. rewrite <- shl_cc_eq by done. unfold shl, shl_cc. destruct (_ >=? _); [done|].
  destruct (Z.eqb_spec (i .& 0xff) 0) as [->|]; [|done]. by apply u32_small.
Qed.
Lemma shr_eq x i e : is_u32 x → shr x i = (shifts LSR x i e).1.
Proof.
  intros. rewrite <- shr_cc_eq by done. unfold shr, shr_cc. destruct (_ >=? _); [done|].
  by destruct (Z.eqb_spec (i .& 0xff) 0) as [->|].
Qed.
Lemma sar_eq x i e : is_u32 x → sar x i = (shifts ASR x i e).1.
Proof.
  intros. unfold sar, shifts, Shift_C. destruct (shift_amount i) as [-> Hn].
  rewrite Z.geb_leb. cbn [fst]. destruct (Z.leb_spec 32 (i mod 256)).
  - by rewrite Z.shiftr_div_pow2, (asr_far x (i mod 256)) by (done || lia).
  - by rewrite Z.shiftr_div_pow2 by lia.
Qed.

(** C35: Shifting by a register computes the architecture's [Shift_C] on the low
    byte of the register, for every amount from 0 to 255: the result and, for
    the flag-setting forms, the carry; nothing else changes. *)
Theorem shifts_match_architecture x i e (Hx : is_u32 x) :
  shl_cc x i e = shifts LSL x i e ∧
  shr_cc x i e = shifts LSR x i e ∧
  sar_cc x i e = shifts ASR x i e ∧
  ror_cc x i e = shifts ROR x i e ∧
  shl x i = (shifts LSL x i e).1 ∧
  shr x i = (shifts LSR x i e).1 ∧
  sar x i = (shifts ASR x i e).1.
Proof.
  split_and!; by eauto using shl_cc_eq, shr_cc_eq, sar_cc_eq, ror_cc_eq, shl_eq, shr_eq, sar_eq.
Qed.

Lemma shifts_match_architecture_witness :
  shl_cc 0x80000001 0x120 demo_cpu = (0, set_c 1 demo_cpu) ∧
  ror_cc 0x80000001 0x101 demo_cpu = (0xc0000000, set_c 1 demo_cpu) ∧
  shl_cc 0x80000001 0x120 demo_cpu = shifts LSL 0x80000001 0x120 demo_cpu.
Proof.
  split; [by vm_compute|]. split; [by vm_compute|].
  apply (shifts_match_architecture 0x80000001 0x120 demo_cpu); by split.
Defined.

(** ** Parallel addition and subtraction *)

(** Lane [n] of a word in lanes of [w] bits, and words put together from
    lanes; the GE bits have one bit per byte of a lane. *)
Definition lane (w n x : Z) : Z := (x >> (n * w)) mod 2 ^ w.
Definition join (w : Z) (vs : list Z) : Z := foldr (λ v acc, v + 2 ^ w * acc) 0 vs.
Definition assemble (w : Z) (rs : list (Z * bool)) : Z * Z :=
  (join w (map fst rs), join (w / 8) (map (λ r : Z * bool, if r.2 then 2 ^ (w / 8) - 1 else 0) rs)).

(** The instruction sets, each by its prefix, and what the architecture gives
    for one lane: the value and GE. *)
Inductive kind : Type := KQ | KUQ | KS | KU | KSH | KUH.
Definition prefix_of (k : kind) : prefix :=
  match k with
  | KQ => pfx_q | KUQ => pfx_uq | KS => pfx_s | KU => pfx_u | KSH => pfx_sh | KUH => pfx_uh
  end.

Definition exact (sub : bool) (a b : Z) : Z := if sub then a - b else a + b.
Definition lane_spec (k : kind) (sub : bool) (w a b : Z) : Z * bool :=
  let s := exact sub (sext w a) (sext w b) in
  let u := exact sub a b in
  match k with
  | KQ => (clamp w s mod 2 ^ w, false)
  | KUQ => (Z.max 0 (Z.min (2 ^ w - 1) u), false)
  | KS => (s mod 2 ^ w, 0 <=? s)
  | KU => (u mod 2 ^ w, if sub then 0 <=? u else 2 ^ w <=? u)
  | KSH => ((s / 2) mod 2 ^ w, false)
  | KUH => ((u / 2) mod 2 ^ w, false)
  end.

(** Which lanes each instruction combines. *)
Definition parallel_spec (k : kind) (i : addsub_insn) (a b : Z) : Z * Z :=
  let at16 sub n m := lane_spec k sub 16 (lane 16 n a) (lane 16 m b) in
  let at8 sub n := lane_spec k sub 8 (lane 8 n a) (lane 8 n b) in
  match i with
  | Add16 => assemble 16 [at16 false 0 0; at16 false 1 1]
  | Sub16 => assemble 16 [at16 true 0 0; at16 true 1 1]
  | Add8 => assemble 8 (map (at8 false) [0; 1; 2; 3])
  | Sub8 => assemble 8 (map (at8 true) [0; 1; 2; 3])
  | SubAddX => assemble 16 [at16 false 0 1; at16 true 1 0]
  | AddSubX => assemble 16 [at16 true 0 1; at16 false 1 0]
  end.

Lemma lor_shifted x y k : 0 ≤ k → 0 ≤ x < 2 ^ k → x .| (y << k) = x + 2 ^ k * y.
Proof.
  intros Hk Hx. rewrite Z.shiftl_mul_pow2, (Z.mul_comm _ y), <- Z.add_lor_land by done.
  replace (x .& (y * 2 ^ k)) with 0; [lia|]. symmetry. apply Z.bits_inj'. intros n Hn.
  rewrite Z.land_spec, Z.bits_0, Z.mul_pow2_bits by done. destruct (Z.ltb_spec n k).
  - by rewrite (Z.testbit_neg_r y), andb_false_r by lia.
  - by rewrite (mask_testbit x n k) by lia.
Qed.

Definition cut (w : Z) (r : Z * bool) : Z * bool := (r.1 mod 2 ^ w, r.2).

Lemma put_lanes16 r0 r1 :
  put_lane 16 1 r1 (put_lane 16 0 r0 (0, 0)) = assemble 16 [cut 16 r0; cut 16 r1].
Proof.
  unfold put_lane, assemble, cut, join. cbn [foldr map fst snd].
  assert (0 ≤ r0.1 mod 2 ^ 16 < 2 ^ 16) by (by apply Z.mod_pos_bound).
  rewrite Z.lor_0_l, Z.shiftl_0_r, lor_shifted by lia. f_equal.
  - rewrite Z.mul_0_r, Z.add_0_r. done.
  - by destruct r0.2, r1.2.
Qed.

Lemma put_lanes8 r0 r1 r2 r3 :
  put_lane 8 3 r3 (put_lane 8 2 r2 (put_lane 8 1 r1 (put_lane 8 0 r0 (0, 0))))
  = assemble 8 [cut 8 r0; cut 8 r1; cut 8 r2; cut 8 r3].
Proof.
  unfold put_lane, assemble, cut, join. cbn [foldr map fst snd].
  assert (0 ≤ r0.1 mod 2 ^ 8 < 2 ^ 8) by (by apply Z.mod_pos_bound).
  assert (0 ≤ r1.1 mod 2 ^ 8 < 2 ^ 8) by (by apply Z.mod_pos_bound).
  assert (0 ≤ r2.1 mod 2 ^ 8 < 2 ^ 8) by (by apply Z.mod_pos_bound).
  change (0 * 8) with 0. change (1 * 8) with 8. change (2 * 8) with 16. change (3 * 8) with 24.
  rewrite Z.lor_0_l, Z.shiftl_0_r, (lor_shifted (r0.1 mod _) _ 8) by lia.
  rewrite (lor_shifted (_ + _) _ 16), (lor_shifted (_ + _) _ 24) by lia. f_equal; [lia|].
  by destruct r0.2, r1.2, r2.2, r3.2.
Qed.

(** [op] computes [f] of the low [w] bits of its operands. *)
Definition lane_impl (w : Z) (op : lane_op) (f : Z → Z → Z * bool) : Prop :=
  ∀ a b, cut w (op a b) = f (a mod 2 ^ w) (b mod 2 ^ w).

(** The four macros of a prefix compute the lanes of [k]. *)
Definition prefix_impl (p : prefix) (k : kind) : Prop := ∀ sub : bool,
  lane_impl 16 (if sub then p_sub16 p else p_add16 p) (lane_spec k sub 16) ∧
  lane_impl 8 (if sub then p_sub8 p else p_add8 p) (lane_spec k sub 8).

Lemma parallel_impl p k i a b : prefix_impl p k → parallel p i a b = parallel_spec k i a b.
Proof.
  intros Hp. destruct (Hp false) as [A16 A8], (Hp true) as [S16 S8]. cbn iota in *.
  destruct i; unfold parallel, pfx_add16, pfx_sub16, pfx_add8, pfx_sub8, lanes8, pfx_subaddx,
    pfx_addsubx; rewrite ?put_lanes16, ?put_lanes8, ?A16, ?S16, ?A8, ?S8;
    unfold parallel_spec, lane; rewrite ?Z.mul_0_l, ?Z.mul_1_l, ?Z.shiftr_0_r; done.
Qed.

Lemma sat_lane_eq w over a res : 0 < w →
  sat_lane w over a res
  = if over then (if Z.testbit a (w - 1) then 2 ^ (w - 1) else 2 ^ (w - 1) - 1) else res.
Proof.
  intros Hw. unfold sat_lane. rewrite Z.shiftl_mul_pow2, Z.mul_1_l by lia.
  by rewrite (truth_bit _ _ (w - 1)) by lia.
Qed.
Lemma u32_mod x w : 0 ≤ w ≤ 32 → u32 x mod 2 ^ w = x mod 2 ^ w.
Proof.
  intros Hw. apply Z.mod_mod_divide.
  exists (2 ^ (32 - w)). rewrite <- Z.pow_add_r by lia. f_equal. lia.
Qed.
Lemma u32_half x w : - 2 ^ 32 ≤ x < 2 ^ 32 → 0 ≤ w ≤ 31 → (u32 x >> 1) mod 2 ^ w = (x / 2) mod 2 ^ w.
Proof.
  intros Hx Hw. rewrite Z.shiftr_div_pow2 by lia. unfold u32. rewrite (mod_case 32) by lia.
  destruct (Z.ltb_spec x 0); [|by rewrite (proj2 (Z.leb_gt _ _)) by lia].
  change (2 ^ 32) with (2 ^ 31 * 2). change (2 ^ 1) with 2. rewrite Z.div_add by lia.
  rewrite <- (u32_mod (_ + _)), <- (u32_mod (x / 2)) by lia.
  replace 31 with (31 - w + w) at 1 by lia. rewrite Z.pow_add_r, !u32_mod, Z.mod_add by lia. done.
Qed.

Section one_width.
Context (w : Z) (Hw : w = 16 ∨ w = 8).
Implicit Types a b : Z.

Lemma width_bounds : 0 < w ∧ 2 ^ w ≤ 2 ^ 16 ∧ 0 < 2 ^ w.
Proof. destruct Hw as [-> | ->]; lia. Qed.
Lemma mod_bound a : 0 ≤ a mod 2 ^ w < 2 ^ w.
Proof. apply Z.mod_pos_bound. by destruct width_bounds as (? & ? & ?). Qed.
Lemma mod_twice a : a mod 2 ^ w mod 2 ^ w = a mod 2 ^ w.
Proof. apply Z.mod_small, mod_bound. Qed.
Lemma sext_mod_in a : sext w (a mod 2 ^ w) = sext w a.
Proof. unfold sext. by rewrite mod_twice. Qed.

Lemma sarith_lane (op : Z → Z → Z) a b :
  cut w (op (sext w a) (sext w b), op (sext w a) (sext w b) >=? 0)
  = ((op (sext w (a mod 2 ^ w)) (sext w (b mod 2 ^ w))) mod 2 ^ w,
     0 <=? op (sext w (a mod 2 ^ w)) (sext w (b mod 2 ^ w))).
Proof. unfold cut. cbn [fst snd]. by rewrite !sext_mod_in, Z.geb_leb. Qed.

Lemma shalf_lane (op : Z → Z → Z) a b :
  cut w (op (sext w a) (sext w b) >> 1, false)
  = ((op (sext w (a mod 2 ^ w)) (sext w (b mod 2 ^ w)) / 2) mod 2 ^ w, false).
Proof. unfold cut. cbn [fst snd]. by rewrite !sext_mod_in, Z.shiftr_div_pow2 by lia. Qed.

Lemma uhalf_lane (sub : bool) a b :
  cut w (u32 (exact sub (a mod 2 ^ w) (b mod 2 ^ w)) >> 1, false)
  = ((exact sub (a mod 2 ^ w) (b mod 2 ^ w) / 2) mod 2 ^ w, false).
Proof.
  destruct width_bounds as (? & ? & ?). unfold cut. cbn [fst snd].
  pose proof (mod_bound a). pose proof (mod_bound b).
  rewrite u32_half; [done| |destruct Hw; lia]. destruct sub; unfold exact; lia.
Qed.

Lemma uarith_add a b :
  cut w (u32 (a mod 2 ^ w + b mod 2 ^ w), u32 (a mod 2 ^ w + b mod 2 ^ w) >> w =? 1)
  = ((a mod 2 ^ w + b mod 2 ^ w) mod 2 ^ w, 2 ^ w <=? a mod 2 ^ w + b mod 2 ^ w).
Proof.
  destruct width_bounds as (? & ? & ?). pose proof (mod_bound a). pose proof (mod_bound b).
  unfold cut. cbn [fst snd]. rewrite u32_mod by (destruct Hw; lia). f_equal.
  rewrite u32_small, Z.shiftr_div_pow2 by (unfold is_u32; lia).
  destruct (Z.leb_spec (2 ^ w) (a mod 2 ^ w + b mod 2 ^ w)).
  - apply Z.eqb_eq. symmetry. apply (Z.div_unique _ _ _ (a mod 2 ^ w + b mod 2 ^ w - 2 ^ w)); lia.
  - by rewrite Z.div_small by lia.
Qed.
Lemma uarith_sub a b :
  cut w (u32 (a mod 2 ^ w - b mod 2 ^ w), u32 (a mod 2 ^ w - b mod 2 ^ w) >> w =? 0)
  = ((a mod 2 ^ w - b mod 2 ^ w) mod 2 ^ w, 0 <=? a mod 2 ^ w - b mod 2 ^ w).
Proof.
  destruct width_bounds as (? & ? & ?). pose proof (mod_bound a). pose proof (mod_bound b).
  unfold cut. cbn [fst snd]. rewrite u32_mod by (destruct Hw; lia). f_equal.
  unfold u32. rewrite (mod_case 32), Z.shiftr_div_pow2 by lia.
  destruct (Z.leb_spec 0 (a mod 2 ^ w - b mod 2 ^ w)).
  - rewrite (proj2 (Z.ltb_ge _ _)), (proj2 (Z.leb_gt _ _)) by lia. by rewrite Z.div_small by lia.
  - rewrite (proj2 (Z.ltb_lt _ _)) by lia. apply Z.eqb_neq.
    assert (1 ≤ (a mod 2 ^ w - b mod 2 ^ w + 2 ^ 32) / 2 ^ w); [|lia].
    apply Z.div_le_lower_bound; lia.
Qed.

Lemma qadd_lane over a b :
  over = add_test w (a mod 2 ^ w) (b mod 2 ^ w) ((a mod 2 ^ w + b mod 2 ^ w) mod 2 ^ w) →
  cut w (sat_lane w over (a mod 2 ^ w) ((a mod 2 ^ w + b mod 2 ^ w) mod 2 ^ w), false)
  = (clamp w (sext w (a mod 2 ^ w) + sext w (b mod 2 ^ w)) mod 2 ^ w, false).
Proof.
  intros ->. destruct width_bounds as (? & _). unfold cut. cbn [fst snd].
  by rewrite sat_lane_eq, sat_add, mod_twice by (done || apply mod_bound).
Qed.
Lemma qsub_lane over a b :
  over = sub_test w (a mod 2 ^ w) (b mod 2 ^ w) ((a mod 2 ^ w - b mod 2 ^ w) mod 2 ^ w) →
  cut w (sat_lane w over (a mod 2 ^ w) ((a mod 2 ^ w - b mod 2 ^ w) mod 2 ^ w), false)
  = (clamp w (sext w (a mod 2 ^ w) - sext w (b mod 2 ^ w)) mod 2 ^ w, false).
Proof.
  intros ->. destruct width_bounds as (? & _). unfold cut. cbn [fst snd].
  by rewrite sat_lane_eq, sat_sub, mod_twice by (done || apply mod_bound).
Qed.

Lemma uqadd_lane a b :
  let r := (a mod 2 ^ w + b mod 2 ^ w) mod 2 ^ w in
  cut w (if r <? a mod 2 ^ w then 2 ^ w - 1 else r, false)
  = (Z.max 0 (Z.min (2 ^ w - 1) (a mod 2 ^ w + b mod 2 ^ w)), false).
Proof.
  intros r. destruct width_bounds as (Hp & ? & ?). pose proof (mod_bound a). pose proof (mod_bound b).
  unfold cut. cbn [fst snd]. f_equal. subst r. rewrite (mod_case w Hp (_ + _)) by lia.
  rewrite Z.mod_small; split_tests; lia.
Qed.
Lemma uqsub_lane a b :
  cut w (if a mod 2 ^ w >? b mod 2 ^ w then (a mod 2 ^ w - b mod 2 ^ w) mod 2 ^ w else 0, false)
  = (Z.max 0 (Z.min (2 ^ w - 1) (a mod 2 ^ w - b mod 2 ^ w)), false).
Proof.
  destruct width_bounds as (Hp & ? & ?). pose proof (mod_bound a). pose proof (mod_bound b).
  unfold cut. cbn [fst snd]. f_equal. rewrite (mod_case w Hp (_ - _)) by lia.
  rewrite Z.mod_small; split_tests; lia.
Qed.
End one_width.

(** The bit tests of the saturating operations. *)
Lemma sat_tests (w k : Z) a b r : 0 < w → k = 2 ^ (w - 1) →
  truth ((r .^ a) .& k) && negb (truth ((a .^ b) .& k)) = add_test w a b r ∧
  truth ((r .^ a) .& k) && truth ((a .^ b) .& k) = sub_test w a b r.
Proof.
  intros Hw ->. unfold add_test, sub_test. by rewrite !(truth_bit _ _ (w - 1)), !Z.lxor_spec by lia.
Qed.

Lemma q_lanes : prefix_impl pfx_q KQ.
Proof.
  intros sub; split; intros a b; destruct sub.
  - apply (qsub_lane 16); [by left|]. by apply (sat_tests 16).
  - apply (qadd_lane 16); [by left|]. by apply (sat_tests 16).
  - apply (qsub_lane 8); [by right|]. by apply (sat_tests 8).
  - apply (qadd_lane 8); [by right|]. by apply (sat_tests 8).
Qed.
Lemma uq_lanes : prefix_impl pfx_uq KUQ.
Proof.
  intros sub; split; intros a b; destruct sub.
  - apply (uqsub_lane 16). by left.
  - apply (uqadd_lane 16). by left.
  - apply (uqsub_lane 8). by right.
  - apply (uqadd_lane 8). by right.
Qed.
Lemma s_lanes : prefix_impl pfx_s KS.
Proof.
  intros sub; split; intros a b; destruct sub.
  - apply (sarith_lane 16 ltac:(by left) Z.sub).
  - apply (sarith_lane 16 ltac:(by left) Z.add).
  - apply (sarith_lane 8 ltac:(by right) Z.sub).
  - apply (sarith_lane 8 ltac:(by right) Z.add).
Qed.
Lemma u_lanes : prefix_impl pfx_u KU.
Proof.
  intros sub; split; intros a b; destruct sub.
  - apply (uarith_sub 16). by left.
  - apply (uarith_add 16). by left.
  - apply (uarith_sub 8). by right.
  - apply (uarith_add 8). by right.
Qed.
Lemma sh_lanes : prefix_impl pfx_sh KSH.
Proof.
  intros sub; split; intros a b; destruct sub.
  - apply (shalf_lane 16 ltac:(by left) Z.sub).
  - apply (shalf_lane 16 ltac:(by left) Z.add).
  - apply (shalf_lane 8 ltac:(by right) Z.sub).
  - apply (shalf_lane 8 ltac:(by right) Z.add).
Qed.
Lemma uh_lanes : prefix_impl pfx_uh KUH.
Proof.
  intros sub; split; intros a b; destruct sub.
  - apply (uhalf_lane 16 ltac:(by left) true).
  - apply (uhalf_lane 16 ltac:(by left) false).
  - apply (uhalf_lane 8 ltac:(by right) true).
  - apply (uhalf_lane 8 ltac:(by right) false).
Qed.

(** C36: The parallel instructions compute each lane on its own, for every
    prefix and instruction and all operands: saturated, modulo or halved, the
    lanes exchanged in the [X] forms, the result made of exactly these lanes,
    and GE set for the bytes of a lane whose signed result is not negative, or
    whose unsigned sum carries or difference does not borrow. *)
Theorem parallel_lanes k i a b : parallel (prefix_of k) i a b = parallel_spec k i a b.
Proof.
  apply parallel_impl; destruct k;
    [apply q_lanes|apply uq_lanes|apply s_lanes|apply u_lanes|apply sh_lanes|apply uh_lanes].
Qed.

(** [SEL] takes each byte from the first operand where GE is set. *)
Lemma sel_flags_bit flags a b k : 0 ≤ k < 32 →
  Z.testbit (sel_flags flags a b) k =
    if Z.testbit flags (k / 8) then Z.testbit a k else Z.testbit b k.
Proof.
  intros Hk. unfold sel_flags.
  rewrite Z.lor_spec, !Z.land_spec, Z.lnot_spec, (truth_bit _ 1 0), (truth_bit _ 2 1),
    (truth_bit _ 4 2), (truth_bit _ 8 3) by (done || lia).
  set (m := if Z.testbit flags 3 then _ else _).
  assert (Z.testbit m k = Z.testbit flags (k / 8)) as ->.
  { subst m. revert k Hk. apply bit_cases.
    repeat (constructor; [
      match goal with |- context [?n / 8] => let v := eval vm_compute in (n / 8) in change (n / 8) with v end;
      by destruct (Z.testbit flags 0), (Z.testbit flags 1), (Z.testbit flags 2), (Z.testbit flags 3)|]).
    constructor. }
  destruct (Z.testbit flags (k / 8)); cbn [negb];
    by rewrite ?andb_true_r, ?andb_false_r, ?orb_false_r.
Qed.

(** ** The floating-point status register *)

(** The fields of [fp_status] that mirror bits of the register. *)
Definition fp_modes_agree (e : CPUARMState) : Prop :=
  let r := fpscr_reg e in
  let f := fp_status (vfp e) in
  float_rounding_mode f = float_rounding ((r >> 22) .& 3) ∧
  flush_to_zero f = of_bool (Z.testbit r 24) ∧
  flush_inputs_to_zero f = of_bool (Z.testbit r 24) ∧
  default_nan_mode f = of_bool (Z.testbit r 25).
#[export] Instance fp_modes_agree_dec e : Decision (fp_modes_agree e).
Proof. unfold fp_modes_agree. apply _. Defined.

(** Six exception bits go to the host's flags and come back. *)
Lemma exceptbits_roundtrip v :
  let r := vfp_exceptbits_from_host (vfp_exceptbits_to_host v .| 0) in
  is_u32 r ∧ ∀ n, 0 ≤ n < 32 → Z.testbit r n = Z.testbit 0x9f n && Z.testbit v n.
Proof.
  unfold vfp_exceptbits_to_host, carry_bit.
  rewrite (truth_bit v 1 0), (truth_bit v 2 1), (truth_bit v 4 2), (truth_bit v 8 3),
    (truth_bit v 0x10 4), (truth_bit v 0x80 7) by (done || lia).
  split.
  - by destruct (Z.testbit v 0), (Z.testbit v 1), (Z.testbit v 2), (Z.testbit v 3), (Z.testbit v 4),
      (Z.testbit v 7).
  - apply bit_cases. repeat (constructor; [
      by destruct (Z.testbit v 0), (Z.testbit v 1), (Z.testbit v 2), (Z.testbit v 3), (Z.testbit v 4),
        (Z.testbit v 7)|]).
    constructor.
Qed.

Lemma fpscr_reg_set e v : length (xregs (vfp e)) = 16%nat →
  fpscr_reg (set_xreg ARM_VFP_FPSCR v e) = v.
Proof.
  intros Hl. unfold fpscr_reg, set_xreg. cbn [vfp on_vfp set_field xregs].
  rewrite (nth_lookup_Some _ _ _ v); [done|]. apply list_lookup_insert_eq. unfold ARM_VFP_FPSCR. lia.
Qed.

(** What a write leaves in the parts of the register. *)
Lemma set_fpscr_fields e val : length (xregs (vfp e)) = 16%nat →
  let e' := vfp_set_fpscr e val in
  fpscr_reg e' = val .& 0xffc8ffff ∧
  vec_len (vfp e') = (val >> 16) .& 7 ∧
  vec_stride (vfp e') = (val >> 20) .& 3 ∧
  float_exception_flags (fp_status (vfp e')) = vfp_exceptbits_to_host val ∧
  float_exception_flags (standard_fp_status (vfp e')) = 0.
Proof.
  intros Hl e'. rewrite <- (fpscr_reg_set e (val .& 0xffc8ffff) Hl).
  subst e'. unfold vfp_set_fpscr, on_fp. repeat case_match; done.
Qed.

(** One bit of the parts below: its number is a constant. *)
Ltac fpscr_bit :=
  rewrite ?Z.land_spec, ?Z.shiftr_spec by lia;
  repeat match goal with |- context [Z.testbit (Z.pos ?m) ?k] =>
    let b := eval vm_compute in (Z.testbit (Z.pos m) k) in change (Z.testbit (Z.pos m) k) with b end;
  cbn [andb orb]; rewrite ?andb_true_r, ?andb_false_r, ?orb_false_r, ?orb_diag; done.

(** A word put together from its fields, bit by bit. *)
Lemma fpscr_parts val r : is_u32 val → is_u32 r →
  (∀ n, 0 ≤ n < 32 → Z.testbit r n = Z.testbit 0x9f n && Z.testbit val n) →
  (val .& 0xffc8ffff .& 0xffc8ffff) .| (((val >> 16) .& 7) << 16) .| (((val >> 20) .& 3) << 20) .| r
  = val.
Proof.
  intros Hv Hr Hb. apply u32_ext; [|done|].
  - apply is_u32_lor; [apply is_u32_lor; [apply is_u32_lor|]|done].
    + by apply is_u32_land, is_u32_land.
    + pose proof (land_mask_bound (val >> 16) 7 ltac:(lia)).
      unfold is_u32. rewrite Z.shiftl_mul_pow2 by lia. lia.
    + pose proof (land_mask_bound (val >> 20) 3 ltac:(lia)).
      unfold is_u32. rewrite Z.shiftl_mul_pow2 by lia. lia.
  - intros n Hn. rewrite !Z.lor_spec, Hb, !Z.land_spec, !Z.shiftl_spec by lia. revert n Hn.
    apply bit_cases. repeat (constructor; [fpscr_bit|]). constructor.
Qed.


(** The rounding field, and when a write leaves it. *)
Lemma rounding_field_same x y :
  Z.testbit x 22 = Z.testbit y 22 → Z.testbit x 23 = Z.testbit y 23 →
  (x >> 22) .& 3 = (y >> 22) .& 3.
Proof.
  intros H22 H23. apply Z.bits_inj'. intros n Hn. rewrite !Z.land_spec, !Z.shiftr_spec by lia.
  destruct (decide (n = 0)) as [->|]; [change (0 + 22) with 22; by rewrite H22|].
  destruct (decide (n = 1)) as [->|]; [change (1 + 22) with 23; by rewrite H23|].
  by rewrite (mask_testbit 3 n 2), !andb_false_r by lia.
Qed.
Lemma unchanged_bits x y m n : 0 ≤ n → Z.testbit m n = true →
  truth ((x .^ y) .& m) = false → Z.testbit x n = Z.testbit y n.
Proof.
  intros Hn Hm. unfold truth. rewrite negb_false_iff, Z.eqb_eq. intros Hz.
  apply (f_equal (λ z, Z.testbit z n)) in Hz.
  rewrite Z.land_spec, Z.lxor_spec, Hm, Z.bits_0, andb_true_r in Hz.
  by apply xorb_eq.
Qed.

Lemma set_fpscr_modes e val : length (xregs (vfp e)) = 16%nat →
  fp_modes_agree e → fp_modes_agree (vfp_set_fpscr e val).
Proof.
  intros Hl (Hr & Hz & Hi & Hn). destruct (set_fpscr_fields e val Hl) as (Hreg & _).
  assert (∀ n, 0 ≤ n → Z.testbit 0xffc8ffff n = true →
    Z.testbit (val .& 0xffc8ffff) n = Z.testbit val n) as Hbit.
  { intros n ? Hm. by rewrite Z.land_spec, Hm, andb_true_r. }
  unfold fp_modes_agree. rewrite Hreg, !Hbit, (rounding_field_same _ val) by (done || by apply Hbit).
  unfold vfp_set_fpscr, on_fp. cbn zeta.
  rewrite !(truth_bit val (1 << 24) 24), !(truth_bit val (1 << 25) 25) by (done || lia).
  destruct (truth ((fpscr_reg e .^ val) .& (3 << 22))) eqn:H22;
    [|rewrite (rounding_field_same _ val) in Hr by (by eapply unchanged_bits; [..|exact H22])];
  (destruct (truth ((fpscr_reg e .^ val) .& (1 << 24))) eqn:H24;
    [|rewrite (unchanged_bits _ val (1 << 24) 24) in Hz, Hi by done]);
  (destruct (truth ((fpscr_reg e .^ val) .& (1 << 25))) eqn:H25;
    [|rewrite (unchanged_bits _ val (1 << 25) 25) in Hn by done]);
  by split_and!.
Qed.

(** Reading FPSCR gives back every bit of the word last written, although it
    is kept in five places (the register, vector length and stride, and the
    exception flags of two host states); and a write keeps the host's rounding
    mode, flush-to-zero and default-NaN modes those of the register, however
    few of them it updates. *)
Theorem fpscr_write_read e val (Hval : is_u32 val) (Hl : length (xregs (vfp e)) = 16%nat) :
  vfp_get_fpscr (vfp_set_fpscr e val) = val ∧
  (fp_modes_agree e → fp_modes_agree (vfp_set_fpscr e val)).
Proof.
  split; [|by apply set_fpscr_modes].
  destruct (set_fpscr_fields e val Hl) as (Hr & Hlen & Hst & Hf & Hs).
  unfold vfp_get_fpscr. rewrite Hr, Hlen, Hst, Hf, Hs.
  destruct (exceptbits_roundtrip val). by apply fpscr_parts.
Qed.

(** After reset the modes agree. *)
Lemma fpscr_write_read_witness :
  ∃ e, cpu_arm_init "cortex-a8" 0 = Ok (Some e) ∧ fp_modes_agree e ∧
    vfp_get_fpscr (vfp_set_fpscr e 0xf3f7009f) = 0xf3f7009f.
Proof.
  destruct (cpu_arm_init "cortex-a8" 0) as [[e|]|f] eqn:E.
  - exists e. split; [done|]. vm_compute in E. injection E as <-. split.
    + by apply (bool_decide_unpack _), I.
    + apply (fpscr_write_read _ 0xf3f7009f); [by split|done].
  - vm_compute in E. discriminate.
  - vm_compute in E. discriminate.
Defined.
