(* ===== verification/GuestOps.v ===== *)
(** * What translated code does ([tcg/i386/tcg-target.c],
    [target-arm/op_helper.c], [exec.c])

    The loads and stores the code generator inlines, the helpers translated
    code calls, and translated code as an arbitrary sequence of such
    operations.  [Tcg] has the operations the translator emits. *)
From S2P Require Import Prelude TlbCore TlbTrace SoftTlb ArmCpu ArmMode ArmMmu GetPtes ArmCp15.
From S2P Require Import PhysMem SoftMmu ArmAlu.

(** ** Fields of the CPU that translated code assigns *)

(** The fields that remember the last exclusive load. *)
Inductive exclusive : Type := X_addr | X_val | X_high.
#[export] Instance exclusive_eq_dec : EqDecision exclusive.
Proof. solve_decision. Defined.

(** The fields of [CPUState] that translated code reads and writes by their
    offset. *)
Inductive env_field : Type :=
| F_CF | F_VF | F_NF | F_ZF | F_GE | F_spsr | F_thumb | F_condexec_bits.

Definition put_env (f : env_field) (v : Z) (e : CPUARMState) : CPUARMState :=
  match f with
  | F_CF => e <| CF := v |> | F_VF => e <| VF := v |> | F_NF => e <| NF := v |> | F_ZF => e <| ZF := v |>
  | F_GE => e <| GE := v |> | F_spsr => e <| spsr := v |> | F_thumb => e <| thumb := v |>
  | F_condexec_bits => e <| condexec_bits := v |>
  end.

Definition put_excl (x : exclusive) (v : Z) (e : CPUARMState) : CPUARMState :=
  match x with
  | X_addr => e <| exclusive_addr := v |>
  | X_val => e <| exclusive_val := v |>
  | X_high => e <| exclusive_high := v |>
  end.

Section guest_ops.
Context {D : Type} `{IoPorts D} `{TbCache}.
(** The bound of the refill loops, and [GETPC()]. *)
Context (fuel : nat) (retaddr : Z).
Implicit Types s : smmu D.

(** ** Inlined loads and stores *)

(** What [tcg_out_qemu_ld] emits: the TLB is compared in line, a hit loads
    from host memory, anything else calls [__ld]; a signed load is extended
    to a 32-bit register. *)
Definition tcg_ld (sz : Z) (sign : bool) (addr mmu_idx : Z) : sm D Z :=
  e <-- (λ s, sm_res (get_entry (tlb (cpu s)) mmu_idx (tlb_index addr)) s) ;;
  v <-- (if addr_read e =? fast_key sz addr then load_raw sz addr e
         else ld_slow_path fuel sz addr Read mmu_idx retaddr) ;;
  sm_ret (if sign then u32 (sext (8 * sz) v) else v).

(** What [tcg_out_qemu_st] emits. *)
Definition tcg_st (sz addr val mmu_idx : Z) : sm D unit :=
  e <-- (λ s, sm_res (get_entry (tlb (cpu s)) mmu_idx (tlb_index addr)) s) ;;
  if addr_write e =? fast_key sz addr then store_raw sz addr val e
  else st_slow_path fuel sz addr val mmu_idx retaddr.

(** ** NEON registers and structures *)
Definition cpu_mmu_index (e : CPUARMState) : Z := of_bool (user_mode e).

(** [neon_tbl]: [maxindex] bytes of the registers from [rn] on. *)
Definition tbl_byte (e : CPUARMState) (ireg def rn maxindex shift : Z) : res Z :=
  let index := (ireg >> shift) .& 0xff in
  if index <? maxindex then
    d ← aget (vregs (vfp e)) (rn + (index >> 3));
    Ok (((d >> ((index .& 7) << 3)) .& 0xff) << shift)
  else Ok (def .& u32 (0xff << shift)).
Definition neon_tbl (e : CPUARMState) (ireg def rn maxindex : Z) : res Z :=
  b0 ← tbl_byte e ireg def rn maxindex 0;
  b1 ← tbl_byte e ireg def rn maxindex 8;
  b2 ← tbl_byte e ireg def rn maxindex 16;
  b3 ← tbl_byte e ireg def rn maxindex 24;
  Ok (b0 .| b1 .| b2 .| b3).

(** Registers, interleave and spacing by operation. *)
Definition neon_ls_element_type : list (Z * Z * Z) :=
  [(4, 4, 1); (4, 4, 2); (4, 1, 1); (4, 2, 1); (3, 3, 1); (3, 3, 2); (3, 1, 1);
   (1, 1, 1); (2, 2, 1); (2, 2, 2); (2, 1, 1)].

(** [env->vfp.regs[rd]]; an index past the array reaches other fields. *)
Definition get_vreg (rd : Z) : sm D Z := λ s, sm_res (aget (vregs (vfp (cpu s))) rd) s.
Definition set_vreg (rd v : Z) : sm D unit := λ s,
  l ← aput (vregs (vfp (cpu s))) rd v;
  Ok (Done tt (with_cpu (on_vfp (λ r, r <| vregs := l |>) (cpu s)) s)).

(** The elements of one register, [n] of [sz] bytes from [addr] on; the loads
    and stores are the [slow_] ones. *)
Fixpoint ld_elems (n : nat) (sz addr stride mmu_idx : Z) : sm D Z :=
  match n with
  | O => sm_ret 0
  | S n =>
      v <-- slow_ld 1 fuel sz addr Read mmu_idx retaddr ;;
      w <-- ld_elems n sz (u32 (addr + stride)) stride mmu_idx ;;
      sm_ret (v .| (w << (8 * sz)))
  end.
Fixpoint st_elems (n : nat) (sz addr val stride mmu_idx : Z) : sm D unit :=
  match n with
  | O => sm_ret tt
  | S n =>
      slow_st fuel sz addr (val mod 2 ^ (8 * sz)) mmu_idx retaddr ;;;
      st_elems n sz (u32 (addr + stride)) (val >> (8 * sz)) stride mmu_idx
  end.

(** The address the registers start from. *)
Definition elem_start (base addr size nregs interleave reg : Z) : Z :=
  if (2 <? interleave) || ((interleave =? 2) && (nregs =? 2))
  then u32 (base + (1 << size) * reg)
  else if (interleave =? 2) && (nregs =? 4) && (reg =? 2) then u32 (base + (1 << size))
  else addr.

(** [for (reg = 0; reg < nregs; reg++)], with [n] registers left. *)
Fixpoint neon_regs (n : nat) (load : bool) (base size nregs interleave spacing mmu_idx : Z)
    (reg rd addr : Z) : sm D unit :=
  match n with
  | O => sm_ret tt
  | S n =>
      let addr := elem_start base addr size nregs interleave reg in
      let sz := 1 << size in
      let elems := 8 >> size in
      let stride := sz * interleave in
      (if load then
         v <-- ld_elems (Z.to_nat elems) sz addr stride mmu_idx ;; set_vreg rd v
       else
         v <-- get_vreg rd ;; st_elems (Z.to_nat elems) sz addr v stride mmu_idx) ;;;
      neon_regs n load base size nregs interleave spacing mmu_idx
        (reg + 1) (rd + spacing) (u32 (addr + elems * stride))
  end.

Definition neon_vldst_all (insn : Z) : sm D unit :=
  mmu_idx <-- sm_get (λ s, cpu_mmu_index (cpu s)) ;;
  let op := (insn >> 8) .& 0xf in
  let size := (insn >> 6) .& 3 in
  let rd := ((insn >> 12) .& 0x0f) .| ((insn >> 18) .& 0x10) in
  let rn := (insn >> 16) .& 0xf in
  let load := truth (insn .& (1 << 21)) in
  t <-- sm_res (aget neon_ls_element_type op) ;;
  let '(nregs, interleave, spacing) := t in
  base <-- sm_get (λ s, reg (cpu s) (Z.to_nat rn)) ;;
  neon_regs (Z.to_nat nregs) load base size nregs interleave spacing mmu_idx 0 rd base.

(** ** Helpers on the CPU state *)
Definition on_cpu (f : CPUARMState → res CPUARMState) : sm D unit := λ s,
  e ← f (cpu s); Ok (Done tt (with_cpu e s)).

Definition CPSR_EXEC : Z := CPSR_T .| CPSR_IT .| CPSR_J.
Definition helper_cpsr_read (e : CPUARMState) : Z := cpsr_read e .& Z.lnot CPSR_EXEC.

(** Registers of user mode from a privileged mode. *)
Definition get_user_reg (e : CPUARMState) (regno : Z) : res Z :=
  if regno =? 13 then aget (banked_r13 e) 0
  else if regno =? 14 then aget (banked_r14 e) 0
  else if (8 <=? regno) && (cpu_mode e =? ARM_CPU_MODE_FIQ) then aget (usr_regs e) (regno - 8)
  else aget (regs e) regno.
Definition set_user_reg (regno val : Z) (e : CPUARMState) : res CPUARMState :=
  if regno =? 13 then l ← aput (banked_r13 e) 0 val; Ok (e <| banked_r13 := l |>)
  else if regno =? 14 then l ← aput (banked_r14 e) 0 val; Ok (e <| banked_r14 := l |>)
  else if (8 <=? regno) && (cpu_mode e =? ARM_CPU_MODE_FIQ) then
    l ← aput (usr_regs e) (regno - 8) val; Ok (e <| usr_regs := l |>)
  else l ← aput (regs e) regno val; Ok (e <| regs := l |>).

Definition EXCP_INTERRUPT : Z := 0x10000.
Definition EXCP_HLT : Z := 0x10001.
Definition EXCP_DEBUG : Z := 0x10002.
Definition EXCP_HALTED : Z := 0x10003.

(** [cpu_loop_exit] is a jump out of the block, to the head of [cpu_exec]. *)
Definition raise_exception (excp : Z) : sm D unit := λ s,
  Ok (Raised excp (with_cpu ((cpu s) <| exception_index := excp |>) s)).
Definition helper_wfi : sm D unit := λ s,
  Ok (Raised EXCP_HLT (with_cpu ((cpu s) <| exception_index := EXCP_HLT |> <| halted := 1 |>) s)).

(** A write to coprocessor 15; a TLB maintenance write also reaches the
    tracer. *)
Definition helper_set_cp15 (insn val : Z) : sm D unit := λ s,
  t ← @set_cp15_reg (phys_read (pmem s)) insn val (mkTraced (cpu s) (trc s));
  Ok (Done tt (with_trc (tr t) (with_cpu (first_cpu t) s))).
Definition helper_get_cp15 (insn : Z) : sm D Z := λ s,
  '(v, e) ← get_cp15_reg insn (cpu s); Ok (Done v (with_cpu e s)).

(** [qemu_trace_pc_helper(pc)] *)
Definition trace_pc (pc : Z) : sm D unit := λ s,
  o ← qemu_trace_pc_helper (guest_words s) pc (cpu s) (trc s);
  match o with
  | Returns _ t => Ok (Done tt (with_trc t s))
  | Exits t => Ok (Quit (with_trc t s))
  end.

(** ** Translated blocks *)

(** The operations of a block; computation between them assigns registers and
    flags, which [Arith] stands for. *)
Inductive gop : Type :=
| TracePc (pc : Z)
| Load (sz : nat) (sign : bool) (addr : Z) (user : bool) (rd : nat)
| Store (sz : nat) (addr val : Z) (user : bool)
| CodeFetch (sz : nat) (addr : Z)
| NeonLdSt (insn : Z)
| SetCp15 (insn val : Z)
| GetCp15 (insn : Z) (rd : nat)
| CpsrWrite (val mask : Z)
| SetUserReg (regno val : Z)
| Arith (n : nat) (v cf vf nf zf : Z)
| PutEnv (f : env_field) (v : Z)
| PutExcl (x : exclusive) (v : Z)
| SetQ
| SetR13Banked (mode val : Z)
| Exception (excp : Z)
| Wfi.

(** The widths a translated access has. *)
Definition width (k : nat) : Z := 2 ^ Z.of_nat (k `min` 3).

(** The result of a load; a doubleword goes to a pair of registers. *)
Definition assign (rd : nat) (v : Z) : sm D unit := on_cpu (λ e, Ok (set_reg rd v e)).
Definition assign_load (k rd : nat) (v : Z) : sm D unit :=
  if (k <? 3)%nat then assign rd v
  else on_cpu (λ e, Ok (set_reg (S rd) (v >> 32) (set_reg rd (u32 v) e))).

Definition run_gop (g : gop) : sm D unit :=
  match g with
  | TracePc pc => trace_pc pc
  | Load k sign addr user rd =>
      v <-- tcg_ld (width k) sign addr (of_bool user) ;; assign_load k rd v
  | Store k addr val user => tcg_st (width k) addr val (of_bool user)
  | CodeFetch k addr =>
      i <-- sm_get (λ s, cpu_mmu_index (cpu s)) ;;
      _ <-- ld fuel (width k) addr Code i retaddr ;; sm_ret tt
  | NeonLdSt insn => neon_vldst_all insn
  | SetCp15 insn val => helper_set_cp15 insn val
  | GetCp15 insn rd => v <-- helper_get_cp15 insn ;; assign rd v
  | CpsrWrite val mask => on_cpu (λ e, cpsr_write e val mask)
  | SetUserReg n v => on_cpu (set_user_reg n v)
  | Arith n v cf vf nf zf =>
      on_cpu (λ e, Ok (set_reg n v e <| CF := cf |> <| VF := vf |> <| NF := nf |> <| ZF := zf |>))
  | PutEnv f v => on_cpu (λ e, Ok (put_env f v e))
  | PutExcl x v => on_cpu (λ e, Ok (put_excl x v e))
  | SetQ => on_cpu (λ e, Ok (set_q e))
  | SetR13Banked mode v => on_cpu (λ e, set_r13_banked e mode v)
  | Exception excp => raise_exception excp
  | Wfi => helper_wfi
  end.

Fixpoint run_block (b : list gop) : sm D unit :=
  match b with
  | [] => sm_ret tt
  | g :: b => run_gop g ;;; run_block b
  end.
End guest_ops.
