(* ===== verification/Machine.v ===== *)
(** * The execution loop and a tracing session ([cpu-exec.c], [exec.c],
    [android/qemulator.c])

    [cpu_exec] delivers exceptions and interrupts and runs translated blocks,
    here of any type (lists of operations of [GuestOps] in [MachineFacts] and
    [MachineInv], translated code in [TransMachine]); between two calls of it devices raise interrupts and the user switches the
    tracer on and off.  One CPU with an MMU (no v7-M core), no debugger, no
    semihosting. *)
From S2P Require Import Prelude TlbCore TraceFiles TlbTrace SoftTlb ArmCpu ArmMode ArmMmu.
From S2P Require Import GetPtes ArmCp15 ArmExc PhysMem SoftMmu GuestOps.

(** [semihosting_enabled] is 0; the other fields are never used. *)
#[global] Instance no_semihosting : Semihosting := {|
  semihosting_enabled := false;
  lduw_code := λ _, Ok 0; ldl_code := λ _, Ok 0;
  do_arm_semihosting := λ e, Ok (0, e)
|}.

Definition CPU_INTERRUPT_FIQ : Z := 0x0010.
Definition CPU_INTERRUPT_DEBUG : Z := 0x0080.

Definition cpu_has_work (e : CPUARMState) : bool :=
  truth (interrupt_request e
    .& (CPU_INTERRUPT_FIQ .| CPU_INTERRUPT_HARD .| CPU_INTERRUPT_EXITTB)).
Definition clear_request (mask : Z) (e : CPUARMState) : CPUARMState :=
  e <| interrupt_request := interrupt_request e .& Z.lnot mask |>.
Definition cpu_reset_interrupt (mask : Z) (e : CPUARMState) : CPUARMState :=
  clear_request mask e.
Definition cpu_exit (e : CPUARMState) : CPUARMState := e <| exit_request := 1 |>.

(** ** Delivery

    Each part answers with the code [cpu_exec] returns, if it leaves the loop:
    a code from [EXCP_INTERRUPT] on makes the head of the loop break. *)
Definition exec_exception (e : CPUARMState) : res (option Z * CPUARMState) :=
  if 0 <=? exception_index e then
    if EXCP_INTERRUPT <=? exception_index e then Ok (Some (exception_index e), e)
    else
      e ← do_interrupt_classic e;
      Ok (None, e <| exception_index := -1 |>)
  else Ok (None, e).

(** [env->exception_index = excp; do_interrupt(env);] *)
Definition deliver (b : bool) (excp : Z) (e : CPUARMState) : res CPUARMState :=
  if b then do_interrupt_classic (e <| exception_index := excp |>) else Ok e.

Definition exec_interrupts (e : CPUARMState) : res (option Z * CPUARMState) :=
  let req := interrupt_request e in
  if truth req then
    if truth (req .& CPU_INTERRUPT_DEBUG) then
      Ok (Some EXCP_DEBUG,
          (clear_request CPU_INTERRUPT_DEBUG e) <| exception_index := EXCP_DEBUG |>)
    else if truth (req .& CPU_INTERRUPT_HALT) then
      Ok (Some EXCP_HLT,
          (clear_request CPU_INTERRUPT_HALT e) <| halted := 1 |> <| exception_index := EXCP_HLT |>)
    else
      e ← deliver (truth (req .& CPU_INTERRUPT_FIQ) && negb (truth (uncached_cpsr e .& CPSR_F)))
            EXCP_FIQ e;
      e ← deliver (truth (req .& CPU_INTERRUPT_HARD) &&
                   ((IS_M e && (reg e 15 <? 0xfffffff0)) || negb (truth (uncached_cpsr e .& CPSR_I))))
            EXCP_IRQ e;
      Ok (None, clear_request CPU_INTERRUPT_EXITTB e)
  else Ok (None, e).

Definition exec_exit_request (e : CPUARMState) : option Z * CPUARMState :=
  if truth (exit_request e)
  then (Some EXCP_INTERRUPT, e <| exit_request := 0 |> <| exception_index := EXCP_INTERRUPT |>)
  else (None, e).

Section machine.
Context {D : Type}.
(** Blocks, and what running one does ([tcg_qemu_tb_exec]). *)
Context {B : Type} (run : B → sm D unit).
Implicit Types s : smmu D.

(** [cpu_exec] returned, it is still running when the blocks observed end, or
    the tracer ended the process. *)
Inductive progress : Type :=
| Left (ret : Z) (s : smmu D)
| Running (s : smmu D)
| Gone (s : smmu D).

Definition progress_state (p : progress) : smmu D :=
  match p with Left _ s | Running s | Gone s => s end.

(** What precedes a block; [head]: at the head of the loop, where a [longjmp]
    arrives. *)
Definition before_block (head : bool) (e : CPUARMState) : res (option Z * CPUARMState) :=
  '(r, e) ← (if head then exec_exception e else Ok (None, e));
  match r with
  | Some ret => Ok (Some ret, e)
  | None =>
      '(r, e) ← exec_interrupts e;
      match r with
      | Some ret => Ok (Some ret, e)
      | None => Ok (exec_exit_request e)
      end
  end.

Fixpoint exec_loop (head : bool) (bs : list B) s : res progress :=
  '(r, e) ← before_block head (cpu s);
  let s := with_cpu e s in
  match r with
  | Some ret => Ok (Left ret s)
  | None =>
      match bs with
      | [] => Ok (Running s)
      | b :: bs =>
          o ← run b s;
          match o with
          | Done _ s => exec_loop false bs s
          | Raised _ s => exec_loop true bs s
          | Quit s => Ok (Gone s)
          end
      end
  end.

(** [stop]: the global [exit_request]. *)
Definition cpu_exec (stop : bool) (bs : list B) s : res progress :=
  let e := cpu s in
  if truth (halted e) && negb (cpu_has_work e) then Ok (Left EXCP_HALTED s)
  else
    let e := if truth (halted e) then e <| halted := 0 |> else e in
    let e := if stop then e <| exit_request := 1 |> else e in
    exec_loop true bs (with_cpu (e <| exception_index := -1 |>) s).

(** ** The machine between two calls *)
Inductive event : Type :=
| Exec (stop : bool) (bs : list B)
| Interrupt (mask : Z)
| ResetInterrupt (mask : Z)
| Exit
| Toggle (t : tm).

(** [tlbtrace_toggle] of the user interface; the file opens and the buffer is
    allocated. *)
Definition toggle (t : tm) s : res (smmu D) :=
  u ← tlbtrace_toggle_qemu t true true (mkTraced (cpu s) (trc s));
  Ok (with_trc (tr u) (with_cpu (first_cpu u) s)).

Definition run_event (ev : event) s : res progress :=
  match ev with
  | Exec stop bs => cpu_exec stop bs s
  | Interrupt mask => Ok (Left 0 (with_cpu (cpu_interrupt mask (cpu s)) s))
  | ResetInterrupt mask => Ok (Left 0 (with_cpu (cpu_reset_interrupt mask (cpu s)) s))
  | Exit => Ok (Left 0 (with_cpu (cpu_exit (cpu s)) s))
  | Toggle t => s ← toggle t s; Ok (Left 0 s)
  end.

Fixpoint run_events (evs : list event) s : res progress :=
  match evs with
  | [] => Ok (Left 0 s)
  | ev :: evs =>
      p ← run_event ev s;
      match p with
      | Left _ s => run_events evs s
      | _ => Ok p
      end
  end.
End machine.
Arguments progress D : clear implicits.
Arguments event B : clear implicits.
Arguments Interrupt {B}. Arguments ResetInterrupt {B}. Arguments Exit {B}. Arguments Toggle {B}.
