(* ===== verification/TraceCalls.v ===== *)
(** * Sequences of calls of the tracer

    The tracer seen from QEMU: an interleaving of references, each with the
    page-table walker of its moment, and of flushes.  Whatever the order, the
    output file gets one record per counted miss. *)
From S2P Require Import Prelude TlbCore TraceFormat TlbTrace TlbTraceFacts TlbSimFacts.

Inductive tcall : Type :=
| CallRef (h : pte_helper_t) (addr asid ins : Z)
| CallFlushAll
| CallFlushEntry (v : Z)
| CallFlushAsid (n : Z).

Definition returns (m : res tracer) : res (outcome unit) := t ← m; Ok (Returns tt t).

Definition run_call (c : tcall) (t : tracer) : res (outcome unit) :=
  match c with
  | CallRef h addr asid ins => tlbtrace_refmem addr asid ins (t <| my_pte_helper := h |>)
  | CallFlushAll => returns (tlbtrace_flush_all t)
  | CallFlushEntry v => returns (tlbtrace_flush_entry v t)
  | CallFlushAsid n => returns (tlbtrace_flush_asid n t)
  end.

Fixpoint run_calls (cs : list tcall) (t : tracer) : res (outcome unit) :=
  match cs with
  | [] => Ok (Returns tt t)
  | c :: cs =>
      o ← run_call c t;
      match o with
      | Returns _ t => run_calls cs t
      | Exits t => Ok (Exits t)
      end
  end.

(** The references among the calls: the walker and the page. *)
Definition call_ref (c : tcall) : option (pte_helper_t * Z) :=
  match c with CallRef h addr _ _ => Some (h, page addr) | _ => None end.
Definition refs_of (cs : list tcall) : list (pte_helper_t * Z) := omap call_ref cs.
Definition ref_record (x : pte_helper_t * Z) : trace_rec := rec_of x.1 x.2.

Lemma run_calls_app cs1 cs2 t :
  run_calls (cs1 ++ cs2) t =
  (o ← run_calls cs1 t;
   match o with Returns _ t => run_calls cs2 t | Exits t => Ok (Exits t) end).
Proof.
  revert t. induction cs1 as [|c cs1 IH]; intros t; [done|]. cbn [app run_calls].
  destruct (run_call c t) as [[u t1|t1]|f]; [apply IH|done..].
Qed.

Lemma run_calls_one c t : run_calls [c] t = run_call c t.
Proof.
  cbn [run_calls]. destruct (run_call c t) as [[[] t1|t1]|f]; done.
Qed.

(** ** What no call changes *)
Definition geometry (t : tracer) : Z * Z * Z := (tlb_size t, tlb_set t, started t).

(** The tracer is set up; while it is on, the file [f] followed by the buffer
    holds [recs], one for each counted miss. *)
Definition recording (f : string) (recs : list trace_rec) (t : tracer) : Prop :=
  sl_wf t ∧ out_ok f recs t ∧ u64 (miss (sl_cnt t)) = u64 (zlength recs).

(** A flush rewrites the array and nothing else. *)
Lemma flush_frame (m : tracer → res tracer) t :
  m = tlbtrace_flush_all ∨ (∃ v, m = tlbtrace_flush_entry v) ∨ (∃ n, m = tlbtrace_flush_asid n) →
  sl_wf t →
  ∃ tl, m t = Ok (t <| sl_tlb := Some tl |>) ∧ zlength tl = tlb_size t.
Proof.
  intros Hm Hwf. destruct (wf_tlb _ Hwf) as (tl & Htl & Hl).
  assert (t <| sl_tlb := Some tl |> = t) as Hid by (destruct t; cbn in *; by subst).
  assert (∀ g : TLB_ENTRY → TLB_ENTRY, zlength (g <$> tl) = tlb_size t) as Hlen.
  { intros g. unfold zlength in *. by rewrite length_fmap. }
  destruct Hm as [->|[[v ->]|[n ->]]];
    unfold tlbtrace_flush_all, tlbtrace_flush_entry, tlbtrace_flush_asid, get_tlb;
    (destruct (negb (truth (started t))); [exists tl; by rewrite Hid|]);
    rewrite Htl, <- Hl; cbn [from_option_res]; rewrite bind_ret;
    rewrite ?FLUSH_TLB_spec, ?FLUSH_TLB_ENTRY_spec, ?FLUSH_TLB_ASID_spec, bind_ret;
    eexists; (split; [done|]); rewrite Hl; apply Hlen.
Qed.

Lemma set_array_recording f recs t tl :
  zlength tl = tlb_size t → recording f recs t → recording f recs (t <| sl_tlb := Some tl |>).
Proof.
  intros Hl ([] & Ho & Hm). split; [|split; [by apply (out_ok_ext _ _ t)|done]].
  split; try done. by exists tl.
Qed.

Lemma helper_recording f recs t h : recording f recs t → recording f recs (t <| my_pte_helper := h |>).
Proof.
  intros ([] & Ho & Hm). split; [by split|]. split; [by apply (out_ok_ext _ _ t)|done].
Qed.

(** ** One call *)
Lemma flush_call_spec c t f recs :
  call_ref c = None → recording f recs t →
  ∃ t', run_call c t = Ok (Returns tt t') ∧ recording f recs t' ∧
        geometry t' = geometry t ∧ sl_cnt t' = sl_cnt t.
Proof.
  intros Hc Hr.
  assert (∃ m, run_call c t = returns (m t) ∧
    (m = tlbtrace_flush_all ∨ (∃ v, m = tlbtrace_flush_entry v) ∨ (∃ n, m = tlbtrace_flush_asid n)))
    as (m & -> & Hm) by (destruct c; [done|eexists; split; [reflexivity|]; eauto..]).
  destruct (flush_frame m t Hm (proj1 Hr)) as (tl & Ht & Hl).
  exists (t <| sl_tlb := Some tl |>). unfold returns. rewrite Ht, bind_ret.
  split; [done|]. split; [by apply set_array_recording|done].
Qed.

Lemma miss_bump_recs r c n :
  (r = 0 ∨ r = 1) → u64 (miss c) = u64 n →
  u64 (miss (bump r c)) = u64 (n + zlength (if r =? 0 then [tt] else [])).
Proof. intros [-> | ->] Hm; rewrite (miss_bump_eq _ c n) by auto; done. Qed.

(** A reference is counted once; it exits at the limit with everything on
    disk, or adds a record exactly if it counts as a miss. *)
Lemma ref_call_spec h addr asid ins t f recs :
  recording f recs t →
  (∃ t', run_call (CallRef h addr asid ins) t = Ok (Exits t') ∧
     disk t' !! f = Some (words_bytes (recs ≫= rec_words))) ∨
  ∃ t' logged, run_call (CallRef h addr asid ins) t = Ok (Returns tt t') ∧
    logged `sublist_of` [(h, page addr)] ∧ recording f (recs ++ (ref_record <$> logged)) t' ∧
    geometry t' = geometry t ∧
    u64 (hit (sl_cnt t') + miss (sl_cnt t')) = u64 (hit (sl_cnt t) + miss (sl_cnt t) + 1).
Proof.
  intros (Hwf & Hout & Hm)%(helper_recording f recs t h). cbn [run_call].
  set (t0 := t <| my_pte_helper := h |>) in *.
  destruct (wf_tlb _ Hwf) as (tl & Htl & _).
  destruct (refmem_run addr asid ins t0 tl f recs Hwf Hout Htl)
    as (r & i & tl' & Hi & Hl & Hr & _ & [(_ & _ & t1 & Hrun & _ & Hd)|(_ & t1 & Hrun & Hs & Ho)]);
    [left; by exists t1|right].
  exists t1, (if r =? 0 then [(h, page addr)] else []). split; [done|].
  split; [destruct (r =? 0); [done|apply sublist_nil_l]|].
  pose proof Hs as Hs'. unfold tlb_side in Hs'.
  injection Hs' as E1 E2 _ _ _ Hc _ Est _ _. cbn [sl_cnt after_access] in Hc.
  rewrite Hc, total_bump by done. split; [|split; [unfold geometry; by rewrite E1, E2, Est|done]].
  split; [eapply sl_wf_ext; [exact Hs|]; by eapply after_access_wf|]. split.
  - change (my_pte_helper t0) with h in Ho. by destruct (r =? 0).
  - rewrite Hc. etrans; [by apply (miss_bump_recs r (sl_cnt t0) (zlength recs))|].
    rewrite zlength_app. f_equal.
    destruct Hr as [-> | ->]; done.
Qed.

(** ** All calls *)
Lemma refs_of_cons c cs : refs_of (c :: cs) = option_list (call_ref c) ++ refs_of cs.
Proof. unfold refs_of. cbn. by destruct (call_ref c). Qed.

(** No sequence of calls faults; the records added are those of some of the
    references, in order, and every reference is counted. *)
Lemma run_calls_spec cs t f recs :
  recording f recs t →
  ∃ o, run_calls cs t = Ok o ∧
  ∃ logged, logged `sublist_of` refs_of cs ∧
  match o with
  | Returns _ t' => recording f (recs ++ (ref_record <$> logged)) t' ∧
      geometry t' = geometry t ∧
      u64 (hit (sl_cnt t') + miss (sl_cnt t'))
        = u64 (hit (sl_cnt t) + miss (sl_cnt t) + zlength (refs_of cs))
  | Exits t' =>
      disk t' !! f = Some (words_bytes ((recs ++ (ref_record <$> logged)) ≫= rec_words))
  end.
Proof.
  revert t recs. induction cs as [|c cs IH]; intros t recs Hrec.
  { eexists. split; [done|]. exists []. split; [apply sublist_nil_l|].
    cbn [fmap list_fmap]. rewrite app_nil_r. split; [done|]. split; [done|]. by rewrite Z.add_0_r. }
  assert ((∃ t', run_call c t = Ok (Exits t') ∧
      disk t' !! f = Some (words_bytes (recs ≫= rec_words))) ∨
    ∃ t' logged, run_call c t = Ok (Returns tt t') ∧
      logged `sublist_of` option_list (call_ref c) ∧
      recording f (recs ++ (ref_record <$> logged)) t' ∧ geometry t' = geometry t ∧
      u64 (hit (sl_cnt t') + miss (sl_cnt t'))
        = u64 (hit (sl_cnt t) + miss (sl_cnt t) + zlength (option_list (call_ref c)))) as Hstep.
  { destruct (call_ref c) as [x|] eqn:Hc.
    - destruct c as [h addr a ins| | |]; simplify_eq/=. by apply ref_call_spec.
    - destruct (flush_call_spec c t f recs Hc Hrec) as (t' & Hr & Hrec' & Hg & Hcnt).
      right. exists t', []. cbn [fmap list_fmap option_list]. rewrite app_nil_r, Hcnt, Z.add_0_r.
      auto using sublist_nil_l. }
  cbn [run_calls]. rewrite refs_of_cons.
  destruct Hstep as [(t' & -> & Hd)|(t' & l1 & -> & Hl1 & Hrec' & Hg & Hn)].
  { eexists. split; [done|]. exists []. split; [apply sublist_nil_l|].
    cbn [fmap list_fmap]. by rewrite app_nil_r. }
  rewrite bind_ret. destruct (IH t' _ Hrec') as (o & Ho & l2 & Hl2 & Hpost).
  exists o. split; [done|]. exists (l1 ++ l2). split; [by apply sublist_app|].
  rewrite fmap_app, app_assoc. destruct o as [u t2|t2]; [|done].
  destruct Hpost as (H1 & H2 & H3). split; [done|]. split; [congruence|].
  rewrite H3, <- u64_add_l, Hn, u64_add_l, zlength_app. f_equal. lia.
Qed.

(** Calls while the tracer is off: the flushes of a guest that is not traced. *)
Lemma run_calls_off cs t :
  truth (started t) = false → refs_of cs = [] → run_calls cs t = Ok (Returns tt t).
Proof.
  intros Hst. induction cs as [|c cs IH]; [done|]. rewrite refs_of_cons.
  destruct c; cbn [call_ref option_list app]; [done|..]; intros Hr; cbn [run_calls run_call];
    unfold tlbtrace_flush_all, tlbtrace_flush_entry, tlbtrace_flush_asid, returns;
    rewrite Hst; cbn [negb]; rewrite !bind_ret; by apply IH.
Qed.

(** ** Starting and stopping *)

(** A start of a set-up tracer: an empty TLB, an empty file, cleared counters. *)
Lemma start_recording tm t : sl_wf t →
  ∃ t', tlbtrace_start tm true true t = Ok t' ∧
    recording (trace_name tm (tlb_size t) (tlb_set t)) [] t' ∧ geometry t' = geometry t ∧
    sl_cnt t' = mkTLB_COUNTER 0 0.
Proof.
  intros [(tl & Htl & Hl) Hsz Hst Hm Hlast]. unfold tlbtrace_start, get_tlb.
  cbn -[INIT_TLB trace_name]. rewrite (proj2 (Z.ltb_lt 0 (tlb_size t))) by lia.
  rewrite Htl. cbn [from_option_res]. rewrite bind_ret, <- Hl, INIT_TLB_block.
  eexists. split; [reflexivity|]. rewrite Hl. split; [|done]. split; [|split; [|done]].
  - split; cbn; try done. exists (reset_entry <$> tl).
    split; [done|]. unfold zlength in *. by rewrite length_fmap.
  - exists [], []. split; [done|]. split; [cbn; by rewrite lookup_insert_eq|].
    split; [by exists []|]. split; [by vm_compute|]. split; [by exists 0|done].
Qed.

Lemma stop_recording f recs t : recording f recs t →
  ∃ t', tlbtrace_stop t = Ok t' ∧ sl_wf t' ∧ geometry t' = geometry t ∧ sl_cnt t' = sl_cnt t ∧
    disk t' !! f = Some (words_bytes (recs ≫= rec_words)).
Proof.
  intros (Hwf & Ho & _). destruct (stop_spec f recs t Ho) as (t' & Ht & Hs & _ & Hd).
  exists t'. split; [done|]. split; [by eapply sl_wf_ext|].
  unfold tlb_side in Hs. injection Hs as E1 E2 _ _ _ E3 _ E4 _ _.
  unfold geometry. by rewrite E1, E2, E4.
Qed.

(** Switching [started] changes nothing else. *)
Lemma with_started_wf b t : sl_wf t → sl_wf (t <| started := b |>).
Proof. by intros []. Qed.
Lemma with_started_recording f recs b t : recording f recs t → recording f recs (t <| started := b |>).
Proof.
  intros (Hwf & Ho & Hm). split; [by apply with_started_wf|].
  split; [by apply (out_ok_ext _ _ t)|done].
Qed.

Lemma geometry_inj t t' : geometry t' = geometry t →
  tlb_size t' = tlb_size t ∧ tlb_set t' = tlb_set t ∧ started t' = started t.
Proof. unfold geometry. by intros [= -> -> ->]. Qed.
