(* ===== verification/MachineFacts.v ===== *)
(** * The execution loop drives the tracer correctly

    Every operation of a translated block amounts to a list of tracer calls
    (at most one); so does an execution, and a tracing session therefore leaves
    one record per counted miss of the references it made.  The invariant of
    the whole machine holds in every reachable state. *)
From S2P Require Import Prelude TlbCore TraceFormat TraceFiles TlbTrace TlbTraceFacts TraceCalls.
From S2P Require Import SoftTlb ArmCpu ArmMode ArmModeFacts ArmMmu ArmMmuFacts GetPtes ArmCp15.
From S2P Require Import ArmCp15Facts ArmExc PhysMem PhysMemFacts SoftMmu SoftMmuFacts GuestOps Machine.

(** ** What the CPU operations keep *)

(** The software TLB stays well formed and no core grows an MPU. *)
Definition cpu_ok (e : CPUARMState) : Prop :=
  tlb_wf (tlb e) ∧ arm_feature e ARM_FEATURE_MPU = false.
Definition same_tlb (e e' : CPUARMState) : Prop := tlb e' = tlb e ∧ features e' = features e.

#[export] Instance same_tlb_preorder : PreOrder same_tlb.
Proof. split; [by intros ?|]. intros x y z [H1 H2] [H3 H4]. split; congruence. Qed.

Lemma same_tlb_ok e e' : same_tlb e e' → cpu_ok e → cpu_ok e'.
Proof. intros [Ht Hf] [H1 H2]. unfold cpu_ok, arm_feature in *. by rewrite Ht, Hf. Qed.

Lemma swap_fiq_same m0 m e : same_tlb e (swap_fiq m0 m e).
Proof. unfold swap_fiq. by destruct (m0 =? ARM_CPU_MODE_FIQ), (m =? ARM_CPU_MODE_FIQ). Qed.

Lemma save_bank_same i e e' : save_bank i e = Ok e' → same_tlb e e'.
Proof.
  unfold save_bank. intros (a & _ & H)%bind_Ok. apply bind_Ok in H as (b & _ & H).
  apply bind_Ok in H as (c & _ & H). by injection H as <-.
Qed.
Lemma load_bank_same i e e' : load_bank i e = Ok e' → same_tlb e e'.
Proof.
  unfold load_bank. intros (a & _ & H)%bind_Ok. apply bind_Ok in H as (b & _ & H).
  apply bind_Ok in H as (c & _ & H). by injection H as <-.
Qed.

Lemma switch_mode_same e m e' : switch_mode e m = Ok e' → same_tlb e e'.
Proof.
  unfold switch_mode. destruct (m =? _); [by intros [= <-]|]. cbv zeta.
  intros (i & _ & H)%bind_Ok. apply bind_Ok in H as (e1 & H1 & H).
  apply bind_Ok in H as (j & _ & H).
  etrans; [apply swap_fiq_same|]. etrans; [by eapply save_bank_same|by eapply load_bank_same].
Qed.

Lemma write_flags_same val mask e : same_tlb e (cpsr_write_flags val mask e).
Proof.
  unfold cpsr_write_flags, write_q, write_nzcv, write_it. cbv zeta.
  by repeat match goal with |- context [if ?b then _ else _] => destruct b end.
Qed.

Lemma cpsr_write_same e val mask e' : cpsr_write e val mask = Ok e' → same_tlb e e'.
Proof.
  unfold cpsr_write. cbv zeta. intros (e1 & H1 & H)%bind_Ok. injection H as <-.
  etrans; [apply (write_flags_same val mask)|]. destruct (truth _); [|by injection H1 as <-].
  by apply switch_mode_same in H1.
Qed.

Lemma exception_target_same e t : exception_target e = Ok t →
  match t with Enter e' _ _ _ _ | Handled e' => same_tlb e e' end.
Proof.
  unfold exception_target, swi_target, bkpt_target, smc_target, prefetch_target.
  cbn [semihosting_enabled no_semihosting]. rewrite andb_false_r. cbv zeta.
  repeat case_match; intros; simplify_eq; done.
Qed.

Lemma do_interrupt_same e e' : do_interrupt_classic e = Ok e' → same_tlb e e'.
Proof.
  unfold do_interrupt_classic. intros (t & Ht & H)%bind_Ok.
  apply exception_target_same in Ht. destruct t as [e1 m a k n|e1]; [|by injection H as <-].
  unfold enter_exception in H. apply bind_Ok in H as (e2 & H2 & H).
  apply switch_mode_same in H2. injection H as <-.
  etrans; [exact Ht|]. etrans; [exact H2|]. unfold entry_state. cbv zeta. by destruct (arm_feature _ _).
Qed.

Lemma set_user_reg_same n v e e' : set_user_reg n v e = Ok e' → same_tlb e e'.
Proof.
  unfold set_user_reg.
  destruct (n =? 13); [|destruct (n =? 14); [|destruct (_ && _)]];
    intros (l & _ & H)%bind_Ok; by injection H as <-.
Qed.

Lemma get_cp15_same insn e v e' : get_cp15_reg insn e = Ok (v, e') → same_tlb e e'.
Proof.
  unfold get_cp15_reg. cbv zeta. intros H.
  repeat case_match; simplify_eq; try done;
    apply bind_Ok in H as (x & _ & H); by injection H as _ <-.
Qed.

(** *** Coprocessor writes *)
Section cp15_writes.
Context {PR : PhysRead}.
Implicit Types e : CPUARMState.

(** Every branch of a handler ends in an assignment, a flush or an abort. *)
Ltac keeps_features :=
  intros Hset; repeat case_match; try discriminate Hset;
  repeat match type of Hset with _ ≫= _ = Ok _ => apply bind_Ok in Hset as (? & _ & Hset) end;
  by injection Hset as <-.

Lemma set_c0_features op1 crm op2 val e e' :
  set_c0 op1 crm op2 val e = Ok e' → features e' = features e.
Proof. unfold set_c0, bad_reg. keeps_features. Qed.
Lemma set_c1_features crm op2 val e e' : set_c1 crm op2 val e = Ok e' → features e' = features e.
Proof. unfold set_c1, set_c1_0, set_c1_1, bad_reg. cbv zeta. keeps_features. Qed.
Lemma set_c2_features op2 val e e' : set_c2 op2 val e = Ok e' → features e' = features e.
Proof. unfold set_c2, bad_reg. cbv zeta. keeps_features. Qed.
Lemma set_c5_features op2 val e e' : set_c5 op2 val e = Ok e' → features e' = features e.
Proof. unfold set_c5, bad_reg. cbv zeta. keeps_features. Qed.
Lemma set_c6_features crm op2 val e e' : set_c6 crm op2 val e = Ok e' → features e' = features e.
Proof. unfold set_c6, bad_reg. cbv zeta. keeps_features. Qed.
Lemma set_c7_features op1 crm op2 val e e' :
  set_c7 op1 crm op2 val e = Ok e' → features e' = features e.
Proof. unfold set_c7, bad_reg. cbv zeta. keeps_features. Qed.
Lemma set_c9_features op1 crm op2 val e e' :
  set_c9 op1 crm op2 val e = Ok e' → features e' = features e.
Proof. unfold set_c9, set_c9_0, set_c9_14, bad_reg. keeps_features. Qed.
Lemma set_c12_features op1 crm op2 val e e' :
  set_c12 op1 crm op2 val e = Ok e' → features e' = features e.
Proof. unfold set_c12, bad_reg. keeps_features. Qed.
Lemma set_c13_features op2 val e e' : set_c13 op2 val e = Ok e' → features e' = features e.
Proof. unfold set_c13, bad_reg. cbv zeta. keeps_features. Qed.
Lemma set_c15_features crm op2 val e e' :
  set_c15 crm op2 val e = Ok e' → features e' = features e.
Proof. unfold set_c15, set_c15_omap, bad_reg. keeps_features. Qed.
#[local] Hint Resolve set_c0_features set_c1_features set_c2_features set_c5_features
  set_c6_features set_c7_features set_c9_features set_c12_features set_c13_features
  set_c15_features : core.

Lemma set_cp15_env_features insn val e e' :
  set_cp15_env insn val e = Ok e' → features e' = features e.
Proof.
  unfold set_cp15_env, bad_reg. cbv zeta.
  destruct (cp15_crn insn) as [|[[[p|p|]|[p|p|]|]|[[p|p|]|[p|p|]|]|]|p]; try destruct p;
    try (intros H; discriminate H); try (intros H; injection H as <-; done); eauto.
Qed.

Lemma set_cp15_ok insn val s s' : cpu_ok (first_cpu s) → set_cp15_reg insn val s = Ok s' →
  cpu_ok (first_cpu s').
Proof.
  intros [Hwf Hm]. unfold set_cp15_reg, cpu_ok, arm_feature in *.
  destruct (cp15_crn insn =? 8) eqn:E8.
  - intros H. destruct (set_c8_safe _ _ _ _ Hwf H) as [Hwf' _]. split; [done|].
    assert (features (first_cpu s') = features (first_cpu s)) as ->; [|done].
    clear E8 Hwf'. revert H. unfold set_c8, bad_reg. cbv zeta. keeps_features.
  - intros (e & He & H)%bind_Ok. injection H as <-.
    split; [by apply (set_cp15_env_safe insn val _ _ Hwf)|].
    cbn [first_cpu set_first_cpu set_field]. by rewrite (set_cp15_env_features _ _ _ _ He).
Qed.
End cp15_writes.

(** ** Operations as tracer calls *)
Section calls.
Context {D : Type} `{IoPorts D} `{TbCache}.
Context (fuel : nat) (retaddr : Z).
Implicit Types s : smmu D.

(** A reference the tracer records: it is on, and the CPU in user mode. *)
Definition user_call s (addr ins : Z) : list tcall :=
  if truth (started (trc s)) && user_mode (cpu s)
  then [CallRef (qemu_helper (guest_words s) (cpu s)) addr
          (c13_context (cp15 (cpu s)) .& 0xFF) ins]
  else [].

(** The inlined comparison of a load or store hits. *)
Definition inline_hit (a : access) (sz addr : Z) (user : bool) s : bool :=
  match get_entry (tlb (cpu s)) (of_bool user) (tlb_index addr) with
  | Ok e => tlb_addr a e =? fast_key sz addr
  | Err _ => false
  end.

(** The calls an operation makes. *)
Definition gop_calls (g : gop) s : list tcall :=
  match g with
  | TracePc pc => user_call s pc 1
  | Load k _ addr user _ => if inline_hit Read (width k) addr user s then [] else user_call s addr 0
  | Store k addr _ user => if inline_hit Write (width k) addr user s then [] else user_call s addr 0
  | CodeFetch _ addr => user_call s addr 0
  | SetCp15 insn val =>
      if cp15_crn insn =? 8 then
        match cp15_op2 insn with
        | 0 => [CallFlushAll]
        | 1 => [CallFlushEntry val]
        | 2 => [CallFlushAsid val]
        | _ => []
        end
      else []
  | _ => []
  end.

(** What the tracer sees of [m] are the calls [cs]. *)
Definition follows {A} (cs : smmu D → list tcall) (m : sm D A) : Prop := ∀ s o, m s = Ok o →
  match o with
  | Done _ s' | Raised _ s' => run_calls (cs s) (trc s) = Ok (Returns tt (trc s'))
  | Quit s' => run_calls (cs s) (trc s) = Ok (Exits (trc s'))
  end.

Lemma follows_untraced {A} (m : sm D A) : untraced m → follows (λ _, []) m.
Proof. intros Hm s o Ho. specialize (Hm s o Ho). by destruct o; [rewrite Hm..|]. Qed.

(** Calls first, then code that makes none. *)
Lemma follows_then {A B} cs (m : sm D A) (k : A → sm D B) :
  follows cs m → (∀ a, untraced (k a)) → follows cs (sm_bind m k).
Proof.
  intros Hm Hk s o. unfold sm_bind. intros (o1 & H1 & H2)%bind_Ok.
  specialize (Hm s o1 H1). destruct o1 as [a s1|e s1|s1]; [|by injection H2 as <-..].
  specialize (Hk a s1 o H2). destruct o as [b s2|e s2|s2]; [by rewrite Hk..|done].
Qed.

Lemma user_call_traces s addr ins o :
  tlbtrace_refmem_qemu (guest_words s) addr ins (cpu s) (trc s) = Ok o →
  run_calls (user_call s addr ins) (trc s) = Ok o.
Proof.
  unfold tlbtrace_refmem_qemu, user_call, user_mode.
  destruct (truth (started (trc s))); cbn [negb andb]; [|by intros [= <-]].
  destruct (_ =? _); cbn [negb]; [|by intros [= <-]].
  intros Ho. by rewrite run_calls_one.
Qed.

Lemma follows_trace_ref addr : follows (λ s, user_call s addr 0) (trace_ref addr).
Proof.
  intros s o. unfold trace_ref. intros (o1 & H1%user_call_traces & H2)%bind_Ok.
  destruct o1 as [[] t|t]; injection H2 as <-; exact H1.
Qed.

Lemma follows_trace_pc pc : follows (λ s, user_call s pc 1) (trace_pc pc).
Proof.
  intros s o. unfold trace_pc, qemu_trace_pc_helper. intros (o1 & H1 & H2)%bind_Ok.
  destruct (truth (started (trc s))) eqn:Hst; cbn [negb] in H1.
  - apply user_call_traces in H1. destruct o1 as [[] t|t]; injection H2 as <-; exact H1.
  - injection H1 as <-. injection H2 as <-. unfold user_call. by rewrite Hst.
Qed.

(** An access that reports itself once. *)
Lemma follows_once {A} addr (m : sm D A) : traced_once addr m → follows (λ s, user_call s addr 0) m.
Proof.
  intros Hm s o Ho. destruct (Hm s o Ho) as (o1 & H1 & H2).
  pose proof (follows_trace_ref addr s o1 H1) as H3.
  destruct o1 as [u s1|e s1|s1], o as [a s'|e' s'|s']; try done; by rewrite ?H2 in *.
Qed.

Lemma trace_ref_rest addr s u s1 : trace_ref addr s = Ok (Done u s1) →
  s1 = with_trc (trc s1) s.
Proof.
  unfold trace_ref. intros ([r t|t] & _ & Ht)%bind_Ok; [|discriminate Ht]. by injection Ht as _ <-.
Qed.

(** ** The tracer-free code of the helpers *)
Lemma untraced_on_cpu f : untraced (on_cpu (D:=D) f).
Proof. intros s o. unfold on_cpu. intros (e & _ & Ho)%bind_Ok. by injection Ho as <-. Qed.
Lemma untraced_assign_load k rd v : untraced (assign_load (D:=D) k rd v).
Proof. unfold assign_load, assign. destruct (_ <? _)%nat; apply untraced_on_cpu. Qed.
Lemma untraced_get_vreg rd : untraced (get_vreg (D:=D) rd).
Proof. apply untraced_res. Qed.
Lemma untraced_set_vreg rd v : untraced (set_vreg (D:=D) rd v).
Proof. intros s o. unfold set_vreg. intros (l & _ & Ho)%bind_Ok. by injection Ho as <-. Qed.
Lemma untraced_sm_res {A} (r : res A) : untraced (sm_res (D:=D) r).
Proof. by apply (untraced_res (λ _, r)). Qed.

Create HintDb untraced.
#[local] Hint Resolve untraced_bind untraced_ret untraced_get untraced_on_cpu untraced_assign_load
  untraced_get_vreg untraced_set_vreg untraced_sm_res untraced_slow_ld untraced_slow_st
  untraced_probe untraced_load_raw untraced_store_raw : untraced.

Lemma untraced_ld_elems n sz addr stride i : untraced (ld_elems fuel retaddr n sz addr stride i).
Proof.
  revert addr. induction n as [|n IH]; intros addr; cbn [ld_elems]; [auto with untraced|].
  repeat (apply untraced_bind; [auto with untraced|intros ?]). auto with untraced.
Qed.
Lemma untraced_st_elems n sz addr v stride i : untraced (st_elems fuel retaddr n sz addr v stride i).
Proof.
  revert addr v. induction n as [|n IH]; intros addr v; cbn [st_elems]; [auto with untraced|].
  apply untraced_bind; auto with untraced.
Qed.
#[local] Hint Resolve untraced_ld_elems untraced_st_elems : untraced.

Lemma untraced_neon_regs n load base size nregs il sp i r rd addr :
  untraced (neon_regs fuel retaddr n load base size nregs il sp i r rd addr).
Proof.
  revert r rd addr. induction n as [|n IH]; intros r rd addr; cbn [neon_regs]; [auto with untraced|].
  cbv zeta. apply untraced_bind; [|auto].
  destruct load; apply untraced_bind; auto with untraced.
Qed.

(** The NEON structure accesses never reach the tracer. *)
Lemma untraced_neon_vldst insn : untraced (neon_vldst_all fuel retaddr insn).
Proof.
  unfold neon_vldst_all. apply untraced_bind; [auto with untraced|]. intros i. cbv zeta.
  apply untraced_bind; [auto with untraced|]. intros [[nregs il] sp].
  apply untraced_bind; [auto with untraced|]. intros base. apply untraced_neon_regs.
Qed.

(** ** Each operation makes the calls listed *)
Lemma get_entry_bind {A} i addr (k : CPUTLBEntry → sm D A) s o :
  sm_bind (λ s, sm_res (get_entry (tlb (cpu s)) i (tlb_index addr)) s) k s = Ok o →
  ∃ e, get_entry (tlb (cpu s)) i (tlb_index addr) = Ok e ∧ k e s = Ok o.
Proof.
  unfold sm_bind, sm_res. intros (o1 & H1 & H2)%bind_Ok.
  apply bind_Ok in H1 as (e & He & H1). injection H1 as <-. by exists e.
Qed.

Lemma follows_tcg_ld k sign addr user :
  follows (gop_calls (Load k sign addr user 0)) (tcg_ld fuel retaddr (width k) sign addr (of_bool user)).
Proof.
  intros s o (e & He & Ho)%get_entry_bind. cbn [gop_calls]. unfold inline_hit. rewrite He.
  cbn [tlb_addr]. destruct (_ =? _).
  - apply (follows_then (λ _, []) _ _ (follows_untraced _ (untraced_load_raw (width k) addr e)) (λ _, untraced_ret _) s o Ho).
  - apply (follows_then _ _ _ (follows_once _ _ (once_ld_slow_path fuel (width k) addr Read (of_bool user) retaddr)) (λ _, untraced_ret _) s o Ho).
Qed.

Lemma follows_tcg_st k addr v user :
  follows (gop_calls (Store k addr v user)) (tcg_st fuel retaddr (width k) addr v (of_bool user)).
Proof.
  intros s o (e & He & Ho)%get_entry_bind. cbn [gop_calls]. unfold inline_hit. rewrite He.
  cbn [tlb_addr]. destruct (_ =? _).
  - by apply (follows_untraced _ (untraced_store_raw (width k) addr v e)).
  - by apply (follows_once _ _ (once_st_slow_path fuel (width k) addr v (of_bool user) retaddr)).
Qed.

Lemma follows_set_cp15 insn val : follows (gop_calls (SetCp15 insn val)) (helper_set_cp15 insn val).
Proof.
  intros s o. unfold helper_set_cp15. intros (t & Ht & Ho)%bind_Ok. injection Ho as <-.
  change (trc (with_trc (tr t) _)) with (tr t). unfold set_cp15_reg in Ht. cbn [gop_calls].
  destruct (cp15_crn insn =? 8).
  - unfold set_c8, bad_reg in Ht. cbv zeta in Ht. cbn [first_cpu tr] in Ht.
    destruct (cp15_op2 insn) as [|[[p|p|]|p|]|p]; try discriminate Ht;
      try (destruct p; try discriminate Ht); try (by injection Ht as <-).
    all: cbn [run_calls run_call]; unfold returns.
    + apply bind_Ok in Ht as (t1 & Ht1 & Ht). injection Ht as <-. cbn in Ht1 |- *.
      by rewrite Ht1.
    + apply bind_Ok in Ht as (t1 & Ht1 & Ht). injection Ht as <-. cbn in Ht1 |- *.
      by rewrite Ht1.
    + apply bind_Ok in Ht as (e & _ & Ht).
      apply bind_Ok in Ht as (t1 & Ht1 & Ht). injection Ht as <-. cbn in Ht1 |- *.
      by rewrite Ht1.
  - apply bind_Ok in Ht as (e & _ & Ht). by injection Ht as <-.
Qed.

Lemma follows_raise excp : follows (λ _, []) (raise_exception (D:=D) excp).
Proof. by intros s o [= <-]. Qed.

(** One operation of a block. *)
Lemma gop_follows g : follows (gop_calls g) (run_gop fuel retaddr g).
Proof.
  destruct g as [pc|k sign addr user rd|k addr v user|k addr|insn|insn v|insn rd|v m|n v| |f v|x v| |md v|excp|];
    cbn [run_gop].
  - apply follows_trace_pc.
  - apply (follows_then (gop_calls (Load k sign addr user 0)));
      [apply follows_tcg_ld|auto with untraced].
  - apply follows_tcg_st.
  - intros s o Ho. unfold sm_bind at 1, sm_get in Ho. rewrite bind_ret in Ho.
    refine (follows_then (λ s, user_call s addr 0) _ _ _ _ s o Ho); [|auto with untraced].
    apply follows_once, once_ld.
  - apply follows_untraced, untraced_neon_vldst.
  - apply follows_set_cp15.
  - apply follows_untraced, untraced_bind; [|intros w; apply untraced_on_cpu].
    intros s o. unfold helper_get_cp15. intros ([w e] & _ & Ho)%bind_Ok. by injection Ho as <-.
  - apply follows_untraced, untraced_on_cpu.
  - apply follows_untraced, untraced_on_cpu.
  - apply follows_untraced, untraced_on_cpu.
  - apply follows_untraced, untraced_on_cpu.
  - apply follows_untraced, untraced_on_cpu.
  - apply follows_untraced, untraced_on_cpu.
  - apply follows_untraced, untraced_on_cpu.
  - apply follows_raise.
  - by intros s o [= <-].
Qed.

(** C21: what the tracer does not see.  A load or store that generated code
    does in line computes what the softmmu function of the helpers computes:
    if its comparison fails the two are the same; if it hits, the value, the
    memory and the CPU are the same, but the inlined access leaves the tracer
    as it was where the other one reports the reference.  NEON structure loads
    and stores never reach the tracer. *)
Theorem inlined_hits_are_not_traced sz addr val mmu_idx insn s e :
  get_entry (tlb (cpu s)) mmu_idx (tlb_index addr) = Ok e →
  (addr_read e ≠ fast_key sz addr →
     tcg_ld fuel retaddr sz false addr mmu_idx s = ld fuel sz addr Read mmu_idx retaddr s) ∧
  (addr_write e ≠ fast_key sz addr →
     tcg_st fuel retaddr sz addr val mmu_idx s = st fuel sz addr val mmu_idx retaddr s) ∧
  (addr_read e = fast_key sz addr → ∃ v, tcg_ld fuel retaddr sz false addr mmu_idx s = Ok (Done v s) ∧
     ∀ s1, trace_ref addr s = Ok (Done tt s1) →
       ld fuel sz addr Read mmu_idx retaddr s = Ok (Done v s1)) ∧
  (addr_write e = fast_key sz addr → ∃ s', tcg_st fuel retaddr sz addr val mmu_idx s = Ok (Done tt s') ∧
     trc s' = trc s ∧
     ∀ s1, trace_ref addr s = Ok (Done tt s1) →
       st fuel sz addr val mmu_idx retaddr s = Ok (Done tt (with_trc (trc s1) s'))) ∧
  ∀ s', neon_vldst_all fuel retaddr insn s = Ok (Done tt s') → trc s' = trc s.
Proof.
  intros He. unfold tcg_ld, ld, tcg_st, st. rewrite !(sm_res_bind _ _ _ e He). cbn [tlb_addr].
  split; [|split; [|split; [|split]]].
  - intros ->%Z.eqb_neq. unfold sm_bind, sm_ret.
    by destruct (ld_slow_path _ _ _ _ _ _ s) as [[v s'|x s'|s']|f].
  - by intros ->%Z.eqb_neq.
  - intros ->%Z.eqb_eq. eexists. split; [reflexivity|]. intros s1 H1.
    destruct (trace_ref_keeps _ _ _ _ H1) as [_ E2]. unfold sm_bind. rewrite H1, bind_ret.
    unfold load_raw, sm_get. by rewrite E2.
  - intros ->%Z.eqb_eq. eexists. split; [reflexivity|]. split; [done|]. intros s1 H1.
    unfold sm_bind. rewrite H1, bind_ret, (trace_ref_rest _ _ _ _ H1). done.
  - intros s' Hn. by apply (untraced_neon_vldst insn) in Hn.
Qed.

(** ** Executions as tracer calls *)
Fixpoint block_calls (b : list gop) s : list tcall :=
  match b with
  | [] => []
  | g :: b =>
      gop_calls g s ++
      match run_gop fuel retaddr g s with Ok (Done _ s) => block_calls b s | _ => [] end
  end.

Fixpoint loop_calls (head : bool) (bs : list (list gop)) s : list tcall :=
  match before_block head (cpu s), bs with
  | Ok (None, e), b :: bs =>
      let s := with_cpu e s in
      block_calls b s ++
      match run_block fuel retaddr b s with
      | Ok (Done _ s) => loop_calls false bs s
      | Ok (Raised _ s) => loop_calls true bs s
      | _ => []
      end
  | _, _ => []
  end.

(** The CPU at the entry of the loop. *)
Definition enter_loop (stop : bool) s : smmu D :=
  let e := cpu s in
  let e := if truth (halted e) then e <| halted := 0 |> else e in
  let e := if stop then e <| exit_request := 1 |> else e in
  with_cpu (e <| exception_index := -1 |>) s.

Definition event_calls (ev : event (list gop)) s : list tcall :=
  match ev with
  | Exec stop bs =>
      if truth (halted (cpu s)) && negb (cpu_has_work (cpu s)) then []
      else loop_calls true bs (enter_loop stop s)
  | _ => []
  end.
Fixpoint events_calls (evs : list (event (list gop))) s : list tcall :=
  match evs with
  | [] => []
  | ev :: evs =>
      event_calls ev s ++
      match run_event (run_block fuel retaddr) ev s with Ok (Left _ s) => events_calls evs s | _ => [] end
  end.

Lemma block_follows b : follows (block_calls b) (run_block fuel retaddr b).
Proof.
  induction b as [|g b IH]; intros s o; cbn [run_block block_calls].
  { by intros [= <-]. }
  unfold sm_bind. intros (o1 & H1 & H2)%bind_Ok. rewrite H1, run_calls_app.
  pose proof (gop_follows g s o1 H1) as Hg.
  destruct o1 as [u s1|e s1|s1]; rewrite Hg, bind_ret.
  - exact (IH s1 o H2).
  - by injection H2 as <-.
  - by injection H2 as <-.
Qed.

Definition progress_outcome (p : progress D) : outcome unit :=
  match p with Left _ s | Running s => Returns tt (trc s) | Gone s => Exits (trc s) end.

Lemma loop_follows head bs s p : exec_loop (run_block fuel retaddr) head bs s = Ok p →
  run_calls (loop_calls head bs s) (trc s) = Ok (progress_outcome p).
Proof.
  revert head s. induction bs as [|b bs IH]; intros head s; cbn [exec_loop loop_calls];
    intros ([[ret|] e] & He & Ho)%bind_Ok; rewrite He; try (by injection Ho as <-).
  apply bind_Ok in Ho as (o & Hb & Ho). rewrite Hb, run_calls_app.
  pose proof (block_follows b _ o Hb) as Hf. cbn [trc with_cpu] in Hf.
  destruct o as [u s1|e1 s1|s1]; rewrite Hf, bind_ret; [by apply IH..|].
  by injection Ho as <-.
Qed.

Definition not_toggle (ev : event (list gop)) : bool := match ev with Toggle _ => false | _ => true end.

Lemma event_follows ev s p : not_toggle ev = true → run_event (run_block fuel retaddr) ev s = Ok p →
  run_calls (event_calls ev s) (trc s) = Ok (progress_outcome p).
Proof.
  destruct ev as [stop bs|mask|mask| |t]; intros Ht Hp; try done; try (by injection Hp as <-).
  cbn [event_calls run_event] in *. unfold cpu_exec in Hp. cbv zeta in Hp.
  destruct (_ && _); [by injection Hp as <-|]. by apply loop_follows in Hp.
Qed.

(** What an execution without toggles does to the tracer is the sequence of
    its calls. *)
Lemma events_follow evs s p : forallb not_toggle evs = true →
  run_events (run_block fuel retaddr) evs s = Ok p →
  run_calls (events_calls evs s) (trc s) = Ok (progress_outcome p).
Proof.
  revert s. induction evs as [|ev evs IH]; intros s; cbn [forallb run_events events_calls].
  { by intros _ [= <-]. }
  intros [Ht Hts]%andb_prop (p1 & H1 & Hp)%bind_Ok. rewrite H1, run_calls_app.
  rewrite (event_follows ev s p1 Ht H1), bind_ret.
  destruct p1 as [r s1|s1|s1]; cbn [progress_outcome]; [by apply IH|by injection Hp as <-..].
Qed.

(** ** A tracing session *)
Lemma toggle_on tm s : sl_wf (trc s) → truth (started (trc s)) = false →
  ∃ s', toggle tm s = Ok s' ∧
    recording (trace_name tm (tlb_size (trc s)) (tlb_set (trc s))) [] (trc s') ∧
    started (trc s') = 1 ∧ sl_cnt (trc s') = mkTLB_COUNTER 0 0.
Proof.
  intros Hwf Hst. unfold toggle, tlbtrace_toggle_qemu, tlbtrace_start_qemu. cbn [tr]. rewrite Hst.
  destruct (start_recording tm _ (with_started_wf 1 _ Hwf)) as (t' & Ht & Hr & Hg & Hc).
  eexists. cbn -[tlbtrace_start]. rewrite Ht, !bind_ret. split; [reflexivity|].
  by apply geometry_inj in Hg as (_ & _ & ?).
Qed.

Lemma toggle_off tm s f recs : recording f recs (trc s) → truth (started (trc s)) = true →
  ∃ s', toggle tm s = Ok s' ∧ sl_wf (trc s') ∧ started (trc s') = 0 ∧
    sl_cnt (trc s') = sl_cnt (trc s) ∧
    disk (trc s') !! f = Some (words_bytes (recs ≫= rec_words)).
Proof.
  intros Hr Hst. unfold toggle, tlbtrace_toggle_qemu, tlbtrace_stop_qemu. cbn [tr]. rewrite Hst.
  destruct (stop_recording _ _ _ (with_started_recording _ _ 0 _ Hr)) as (t' & Ht & Hwf & Hg & Hc & Hd).
  eexists. cbn -[tlbtrace_stop]. rewrite Ht, !bind_ret. split; [reflexivity|].
  by apply geometry_inj in Hg as (_ & _ & ?).
Qed.

(** C3: a tracing session of the whole emulator.  The tracer can always be
    switched on; after any execution (translated blocks, exceptions, interrupts
    and TLB maintenance in any order) it can be switched off, and then the trace
    file holds exactly one record for each counted miss, each with the walk of
    the page tables at the moment of the miss, in the order of the user-mode
    references the execution reported, and every such reference was counted
    once.  If the tracer's limit ends the process, the file holds the records up
    to there. *)
Theorem session_records_misses tm1 s : sl_wf (trc s) → truth (started (trc s)) = false →
  let f := trace_name tm1 (tlb_size (trc s)) (tlb_set (trc s)) in
  ∃ s1, toggle tm1 s = Ok s1 ∧ started (trc s1) = 1 ∧
  ∀ evs p, forallb not_toggle evs = true → run_events (run_block fuel retaddr) evs s1 = Ok p →
  ∃ logged, logged `sublist_of` refs_of (events_calls evs s1) ∧
  match p with
  | Left _ s2 | Running s2 => ∀ tm2, ∃ s3, toggle tm2 s2 = Ok s3 ∧ started (trc s3) = 0 ∧
      disk (trc s3) !! f = Some (words_bytes ((ref_record <$> logged) ≫= rec_words)) ∧
      u64 (miss (sl_cnt (trc s3))) = u64 (zlength logged) ∧
      u64 (hit (sl_cnt (trc s3)) + miss (sl_cnt (trc s3)))
        = u64 (zlength (refs_of (events_calls evs s1)))
  | Gone s2 => disk (trc s2) !! f = Some (words_bytes ((ref_record <$> logged) ≫= rec_words))
  end.
Proof.
  intros Hwf Hst f. destruct (toggle_on tm1 s Hwf Hst) as (s1 & H1 & Hr & Hst1 & Hc).
  exists s1. split; [done|]. split; [done|]. intros evs p Ht Hp.
  apply events_follow in Hp; [|done].
  destruct (run_calls_spec (events_calls evs s1) (trc s1) f [] Hr) as (o & Ho & l & Hl & Hpost).
  rewrite Hp in Ho. injection Ho as <-. exists l. split; [done|].
  assert (∀ s2, progress_outcome p = Returns tt (trc s2) → ∀ tm2, ∃ s3, toggle tm2 s2 = Ok s3 ∧
      started (trc s3) = 0 ∧
      disk (trc s3) !! f = Some (words_bytes ((ref_record <$> l) ≫= rec_words)) ∧
      u64 (miss (sl_cnt (trc s3))) = u64 (zlength l) ∧
      u64 (hit (sl_cnt (trc s3)) + miss (sl_cnt (trc s3)))
        = u64 (zlength (refs_of (events_calls evs s1)))) as Hoff.
  { intros s2 E tm2. rewrite E in Hpost. destruct Hpost as (Hr2 & Hg & Hn).
    apply geometry_inj in Hg as (_ & _ & Hst2).
    destruct (toggle_off tm2 s2 f _ Hr2 ltac:(by rewrite Hst2, Hst1)) as (s3 & H3 & _ & Hst3 & Hc3 & Hd).
    exists s3. rewrite Hc3. destruct Hr2 as (_ & _ & Hm). rewrite Hc in Hn.
    split; [done|]. split; [done|]. split; [done|]. split; [|done].
    rewrite Hm. unfold zlength. by rewrite length_app, length_fmap. }
  destruct p as [r s2|s2|s2]; [by apply Hoff..|]. exact Hpost.
Qed.
End calls.

Theorem inlined_hits_are_not_traced_witness :
  ∃ s', @tcg_st unit no_ports no_tbs 1 0 4 0x1000 5 1 demo_smmu = Ok (Done tt s') ∧
    @st unit no_ports no_tbs 1 4 0x1000 5 1 0 demo_smmu = Ok (Done tt (with_trc (trc demo_smmu) s')).
Proof.
  destruct (@inlined_hits_are_not_traced unit no_ports no_tbs 1 0 4 0x1000 5 1 0 demo_smmu
    (mkEntry 0x1000 0x1000 0x1000 0x7F0000000000) ltac:(vm_compute; reflexivity))
    as (_ & _ & _ & H & _).
  destruct (H eq_refl) as (s' & Hs & _ & Ht). exists s'. split; [exact Hs|].
  apply (Ht demo_smmu), trace_ref_off. reflexivity.
Defined.
