(* ===== verification/MachineInv.v ===== *)
(** * The invariant of the machine

    Every operation of a block, every delivery of an exception and every event
    keeps the software TLB well formed and the tracer recording, and none of
    them loops: the whole emulator, composed, stays in the states the other
    theorems are about. *)
From S2P Require Import Prelude TlbCore TraceFormat TraceFiles TlbTrace TlbTraceFacts TraceCalls.
From S2P Require Import SoftTlb ArmCpu ArmMode ArmModeFacts ArmMmu ArmMmuFacts GetPtes ArmCp15.
From S2P Require Import ArmCp15Facts ArmExc PhysMem PhysMemFacts SoftMmu SoftMmuFacts GuestOps.
From S2P Require Import Machine MachineFacts.

(** ** Code without loops *)
Ltac no_loop :=
  repeat match goal with
  | |- _ ≫= _ ≠ Err Diverges => apply bind_no_loop; [|intros ? _]
  | |- aget _ _ ≠ _ => apply aget_no_loop
  | |- aput _ _ _ ≠ _ => apply aput_no_loop
  | |- Ok _ ≠ _ => discriminate
  | |- Err _ ≠ _ => discriminate
  | |- context [match ?x with _ => _ end] => destruct x
  end.

Lemma bank_number_no_loop m : bank_number m ≠ Err Diverges.
Proof. unfold bank_number. no_loop. Qed.
Lemma switch_mode_no_loop e m : switch_mode e m ≠ Err Diverges.
Proof.
  unfold switch_mode, save_bank, load_bank. destruct (_ =? _); [done|].
  repeat (apply bind_no_loop; [apply bank_number_no_loop || no_loop|intros ? _]). no_loop.
Qed.
Lemma cpsr_write_no_loop e v m : cpsr_write e v m ≠ Err Diverges.
Proof.
  unfold cpsr_write. cbv zeta. apply bind_no_loop; [|done].
  destruct (truth _); [apply switch_mode_no_loop|done].
Qed.
Lemma do_interrupt_no_loop e : do_interrupt_classic e ≠ Err Diverges.
Proof.
  unfold do_interrupt_classic. apply bind_no_loop.
  - unfold exception_target, swi_target, bkpt_target, smc_target.
    cbn [semihosting_enabled no_semihosting]. rewrite andb_false_r. no_loop.
  - intros [e1 m a k n|e1] _; [|done]. apply bind_no_loop; [apply switch_mode_no_loop|done].
Qed.
Lemma set_user_reg_no_loop n v e : set_user_reg n v e ≠ Err Diverges.
Proof. unfold set_user_reg. no_loop. Qed.
Lemma set_r13_no_loop e m v : set_r13_banked e m v ≠ Err Diverges.
Proof.
  unfold set_r13_banked. destruct (_ =? _); [done|]. apply bind_no_loop; [apply bank_number_no_loop|intros ? _]. no_loop.
Qed.
Lemma get_r13_no_loop e m : get_r13_banked e m ≠ Err Diverges.
Proof.
  unfold get_r13_banked. destruct (_ =? _); [done|]. apply bind_no_loop; [apply bank_number_no_loop|intros ? _]. no_loop.
Qed.
Lemma set_r13_same e e' m v : set_r13_banked e m v = Ok e' → same_tlb e e'.
Proof.
  unfold set_r13_banked. destruct (_ =? _); [by intros [= <-]|].
  intros (i & _ & (b & _ & Hb)%bind_Ok)%bind_Ok. by injection Hb as <-.
Qed.
Lemma get_user_reg_no_loop e n : get_user_reg e n ≠ Err Diverges.
Proof. unfold get_user_reg. no_loop. Qed.
Lemma get_cp15_no_loop insn e : get_cp15_reg insn e ≠ Err Diverges.
Proof.
  unfold get_cp15_reg. cbv zeta.
  repeat match goal with |- context [match ?x with _ => _ end] =>
    lazymatch type of x with positive => destruct x | Z => destruct x | bool => destruct x end end;
    try discriminate;
    (apply bind_no_loop; [|done]);
    unfold get_c0, get_c0_0, get_c1, get_c2, get_c5, get_c6, get_c9, get_c9_0, get_c12, get_c13,
      get_c15, get_mpidr, get_auxcr, bad_reg; cbv zeta; no_loop.
Qed.

Section inv.
Context {D : Type} `{IoPorts D} `{TbCache}.
Context (fuel : nat) (retaddr : Z).
Implicit Types s : smmu D.

(** ** The invariant *)
Definition tracer_inv (t : tracer) : Prop :=
  sl_wf t ∧ (truth (started t) = true → ∃ f recs, recording f recs t).
Definition machine_inv s : Prop := mmu_inv s ∧ tracer_inv (trc s).

(** Calls that record references are made only while the tracer is on. *)
Lemma calls_inv cs t o : tracer_inv t → (truth (started t) = false → refs_of cs = []) →
  run_calls cs t = Ok o → match o with Returns _ t' => tracer_inv t' | Exits _ => True end.
Proof.
  intros [Hwf Hon] Hoff Hr. destruct (truth (started t)) eqn:Hst.
  - destruct (Hon eq_refl) as (f & recs & Hrec).
    destruct (run_calls_spec cs t f recs Hrec) as (o' & Ho & l & _ & Hpost).
    rewrite Ho in Hr. injection Hr as <-. destruct o' as [u t'|t']; [|done].
    destruct Hpost as (Hrec' & _). split; [apply Hrec'|]. intros _. by exists f, (recs ++ (ref_record <$> l)).
  - rewrite run_calls_off in Hr by auto. injection Hr as <-. split; [done|]. by rewrite Hst.
Qed.

(** The code keeps the invariant and does not loop. *)
Definition safe {A} (m : sm D A) : Prop := ∀ s, machine_inv s →
  m s ≠ Err Diverges ∧
  ∀ o, m s = Ok o → match o with Done _ s' | Raised _ s' => machine_inv s' | Quit _ => True end.

Lemma safe_bind {A B} (m : sm D A) (k : A → sm D B) : safe m → (∀ a, safe (k a)) → safe (sm_bind m k).
Proof.
  intros Hm Hk s Hs. destruct (Hm s Hs) as [H1 H2]. unfold sm_bind. split.
  - apply bind_no_loop; [done|]. intros [a s1|e s1|s1] Ho; [|done..].
    apply (Hk a s1 (H2 _ Ho)).
  - intros o (o1 & Ho1 & Ho)%bind_Ok. specialize (H2 o1 Ho1).
    destruct o1 as [a s1|e s1|s1]; [|by injection Ho as <-..]. by apply (Hk a s1 H2).
Qed.

(** Code that leaves the tracer alone. *)
Lemma safe_runs {A} (m : sm D A) : runs m → untraced m → safe m.
Proof.
  intros Hr Hu s [Hm Ht]. destruct (Hr s Hm) as [H1 H2]. split; [done|]. intros o Ho.
  specialize (H2 o Ho). specialize (Hu s o Ho).
  destruct o as [a s'|e s'|s']; [..|done]; (split; [done|]); by rewrite Hu.
Qed.

Lemma safe_ret {A} (a : A) : safe (sm_ret a).
Proof. apply safe_runs; [apply runs_ret|apply untraced_ret]. Qed.
Lemma safe_get {A} (f : smmu D → A) : safe (sm_get f).
Proof. apply safe_runs; [apply runs_get|apply untraced_get]. Qed.

Lemma cpu_ok_inv e s : machine_inv s → cpu_ok e → machine_inv (with_cpu e s).
Proof. by intros [_ Ht] He. Qed.

Lemma safe_on_cpu (f : CPUARMState → res CPUARMState) :
  (∀ e, f e ≠ Err Diverges) → (∀ e e', f e = Ok e' → same_tlb e e') → safe (on_cpu f).
Proof.
  intros Hl Hf s Hs. split; [apply bind_no_loop; [apply Hl|done]|].
  intros o (e & He & Ho)%bind_Ok. injection Ho as <-. apply cpu_ok_inv; [done|].
  apply (same_tlb_ok (cpu s)); [by apply Hf|apply Hs].
Qed.

(** The continuation may use what it reads of the state. *)
Lemma safe_read {A B} (f : smmu D → A) (k : A → sm D B) :
  (∀ s, safe (k (f s))) → safe (sm_bind (sm_get f) k).
Proof. intros Hk s. exact (Hk s s). Qed.
Lemma runs_read {A B} (f : smmu D → A) (k : A → sm D B) :
  (∀ s, runs (k (f s))) → runs (sm_bind (sm_get f) k).
Proof. intros Hk s. exact (Hk s s). Qed.

(** ** Reports *)
Lemma refmem_qemu_total s addr ins : machine_inv s →
  ∃ o, tlbtrace_refmem_qemu (guest_words s) addr ins (cpu s) (trc s) = Ok o.
Proof.
  intros (_ & Hwf & Hon). unfold tlbtrace_refmem_qemu.
  destruct (truth (started (trc s))) eqn:Hst; cbn [negb]; [|by eexists].
  destruct (negb _); [by eexists|]. destruct (Hon eq_refl) as (f & recs & Hrec).
  destruct (ref_call_spec (qemu_helper (guest_words s) (cpu s)) addr
    (c13_context (cp15 (cpu s)) .& 0xFF) ins (trc s) f recs Hrec)
    as [(t' & Ho & _)|(t' & l & Ho & _)]; by eexists.
Qed.

Lemma user_call_off s addr ins : truth (started (trc s)) = false → user_call s addr ins = [].
Proof. unfold user_call. by intros ->. Qed.

Lemma user_call_inv s addr ins o : machine_inv s → run_calls (user_call s addr ins) (trc s) = Ok o →
  match o with Returns _ t' => tracer_inv t' | Exits _ => True end.
Proof.
  intros Hs. apply calls_inv; [apply Hs|]. intros Hoff. by rewrite user_call_off.
Qed.

Lemma safe_trace_ref addr : safe (trace_ref addr).
Proof.
  intros s Hs. unfold trace_ref. destruct (refmem_qemu_total s addr 0 Hs) as [o1 Ho1].
  rewrite Ho1, bind_ret. split; [by destruct o1|]. intros o Ho.
  apply user_call_traces in Ho1. apply user_call_inv in Ho1; [|done].
  destruct o1 as [u t|t]; injection Ho as <-; [|done]. split; [apply Hs|done].
Qed.

Lemma safe_trace_pc pc : safe (trace_pc pc).
Proof.
  intros s Hs. unfold trace_pc, qemu_trace_pc_helper.
  destruct (truth (started (trc s))) eqn:Hst; cbn [negb].
  - destruct (refmem_qemu_total s pc 1 Hs) as [o1 Ho1].
    rewrite Ho1, bind_ret. split; [by destruct o1|]. intros o Ho.
    apply user_call_traces in Ho1. apply user_call_inv in Ho1; [|done].
    destruct o1 as [u t|t]; injection Ho as <-; [|done]. split; [apply Hs|done].
  - rewrite bind_ret. split; [done|]. intros o [= <-]. split; [apply Hs|]. apply Hs.
Qed.

(** ** Memory accesses *)
Lemma width_size k : data_size (width k).
Proof. exists (Z.of_nat (k `min` 3)). split; [lia|done]. Qed.
Lemma user_mode_index (b : bool) : 0 ≤ of_bool b < NB_MMU_MODES.
Proof. unfold NB_MMU_MODES. destruct b; cbn; lia. Qed.

Create HintDb runs.
Create HintDb untraced.
#[local] Hint Resolve runs_bind runs_ret runs_get runs_probe runs_io_read runs_io_write runs_iotlb
  runs_load_raw runs_store_raw runs_slow_ld runs_slow_st width_size user_mode_index : runs.
#[local] Hint Resolve untraced_bind untraced_ret untraced_get untraced_probe untraced_io_read
  untraced_io_write untraced_iotlb untraced_load_raw untraced_store_raw untraced_slow_ld
  untraced_slow_st untraced_set_vreg untraced_get_vreg untraced_sm_res : untraced.

(** The entry is there, so the read of the table does not fault. *)
Lemma safe_entry {A} i addr (k : CPUTLBEntry → sm D A) : 0 ≤ i < NB_MMU_MODES →
  (∀ e, safe (k e)) →
  safe (sm_bind (λ s, sm_res (get_entry (tlb (cpu s)) i (tlb_index addr)) s) k).
Proof.
  intros Hi Hk s Hs.
  destruct (get_entry_ok (tlb (cpu s)) (proj1 (proj1 Hs)) i (tlb_index addr) Hi (tlb_index_bound addr))
    as [e He].
  rewrite (sm_res_bind _ _ _ e He). by apply Hk.
Qed.

Ltac safe_access := apply safe_runs; [|auto with untraced]; auto with runs.

Lemma safe_ld_slow_path sz addr a i : data_size sz → 0 ≤ i < NB_MMU_MODES →
  safe (ld_slow_path (S fuel) sz addr a i retaddr).
Proof.
  intros Hsz Hi. apply safe_bind; [apply safe_trace_ref|]. intros _.
  apply safe_bind; [safe_access|]. intros e.
  destruct (truth _); [destruct (misaligned _ _)|destruct (spans _ _)]; safe_access.
Qed.
Lemma safe_st_slow_path sz addr v i : 0 ≤ i < NB_MMU_MODES →
  safe (st_slow_path (S fuel) sz addr v i retaddr).
Proof.
  intros Hi. apply safe_bind; [apply safe_trace_ref|]. intros _.
  apply safe_bind; [safe_access|]. intros e.
  destruct (truth _); [destruct (misaligned _ _)|destruct (spans _ _)]; safe_access.
Qed.

Lemma safe_ld sz addr a i : data_size sz → 0 ≤ i < NB_MMU_MODES →
  safe (ld (S fuel) sz addr a i retaddr).
Proof.
  intros Hsz Hi. apply safe_entry; [done|]. intros e.
  destruct (_ =? _); [|by apply safe_ld_slow_path].
  apply safe_bind; [apply safe_trace_ref|]. intros _. safe_access.
Qed.
Lemma safe_tcg_ld sz sign addr i : data_size sz → 0 ≤ i < NB_MMU_MODES →
  safe (tcg_ld (S fuel) retaddr sz sign addr i).
Proof.
  intros Hsz Hi. apply safe_entry; [done|]. intros e.
  apply safe_bind; [|intros v; apply safe_ret].
  destruct (_ =? _); [safe_access|by apply safe_ld_slow_path].
Qed.
Lemma safe_tcg_st sz addr v i : 0 ≤ i < NB_MMU_MODES → safe (tcg_st (S fuel) retaddr sz addr v i).
Proof.
  intros Hi. apply safe_entry; [done|]. intros e.
  destruct (_ =? _); [safe_access|by apply safe_st_slow_path].
Qed.

(** ** NEON structures *)
Lemma runs_ld_elems n sz addr stride i : data_size sz → 0 ≤ i < NB_MMU_MODES →
  runs (ld_elems (S fuel) retaddr n sz addr stride i).
Proof.
  intros Hsz Hi. revert addr. induction n as [|n IH]; intros addr; cbn [ld_elems];
    [auto with runs|].
  repeat (apply runs_bind; [auto with runs|intros ?]). auto with runs.
Qed.
Lemma runs_st_elems n sz addr v stride i : 0 ≤ i < NB_MMU_MODES →
  runs (st_elems (S fuel) retaddr n sz addr v stride i).
Proof.
  intros Hi. revert addr v. induction n as [|n IH]; intros addr v; cbn [st_elems];
    [auto with runs|].
  apply runs_bind; auto with runs.
Qed.
Lemma runs_get_vreg rd : runs (get_vreg (D:=D) rd).
Proof. apply runs_res. intros s. apply aget_no_loop. Qed.
Lemma runs_set_vreg rd v : runs (set_vreg (D:=D) rd v).
Proof.
  intros s Hs. unfold set_vreg. split; [apply bind_no_loop; [apply aput_no_loop|done]|].
  intros o (l & _ & Ho)%bind_Ok. by injection Ho as <-.
Qed.
#[local] Hint Resolve runs_ld_elems runs_st_elems runs_get_vreg runs_set_vreg : runs.

Lemma elem_size insn : data_size (1 << ((insn >> 6) .& 3)).
Proof.
  exists ((insn >> 6) .& 3). pose proof (land_mask_bound (insn >> 6) 3).
  split; [lia|]. rewrite Z.shiftl_mul_pow2 by lia. lia.
Qed.

Lemma runs_neon_regs n load base size nregs il sp i r rd addr :
  data_size (1 << size) → 0 ≤ i < NB_MMU_MODES →
  runs (neon_regs (S fuel) retaddr n load base size nregs il sp i r rd addr).
Proof.
  intros Hsz Hi. revert r rd addr.
  induction n as [|n IH]; intros r rd addr; cbn [neon_regs]; [auto with runs|]. cbv zeta.
  apply runs_bind; [|auto]. destruct load; apply runs_bind; auto with runs.
Qed.

Lemma safe_neon insn : safe (neon_vldst_all (S fuel) retaddr insn).
Proof.
  apply safe_runs; [|apply untraced_neon_vldst]. apply runs_read. intros s. cbv zeta.
  apply runs_bind; [apply (runs_res (λ _, _)); intros; apply aget_no_loop|].
  intros [[nregs il] sp]. apply runs_bind; [apply runs_get|]. intros base.
  apply runs_neon_regs; [apply elem_size|apply user_mode_index].
Qed.

(** ** Coprocessor 15 *)
Lemma set_cp15_env_no_loop (PR : PhysRead) insn v e :
  (∀ a, ldl_phys a ≠ Err Diverges) → arm_feature e ARM_FEATURE_MPU = false →
  set_cp15_env insn v e ≠ Err Diverges.
Proof.
  intros Hl Hm. unfold set_cp15_env. cbv zeta.
  destruct (cp15_crn insn) as [|[[[p|p|]|[p|p|]|]|[[p|p|]|[p|p|]|]|]|p]; try destruct p;
    try discriminate;
    unfold set_c0, set_c1, set_c1_0, set_c1_1, set_c2, set_c3_reg, set_c5, set_c6, set_c9, set_c9_0,
      set_c9_14, set_c12, set_c13, set_c15, set_c15_omap, bad_reg; cbv zeta;
    lazymatch goal with |- set_c7 _ _ _ _ _ ≠ _ => idtac | |- _ => no_loop end.
  unfold set_c7, bad_reg. cbv zeta.
  destruct (negb _); [discriminate|]. destruct (arm_feature _ ARM_FEATURE_V6K); [|discriminate].
  repeat match goal with |- context [match ?x with _ => _ end] =>
    lazymatch type of x with positive => destruct x | Z => destruct x end end; try discriminate.
  destruct (truth _); [discriminate|]. apply bind_no_loop; [|discriminate]. apply walk_no_loop; [exact Hl|exact Hm].
Qed.

Lemma safe_set_cp15 insn v : safe (helper_set_cp15 insn v).
Proof.
  intros s Hs. unfold helper_set_cp15. split.
  - apply bind_no_loop; [|done]. unfold set_cp15_reg. destruct (cp15_crn insn =? 8).
    + unfold set_c8, bad_reg. cbv zeta. cbn [first_cpu tr].
      destruct (flush_page_ok (tlb (cpu s)) (v .& TARGET_PAGE_MASK) (proj1 (proj1 Hs)))
        as (t1 & Ht1 & _).
      assert (∀ m, m = tlbtrace_flush_all ∨ (∃ v, m = tlbtrace_flush_entry v) ∨
          (∃ n, m = tlbtrace_flush_asid n) → m (trc s) ≠ Err Diverges) as Hf.
      { intros m Hm. by destruct (flush_frame m (trc s) Hm (proj1 (proj2 Hs))) as (tl & -> & _). }
      destruct (cp15_op2 insn) as [|[[p|p|]|p|]|p]; try discriminate; try (destruct p; try discriminate).
      * apply bind_no_loop; [apply Hf; eauto|done].
      * apply bind_no_loop; [apply Hf; eauto|done].
      * rewrite Ht1, bind_ret. apply bind_no_loop; [apply Hf; eauto|done].
    + apply bind_no_loop; [|done].
      apply set_cp15_env_no_loop; [intros a; apply phys_read_no_loop|apply Hs].
  - intros o Ho. pose proof (follows_set_cp15 insn v s o Ho) as Hc.
    apply bind_Ok in Ho as (t & Ht & Ho). injection Ho as <-. split.
    + exact (@set_cp15_ok (phys_read (pmem s)) insn v (mkTraced (cpu s) (trc s)) t (proj1 Hs) Ht).
    + apply (calls_inv _ _ _ (proj2 Hs)) in Hc; [done|]. intros _. cbn [gop_calls].
      destruct (_ =? _); [|done].
      by destruct (cp15_op2 insn) as [|[[p|p|]|[p|p|]|]|p].
Qed.

Lemma safe_get_cp15 insn : safe (helper_get_cp15 insn).
Proof.
  intros s Hs. unfold helper_get_cp15. split.
  - apply bind_no_loop; [apply get_cp15_no_loop|]. by intros [v e].
  - intros o ([v e] & He & Ho)%bind_Ok. injection Ho as <-. apply cpu_ok_inv; [done|].
    apply (same_tlb_ok (cpu s)); [by eapply get_cp15_same|apply Hs].
Qed.

(** ** Blocks *)
Lemma safe_raise excp f : (∀ e, same_tlb e (f e)) →
  safe (λ s, Ok (Raised (A:=unit) excp (with_cpu (f (cpu s)) s))).
Proof.
  intros Hf s Hs. split; [done|]. intros o [= <-]. apply cpu_ok_inv; [done|].
  apply (same_tlb_ok (cpu s)); [apply Hf|apply Hs].
Qed.

Lemma safe_assign_load k rd v : safe (assign_load (D:=D) k rd v).
Proof.
  unfold assign_load, assign. destruct (_ <? _)%nat; apply safe_on_cpu; try done;
    by intros e e' [= <-].
Qed.

Lemma safe_gop g : safe (run_gop (S fuel) retaddr g).
Proof.
  destruct g as [pc|k sign addr user rd|k addr v user|k addr|insn|insn v|insn rd|v m|n v|n v c w x z|f v|x v| |md v|excp|];
    cbn [run_gop].
  - apply safe_trace_pc.
  - apply safe_bind; [|intros v; apply safe_assign_load].
    apply safe_tcg_ld; [apply width_size|apply user_mode_index].
  - apply safe_tcg_st, user_mode_index.
  - apply safe_read. intros s. apply safe_bind; [|intros v; apply safe_ret].
    apply safe_ld; [apply width_size|apply user_mode_index].
  - apply safe_neon.
  - apply safe_set_cp15.
  - apply safe_bind; [apply safe_get_cp15|intros v].
    apply safe_on_cpu; [done|]. by intros e e' [= <-].
  - apply safe_on_cpu; [intros e; apply cpsr_write_no_loop|intros e e'; apply cpsr_write_same].
  - apply safe_on_cpu; [intros e; apply set_user_reg_no_loop|intros e e'; apply set_user_reg_same].
  - apply safe_on_cpu; [done|]. by intros e e' [= <-].
  - apply safe_on_cpu; [done|]. intros e e' [= <-]. by destruct f.
  - apply safe_on_cpu; [done|]. intros e e' [= <-]. by destruct x.
  - apply safe_on_cpu; [done|]. by intros e e' [= <-].
  - apply safe_on_cpu; [intros e; apply set_r13_no_loop|intros e e'; apply set_r13_same].
  - by apply (safe_raise excp (λ e, e <| exception_index := excp |>)).
  - by apply (safe_raise EXCP_HLT (λ e, e <| exception_index := EXCP_HLT |> <| halted := 1 |>)).
Qed.

Lemma safe_block b : safe (run_block (S fuel) retaddr b).
Proof.
  induction b as [|g b IH]; cbn [run_block]; [apply safe_ret|].
  apply safe_bind; [apply safe_gop|done].
Qed.

(** ** The execution loop *)

(** A delivery keeps the TLB and does not loop. *)
Definition keeps_tlb (m : CPUARMState → res (option Z * CPUARMState)) : Prop := ∀ e,
  m e ≠ Err Diverges ∧ ∀ r e', m e = Ok (r, e') → same_tlb e e'.

Lemma exec_exception_keeps : keeps_tlb exec_exception.
Proof.
  intros e. unfold exec_exception. split.
  - destruct (0 <=? _); [|done]. destruct (_ <=? _); [done|].
    apply bind_no_loop; [apply do_interrupt_no_loop|done].
  - intros r e'. destruct (0 <=? _); [|by intros [= _ <-]]. destruct (_ <=? _); [by intros [= _ <-]|].
    intros (e1 & H1 & [= _ <-])%bind_Ok. by apply do_interrupt_same in H1.
Qed.

Lemma deliver_same b excp e e' : deliver b excp e = Ok e' → same_tlb e e'.
Proof. unfold deliver. destruct b; [|by intros [= <-]]. by intros H1%do_interrupt_same. Qed.
Lemma deliver_no_loop b excp e : deliver b excp e ≠ Err Diverges.
Proof. unfold deliver. destruct b; [apply do_interrupt_no_loop|done]. Qed.

Lemma exec_interrupts_keeps : keeps_tlb exec_interrupts.
Proof.
  intros e. unfold exec_interrupts. cbv zeta. split.
  - destruct (truth _); [|done]. destruct (truth _); [done|]. destruct (truth _); [done|].
    apply bind_no_loop; [apply deliver_no_loop|intros e1 _].
    apply bind_no_loop; [apply deliver_no_loop|done].
  - intros r e'. destruct (truth _); [|by intros [= _ <-]].
    destruct (truth _); [by intros [= _ <-]|]. destruct (truth _); [by intros [= _ <-]|].
    intros (e1 & H1%deliver_same & Ho)%bind_Ok. apply bind_Ok in Ho as (e2 & H2%deliver_same & Ho).
    injection Ho as _ <-. etrans; [exact H1|exact H2].
Qed.

Lemma before_block_keeps head : keeps_tlb (before_block head).
Proof.
  intros e. unfold before_block.
  destruct (exec_exception_keeps e) as [Hl Hk]. split.
  - apply bind_no_loop; [by destruct head|]. intros [[ret|] e1] _; [done|].
    apply bind_no_loop; [apply exec_interrupts_keeps|]. by intros [[ret|] e2] _.
  - intros r e' ([r1 e1] & H1 & Ho)%bind_Ok.
    assert (same_tlb e e1) as Hs1 by (destruct head; [by apply (Hk r1)|by injection H1 as _ <-]).
    destruct r1 as [ret|]; [by injection Ho as _ <-|].
    apply bind_Ok in Ho as ([r2 e2] & H2 & Ho). apply exec_interrupts_keeps in H2.
    etrans; [exact Hs1|]. etrans; [exact H2|]. destruct r2 as [ret|]; [by injection Ho as _ <-|].
    unfold exec_exit_request in Ho. destruct (truth _); by injection Ho as _ <-.
Qed.

(** The loop: no state of it, between blocks or after it, breaks the
    invariant, and it processes all its blocks. *)
Definition good (r : res (progress D)) : Prop :=
  r ≠ Err Diverges ∧
  ∀ p, r = Ok p → match p with Left _ s | Running s => machine_inv s | Gone _ => True end.

Lemma loop_good head bs s : machine_inv s → good (exec_loop (run_block (S fuel) retaddr) head bs s).
Proof.
  revert head s. induction bs as [|b bs IH]; intros head s Hs; cbn [exec_loop];
    destruct (before_block_keeps head (cpu s)) as [Hl Hk];
    (destruct (before_block head (cpu s)) as [[r e]|f] eqn:E;
      [rewrite bind_ret|split; [by intros [= ->]|discriminate]]);
    (assert (machine_inv (with_cpu e s)) as Hs';
      [apply cpu_ok_inv; [done|]; apply (same_tlb_ok (cpu s)); [by apply (Hk r)|apply Hs]|]);
    destruct r as [ret|]; try (split; [done|]; by intros p [= <-]).
  destruct (safe_block b _ Hs') as [Hb1 Hb2].
  destruct (run_block (S fuel) retaddr b (with_cpu e s)) as [o|f] eqn:Eb;
    [rewrite bind_ret|split; [by intros [= ->]|discriminate]].
  specialize (Hb2 o eq_refl).
  destruct o as [u s1|e1 s1|s1]; [by apply IH..|]. split; [done|]. by intros p [= <-].
Qed.

Lemma enter_loop_inv stop s : machine_inv s → machine_inv (enter_loop stop s).
Proof.
  intros Hs. unfold enter_loop. cbv zeta. apply cpu_ok_inv; [done|].
  apply (same_tlb_ok (cpu s)); [|apply Hs]. by destruct (truth _), stop.
Qed.

(** ** Events *)
Lemma flush_env_ok e : cpu_ok e → cpu_ok (flush_env true e).
Proof. intros [Hwf Hm]. split; [by apply flush_env_flushed|exact Hm]. Qed.

Lemma toggle_qemu_cpu tm co hm u u' : tlbtrace_toggle_qemu tm co hm u = Ok u' →
  first_cpu u' = flush_env true (first_cpu u).
Proof.
  destruct u as [e t]. unfold tlbtrace_toggle_qemu, tlbtrace_start_qemu, tlbtrace_stop_qemu.
  destruct (truth _); intros (t' & _ & Hu)%bind_Ok; injection Hu as <-; reflexivity.
Qed.

Lemma toggle_cpu tm s s' : cpu_ok (cpu s) → toggle tm s = Ok s' → cpu_ok (cpu s').
Proof.
  intros Hok (u & Hu%toggle_qemu_cpu & Hs)%bind_Ok. injection Hs as <-.
  cbn [cpu with_trc with_cpu]. rewrite Hu. by apply flush_env_ok.
Qed.

Lemma toggle_good tm s : machine_inv s → ∃ s', toggle tm s = Ok s' ∧ machine_inv s'.
Proof.
  intros [Hc [Hwf Hon]]. destruct (truth (started (trc s))) eqn:Hst.
  - destruct (Hon eq_refl) as (f & recs & Hrec).
    destruct (toggle_off tm s f recs Hrec Hst) as (s' & Hs & Hwf' & Hst' & _).
    exists s'. split; [done|]. split; [by apply (toggle_cpu tm s)|]. split; [done|]. by rewrite Hst'.
  - destruct (toggle_on tm s Hwf Hst) as (s' & Hs & Hrec & _).
    exists s'. split; [done|]. split; [by apply (toggle_cpu tm s)|]. split; [apply Hrec|eauto].
Qed.

Lemma event_good ev s : machine_inv s → good (run_event (run_block (S fuel) retaddr) ev s).
Proof.
  intros Hs.
  assert (∀ r e, same_tlb (cpu s) e → good (Ok (Left r (with_cpu e s)))) as Hcpu.
  { intros r e He. split; [done|]. intros p [= <-]. apply cpu_ok_inv; [done|].
    apply (same_tlb_ok (cpu s)); [done|apply Hs]. }
  destruct ev as [stop bs|mask|mask| |tm]; cbn [run_event]; try by apply Hcpu.
  - unfold cpu_exec. cbv zeta. destruct (_ && _); [split; [done|]; by intros p [= <-]|].
    by apply loop_good, enter_loop_inv.
  - destruct (toggle_good tm s Hs) as (s' & -> & Hs'). rewrite bind_ret. split; [done|].
    by intros p [= <-].
Qed.

(** *** Reachable states *)
Inductive step s : smmu D → Prop :=
| step_event ev ret s' : run_event (run_block (S fuel) retaddr) ev s = Ok (Left ret s') → step s s'
| step_observe ev s' : run_event (run_block (S fuel) retaddr) ev s = Ok (Running s') → step s s'.

Lemma step_inv s s' : machine_inv s → step s s' → machine_inv s'.
Proof.
  intros Hs [ev ret s1 He|ev s1 He]; destruct (event_good ev s Hs) as [_ Hp];
    apply (Hp _ He).
Qed.

Lemma reachable_inv s s' : machine_inv s → rtc step s s' → machine_inv s'.
Proof. intros Hs Hr. induction Hr as [|s s1 s' H1 _ IH]; [done|]. eauto using step_inv. Qed.

(** The machine at the start: a reset CPU with an MMU, a tracer set up with a
    legal geometry. *)
Definition booted (name : string) (size set : Z) (block : list TLB_ENTRY) s : Prop :=
  cpu_arm_init name 0 = Ok (Some (cpu s)) ∧
  arm_feature (cpu s) ARM_FEATURE_MPU = false ∧ IS_M (cpu s) = false ∧
  zlength block = size ∧ 1 ≤ set ≤ size ∧ size < 2 ^ 31 ∧
  ∃ h, tlbtrace_init size set h (Some block) tracer_boot = Ok (0, trc s).

Lemma init_wf size set h block t : zlength block = size → 1 ≤ set ≤ size → size < 2 ^ 31 →
  tlbtrace_init size set h (Some block) tracer_boot = Ok (0, t) →
  sl_wf t ∧ started t = 0.
Proof.
  intros Hb Hset Hmax. unfold tlbtrace_init. destruct (Z.eqb_spec set 0); [lia|].
  rewrite Z.quot_div_nonneg by lia. intros [= <-]. split; [|done].
  pose proof (Z.div_str_pos size set ltac:(lia)).
  pose proof (Z.div_le_upper_bound size set size ltac:(lia) ltac:(nia)).
  split; cbn; try (done || lia). by exists block.
Qed.
End inv.

(** *** Reset *)
Lemma zero_tlb_wf t : tlb_wf (zero_tlb t).
Proof. split; try done; by apply Forall_replicate. Qed.

Create Rewrite HintDb reset_tlb.
Lemma add_features_tlb fs e : tlb (add_features fs e) = tlb e.
Proof. revert e. induction fs as [|f fs IH]; intros e; [done|]. exact (IH _). Qed.
Lemma set_sys_tlb v e : tlb (set_sys v e) = tlb e. Proof. done. Qed.
Lemma set_caches_tlb v e : tlb (set_caches v e) = tlb e. Proof. done. Qed.
Lemma set_xreg_tlb n v e : tlb (set_xreg n v e) = tlb e. Proof. done. Qed.
Lemma set_fp_id_tlb a b c e : tlb (set_fp_id a b c e) = tlb e. Proof. done. Qed.
Lemma set_ids_tlb a b e : tlb (set_ids a b e) = tlb e. Proof. done. Qed.
Lemma set_clid_tlb v e : tlb (set_clid v e) = tlb e. Proof. done. Qed.
Lemma set_ccsid_tlb i v e : tlb (set_ccsid i v e) = tlb e. Proof. done. Qed.
Lemma on_cp15_tlb g e : tlb (on_cp15 g e) = tlb e. Proof. done. Qed.
Lemma set_iwmmxt_tlb l e : tlb (e <| iwmmxt_cregs := l |>) = tlb e. Proof. done. Qed.
#[local] Hint Rewrite add_features_tlb set_sys_tlb set_caches_tlb set_xreg_tlb set_fp_id_tlb
  set_ids_tlb set_clid_tlb set_ccsid_tlb on_cp15_tlb set_iwmmxt_tlb : reset_tlb.

(** A chain of tests that all answer with a state of this TLB. *)
Lemma some_if_tlb (b : bool) e1 o t : tlb e1 = t → (∀ e2, o = Some e2 → tlb e2 = t) →
  ∀ e2, (if b then Some e1 else o) = Some e2 → tlb e2 = t.
Proof. intros H1 H2 e2. destruct b; [by intros [= <-]|apply H2]. Qed.

Lemma reset_model_a_tlb id e e' : reset_model_a id e = Some e' → tlb e' = tlb e.
Proof.
  revert e'. unfold reset_model_a. cbv zeta.
  repeat (apply some_if_tlb; [by autorewrite with reset_tlb|]). done.
Qed.
Lemma reset_model_b_tlb id e e' : reset_model_b id e = Some e' → tlb e' = tlb e.
Proof.
  revert e'. unfold reset_model_b. cbv zeta.
  repeat (apply some_if_tlb; [by autorewrite with reset_tlb|]). done.
Qed.
Lemma reset_model_tlb id e e' : cpu_reset_model_id e id = Ok e' → tlb e' = tlb e.
Proof.
  unfold cpu_reset_model_id. cbv zeta.
  destruct (reset_model_a id _) as [e1|] eqn:Ea.
  - intros [= <-]. by apply reset_model_a_tlb in Ea.
  - destruct (reset_model_b id _) as [e1|] eqn:Eb; [|done].
    intros [= <-]. by apply reset_model_b_tlb in Eb.
Qed.

Lemma cpu_reset_wf e e' : cpu_reset e = Ok e' → tlb_wf (tlb e').
Proof.
  unfold cpu_reset. cbv zeta. intros (e1 & H1 & H)%bind_Ok.
  assert (tlb_wf (tlb e1)) as Hwf.
  { destruct (truth _); [|injection H1 as <-; apply zero_tlb_wf].
    rewrite (reset_model_tlb _ _ _ H1). apply zero_tlb_wf. }
  injection H as <-. apply (flush_empties (tlb e1) true 0 0 Read) in Hwf as [Hwf _];
    [|unfold NB_MMU_MODES; lia].
  by destruct (IS_M _).
Qed.

Lemma booted_inv {D} name size set block (s : smmu D) :
  booted name size set block s → machine_inv s ∧ started (trc s) = 0.
Proof.
  intros (Hc & Hm & _ & Hb & Hset & Hmax & h & Ht).
  destruct (init_wf size set h block (trc s) Hb Hset Hmax Ht) as [Hwf Hst].
  split; [|done]. split; [|split; [done|by rewrite Hst]]. split; [|done].
  unfold cpu_arm_init in Hc. cbv zeta in Hc. destruct (_ =? _); [done|].
  apply bind_Ok in Hc as (e & He & Hc). injection Hc as <-. by apply cpu_reset_wf in He.
Qed.

(** C4: the invariant of the emulator.  From a booted machine with a legal
    tracer geometry, every state that events lead to (executions of any
    translated blocks with their exceptions and interrupts, interrupt requests,
    switches of the tracer) has a well-formed software TLB and, while the
    tracer is on, a trace file that together with the buffer holds one record
    per counted miss; there no event loops for ever (one refill per access is
    enough), no reference makes the tracer fault, and the tracer can be
    switched on or off. *)
Theorem reachable_machine_is_safe {D} `{IoPorts D} `{TbCache} fuel retaddr name size set block
    (s s' : smmu D) :
  booted name size set block s → rtc (step fuel retaddr) s s' →
  tlb_wf (tlb (cpu s')) ∧ sl_wf (trc s') ∧
  (truth (started (trc s')) = true → ∃ f recs, recording f recs (trc s')) ∧
  (∀ ev, run_event (run_block (S fuel) retaddr) ev s' ≠ Err Diverges) ∧
  (∀ addr ins, ∃ o, tlbtrace_refmem_qemu (guest_words s') addr ins (cpu s') (trc s') = Ok o) ∧
  (∀ tm, ∃ s'', toggle tm s' = Ok s'').
Proof.
  intros [Hb _]%booted_inv Hr. apply (reachable_inv fuel retaddr s s' Hb) in Hr as Hs.
  split; [apply Hs|]. split; [apply Hs|]. split; [apply Hs|].
  split; [intros ev; by apply (event_good fuel retaddr ev s' Hs)|].
  split; [intros addr ins; by apply refmem_qemu_total|].
  intros tm. destruct (toggle_good tm s' Hs) as (s2 & Hs2 & _). by exists s2.
Qed.

(** ** A small machine *)
Definition a8_cpu : CPUARMState :=
  match cpu_arm_init "cortex-a8" 0 with Ok (Some e) => e | _ => demo_cpu end.
Definition a8_tracer : tracer :=
  match tlbtrace_init 4 2 demo_helper (Some TlbTraceFacts.demo_block) tracer_boot with
  | Ok (_, t) => t
  | Err _ => tracer_boot
  end.
Definition a8_machine : smmu unit := mkSmmu a8_cpu demo_phys a8_tracer 0 0.

Lemma a8_booted : booted "cortex-a8" 4 2 TlbTraceFacts.demo_block a8_machine.
Proof.
  split; [vm_compute; reflexivity|]. split; [vm_compute; reflexivity|].
  split; [vm_compute; reflexivity|]. split; [reflexivity|]. split; [lia|]. split; [lia|].
  exists demo_helper. reflexivity.
Qed.

(** To user mode, then a load and a store. *)
Definition demo_events : list (event (list gop)) :=
  [Exec false [[CpsrWrite 0x10 0x1f; Load 2 false 0x1002 true 0; Store 2 0x5000 7 true]; [Wfi]]].

(** What the witnesses compute: the machine with the tracer on runs to the
    [Wfi] and has counted two misses. *)
Definition demo_run : res (progress unit) :=
  s ← toggle demo_tm a8_machine; run_events (@run_block unit no_ports no_tbs 1 0) demo_events s.
Lemma demo_run_misses :
  match demo_run with Ok (Left _ s2) => miss (sl_cnt (trc s2)) = 2 | _ => False end.
Proof. vm_compute. reflexivity. Qed.
#[local] Opaque a8_machine demo_events.

(** After the tracer is switched on and the machine has run, it can go on. *)
Theorem reachable_machine_is_safe_witness :
  ∃ s', rtc (@step unit no_ports no_tbs 0 0) a8_machine s' ∧ truth (started (trc s')) = true ∧
    ∃ f recs, recording f recs (trc s').
Proof.
  destruct (booted_inv _ _ _ _ _ a8_booted) as [Hinv H0].
  destruct (toggle_on demo_tm a8_machine (proj1 (proj2 Hinv))) as (s1 & H1 & _ & Hst & _).
  { rewrite H0. reflexivity. }
  assert (rtc (@step unit no_ports no_tbs 0 0) a8_machine s1) as Hr.
  { apply rtc_once. apply (@step_event unit no_ports no_tbs 0 0 a8_machine (Toggle demo_tm) 0 s1).
    cbn [run_event]. rewrite H1. reflexivity. }
  exists s1. split; [exact Hr|]. split; [rewrite Hst; reflexivity|].
  apply (@reachable_machine_is_safe unit no_ports no_tbs 0 0 "cortex-a8" 4 2 TlbTraceFacts.demo_block
    a8_machine s1 a8_booted Hr). rewrite Hst. reflexivity.
Defined.

(** Two misses: both references leave a record. *)
Theorem session_records_misses_witness :
  ∃ s1 s2 r logged, toggle demo_tm a8_machine = Ok s1 ∧
    run_events (@run_block unit no_ports no_tbs 1 0) demo_events s1 = Ok (Left r s2) ∧
    logged `sublist_of` refs_of (@events_calls unit no_ports no_tbs 1 0 demo_events s1) ∧
    miss (sl_cnt (trc s2)) = 2.
Proof.
  destruct (booted_inv _ _ _ _ _ a8_booted) as [Hinv H0].
  destruct (@session_records_misses unit no_ports no_tbs 1 0 demo_tm a8_machine
    (proj1 (proj2 Hinv)) ltac:(rewrite H0; reflexivity)) as (s1 & H1 & _ & Hs).
  pose proof demo_run_misses as Hm. unfold demo_run in Hm. rewrite H1, bind_ret in Hm.
  destruct (run_events (@run_block unit no_ports no_tbs 1 0) demo_events s1) as [[r s2|s2|s2]|f] eqn:E;
    [|destruct Hm..].
  assert (forallb not_toggle demo_events = true) as Ht by (vm_compute; reflexivity).
  destruct (Hs demo_events (Left r s2) Ht E) as (logged & Hl & _).
  exists s1, s2, r, logged. split; [exact H1|]. split; [exact E|]. split; [exact Hl|exact Hm].
Defined.
