(* ===== verification/Tcg.v ===== *)
(** * The intermediate code of the code generator ([tcg/tcg-op.h], [tcg/tcg.c])

    The operations a translator emits, the buffer and the temporaries it emits
    them with, and what the operations mean, as [tcg/README] describes them.
    The host is a 64-bit one with the optional operations of
    [tcg/i386/tcg-target.h]. *)
From S2P Require Import Prelude ArmCpu ArmMode ArmAlu PhysMem SoftMmu GuestOps.

(** ** Operations *)

(** A guest register or a field of the exclusive monitor (globals of the
    generated code), a temporary, or one that survives jumps. *)
Inductive tcgv : Type := CpuR (n : nat) | CpuX (x : exclusive) | Tmp (n : nat) | Local (n : nat).
#[export] Instance tcgv_eq_dec : EqDecision tcgv.
Proof. solve_decision. Defined.

(** The helpers of [op_helper.c] and [helper.c] that translated code calls. *)
Inductive helper : Type :=
| H_cpsr_read | H_cpsr_write | H_exception | H_wfi
| H_add_cc | H_adc_cc | H_sub_cc | H_sbc_cc
| H_shl | H_shr | H_sar | H_shl_cc | H_shr_cc | H_sar_cc | H_ror_cc
| H_add_setq | H_add_saturate | H_sub_saturate | H_double_saturate
| H_ssat | H_usat | H_ssat16 | H_usat16 | H_usad8 | H_sel_flags | H_logicq_cc
| H_clz | H_rbit | H_sxtb16 | H_uxtb16
| H_parallel (p : prefix) (i : addsub_insn) | H_parallel_ge (p : prefix) (i : addsub_insn)
| H_get_user_reg | H_set_user_reg | H_get_r13_banked | H_set_r13_banked.

Inductive unop : Type := O_mov | O_ext8s | O_ext16s | O_ext8u | O_ext16u | O_not | O_bswap16 | O_bswap32.
Inductive binop : Type := O_add | O_sub | O_and | O_or | O_xor | O_shl | O_shr | O_sar | O_rotl | O_rotr | O_mul.
Inductive unop64 : Type := O_mov64 | O_ext32u | O_ext32s.
Inductive binop64 : Type := O_add64 | O_sub64 | O_or64 | O_shl64 | O_shr64 | O_mul64.
Inductive tcg_cond : Type := COND_EQ | COND_NE | COND_LT | COND_GE.

Inductive tcg_op : Type :=
| Op_movi (ret : tcgv) (arg : Z)
| Op1 (o : unop) (ret arg : tcgv)
| Op2 (o : binop) (ret arg1 arg2 : tcgv)
| Op_movi64 (ret : tcgv) (arg : Z)
| Op1_64 (o : unop64) (ret arg : tcgv)
| Op2_64 (o : binop64) (ret arg1 arg2 : tcgv)
| Op_ld (ret : tcgv) (f : env_field)
| Op_st (arg : tcgv) (f : env_field)
| Op_env_ptr (ret : tcgv) (f : env_field)        (** [&env->f] *)
| Op_movi_fn (fn : tcgv) (h : helper)            (** the address of a helper *)
| Op_call (fn : tcgv) (ret : option tcgv) (args : list tcgv)
| Op_qemu_ld (k : nat) (sign : bool) (ret addr : tcgv) (mem_index : Z)   (** [2^k] bytes *)
| Op_qemu_st (k : nat) (val addr : tcgv) (mem_index : Z)
| Op_brcond (c : tcg_cond) (arg1 arg2 : tcgv) (l : nat)
| Op_br (l : nat)
| Op_set_label (l : nat)
| Op_goto_tb (n : Z)
| Op_exit_tb (v : Z)
| Op_qemu_trace_pc (pc : Z).

(** ** Emitting operations *)

(** [DisasContext] of [target-arm/translate.c]. *)
Record DisasContext := mkDisas {
  dc_pc : Z;
  is_jmp : Z;
  condjmp : bool;
  condlabel : nat;
  condexec_mask : Z;
  condexec_cond : Z;
  dc_tb : Z;              (** the block's address *)
  dc_tb_pc : Z;           (** [tb->pc] *)
  dc_thumb : Z;
  dc_user : bool
}.
Definition eta_dc (d : DisasContext) : DisasContext :=
  mkDisas (dc_pc d) (is_jmp d) (condjmp d) (condlabel d) (condexec_mask d) (condexec_cond d) (dc_tb d)
    (dc_tb_pc d) (dc_thumb d) (dc_user d).
#[export] Instance set_dc_pc : Setter dc_pc := ltac:(derive_setter eta_dc dc_pc).
#[export] Instance set_is_jmp : Setter is_jmp := ltac:(derive_setter eta_dc is_jmp).
#[export] Instance set_condjmp : Setter condjmp := ltac:(derive_setter eta_dc condjmp).
#[export] Instance set_condexec_mask : Setter condexec_mask := ltac:(derive_setter eta_dc condexec_mask).
#[export] Instance set_condexec_cond : Setter condexec_cond := ltac:(derive_setter eta_dc condexec_cond).
#[export] Instance set_condlabel : Setter condlabel := ltac:(derive_setter eta_dc condlabel).

(** The buffer of operations, the temporaries handed out and those given back
    (of each type a stack), the labels, and the state of the translator. *)
Record gctx := mkGctx {
  gen_opc_buf : list tcg_op;
  nb_temps : nat;
  free_i32 : list nat; free_i64 : list nat; free_local : list nat;
  nb_labels : nat;
  dc : DisasContext
}.
Definition eta_gctx (g : gctx) : gctx :=
  mkGctx (gen_opc_buf g) (nb_temps g) (free_i32 g) (free_i64 g) (free_local g) (nb_labels g) (dc g).
#[export] Instance set_gen_opc_buf : Setter gen_opc_buf := ltac:(derive_setter eta_gctx gen_opc_buf).
#[export] Instance set_nb_temps : Setter nb_temps := ltac:(derive_setter eta_gctx nb_temps).
#[export] Instance set_free_i32 : Setter free_i32 := ltac:(derive_setter eta_gctx free_i32).
#[export] Instance set_free_i64 : Setter free_i64 := ltac:(derive_setter eta_gctx free_i64).
#[export] Instance set_free_local : Setter free_local := ltac:(derive_setter eta_gctx free_local).
#[export] Instance set_nb_labels : Setter nb_labels := ltac:(derive_setter eta_gctx nb_labels).
#[export] Instance set_dc : Setter dc := ltac:(derive_setter eta_gctx dc).

(** Code of the translator; [None] is [goto illegal_op]. *)
Definition gen (A : Type) : Type := gctx → res (option A * gctx).
#[export] Instance gen_ret : MRet gen := λ A a g, Ok (Some a, g).
#[export] Instance gen_bind : MBind gen := λ A B k m g,
  '(a, g) ← m g; match a with Some a => k a g | None => Ok (None, g) end.
Definition illegal_op {A} : gen A := λ g, Ok (None, g).
Definition gen_err {A} (f : fault) : gen A := λ g, Err f.
Definition get_dc {A} (f : DisasContext → A) : gen A := λ g, Ok (Some (f (dc g)), g).
Definition set_jmp (j : Z) : gen unit := λ g, Ok (Some tt, g <| dc := dc g <| is_jmp := j |> |>).
Definition skip_gen : gen unit := mret tt.

Definition emit (o : tcg_op) : gen unit := λ g, Ok (Some tt, g <| gen_opc_buf := gen_opc_buf g ++ [o] |>).

(** The globals of [arm_translate_init]: [env], 16 registers, and the address and
    the two words of the exclusive monitor.  [nb_temps] does not count them. *)
Definition nb_globals : nat := 20.
Definition TCG_MAX_TEMPS : nat := 512.
Definition temps_exhausted : fault := Aborted "tcg_temp_alloc".

(** [tcg_temp_new_internal]: of the temporaries given back, the last; or one more,
    after [tcg_temp_alloc] has checked their number. *)
Definition tcg_temp_more (mk : nat → tcgv) : gen tcgv := λ g,
  if (TCG_MAX_TEMPS <? nb_globals + nb_temps g + 1)%nat then Err temps_exhausted
  else Ok (Some (mk (nb_temps g)), g <| nb_temps := S (nb_temps g) |>).
Definition tcg_temp_new_i32 : gen tcgv := λ g,
  match free_i32 g with
  | t :: l => Ok (Some (Tmp t), g <| free_i32 := l |>)
  | [] => tcg_temp_more Tmp g
  end.
Definition tcg_temp_new_i64 : gen tcgv := λ g,
  match free_i64 g with
  | t :: l => Ok (Some (Tmp t), g <| free_i64 := l |>)
  | [] => tcg_temp_more Tmp g
  end.
Definition tcg_temp_local_new_i32 : gen tcgv := λ g,
  match free_local g with
  | t :: l => Ok (Some (Local t), g <| free_local := l |>)
  | [] => tcg_temp_more Local g
  end.
(** [tcg_temp_free_internal] with its two assertions. *)
Definition may_free (n : nat) (g : gctx) : bool :=
  bool_decide (n < nb_temps g)%nat && bool_decide (n ∉ free_i32 g) && bool_decide (n ∉ free_i64 g) &&
  bool_decide (n ∉ free_local g).
Definition tcg_temp_free_i32 (t : tcgv) : gen unit := λ g,
  match t with
  | Tmp n => if may_free n g then Ok (Some tt, g <| free_i32 := n :: free_i32 g |>)
             else Err (Aborted "ts->temp_allocated != 0")
  | Local n => if may_free n g then Ok (Some tt, g <| free_local := n :: free_local g |>)
               else Err (Aborted "ts->temp_allocated != 0")
  | _ => Err (Aborted "idx >= s->nb_globals")
  end.
Definition tcg_temp_free_i64 (t : tcgv) : gen unit := λ g,
  match t with
  | Tmp n => if may_free n g then Ok (Some tt, g <| free_i64 := n :: free_i64 g |>)
             else Err (Aborted "ts->temp_allocated != 0")
  | _ => Err (Aborted "idx >= s->nb_globals")
  end.

Definition TCG_MAX_LABELS : nat := 512.
Definition gen_new_label : gen nat := λ g,
  if (TCG_MAX_LABELS <=? nb_labels g)%nat then Err (Aborted "tcg_abort")
  else Ok (Some (nb_labels g), g <| nb_labels := S (nb_labels g) |>).
Definition gen_set_label (l : nat) : gen unit := emit (Op_set_label l).
Definition tcg_gen_br (l : nat) : gen unit := emit (Op_br l).

(** *** 32-bit operations *)
Definition tcg_gen_mov_i32 (ret arg : tcgv) : gen unit :=
  if bool_decide (ret = arg) then skip_gen else emit (Op1 O_mov ret arg).
Definition tcg_gen_movi_i32 (ret : tcgv) (arg : Z) : gen unit := emit (Op_movi ret (s32 arg)).
Definition tcg_const_i32 (val : Z) : gen tcgv :=
  t0 ← tcg_temp_new_i32; tcg_gen_movi_i32 t0 val;; mret t0.

Definition tcg_gen_add_i32 (ret a b : tcgv) : gen unit := emit (Op2 O_add ret a b).
Definition tcg_gen_sub_i32 (ret a b : tcgv) : gen unit := emit (Op2 O_sub ret a b).
Definition tcg_gen_mul_i32 (ret a b : tcgv) : gen unit := emit (Op2 O_mul ret a b).
Definition tcg_gen_shl_i32 (ret a b : tcgv) : gen unit := emit (Op2 O_shl ret a b).
Definition tcg_gen_shr_i32 (ret a b : tcgv) : gen unit := emit (Op2 O_shr ret a b).
Definition tcg_gen_sar_i32 (ret a b : tcgv) : gen unit := emit (Op2 O_sar ret a b).
Definition tcg_gen_rotl_i32 (ret a b : tcgv) : gen unit := emit (Op2 O_rotl ret a b).
Definition tcg_gen_rotr_i32 (ret a b : tcgv) : gen unit := emit (Op2 O_rotr ret a b).
Definition tcg_gen_and_i32 (ret a b : tcgv) : gen unit :=
  if bool_decide (a = b) then tcg_gen_mov_i32 ret a else emit (Op2 O_and ret a b).
Definition tcg_gen_or_i32 (ret a b : tcgv) : gen unit :=
  if bool_decide (a = b) then tcg_gen_mov_i32 ret a else emit (Op2 O_or ret a b).
Definition tcg_gen_xor_i32 (ret a b : tcgv) : gen unit :=
  if bool_decide (a = b) then tcg_gen_movi_i32 ret 0 else emit (Op2 O_xor ret a b).

(** An operation with a constant operand. *)
Definition with_const (op : tcgv → tcgv → tcgv → gen unit) (ret a : tcgv) (c : Z) : gen unit :=
  t0 ← tcg_const_i32 c; op ret a t0;; tcg_temp_free_i32 t0.

Definition tcg_gen_addi_i32 (ret a : tcgv) (c : Z) : gen unit :=
  if s32 c =? 0 then tcg_gen_mov_i32 ret a else with_const tcg_gen_add_i32 ret a c.
Definition tcg_gen_subi_i32 (ret a : tcgv) (c : Z) : gen unit :=
  if s32 c =? 0 then tcg_gen_mov_i32 ret a else with_const tcg_gen_sub_i32 ret a c.
Definition tcg_gen_andi_i32 (ret a : tcgv) (c : Z) : gen unit :=
  if s32 c =? 0 then tcg_gen_movi_i32 ret 0
  else if u32 c =? 0xffffffff then tcg_gen_mov_i32 ret a
  else with_const tcg_gen_and_i32 ret a c.
Definition tcg_gen_ori_i32 (ret a : tcgv) (c : Z) : gen unit :=
  if u32 c =? 0xffffffff then tcg_gen_movi_i32 ret 0xffffffff
  else if s32 c =? 0 then tcg_gen_mov_i32 ret a
  else with_const tcg_gen_or_i32 ret a c.
Definition tcg_gen_xori_i32 (ret a : tcgv) (c : Z) : gen unit :=
  if s32 c =? 0 then tcg_gen_mov_i32 ret a else with_const tcg_gen_xor_i32 ret a c.
Definition tcg_gen_shli_i32 (ret a : tcgv) (c : Z) : gen unit :=
  if s32 c =? 0 then tcg_gen_mov_i32 ret a else with_const tcg_gen_shl_i32 ret a c.
Definition tcg_gen_shri_i32 (ret a : tcgv) (c : Z) : gen unit :=
  if s32 c =? 0 then tcg_gen_mov_i32 ret a else with_const tcg_gen_shr_i32 ret a c.
Definition tcg_gen_sari_i32 (ret a : tcgv) (c : Z) : gen unit :=
  if s32 c =? 0 then tcg_gen_mov_i32 ret a else with_const tcg_gen_sar_i32 ret a c.
Definition tcg_gen_rotli_i32 (ret a : tcgv) (c : Z) : gen unit :=
  if s32 c =? 0 then tcg_gen_mov_i32 ret a else with_const tcg_gen_rotl_i32 ret a c.
Definition tcg_gen_rotri_i32 (ret a : tcgv) (c : Z) : gen unit :=
  if s32 c =? 0 then tcg_gen_mov_i32 ret a else tcg_gen_rotli_i32 ret a (32 - c).
Definition tcg_gen_ext8s_i32 (ret a : tcgv) : gen unit := emit (Op1 O_ext8s ret a).
Definition tcg_gen_ext16s_i32 (ret a : tcgv) : gen unit := emit (Op1 O_ext16s ret a).
Definition tcg_gen_ext8u_i32 (ret a : tcgv) : gen unit := emit (Op1 O_ext8u ret a).
Definition tcg_gen_ext16u_i32 (ret a : tcgv) : gen unit := emit (Op1 O_ext16u ret a).
Definition tcg_gen_bswap16_i32 (ret a : tcgv) : gen unit := emit (Op1 O_bswap16 ret a).
Definition tcg_gen_bswap32_i32 (ret a : tcgv) : gen unit := emit (Op1 O_bswap32 ret a).
Definition tcg_gen_not_i32 (ret a : tcgv) : gen unit := emit (Op1 O_not ret a).
Definition tcg_gen_andc_i32 (ret a b : tcgv) : gen unit :=
  t0 ← tcg_temp_new_i32; tcg_gen_not_i32 t0 b;; tcg_gen_and_i32 ret a t0;; tcg_temp_free_i32 t0.

Definition tcg_gen_brcond_i32 (c : tcg_cond) (a b : tcgv) (l : nat) : gen unit := emit (Op_brcond c a b l).
Definition tcg_gen_brcondi_i32 (c : tcg_cond) (a : tcgv) (arg2 : Z) (l : nat) : gen unit :=
  t0 ← tcg_const_i32 arg2; tcg_gen_brcond_i32 c a t0 l;; tcg_temp_free_i32 t0.

(** *** 64-bit operations *)
Definition tcg_gen_mov_i64 (ret arg : tcgv) : gen unit :=
  if bool_decide (ret = arg) then skip_gen else emit (Op1_64 O_mov64 ret arg).
Definition tcg_gen_movi_i64 (ret : tcgv) (arg : Z) : gen unit := emit (Op_movi64 ret arg).
Definition tcg_const_i64 (val : Z) : gen tcgv :=
  t0 ← tcg_temp_new_i64; tcg_gen_movi_i64 t0 val;; mret t0.
Definition tcg_gen_add_i64 (ret a b : tcgv) : gen unit := emit (Op2_64 O_add64 ret a b).
Definition tcg_gen_sub_i64 (ret a b : tcgv) : gen unit := emit (Op2_64 O_sub64 ret a b).
Definition tcg_gen_mul_i64 (ret a b : tcgv) : gen unit := emit (Op2_64 O_mul64 ret a b).
Definition tcg_gen_or_i64 (ret a b : tcgv) : gen unit :=
  if bool_decide (a = b) then tcg_gen_mov_i64 ret a else emit (Op2_64 O_or64 ret a b).
Definition with_const64 (o : binop64) (ret a : tcgv) (c : Z) : gen unit :=
  if c =? 0 then tcg_gen_mov_i64 ret a
  else t0 ← tcg_const_i64 c; emit (Op2_64 o ret a t0);; tcg_temp_free_i64 t0.
Definition tcg_gen_addi_i64 : tcgv → tcgv → Z → gen unit := with_const64 O_add64.
Definition tcg_gen_shli_i64 : tcgv → tcgv → Z → gen unit := with_const64 O_shl64.
Definition tcg_gen_shri_i64 : tcgv → tcgv → Z → gen unit := with_const64 O_shr64.
Definition tcg_gen_extu_i32_i64 (ret a : tcgv) : gen unit := emit (Op1_64 O_ext32u ret a).
Definition tcg_gen_ext_i32_i64 (ret a : tcgv) : gen unit := emit (Op1_64 O_ext32s ret a).
Definition tcg_gen_trunc_i64_i32 (ret a : tcgv) : gen unit := tcg_gen_mov_i32 ret a.
Definition tcg_gen_concat_i32_i64 (dest low high : tcgv) : gen unit :=
  tmp ← tcg_temp_new_i64;
  tcg_gen_extu_i32_i64 tmp high;;
  tcg_gen_shli_i64 tmp tmp 32;;
  tcg_gen_extu_i32_i64 dest low;;
  tcg_gen_or_i64 dest dest tmp;;
  tcg_temp_free_i64 tmp.

(** *** Helpers, memory and the end of a block *)
Definition tcg_gen_ld_i32 (ret : tcgv) (f : env_field) : gen unit := emit (Op_ld ret f).
Definition tcg_gen_st_i32 (arg : tcgv) (f : env_field) : gen unit := emit (Op_st arg f).
Definition gen_helper (h : helper) (ret : option tcgv) (args : list tcgv) : gen unit :=
  fn ← tcg_temp_new_i64; emit (Op_movi_fn fn h);; emit (Op_call fn ret args);; tcg_temp_free_i64 fn.
Definition tcg_gen_qemu_ld (k : nat) (sign : bool) (ret addr : tcgv) (mem_index : Z) : gen unit :=
  emit (Op_qemu_ld k sign ret addr mem_index).
Definition tcg_gen_qemu_st (k : nat) (val addr : tcgv) (mem_index : Z) : gen unit :=
  emit (Op_qemu_st k val addr mem_index).
Definition tcg_gen_qemu_trace_pc (pc : Z) : gen unit := emit (Op_qemu_trace_pc pc).
Definition tcg_gen_exit_tb (v : Z) : gen unit := emit (Op_exit_tb v).
Definition tcg_gen_goto_tb (n : Z) : gen unit := emit (Op_goto_tb n).

(** ** What the operations do *)

Definition unop_sem (o : unop) (x : Z) : Z :=
  match o with
  | O_mov => u32 x
  | O_ext8s => u32 (s8 x)
  | O_ext16s => u32 (s16 x)
  | O_ext8u => u8 x
  | O_ext16u => u16 x
  | O_not => u32 (Z.lnot x)
  | O_bswap16 => (u8 x << 8) .| u8 (x >> 8)
  | O_bswap32 => (u8 x << 24) .| (u8 (x >> 8) << 16) .| (u8 (x >> 16) << 8) .| u8 (x >> 24)
  end.

(** A shift by a count outside the operand is undefined. *)
Definition shift_sem (w : Z) (f : Z → Z) (n : Z) : res Z :=
  if (0 <=? n) && (n <? w) then Ok (f n) else Err (Aborted "undefined shift").
Definition binop_sem (o : binop) (x y : Z) : res Z :=
  match o with
  | O_add => Ok (u32 (x + y))
  | O_sub => Ok (u32 (x - y))
  | O_and => Ok (x .& y)
  | O_or => Ok (x .| y)
  | O_xor => Ok (x .^ y)
  | O_mul => Ok (u32 (x * y))
  | O_shl => shift_sem 32 (λ n, u32 (x << n)) y
  | O_shr => shift_sem 32 (λ n, x >> n) y
  | O_sar => shift_sem 32 (λ n, u32 (s32 x >> n)) y
  | O_rotl => shift_sem 32 (λ n, u32 (x << n) .| (x >> (32 - n))) y
  | O_rotr => shift_sem 32 (λ n, u32 (x << (32 - n)) .| (x >> n)) y
  end.
Definition unop64_sem (o : unop64) (x : Z) : Z :=
  match o with O_mov64 => x | O_ext32u => u32 x | O_ext32s => u64 (s32 x) end.
Definition binop64_sem (o : binop64) (x y : Z) : res Z :=
  match o with
  | O_add64 => Ok (u64 (x + y))
  | O_sub64 => Ok (u64 (x - y))
  | O_or64 => Ok (x .| y)
  | O_mul64 => Ok (u64 (x * y))
  | O_shl64 => shift_sem 64 (λ n, u64 (x << n)) y
  | O_shr64 => shift_sem 64 (λ n, x >> n) y
  end.
Definition cond_sem (c : tcg_cond) (x y : Z) : bool :=
  match c with
  | COND_EQ => x =? y
  | COND_NE => negb (x =? y)
  | COND_LT => s32 x <? s32 y
  | COND_GE => s32 y <=? s32 x
  end.

Definition get_env (f : env_field) (e : CPUARMState) : Z :=
  match f with
  | F_CF => CF e | F_VF => VF e | F_NF => NF e | F_ZF => ZF e | F_GE => GE e | F_spsr => spsr e
  | F_thumb => thumb e | F_condexec_bits => condexec_bits e
  end.
(** The temporaries: values, addresses of helpers, and those that survive the
    end of a basic block. *)
Record temps := mkTemps { tvals : gmap nat Z; tfns : gmap nat helper; tlocals : gmap nat Z }.
Definition no_temps : temps := mkTemps ∅ ∅ ∅.
Definition end_bb (ts : temps) : temps := mkTemps ∅ ∅ (tlocals ts).

Definition get_excl (x : exclusive) (e : CPUARMState) : Z :=
  match x with X_addr => exclusive_addr e | X_val => exclusive_val e | X_high => exclusive_high e end.
(** After an operation: the next one, a jump to a label, or the end of the
    block with the value for the execution loop or through patched jump [n]. *)
Inductive ctl : Type := Next (ts : temps) | Jump (l : nat) | Exit (v : Z) | Chained (n : Z).

(** How a list of operations ends: at its end, where [Some l] means on the way
    to a label that has not come yet, or out of the block. *)
Inductive exit : Type := Left (v : Z) | Followed (n : Z).
Inductive ending : Type := Fell (sk : option nat) (ts : temps) | Out (x : exit).

Section tcg.
Context {D : Type} `{IoPorts D} `{TbCache}.
Context (fuel : nat) (retaddr : Z).
(** Whether jump [n] of this block is patched to another block. *)
Context (linked : Z → bool).
Implicit Types s : smmu D.

Definition ret_env (r : Z * CPUARMState) : sm D Z := λ s, Ok (Done r.1 (with_cpu r.2 s)).
Definition on_env (f : CPUARMState → Z * CPUARMState) : sm D Z := λ s, ret_env (f (cpu s)) s.
Definition void (m : sm D unit) : sm D Z := m ;;; sm_ret 0.

(** The call of a helper with the values of its arguments; a helper without
    result gives 0. *)
Definition call_helper (h : helper) (args : list Z) : sm D Z :=
  match h, args with
  | H_cpsr_read, [] => sm_get (λ s, helper_cpsr_read (cpu s))
  | H_cpsr_write, [v; m] => void (on_cpu (λ e, cpsr_write e v m))
  | H_exception, [x] => void (raise_exception x)
  | H_wfi, [] => void helper_wfi
  | H_add_cc, [a; b] => on_env (add_cc a b)
  | H_adc_cc, [a; b] => on_env (adc_cc a b)
  | H_sub_cc, [a; b] => on_env (sub_cc a b)
  | H_sbc_cc, [a; b] => on_env (sbc_cc a b)
  | H_shl, [a; b] => sm_ret (shl a b)
  | H_shr, [a; b] => sm_ret (shr a b)
  | H_sar, [a; b] => sm_ret (sar a b)
  | H_shl_cc, [a; b] => on_env (shl_cc a b)
  | H_shr_cc, [a; b] => on_env (shr_cc a b)
  | H_sar_cc, [a; b] => on_env (sar_cc a b)
  | H_ror_cc, [a; b] => on_env (ror_cc a b)
  | H_add_setq, [a; b] => on_env (add_setq a b)
  | H_add_saturate, [a; b] => on_env (add_saturate a b)
  | H_sub_saturate, [a; b] => on_env (sub_saturate a b)
  | H_double_saturate, [a] => on_env (double_saturate (s32 a))
  | H_ssat, [x; n] => on_env (ssat x n)
  | H_usat, [x; n] => on_env (usat x n)
  | H_ssat16, [x; n] => on_env (ssat16 x n)
  | H_usat16, [x; n] => on_env (usat16 x n)
  | H_usad8, [a; b] => sm_ret (usad8 a b)
  | H_sel_flags, [f; a; b] => sm_ret (sel_flags f a b)
  | H_logicq_cc, [x] => sm_ret (logicq_cc x)
  | H_clz, [x] => sm_ret (clz x)
  | H_rbit, [x] => sm_ret (rbit x)
  | H_sxtb16, [x] => sm_ret (sxtb16 x)
  | H_uxtb16, [x] => sm_ret (uxtb16 x)
  | H_parallel p i, [a; b] => sm_ret (parallel p i a b).1
  | H_parallel_ge p i, [a; b; _] =>
      on_env (λ e, let r := parallel p i a b in (r.1, e <| GE := r.2 |>))
  | H_get_user_reg, [n] => λ s, v ← get_user_reg (cpu s) n; Ok (Done v s)
  | H_set_user_reg, [n; v] => void (on_cpu (set_user_reg n v))
  | H_get_r13_banked, [m] => λ s, v ← get_r13_banked (cpu s) m; Ok (Done v s)
  | H_set_r13_banked, [m; v] => void (on_cpu (λ e, set_r13_banked e m v))
  | _, _ => sm_res (Err BadIndirectCall)
  end.

Definition get_tv (v : tcgv) (ts : temps) : sm D Z := λ s,
  match v with
  | CpuR n => r ← from_option_res OutOfBounds (regs (cpu s) !! n); Ok (Done r s)
  | CpuX x => Ok (Done (get_excl x (cpu s)) s)
  | Tmp n => r ← from_option_res (Aborted "a temporary without a value") (tvals ts !! n); Ok (Done r s)
  | Local n => r ← from_option_res (Aborted "a temporary without a value") (tlocals ts !! n); Ok (Done r s)
  end.
Definition put_tv (v : tcgv) (x : Z) (ts : temps) : sm D temps := λ s,
  match v with
  | CpuR n => if (n <? 16)%nat then Ok (Done ts (with_cpu (set_reg n x (cpu s)) s)) else Err OutOfBounds
  | CpuX f => Ok (Done ts (with_cpu (put_excl f x (cpu s)) s))
  | Tmp n => Ok (Done (mkTemps (<[n := x]> (tvals ts)) (tfns ts) (tlocals ts)) s)
  | Local n => Ok (Done (mkTemps (tvals ts) (tfns ts) (<[n := x]> (tlocals ts))) s)
  end.
Fixpoint get_tvs (vs : list tcgv) (ts : temps) : sm D (list Z) :=
  match vs with
  | [] => sm_ret []
  | v :: vs => x <-- get_tv v ts ;; xs <-- get_tvs vs ts ;; sm_ret (x :: xs)
  end.

Definition put_next (v : tcgv) (x : Z) (ts : temps) : sm D ctl :=
  ts <-- put_tv v x ts ;; sm_ret (Next ts).

Definition run_op (o : tcg_op) (ts : temps) : sm D ctl :=
  match o with
  | Op_movi r c => put_next r (u32 c) ts
  | Op1 o r a => x <-- get_tv a ts ;; put_next r (unop_sem o x) ts
  | Op2 o r a b =>
      x <-- get_tv a ts ;; y <-- get_tv b ts ;; z <-- sm_res (binop_sem o x y) ;; put_next r z ts
  | Op_movi64 r c => put_next r (u64 c) ts
  | Op1_64 o r a => x <-- get_tv a ts ;; put_next r (unop64_sem o x) ts
  | Op2_64 o r a b =>
      x <-- get_tv a ts ;; y <-- get_tv b ts ;; z <-- sm_res (binop64_sem o x y) ;; put_next r z ts
  | Op_ld r f => x <-- sm_get (λ s, get_env f (cpu s)) ;; put_next r x ts
  | Op_st a f => x <-- get_tv a ts ;; on_cpu (λ e, Ok (put_env f x e)) ;;; sm_ret (Next ts)
  | Op_env_ptr r _ => put_next r 0 ts
  | Op_movi_fn (Tmp n) h => sm_ret (Next (mkTemps (tvals ts) (<[n := h]> (tfns ts)) (tlocals ts)))
  | Op_movi_fn _ _ => sm_res (Err BadIndirectCall)
  | Op_call fn ret args =>
      xs <-- get_tvs args ts ;;
      h <-- sm_res (from_option_res BadIndirectCall
                      (match fn with Tmp n => tfns ts !! n | _ => None end)) ;;
      v <-- call_helper h xs ;;
      match ret with Some r => put_next r v ts | None => sm_ret (Next ts) end
  | Op_qemu_ld k sign r a i =>
      x <-- get_tv a ts ;; v <-- tcg_ld fuel retaddr (width k) sign x i ;; put_next r v ts
  | Op_qemu_st k v a i =>
      x <-- get_tv a ts ;; y <-- get_tv v ts ;;
      tcg_st fuel retaddr (width k) x (y mod 2 ^ (8 * width k)) i ;;; sm_ret (Next ts)
  | Op_brcond c a b l =>
      x <-- get_tv a ts ;; y <-- get_tv b ts ;;
      sm_ret (if cond_sem c x y then Jump l else Next (end_bb ts))
  | Op_br l => sm_ret (Jump l)
  | Op_set_label _ => sm_ret (Next (end_bb ts))
  | Op_goto_tb n => sm_ret (if linked n then Chained n else Next (end_bb ts))
  | Op_exit_tb v => sm_ret (Exit v)
  | Op_qemu_trace_pc pc => trace_pc pc ;;; sm_ret (Next ts)
  end.

(** Code runs forward: the translator places a label after the jumps to it.
    A jump destroys the temporaries. *)
Fixpoint run_ops (os : list tcg_op) (sk : option nat) (ts : temps) : sm D ending :=
  match os with
  | [] => sm_ret (Fell sk ts)
  | o :: os =>
      match sk with
      | Some l =>
          match o with
          | Op_set_label l' => run_ops os (if (l =? l')%nat then None else sk) (end_bb ts)
          | _ => run_ops os sk ts
          end
      | None =>
          c <-- run_op o ts ;;
          match c with
          | Next ts => run_ops os None ts
          | Jump l => run_ops os (Some l) (end_bb ts)
          | Exit v => sm_ret (Out (Left v))
          | Chained n => sm_ret (Out (Followed n))
          end
      end
  end.
End tcg.
