(* ===== verification/TcgFacts.v ===== *)
(** * Reasoning about generators

    A generator emits operations; the operations run.  [wp m Q s] says that [m]
    emits operations that take the abstract state [s] to one of [Q]: the values
    of the temporaries in use, the translator's own state, and the machine.
    Which temporaries and labels are handed out does not matter, only that they
    are fresh. *)
From S2P Require Import Prelude ArmCpu ArmMode ArmModeFacts ArmAlu ArmAluFacts PhysMem SoftMmu GuestOps Tcg.

Section wp.
Context {D : Type} `{IoPorts D} `{TbCache}.
Context (fuel : nat) (retaddr : Z) (linked : Z → bool).
(** The labels that are placed are at least [lb]. *)
Context (lb : nat).
#[local] Abbreviation run_op := (run_op fuel retaddr linked).
#[local] Abbreviation run_ops := (run_ops fuel retaddr linked).

(** Code after a jump is skipped up to the label; code after an exit, an
    exception or a fault has no effect. *)
Inductive flow : Type := Skip (l : nat) | Gone (r : res (out D exit)).
Definition final (r : res (out D exit)) : res (out D ending) :=
  match r with
  | Ok (Done x σ) => Ok (Done (Out x) σ)
  | Ok (Raised e σ) => Ok (Raised e σ)
  | Ok (Quit σ) => Ok (Quit σ)
  | Err f => Err f
  end.

(** The temporaries in use with their values where they are known; the
    translator's state and the number of labels; whether code runs; the
    machine. *)
Record ast := mkAst {
  a_vals : gmap nat (option Z);
  a_dc : DisasContext;
  a_nl : nat;
  a_sk : option flow;
  a_σ : smmu D
}.
Implicit Types s : ast.

Definition frees (g : gctx) : list nat := free_i32 g ++ free_i64 g ++ free_local g.
Record ctx_ok (g : gctx) s : Prop := {
  ok_dc : dc g = a_dc s;
  ok_nl : nb_labels g = a_nl s;
  ok_nodup : NoDup (frees g);
  ok_bound : ∀ t, t ∈ frees g → (t < nb_temps g)%nat;
  ok_used : ∀ t, is_Some (a_vals s !! t) → (t < nb_temps g)%nat ∧ t ∉ frees g
}.
Definition tmatch s (ts : temps) : Prop := ∀ t v, a_vals s !! t = Some (Some v) → tvals ts !! t = Some v.

(** The operations [os] take [s] to [s']. *)
Definition run_from (os : list tcg_op) s (ts : temps) : res (out D ending) :=
  match a_sk s with
  | None => run_ops os None ts (a_σ s)
  | Some (Skip l) => run_ops os (Some l) ts (a_σ s)
  | Some (Gone r) => final r
  end.
Definition reached s' (o : res (out D ending)) : Prop :=
  match a_sk s' with
  | None => ∃ ts', o = Ok (Done (Fell None ts') (a_σ s')) ∧ tmatch s' ts'
  | Some (Skip l) => ∃ ts', o = Ok (Done (Fell (Some l) ts') (a_σ s')) ∧ tmatch s' ts'
  | Some (Gone r) => o = final r
  end.
Definition runs_to (os : list tcg_op) s s' : Prop := ∀ ts, tmatch s ts → reached s' (run_from os s ts).
Definition fresh_labels (os : list tcg_op) : Prop := ∀ l, Op_set_label l ∈ os → (lb ≤ l)%nat.

Definition gives {A} (r : res (option A * gctx)) (Q : A → ast → Prop) g s : Prop :=
  ∃ a g' os s', r = Ok (Some a, g') ∧ gen_opc_buf g' = gen_opc_buf g ++ os ∧ ctx_ok g' s' ∧
    fresh_labels os ∧ runs_to os s s' ∧ Q a s'.
(** That the temporaries suffice is shown apart, in [TcgSafe]. *)
Definition wp {A} (m : gen A) (Q : A → ast → Prop) s : Prop := ∀ g, ctx_ok g s →
  m g = Err temps_exhausted ∨ gives (m g) Q g s.

(** ** Structure *)
(** Operations after others: where these fell through, they run. *)
Definition after (os : list tcg_op) (o : res (out D ending)) : res (out D ending) :=
  match o with Ok (Done (Fell sk ts) σ) => run_ops os sk ts σ | _ => o end.
Lemma run_ops_app os1 os2 sk ts σ : run_ops (os1 ++ os2) sk ts σ = after os2 (run_ops os1 sk ts σ).
Proof.
  revert sk ts σ. induction os1 as [|o os1 IH]; intros sk ts σ; [done|].
  cbn [app]. destruct sk as [l|].
  - cbn. destruct o; apply IH.
  - cbn [Tcg.run_ops]. unfold sm_bind. destruct (run_op o ts σ) as [[c s|x s|s]|f]; [|done..].
    cbn. destruct c; [apply IH..|done|done].
Qed.
Lemma after_final os r : after os (final r) = final r.
Proof. by destruct r as [[]|]. Qed.

Lemma runs_same s s' : a_sk s' = a_sk s → a_σ s' = a_σ s → (∀ ts, tmatch s ts → tmatch s' ts) → runs_to [] s s'.
Proof. intros E Eσ Hts ts Hm. unfold run_from, reached. rewrite E, Eσ. destruct (a_sk s) as [[l|r]|]; eauto. Qed.
Lemma runs_nil s : runs_to [] s s.
Proof. by apply runs_same. Qed.
Lemma runs_app os1 os2 s1 s2 s3 : runs_to os1 s1 s2 → runs_to os2 s2 s3 → runs_to (os1 ++ os2) s1 s3.
Proof.
  intros H1 H2 ts Hm. specialize (H1 ts Hm).
  assert (run_from (os1 ++ os2) s1 ts = after os2 (run_from os1 s1 ts)) as ->.
  { unfold run_from. destruct (a_sk s1) as [[l|r]|]; [apply run_ops_app|by rewrite after_final|apply run_ops_app]. }
  unfold reached in H1. destruct (a_sk s2) as [[l|r]|] eqn:E2.
  - destruct H1 as (ts' & -> & Hm'). specialize (H2 ts' Hm'). unfold run_from in H2. by rewrite E2 in H2.
  - rewrite H1, after_final. assert (∃ ts', tmatch s2 ts') as [ts' Hm'].
    { exists (mkTemps (omap id (a_vals s2)) ∅ ∅). intros t v Ht. cbn. by rewrite lookup_omap, Ht. }
    specialize (H2 ts' Hm'). unfold run_from in H2. by rewrite E2 in H2.
  - destruct H1 as (ts' & -> & Hm'). specialize (H2 ts' Hm'). unfold run_from in H2. by rewrite E2 in H2.
Qed.
(** While code runs. *)
Lemma runs_intro os s s' : a_sk s = None → a_sk s' = None →
  (∀ ts, tmatch s ts → ∃ ts', run_ops os None ts (a_σ s) = Ok (Done (Fell None ts') (a_σ s')) ∧ tmatch s' ts') →
  runs_to os s s'.
Proof. intros E E' Hr ts Hm. unfold run_from, reached. rewrite E, E'. by apply Hr. Qed.

Lemma wp_ret {A} (a : A) Q s : Q a s → wp (mret a) Q s.
Proof.
  intros HQ g Hg. right. exists a, g, [], s. rewrite app_nil_r. split_and!; try done.
  - by intros l ?%elem_of_nil.
  - apply runs_nil.
Qed.
Lemma wp_bind {A B} (m : gen A) (k : A → gen B) Q s : wp m (λ a, wp (k a) Q) s → wp (m ≫= k) Q s.
Proof.
  intros Hm g Hg. unfold mbind, gen_bind.
  destruct (Hm g Hg) as [->|(a & g1 & o1 & s1 & E1 & B1 & K1 & L1 & R1 & Hk)]; [by left|]. rewrite E1. cbn.
  destruct (Hk g1 K1) as [->|(b & g2 & o2 & s2 & E2 & B2 & K2 & L2 & R2 & HQ)]; [by left|right].
  exists b, g2, (o1 ++ o2), s2. split_and!; try done.
  - by rewrite B2, B1, app_assoc.
  - intros l [Hl|Hl]%elem_of_app; [by apply L1|by apply L2].
  - by apply (runs_app _ _ s s1 s2).
Qed.
Lemma wp_mono {A} (m : gen A) (Q Q' : A → ast → Prop) s : wp m Q s → (∀ a s', Q a s' → Q' a s') → wp m Q' s.
Proof.
  intros Hm HQ g Hg. destruct (Hm g Hg) as [?|(a & g' & os & s' & ? & ? & ? & ? & ? & ?)]; [by left|right]. exists a, g', os, s'. eauto 8.
Qed.

(** ** Temporaries *)
Definition with_vals (v : gmap nat (option Z)) s : ast := mkAst v (a_dc s) (a_nl s) (a_sk s) (a_σ s).

Lemma ctx_ok_new g s t : ctx_ok g s → a_vals s !! t = None → t ∉ frees g → (t < nb_temps g)%nat → ∀ v,
  ctx_ok g (with_vals (<[t := v]> (a_vals s)) s).
Proof.
  intros [? ? ? ? Hu] Hn Hf Hb v. split; try done. cbn. intros t' Ht'.
  destruct (decide (t' = t)) as [->|]; [done|]. rewrite lookup_insert_ne in Ht' by done. by apply Hu.
Qed.

Lemma wp_new (new : gen tcgv) Q s :
  (∀ g, ctx_ok g s → new g = Err temps_exhausted ∨ ∃ t g', new g = Ok (Some (Tmp t), g') ∧ gen_opc_buf g' = gen_opc_buf g ∧
     a_vals s !! t = None ∧ ctx_ok g' (with_vals (<[t := None]> (a_vals s)) s)) →
  (∀ t, a_vals s !! t = None → Q (Tmp t) (with_vals (<[t := None]> (a_vals s)) s)) → wp new Q s.
Proof.
  intros Hnew HQ g Hg. destruct (Hnew g Hg) as [?|(t & g' & E & B & Hn & Hok)]; [by left|right].
  exists (Tmp t), g', [], (with_vals (<[t := None]> (a_vals s)) s). rewrite app_nil_r. split_and!; try done.
  - by intros l ?%elem_of_nil.
  - apply runs_same; [done..|]. intros ts Hm t' v. cbn.
    destruct (decide (t' = t)) as [->|]; [by rewrite lookup_insert_eq|]. rewrite lookup_insert_ne by done. apply Hm.
  - by apply HQ.
Qed.

Lemma used_None g s t : ctx_ok g s → t ∈ frees g ∨ (nb_temps g ≤ t)%nat → a_vals s !! t = None.
Proof.
  intros Hg Ht. destruct (a_vals s !! t) eqn:E; [|done]. destruct (ok_used g s Hg t) as [? ?]; [by rewrite E|].
  destruct Ht as [?|?]; [done|lia].
Qed.

(** A temporary popped off one of the stacks, or a new one. *)
Lemma ctx_ok_take g g' s t : ctx_ok g s → dc g' = dc g → nb_labels g' = nb_labels g → nb_temps g' = nb_temps g →
  frees g ≡ₚ t :: frees g' → a_vals s !! t = None ∧ ctx_ok g' (with_vals (<[t := None]> (a_vals s)) s).
Proof.
  intros Hg Hd Hl Hn Hp. pose proof Hg as [? ? Hnd Hb Hu].
  assert (t ∈ frees g) as Ht by (rewrite Hp; by left).
  assert (NoDup (t :: frees g')) as [Hnot Hnd']%NoDup_cons by (by rewrite <- Hp).
  split; [apply (used_None g s t); [done|by left]|]. split; cbn; try congruence; try done.
  - intros t' Ht'. rewrite Hn. apply Hb. rewrite Hp. by right.
  - intros t' Ht'. rewrite Hn. destruct (decide (t' = t)) as [->|Hne]; [split; [by apply Hb|done]|].
    rewrite lookup_insert_ne in Ht' by done. destruct (Hu t' Ht') as [? Hf]. split; [done|].
    intros Hin. apply Hf. rewrite Hp. by right.
Qed.
Lemma ctx_ok_grow g s : ctx_ok g s → a_vals s !! nb_temps g = None ∧
  ctx_ok (g <| nb_temps := S (nb_temps g) |>) (with_vals (<[nb_temps g := None]> (a_vals s)) s).
Proof.
  intros Hg. pose proof Hg as [? ? Hnd Hb Hu].
  assert (a_vals s !! nb_temps g = None) as Hn by (apply (used_None g s); [done|by right]).
  split; [done|]. split; try done.
  - cbn. intros t Ht. apply Hb in Ht. lia.
  - cbn. intros t Ht. destruct (decide (t = nb_temps g)) as [->|].
    + split; [lia|]. intros Hin. apply Hb in Hin. lia.
    + rewrite lookup_insert_ne in Ht by done. destruct (Hu t Ht). split; [lia|done].
Qed.

Lemma wp_new_i32 Q s :
  (∀ t, a_vals s !! t = None → Q (Tmp t) (with_vals (<[t := None]> (a_vals s)) s)) → wp tcg_temp_new_i32 Q s.
Proof.
  apply wp_new. intros g Hg. unfold tcg_temp_new_i32, tcg_temp_more. destruct (free_i32 g) as [|t l] eqn:E.
  - destruct (_ <? _)%nat; [by left|right]. destruct (ctx_ok_grow g s Hg). eexists _, _. by split_and!.
  - right. eexists t, _. split; [done|]. split; [done|]. apply (ctx_ok_take g); try done.
    unfold frees. rewrite E. cbn. done.
Qed.
Lemma wp_new_i64 Q s :
  (∀ t, a_vals s !! t = None → Q (Tmp t) (with_vals (<[t := None]> (a_vals s)) s)) → wp tcg_temp_new_i64 Q s.
Proof.
  apply wp_new. intros g Hg. unfold tcg_temp_new_i64, tcg_temp_more. destruct (free_i64 g) as [|t l] eqn:E.
  - destruct (_ <? _)%nat; [by left|right]. destruct (ctx_ok_grow g s Hg). eexists _, _. by split_and!.
  - right. eexists t, _. split; [done|]. split; [done|]. apply (ctx_ok_take g); try done.
    unfold frees. rewrite E. cbn. by rewrite <- Permutation_middle.
Qed.

Lemma may_free_used g s t : ctx_ok g s → is_Some (a_vals s !! t) → may_free t g = true.
Proof.
  intros Hg Ht. destruct (ok_used g s Hg t Ht) as [Hb Hf]. unfold frees in Hf. rewrite !elem_of_app in Hf.
  unfold may_free. rewrite !bool_decide_eq_true_2; [done|tauto..].
Qed.
Lemma wp_free (free : tcgv → gen unit) t Q s :
  (∀ g, may_free t g = true → ∃ g', free (Tmp t) g = Ok (Some tt, g') ∧ gen_opc_buf g' = gen_opc_buf g ∧
     dc g' = dc g ∧ nb_labels g' = nb_labels g ∧ nb_temps g' = nb_temps g ∧ frees g' ≡ₚ t :: frees g) →
  is_Some (a_vals s !! t) → Q tt (with_vals (delete t (a_vals s)) s) → wp (free (Tmp t)) Q s.
Proof.
  intros Hfree Ht HQ g Hg. right. destruct (Hfree g (may_free_used g s t Hg Ht)) as (g' & E & B & Ed & El & En & Hp).
  exists tt, g', [], (with_vals (delete t (a_vals s)) s). rewrite app_nil_r.
  destruct (ok_used g s Hg t Ht) as [Hb Hnf]. pose proof Hg as [? ? Hnd Hbs Hu].
  split_and!; try done; [|by intros l ?%elem_of_nil|].
  - split; cbn; [congruence|congruence| | |].
    + rewrite Hp. by apply NoDup_cons.
    + intros t' Ht'. rewrite En. rewrite Hp in Ht'. apply elem_of_cons in Ht' as [->|?]; [done|by apply Hbs].
    + intros t' Ht'. destruct (decide (t' = t)) as [->|Hne]; [by rewrite lookup_delete_eq in Ht'; destruct Ht'|].
      rewrite lookup_delete_ne in Ht' by done. destruct (Hu t' Ht'). rewrite En. split; [done|].
      rewrite Hp. by apply not_elem_of_cons.
  - apply runs_same; [done..|]. intros ts Hm t' v. cbn. intros [_ Hv]%lookup_delete_Some. by apply Hm.
Qed.
Lemma wp_free_i32 t Q s : is_Some (a_vals s !! t) → Q tt (with_vals (delete t (a_vals s)) s) →
  wp (tcg_temp_free_i32 (Tmp t)) Q s.
Proof.
  apply wp_free. intros g Hm. eexists. unfold tcg_temp_free_i32. rewrite Hm. by split_and!.
Qed.
Lemma wp_free_i64 t Q s : is_Some (a_vals s !! t) → Q tt (with_vals (delete t (a_vals s)) s) →
  wp (tcg_temp_free_i64 (Tmp t)) Q s.
Proof.
  apply wp_free. intros g Hm. eexists. unfold tcg_temp_free_i64. rewrite Hm. split_and!; try done.
  unfold frees. cbn. by rewrite <- Permutation_middle.
Qed.

(** ** Values *)
Definition with_σ (σ : smmu D) s : ast := mkAst (a_vals s) (a_dc s) (a_nl s) (a_sk s) σ.
Definition with_env (e : CPUARMState) s : ast := with_σ (with_cpu e (a_σ s)) s.
Definition a_env s : CPUARMState := cpu (a_σ s).

Definition aval s (v : tcgv) : option Z :=
  match v with
  | CpuR n => regs (a_env s) !! n
  | CpuX x => Some (get_excl x (a_env s))
  | Tmp t => a_vals s !! t ≫= id
  | Local _ => None
  end.
Definition aset (v : tcgv) (x : Z) s : ast :=
  match v with
  | CpuR n => with_env (set_reg n x (a_env s)) s
  | CpuX f => with_env (put_excl f x (a_env s)) s
  | Tmp t => with_vals (<[t := Some x]> (a_vals s)) s
  | Local _ => s
  end.
Definition writable s (v : tcgv) : Prop :=
  match v with
  | CpuR n => (n < 16)%nat | CpuX _ => True | Tmp t => is_Some (a_vals s !! t) | Local _ => False
  end.

Lemma get_tv_ok s ts v x : tmatch s ts → aval s v = Some x → get_tv v ts (a_σ s) = Ok (Done x (a_σ s)).
Proof.
  intros Hm. destruct v as [n|f|t|t]; cbn; [|by intros [= <-]| |done].
  - unfold a_env. by intros ->.
  - intros Hv. destruct (a_vals s !! t) as [[y|]|] eqn:E; [|done..]. cbn in Hv. injection Hv as ->.
    by rewrite (Hm t x E).
Qed.
Lemma put_tv_ok s ts v x σ : tmatch s ts → writable s v →
  ∃ ts', put_tv v x ts σ = Ok (Done ts' (a_σ (aset v x (with_σ σ s)))) ∧ tmatch (aset v x (with_σ σ s)) ts'.
Proof.
  intros Hm Hw. destruct v as [n|f|t|t]; cbn [put_tv aset writable] in *; [| | |done].
  - rewrite (proj2 (Nat.ltb_lt _ _) Hw). by exists ts.
  - by exists ts.
  - eexists. split; [done|]. intros t' v. cbn. destruct (decide (t' = t)) as [->|].
    + rewrite !lookup_insert_eq. congruence.
    + rewrite !lookup_insert_ne by done. apply Hm.
Qed.
Lemma with_σ_id s : with_σ (a_σ s) s = s.
Proof. by destruct s. Qed.
Lemma with_vals_id s : with_vals (a_vals s) s = s.
Proof. by destruct s. Qed.

(** ** Operations *)
Lemma wp_emit o Q s s' : (∀ l, o ≠ Op_set_label l) → a_dc s' = a_dc s → a_nl s' = a_nl s →
  (∀ t, is_Some (a_vals s' !! t) → is_Some (a_vals s !! t)) → runs_to [o] s s' → Q tt s' → wp (emit o) Q s.
Proof.
  intros Ho Hd Hl Hv Hr HQ g Hg. right. exists tt, (g <| gen_opc_buf := gen_opc_buf g ++ [o] |>), [o], s'.
  split_and!; try done.
  - destruct Hg as [? ? ? ? Hu]. split; cbn; try congruence; try done. intros t Ht. by apply Hu, Hv.
  - intros l Hl'%list_elem_of_singleton. symmetry in Hl'. by apply Ho in Hl'.
Qed.
Lemma aset_used s v x t : writable s v → is_Some (a_vals (aset v x s) !! t) → is_Some (a_vals s !! t).
Proof.
  destruct v as [n|f|t'|t']; cbn; try done. intros Hw. destruct (decide (t' = t)) as [->|]; [done|].
  by rewrite lookup_insert_ne.
Qed.
Lemma aset_dc s v x : a_dc (aset v x s) = a_dc s.
Proof. by destruct v. Qed.
Lemma aset_nl s v x : a_nl (aset v x s) = a_nl s.
Proof. by destruct v. Qed.
Lemma aset_sk s v x : a_sk (aset v x s) = a_sk s.
Proof. by destruct v. Qed.

(** An operation that computes [x] to [v], with the machine left in [σ]. *)
Lemma wp_emit_set o v x σ Q s : (∀ l, o ≠ Op_set_label l) → a_sk s = None → writable s v →
  (∀ ts, tmatch s ts → run_op o ts (a_σ s) = put_next v x ts σ) →
  Q tt (aset v x (with_σ σ s)) → wp (emit o) Q s.
Proof.
  intros Ho Hsk Hw Hr HQ. apply (wp_emit o Q s (aset v x (with_σ σ s))); try done.
  - by rewrite aset_dc.
  - by rewrite aset_nl.
  - intros t. by apply (aset_used (with_σ σ s)).
  - apply runs_intro; [done|by rewrite aset_sk|]. intros ts Hm. cbn [Tcg.run_ops]. unfold sm_bind at 1. rewrite (Hr ts Hm).
    destruct (put_tv_ok s ts v x σ Hm Hw) as (ts' & E & Hm'). unfold put_next, sm_bind. rewrite E. cbn.
    by exists ts'.
Qed.

Lemma wp_movi v c Q s : a_sk s = None → writable s v → Q tt (aset v (u32 c) s) → wp (emit (Op_movi v c)) Q s.
Proof. intros. by apply (wp_emit_set _ v (u32 c) (a_σ s)); try done; rewrite with_σ_id. Qed.
Lemma wp_movi64 v c Q s : a_sk s = None → writable s v → Q tt (aset v (u64 c) s) → wp (emit (Op_movi64 v c)) Q s.
Proof. intros. by apply (wp_emit_set _ v (u64 c) (a_σ s)); try done; rewrite with_σ_id. Qed.

Lemma bind_done {A B} (m : sm D A) (k : A → sm D B) σ a σ' : m σ = Ok (Done a σ') → sm_bind m k σ = k a σ'.
Proof. unfold sm_bind. by intros ->. Qed.

Lemma wp_op1 o r a x Q s : a_sk s = None → aval s a = Some x → writable s r →
  Q tt (aset r (unop_sem o x) s) → wp (emit (Op1 o r a)) Q s.
Proof.
  intros Hsk Ha Hr HQ. apply (wp_emit_set _ r (unop_sem o x) (a_σ s)); try done; [|by rewrite with_σ_id].
  intros ts Hm. cbn [Tcg.run_op]. by rewrite (bind_done _ _ _ _ _ (get_tv_ok s ts a x Hm Ha)).
Qed.
Lemma wp_op1_64 o r a x Q s : a_sk s = None → aval s a = Some x → writable s r →
  Q tt (aset r (unop64_sem o x) s) → wp (emit (Op1_64 o r a)) Q s.
Proof.
  intros Hsk Ha Hr HQ. apply (wp_emit_set _ r (unop64_sem o x) (a_σ s)); try done; [|by rewrite with_σ_id].
  intros ts Hm. cbn [Tcg.run_op]. by rewrite (bind_done _ _ _ _ _ (get_tv_ok s ts a x Hm Ha)).
Qed.
Lemma wp_op2 o r a b x y z Q s : a_sk s = None → aval s a = Some x → aval s b = Some y → binop_sem o x y = Ok z →
  writable s r → Q tt (aset r z s) → wp (emit (Op2 o r a b)) Q s.
Proof.
  intros Hsk Ha Hb Ho Hr HQ. apply (wp_emit_set _ r z (a_σ s)); try done; [|by rewrite with_σ_id].
  intros ts Hm. cbn [Tcg.run_op]. rewrite (bind_done _ _ _ _ _ (get_tv_ok s ts a x Hm Ha)).
  rewrite (bind_done _ _ _ _ _ (get_tv_ok s ts b y Hm Hb)), Ho. done.
Qed.
Lemma wp_op2_64 o r a b x y z Q s : a_sk s = None → aval s a = Some x → aval s b = Some y →
  binop64_sem o x y = Ok z → writable s r → Q tt (aset r z s) → wp (emit (Op2_64 o r a b)) Q s.
Proof.
  intros Hsk Ha Hb Ho Hr HQ. apply (wp_emit_set _ r z (a_σ s)); try done; [|by rewrite with_σ_id].
  intros ts Hm. cbn [Tcg.run_op]. rewrite (bind_done _ _ _ _ _ (get_tv_ok s ts a x Hm Ha)).
  rewrite (bind_done _ _ _ _ _ (get_tv_ok s ts b y Hm Hb)), Ho. done.
Qed.
Lemma wp_ld r f Q s : a_sk s = None → writable s r → Q tt (aset r (get_env f (a_env s)) s) →
  wp (tcg_gen_ld_i32 r f) Q s.
Proof. intros. by apply (wp_emit_set _ r (get_env f (a_env s)) (a_σ s)); try done; rewrite with_σ_id. Qed.

(** An operation that only changes the machine. *)
Lemma wp_emit_σ o σ Q s : (∀ l, o ≠ Op_set_label l) → a_sk s = None →
  (∀ ts, tmatch s ts → run_op o ts (a_σ s) = Ok (Done (Next ts) σ)) → Q tt (with_σ σ s) → wp (emit o) Q s.
Proof.
  intros Ho Hsk Hr HQ. apply (wp_emit o Q s (with_σ σ s)); try done.
  apply runs_intro; [done..|]. intros ts Hm. exists ts. split; [|done].
  cbn [Tcg.run_ops]. unfold sm_bind at 1. by rewrite (Hr ts Hm).
Qed.
Lemma wp_st a f x Q s : a_sk s = None → aval s a = Some x → Q tt (with_env (put_env f x (a_env s)) s) →
  wp (tcg_gen_st_i32 a f) Q s.
Proof.
  intros Hsk Ha HQ. apply (wp_emit_σ _ (with_cpu (put_env f x (a_env s)) (a_σ s))); try done.
  intros ts Hm. cbn [Tcg.run_op]. by rewrite (bind_done _ _ _ _ _ (get_tv_ok s ts a x Hm Ha)).
Qed.

(** *** Constants, moves and operations with constants *)
Lemma u32_s32 c : u32 (s32 c) = u32 c.
Proof. exact (sext_mod 32 eq_refl c). Qed.
Lemma s32_zero c : (s32 c =? 0) = (u32 c =? 0).
Proof.
  apply eq_true_iff_eq. rewrite !Z.eqb_eq. split; intros Hz.
  - by rewrite <- u32_s32, Hz.
  - unfold s32, sext. fold (u32 c). by rewrite Hz.
Qed.

Lemma set_reg_id n x (e : CPUARMState) : regs e !! n = Some x → set_reg n x e = e.
Proof. intros Hx. unfold set_reg. rewrite list_insert_id by done. by destruct e. Qed.
Lemma aset_id s v x : aval s v = Some x → aset v x s = s.
Proof.
  destruct v as [n|f|t|t]; cbn; intros Hv; [| | |done].
  - rewrite set_reg_id by done. by destruct s as [? ? ? ? []].
  - injection Hv as <-. destruct s as [? ? ? ? [[]]]. by destruct f.
  - destruct (a_vals s !! t) as [[y|]|] eqn:E; [|done..]. injection Hv as ->. rewrite insert_id by done.
    apply with_vals_id.
Qed.

Lemma wp_mov r a x Q s : a_sk s = None → aval s a = Some x → is_u32 x → writable s r → Q tt (aset r x s) →
  wp (tcg_gen_mov_i32 r a) Q s.
Proof.
  intros Hsk Ha Hx Hr HQ. unfold tcg_gen_mov_i32. case_bool_decide as Heq.
  - subst r. rewrite (aset_id s a x) in HQ by done. by apply wp_ret.
  - apply (wp_op1 _ _ _ x); try done. cbn. by rewrite u32_small.
Qed.
Lemma wp_trunc r a x Q s : a_sk s = None → aval s a = Some x → writable s r → r ≠ a → Q tt (aset r (u32 x) s) →
  wp (tcg_gen_trunc_i64_i32 r a) Q s.
Proof.
  intros Hsk Ha Hr Hne HQ. unfold tcg_gen_trunc_i64_i32, tcg_gen_mov_i32. rewrite bool_decide_eq_false_2 by done.
  by apply (wp_op1 _ _ _ x).
Qed.

(** A temporary that holds a constant for one operation leaves no trace. *)
Lemma fresh_twice s t v x : a_vals s !! t = None →
  with_vals (delete t (<[t := v]> (a_vals s))) (with_vals x s) = s.
Proof. intros Ht. rewrite delete_insert_id by done. by destruct s. Qed.
Lemma aval_fresh s t v x a y : a_vals s !! t = None → aval s a = Some y →
  aval (with_vals (<[t := v]> (a_vals s)) (with_vals x s)) a = Some y.
Proof.
  intros Ht. destruct a as [n|f|t'|t']; cbn; try done. destruct (decide (t' = t)) as [->|].
  - by rewrite Ht.
  - by rewrite lookup_insert_ne.
Qed.
Lemma aval_not_fresh s t a y : a_vals s !! t = None → aval s a = Some y → a ≠ Tmp t.
Proof. intros Ht Ha ->. cbn in Ha. by rewrite Ht in Ha. Qed.
Lemma writable_not_fresh s t a : a_vals s !! t = None → writable s a → a ≠ Tmp t.
Proof. intros Ht Ha ->. cbn in Ha. rewrite Ht in Ha. by destruct Ha. Qed.
Lemma writable_fresh s t v x a : a_vals s !! t = None → writable s a →
  writable (with_vals (<[t := v]> (a_vals s)) (with_vals x s)) a.
Proof.
  intros Ht Ha. pose proof (writable_not_fresh s t a Ht Ha). destruct a as [n|f|t'|t']; cbn; try done.
  rewrite lookup_insert_ne by congruence. done.
Qed.
(** Setting [r] while the fresh [t] is in use, and then giving [t] back. *)
Lemma aset_fresh s t v r z : a_vals s !! t = None → writable s r →
  let s' := with_vals (<[t := v]> (a_vals s)) s in
  with_vals (delete t (a_vals (aset r z s'))) (aset r z s') = aset r z s ∧ is_Some (a_vals (aset r z s') !! t).
Proof.
  intros Ht Hr. pose proof (writable_not_fresh s t r Ht Hr). destruct r as [n|f|t'|t']; cbn in *.
  - rewrite delete_insert_id by done. split; [by destruct s|]. by rewrite lookup_insert_eq.
  - rewrite delete_insert_id by done. split; [by destruct s|]. by rewrite lookup_insert_eq.
  - split.
    + rewrite delete_insert_ne, delete_insert_id by (done || congruence). by destruct s.
    + rewrite lookup_insert_ne by congruence. by rewrite lookup_insert_eq.
  - done.
Qed.

Ltac fold_vals := repeat match goal with
  | |- context [with_vals ?v (with_vals ?w ?s)] => change (with_vals v (with_vals w s)) with (with_vals v s)
  end.

Lemma wp_const c Q s : a_sk s = None →
  (∀ t, a_vals s !! t = None → Q (Tmp t) (with_vals (<[t := Some (u32 c)]> (a_vals s)) s)) →
  wp (tcg_const_i32 c) Q s.
Proof.
  intros Hsk HQ. apply wp_bind, wp_new_i32. intros t Ht. apply wp_bind, wp_movi; [done| |].
  - cbn. by rewrite lookup_insert_eq.
  - apply wp_ret. cbn. rewrite u32_s32, insert_insert_eq. by apply HQ.
Qed.
Lemma wp_const64 c Q s : a_sk s = None → 
  (∀ t, a_vals s !! t = None → Q (Tmp t) (with_vals (<[t := Some (u64 c)]> (a_vals s)) s)) →
  wp (tcg_const_i64 c) Q s.
Proof.
  intros Hsk HQ. apply wp_bind, wp_new_i64. intros t Ht. apply wp_bind, wp_movi64; [done| |].
  - cbn. by rewrite lookup_insert_eq.
  - apply wp_ret. cbn. rewrite insert_insert_eq. by apply HQ.
Qed.

(** The operation [op] computes [f] of its operands. *)
Definition computes (op : tcgv → tcgv → tcgv → gen unit) (f : Z → Z → res Z) : Prop := ∀ r a b x y z Q s,
  a_sk s = None → aval s a = Some x → aval s b = Some y → is_u32 x → is_u32 y → f x y = Ok z → writable s r →
  Q tt (aset r z s) → wp (op r a b) Q s.
Lemma wp_with_const op f r a c x z Q s : computes op f → a_sk s = None → aval s a = Some x → is_u32 x →
  f x (u32 c) = Ok z → writable s r → Q tt (aset r z s) → wp (with_const op r a c) Q s.
Proof.
  intros Hop Hsk Ha Hx Hf Hr HQ. apply wp_bind, wp_const; [done|]. intros t Ht. apply wp_bind.
  destruct (aset_fresh s t (Some (u32 c)) r z Ht Hr) as [Heq Hin].
  apply (Hop r a (Tmp t) x (u32 c) z); try done.
  - exact (aval_fresh s t _ (a_vals s) a x Ht Ha).
  - cbn. by rewrite lookup_insert_eq.
  - apply u32_bound.
  - exact (writable_fresh s t _ (a_vals s) r Ht Hr).
  - apply wp_free_i32; [done|]. by rewrite Heq.
Qed.

Lemma computes_emit o : computes (λ r a b, emit (Op2 o r a b)) (binop_sem o).
Proof. intros r a b x y z Q s ? ? ? _ _ ? ? ?. by apply (wp_op2 o r a b x y z). Qed.
Lemma aval_same s a b x y : aval s a = Some x → aval s b = Some y → a = b → x = y.
Proof. intros Ha Hb ->. congruence. Qed.
Lemma computes_and : computes tcg_gen_and_i32 (binop_sem O_and).
Proof.
  intros r a b x y z Q s ? Ha Hb Hx ? Hz ? ?. unfold tcg_gen_and_i32. case_bool_decide.
  - injection Hz as <-. rewrite <- (aval_same s a b x y), Z.land_diag in * by done. by apply (wp_mov _ _ x).
  - by apply (wp_op2 _ _ _ _ x y z).
Qed.
Lemma computes_or : computes tcg_gen_or_i32 (binop_sem O_or).
Proof.
  intros r a b x y z Q s ? Ha Hb Hx ? Hz ? ?. unfold tcg_gen_or_i32. case_bool_decide.
  - injection Hz as <-. rewrite <- (aval_same s a b x y), Z.lor_diag in * by done. by apply (wp_mov _ _ x).
  - by apply (wp_op2 _ _ _ _ x y z).
Qed.
Lemma computes_xor : computes tcg_gen_xor_i32 (binop_sem O_xor).
Proof.
  intros r a b x y z Q s ? Ha Hb Hx ? Hz ? HQ. unfold tcg_gen_xor_i32. case_bool_decide.
  - injection Hz as <-. rewrite <- (aval_same s a b x y), Z.lxor_nilpotent in HQ by done. by apply wp_movi.
  - by apply (wp_op2 _ _ _ _ x y z).
Qed.

Lemma wp_addi r a c x Q s : a_sk s = None → aval s a = Some x → is_u32 x → writable s r →
  Q tt (aset r (u32 (x + c)) s) → wp (tcg_gen_addi_i32 r a c) Q s.
Proof.
  intros ? ? ? ? HQ. unfold tcg_gen_addi_i32. rewrite s32_zero. destruct (Z.eqb_spec (u32 c) 0) as [E|E].
  - apply (wp_mov _ _ x); try done. unfold u32 in *. rewrite Z.add_mod, E, Z.add_0_r, Z.mod_mod in HQ by done.
    fold (u32 x) in HQ. by rewrite u32_small in HQ.
  - apply (wp_with_const _ _ _ _ c x (u32 (x + c)) _ _ (computes_emit O_add)); try done.
    cbn. f_equal. unfold u32. by rewrite Z.add_mod_idemp_r.
Qed.
Lemma wp_subi r a c x Q s : a_sk s = None → aval s a = Some x → is_u32 x → writable s r →
  Q tt (aset r (u32 (x - c)) s) → wp (tcg_gen_subi_i32 r a c) Q s.
Proof.
  intros ? ? ? ? HQ. unfold tcg_gen_subi_i32. rewrite s32_zero. destruct (Z.eqb_spec (u32 c) 0) as [E|E].
  - apply (wp_mov _ _ x); try done. unfold u32 in *. rewrite Zminus_mod, E, Z.sub_0_r, Z.mod_mod in HQ by done.
    fold (u32 x) in HQ. by rewrite u32_small in HQ.
  - apply (wp_with_const _ _ _ _ c x (u32 (x - c)) _ _ (computes_emit O_sub)); try done.
    cbn. f_equal. unfold u32. by rewrite Zminus_mod_idemp_r.
Qed.
Lemma land_u32_all x : is_u32 x → x .& 0xffffffff = x.
Proof. intros. change 0xffffffff with (Z.ones 32). rewrite Z.land_ones by lia. by apply u32_small. Qed.
Lemma lor_u32_all x : is_u32 x → x .| 0xffffffff = 0xffffffff.
Proof.
  intros [? ?]. change 0xffffffff with (Z.ones 32). apply Z.lor_ones_low; [done|].
  destruct (decide (x = 0)) as [->|]; [cbn; lia|]. apply Z.log2_lt_pow2; lia.
Qed.
Lemma wp_andi r a c x Q s : a_sk s = None → aval s a = Some x → is_u32 x → writable s r →
  Q tt (aset r (x .& u32 c) s) → wp (tcg_gen_andi_i32 r a c) Q s.
Proof.
  intros ? ? ? ? HQ. unfold tcg_gen_andi_i32. rewrite s32_zero. destruct (Z.eqb_spec (u32 c) 0) as [E|E].
  - rewrite E, Z.land_0_r in HQ. by apply wp_movi.
  - destruct (Z.eqb_spec (u32 c) 0xffffffff) as [E'|_].
    + rewrite E', land_u32_all in HQ by done. by apply (wp_mov _ _ x).
    + by apply (wp_with_const _ _ _ _ c x (x .& u32 c) _ _ computes_and).
Qed.
Lemma wp_ori r a c x Q s : a_sk s = None → aval s a = Some x → is_u32 x → writable s r →
  Q tt (aset r (x .| u32 c) s) → wp (tcg_gen_ori_i32 r a c) Q s.
Proof.
  intros ? ? ? ? HQ. unfold tcg_gen_ori_i32. rewrite s32_zero. destruct (Z.eqb_spec (u32 c) 0xffffffff) as [E|E].
  - rewrite E, lor_u32_all in HQ by done. by apply wp_movi.
  - destruct (Z.eqb_spec (u32 c) 0) as [E'|_].
    + rewrite E', Z.lor_0_r in HQ. by apply (wp_mov _ _ x).
    + by apply (wp_with_const _ _ _ _ c x (x .| u32 c) _ _ computes_or).
Qed.
Lemma wp_xori r a c x Q s : a_sk s = None → aval s a = Some x → is_u32 x → writable s r →
  Q tt (aset r (x .^ u32 c) s) → wp (tcg_gen_xori_i32 r a c) Q s.
Proof.
  intros ? ? ? ? HQ. unfold tcg_gen_xori_i32. rewrite s32_zero. destruct (Z.eqb_spec (u32 c) 0) as [E|_].
  - rewrite E, Z.lxor_0_r in HQ. by apply (wp_mov _ _ x).
  - by apply (wp_with_const _ _ _ _ c x (x .^ u32 c) _ _ computes_xor).
Qed.

Lemma shift_sem_ok w f n : 0 ≤ n < w → shift_sem w f n = Ok (f n).
Proof. intros. unfold shift_sem. by rewrite (proj2 (Z.leb_le _ _)), (proj2 (Z.ltb_lt _ _)) by lia. Qed.
(** A shift by a constant; by 0 it is a move. *)
Lemma wp_shift_const o f r a c x Q s : (∀ y n, binop_sem o y n = shift_sem 32 (f y) n) → a_sk s = None →
  aval s a = Some x → is_u32 x → writable s r → 0 ≤ c < 32 → f x 0 = x → Q tt (aset r (f x c) s) →
  wp (if s32 c =? 0 then tcg_gen_mov_i32 r a else with_const (λ r a b, emit (Op2 o r a b)) r a c) Q s.
Proof.
  intros Ho ? ? ? ? Hc Hf0 HQ. rewrite s32_zero, u32_small by (unfold is_u32; lia). destruct (Z.eqb_spec c 0) as [->|].
  - apply (wp_mov _ _ x); try done. by rewrite Hf0 in HQ.
  - apply (wp_with_const _ _ _ _ c x (f x c) _ _ (computes_emit o)); try done.
    rewrite Ho, u32_small by (unfold is_u32; lia). by apply shift_sem_ok.
Qed.
Lemma wp_shli r a c x Q s : a_sk s = None → aval s a = Some x → is_u32 x → writable s r → 0 ≤ c < 32 →
  Q tt (aset r (u32 (x << c)) s) → wp (tcg_gen_shli_i32 r a c) Q s.
Proof.
  intros. apply (wp_shift_const O_shl (λ x n, u32 (x << n)) r a c x); try done.
  by rewrite Z.shiftl_0_r, u32_small.
Qed.
Lemma wp_shri r a c x Q s : a_sk s = None → aval s a = Some x → is_u32 x → writable s r → 0 ≤ c < 32 →
  Q tt (aset r (x >> c) s) → wp (tcg_gen_shri_i32 r a c) Q s.
Proof. intros. by apply (wp_shift_const O_shr (λ x n, x >> n) r a c x). Qed.
Lemma wp_sari r a c x Q s : a_sk s = None → aval s a = Some x → is_u32 x → writable s r → 0 ≤ c < 32 →
  Q tt (aset r (u32 (s32 x >> c)) s) → wp (tcg_gen_sari_i32 r a c) Q s.
Proof.
  intros. apply (wp_shift_const O_sar (λ x n, u32 (s32 x >> n)) r a c x); try done.
  by rewrite Z.shiftr_0_r, u32_s32, u32_small.
Qed.
(** A rotation to the right is emitted as one to the left. *)
Definition rotate_right (x n : Z) : Z := u32 (x << (32 - n)) .| (x >> n).
Lemma wp_rotri r a c x Q s : a_sk s = None → aval s a = Some x → is_u32 x → writable s r → 0 < c < 32 →
  Q tt (aset r (rotate_right x c) s) → wp (tcg_gen_rotri_i32 r a c) Q s.
Proof.
  intros ? ? ? ? Hc HQ. unfold tcg_gen_rotri_i32. rewrite s32_zero, u32_small by (unfold is_u32; lia).
  rewrite (proj2 (Z.eqb_neq c 0)) by lia.
  apply (wp_shift_const O_rotl (λ x n, u32 (x << n) .| (x >> (32 - n))) r a (32 - c) x); try done; [lia| |].
  - rewrite Z.shiftl_0_r, u32_small by done. replace (x >> (32 - 0)) with 0; [by rewrite Z.lor_0_r|].
    rewrite Z.shiftr_div_pow2 by lia. symmetry. apply Z.div_small. done.
  - unfold rotate_right in HQ. by replace (32 - (32 - c)) with c by lia.
Qed.
Lemma lnot_u32 y : is_u32 (u32 (Z.lnot y)).
Proof. apply u32_bound. Qed.
Lemma wp_andc r a b x y Q s : a_sk s = None → aval s a = Some x → aval s b = Some y → is_u32 x → writable s r →
  Q tt (aset r (x .& u32 (Z.lnot y)) s) → wp (tcg_gen_andc_i32 r a b) Q s.
Proof.
  intros Hsk Ha Hb Hx Hr HQ. apply wp_bind, wp_new_i32. intros t Ht.
  assert (is_Some (a_vals (with_vals (<[t := None]> (a_vals s)) s) !! t)) as Hin by (cbn; by rewrite lookup_insert_eq).
  apply wp_bind, (wp_op1 O_not _ _ y); try done; [exact (aval_fresh s t _ (a_vals s) b y Ht Hb)|].
  cbn. rewrite insert_insert_eq. fold_vals. destruct (aset_fresh s t (Some (u32 (Z.lnot y))) r (x .& u32 (Z.lnot y)) Ht Hr) as [Heq Hu].
  apply wp_bind, (computes_and r a (Tmp t) x (u32 (Z.lnot y)) (x .& u32 (Z.lnot y))); try done.
  - exact (aval_fresh s t _ (a_vals s) a x Ht Ha).
  - cbn. by rewrite lookup_insert_eq.
  - apply u32_bound.
  - exact (writable_fresh s t _ (a_vals s) r Ht Hr).
  - apply wp_free_i32; [done|]. by rewrite Heq.
Qed.

(** ** Helpers and memory *)
Lemma get_tvs_ok s ts vs xs : tmatch s ts → Forall2 (λ v x, aval s v = Some x) vs xs →
  get_tvs vs ts (a_σ s) = Ok (Done xs (a_σ s)).
Proof.
  intros Hm. induction 1 as [|v x vs xs Hv _ IH]; [done|]. cbn.
  rewrite (bind_done _ _ _ _ _ (get_tv_ok s ts v x Hm Hv)), (bind_done _ _ _ _ _ IH). done.
Qed.

Definition set_opt (r : option tcgv) (x : Z) s : ast := match r with Some r => aset r x s | None => s end.
Definition opt_writable s (r : option tcgv) : Prop := match r with Some r => writable s r | None => True end.
Lemma set_opt_fresh s t v r z : a_vals s !! t = None → opt_writable s r →
  let s' := with_vals (<[t := v]> (a_vals s)) s in
  with_vals (delete t (a_vals (set_opt r z s'))) (set_opt r z s') = set_opt r z s ∧
  is_Some (a_vals (set_opt r z s') !! t).
Proof.
  intros Ht Hr. destruct r as [r|]; [by apply aset_fresh|]. cbn.
  rewrite delete_insert_id by done. split; [by destruct s|]. by rewrite lookup_insert_eq.
Qed.
Lemma run_next o os ts σ ts1 σ1 : run_op o ts σ = Ok (Done (Next ts1) σ1) →
  run_ops (o :: os) None ts σ = run_ops os None ts1 σ1.
Proof. intros E. cbn [Tcg.run_ops]. by rewrite (bind_done _ _ _ _ _ E). Qed.
Lemma set_opt_sk s r x : a_sk (set_opt r x s) = a_sk s.
Proof. destruct r; [apply aset_sk|done]. Qed.
Lemma set_opt_dc s r x : a_dc (set_opt r x s) = a_dc s.
Proof. destruct r; [apply aset_dc|done]. Qed.
Lemma set_opt_nl s r x : a_nl (set_opt r x s) = a_nl s.
Proof. destruct r; [apply aset_nl|done]. Qed.
Lemma run_call fn h ret args xs v σ s ts : tmatch s ts → tfns ts !! fn = Some h →
  Forall2 (λ v x, aval s v = Some x) args xs → call_helper h xs (a_σ s) = Ok (Done v σ) → opt_writable s ret →
  ∃ ts', run_op (Op_call (Tmp fn) ret args) ts (a_σ s) =
    Ok (Done (Next ts') (a_σ (set_opt ret v (with_σ σ s)))) ∧ tmatch (set_opt ret v (with_σ σ s)) ts'.
Proof.
  intros Hm Hfn Hargs Hcall Hret. cbn [Tcg.run_op].
  rewrite (bind_done _ _ _ _ _ (get_tvs_ok s ts args xs Hm Hargs)), Hfn.
  rewrite (bind_done _ _ (a_σ s) _ _ eq_refl), (bind_done _ _ _ _ _ Hcall).
  destruct ret as [r|]; [|by exists ts].
  destruct (put_tv_ok s ts r v σ Hm Hret) as (ts' & E & Hm'). unfold put_next. rewrite (bind_done _ _ _ _ _ E).
  by exists ts'.
Qed.
Lemma runs_helper fn h ret args xs v σ s : a_sk s = None → Forall2 (λ v x, aval s v = Some x) args xs →
  call_helper h xs (a_σ s) = Ok (Done v σ) → opt_writable s ret →
  runs_to [Op_movi_fn (Tmp fn) h; Op_call (Tmp fn) ret args] s (set_opt ret v (with_σ σ s)).
Proof.
  intros Hsk Hargs Hcall Hret. apply runs_intro; [done|by rewrite set_opt_sk|]. intros ts Hm.
  set (ts1 := mkTemps (tvals ts) (<[fn := h]> (tfns ts)) (tlocals ts)).
  rewrite (run_next (Op_movi_fn (Tmp fn) h) _ ts (a_σ s) ts1 (a_σ s) eq_refl).
  destruct (run_call fn h ret args xs v σ s ts1) as (ts' & E & Hm'); try done.
  { cbn. by rewrite lookup_insert_eq. }
  exists ts'. split; [|done]. by rewrite (run_next _ _ _ _ _ _ E).
Qed.
Lemma wp_two o1 o2 Q s s' : (∀ l, o1 ≠ Op_set_label l) → (∀ l, o2 ≠ Op_set_label l) → a_dc s' = a_dc s →
  a_nl s' = a_nl s → (∀ t, is_Some (a_vals s' !! t) → is_Some (a_vals s !! t)) → runs_to [o1; o2] s s' → Q tt s' →
  wp (emit o1;; emit o2) Q s.
Proof.
  intros Ho1 Ho2 Hd Hl Hv Hr HQ g Hg. right. exists tt, (g <| gen_opc_buf := (gen_opc_buf g ++ [o1]) ++ [o2] |>), [o1; o2], s'.
  split_and!; try done.
  - cbn. by rewrite <- app_assoc.
  - destruct Hg as [? ? ? ? Hu]. split; cbn; try congruence; try done. intros t Ht. by apply Hu, Hv.
  - intros l. rewrite !elem_of_cons, elem_of_nil. intros [E|[E|[]]]; symmetry in E; [by apply Ho1 in E|by apply Ho2 in E].
Qed.
Lemma wp_assoc {A B C} (m : gen A) (k : A → gen B) (h : B → gen C) Q s :
  wp ((m ≫= k) ≫= h) Q s → wp (m ≫= λ a, k a ≫= h) Q s.
Proof.
  intros Hw g Hg. assert ((m ≫= λ a, k a ≫= h) g = ((m ≫= k) ≫= h) g) as ->; [|by apply Hw].
  unfold mbind, gen_bind. destruct (m g) as [[[a|] g1]|f]; [|done|done]. cbn.
  by destruct (k a g1) as [[[b|] g2]|f].
Qed.
(** The call of a helper that returns [v] and leaves the machine in [σ]. *)
Lemma wp_helper h ret args xs v σ Q s : a_sk s = None → Forall2 (λ v x, aval s v = Some x) args xs →
  call_helper h xs (a_σ s) = Ok (Done v σ) → opt_writable s ret → Q tt (set_opt ret v (with_σ σ s)) →
  wp (gen_helper h ret args) Q s.
Proof.
  intros Hsk Hargs Hcall Hret HQ. apply wp_bind, wp_new_i64. intros fn Hfn.
  assert (opt_writable (with_σ σ s) ret) as Hret' by (by destruct ret as [[]|]).
  destruct (set_opt_fresh (with_σ σ s) fn None ret v Hfn Hret') as [Heq Hin].
  set (s1 := with_vals (<[fn := None]> (a_vals s)) s) in *.
  change (with_vals _ (with_σ σ s)) with (with_σ σ s1) in Heq, Hin.
  apply (wp_assoc (emit (Op_movi_fn (Tmp fn) h)) (λ _, emit (Op_call (Tmp fn) ret args)) (λ _, tcg_temp_free_i64 (Tmp fn))).
  apply wp_bind, (wp_two _ _ _ s1 (set_opt ret v (with_σ σ s1))); try done.
  - by rewrite set_opt_dc.
  - by rewrite set_opt_nl.
  - intros t. destruct ret as [r|]; [|done]. apply (aset_used (with_σ σ s1)).
    exact (writable_fresh (with_σ σ s) fn None (a_vals s) r Hfn Hret').
  - apply (runs_helper fn h ret args xs); try done.
    + eapply Forall2_impl; [exact Hargs|]. intros w x. exact (aval_fresh s fn None (a_vals s) w x Hfn).
    + destruct ret as [r|]; [|done]. exact (writable_fresh s fn None (a_vals s) r Hfn Hret).
  - apply wp_free_i64; [done|]. by rewrite Heq.
Qed.

Lemma wp_qemu_ld k sign r a i x v σ Q s : a_sk s = None → aval s a = Some x → writable (with_σ σ s) r →
  tcg_ld fuel retaddr (width k) sign x i (a_σ s) = Ok (Done v σ) → Q tt (aset r v (with_σ σ s)) →
  wp (tcg_gen_qemu_ld k sign r a i) Q s.
Proof.
  intros Hsk Ha Hr Hld HQ. apply (wp_emit_set _ r v σ); try done.
  intros ts Hm. cbn [Tcg.run_op]. rewrite (bind_done _ _ _ _ _ (get_tv_ok s ts a x Hm Ha)).
  by rewrite (bind_done _ _ _ _ _ Hld).
Qed.
Lemma wp_qemu_st k v a i x y σ Q s : a_sk s = None → aval s a = Some x → aval s v = Some y →
  tcg_st fuel retaddr (width k) x (y mod 2 ^ (8 * width k)) i (a_σ s) = Ok (Done tt σ) → Q tt (with_σ σ s) →
  wp (tcg_gen_qemu_st k v a i) Q s.
Proof.
  intros Hsk Ha Hv Hst HQ. apply (wp_emit_σ _ σ); try done. intros ts Hm. cbn [Tcg.run_op].
  rewrite (bind_done _ _ _ _ _ (get_tv_ok s ts a x Hm Ha)), (bind_done _ _ _ _ _ (get_tv_ok s ts v y Hm Hv)).
  by rewrite (bind_done _ _ _ _ _ Hst).
Qed.
Lemma wp_trace_pc pc σ Q s : a_sk s = None → trace_pc pc (a_σ s) = Ok (Done tt σ) → Q tt (with_σ σ s) →
  wp (tcg_gen_qemu_trace_pc pc) Q s.
Proof.
  intros Hsk Htr HQ. apply (wp_emit_σ _ σ); try done. intros ts Hm. cbn [Tcg.run_op].
  by rewrite (bind_done _ _ _ _ _ Htr).
Qed.

(** ** The translator's state *)
Definition with_dc (d : DisasContext) s : ast := mkAst (a_vals s) d (a_nl s) (a_sk s) (a_σ s).
Lemma wp_get_dc {A} (f : DisasContext → A) Q s : Q (f (a_dc s)) s → wp (get_dc f) Q s.
Proof.
  intros HQ g Hg. right. pose proof Hg as [Hd _ _ _ _]. exists (f (a_dc s)), g, [], s. unfold get_dc. rewrite app_nil_r, Hd.
  split_and!; try done; [by intros l ?%elem_of_nil|apply runs_nil].
Qed.
Lemma wp_map_dc (f : DisasContext → DisasContext) Q s : Q tt (with_dc (f (a_dc s)) s) →
  wp (λ g, Ok (Some tt, g <| dc := f (dc g) |>)) Q s.
Proof.
  intros HQ g Hg. right. pose proof Hg as [Hd ? ? ? ?].
  exists tt, (g <| dc := f (dc g) |>), [], (with_dc (f (a_dc s)) s). rewrite app_nil_r.
  split_and!; try done.
  - split; cbn; try done. by rewrite Hd.
  - by intros l ?%elem_of_nil.
  - by apply runs_same.
Qed.
Lemma wp_set_jmp j Q s : Q tt (with_dc (a_dc s <| is_jmp := j |>) s) → wp (set_jmp j) Q s.
Proof. apply (wp_map_dc (λ d, d <| is_jmp := j |>)). Qed.

(** ** Labels and branches *)

(** A label or a branch ends the basic block: no temporary keeps its value. *)
Definition branch_to (sk : option flow) s : ast :=
  mkAst ((λ _, None) <$> a_vals s) (a_dc s) (a_nl s) sk (a_σ s).
Lemma tmatch_branch sk s ts : tmatch (branch_to sk s) ts.
Proof. intros t v. cbn. rewrite lookup_fmap. by destruct (a_vals s !! t). Qed.
Lemma branch_used sk s t : is_Some (a_vals (branch_to sk s) !! t) ↔ is_Some (a_vals s !! t).
Proof. cbn. by rewrite lookup_fmap, fmap_is_Some. Qed.
Lemma wp_branch o sk Q s : (∀ l, o = Op_set_label l → (lb ≤ l)%nat) →
  (∀ ts, tmatch s ts → reached (branch_to sk s) (run_from [o] s ts)) →
  Q tt (branch_to sk s) → wp (emit o) Q s.
Proof.
  intros Ho Hr HQ g Hg. right. exists tt, (g <| gen_opc_buf := gen_opc_buf g ++ [o] |>), [o], (branch_to sk s).
  split_and!; try done.
  - destruct Hg as [? ? ? ? Hu]. split; try done. intros t Ht%branch_used. by apply Hu.
  - intros l Hl%list_elem_of_singleton. by apply Ho.
Qed.

Lemma wp_brcond c a b l x y Q s : a_sk s = None → aval s a = Some x → aval s b = Some y →
  Q tt (branch_to (if cond_sem c x y then Some (Skip l) else None) s) → wp (tcg_gen_brcond_i32 c a b l) Q s.
Proof.
  intros Hsk Ha Hb. apply wp_branch; [done|]. intros ts Hm. unfold run_from. rewrite Hsk. cbn [Tcg.run_ops Tcg.run_op].
  unfold sm_bind at 1. rewrite (bind_done _ _ _ _ _ (get_tv_ok s ts a x Hm Ha)).
  rewrite (bind_done _ _ _ _ _ (get_tv_ok s ts b y Hm Hb)).
  destruct (cond_sem c x y); (eexists; split; [done|apply tmatch_branch]).
Qed.
Lemma wp_brcondi c a arg l x Q s : a_sk s = None → aval s a = Some x →
  Q tt (branch_to (if cond_sem c x (u32 arg) then Some (Skip l) else None) s) → wp (tcg_gen_brcondi_i32 c a arg l) Q s.
Proof.
  intros Hsk Ha HQ. apply wp_bind, wp_const; [done|]. intros t Ht. apply wp_bind.
  apply (wp_brcond _ _ _ _ x (u32 arg)); try done.
  - exact (aval_fresh s t _ (a_vals s) a x Ht Ha).
  - cbn. by rewrite lookup_insert_eq.
  - apply wp_free_i32; [apply branch_used; cbn; by rewrite lookup_insert_eq|]. cbn.
    unfold with_vals, branch_to in *. cbn in *. rewrite <- fmap_delete, delete_insert_id by done. done.
Qed.
Lemma wp_br l Q s : a_sk s = None → Q tt (branch_to (Some (Skip l)) s) → wp (tcg_gen_br l) Q s.
Proof.
  intros Hsk. apply wp_branch; [done|]. intros ts Hm. unfold run_from. rewrite Hsk.
  eexists. split; [done|apply tmatch_branch].
Qed.
Lemma wp_set_label l Q s : (lb ≤ l)%nat →
  Q tt (branch_to (match a_sk s with Some (Skip l') => if (l' =? l)%nat then None else a_sk s | fl => fl end) s) →
  wp (gen_set_label l) Q s.
Proof.
  intros Hl. apply wp_branch; [by intros ? [= <-]|]. intros ts Hm. unfold run_from.
  destruct (a_sk s) as [[l'|r]|]; cbn; [|done|eexists; split; [done|apply tmatch_branch]].
  destruct (l' =? l)%nat; (eexists; split; [done|apply tmatch_branch]).
Qed.
Lemma wp_new_label Q s : (a_nl s < TCG_MAX_LABELS)%nat →
  Q (a_nl s) (mkAst (a_vals s) (a_dc s) (S (a_nl s)) (a_sk s) (a_σ s)) → wp gen_new_label Q s.
Proof.
  intros Hnl HQ g Hg. right. pose proof Hg as [? El ? ? ?]. unfold gen_new_label. rewrite El, (proj2 (Nat.leb_gt _ _) Hnl).
  eexists _, _, [], (mkAst (a_vals s) (a_dc s) (S (a_nl s)) (a_sk s) (a_σ s)). rewrite app_nil_r.
  split_and!; [done|done| |by intros l ?%elem_of_nil|by apply runs_same|exact HQ]. split; try done.
Qed.

(** ** Leaving the block *)
Definition stop (r : res (out D exit)) s : ast := branch_to (Some (Gone r)) s.
Lemma wp_stop o r Q s : (∀ l, o ≠ Op_set_label l) → (∀ ts, tmatch s ts → run_from [o] s ts = final r) →
  Q tt (stop r s) → wp (emit o) Q s.
Proof. intros Ho Hr HQ. apply (wp_branch _ (Some (Gone r))); [by intros l Hl; apply Ho in Hl|exact Hr|exact HQ]. Qed.
Lemma wp_exit_tb v Q s : a_sk s = None → Q tt (stop (Ok (Done (Left v) (a_σ s))) s) → wp (tcg_gen_exit_tb v) Q s.
Proof. intros Hsk. apply wp_stop; [done|]. intros ts _. unfold run_from. by rewrite Hsk. Qed.
Lemma wp_goto_tb n Q s : a_sk s = None →
  Q tt (branch_to (if linked n then Some (Gone (Ok (Done (Followed n) (a_σ s)))) else None) s) →
  wp (tcg_gen_goto_tb n) Q s.
Proof.
  intros Hsk HQ. destruct (linked n) eqn:E.
  - revert HQ. apply wp_stop; [done|]. intros ts _. unfold run_from. rewrite Hsk. cbn. unfold sm_bind. cbn. by rewrite E.
  - revert HQ. apply wp_branch; [done|]. intros ts _. unfold run_from, reached. rewrite Hsk. cbn. unfold sm_bind. cbn.
    rewrite E. eexists. split; [done|apply (tmatch_branch None)].
Qed.
(** Operations that are not reached. *)
Lemma wp_gone o r Q s : a_sk s = Some (Gone r) → (∀ l, o = Op_set_label l → (lb ≤ l)%nat) →
  Q tt (stop r s) → wp (emit o) Q s.
Proof. intros Hsk Ho. apply wp_branch; [done|]. intros ts _. unfold run_from. by rewrite Hsk. Qed.
End wp.

(** What is emitted on the way to a label has no effect, and labels placed
    meanwhile do not end it. *)
Lemma skip_ops {D} `{IoPorts D} `{TbCache} fuel retaddr linked l os ts (σ : smmu D) : Op_set_label l ∉ os →
  ∃ ts', run_ops fuel retaddr linked os (Some l) ts σ = Ok (Done (Fell (Some l) ts') σ).
Proof.
  revert ts. induction os as [|o os IH]; intros ts Hl; [by eexists|]. apply not_elem_of_cons in Hl as [Ho Hos].
  cbn. destruct o; try (by apply IH). destruct (Nat.eqb_spec l l0) as [->|]; [done|]. by apply IH.
Qed.
(** Labels below [lb'] are placed by other code. *)
Definition below {D} (lb' : nat) (fl : flow (D := D)) : Prop := match fl with Skip l => (l < lb')%nat | Gone _ => True end.
Lemma wp_skip {D} `{IoPorts D} `{TbCache} fuel retaddr linked lb lb' {A} (m : gen A) Q Q' (s : ast (D := D)) fl :
  a_sk s = Some fl → below lb' fl → (lb ≤ lb')%nat →
  wp fuel retaddr linked lb' m Q (mkAst (a_vals s) (a_dc s) (a_nl s) None (a_σ s)) →
  (∀ a s', Q a s' → Q' a (mkAst ((λ _, None) <$> a_vals s') (a_dc s') (a_nl s') (Some fl) (a_σ s))) →
  wp fuel retaddr linked lb m Q' s.
Proof.
  intros Hsk Hl Hlb Hm HQ g Hg.
  destruct (Hm g) as [E|(a & g' & os & s' & E & B & K & F & R & Ha)]; [by destruct Hg|by left|right].
  exists a, g', os, (mkAst ((λ _, None) <$> a_vals s') (a_dc s') (a_nl s') (Some fl) (a_σ s)). split_and!; try done.
  - destruct K as [? ? ? ? Hu]. split; try done. intros t Ht. apply Hu. by apply (branch_used (Some fl) s' t).
  - intros l' Hl'. apply F in Hl'. lia.
  - intros ts Hts. unfold run_from, reached. rewrite Hsk. cbn. destruct fl as [l|r]; [|done].
    destruct (skip_ops fuel retaddr linked l os ts (a_σ s)) as [ts' Er]; [intros Hin; apply F in Hin; cbn in Hl; lia|].
    exists ts'. split; [done|]. apply (tmatch_branch (Some (Skip l)) s').
  - by apply HQ.
Qed.
Lemma wp_weaken {D} `{IoPorts D} `{TbCache} fuel retaddr linked lb lb' {A} (m : gen A) Q (s : ast (D := D)) :
  (lb ≤ lb')%nat → wp fuel retaddr linked lb' m Q s → wp fuel retaddr linked lb m Q s.
Proof.
  intros Hlb Hm g Hg. destruct (Hm g Hg) as [E|(a & g' & os & s' & E & B & K & F & R & Ha)]; [by left|right].
  exists a, g', os, s'. split_and!; try done. intros l Hl. apply F in Hl. lia.
Qed.
