(* ===== verification/TransArm.v ===== *)
(** * The translator of ARM code ([target-arm/translate.c])

    From guest instructions to the operations of [Tcg]: the generators of
    [translate.c], [disas_arm_insn], and the loop that translates a block.  The
    decoders of Thumb, NEON and coprocessor instructions are parameters. *)
From S2P Require Import Prelude SoftTlb ArmCpu ArmMode ArmMmu ArmAlu SoftMmu GuestOps Tcg.

Definition DISAS_NEXT : Z := 0.
Definition DISAS_JUMP : Z := 1.
Definition DISAS_UPDATE : Z := 2.
Definition DISAS_TB_JUMP : Z := 3.
Definition DISAS_WFI : Z := 4.
Definition DISAS_SWI : Z := 5.
Definition DISAS_SMC : Z := 6.
Definition CPSR_USER : Z := CPSR_NZCV .| CPSR_Q .| CPSR_GE.
Definition CPSR_RESERVED : Z := 0xf << 20.

(** [insn & (1 << k)] *)
Definition has_bit (k insn : Z) : bool := Z.testbit insn k.
(** A register number at bit [k]. *)
Definition reg_at (k insn : Z) : nat := Z.to_nat ((insn >> k) .& 0xf).
(** [insn & mask == value] *)
Definition is_insn (mask value insn : Z) : bool := (insn .& mask) =? value.

(** ** Registers and fields *)
Definition load_cpu_field (f : env_field) : gen tcgv :=
  tmp ← tcg_temp_new_i32; tcg_gen_ld_i32 tmp f;; mret tmp.
Definition store_cpu_field (var : tcgv) (f : env_field) : gen unit :=
  tcg_gen_st_i32 var f;; tcg_temp_free_i32 var.

(** [cpu_R[reg]] *)
Definition cpu_R (reg : nat) : gen tcgv :=
  if (reg <? 16)%nat then mret (CpuR reg) else gen_err OutOfBounds.
Definition load_reg_var (var : tcgv) (reg : nat) : gen unit :=
  if (reg =? 15)%nat then
    addr ← get_dc (λ d, if truth (dc_thumb d) then u32 (dc_pc d + 2) else u32 (dc_pc d + 4));
    tcg_gen_movi_i32 var addr
  else r ← cpu_R reg; tcg_gen_mov_i32 var r.
Definition load_reg (reg : nat) : gen tcgv :=
  tmp ← tcg_temp_new_i32; load_reg_var tmp reg;; mret tmp.
Definition store_reg (reg : nat) (var : tcgv) : gen unit :=
  (if (reg =? 15)%nat then tcg_gen_andi_i32 var var (Z.lnot 1);; set_jmp DISAS_JUMP else skip_gen);;
  r ← cpu_R reg;
  tcg_gen_mov_i32 r var;;
  tcg_temp_free_i32 var.

Definition gen_uxtb (v : tcgv) : gen unit := tcg_gen_ext8u_i32 v v.
Definition gen_uxth (v : tcgv) : gen unit := tcg_gen_ext16u_i32 v v.
Definition gen_sxtb (v : tcgv) : gen unit := tcg_gen_ext8s_i32 v v.
Definition gen_sxth (v : tcgv) : gen unit := tcg_gen_ext16s_i32 v v.
Definition gen_sxtb16 (v : tcgv) : gen unit := gen_helper H_sxtb16 (Some v) [v].
Definition gen_uxtb16 (v : tcgv) : gen unit := gen_helper H_uxtb16 (Some v) [v].

Definition gen_set_cpsr (var : tcgv) (mask : Z) : gen unit :=
  tmp_mask ← tcg_const_i32 mask;
  gen_helper H_cpsr_write None [var; tmp_mask];;
  tcg_temp_free_i32 tmp_mask.
Definition gen_exception (excp : Z) : gen unit :=
  tmp ← tcg_temp_new_i32;
  tcg_gen_movi_i32 tmp excp;;
  gen_helper H_exception None [tmp];;
  tcg_temp_free_i32 tmp.

(** ** Arithmetic sequences *)
Definition gen_smul_dual (a b : tcgv) : gen unit :=
  tmp1 ← tcg_temp_new_i32;
  tmp2 ← tcg_temp_new_i32;
  tcg_gen_ext16s_i32 tmp1 a;;
  tcg_gen_ext16s_i32 tmp2 b;;
  tcg_gen_mul_i32 tmp1 tmp1 tmp2;;
  tcg_temp_free_i32 tmp2;;
  tcg_gen_sari_i32 a a 16;;
  tcg_gen_sari_i32 b b 16;;
  tcg_gen_mul_i32 b b a;;
  tcg_gen_mov_i32 a tmp1;;
  tcg_temp_free_i32 tmp1.

Definition gen_rev16 (var : tcgv) : gen unit :=
  tmp ← tcg_temp_new_i32;
  tcg_gen_shri_i32 tmp var 8;;
  tcg_gen_andi_i32 tmp tmp 0x00ff00ff;;
  tcg_gen_shli_i32 var var 8;;
  tcg_gen_andi_i32 var var 0xff00ff00;;
  tcg_gen_or_i32 var var tmp;;
  tcg_temp_free_i32 tmp.
Definition gen_revsh (var : tcgv) : gen unit :=
  tcg_gen_ext16u_i32 var var;;
  tcg_gen_bswap16_i32 var var;;
  tcg_gen_ext16s_i32 var var.

Definition gen_ubfx (var : tcgv) (shift mask : Z) : gen unit :=
  (if truth shift then tcg_gen_shri_i32 var var shift else skip_gen);;
  tcg_gen_andi_i32 var var mask.
Definition gen_sbfx (var : tcgv) (shift width : Z) : gen unit :=
  (if truth shift then tcg_gen_sari_i32 var var shift else skip_gen);;
  if shift + width <? 32 then
    let signbit := u32 (1 << (width - 1)) in
    tcg_gen_andi_i32 var var (u32 ((1 << width) - 1));;
    tcg_gen_xori_i32 var var signbit;;
    tcg_gen_subi_i32 var var signbit
  else skip_gen.
Definition gen_bfi (dest base val : tcgv) (shift mask : Z) : gen unit :=
  tcg_gen_andi_i32 val val mask;;
  tcg_gen_shli_i32 val val shift;;
  tcg_gen_andi_i32 base base (u32 (Z.lnot (u32 (mask << shift))));;
  tcg_gen_or_i32 dest base val.

Definition gen_addq_msw (a b : tcgv) : gen tcgv :=
  tmp64 ← tcg_temp_new_i64;
  tcg_gen_extu_i32_i64 tmp64 b;;
  tcg_temp_free_i32 b;;
  tcg_gen_shli_i64 tmp64 tmp64 32;;
  tcg_gen_add_i64 a tmp64 a;;
  tcg_temp_free_i64 tmp64;;
  mret a.
Definition gen_subq_msw (a b : tcgv) : gen tcgv :=
  tmp64 ← tcg_temp_new_i64;
  tcg_gen_extu_i32_i64 tmp64 b;;
  tcg_temp_free_i32 b;;
  tcg_gen_shli_i64 tmp64 tmp64 32;;
  tcg_gen_sub_i64 a tmp64 a;;
  tcg_temp_free_i64 tmp64;;
  mret a.

(** The two widening multiplications differ in the extension. *)
Definition gen_mul_i64_i32 (ext : tcgv → tcgv → gen unit) (a b : tcgv) : gen tcgv :=
  tmp1 ← tcg_temp_new_i64;
  tmp2 ← tcg_temp_new_i64;
  ext tmp1 a;;
  tcg_temp_free_i32 a;;
  ext tmp2 b;;
  tcg_temp_free_i32 b;;
  tcg_gen_mul_i64 tmp1 tmp1 tmp2;;
  tcg_temp_free_i64 tmp2;;
  mret tmp1.
Definition gen_mulu_i64_i32 : tcgv → tcgv → gen tcgv := gen_mul_i64_i32 tcg_gen_extu_i32_i64.
Definition gen_muls_i64_i32 : tcgv → tcgv → gen tcgv := gen_mul_i64_i32 tcg_gen_ext_i32_i64.

Definition gen_swap_half (var : tcgv) : gen unit :=
  tmp ← tcg_temp_new_i32;
  tcg_gen_shri_i32 tmp var 16;;
  tcg_gen_shli_i32 var var 16;;
  tcg_gen_or_i32 var var tmp;;
  tcg_temp_free_i32 tmp.

Definition gen_add16 (t0 t1 : tcgv) : gen unit :=
  tmp ← tcg_temp_new_i32;
  tcg_gen_xor_i32 tmp t0 t1;;
  tcg_gen_andi_i32 tmp tmp 0x8000;;
  tcg_gen_andi_i32 t0 t0 (Z.lnot 0x8000);;
  tcg_gen_andi_i32 t1 t1 (Z.lnot 0x8000);;
  tcg_gen_add_i32 t0 t0 t1;;
  tcg_gen_xor_i32 t0 t0 tmp;;
  tcg_temp_free_i32 tmp;;
  tcg_temp_free_i32 t1.

Definition gen_set_CF (var : tcgv) : gen unit := tcg_gen_st_i32 var F_CF.
Definition gen_set_CF_bit31 (var : tcgv) : gen unit :=
  tmp ← tcg_temp_new_i32;
  tcg_gen_shri_i32 tmp var 31;;
  gen_set_CF tmp;;
  tcg_temp_free_i32 tmp.
Definition gen_logic_CC (var : tcgv) : gen unit :=
  tcg_gen_st_i32 var F_NF;; tcg_gen_st_i32 var F_ZF.

Definition gen_add_carry (dest t0 t1 : tcgv) : gen unit :=
  tcg_gen_add_i32 dest t0 t1;;
  tmp ← load_cpu_field F_CF;
  tcg_gen_add_i32 dest dest tmp;;
  tcg_temp_free_i32 tmp.
Definition gen_sub_carry (dest t0 t1 : tcgv) : gen unit :=
  tcg_gen_sub_i32 dest t0 t1;;
  tmp ← load_cpu_field F_CF;
  tcg_gen_add_i32 dest dest tmp;;
  tcg_gen_subi_i32 dest dest 1;;
  tcg_temp_free_i32 tmp.

(** ** Shifts *)
Definition shifter_out_im (var : tcgv) (shift : Z) : gen unit :=
  tmp ← tcg_temp_new_i32;
  (if shift =? 0 then tcg_gen_andi_i32 tmp var 1
   else
     tcg_gen_shri_i32 tmp var shift;;
     if negb (shift =? 31) then tcg_gen_andi_i32 tmp tmp 1 else skip_gen);;
  gen_set_CF tmp;;
  tcg_temp_free_i32 tmp.

Definition when (b : bool) (m : gen unit) : gen unit := if b then m else skip_gen.

Definition gen_arm_shift_im (var : tcgv) (shiftop shift : Z) (flags : bool) : gen unit :=
  match shiftop with
  | 0 =>
      when (negb (shift =? 0)) (
        when flags (shifter_out_im var (32 - shift));;
        tcg_gen_shli_i32 var var shift)
  | 1 =>
      if shift =? 0 then
        when flags (tcg_gen_shri_i32 var var 31;; gen_set_CF var);;
        tcg_gen_movi_i32 var 0
      else
        when flags (shifter_out_im var (shift - 1));;
        tcg_gen_shri_i32 var var shift
  | 2 =>
      let shift := if shift =? 0 then 32 else shift in
      when flags (shifter_out_im var (shift - 1));;
      let shift := if shift =? 32 then 31 else shift in
      tcg_gen_sari_i32 var var shift
  | 3 =>
      if negb (shift =? 0) then
        when flags (shifter_out_im var (shift - 1));;
        tcg_gen_rotri_i32 var var shift
      else
        tmp ← load_cpu_field F_CF;
        when flags (shifter_out_im var 0);;
        tcg_gen_shri_i32 var var 1;;
        tcg_gen_shli_i32 tmp tmp 31;;
        tcg_gen_or_i32 var var tmp;;
        tcg_temp_free_i32 tmp
  | _ => skip_gen
  end.

Definition gen_arm_shift_reg (var : tcgv) (shiftop : Z) (shift : tcgv) (flags : bool) : gen unit :=
  (if flags then
     match shiftop with
     | 0 => gen_helper H_shl_cc (Some var) [var; shift]
     | 1 => gen_helper H_shr_cc (Some var) [var; shift]
     | 2 => gen_helper H_sar_cc (Some var) [var; shift]
     | 3 => gen_helper H_ror_cc (Some var) [var; shift]
     | _ => skip_gen
     end
   else
     match shiftop with
     | 0 => gen_helper H_shl (Some var) [var; shift]
     | 1 => gen_helper H_shr (Some var) [var; shift]
     | 2 => gen_helper H_sar (Some var) [var; shift]
     | 3 => tcg_gen_andi_i32 shift shift 0x1f;; tcg_gen_rotr_i32 var var shift
     | _ => skip_gen
     end);;
  tcg_temp_free_i32 shift.

(** The instructions of [op_addsub.h] by the operation field. *)
Definition pas_op (h : addsub_insn → gen unit) (op2 : Z) : gen unit :=
  match op2 with
  | 0 => h Add16 | 1 => h AddSubX | 2 => h SubAddX | 3 => h Sub16 | 4 => h Add8 | 7 => h Sub8
  | _ => skip_gen
  end.
Definition gen_arm_parallel_addsub (op1 op2 : Z) (a b : tcgv) : gen unit :=
  let plain p := pas_op (λ i, gen_helper (H_parallel p i) (Some a) [a; b]) op2 in
  let with_ge p :=
    tmp ← tcg_temp_new_i64;
    emit (Op_env_ptr tmp F_GE);;
    pas_op (λ i, gen_helper (H_parallel_ge p i) (Some a) [a; b; tmp]) op2;;
    tcg_temp_free_i64 tmp in
  match op1 with
  | 1 => with_ge pfx_s
  | 5 => with_ge pfx_u
  | 2 => plain pfx_q
  | 3 => plain pfx_sh
  | 6 => plain pfx_uq
  | 7 => plain pfx_uh
  | _ => skip_gen
  end.

(** ** Conditions *)
Definition branch_on (f : env_field) (c : tcg_cond) (label : nat) : gen tcgv :=
  tmp ← load_cpu_field f; tcg_gen_brcondi_i32 c tmp 0 label;; mret tmp.
(** [N ^ V] *)
Definition branch_on_nv (c : tcg_cond) (label : nat) : gen tcgv :=
  tmp ← load_cpu_field F_VF;
  tmp2 ← load_cpu_field F_NF;
  tcg_gen_xor_i32 tmp tmp tmp2;;
  tcg_temp_free_i32 tmp2;;
  tcg_gen_brcondi_i32 c tmp 0 label;;
  mret tmp.
Definition gen_test_cc (cc : Z) (label : nat) : gen unit :=
  tmp ← (match cc with
         | 0 => branch_on F_ZF COND_EQ label
         | 1 => branch_on F_ZF COND_NE label
         | 2 => branch_on F_CF COND_NE label
         | 3 => branch_on F_CF COND_EQ label
         | 4 => branch_on F_NF COND_LT label
         | 5 => branch_on F_NF COND_GE label
         | 6 => branch_on F_VF COND_LT label
         | 7 => branch_on F_VF COND_GE label
         | 8 =>
             inv ← gen_new_label;
             tmp ← branch_on F_CF COND_EQ inv;
             tcg_temp_free_i32 tmp;;
             tmp ← branch_on F_ZF COND_NE label;
             gen_set_label inv;;
             mret tmp
         | 9 =>
             tmp ← branch_on F_CF COND_EQ label;
             tcg_temp_free_i32 tmp;;
             branch_on F_ZF COND_EQ label
         | 10 => branch_on_nv COND_GE label
         | 11 => branch_on_nv COND_LT label
         | 12 =>
             inv ← gen_new_label;
             tmp ← branch_on F_ZF COND_EQ inv;
             tcg_temp_free_i32 tmp;;
             tmp ← branch_on_nv COND_GE label;
             gen_set_label inv;;
             mret tmp
         | 13 =>
             tmp ← branch_on F_ZF COND_EQ label;
             tcg_temp_free_i32 tmp;;
             branch_on_nv COND_LT label
         | _ => gen_err (Aborted "Bad condition code")
         end);
  tcg_temp_free_i32 tmp.

Definition table_logic_cc : list bool :=
  [true; true; false; false; false; false; false; false; true; true; false; false; true; true; true; true].

(** ** Jumps *)
Definition gen_bx_im (addr : Z) : gen unit :=
  set_jmp DISAS_UPDATE;;
  th ← get_dc dc_thumb;
  when (negb (th =? addr .& 1)) (
    tmp ← tcg_temp_new_i32;
    tcg_gen_movi_i32 tmp (addr .& 1);;
    tcg_gen_st_i32 tmp F_thumb;;
    tcg_temp_free_i32 tmp);;
  tcg_gen_movi_i32 (CpuR 15) (addr .& Z.lnot 1).
Definition gen_bx (var : tcgv) : gen unit :=
  set_jmp DISAS_UPDATE;;
  tcg_gen_andi_i32 (CpuR 15) var (Z.lnot 1);;
  tcg_gen_andi_i32 var var 1;;
  store_cpu_field var F_thumb.
Definition gen_set_pc_im (val : Z) : gen unit := tcg_gen_movi_i32 (CpuR 15) val.
Definition gen_lookup_tb : gen unit :=
  pc ← get_dc dc_pc; tcg_gen_movi_i32 (CpuR 15) (pc .& Z.lnot 1);; set_jmp DISAS_UPDATE.
Definition gen_smc : gen unit := pc ← get_dc dc_pc; tcg_gen_movi_i32 (CpuR 15) pc;; set_jmp DISAS_SMC.

Definition gen_goto_tb (n dest : Z) : gen unit :=
  tb ← get_dc dc_tb;
  pc ← get_dc dc_tb_pc;
  if page_of pc =? page_of dest then
    tcg_gen_goto_tb n;; gen_set_pc_im dest;; tcg_gen_exit_tb (tb + n)
  else gen_set_pc_im dest;; tcg_gen_exit_tb 0.
(** Single stepping is off. *)
Definition gen_jmp (dest : Z) : gen unit := gen_goto_tb 0 dest;; set_jmp DISAS_TB_JUMP.

Definition gen_ld (k : nat) (sign : bool) (addr : tcgv) (index : Z) : gen tcgv :=
  tmp ← tcg_temp_new_i32; tcg_gen_qemu_ld k sign tmp addr index;; mret tmp.
Definition gen_ld8s := gen_ld 0 true.
Definition gen_ld8u := gen_ld 0 false.
Definition gen_ld16s := gen_ld 1 true.
Definition gen_ld16u := gen_ld 1 false.
Definition gen_ld32 := gen_ld 2 false.
Definition gen_st (k : nat) (val addr : tcgv) (index : Z) : gen unit :=
  tcg_gen_qemu_st k val addr index;; tcg_temp_free_i32 val.
Definition gen_st8 := gen_st 0.
Definition gen_st16 := gen_st 1.
Definition gen_st32 := gen_st 2.

Definition gen_add_data_offset (insn : Z) (var : tcgv) : gen unit :=
  if negb (has_bit 25 insn) then
    let val := insn .& 0xfff in
    let val := if negb (has_bit 23 insn) then - val else val in
    when (negb (val =? 0)) (tcg_gen_addi_i32 var var val)
  else
    offset ← load_reg (reg_at 0 insn);
    gen_arm_shift_im offset ((insn >> 5) .& 3) ((insn >> 7) .& 0x1f) false;;
    (if negb (has_bit 23 insn) then tcg_gen_sub_i32 var var offset else tcg_gen_add_i32 var var offset);;
    tcg_temp_free_i32 offset.
Definition gen_add_datah_offset (insn extra : Z) (var : tcgv) : gen unit :=
  if has_bit 22 insn then
    let val := (insn .& 0xf) .| ((insn >> 4) .& 0xf0) in
    let val := if negb (has_bit 23 insn) then - val else val in
    let val := val + extra in
    when (negb (val =? 0)) (tcg_gen_addi_i32 var var val)
  else
    when (truth extra) (tcg_gen_addi_i32 var var extra);;
    offset ← load_reg (reg_at 0 insn);
    (if negb (has_bit 23 insn) then tcg_gen_sub_i32 var var offset else tcg_gen_add_i32 var var offset);;
    tcg_temp_free_i32 offset.

Definition gen_mulxy (t0 t1 : tcgv) (x y : bool) : gen unit :=
  (if x then tcg_gen_sari_i32 t0 t0 16 else gen_sxth t0);;
  (if y then tcg_gen_sari_i32 t1 t1 16 else gen_sxth t1);;
  tcg_gen_mul_i32 t0 t0 t1.

Definition gen_set_condexec : gen unit :=
  m ← get_dc condexec_mask;
  c ← get_dc condexec_cond;
  when (truth m) (
    tmp ← tcg_temp_new_i32;
    tcg_gen_movi_i32 tmp ((c << 4) .| (m >> 1));;
    store_cpu_field tmp F_condexec_bits).
Definition gen_exception_insn (offset excp : Z) : gen unit :=
  gen_set_condexec;;
  pc ← get_dc dc_pc;
  gen_set_pc_im (u32 (pc - offset));;
  gen_exception excp;;
  set_jmp DISAS_JUMP.
Definition gen_nop_hint (val : Z) : gen unit :=
  match val with
  | 3 => pc ← get_dc dc_pc; gen_set_pc_im pc;; set_jmp DISAS_WFI
  | _ => skip_gen
  end.

(** ** Status registers *)
(** Returns true when the access is not permitted. *)
Definition gen_set_psr (mask : Z) (spsr : bool) (t0 : tcgv) : gen bool :=
  user ← get_dc dc_user;
  if spsr && user then mret true
  else
    (if spsr then
       tmp ← load_cpu_field F_spsr;
       tcg_gen_andi_i32 tmp tmp (Z.lnot mask);;
       tcg_gen_andi_i32 t0 t0 mask;;
       tcg_gen_or_i32 tmp tmp t0;;
       store_cpu_field tmp F_spsr
     else gen_set_cpsr t0 mask);;
    tcg_temp_free_i32 t0;;
    gen_lookup_tb;;
    mret false.
Definition gen_set_psr_im (mask : Z) (spsr : bool) (val : Z) : gen bool :=
  tmp ← tcg_temp_new_i32; tcg_gen_movi_i32 tmp val;; gen_set_psr mask spsr tmp.
Definition gen_exception_return (pc : tcgv) : gen unit :=
  store_reg 15 pc;;
  tmp ← load_cpu_field F_spsr;
  gen_set_cpsr tmp 0xffffffff;;
  tcg_temp_free_i32 tmp;;
  set_jmp DISAS_UPDATE.
Definition gen_rfe (pc cpsr : tcgv) : gen unit :=
  gen_set_cpsr cpsr 0xffffffff;;
  tcg_temp_free_i32 cpsr;;
  store_reg 15 pc;;
  set_jmp DISAS_UPDATE.

(** ** Pairs of registers *)
Definition gen_storeq_reg (rlow rhigh : nat) (val : tcgv) : gen unit :=
  tmp ← tcg_temp_new_i32;
  tcg_gen_trunc_i64_i32 tmp val;;
  store_reg rlow tmp;;
  tmp ← tcg_temp_new_i32;
  tcg_gen_shri_i64 val val 32;;
  tcg_gen_trunc_i64_i32 tmp val;;
  store_reg rhigh tmp.
Definition gen_addq_lo (val : tcgv) (rlow : nat) : gen unit :=
  tmp ← tcg_temp_new_i64;
  tmp2 ← load_reg rlow;
  tcg_gen_extu_i32_i64 tmp tmp2;;
  tcg_temp_free_i32 tmp2;;
  tcg_gen_add_i64 val val tmp;;
  tcg_temp_free_i64 tmp.
Definition gen_addq (val : tcgv) (rlow rhigh : nat) : gen unit :=
  tmpl ← load_reg rlow;
  tmph ← load_reg rhigh;
  tmp ← tcg_temp_new_i64;
  tcg_gen_concat_i32_i64 tmp tmpl tmph;;
  tcg_temp_free_i32 tmpl;;
  tcg_temp_free_i32 tmph;;
  tcg_gen_add_i64 val val tmp;;
  tcg_temp_free_i64 tmp.
Definition gen_logicq_cc (val : tcgv) : gen unit :=
  tmp ← tcg_temp_new_i32;
  gen_helper H_logicq_cc (Some tmp) [val];;
  gen_logic_CC tmp;;
  tcg_temp_free_i32 tmp.

(** ** Exclusive accesses *)

(** A load of the size field: byte, halfword, word, or the first word of two. *)
Definition gen_ld_sized (size : Z) (addr : tcgv) (index : Z) : gen tcgv :=
  match size with
  | 0 => gen_ld8u addr index
  | 1 => gen_ld16u addr index
  | 2 | 3 => gen_ld32 addr index
  | _ => gen_err (Aborted "abort")
  end.
Definition gen_st_sized (size : Z) (val addr : tcgv) (index : Z) : gen unit :=
  match size with
  | 0 => gen_st8 val addr index
  | 1 => gen_st16 val addr index
  | 2 | 3 => gen_st32 val addr index
  | _ => gen_err (Aborted "abort")
  end.
Definition user_index : gen Z := get_dc (λ d, of_bool (dc_user d)).

Definition gen_load_exclusive (rt rt2 : nat) (addr : tcgv) (size : Z) : gen unit :=
  user ← user_index;
  tmp ← gen_ld_sized size addr user;
  tcg_gen_mov_i32 (CpuX X_val) tmp;;
  store_reg rt tmp;;
  when (size =? 3) (
    tmp2 ← tcg_temp_new_i32;
    tcg_gen_addi_i32 tmp2 addr 4;;
    tmp ← gen_ld32 tmp2 user;
    tcg_temp_free_i32 tmp2;;
    tcg_gen_mov_i32 (CpuX X_high) tmp;;
    store_reg rt2 tmp);;
  tcg_gen_mov_i32 (CpuX X_addr) addr.
Definition gen_clrex : gen unit := tcg_gen_movi_i32 (CpuX X_addr) (-1).

Definition gen_store_exclusive (rd rt rt2 : nat) (addr : tcgv) (size : Z) : gen unit :=
  user ← user_index;
  fail_label ← gen_new_label;
  done_label ← gen_new_label;
  tcg_gen_brcond_i32 COND_NE addr (CpuX X_addr) fail_label;;
  tmp ← gen_ld_sized size addr user;
  tcg_gen_brcond_i32 COND_NE tmp (CpuX X_val) fail_label;;
  tcg_temp_free_i32 tmp;;
  when (size =? 3) (
    tmp2 ← tcg_temp_new_i32;
    tcg_gen_addi_i32 tmp2 addr 4;;
    tmp ← gen_ld32 tmp2 user;
    tcg_temp_free_i32 tmp2;;
    tcg_gen_brcond_i32 COND_NE tmp (CpuX X_high) fail_label;;
    tcg_temp_free_i32 tmp);;
  tmp ← load_reg rt;
  gen_st_sized size tmp addr user;;
  when (size =? 3) (
    tcg_gen_addi_i32 addr addr 4;;
    tmp ← load_reg rt2;
    gen_st32 tmp addr user);;
  r ← cpu_R rd;
  tcg_gen_movi_i32 r 0;;
  tcg_gen_br done_label;;
  gen_set_label fail_label;;
  tcg_gen_movi_i32 r 1;;
  gen_set_label done_label;;
  tcg_gen_movi_i32 (CpuX X_addr) (-1).
