(* ===== verification/TransArmFacts.v ===== *)
(** * What the translator's generators emit

    The operations emitted by the generators of [TransArm] for registers,
    shifts and conditions compute what the architecture says: [Shift_C] for
    both kinds of shift, [ConditionPassed] for the skip of an instruction. *)
From S2P Require Import Prelude SoftTlb ArmCpu ArmMode ArmModeFacts ArmAlu ArmAluFacts PhysMem SoftMmu GuestOps Tcg TcgFacts TransArm.

(** What the generators rely on: the registers are words, C is 0 or 1. *)
Record alu_wf (e : CPUARMState) : Prop := {
  wf_regs : length (regs e) = 16%nat;
  wf_words : ∀ n x, regs e !! n = Some x → is_u32 x;
  wf_carry : CF e = of_bool (truth (CF e))
}.

Lemma reg_some e r : alu_wf e → (r < 16)%nat → regs e !! r = Some (reg e r) ∧ is_u32 (reg e r).
Proof.
  intros [Hl Hw _] Hr. destruct (lookup_lt_is_Some_2 (regs e) r) as [x E]; [lia|].
  assert (reg e r = x) as -> by (unfold reg; by apply nth_lookup_Some with (d := 0) in E).
  split; [done|by apply (Hw r)].
Qed.
Lemma alu_wf_set_reg e r x : alu_wf e → is_u32 x → alu_wf (set_reg r x e).
Proof.
  intros [Hl Hw Hc] Hx. split; [by cbn; rewrite length_insert| |done].
  intros n y. cbn. intros [(-> & <- & _)|[_ Hy]]%list_lookup_insert_Some; [done|by apply (Hw n)].
Qed.
Lemma alu_wf_set_c e c : alu_wf e → alu_wf (set_c (of_bool c) e).
Proof. intros [Hl Hw _]. split; [done|done|by destruct c]. Qed.
Lemma set_c_id e : alu_wf e → set_c (of_bool (truth (CF e))) e = e.
Proof. intros [_ _ Hc]. rewrite <- Hc. by destruct e. Qed.

(** ** Reference definitions *)

(** Register [r] as an operand of an instruction where the program counter
    reads [pc8], 8 bytes ahead; the translator's own is then 4 ahead. *)
Definition reg_read (pc8 : Z) (e : CPUARMState) (r : nat) : Z :=
  if (r =? 15)%nat then pc8 else reg e r.
Definition reads_pc (d : DisasContext) : Z := u32 (dc_pc d + 4).

Definition shift_of (ty : Z) : shift_type :=
  match ty with 0 => LSL | 1 => LSR | 2 => ASR | _ => ROR end.
(** [DecodeImmShift] and [Shift_C]: an amount of 0 stands for none, for 32, or
    for a rotation through the carry. *)
Definition shift_imm (ty n x : Z) (c : bool) : Z * bool :=
  if n =? 0 then
    match ty with
    | 0 => (x, c)
    | 1 => Shift_C LSR x 32
    | 2 => Shift_C ASR x 32
    | _ => (of_bool c * 2 ^ 31 + x / 2, Z.testbit x 0)
    end
  else Shift_C (shift_of ty) x n.
(** By the low byte of a register. *)
Definition shift_reg (ty y x : Z) (c : bool) : Z * bool :=
  if y mod 256 =? 0 then (x, c) else Shift_C (shift_of ty) x (y mod 256).

(** [ConditionPassed] on N, Z, C and V. *)
Definition ConditionHolds (cond : Z) (flags : bool * bool * bool * bool) : bool :=
  let '(n, z, c, v) := flags in
  let result :=
    match cond >> 1 with
    | 0 => z | 1 => c | 2 => n | 3 => v | 4 => c && negb z | 5 => Bool.eqb n v
    | 6 => Bool.eqb n v && negb z | _ => true
    end in
  if Z.testbit cond 0 && negb (cond =? 15) then negb result else result.

(** ** Facts about shifts *)
Lemma shift_C_u32 t x n : is_u32 x → 0 ≤ n → is_u32 (Shift_C t x n).1.
Proof.
  intros Hx Hn. destruct t; cbn [fst Shift_C]; try apply u32_bound.
  pose proof (Z.pow_pos_nonneg 2 n ltac:(lia) Hn). unfold is_u32 in *.
  split; [apply Z.div_pos; lia|]. apply Z.div_lt_upper_bound; nia.
Qed.
Lemma rrx_u32 x (c : bool) : is_u32 x → is_u32 (of_bool c * 2 ^ 31 + x / 2).
Proof.
  unfold is_u32. intros Hx. pose proof (Z.div_pos x 2 ltac:(lia) ltac:(lia)).
  assert (x / 2 < 2 ^ 31) by (apply Z.div_lt_upper_bound; lia). destruct c; cbn [of_bool]; lia.
Qed.
Lemma shift_imm_u32 ty n x c : is_u32 x → 0 ≤ n → is_u32 (shift_imm ty n x c).1.
Proof.
  intros Hx Hn. unfold shift_imm. destruct (n =? 0); [|by apply shift_C_u32].
  destruct ty as [|[[]|[]|]|]; try by apply rrx_u32.
  - done.
  - by apply (shift_C_u32 ASR).
  - by apply (shift_C_u32 LSR).
Qed.
Lemma shift_reg_u32 ty y x c : is_u32 x → is_u32 (shift_reg ty y x c).1.
Proof.
  intros Hx. unfold shift_reg. destruct (_ =? 0); [done|]. apply shift_C_u32; [done|].
  by apply Z.mod_pos_bound.
Qed.
Lemma lsl_imm x n c : is_u32 x → 0 < n < 32 → shift_imm 0 n x c = (u32 (x << n), Z.testbit x (32 - n)).
Proof.
  intros Hx Hn. unfold shift_imm. rewrite (proj2 (Z.eqb_neq n 0)) by lia. cbn [shift_of Shift_C].
  by rewrite Z.shiftl_mul_pow2, Z.mul_pow2_bits by lia.
Qed.
Lemma lsr_imm x n c : is_u32 x → 0 < n → shift_imm 1 n x c = (x >> n, Z.testbit x (n - 1)).
Proof.
  intros Hx Hn. unfold shift_imm. rewrite (proj2 (Z.eqb_neq n 0)) by lia. cbn [shift_of Shift_C]. by rewrite Z.shiftr_div_pow2 by lia.
Qed.
Lemma lsr_imm_0 x c : is_u32 x → shift_imm 1 0 x c = (0, Z.testbit x 31).
Proof. intros Hx. unfold shift_imm. cbn [Z.eqb Shift_C]. by rewrite (proj1 (shifted_out x 32 Hx ltac:(lia))). Qed.
Lemma asr_imm x n c : is_u32 x → 0 ≤ n < 32 → let n' := if n =? 0 then 32 else n in
  shift_imm 2 n x c = (u32 (s32 x >> (if n' =? 32 then 31 else n')), Z.testbit x (n' - 1)).
Proof.
  intros Hx Hn. unfold shift_imm. destruct (Z.eqb_spec n 0) as [->|].
  - cbn [Shift_C]. change (32 =? 32) with true. cbv iota.
    rewrite s32_bit, Z.shiftr_div_pow2 by (done || lia). change (Z.min (32 - 1) 31) with (32 - 1). by rewrite (asr_far x 32) by (done || lia).
  - cbn [shift_of Shift_C]. rewrite (proj2 (Z.eqb_neq n 32)), s32_bit, Z.shiftr_div_pow2 by (done || lia).
    by rewrite Z.min_l by lia.
Qed.
Lemma ror_carry x n : is_u32 x → 0 < n < 32 →
  Z.testbit (u32 ((x + x * 2 ^ 32) / 2 ^ n)) 31 = Z.testbit x (n - 1).
Proof.
  intros Hx Hn. rewrite <- rotated, Z.lor_spec, u32_testbit, Z.shiftr_spec, Z.shiftl_spec by (done || lia).
  rewrite (testbit_of_high x (31 + n)) by (done || lia). rewrite orb_false_l. f_equal. lia.
Qed.
Lemma ror_imm x n c : is_u32 x → 0 < n < 32 → shift_imm 3 n x c = (rotate_right x n, Z.testbit x (n - 1)).
Proof.
  intros Hx Hn. unfold shift_imm. rewrite (proj2 (Z.eqb_neq n 0)) by lia. cbn [shift_of Shift_C].
  rewrite (Z.mod_small n) by lia. rewrite ror_carry by done. f_equal.
  unfold rotate_right. by rewrite <- rotated, Z.lor_comm by done.
Qed.
Lemma rrx_imm x c : is_u32 x →
  shift_imm 3 0 x c = ((x >> 1) .| u32 (of_bool c << 31), Z.testbit x 0).
Proof.
  unfold is_u32. intros Hx. unfold shift_imm. cbn [Z.eqb]. f_equal.
  pose proof (Z.div_pos x 2 ltac:(lia) ltac:(lia)).
  assert (x / 2 < 2 ^ 31) by (apply Z.div_lt_upper_bound; lia).
  rewrite Z.shiftr_div_pow2 by lia. change (2 ^ 1) with 2.
  replace (u32 (of_bool c << 31)) with (of_bool c << 31) by (by destruct c).
  rewrite lor_shifted by lia. lia.
Qed.

Lemma shift_C_0 t x : is_u32 x → (Shift_C t x 0).1 = x.
Proof.
  intros Hx. destruct t; cbn [Shift_C fst]; rewrite ?Z.mul_1_r, ?Z.div_1_r, ?u32_s32; try (done || by apply u32_small).
  unfold u32. rewrite Z_mod_plus_full. by apply u32_small.
Qed.
(** The helpers' shifts as [shift_reg]. *)
Lemma shifts_reg ty y x e : is_u32 x → alu_wf e →
  shifts (shift_of ty) x y e = let '(r, c) := shift_reg ty y x (truth (CF e)) in (r, set_c (of_bool c) e).
Proof.
  intros Hx He. unfold shifts, shift_reg. destruct (Z.eqb_spec (y mod 256) 0) as [->|].
  - rewrite set_c_id by done. pose proof (shift_C_0 (shift_of ty) x Hx) as E. by destruct (Shift_C _ x 0); cbn in *; subst.
  - by destruct (Shift_C _ _ _).
Qed.
Lemma rotate_right_0 x : is_u32 x → rotate_right x 0 = x.
Proof.
  intros Hx. unfold rotate_right. rewrite Z.shiftr_0_r, Z.shiftl_mul_pow2, Z.sub_0_r by lia.
  by rewrite (proj2 (shifted_out x 32 Hx ltac:(lia))).
Qed.
Lemma ror_low y x c : is_u32 x → (shift_reg 3 y x c).1 = rotate_right x (y .& 31).
Proof.
  intros Hx. change 31 with (Z.ones 5). rewrite Z.land_ones by lia. change (2 ^ 5) with 32.
  assert ((y mod 256) mod 32 = y mod 32) as Em by (Z.div_mod_to_equations; lia).
  pose proof (Z.mod_pos_bound y 32 ltac:(lia)). unfold shift_reg.
  destruct (Z.eqb_spec (y mod 256) 0) as [E|E].
  - rewrite E in Em. rewrite <- Em. by rewrite rotate_right_0.
  - cbn [shift_of Shift_C fst]. rewrite Em. destruct (Z.eqb_spec (y mod 32) 0) as [->|].
    + rewrite rotate_right_0 by done. exact (shift_C_0 ROR x Hx).
    + unfold rotate_right. by rewrite <- rotated, Z.lor_comm by (done || lia).
Qed.

Lemma land_bit31 x : is_u32 x → (x >> 31) .& 1 = x >> 31.
Proof.
  unfold is_u32. intros Hx. change 1 with (Z.ones 1). rewrite Z.land_ones, Z.shiftr_div_pow2 by lia.
  apply Z.mod_small. split; [apply Z.div_pos; lia|apply Z.div_lt_upper_bound; lia].
Qed.

Lemma ast_eq {D} (s s' : ast (D := D)) : a_vals s = a_vals s' → a_dc s = a_dc s' → a_nl s = a_nl s' →
  a_sk s = a_sk s' → a_σ s = a_σ s' → s = s'.
Proof. destruct s, s'. cbn. by intros -> -> -> -> ->. Qed.

(** Side conditions on temporaries in use, and states with equal ones. *)
Ltac vals := cbn; simplify_map_eq; eauto.
Ltac map_solve :=
  apply map_eq; intros ?i; cbn -[Z.testbit]; rewrite ?lookup_insert, ?lookup_delete;
  repeat (case_decide; subst; rewrite ?lookup_insert, ?lookup_delete); try congruence; eauto.
Ltac same_vals H :=
  lazymatch type of H with _ _ ?s =>
  lazymatch goal with |- _ _ ?s' => replace s' with s; [exact H|apply ast_eq; [map_solve|reflexivity..]] end end.

Section gens.
Context {D : Type} `{IoPorts D} `{TbCache}.
Context (fuel : nat) (retaddr : Z) (linked : Z → bool) (lb : nat) (σ : smmu D).
#[local] Abbreviation wp := (wp fuel retaddr linked lb).

(** A state in which nothing is skipped. *)
Definition St (V : gmap nat (option Z)) (d : DisasContext) (nl : nat) (e : CPUARMState) : ast (D := D) :=
  mkAst V d nl None (with_cpu e σ).
Implicit Types (V : gmap nat (option Z)) (d : DisasContext) (e : CPUARMState).

Lemma st_new Q V d nl e : (∀ t, V !! t = None → Q (Tmp t) (St (<[t := None]> V) d nl e)) →
  wp tcg_temp_new_i32 Q (St V d nl e).
Proof. intros HQ. by apply wp_new_i32. Qed.
Lemma st_free t v Q V d nl e : V !! t = Some v → Q tt (St (delete t V) d nl e) →
  wp (tcg_temp_free_i32 (Tmp t)) Q (St V d nl e).
Proof. intros Ht HQ. apply wp_free_i32; [by exists v|done]. Qed.

(** *** Registers *)
Lemma st_load_reg_var var r Q V d nl e : (r < 16)%nat → alu_wf e → dc_thumb d = 0 → writable (St V d nl e) var →
  Q tt (aset var (reg_read (reads_pc d) e r) (St V d nl e)) → wp (load_reg_var var r) Q (St V d nl e).
Proof.
  intros Hr He Hth Hw HQ. unfold load_reg_var, reg_read, reads_pc in *. destruct (r =? 15)%nat.
  - apply wp_bind, wp_get_dc. cbn. rewrite Hth. apply wp_movi; [done..|]. by rewrite u32_s32, u32_small by apply u32_bound.
  - unfold cpu_R. rewrite (proj2 (Nat.ltb_lt r 16) Hr). apply wp_bind, wp_ret.
    destruct (reg_some e r He Hr). by apply (wp_mov _ _ _ _ _ _ (reg e r)).
Qed.
Lemma st_load_reg r Q V d nl e : (r < 16)%nat → alu_wf e → dc_thumb d = 0 →
  (∀ t, V !! t = None → Q (Tmp t) (St (<[t := Some (reg_read (reads_pc d) e r)]> V) d nl e)) →
  wp (load_reg r) Q (St V d nl e).
Proof.
  intros Hr He Hth HQ. apply wp_bind, st_new. intros t Ht. apply wp_bind, st_load_reg_var; [done..|vals|].
  apply wp_ret. cbn. rewrite insert_insert_eq. by apply HQ.
Qed.
Lemma reg_read_u32 d e r : alu_wf e → (r < 16)%nat → is_u32 (reg_read (reads_pc d) e r).
Proof. intros He Hr. unfold reg_read. destruct (_ =? _)%nat; [apply u32_bound|by apply reg_some]. Qed.

(** What an assignment to the program counter does. *)
Definition put_reg (r : nat) (x : Z) (e : CPUARMState) : CPUARMState :=
  set_reg r (if (r =? 15)%nat then x .& 0xfffffffe else x) e.
Definition jumps (r : nat) (d : DisasContext) : DisasContext :=
  if (r =? 15)%nat then d <| is_jmp := DISAS_JUMP |> else d.
Lemma st_store_reg r t x Q V d nl e : (r < 16)%nat → V !! t = Some (Some x) → is_u32 x →
  Q tt (St (delete t V) (jumps r d) nl (put_reg r x e)) → wp (store_reg r (Tmp t)) Q (St V d nl e).
Proof.
  intros Hr Ht Hx HQ. unfold store_reg, put_reg, jumps, cpu_R in *. rewrite (proj2 (Nat.ltb_lt r 16) Hr).
  destruct (r =? 15)%nat.
  - apply wp_bind, wp_bind, (wp_andi _ _ _ _ _ _ _ x); [done|vals..|].
    apply wp_set_jmp, wp_bind, wp_ret, wp_bind, (wp_mov _ _ _ _ _ _ (x .& u32 (Z.lnot 1))); [done|vals|by apply is_u32_land|done|].
    apply (st_free t (Some (x .& u32 (Z.lnot 1)))); [vals|]. cbn. by rewrite delete_insert_eq.
  - apply wp_bind, wp_ret, wp_bind, wp_ret, wp_bind, (wp_mov _ _ _ _ _ _ x); [done|vals|done..|].
    by apply (st_free t (Some x)).
Qed.

(** *** Shifts by a constant *)
Lemma st_set_CF t (c : bool) Q V d nl e : V !! t = Some (Some (of_bool c)) →
  Q tt (St V d nl (set_c (of_bool c) e)) → wp (gen_set_CF (Tmp t)) Q (St V d nl e).
Proof. intros Ht HQ. by apply (wp_st _ _ _ _ _ _ (of_bool c)); [|vals|]. Qed.
Lemma st_shifter_out t x n Q V d nl e : V !! t = Some (Some x) → is_u32 x → 0 ≤ n < 32 →
  Q tt (St V d nl (set_c (of_bool (Z.testbit x n)) e)) → wp (shifter_out_im (Tmp t) n) Q (St V d nl e).
Proof.
  intros Ht Hx Hn HQ. unfold shifter_out_im. apply wp_bind, st_new. intros t' Ht'.
  assert (t' ≠ t) by congruence. apply wp_bind.
  assert (∀ Q', Q' tt (St (<[t' := Some (of_bool (Z.testbit x n))]> V) d nl e) →
    wp (if n =? 0 then tcg_gen_andi_i32 (Tmp t') (Tmp t) 1
        else tcg_gen_shri_i32 (Tmp t') (Tmp t) n;;
             if negb (n =? 31) then tcg_gen_andi_i32 (Tmp t') (Tmp t') 1 else skip_gen) Q'
       (St (<[t' := None]> V) d nl e)) as Hbit.
  { intros Q' HQ'. pose proof (bit_value x n ltac:(lia)) as Eb. destruct (Z.eqb_spec n 0) as [->|].
    - apply (wp_andi _ _ _ _ _ _ _ x); [done|vals..|]. change (u32 1) with 1. rewrite Z.shiftr_0_r in Eb. rewrite Eb.
      cbn. by rewrite insert_insert_eq.
    - apply wp_bind, (wp_shri _ _ _ _ _ _ _ x); [done|vals..|lia|]. cbn. rewrite insert_insert_eq.
      assert (is_u32 (x >> n)) by (rewrite Z.shiftr_div_pow2 by lia; by apply (shift_C_u32 LSR x n); [|lia]).
      destruct (Z.eqb_spec n 31) as [->|]; cbn [negb].
      + apply wp_ret. rewrite <- Eb, land_bit31 in HQ' by done. exact HQ'.
      + apply (wp_andi _ _ _ _ _ _ _ (x >> n)); [done|vals..|]. change (u32 1) with 1. rewrite Eb.
        cbn. by rewrite insert_insert_eq. }
  apply Hbit. apply wp_bind, (st_set_CF t' (Z.testbit x n)); [vals|]. eapply st_free; [vals|]. by rewrite delete_insert_id.
Qed.

(** The carry, when it is wanted. *)
Lemma st_when_out t x n (flags : bool) Q V d nl e : V !! t = Some (Some x) → is_u32 x → 0 ≤ n < 32 →
  Q tt (St V d nl (if flags then set_c (of_bool (Z.testbit x n)) e else e)) →
  wp (when flags (shifter_out_im (Tmp t) n)) Q (St V d nl e).
Proof. intros. destruct flags; [by apply (st_shifter_out _ x)|by apply wp_ret]. Qed.

Lemma st_lsl_im t n x flags Q V d nl e : V !! t = Some (Some x) → is_u32 x → 0 ≤ n < 32 → alu_wf e →
  (let '(r, c) := shift_imm 0 n x (truth (CF e)) in
   Q tt (St (<[t := Some r]> V) d nl (if flags : bool then set_c (of_bool c) e else e))) →
  wp (gen_arm_shift_im (Tmp t) 0 n flags) Q (St V d nl e).
Proof.
  intros Ht Hx Hn He HQ. unfold gen_arm_shift_im. cbv match. destruct (Z.eqb_spec n 0) as [->|]; cbn [negb when].
  - cbn in HQ. rewrite set_c_id, insert_id in HQ by done. apply wp_ret. by destruct flags.
  - rewrite lsl_imm in HQ by (done || lia). apply wp_bind, (st_when_out _ x); [done..|lia|].
    apply (wp_shli _ _ _ _ _ _ _ x); [done|vals..|lia|done].
Qed.
Lemma st_lsr_im t n x flags Q V d nl e : V !! t = Some (Some x) → is_u32 x → 0 ≤ n < 32 → alu_wf e →
  (let '(r, c) := shift_imm 1 n x (truth (CF e)) in
   Q tt (St (<[t := Some r]> V) d nl (if flags : bool then set_c (of_bool c) e else e))) →
  wp (gen_arm_shift_im (Tmp t) 1 n flags) Q (St V d nl e).
Proof.
  intros Ht Hx Hn He HQ. unfold gen_arm_shift_im. cbv match. destruct (Z.eqb_spec n 0) as [->|].
  - rewrite lsr_imm_0 in HQ by done. apply wp_bind. destruct flags; cbn [when].
    + apply wp_bind, (wp_shri _ _ _ _ _ _ _ x); [done|vals..|lia|].
      rewrite <- land_bit31, bit_value by (done || lia). apply (st_set_CF t (Z.testbit x 31)); [vals|].
      apply wp_movi; [done|vals|]. cbn -[Z.testbit]. by rewrite insert_insert_eq.
    + apply wp_ret, wp_movi; [done|vals|done].
  - rewrite lsr_imm in HQ by (done || lia). apply wp_bind, (st_when_out _ x); [done..|lia|].
    apply (wp_shri _ _ _ _ _ _ _ x); [done|vals..|lia|done].
Qed.
Lemma st_asr_im t n x flags Q V d nl e : V !! t = Some (Some x) → is_u32 x → 0 ≤ n < 32 → alu_wf e →
  (let '(r, c) := shift_imm 2 n x (truth (CF e)) in
   Q tt (St (<[t := Some r]> V) d nl (if flags : bool then set_c (of_bool c) e else e))) →
  wp (gen_arm_shift_im (Tmp t) 2 n flags) Q (St V d nl e).
Proof.
  intros Ht Hx Hn He HQ. unfold gen_arm_shift_im. cbv match. rewrite asr_imm in HQ by done.
  set (n' := if n =? 0 then 32 else n) in *.
  assert (0 < n' ≤ 32) by (subst n'; destruct (Z.eqb_spec n 0); lia). clearbody n'.
  apply wp_bind, (st_when_out _ x); [done..|lia|].
  apply (wp_sari _ _ _ _ _ _ _ x); [done|vals..| |done]. destruct (Z.eqb_spec n' 32); lia.
Qed.
Lemma st_ror_im t n x flags Q V d nl e : V !! t = Some (Some x) → is_u32 x → 0 ≤ n < 32 → alu_wf e →
  (let '(r, c) := shift_imm 3 n x (truth (CF e)) in
   Q tt (St (<[t := Some r]> V) d nl (if flags : bool then set_c (of_bool c) e else e))) →
  wp (gen_arm_shift_im (Tmp t) 3 n flags) Q (St V d nl e).
Proof.
  intros Ht Hx Hn He HQ. unfold gen_arm_shift_im. cbv match. destruct (Z.eqb_spec n 0) as [->|]; cbn [negb].
  - rewrite rrx_imm in HQ by done. apply wp_bind. unfold load_cpu_field. apply wp_bind, st_new. intros t' Ht'.
    assert (t' ≠ t) by congruence. apply wp_bind, wp_ld; [done|vals|]. apply wp_ret.
    cbn. rewrite (wf_carry e He), insert_insert_eq. set (c := truth (CF e)) in *.
    apply wp_bind, (st_when_out t x); [vals|done|lia|].
    set (e' := if flags then _ else e).
    apply wp_bind, (wp_shri _ _ _ _ _ _ _ x); [done|vals..|lia|]. cbn.
    apply wp_bind, (wp_shli _ _ _ _ _ _ _ (of_bool c)); [done|vals|by destruct c|vals|lia|]. cbn.
    apply wp_bind, (computes_or fuel retaddr linked lb _ _ _ (x >> 1) (u32 (of_bool c << 31)) ((x >> 1) .| u32 (of_bool c << 31)));
      [done|vals..| |apply u32_bound|done|vals|]. 
    + rewrite Z.shiftr_div_pow2 by lia. by apply (shift_C_u32 LSR x 1).
    + eapply st_free; [vals|]. cbn.
      same_vals HQ.
  - rewrite ror_imm in HQ by (done || lia). apply wp_bind, (st_when_out _ x); [done..|lia|].
    apply (wp_rotri _ _ _ _ _ _ _ x); [done|vals..|lia|done].
Qed.
Lemma st_shift_im t ty n x flags Q V d nl e : V !! t = Some (Some x) → is_u32 x → 0 ≤ ty < 4 → 0 ≤ n < 32 →
  alu_wf e →
  (let '(r, c) := shift_imm ty n x (truth (CF e)) in
   Q tt (St (<[t := Some r]> V) d nl (if flags : bool then set_c (of_bool c) e else e))) →
  wp (gen_arm_shift_im (Tmp t) ty n flags) Q (St V d nl e).
Proof.
  intros Ht Hx Hty Hn He. assert (ty = 0 ∨ ty = 1 ∨ ty = 2 ∨ ty = 3) as [->|[->|[->| ->]]] by lia.
  - by apply st_lsl_im.
  - by apply st_lsr_im.
  - by apply st_asr_im.
  - by apply st_ror_im.
Qed.

(** *** Shifts by a register *)
Lemma st_call h t v args xs e' w Q V d nl e : call_helper h xs (with_cpu e σ) = Ok (Done v (with_cpu e' σ)) →
  V !! t = Some w → Forall2 (λ a x, aval (St V d nl e) a = Some x) args xs →
  Q tt (St (<[t := Some v]> V) d nl e') → wp (gen_helper h (Some (Tmp t)) args) Q (St V d nl e).
Proof. intros Hc Ht Ha HQ. apply (wp_helper fuel retaddr linked lb h (Some (Tmp t)) args xs v (with_cpu e' σ)); [done..|vals|done]. Qed.

Lemma call_env h xs f e r e' : (∀ s : smmu D, call_helper h xs s = on_env f s) → f e = (r, e') →
  call_helper h xs (with_cpu e σ) = Ok (Done r (with_cpu e' σ)).
Proof. intros Hh Hf. rewrite Hh. unfold on_env, ret_env. cbn. by rewrite Hf. Qed.
Lemma call_pure h xs e v : (∀ s : smmu D, call_helper h xs s = sm_ret v s) →
  call_helper h xs (with_cpu e σ) = Ok (Done v (with_cpu e σ)).
Proof. intros Hh. by rewrite Hh. Qed.

Lemma st_shift_reg t t2 ty x y flags Q V d nl e : V !! t = Some (Some x) → V !! t2 = Some (Some y) → t ≠ t2 →
  is_u32 x → is_u32 y → 0 ≤ ty < 4 → alu_wf e →
  (let '(r, c) := shift_reg ty y x (truth (CF e)) in
   Q tt (St (delete t2 (<[t := Some r]> V)) d nl (if flags : bool then set_c (of_bool c) e else e))) →
  wp (gen_arm_shift_reg (Tmp t) ty (Tmp t2) flags) Q (St V d nl e).
Proof.
  intros Ht Ht2 Hne Hx Hy Hty He HQ. unfold gen_arm_shift_reg.
  destruct (shift_reg ty y x (truth (CF e))) as [r c] eqn:E.
  pose proof (shifts_reg ty y x e Hx He) as Es. rewrite E in Es.
  apply wp_bind.
  assert (∀ h e', call_helper h [x; y] (with_cpu e σ) = Ok (Done r (with_cpu e' σ)) →
    e' = (if flags then set_c (of_bool c) e else e) →
    wp (gen_helper h (Some (Tmp t)) [Tmp t; Tmp t2])
      (λ _, wp (tcg_temp_free_i32 (Tmp t2)) Q) (St V d nl e)) as Hcall.
  { intros h e' Hh ->. eapply st_call; [exact Hh|done|repeat constructor; vals|]. by eapply st_free; [vals|]. }
  assert (ty = 0 ∨ ty = 1 ∨ ty = 2 ∨ ty = 3) as [->|[->|[->| ->]]] by lia; cbn [shift_of] in Es; destruct flags; cbv match.
  - eapply Hcall; [apply (call_env _ _ (shl_cc x y)); [done|]; by rewrite shl_cc_eq, Es|done].
  - eapply Hcall; [apply call_pure; intros s; cbn [call_helper]; by rewrite (shl_eq x y e), Es|done].
  - eapply Hcall; [apply (call_env _ _ (shr_cc x y)); [done|]; by rewrite shr_cc_eq, Es|done].
  - eapply Hcall; [apply call_pure; intros s; cbn [call_helper]; by rewrite (shr_eq x y e), Es|done].
  - eapply Hcall; [apply (call_env _ _ (sar_cc x y)); [done|]; by rewrite sar_cc_eq, Es|done].
  - eapply Hcall; [apply call_pure; intros s; cbn [call_helper]; by rewrite (sar_eq x y e), Es|done].
  - eapply Hcall; [apply (call_env _ _ (ror_cc x y)); [done|]; by rewrite ror_cc_eq, Es|done].
  - pose proof (ror_low y x (truth (CF e)) Hx) as Er. rewrite E in Er. cbn in Er.
    apply wp_bind, (wp_andi _ _ _ _ _ _ _ y); [done|vals|done|vals|]. change (u32 0x1f) with 0x1f. cbn [aset].
    apply (wp_op2 _ _ _ _ _ _ _ _ x (y .& 0x1f) r); [done|vals|vals| |vals|].
    + cbn [binop_sem]. rewrite shift_sem_ok. 2:{ change 31 with (Z.ones 5). rewrite Z.land_ones by lia. by apply Z.mod_pos_bound. }
      by rewrite Er.
    + eapply st_free; [vals|]. cbn. same_vals HQ.
Qed.

(** *** Conditions *)
Definition forget (V : gmap nat (option Z)) : gmap nat (option Z) := (λ _, None) <$> V.
Lemma forget_twice V : forget (forget V) = forget V.
Proof. unfold forget. by rewrite <- map_fmap_compose. Qed.
Lemma forget_new V t v : V !! t = None → delete t (forget (<[t := v]> V)) = forget V.
Proof. intros Ht. unfold forget. by rewrite <- fmap_delete, delete_insert_id. Qed.
Lemma forget_lookup V t v : is_Some (forget (<[t := v]> V) !! t).
Proof. unfold forget. rewrite lookup_fmap, lookup_insert_eq. by eexists. Qed.

(** On the way to a label, or not. *)
Definition Sk (sk : option flow) V d nl e : ast (D := D) := mkAst V d nl sk (with_cpu e σ).
Definition taken (sk : option (flow (D := D))) (b : bool) (label : nat) : option flow :=
  match sk with Some fl => Some fl | None => if b then Some (Skip label) else None end.

(** A branch on a value computed without labels. *)
Lemma sk_branch (m : gen tcgv) b label Q sk V d nl e :
  (∀ lb' Q, (∀ t, V !! t = None → Q (Tmp t) (Sk (taken None b label) (forget (<[t := None]> V)) d nl e)) →
     TcgFacts.wp fuel retaddr linked lb' m Q (St V d nl e)) →
  (∀ t, V !! t = None → Q (Tmp t) (Sk (taken sk b label) (forget (<[t := None]> V)) d nl e)) →
  wp m Q (Sk sk V d nl e).
Proof.
  intros Hm HQ. destruct sk as [fl|]; [|by apply Hm].
  assert (∃ lb', below lb' fl ∧ (lb ≤ lb')%nat) as (lb' & Hl & Hlb).
  { destruct fl as [l|r]; [exists (lb `max` S l)%nat; unfold below; lia|by exists lb]. }
  apply (wp_skip _ _ _ lb lb' m
    (λ a s', ∃ t, V !! t = None ∧ a = Tmp t ∧ s' = Sk (taken None b label) (forget (<[t := None]> V)) d nl e) _ _ fl);
    [done..|apply Hm; by eauto|].
  intros a s' (t & Ht & -> & ->). cbn. change (_ <$> forget ?W) with (forget (forget W)). rewrite forget_twice.
  by apply (HQ t Ht).
Qed.
Lemma sk_branch_on f c label Q sk V d nl e :
  (∀ t, V !! t = None →
     Q (Tmp t) (Sk (taken sk (cond_sem c (get_env f e) 0) label) (forget (<[t := None]> V)) d nl e)) →
  wp (branch_on f c label) Q (Sk sk V d nl e).
Proof.
  apply sk_branch. clear. intros lb' Q HQ. apply wp_bind, wp_bind, wp_new_i32. intros t Ht.
  apply wp_bind, wp_ld; [done|vals|]. apply wp_ret, wp_bind, (wp_brcondi _ _ _ _ _ _ _ _ (get_env f e)); [done|vals|].
  apply wp_ret. specialize (HQ t Ht). cbn in HQ |- *. rewrite insert_insert_eq. unfold branch_to. cbn.
  unfold Sk, forget in HQ. rewrite fmap_insert in HQ |- *. exact HQ.
Qed.
Lemma sk_branch_on_nv c label Q sk V d nl e :
  (∀ t, V !! t = None →
     Q (Tmp t) (Sk (taken sk (cond_sem c (VF e .^ NF e) 0) label) (forget (<[t := None]> V)) d nl e)) →
  wp (branch_on_nv c label) Q (Sk sk V d nl e).
Proof.
  apply sk_branch. clear. intros lb' Q HQ.
  apply wp_bind, wp_bind, wp_new_i32. intros t Ht. apply wp_bind, wp_ld; [done|vals|]. apply wp_ret.
  apply wp_bind, wp_bind, wp_new_i32. intros t' Ht'. cbn in Ht'.
  assert (t' ≠ t) by (intros ->; by rewrite lookup_insert_eq in Ht').
  apply wp_bind, wp_ld; [done|vals|]. apply wp_ret. apply wp_bind.
  unfold tcg_gen_xor_i32. rewrite bool_decide_eq_false_2 by congruence.
  apply (wp_op2 _ _ _ _ _ _ _ _ (VF e) (NF e) (VF e .^ NF e)); [done|vals|vals|done|vals|].
  apply wp_bind, wp_free_i32; [vals|].
  apply wp_bind, (wp_brcondi _ _ _ _ _ _ _ _ (VF e .^ NF e)); [done|vals|]. apply wp_ret.
  specialize (HQ t Ht). revert HQ. unfold Sk, St, branch_to, forget. cbn.
  replace ((λ _, None) <$> delete t' _) with ((λ _ : option Z, None : option Z) <$> (<[t := None]> V)); [done|].
  apply map_eq. intros i. rewrite !lookup_fmap, ?lookup_delete, ?lookup_insert.
  rewrite !lookup_insert in Ht'. repeat (case_decide; subst); done || by destruct (V !! i).
Qed.

(** The sign of a word, and of an exclusive or. *)
Lemma sign_bit x : (s32 x <? 0) = Z.testbit x 31.
Proof.
  rewrite <- (u32_testbit x 31), negative_bit by (lia || apply u32_bound).
  unfold s32, sext, u32. by rewrite Z.mod_mod by lia.
Qed.
Lemma cond_lt x : cond_sem COND_LT x 0 = Z.testbit x 31.
Proof. by rewrite <- sign_bit. Qed.
Lemma cond_ge x : cond_sem COND_GE x 0 = negb (Z.testbit x 31).
Proof. rewrite <- sign_bit. cbn [cond_sem]. change (s32 0) with 0. by rewrite Z.leb_antisym. Qed.

(** The tests of the flags. *)
Lemma flag_tests e : let '(N, Z, C, V) := nzcv e in
  cond_sem COND_EQ (ZF e) 0 = Z ∧ cond_sem COND_NE (ZF e) 0 = negb Z ∧
  cond_sem COND_EQ (CF e) 0 = negb C ∧ cond_sem COND_NE (CF e) 0 = C ∧
  cond_sem COND_LT (NF e) 0 = N ∧ cond_sem COND_GE (NF e) 0 = negb N ∧
  cond_sem COND_LT (VF e) 0 = V ∧ cond_sem COND_GE (VF e) 0 = negb V ∧
  cond_sem COND_LT (VF e .^ NF e) 0 = xorb V N ∧ cond_sem COND_GE (VF e .^ NF e) 0 = negb (xorb V N).
Proof.
  unfold nzcv. rewrite !cond_lt, !cond_ge, Z.lxor_spec. split_and!; try done.
  cbn [cond_sem]. unfold truth. by rewrite negb_involutive.
Qed.

(** [m] jumps to [label] when [b] holds, and returns a temporary in use. *)
Definition tests (m : gen tcgv) (b : bool) (label : nat) d e : Prop := ∀ sk Q V nl,
  (∀ t, V !! t = None → Q (Tmp t) (Sk (taken sk b label) (forget (<[t := None]> V)) d nl e)) →
  wp m Q (Sk sk V d nl e).
Lemma tests_on f c label d e : tests (branch_on f c label) (cond_sem c (get_env f e) 0) label d e.
Proof. intros sk Q V nl. apply sk_branch_on. Qed.
Lemma tests_nv c label d e : tests (branch_on_nv c label) (cond_sem c (VF e .^ NF e) 0) label d e.
Proof. intros sk Q V nl. apply sk_branch_on_nv. Qed.
Lemma tests_free m b label Q sk V d nl e : tests m b label d e →
  Q tt (Sk (taken sk b label) (forget V) d nl e) → wp (tmp ← m; tcg_temp_free_i32 tmp) Q (Sk sk V d nl e).
Proof.
  intros Hm HQ. apply wp_bind, Hm. intros t Ht. apply wp_free_i32; [apply forget_lookup|].
  cbn. by rewrite forget_new.
Qed.
(** The test of another flag jumps to [label] as well, or over this one. *)
Lemma tests_or f c m b label Q V d nl e : tests m b label d e →
  Q tt (Sk (if cond_sem c (get_env f e) 0 || b then Some (Skip label) else None) (forget V) d nl e) →
  wp (tmp ← (tmp ← branch_on f c label; tcg_temp_free_i32 tmp;; m); tcg_temp_free_i32 tmp) Q (St V d nl e).
Proof.
  intros Hm HQ. apply wp_bind, (wp_assoc fuel retaddr linked lb (branch_on f c label) (λ tmp, tcg_temp_free_i32 tmp) (λ _, m)).
  apply wp_bind, (tests_free _ _ _ _ None V d nl e (tests_on f c label d e)). apply Hm. intros t Ht.
  apply wp_free_i32; [apply forget_lookup|]. cbn -[cond_sem taken]. rewrite forget_new, forget_twice by done.
  by destruct (cond_sem c (get_env f e) 0), b.
Qed.
Lemma tests_over f c (m : gen tcgv) b label Q V d nl e : tests m b label d e →
  (label < nl)%nat → (lb ≤ nl)%nat → (nl < TCG_MAX_LABELS)%nat →
  Q tt (Sk (if negb (cond_sem c (get_env f e) 0) && b then Some (Skip label) else None) (forget V) d (S nl) e) →
  wp (tmp ← (inv ← gen_new_label; tmp ← branch_on f c inv; tcg_temp_free_i32 tmp;;
             tmp ← m; gen_set_label inv;; mret tmp); tcg_temp_free_i32 tmp) Q (St V d nl e).
Proof.
  intros Hm Hl Hlb Hnl HQ. apply wp_bind, wp_bind, wp_new_label; [done|]. cbn [a_nl a_vals a_dc a_sk a_σ St].
  apply (wp_assoc fuel retaddr linked lb (branch_on f c nl) (λ tmp, tcg_temp_free_i32 tmp)).
  apply wp_bind, (tests_free _ _ _ _ None V d (S nl) e (tests_on f c nl d e)).
  apply wp_bind, Hm. intros t Ht. apply wp_bind, wp_set_label; [done|]. apply wp_ret, wp_free_i32.
  { apply branch_used, forget_lookup. }
  unfold branch_to. cbn -[cond_sem taken]. change (_ <$> forget ?W) with (forget (forget W)).
  rewrite forget_twice, forget_new, forget_twice by done.
  destruct (cond_sem c (get_env f e) 0), b; cbn in *; rewrite ?Nat.eqb_refl; try done.
  by rewrite (proj2 (Nat.eqb_neq label nl)) by lia.
Qed.

(** The condition a jump tests; [label] is placed later. *)
Lemma sk_test_cc cc label Q V d nl e : 0 ≤ cc < 14 → (label < nl)%nat → (lb ≤ nl)%nat → (nl < TCG_MAX_LABELS)%nat →
  (∀ nl', (nl ≤ nl' ≤ S nl)%nat →
     Q tt (Sk (if ConditionHolds cc (nzcv e) then Some (Skip label) else None) (forget V) d nl' e)) →
  wp (gen_test_cc cc label) Q (St V d nl e).
Proof.
  intros Hcc Hl Hlb Hnl HQ. unfold gen_test_cc.
  assert (∀ m b, tests m b label d e → ConditionHolds cc (nzcv e) = b →
    wp (tmp ← m; tcg_temp_free_i32 tmp) Q (St V d nl e)) as Hone.
  { intros m b Hm Hb. apply (tests_free m b label _ None V d nl e Hm). rewrite <- Hb. apply HQ. lia. }
  assert (∃ n, cc = Z.of_nat n ∧ (n < 14)%nat) as (n & -> & Hn) by (exists (Z.to_nat cc); lia).
  pose proof (HQ nl ltac:(lia)) as HQ0. pose proof (HQ (S nl) ltac:(lia)) as HQ1. clear HQ.
  pose proof (flag_tests e) as Ef. destruct (nzcv e) as [[[N Z'] C] V'].
  destruct Ef as (EZ & ENZ & EC & ENC & EN & EPN & EV & EPV & EX & EPX).
  destruct n as [|[|[|[|[|[|[|[|[|[|[|[|[|[|n]]]]]]]]]]]]]]; [..|lia].
  - apply (Hone _ _ (tests_on F_ZF COND_EQ label d e)). cbn [get_env]. rewrite EZ. done.
  - apply (Hone _ _ (tests_on F_ZF COND_NE label d e)). cbn [get_env]. rewrite ENZ. done.
  - apply (Hone _ _ (tests_on F_CF COND_NE label d e)). cbn [get_env]. rewrite ENC. done.
  - apply (Hone _ _ (tests_on F_CF COND_EQ label d e)). cbn [get_env]. rewrite EC. done.
  - apply (Hone _ _ (tests_on F_NF COND_LT label d e)). cbn [get_env]. rewrite EN. done.
  - apply (Hone _ _ (tests_on F_NF COND_GE label d e)). cbn [get_env]. rewrite EPN. done.
  - apply (Hone _ _ (tests_on F_VF COND_LT label d e)). cbn [get_env]. rewrite EV. done.
  - apply (Hone _ _ (tests_on F_VF COND_GE label d e)). cbn [get_env]. rewrite EPV. done.
  - apply (tests_over F_CF COND_EQ _ _ label _ _ _ _ _ (tests_on F_ZF COND_NE label d e)); [done..|].
    cbn [get_env]. rewrite EC, ENZ. by destruct C, Z'.
  - apply (tests_or F_CF COND_EQ _ _ label _ _ _ _ _ (tests_on F_ZF COND_EQ label d e)).
    cbn [get_env]. rewrite EC, EZ. by destruct C, Z'.
  - apply (Hone _ _ (tests_nv COND_GE label d e)). rewrite EPX. by destruct N, V'.
  - apply (Hone _ _ (tests_nv COND_LT label d e)). rewrite EX. by destruct N, V'.
  - apply (tests_over F_ZF COND_EQ _ _ label _ _ _ _ _ (tests_nv COND_GE label d e)); [done..|].
    cbn [get_env]. rewrite EZ, EPX. by destruct N, Z', V'.
  - apply (tests_or F_ZF COND_EQ _ _ label _ _ _ _ _ (tests_nv COND_LT label d e)).
    cbn [get_env]. rewrite EZ, EX. by destruct N, Z', V'.
Qed.
End gens.
