(* ===== verification/DisasArm.v ===== *)
(** * Decoding ARM instructions ([disas_arm_insn] in [target-arm/translate.c])

    The decoder, in the parts its comments name, and the translation of a block
    ([gen_intermediate_code_internal]).  Single stepping, breakpoints and
    instruction counting are off. *)
From S2P Require Import Prelude SoftTlb ArmCpu ArmMode ArmMmu ArmAlu SoftMmu GuestOps Tcg TransArm.

Section disas.
(** The CPU at translation time, the code by its address ([ldl_code]), and the
    decoders that are not modelled: they answer true for an invalid
    instruction. *)
Context (env : CPUARMState) (ldl_code : Z → res Z).
Context (disas_neon_data_insn disas_neon_ls_insn disas_iwmmxt_insn disas_coproc_insn : Z → gen bool).
Context (disas_thumb_insn : gen unit).

Definition on_dc (f : DisasContext → DisasContext) : gen unit := λ g, Ok (Some tt, g <| dc := f (dc g) |>).

(** [ARCH(x)] *)
Definition arch (b : bool) : gen unit := if b then skip_gen else illegal_op.
Definition ENABLE_ARCH_4T : bool := arm_feature env ARM_FEATURE_V4T.
Definition ENABLE_ARCH_5 : bool := arm_feature env ARM_FEATURE_V5.
Definition ENABLE_ARCH_5TE : bool := arm_feature env ARM_FEATURE_V5.
Definition ENABLE_ARCH_5J : bool := false.
Definition ENABLE_ARCH_6 : bool := arm_feature env ARM_FEATURE_V6.
Definition ENABLE_ARCH_6K : bool := arm_feature env ARM_FEATURE_V6K.
Definition ENABLE_ARCH_6T2 : bool := arm_feature env ARM_FEATURE_THUMB2.
Definition ENABLE_ARCH_7 : bool := arm_feature env ARM_FEATURE_V7.
Definition illegal_if (m : gen bool) : gen unit := m ≫= λ b : bool, if b then illegal_op else skip_gen.
Definition not_user : gen unit := get_dc dc_user ≫= λ u : bool, if u then illegal_op else skip_gen.

Definition store_reg_bx (reg : nat) (var : tcgv) : gen unit :=
  if (reg =? 15)%nat && ENABLE_ARCH_7 then gen_bx var else store_reg reg var.
Definition store_reg_from_load (reg : nat) (var : tcgv) : gen unit :=
  if (reg =? 15)%nat && ENABLE_ARCH_5 then gen_bx var else store_reg reg var.

(** The bits of a PSR that an MSR instruction sets. *)
Definition msr_mask (flags : Z) (spsr : bool) : gen Z :=
  user ← get_dc dc_user;
  let field k m mask := if has_bit k flags then mask .| m else mask in
  let clear b m mask := if negb b then mask .& Z.lnot m else mask in
  let mask := field 3 0xff000000 (field 2 0xff0000 (field 1 0xff00 (field 0 0xff 0))) in
  let mask := mask .& Z.lnot CPSR_RESERVED in
  let mask := clear (arm_feature env ARM_FEATURE_V4T) CPSR_T mask in
  let mask := clear (arm_feature env ARM_FEATURE_V5) CPSR_Q mask in
  let mask := clear (arm_feature env ARM_FEATURE_V6) (CPSR_E .| CPSR_GE) mask in
  let mask := clear (arm_feature env ARM_FEATURE_THUMB2) CPSR_IT mask in
  let mask := clear spsr CPSR_EXEC mask in
  mret (if (user : bool) then mask .& CPSR_USER else mask).

(** [(val >> shift) | (val << (32 - shift))] for the immediate operands *)
Definition rotated_imm (insn : Z) : Z * Z :=
  let val := insn .& 0xff in
  let shift := ((insn >> 8) .& 0xf) * 2 in
  (if truth shift then u32 ((val >> shift) .| (val << (32 - shift))) else val, shift).

(** *** Unconditional instructions *)
Definition offset_of (offsets : list Z) (i : Z) : gen Z :=
  match offsets !! Z.to_nat i with Some o => mret o | None => gen_err (Aborted "abort") end.
Definition disas_srs (insn : Z) : gen unit :=
  not_user;;
  arch ENABLE_ARCH_6;;
  let op1 := insn .& 0x1f in
  addr ← tcg_temp_new_i32;
  tmp ← tcg_const_i32 op1;
  gen_helper H_get_r13_banked (Some addr) [tmp];;
  tcg_temp_free_i32 tmp;;
  let i := (insn >> 23) .& 3 in
  offset ← offset_of [-4; 0; -8; 4] i;
  when (truth offset) (tcg_gen_addi_i32 addr addr offset);;
  tmp ← load_reg 14;
  gen_st32 tmp addr 0;;
  tmp ← load_cpu_field F_spsr;
  tcg_gen_addi_i32 addr addr 4;;
  gen_st32 tmp addr 0;;
  if has_bit 21 insn then
    offset ← offset_of [-8; 4; -4; 0] i;
    when (truth offset) (tcg_gen_addi_i32 addr addr offset);;
    tmp ← tcg_const_i32 op1;
    gen_helper H_set_r13_banked None [tmp; addr];;
    tcg_temp_free_i32 tmp;;
    tcg_temp_free_i32 addr
  else tcg_temp_free_i32 addr.

Definition disas_rfe (insn : Z) : gen unit :=
  not_user;;
  arch ENABLE_ARCH_6;;
  let rn := reg_at 16 insn in
  addr ← load_reg rn;
  let i := (insn >> 23) .& 3 in
  offset ← offset_of [-4; 0; -8; 4] i;
  when (truth offset) (tcg_gen_addi_i32 addr addr offset);;
  tmp ← gen_ld32 addr 0;
  tcg_gen_addi_i32 addr addr 4;;
  tmp2 ← gen_ld32 addr 0;
  (if has_bit 21 insn then
     offset ← offset_of [-8; 4; -4; 0] i;
     when (truth offset) (tcg_gen_addi_i32 addr addr offset);;
     store_reg rn addr
   else tcg_temp_free_i32 addr);;
  gen_rfe tmp tmp2.

(** The signed 24-bit offset of a branch, in words. *)
Definition branch_offset (insn : Z) : Z := s32 (insn << 8) >> 8.
Definition disas_blx_imm (insn : Z) : gen unit :=
  val ← get_dc dc_pc;
  tmp ← tcg_temp_new_i32;
  tcg_gen_movi_i32 tmp val;;
  store_reg 14 tmp;;
  let val := u32 (val + ((branch_offset insn << 2) .| ((insn >> 23) .& 2) .| 1)) in
  gen_bx_im (u32 (val + 4)).

Definition disas_cps (insn : Z) : gen unit :=
  user ← get_dc dc_user;
  if (user : bool) then skip_gen
  else
    let flag k m mask := if has_bit k insn then mask .| m else mask in
    let '(mask, val) :=
      if has_bit 19 insn then
        let mask := flag 6 CPSR_F (flag 7 CPSR_I (flag 8 CPSR_A 0)) in
        (mask, if has_bit 18 insn then mask else 0)
      else (0, 0) in
    let '(mask, val) :=
      if has_bit 17 insn then (mask .| CPSR_M, val .| (insn .& 0x1f)) else (mask, val) in
    when (truth mask) (_ ← gen_set_psr_im mask false val; mret tt).

Definition disas_barrier (insn : Z) : gen unit :=
  match (insn >> 4) .& 0xf with
  | 1 => arch ENABLE_ARCH_6K;; gen_clrex
  | 4 | 5 | 6 => arch ENABLE_ARCH_7
  | _ => illegal_op
  end.

Definition disas_uncond (insn : Z) : gen unit :=
  arch ENABLE_ARCH_5;;
  if (insn >> 25) .& 7 =? 1 then
    arch (arm_feature env ARM_FEATURE_NEON);; illegal_if (disas_neon_data_insn insn)
  else if is_insn 0x0f100000 0x04000000 insn then
    arch (arm_feature env ARM_FEATURE_NEON);; illegal_if (disas_neon_ls_insn insn)
  else if is_insn 0x0f30f000 0x0510f000 insn || is_insn 0x0f30f010 0x0710f000 insn then
    when (negb (has_bit 22 insn)) (arch (arm_feature env ARM_FEATURE_V7MP));;
    arch ENABLE_ARCH_5TE
  else if is_insn 0x0f70f000 0x0450f000 insn || is_insn 0x0f70f010 0x0650f000 insn then
    arch ENABLE_ARCH_7
  else if is_insn 0x0f700000 0x04100000 insn || is_insn 0x0f700010 0x06100000 insn then
    arch (arm_feature env ARM_FEATURE_V7MP)
  else if is_insn 0x0ffffdff 0x01010000 insn then
    arch ENABLE_ARCH_6;; if has_bit 9 insn then illegal_op else skip_gen
  else if is_insn 0x0fffff00 0x057ff000 insn then disas_barrier insn
  else if is_insn 0x0e5fffe0 0x084d0500 insn then disas_srs insn
  else if is_insn 0x0e50ffe0 0x08100a00 insn then disas_rfe insn
  else if is_insn 0x0e000000 0x0a000000 insn then disas_blx_imm insn
  else if is_insn 0x0e000f00 0x0c000100 insn then
    if arm_feature env ARM_FEATURE_IWMMXT && has_bit 1 (c15_cpar (cp15 env))
    then illegal_if (disas_iwmmxt_insn insn) else illegal_op
  else if is_insn 0x0fe00000 0x0c400000 insn then arch ENABLE_ARCH_5TE;; illegal_op
  else if is_insn 0x0f000010 0x0e000010 insn then illegal_if (disas_coproc_insn insn)
  else if is_insn 0x0ff10020 0x01000000 insn then disas_cps insn
  else illegal_op.

(** *** Moves of wide immediates, hints and status registers *)
Definition disas_mov16 (insn : Z) : gen unit :=
  if negb (has_bit 21 insn) then
    arch ENABLE_ARCH_6T2;;
    let rd := reg_at 12 insn in
    let val := ((insn >> 4) .& 0xf000) .| (insn .& 0xfff) in
    tmp ← (if negb (has_bit 22 insn) then
             tmp ← tcg_temp_new_i32; tcg_gen_movi_i32 tmp val;; mret tmp
           else
             tmp ← load_reg rd;
             tcg_gen_ext16u_i32 tmp tmp;;
             tcg_gen_ori_i32 tmp tmp (val << 16);;
             mret tmp);
    store_reg rd tmp
  else if negb ((insn >> 12) .& 0xf =? 0xf) then illegal_op
  else if (insn >> 16) .& 0xf =? 0 then gen_nop_hint (insn .& 0xff)
  else
    let i := has_bit 22 insn in
    mask ← msr_mask ((insn >> 16) .& 0xf) i;
    illegal_if (gen_set_psr_im mask i (rotated_imm insn).1).

(** *** Miscellaneous instructions *)
Definition disas_move_psr (insn op1 : Z) (rm : nat) : gen unit :=
  if has_bit 0 op1 then
    tmp ← load_reg rm;
    let i := has_bit 1 op1 in
    mask ← msr_mask ((insn >> 16) .& 0xf) i;
    illegal_if (gen_set_psr mask i tmp)
  else
    let rd := reg_at 12 insn in
    tmp ← (if has_bit 1 op1 then not_user;; load_cpu_field F_spsr
           else tmp ← tcg_temp_new_i32; gen_helper H_cpsr_read (Some tmp) [];; mret tmp);
    store_reg rd tmp.

Definition disas_saturating (insn op1 : Z) (rm : nat) : gen unit :=
  arch ENABLE_ARCH_5TE;;
  let rd := reg_at 12 insn in
  let rn := reg_at 16 insn in
  tmp ← load_reg rm;
  tmp2 ← load_reg rn;
  when (has_bit 1 op1) (gen_helper H_double_saturate (Some tmp2) [tmp2]);;
  (if has_bit 0 op1 then gen_helper H_sub_saturate (Some tmp) [tmp; tmp2]
   else gen_helper H_add_saturate (Some tmp) [tmp; tmp2]);;
  tcg_temp_free_i32 tmp2;;
  store_reg rd tmp.

(** [gen_helper_add_setq(tmp, tmp, tmp2)] with register [rn] *)
Definition gen_add_setq (tmp : tcgv) (rn : nat) : gen unit :=
  tmp2 ← load_reg rn;
  gen_helper H_add_setq (Some tmp) [tmp; tmp2];;
  tcg_temp_free_i32 tmp2.

Definition disas_signed_mul (insn op1 sh : Z) (rm : nat) : gen unit :=
  arch ENABLE_ARCH_5TE;;
  let rs := reg_at 8 insn in
  let rn := reg_at 12 insn in
  let rd := reg_at 16 insn in
  tmp ← load_reg rm;
  tmp2 ← load_reg rs;
  if op1 =? 1 then
    (if has_bit 2 sh then tcg_gen_sari_i32 tmp2 tmp2 16 else gen_sxth tmp2);;
    tmp64 ← gen_muls_i64_i32 tmp tmp2;
    tcg_gen_shri_i64 tmp64 tmp64 16;;
    tmp ← tcg_temp_new_i32;
    tcg_gen_trunc_i64_i32 tmp tmp64;;
    tcg_temp_free_i64 tmp64;;
    when (negb (has_bit 1 sh)) (gen_add_setq tmp rn);;
    store_reg rd tmp
  else
    gen_mulxy tmp tmp2 (has_bit 1 sh) (has_bit 2 sh);;
    tcg_temp_free_i32 tmp2;;
    if op1 =? 2 then
      tmp64 ← tcg_temp_new_i64;
      tcg_gen_ext_i32_i64 tmp64 tmp;;
      tcg_temp_free_i32 tmp;;
      gen_addq tmp64 rn rd;;
      gen_storeq_reg rn rd tmp64;;
      tcg_temp_free_i64 tmp64
    else
      when (op1 =? 0) (gen_add_setq tmp rn);;
      store_reg rd tmp.

Definition disas_misc (insn : Z) : gen unit :=
  let op1 := (insn >> 21) .& 3 in
  let sh := (insn >> 4) .& 0xf in
  let rm := reg_at 0 insn in
  match sh with
  | 0 => disas_move_psr insn op1 rm
  | 1 =>
      if op1 =? 1 then arch ENABLE_ARCH_4T;; tmp ← load_reg rm; gen_bx tmp
      else if op1 =? 3 then
        arch ENABLE_ARCH_5;;
        tmp ← load_reg rm;
        gen_helper H_clz (Some tmp) [tmp];;
        store_reg (reg_at 12 insn) tmp
      else illegal_op
  | 2 => if op1 =? 1 then arch ENABLE_ARCH_5J;; tmp ← load_reg rm; gen_bx tmp else illegal_op
  | 3 =>
      if negb (op1 =? 1) then illegal_op
      else
        arch ENABLE_ARCH_5;;
        tmp ← load_reg rm;
        tmp2 ← tcg_temp_new_i32;
        pc ← get_dc dc_pc;
        tcg_gen_movi_i32 tmp2 pc;;
        store_reg 14 tmp2;;
        gen_bx tmp
  | 5 => disas_saturating insn op1 rm
  | 7 =>
      if op1 =? 1 then arch ENABLE_ARCH_5;; gen_exception_insn 4 EXCP_BKPT
      else if op1 =? 3 then
        user ← get_dc dc_user;
        if negb (truth (nth 4 (c0_c2 (cp15 env)) 0 .& 0xf000)) || user then illegal_op else gen_smc
      else illegal_op
  | 8 | 10 | 12 | 14 => disas_signed_mul insn op1 sh rm
  | _ => illegal_op
  end.

(** *** Data processing *)

(** The second operand; [logic_cc]: the shifter's carry goes to C. *)
Definition disas_operand2 (insn : Z) (logic_cc : bool) : gen tcgv :=
  if has_bit 25 insn then
    let '(val, shift) := rotated_imm insn in
    tmp2 ← tcg_temp_new_i32;
    tcg_gen_movi_i32 tmp2 val;;
    when (logic_cc && truth shift) (gen_set_CF_bit31 tmp2);;
    mret tmp2
  else
    tmp2 ← load_reg (reg_at 0 insn);
    let shiftop := (insn >> 5) .& 3 in
    (if negb (has_bit 4 insn) then gen_arm_shift_im tmp2 shiftop ((insn >> 7) .& 0x1f) logic_cc
     else tmp ← load_reg (reg_at 8 insn); gen_arm_shift_reg tmp2 shiftop tmp logic_cc);;
    mret tmp2.

(** The operations with two operands; [logic_cc] implies [set_cc]. *)
Definition logic_op (op : tcgv → tcgv → tcgv → gen unit) (logic_cc : bool) (rd : nat) (tmp tmp2 : tcgv) : gen unit :=
  op tmp tmp tmp2;; when logic_cc (gen_logic_CC tmp);; store_reg_bx rd tmp.
Definition arith_op (h : helper) (op : tcgv → tcgv → tcgv → gen unit) (set_cc : bool) (rd : nat)
    (tmp a b : tcgv) : gen unit :=
  (if set_cc then gen_helper h (Some tmp) [a; b] else op tmp a b);; store_reg_bx rd tmp.

Definition disas_binary_op (op1 : Z) (set_cc logic_cc : bool) (rd : nat) (tmp tmp2 : tcgv) : gen unit :=
  match op1 with
  | 0x00 => logic_op tcg_gen_and_i32 logic_cc rd tmp tmp2
  | 0x01 => logic_op tcg_gen_xor_i32 logic_cc rd tmp tmp2
  | 0x02 =>
      if set_cc && (rd =? 15)%nat then
        not_user;; gen_helper H_sub_cc (Some tmp) [tmp; tmp2];; gen_exception_return tmp
      else arith_op H_sub_cc tcg_gen_sub_i32 set_cc rd tmp tmp tmp2
  | 0x03 => arith_op H_sub_cc tcg_gen_sub_i32 set_cc rd tmp tmp2 tmp
  | 0x04 => arith_op H_add_cc tcg_gen_add_i32 set_cc rd tmp tmp tmp2
  | 0x05 => arith_op H_adc_cc gen_add_carry set_cc rd tmp tmp tmp2
  | 0x06 => arith_op H_sbc_cc gen_sub_carry set_cc rd tmp tmp tmp2
  | 0x07 => arith_op H_sbc_cc gen_sub_carry set_cc rd tmp tmp2 tmp
  | 0x08 => when set_cc (tcg_gen_and_i32 tmp tmp tmp2;; gen_logic_CC tmp);; tcg_temp_free_i32 tmp
  | 0x09 => when set_cc (tcg_gen_xor_i32 tmp tmp tmp2;; gen_logic_CC tmp);; tcg_temp_free_i32 tmp
  | 0x0a => when set_cc (gen_helper H_sub_cc (Some tmp) [tmp; tmp2]);; tcg_temp_free_i32 tmp
  | 0x0b => when set_cc (gen_helper H_add_cc (Some tmp) [tmp; tmp2]);; tcg_temp_free_i32 tmp
  | 0x0c => logic_op tcg_gen_or_i32 logic_cc rd tmp tmp2
  | _ => logic_op tcg_gen_andc_i32 logic_cc rd tmp tmp2
  end.
Definition disas_mov_op (logic_cc : bool) (rd : nat) (tmp2 : tcgv) : gen unit :=
  if logic_cc && (rd =? 15)%nat then not_user;; gen_exception_return tmp2
  else when logic_cc (gen_logic_CC tmp2);; store_reg_bx rd tmp2.
Definition disas_mvn_op (logic_cc : bool) (rd : nat) (tmp2 : tcgv) : gen unit :=
  tcg_gen_not_i32 tmp2 tmp2;; when logic_cc (gen_logic_CC tmp2);; store_reg_bx rd tmp2.

Definition disas_data_processing (insn : Z) : gen unit :=
  let op1 := (insn >> 21) .& 0xf in
  let set_cc := has_bit 20 insn in
  let logic_cc := nth (Z.to_nat op1) table_logic_cc false && set_cc in
  tmp2 ← disas_operand2 insn logic_cc;
  let rd := reg_at 12 insn in
  match op1 with
  | 0x0d => disas_mov_op logic_cc rd tmp2
  | 0x0f => disas_mvn_op logic_cc rd tmp2
  | _ =>
      tmp ← load_reg (reg_at 16 insn);
      disas_binary_op op1 set_cc logic_cc rd tmp tmp2;;
      tcg_temp_free_i32 tmp2
  end.

(** *** Multiplies, exclusive accesses, swaps *)
Definition disas_multiply (insn : Z) : gen unit :=
  let rd := reg_at 16 insn in
  let rn := reg_at 12 insn in
  let rs := reg_at 8 insn in
  let rm := reg_at 0 insn in
  match (insn >> 20) .& 0xf with
  | 0 | 1 | 2 | 3 | 6 =>
      tmp ← load_reg rs;
      tmp2 ← load_reg rm;
      tcg_gen_mul_i32 tmp tmp tmp2;;
      tcg_temp_free_i32 tmp2;;
      (if has_bit 22 insn then
         arch ENABLE_ARCH_6T2;;
         tmp2 ← load_reg rn;
         tcg_gen_sub_i32 tmp tmp2 tmp;;
         tcg_temp_free_i32 tmp2
       else when (has_bit 21 insn) (
         tmp2 ← load_reg rn;
         tcg_gen_add_i32 tmp tmp tmp2;;
         tcg_temp_free_i32 tmp2));;
      when (has_bit 20 insn) (gen_logic_CC tmp);;
      store_reg rd tmp
  | 4 =>
      arch ENABLE_ARCH_6;;
      tmp ← load_reg rs;
      tmp2 ← load_reg rm;
      tmp64 ← gen_mulu_i64_i32 tmp tmp2;
      gen_addq_lo tmp64 rn;;
      gen_addq_lo tmp64 rd;;
      gen_storeq_reg rn rd tmp64;;
      tcg_temp_free_i64 tmp64
  | 5 | 7 => illegal_op
  | _ =>
      tmp ← load_reg rs;
      tmp2 ← load_reg rm;
      tmp64 ← (if has_bit 22 insn then gen_muls_i64_i32 tmp tmp2 else gen_mulu_i64_i32 tmp tmp2);
      when (has_bit 21 insn) (gen_addq tmp64 rn rd);;
      when (has_bit 20 insn) (gen_logicq_cc tmp64);;
      gen_storeq_reg rn rd tmp64;;
      tcg_temp_free_i64 tmp64
  end.

Definition disas_exclusive (insn : Z) : gen unit :=
  let rn := reg_at 16 insn in
  let rd := reg_at 12 insn in
  let op1 := (insn >> 21) .& 3 in
  arch (if truth op1 then ENABLE_ARCH_6K else ENABLE_ARCH_6);;
  addr ← tcg_temp_local_new_i32;
  load_reg_var addr rn;;
  (if has_bit 20 insn then
     match op1 with
     | 0 => gen_load_exclusive rd 15 addr 2
     | 1 => gen_load_exclusive rd (rd + 1) addr 3
     | 2 => gen_load_exclusive rd 15 addr 0
     | _ => gen_load_exclusive rd 15 addr 1
     end
   else
     let rm := reg_at 0 insn in
     match op1 with
     | 0 => gen_store_exclusive rd rm 15 addr 2
     | 1 => gen_store_exclusive rd rm (rm + 1) addr 3
     | 2 => gen_store_exclusive rd rm 15 addr 0
     | _ => gen_store_exclusive rd rm 15 addr 1
     end);;
  tcg_temp_free_i32 addr.

Definition disas_swap (insn : Z) : gen unit :=
  user ← user_index;
  addr ← load_reg (reg_at 16 insn);
  tmp ← load_reg (reg_at 0 insn);
  tmp2 ← (if has_bit 22 insn then tmp2 ← gen_ld8u addr user; gen_st8 tmp addr user;; mret tmp2
          else tmp2 ← gen_ld32 addr user; gen_st32 tmp addr user;; mret tmp2);
  tcg_temp_free_i32 addr;;
  store_reg (reg_at 12 insn) tmp2.

(** *** Halfword, signed and doubleword transfers *)

(** The value loaded, if any, with its register, and the offset left to
    undo. *)
Definition disas_misc_transfer (insn sh : Z) (rd : nat) (addr : tcgv) : gen (option (nat * tcgv) * Z) :=
  user ← user_index;
  if has_bit 20 insn then
    tmp ← (match sh with
           | 1 => gen_ld16u addr user
           | 2 => gen_ld8s addr user
           | _ => gen_ld16s addr user
           end);
    mret (Some (rd, tmp), 0)
  else if has_bit 1 sh then
    arch ENABLE_ARCH_5TE;;
    if has_bit 0 sh then
      tmp ← load_reg rd;
      gen_st32 tmp addr user;;
      tcg_gen_addi_i32 addr addr 4;;
      tmp ← load_reg (rd + 1);
      gen_st32 tmp addr user;;
      mret (None, -4)
    else
      tmp ← gen_ld32 addr user;
      store_reg rd tmp;;
      tcg_gen_addi_i32 addr addr 4;;
      tmp ← gen_ld32 addr user;
      mret (Some (rd + 1, tmp)%nat, -4)
  else
    tmp ← load_reg rd; gen_st16 tmp addr user;; mret (None, 0).

Definition disas_misc_ldst (insn sh : Z) : gen unit :=
  let rn := reg_at 16 insn in
  let rd := reg_at 12 insn in
  addr ← load_reg rn;
  when (has_bit 24 insn) (gen_add_datah_offset insn 0 addr);;
  '(loaded, address_offset) ← disas_misc_transfer insn sh rd addr;
  (if negb (has_bit 24 insn) then
     gen_add_datah_offset insn address_offset addr;; store_reg rn addr
   else if has_bit 21 insn then
     when (truth address_offset) (tcg_gen_addi_i32 addr addr address_offset);; store_reg rn addr
   else tcg_temp_free_i32 addr);;
  match loaded with Some (rd, tmp) => store_reg rd tmp | None => skip_gen end.

Definition disas_mul_extra (insn op1 : Z) : gen unit :=
  let sh := (insn >> 5) .& 3 in
  if sh =? 0 then
    if op1 =? 0 then disas_multiply insn
    else if has_bit 23 insn then disas_exclusive insn else disas_swap insn
  else disas_misc_ldst insn sh.

(** *** Media instructions *)
Definition disas_pack (insn : Z) (rn rd rm : nat) : gen unit :=
  tmp ← load_reg rn;
  tmp2 ← load_reg rm;
  let shift := (insn >> 7) .& 0x1f in
  (if has_bit 6 insn then
     let shift := if shift =? 0 then 31 else shift in
     tcg_gen_sari_i32 tmp2 tmp2 shift;;
     tcg_gen_andi_i32 tmp tmp 0xffff0000;;
     tcg_gen_ext16u_i32 tmp2 tmp2
   else
     when (truth shift) (tcg_gen_shli_i32 tmp2 tmp2 shift);;
     tcg_gen_ext16u_i32 tmp tmp;;
     tcg_gen_andi_i32 tmp2 tmp2 0xffff0000);;
  tcg_gen_or_i32 tmp tmp tmp2;;
  tcg_temp_free_i32 tmp2;;
  store_reg rd tmp.

Definition gen_saturate (h : helper) (tmp : tcgv) (sh : Z) : gen unit :=
  tmp2 ← tcg_const_i32 sh; gen_helper h (Some tmp) [tmp; tmp2];; tcg_temp_free_i32 tmp2.
Definition disas_sat (insn : Z) (rd rm : nat) : gen unit :=
  tmp ← load_reg rm;
  let shift := (insn >> 7) .& 0x1f in
  (if has_bit 6 insn then tcg_gen_sari_i32 tmp tmp (if shift =? 0 then 31 else shift)
   else tcg_gen_shli_i32 tmp tmp shift);;
  gen_saturate (if has_bit 22 insn then H_usat else H_ssat) tmp ((insn >> 16) .& 0x1f);;
  store_reg rd tmp.
Definition disas_sat16 (insn : Z) (rd rm : nat) : gen unit :=
  tmp ← load_reg rm;
  gen_saturate (if has_bit 22 insn then H_usat16 else H_ssat16) tmp ((insn >> 16) .& 0x1f);;
  store_reg rd tmp.

Definition disas_sel (rn rd rm : nat) : gen unit :=
  tmp ← load_reg rn;
  tmp2 ← load_reg rm;
  tmp3 ← tcg_temp_new_i32;
  tcg_gen_ld_i32 tmp3 F_GE;;
  gen_helper H_sel_flags (Some tmp) [tmp3; tmp; tmp2];;
  tcg_temp_free_i32 tmp3;;
  tcg_temp_free_i32 tmp2;;
  store_reg rd tmp.

Definition disas_extend (insn : Z) (rn rd rm : nat) : gen unit :=
  tmp ← load_reg rm;
  let shift := (insn >> 10) .& 3 in
  when (truth shift) (tcg_gen_rotri_i32 tmp tmp (shift * 8));;
  let op1 := (insn >> 20) .& 7 in
  (match op1 with
   | 0 => gen_sxtb16 tmp
   | 2 => gen_sxtb tmp
   | 3 => gen_sxth tmp
   | 4 => gen_uxtb16 tmp
   | 6 => gen_uxtb tmp
   | 7 => gen_uxth tmp
   | _ => tcg_temp_free_i32 tmp;; illegal_op
   end);;
  when (negb (rn =? 15)%nat) (
    tmp2 ← load_reg rn;
    if op1 .& 3 =? 0 then gen_add16 tmp tmp2
    else tcg_gen_add_i32 tmp tmp tmp2;; tcg_temp_free_i32 tmp2);;
  store_reg rd tmp.

Definition disas_reverse (insn : Z) (rd rm : nat) : gen unit :=
  tmp ← load_reg rm;
  (if has_bit 22 insn then
     if has_bit 7 insn then gen_revsh tmp
     else arch ENABLE_ARCH_6T2;; gen_helper H_rbit (Some tmp) [tmp]
   else if has_bit 7 insn then gen_rev16 tmp else tcg_gen_bswap32_i32 tmp tmp);;
  store_reg rd tmp.

(** Signed multiplies, most significant word or dual. *)
Definition disas_smmul (insn : Z) (rn rd rm rs : nat) (tmp tmp2 : tcgv) : gen unit :=
  tmp64 ← gen_muls_i64_i32 tmp tmp2;
  tmp64 ← (if negb (rd =? 15)%nat then
             tmp ← load_reg rd;
             if has_bit 6 insn then gen_subq_msw tmp64 tmp else gen_addq_msw tmp64 tmp
           else mret tmp64);
  when (has_bit 5 insn) (tcg_gen_addi_i64 tmp64 tmp64 0x80000000);;
  tcg_gen_shri_i64 tmp64 tmp64 32;;
  tmp ← tcg_temp_new_i32;
  tcg_gen_trunc_i64_i32 tmp tmp64;;
  tcg_temp_free_i64 tmp64;;
  store_reg rn tmp.
Definition disas_smul_dual (insn : Z) (rn rd rm rs : nat) (tmp tmp2 : tcgv) : gen unit :=
  when (has_bit 5 insn) (gen_swap_half tmp2);;
  gen_smul_dual tmp tmp2;;
  (if has_bit 6 insn then tcg_gen_sub_i32 tmp tmp tmp2
   else gen_helper H_add_setq (Some tmp) [tmp; tmp2]);;
  tcg_temp_free_i32 tmp2;;
  if has_bit 22 insn then
    tmp64 ← tcg_temp_new_i64;
    tcg_gen_ext_i32_i64 tmp64 tmp;;
    tcg_temp_free_i32 tmp;;
    gen_addq tmp64 rd rn;;
    gen_storeq_reg rd rn tmp64;;
    tcg_temp_free_i64 tmp64
  else
    when (negb (rd =? 15)%nat) (gen_add_setq tmp rd);;
    store_reg rn tmp.

(** Sums of absolute differences and bit fields. *)
Definition disas_usad8 (rn rd rm rs : nat) : gen unit :=
  arch ENABLE_ARCH_6;;
  tmp ← load_reg rm;
  tmp2 ← load_reg rs;
  gen_helper H_usad8 (Some tmp) [tmp; tmp2];;
  tcg_temp_free_i32 tmp2;;
  when (negb (rd =? 15)%nat) (
    tmp2 ← load_reg rd;
    tcg_gen_add_i32 tmp tmp tmp2;;
    tcg_temp_free_i32 tmp2);;
  store_reg rn tmp.
Definition disas_bfi (insn : Z) (rd rm : nat) : gen unit :=
  arch ENABLE_ARCH_6T2;;
  let shift := (insn >> 7) .& 0x1f in
  let i := u32 (((insn >> 16) .& 0x1f) + 1 - shift) in
  tmp ← (if (rm =? 15)%nat then tmp ← tcg_temp_new_i32; tcg_gen_movi_i32 tmp 0;; mret tmp
         else load_reg rm);
  when (negb (i =? 32)) (
    tmp2 ← load_reg rd;
    (if 32 <? i then gen_err (Aborted "undefined shift")
     else gen_bfi tmp tmp2 tmp shift (u32 ((1 << i) - 1)));;
    tcg_temp_free_i32 tmp2);;
  store_reg rd tmp.
Definition disas_bfx (insn op1 : Z) (rd rm : nat) : gen unit :=
  arch ENABLE_ARCH_6T2;;
  tmp ← load_reg rm;
  let shift := (insn >> 7) .& 0x1f in
  let i := ((insn >> 16) .& 0x1f) + 1 in
  (if 32 <? shift + i then illegal_op else skip_gen);;
  when (i <? 32) (
    if has_bit 5 op1 then gen_ubfx tmp shift (u32 ((1 << i) - 1)) else gen_sbfx tmp shift i);;
  store_reg rd tmp.

Definition disas_media (insn : Z) : gen unit :=
  arch ENABLE_ARCH_6;;
  let rm := reg_at 0 insn in
  let rn := reg_at 16 insn in
  let rd := reg_at 12 insn in
  let rs := reg_at 8 insn in
  match (insn >> 23) .& 3 with
  | 0 =>
      let op1 := (insn >> 20) .& 7 in
      tmp ← load_reg rn;
      tmp2 ← load_reg rm;
      let sh := (insn >> 5) .& 7 in
      if (op1 .& 3 =? 0) || (sh =? 5) || (sh =? 6) then illegal_op
      else
        gen_arm_parallel_addsub op1 sh tmp tmp2;;
        tcg_temp_free_i32 tmp2;;
        store_reg rd tmp
  | 1 =>
      if is_insn 0x00700020 0 insn then disas_pack insn rn rd rm
      else if is_insn 0x00200020 0x00200000 insn then disas_sat insn rd rm
      else if is_insn 0x00300fe0 0x00200f20 insn then disas_sat16 insn rd rm
      else if is_insn 0x00700fe0 0x00000fa0 insn then disas_sel rn rd rm
      else if is_insn 0x000003e0 0x00000060 insn then disas_extend insn rn rd rm
      else if is_insn 0x003f0f60 0x003f0f20 insn then disas_reverse insn rd rm
      else illegal_op
  | 2 =>
      tmp ← load_reg rm;
      tmp2 ← load_reg rs;
      if has_bit 20 insn then disas_smmul insn rn rd rm rs tmp tmp2
      else disas_smul_dual insn rn rd rm rs tmp tmp2
  | _ =>
      let op1 := ((insn >> 17) .& 0x38) .| ((insn >> 5) .& 7) in
      match op1 with
      | 0 => disas_usad8 rn rd rm rs
      | 0x20 | 0x24 | 0x28 | 0x2c => disas_bfi insn rd rm
      | 0x12 | 0x16 | 0x1a | 0x1e | 0x32 | 0x36 | 0x3a | 0x3e => disas_bfx insn op1 rd rm
      | _ => illegal_op
      end
  end.

(** *** Word and byte transfers *)
Definition disas_ldst (insn op1 : Z) : gen unit :=
  let sh := (0xf << 20) .| (0xf << 4) in
  if (op1 =? 7) && (insn .& sh =? sh) then illegal_op
  else
    let rn := reg_at 16 insn in
    let rd := reg_at 12 insn in
    tmp2 ← load_reg rn;
    i ← get_dc (λ d, of_bool (dc_user d || is_insn 0x01200000 0x00200000 insn));
    when (has_bit 24 insn) (gen_add_data_offset insn tmp2);;
    tmp ← (if has_bit 20 insn then if has_bit 22 insn then gen_ld8u tmp2 i else gen_ld32 tmp2 i
           else
             tmp ← load_reg rd;
             (if has_bit 22 insn then gen_st8 tmp tmp2 i else gen_st32 tmp tmp2 i);;
             mret tmp);
    (if negb (has_bit 24 insn) then gen_add_data_offset insn tmp2;; store_reg rn tmp2
     else if has_bit 21 insn then store_reg rn tmp2
     else tcg_temp_free_i32 tmp2);;
    when (has_bit 20 insn) (store_reg_from_load rd tmp).

(** *** Block transfers *)

(** The registers of the list, lowest first. *)
Definition reg_list (insn : Z) : list nat := filter (λ i, has_bit (Z.of_nat i) insn) (seq 0 16).

(** One register; the value loaded to the base register is kept for the end. *)
Definition ldm_one (insn : Z) (user : bool) (rn i : nat) (addr : tcgv) (loaded : option tcgv) :
    gen (option tcgv) :=
  index ← user_index;
  if has_bit 20 insn then
    tmp ← gen_ld32 addr index;
    if user then
      tmp2 ← tcg_const_i32 (Z.of_nat i);
      gen_helper H_set_user_reg None [tmp2; tmp];;
      tcg_temp_free_i32 tmp2;;
      tcg_temp_free_i32 tmp;;
      mret loaded
    else if (i =? rn)%nat then mret (Some tmp)
    else store_reg_from_load i tmp;; mret loaded
  else
    tmp ← (if (i =? 15)%nat then
             val ← get_dc (λ d, u32 (dc_pc d + 4));
             tmp ← tcg_temp_new_i32;
             tcg_gen_movi_i32 tmp val;;
             mret tmp
           else if user then
             tmp ← tcg_temp_new_i32;
             tmp2 ← tcg_const_i32 (Z.of_nat i);
             gen_helper H_get_user_reg (Some tmp) [tmp2];;
             tcg_temp_free_i32 tmp2;;
             mret tmp
           else load_reg i);
    gen_st32 tmp addr index;;
    mret loaded.

(** The loop; the address advances between two registers. *)
Fixpoint ldm_loop (insn : Z) (user : bool) (rn : nat) (addr tmp3 : tcgv) (l : list nat)
    (loaded : option tcgv) : gen (option tcgv) :=
  match l with
  | [] => mret loaded
  | i :: l =>
      loaded ← ldm_one insn user rn i addr loaded;
      when (negb (bool_decide (l = []))) (tcg_gen_add_i32 addr addr tmp3);;
      ldm_loop insn user rn addr tmp3 l loaded
  end.

Definition disas_ldm (insn : Z) : gen unit :=
  when (has_bit 22 insn) not_user;;
  let user := has_bit 22 insn && negb (has_bit 15 insn) in
  let rn := reg_at 16 insn in
  addr ← load_reg rn;
  tmp3 ← tcg_const_i32 4;
  let n := Z.of_nat (length (reg_list insn)) in
  (if has_bit 23 insn then when (has_bit 24 insn) (tcg_gen_add_i32 addr addr tmp3)
   else if has_bit 24 insn then tcg_gen_addi_i32 addr addr (- (n * 4))
   else when (negb (n =? 1)) (tcg_gen_addi_i32 addr addr (- ((n - 1) * 4))));;
  loaded ← ldm_loop insn user rn addr tmp3 (reg_list insn) None;
  (if has_bit 21 insn then
     (if has_bit 23 insn then when (negb (has_bit 24 insn)) (tcg_gen_add_i32 addr addr tmp3)
      else if has_bit 24 insn then
        when (negb (n =? 1)) (tcg_gen_addi_i32 addr addr (- ((n - 1) * 4)))
      else tcg_gen_addi_i32 addr addr (- (n * 4)));;
     store_reg rn addr
   else tcg_temp_free_i32 addr);;
  tcg_temp_free_i32 tmp3;;
  match loaded with Some v => store_reg rn v | None => skip_gen end;;
  when (has_bit 22 insn && negb user) (
    tmp ← load_cpu_field F_spsr;
    gen_set_cpsr tmp 0xffffffff;;
    tcg_temp_free_i32 tmp;;
    set_jmp DISAS_UPDATE).

(** *** The decoder *)
Definition disas_branch (insn : Z) : gen unit :=
  val ← get_dc dc_pc;
  when (has_bit 24 insn) (
    tmp ← tcg_temp_new_i32; tcg_gen_movi_i32 tmp val;; store_reg 14 tmp);;
  gen_jmp (u32 (val + ((branch_offset insn << 2) + 4))).

Definition disas_other (insn : Z) : gen unit :=
  let op1 := (insn >> 24) .& 0xf in
  match op1 with
  | 0x0 | 0x1 => disas_mul_extra insn op1
  | 0x4 | 0x5 => disas_ldst insn op1
  | 0x6 | 0x7 => if has_bit 4 insn then disas_media insn else disas_ldst insn op1
  | 0x8 | 0x9 => disas_ldm insn
  | 0xa | 0xb => disas_branch insn
  | 0xc | 0xd | 0xe => illegal_if (disas_coproc_insn insn)
  | 0xf => pc ← get_dc dc_pc; gen_set_pc_im pc;; set_jmp DISAS_SWI
  | _ => illegal_op
  end.

Definition disas_cond (insn : Z) : gen unit :=
  let cond := insn >> 28 in
  when (negb (cond =? 0xe)) (
    l ← gen_new_label;
    on_dc (λ d, d <| condlabel := l |>);;
    gen_test_cc (cond .^ 1) l;;
    on_dc (λ d, d <| condjmp := true |>));;
  if is_insn 0x0f900000 0x03000000 insn then disas_mov16 insn
  else if is_insn 0x0f900000 0x01000000 insn && negb (insn .& 0x90 =? 0x90) then disas_misc insn
  else if ((insn .& 0x0e000000 =? 0) && negb (insn .& 0x90 =? 0x90)) || is_insn 0x0e000000 (1 << 25) insn
  then disas_data_processing insn
  else disas_other insn.

Definition disas_arm_body (insn : Z) : gen unit :=
  if IS_M env then illegal_op
  else if insn >> 28 =? 0xf then disas_uncond insn
  else disas_cond insn.

(** [illegal_op:] is reached by jumps from everywhere in the decoder. *)
Definition or_illegal (m : gen unit) (h : gen unit) : gen unit := λ g,
  '(a, g) ← m g; match a with Some _ => Ok (Some tt, g) | None => h g end.

Definition fetch (pc : Z) : gen Z := λ g, i ← ldl_code pc; Ok (Some i, g).
Definition disas_arm_insn : gen unit :=
  pc ← get_dc dc_pc;
  insn ← fetch pc;
  tcg_gen_qemu_trace_pc pc;;
  on_dc (λ d, d <| dc_pc := u32 (pc + 4) |>);;
  or_illegal (disas_arm_body insn) (gen_exception_insn 4 EXCP_UDEF).

(** ** Blocks *)
Definition OPC_MAX_SIZE : nat := 2048 - 96.
Definition CF_COUNT_MASK : Z := 0x7fff.
Definition ARM_TBFLAG_THUMB (f : Z) : Z := f .& 1.
Definition ARM_TBFLAG_PRIV (f : Z) : Z := (f >> 6) .& 1.
Definition ARM_TBFLAG_CONDEXEC (f : Z) : Z := (f >> 8) .& 0xff.

(** The instructions' start in the buffer, with their address and the bits of
    the IT state: [gen_opc_instr_start], [gen_opc_pc], [gen_opc_condexec_bits]. *)
Definition insn_start : Type := nat * Z * Z.

(** [gen_opc_ptr - gen_opc_buf] *)
Definition ops_emitted : gen nat := λ g, Ok (Some (length (gen_opc_buf g)), g).

(** The IT state after a Thumb instruction. *)
Definition advance_condexec (d : DisasContext) : DisasContext :=
  if truth (condexec_mask d) then
    let cond := (condexec_cond d .& 0xe) .| ((condexec_mask d >> 4) .& 1) in
    let mask := (condexec_mask d << 1) .& 0x1f in
    d <| condexec_cond := if mask =? 0 then 0 else cond |> <| condexec_mask := mask |>
  else d.

Definition set_condlabel_here : gen unit := λ g,
  if condjmp (dc g) && (is_jmp (dc g) =? DISAS_NEXT) then
    (gen_set_label (condlabel (dc g));;
     on_dc (λ d, d <| condjmp := false |>)) g
  else Ok (Some tt, g).

(** The loop over the instructions, with at most [fuel] more of them; the
    result has the number of instructions and their starts. *)
Fixpoint gen_loop (fuel : nat) (num_insns max_insns next_page_start : Z) (starts : list insn_start) :
    gen (Z * list insn_start) :=
  match fuel with
  | O => gen_err Diverges
  | S fuel =>
      pc ← get_dc dc_pc;
      if (0xfffffff0 <=? pc) && IS_M env then
        gen_exception EXCP_EXCEPTION_EXIT;; set_jmp DISAS_UPDATE;; mret (num_insns, starts)
      else
        j ← ops_emitted;
        bits ← get_dc (λ d, (condexec_cond d << 4) .| (condexec_mask d >> 1));
        let starts := starts ++ [(j, pc, bits)] in
        th ← get_dc dc_thumb;
        (if truth th then disas_thumb_insn;; on_dc advance_condexec else disas_arm_insn);;
        set_condlabel_here;;
        let num_insns := num_insns + 1 in
        d ← get_dc id;
        j ← ops_emitted;
        if (is_jmp d =? DISAS_NEXT) && (j <? OPC_MAX_SIZE)%nat && (dc_pc d <? next_page_start) &&
           (num_insns <? max_insns)
        then gen_loop fuel num_insns max_insns next_page_start starts
        else mret (num_insns, starts)
  end.

Definition gen_block_end : gen unit :=
  gen_set_condexec;;
  d ← get_dc id;
  match is_jmp d with
  | 0 => gen_goto_tb 1 (dc_pc d)
  | 3 => skip_gen
  | 4 => gen_helper H_wfi None []
  | 5 => gen_exception EXCP_SWI
  | 6 => gen_exception EXCP_SMC
  | _ => tcg_gen_exit_tb 0
  end;;
  when (condjmp d) (
    gen_set_label (condlabel d);;
    gen_set_condexec;;
    gen_goto_tb 1 (dc_pc d)).

(** A block of size [tb->size], a [uint16_t], and [num_insns] instructions. *)
Definition gen_intermediate_code (tb tb_pc flags cflags : Z) : res (list tcg_op * list insn_start * Z * Z) :=
  let cond := ARM_TBFLAG_CONDEXEC flags in
  let d := mkDisas tb_pc DISAS_NEXT false 0 ((cond .& 0xf) << 1) (cond >> 4) tb tb_pc (ARM_TBFLAG_THUMB flags)
             (ARM_TBFLAG_PRIV flags =? 0) in
  let next_page_start := u32 (page_of tb_pc + TARGET_PAGE_SIZE) in
  let max_insns := if cflags .& CF_COUNT_MASK =? 0 then CF_COUNT_MASK else cflags .& CF_COUNT_MASK in
  let translate : gen (Z * list insn_start) :=
    _ ← tcg_temp_new_i32; _ ← tcg_temp_new_i32;
    _ ← tcg_temp_new_i64; _ ← tcg_temp_new_i64; _ ← tcg_temp_new_i64;
    when (truth (condexec_mask d) || truth (condexec_cond d)) (
      tmp ← tcg_temp_new_i32;
      tcg_gen_movi_i32 tmp 0;;
      store_cpu_field tmp F_condexec_bits);;
    r ← gen_loop (S (Z.to_nat TARGET_PAGE_SIZE)) 0 max_insns next_page_start [];
    gen_block_end;;
    mret r in
  '(r, g) ← translate (mkGctx [] 0 [] [] [] 0 d);
  match r with
  | Some (num_insns, starts) => Ok (gen_opc_buf g, starts, u16 (dc_pc (dc g) - tb_pc), num_insns)
  | None => Err BadIndirectCall
  end.
End disas.

(** [restore_state_to_opc] with the tables of the block. *)
Definition restore_state_to_opc (starts : list insn_start) (pos : nat) (env : CPUARMState) : CPUARMState :=
  match list_find (λ st, st.1.1 = pos) starts with
  | Some (_, (_, pc, bits)) => set_reg 15 pc env <| condexec_bits := bits |>
  | None => env
  end.
