(* ===== verification/DisasArmFacts.v ===== *)
(** * Translated data-processing instructions

    What the operations emitted for a data-processing instruction of ARM compute
    is what the architecture manual says: the second operand with its carry,
    the result, the flags, and the register or program counter written. *)
From S2P Require Import Prelude SoftTlb ArmCpu ArmMode ArmModeFacts ArmMmu ArmAlu ArmAluFacts PhysMem SoftMmu GuestOps.
From S2P Require Import Tcg TcgFacts TransArm TransArmFacts DisasArm.

(** ** The architecture *)
Definition flags : Type := bool * bool * bool * bool.

(** [ARMExpandImm_C] and the register forms of the second operand. *)
Definition shifter_operand (insn pc8 : Z) (e : CPUARMState) : Z * bool :=
  let c := truth (CF e) in
  if Z.testbit insn 25 then
    let n := ((insn >> 8) .& 15) * 2 in
    if n =? 0 then (insn .& 255, c) else Shift_C ROR (insn .& 255) n
  else
    let x := reg_read pc8 e (reg_at 0 insn) in
    let ty := (insn >> 5) .& 3 in
    if Z.testbit insn 4 then shift_reg ty (reg_read pc8 e (reg_at 8 insn)) x c
    else shift_imm ty ((insn >> 7) .& 31) x c.

(** The result and the flags of operation [op] on the first operand, the second
    one with its carry, and the flags before. *)
Definition dp_result (op rn m : Z) (carry : bool) (f : flags) : Z * flags :=
  let '(_, _, c, v) := f in
  let logical r := (r, (Z.testbit r 31, r =? 0, carry, v)) in
  let arith (s : Z * bool * bool) := let '(r, c, v) := s in (r, (Z.testbit r 31, r =? 0, c, v)) in
  match op with
  | 0 | 8 => logical (rn .& m)
  | 1 | 9 => logical (rn .^ m)
  | 2 | 10 => arith (AddWithCarry rn (NOT m) true)
  | 3 => arith (AddWithCarry m (NOT rn) true)
  | 4 | 11 => arith (AddWithCarry rn m false)
  | 5 => arith (AddWithCarry rn m c)
  | 6 => arith (AddWithCarry rn (NOT m) c)
  | 7 => arith (AddWithCarry m (NOT rn) c)
  | 12 => logical (rn .| m)
  | 13 => logical m
  | 14 => logical (rn .& NOT m)
  | _ => logical (NOT m)
  end.

(** TST, TEQ, CMP and CMN only set flags. *)
Definition only_flags (op : Z) : bool := (8 <=? op) && (op <=? 11).

(** [BXWritePC] from version 7 on, [BranchWritePC] before. *)
Definition put_reg_bx (v7 : bool) (r : nat) (x : Z) (e : CPUARMState) : CPUARMState :=
  if (r =? 15)%nat && v7 then set_reg 15 (x .& 0xfffffffe) e <| thumb := x .& 1 |> else put_reg r x e.
Definition jumps_bx (v7 : bool) (r : nat) (d : DisasContext) : DisasContext :=
  if (r =? 15)%nat && v7 then d <| is_jmp := DISAS_UPDATE |> else jumps r d.

(** Only N, Z, C and V may differ, and C is 0 or 1. *)
Record only_nzcv (e e1 : CPUARMState) : Prop := {
  nzcv_rest : e1 = e <| NF := NF e1 |> <| ZF := ZF e1 |> <| CF := CF e1 |> <| VF := VF e1 |>;
  nzcv_carry : CF e1 = of_bool (truth (CF e1))
}.

(** The effect of a data-processing instruction on the CPU. *)
Definition dp_effect (v7 : bool) (insn pc8 : Z) (e e' : CPUARMState) : Prop :=
  let op := (insn >> 21) .& 15 in
  let '(m, carry) := shifter_operand insn pc8 e in
  let '(r, f) := dp_result op (reg_read pc8 e (reg_at 16 insn)) m carry (nzcv e) in
  ∃ e1, only_nzcv e e1 ∧ nzcv e1 = (if Z.testbit insn 20 then f else nzcv e) ∧
    e' = if only_flags op then e1 else put_reg_bx v7 (reg_at 12 insn) r e1.
Definition dp_jumps (v7 : bool) (insn : Z) (d : DisasContext) : DisasContext :=
  if only_flags ((insn >> 21) .& 15) then d else jumps_bx v7 (reg_at 12 insn) d.

(** SUBS and MOVS to the program counter return from an exception. *)
Definition exception_return (insn : Z) : bool :=
  let op := (insn >> 21) .& 15 in
  Z.testbit insn 20 && (reg_at 12 insn =? 15)%nat && ((op =? 2) || (op =? 13)).

(** ** Fields of the instruction *)
Lemma field_bound k x : 0 ≤ (x >> k) .& 15 < 16.
Proof. change 15 with (Z.ones 4). rewrite Z.land_ones by lia. by apply Z.mod_pos_bound. Qed.
Lemma reg_at_bound k x : (reg_at k x < 16)%nat.
Proof. unfold reg_at. pose proof (field_bound k x). lia. Qed.
Lemma land3_bound x : 0 ≤ x .& 3 < 4.
Proof. change 3 with (Z.ones 2). rewrite Z.land_ones by lia. by apply Z.mod_pos_bound. Qed.
Lemma land31_bound x : 0 ≤ x .& 31 < 32.
Proof. change 31 with (Z.ones 5). rewrite Z.land_ones by lia. by apply Z.mod_pos_bound. Qed.
Lemma land255_bound x : 0 ≤ x .& 255 < 256.
Proof. change 255 with (Z.ones 8). rewrite Z.land_ones by lia. by apply Z.mod_pos_bound. Qed.

(** An immediate operand is a rotated byte. *)
Lemma rotated_imm_spec insn c :
  let n := ((insn >> 8) .& 15) * 2 in
  (if n =? 0 then (insn .& 255, c) else Shift_C ROR (insn .& 255) n) =
  ((rotated_imm insn).1, if n =? 0 then c else Z.testbit (rotated_imm insn).1 31) ∧ (rotated_imm insn).2 = n ∧
  is_u32 (rotated_imm insn).1.
Proof.
  cbv zeta. unfold rotated_imm, truth. cbn [fst snd].
  pose proof (field_bound 8 insn). pose proof (land255_bound insn).
  destruct (Z.eqb_spec (((insn >> 8) .& 15) * 2) 0) as [E|E]; cbn [negb].
    split_and!; try done; unfold is_u32; lia.
  - cbn [Shift_C]. rewrite Z.mod_small by lia. set (n := _ * 2) in *. set (x := insn .& 255) in *.
    assert (is_u32 x) as Hx by (unfold is_u32; lia).
    replace (u32 ((x >> n) .| (x << (32 - n)))) with (u32 ((x + x * 2 ^ 32) / 2 ^ n)).
    + split_and!; [done|done|apply u32_bound..].
    + rewrite <- rotated by (done || lia). apply u32_ext; [|apply u32_bound|].
      * apply is_u32_lor; [|apply u32_bound]. rewrite Z.shiftr_div_pow2 by lia. by apply (shift_C_u32 LSR x n); [|lia].
      * intros k Hk. rewrite u32_testbit, !Z.lor_spec, u32_testbit by done. done.
Qed.

Section dp.
Context {D : Type} `{IoPorts D} `{TbCache}.
Context (fuel : nat) (retaddr : Z) (linked : Z → bool) (lb : nat) (σ : smmu D).
(** The CPU at translation time selects the version of the architecture. *)
Context (env : CPUARMState).
#[local] Abbreviation wp := (wp fuel retaddr linked lb).
#[local] Abbreviation St := (St σ).
#[local] Abbreviation v7 := (ENABLE_ARCH_7 env).
Implicit Types (V : gmap nat (option Z)) (d : DisasContext) (e : CPUARMState).

(** The second operand. *)
Lemma st_operand2 insn logic_cc Q V d nl e : alu_wf e → dc_thumb d = 0 →
  (let '(m, c) := shifter_operand insn (reads_pc d) e in ∀ t, V !! t = None → is_u32 m →
   Q (Tmp t) (St (<[t := Some m]> V) d nl (if logic_cc : bool then set_c (of_bool c) e else e))) →
  wp (disas_operand2 insn logic_cc) Q (St V d nl e).
Proof.
  intros He Hth HQ. unfold disas_operand2, shifter_operand, has_bit in *. destruct (Z.testbit insn 25).
  - destruct (rotated_imm_spec insn (truth (CF e))) as (E1 & E2 & E3). rewrite E1 in HQ.
    destruct (rotated_imm insn) as [m n]. cbn [fst snd] in *. subst n.
    apply wp_bind, st_new. intros t Ht. apply wp_bind, wp_movi; [done|vals|].
    rewrite u32_s32, u32_small by done. cbn. rewrite insert_insert_eq.
    specialize (HQ t Ht E3). set (n := _ * 2) in *. change (truth n) with (negb (n =? 0)).
    destruct (n =? 0); cbn [negb] in *.
    + rewrite andb_false_r. rewrite set_c_id in HQ by done. apply wp_bind, wp_ret, wp_ret. by destruct logic_cc.
    + rewrite andb_true_r. destruct logic_cc; cbn [when]; [|by apply wp_bind, wp_ret, wp_ret].
      apply wp_bind, wp_bind, st_new. intros t' [Ht' Hne]%lookup_insert_None.
      apply wp_bind, (wp_shri _ _ _ _ _ _ _ m); [done|vals..|lia|].
      rewrite <- land_bit31, bit_value by (done || lia).
      apply wp_bind, (st_set_CF _ _ _ _ _ t' (Z.testbit m 31)); [vals|]. eapply st_free; [vals|].
      apply wp_ret. cbn -[Z.testbit]. same_vals HQ.
  - apply wp_bind, st_load_reg; [apply reg_at_bound|done..|]. intros t Ht. set (x := reg_read (reads_pc d) e (reg_at 0 insn)) in *.
    assert (is_u32 x) as Hx by (apply reg_read_u32; [done|apply reg_at_bound]).
    pose proof (land3_bound (insn >> 5)). pose proof (land31_bound (insn >> 7)).
    destruct (Z.testbit insn 4); cbn [negb].
    + apply wp_bind, wp_bind, st_load_reg; [apply reg_at_bound|done..|]. intros t' [Ht' Hne]%lookup_insert_None.
      set (y := reg_read (reads_pc d) e (reg_at 8 insn)) in *.
      pose proof (shift_reg_u32 ((insn >> 5) .& 3) y x (truth (CF e)) Hx) as Hm.
      apply (st_shift_reg _ _ _ _ _ t t' _ x y); [vals|vals|done|done|by apply reg_read_u32, reg_at_bound|done..|].
      destruct (shift_reg _ _ _ _) as [m c]. apply wp_ret. specialize (HQ t Ht Hm). same_vals HQ.
    + pose proof (shift_imm_u32 ((insn >> 5) .& 3) ((insn >> 7) .& 31) x (truth (CF e)) Hx ltac:(lia)) as Hm.
      apply wp_bind, (st_shift_im _ _ _ _ _ t _ _ x); [vals|done..|].
      destruct (shift_imm _ _ _ _) as [m c]. apply wp_ret. specialize (HQ t Ht Hm). same_vals HQ.
Qed.

(** Writing the result. *)
Lemma st_store_reg_bx r t x Q V d nl e : (r < 16)%nat → V !! t = Some (Some x) → is_u32 x →
  Q tt (St (delete t V) (jumps_bx v7 r d) nl (put_reg_bx v7 r x e)) →
  wp (store_reg_bx env r (Tmp t)) Q (St V d nl e).
Proof.
  intros Hr Ht Hx HQ. unfold store_reg_bx, put_reg_bx, jumps_bx in *. fold v7.
  destruct ((r =? 15)%nat && v7); [|by apply (st_store_reg _ _ _ _ _ r t x)].
  apply wp_bind, wp_set_jmp, wp_bind, (wp_andi _ _ _ _ _ _ _ x); [done|vals|done|cbn; lia|].
  apply wp_bind, (wp_andi _ _ _ _ _ _ _ x); [done|vals|done|vals|].
  change (u32 1) with 1. apply wp_bind, (wp_st _ _ _ _ _ _ (x .& 1)); [done|vals|].
  eapply st_free; [vals|]. same_vals HQ.
Qed.

(** Operations on the two operands in [t] and [t2]; the result goes to [t]. *)
Definition alu_state V (t t2 : nat) x y d nl e : ast :=
  St (<[t := Some x]> (<[t2 := Some y]> V)) d nl e.

Lemma st_logic_op op f logic_cc r t t2 x y Q V d nl e :
  (∀ Q s, a_sk s = None → aval s (Tmp t) = Some x → aval s (Tmp t2) = Some y →
    writable s (Tmp t) → Q tt (aset (Tmp t) f s) → wp (op (Tmp t) (Tmp t) (Tmp t2)) Q s) →
  t ≠ t2 → is_u32 f → (r < 16)%nat →
  (let e1 := if logic_cc : bool then e <| NF := f |> <| ZF := f |> else e in
   Q tt (St (delete t (<[t2 := Some y]> V)) (jumps_bx v7 r d) nl (put_reg_bx v7 r f e1))) →
  wp (logic_op env op logic_cc r (Tmp t) (Tmp t2)) Q (alu_state V t t2 x y d nl e).
Proof.
  intros Hop Hne Hf Hr HQ. cbv zeta in HQ. unfold logic_op. apply wp_bind, Hop; [done|vals|vals|vals|].
  assert (∀ e1, e1 = (if logic_cc then e <| NF := f |> <| ZF := f |> else e) →
    wp (store_reg_bx env r (Tmp t)) Q (St (<[t := Some f]> (<[t2 := Some y]> V)) d nl e1)) as Hst.
  { intros e1 ->. apply (st_store_reg_bx r t f); [done|vals|done|]. same_vals HQ. }
  change (aset (Tmp t) f _) with (St (<[t := Some f]> (<[t := Some x]> (<[t2 := Some y]> V))) d nl e).
  rewrite insert_insert_eq. apply wp_bind. destruct logic_cc; cbn [when].
  - apply wp_bind, (wp_st _ _ _ _ _ _ f); [done|vals|]. apply (wp_st _ _ _ _ _ _ f); [done|vals|]. by apply Hst.
  - apply wp_ret. by apply Hst.
Qed.

(** *** Arithmetic *)
Lemma only_nzcv_refl e : alu_wf e → only_nzcv e e.
Proof. intros He. split; [by destruct e|apply wf_carry, He]. Qed.
Lemma sets_flags_nzcv e p r c v : sets_flags_from e p (r, c, v) → is_u32 r →
  p.1 = r ∧ only_nzcv e p.2 ∧ nzcv p.2 = (Z.testbit r 31, r =? 0, c, v).
Proof.
  intros (E1 & E2 & E3 & E4) Hr. split; [done|]. rewrite <- sign_bit. split; [|done].
  split; [done|]. rewrite E3. by destruct c.
Qed.

(** A helper that sets the flags. *)
Lemma st_flags h hf a b xa xb t x res c v Q V d nl e :
  V !! t = Some (Some x) → aval (St V d nl e) a = Some xa → aval (St V d nl e) b = Some xb →
  (∀ s : smmu D, call_helper h [xa; xb] s = on_env (hf xa xb) s) → sets_flags_from e (hf xa xb e) (res, c, v) →
  is_u32 res →
  (∀ e1, only_nzcv e e1 → nzcv e1 = (Z.testbit res 31, res =? 0, c, v) → Q tt (St (<[t := Some res]> V) d nl e1)) →
  wp (gen_helper h (Some (Tmp t)) [a; b]) Q (St V d nl e).
Proof.
  intros Ht Ha Hb Hh Hf Hres HQ.
  destruct (sets_flags_nzcv e _ _ _ _ Hf Hres) as (E & Ho & En). destruct (hf xa xb e) as [r e1] eqn:Eh. cbn in *. subst r.
  apply (st_call _ _ _ _ _ h t res _ [xa; xb] e1 (Some x)); [|done|by repeat constructor|by apply HQ].
  by apply (call_env _ _ _ (hf xa xb)).
Qed.

Lemma awc_u32 x y c : is_u32 (AddWithCarry x y c).1.1.
Proof. apply u32_bound. Qed.
Lemma awc_sub x y : (AddWithCarry x (NOT y) true).1.1 = u32 (x - y).
Proof. cbn [AddWithCarry fst]. rewrite u32_minus. f_equal. cbn. lia. Qed.

(** The emitted sums without flags; [a] and [b] are among the temporaries. *)
Section sums.
Context (t : nat) (a b : tcgv) (x xa xb : Z) (V : gmap nat (option Z)) (d : DisasContext) (nl : nat) (e : CPUARMState).
Context (Ht : V !! t = Some (Some x)) (Ha : aval (St V d nl e) a = Some xa) (Hb : aval (St V d nl e) b = Some xb).
Context (He : alu_wf e).

Lemma st_add Q : Q tt (St (<[t := Some (AddWithCarry xa xb false).1.1]> V) d nl e) →
  wp (tcg_gen_add_i32 (Tmp t) a b) Q (St V d nl e).
Proof.
  intros HQ. apply (wp_op2 _ _ _ _ _ _ _ _ xa xb (u32 (xa + xb))); [done..|vals|].
  cbn [AddWithCarry fst of_bool] in HQ. by rewrite Z.add_0_r in HQ.
Qed.
Lemma st_sub Q : Q tt (St (<[t := Some (AddWithCarry xa (NOT xb) true).1.1]> V) d nl e) →
  wp (tcg_gen_sub_i32 (Tmp t) a b) Q (St V d nl e).
Proof.
  intros HQ. apply (wp_op2 _ _ _ _ _ _ _ _ xa xb (u32 (xa - xb))); [done..|vals|]. by rewrite awc_sub in HQ.
Qed.
Lemma st_add_carry Q : Q tt (St (<[t := Some (AddWithCarry xa xb (truth (CF e))).1.1]> V) d nl e) →
  wp (gen_add_carry (Tmp t) a b) Q (St V d nl e).
Proof.
  intros HQ. apply wp_bind, (wp_op2 _ _ _ _ _ _ _ _ xa xb (u32 (xa + xb))); [done..|vals|].
  apply wp_bind, wp_bind, wp_new_i32. intros t' Ht'. cbn in Ht'. apply lookup_insert_None in Ht' as [Ht' Hne].
  apply wp_bind, wp_ld; [done|vals|]. apply wp_ret.
  apply wp_bind, (wp_op2 _ _ _ _ _ _ _ _ (u32 (xa + xb)) (CF e) (u32 (u32 (xa + xb) + CF e))); [done|vals|vals|done|vals|].
  apply wp_free_i32; [vals|]. cbn [AddWithCarry fst] in HQ. rewrite <- (wf_carry e He) in HQ.
  replace (u32 (u32 (xa + xb) + CF e)) with (u32 (xa + xb + CF e)) by (unfold u32; by rewrite Z.add_mod_idemp_l).
  same_vals HQ.
Qed.
Lemma st_sub_carry Q : Q tt (St (<[t := Some (AddWithCarry xa (NOT xb) (truth (CF e))).1.1]> V) d nl e) →
  wp (gen_sub_carry (Tmp t) a b) Q (St V d nl e).
Proof.
  intros HQ. apply wp_bind, (wp_op2 _ _ _ _ _ _ _ _ xa xb (u32 (xa - xb))); [done..|vals|].
  apply wp_bind, wp_bind, wp_new_i32. intros t' Ht'. cbn in Ht'. apply lookup_insert_None in Ht' as [Ht' Hne].
  apply wp_bind, wp_ld; [done|vals|]. apply wp_ret.
  apply wp_bind, (wp_op2 _ _ _ _ _ _ _ _ (u32 (xa - xb)) (CF e) (u32 (u32 (xa - xb) + CF e))); [done|vals|vals|done|vals|].
  apply wp_bind, (wp_subi _ _ _ _ _ _ _ (u32 (u32 (xa - xb) + CF e))); [done|vals|apply u32_bound|vals|].
  apply wp_free_i32; [vals|]. cbn [AddWithCarry fst] in HQ. rewrite <- (wf_carry e He) in HQ.
  replace (u32 (u32 (u32 (xa - xb) + CF e) - 1)) with (u32 (xa + NOT xb + CF e)); [same_vals HQ|].
  unfold u32, NOT. rewrite Z.add_mod_idemp_l, Zminus_mod_idemp_l by lia.
  replace (xa + (2 ^ 32 - 1 - xb) + CF e) with (xa - xb + CF e - 1 + 1 * 2 ^ 32) by lia. by rewrite Z.mod_add.
Qed.
End sums.

(** *** The operations *)
Lemma lnot_NOT y : is_u32 y → u32 (Z.lnot y) = NOT y.
Proof.
  unfold is_u32, u32, NOT. intros Hy. unfold Z.lnot.
  replace (Z.pred (- y)) with (2 ^ 32 - 1 - y + (-1) * 2 ^ 32) by lia. rewrite Z.mod_add by lia. apply Z.mod_small. lia.
Qed.
Lemma is_u32_lxor a b : is_u32 a → is_u32 b → is_u32 (a .^ b).
Proof.
  intros Ha Hb. replace (a .^ b) with (u32 (a .^ b)); [apply u32_bound|].
  apply Z.bits_inj'. intros n Hn. destruct (Z.lt_ge_cases n 32) as [?|?].
  - by rewrite u32_testbit.
  - by rewrite Z.lxor_spec, !testbit_of_high by (done || apply u32_bound).
Qed.

Section operations.
Context (t t2 : nat) (x y : Z) (carry set_cc : bool) (r : nat) (V : gmap nat (option Z)) (d : DisasContext) (nl : nat).
Context (e : CPUARMState) (Q : unit → ast (D := D) → Prop).
Context (Ht : V !! t = None) (Ht2 : t ≠ t2) (Hr : (r < 16)%nat) (Hx : is_u32 x) (Hy : is_u32 y) (He : alu_wf e).
(** Both operands are in use, and only the second one. *)
Let both V' e0 : ast := St (<[t := Some x]> (<[t2 := Some y]> V')) d nl e0.
Let one d' e0 : ast := St (<[t2 := Some y]> V) d' nl e0.

(** What follows an operation with result [f] that leaves the flags [fl]. *)
Definition dp_post (store : bool) (f : Z) (fl : flags) : Prop := ∀ e1, only_nzcv e e1 →
  nzcv e1 = (if set_cc then fl else nzcv e) →
  Q tt (if store then one (jumps_bx v7 r d) (put_reg_bx v7 r f e1) else one d e1).

Lemma logic_flags f :
  let e1 := if set_cc then set_c (of_bool carry) e <| NF := f |> <| ZF := f |> else e in
  only_nzcv e e1 ∧
  nzcv e1 = if set_cc then (Z.testbit f 31, f =? 0, carry, Z.testbit (VF e) 31) else nzcv e.
Proof.
  destruct set_cc; [|split; [by apply only_nzcv_refl|done]]. split; [split|].
  - by destruct e.
  - by destruct carry.
  - unfold nzcv. cbn -[Z.testbit]. by destruct carry.
Qed.

Lemma st_logic_store op f :
  (∀ Q s, a_sk s = None → aval s (Tmp t) = Some x → aval s (Tmp t2) = Some y →
    writable s (Tmp t) → Q tt (aset (Tmp t) f s) → wp (op (Tmp t) (Tmp t) (Tmp t2)) Q s) → is_u32 f →
  dp_post true f (Z.testbit f 31, f =? 0, carry, Z.testbit (VF e) 31) →
  wp (logic_op env op set_cc r (Tmp t) (Tmp t2)) Q (both V (if set_cc then set_c (of_bool carry) e else e)).
Proof.
  intros Hop Hf HQ. apply (st_logic_op op f); [done..|]. destruct (logic_flags f) as [Ho Hn].
  specialize (HQ _ Ho Hn). cbv zeta. destruct set_cc; same_vals HQ.
Qed.
(** TST and TEQ. *)
Lemma st_logic_test op f :
  (∀ Q s, a_sk s = None → aval s (Tmp t) = Some x → aval s (Tmp t2) = Some y →
    writable s (Tmp t) → Q tt (aset (Tmp t) f s) → wp (op (Tmp t) (Tmp t) (Tmp t2)) Q s) → is_u32 f →
  dp_post false f (Z.testbit f 31, f =? 0, carry, Z.testbit (VF e) 31) →
  wp (when set_cc (op (Tmp t) (Tmp t) (Tmp t2);; gen_logic_CC (Tmp t));; tcg_temp_free_i32 (Tmp t)) Q
    (both V (if set_cc then set_c (of_bool carry) e else e)).
Proof.
  intros Hop Hf HQ. destruct (logic_flags f) as [Ho Hn]. specialize (HQ _ Ho Hn).
  apply wp_bind. destruct set_cc; cbn [when].
  - apply wp_bind, Hop; [done|vals|vals|vals|].
    apply wp_bind, (wp_st _ _ _ _ _ _ f); [done|vals|]. apply (wp_st _ _ _ _ _ _ f); [done|vals|].
    apply wp_free_i32; [vals|]. same_vals HQ.
  - apply wp_ret. eapply st_free; [vals|]. same_vals HQ.
Qed.

(** Sums, with their operands in either order. *)
Lemma st_arith_store h hf op a b xa xb res c v :
  aval (both V e) a = Some xa → aval (both V e) b = Some xb →
  (∀ s : smmu D, call_helper h [xa; xb] s = on_env (hf xa xb) s) → sets_flags_from e (hf xa xb e) (res, c, v) →
  is_u32 res →
  (∀ Q, Q tt (St (<[t := Some res]> (<[t := Some x]> (<[t2 := Some y]> V))) d nl e) →
     wp (op (Tmp t) a b) Q (both V e)) →
  dp_post true res (Z.testbit res 31, res =? 0, c, v) →
  wp (arith_op env h op set_cc r (Tmp t) a b) Q (both V e).
Proof.
  intros Ha Hb Hh Hf Hres Hop HQ.
  assert (∀ e1, only_nzcv e e1 → nzcv e1 = (if set_cc then (Z.testbit res 31, res =? 0, c, v) else nzcv e) →
    wp (store_reg_bx env r (Tmp t)) Q (St (<[t := Some res]> (<[t := Some x]> (<[t2 := Some y]> V))) d nl e1)) as Hst.
  { intros e1 Ho Hn. apply (st_store_reg_bx r t res); [done|vals|done|]. specialize (HQ e1 Ho Hn). same_vals HQ. }
  apply wp_bind. destruct set_cc.
  - by apply (st_flags h hf a b xa xb t x res c v); [vals|..].
  - by apply Hop, Hst; [apply only_nzcv_refl|].
Qed.
(** CMP and CMN. *)
Lemma st_arith_test h hf res c v : (∀ s : smmu D, call_helper h [x; y] s = on_env (hf x y) s) →
  sets_flags_from e (hf x y e) (res, c, v) → is_u32 res →
  dp_post false res (Z.testbit res 31, res =? 0, c, v) →
  wp (when set_cc (gen_helper h (Some (Tmp t)) [Tmp t; Tmp t2]);; tcg_temp_free_i32 (Tmp t)) Q (both V e).
Proof.
  intros Hh Hf Hres HQ. apply wp_bind. unfold dp_post in HQ. destruct set_cc; cbn [when].
  - apply (st_flags h hf (Tmp t) (Tmp t2) x y t x res c v); [vals..|done|done|done|].
    intros e1 Ho Hn. eapply st_free; [vals|]. specialize (HQ e1 Ho Hn). same_vals HQ.
  - apply wp_ret. eapply st_free; [vals|]. specialize (HQ e (only_nzcv_refl e He) eq_refl). same_vals HQ.
Qed.

Lemma st_and Q' s : a_sk s = None → aval s (Tmp t) = Some x → aval s (Tmp t2) = Some y → writable s (Tmp t) →
  Q' tt (aset (Tmp t) (x .& y) s) → wp (tcg_gen_and_i32 (Tmp t) (Tmp t) (Tmp t2)) Q' s.
Proof. intros. by apply (computes_and _ _ _ _ _ _ _ x y (x .& y)). Qed.
Lemma st_or Q' s : a_sk s = None → aval s (Tmp t) = Some x → aval s (Tmp t2) = Some y → writable s (Tmp t) →
  Q' tt (aset (Tmp t) (x .| y) s) → wp (tcg_gen_or_i32 (Tmp t) (Tmp t) (Tmp t2)) Q' s.
Proof. intros. by apply (computes_or _ _ _ _ _ _ _ x y (x .| y)). Qed.
Lemma st_xor Q' s : a_sk s = None → aval s (Tmp t) = Some x → aval s (Tmp t2) = Some y → writable s (Tmp t) →
  Q' tt (aset (Tmp t) (x .^ y) s) → wp (tcg_gen_xor_i32 (Tmp t) (Tmp t) (Tmp t2)) Q' s.
Proof. intros. by apply (computes_xor _ _ _ _ _ _ _ x y (x .^ y)). Qed.
Lemma st_andc Q' s : a_sk s = None → aval s (Tmp t) = Some x → aval s (Tmp t2) = Some y → writable s (Tmp t) →
  Q' tt (aset (Tmp t) (x .& NOT y) s) → wp (tcg_gen_andc_i32 (Tmp t) (Tmp t) (Tmp t2)) Q' s.
Proof. intros. apply (wp_andc _ _ _ _ _ _ _ x y); try done. by rewrite lnot_NOT. Qed.

Lemma st_binary_op op : 0 ≤ op < 16 → op ≠ 13 → op ≠ 15 → (op = 2 → set_cc && (r =? 15)%nat = false) →
  (let '(res, fl) := dp_result op x y carry (nzcv e) in dp_post (negb (only_flags op)) res fl) →
  let logic_cc := nth (Z.to_nat op) table_logic_cc false && set_cc in
  wp (disas_binary_op env op set_cc logic_cc r (Tmp t) (Tmp t2)) Q
    (both V (if logic_cc then set_c (of_bool carry) e else e)).
Proof.
  intros Hop H13 H15 Hret HQ. cbv zeta.
  pose proof (NOT_u32 x Hx) as Hnx. pose proof (NOT_u32 y Hy) as Hny.
  assert (aval (both V e) (Tmp t) = Some x) as Hat by vals. assert (aval (both V e) (Tmp t2) = Some y) as Hat2 by vals.
  assert (both V e = St (<[t := Some x]> (<[t2 := Some y]> V)) d nl e) as Eb by done.
  assert ((<[t := Some x]> (<[t2 := Some y]> V)) !! t = Some (Some x)) as Hit by vals.
  assert (∃ n, op = Z.of_nat n ∧ (n < 15)%nat) as (n & -> & Hn) by (exists (Z.to_nat op); lia).
  destruct n as [|[|[|[|[|[|[|[|[|[|[|[|[|[|[|n]]]]]]]]]]]]]]]; [..|lia].
  - apply (st_logic_store _ (x .& y)); [apply st_and|by apply is_u32_land|exact HQ].
  - apply (st_logic_store _ (x .^ y)); [apply st_xor|by apply is_u32_lxor|exact HQ].
  - unfold disas_binary_op. change (Z.of_nat 2) with 2 in *. cbv match. rewrite Hret by done.
    eapply (st_arith_store _ sub_cc _ _ _ x y _ _ _ Hat Hat2); [done|by apply sub_cc_eq|apply u32_bound| |exact HQ].
    intros Q'. apply (st_sub t (Tmp t) (Tmp t2) x x y _ d nl e Hit Hat Hat2).
  - eapply (st_arith_store _ sub_cc _ _ _ y x _ _ _ Hat2 Hat); [done|by apply sub_cc_eq|apply u32_bound| |exact HQ].
    intros Q'. apply (st_sub t (Tmp t2) (Tmp t) x y x _ d nl e Hit Hat2 Hat).
  - eapply (st_arith_store _ add_cc _ _ _ x y _ _ _ Hat Hat2); [done|by apply add_cc_eq|apply u32_bound| |exact HQ].
    intros Q'. apply (st_add t (Tmp t) (Tmp t2) x x y _ d nl e Hit Hat Hat2).
  - eapply (st_arith_store _ adc_cc _ _ _ x y _ _ _ Hat Hat2); [done|by apply adc_cc_eq|apply u32_bound| |exact HQ].
    intros Q'. apply (st_add_carry t (Tmp t) (Tmp t2) x x y _ d nl e Hit Hat Hat2 He).
  - eapply (st_arith_store _ sbc_cc _ _ _ x y _ _ _ Hat Hat2); [done|by apply sbc_cc_eq|apply u32_bound| |exact HQ].
    intros Q'. apply (st_sub_carry t (Tmp t) (Tmp t2) x x y _ d nl e Hit Hat Hat2 He).
  - eapply (st_arith_store _ sbc_cc _ _ _ y x _ _ _ Hat2 Hat); [done|by apply sbc_cc_eq|apply u32_bound| |exact HQ].
    intros Q'. apply (st_sub_carry t (Tmp t2) (Tmp t) x y x _ d nl e Hit Hat2 Hat He).
  - apply (st_logic_test _ (x .& y)); [apply st_and|by apply is_u32_land|exact HQ].
  - apply (st_logic_test _ (x .^ y)); [apply st_xor|by apply is_u32_lxor|exact HQ].
  - apply (st_arith_test _ sub_cc (AddWithCarry x (NOT y) true).1.1 (AddWithCarry x (NOT y) true).1.2 (AddWithCarry x (NOT y) true).2);
      [done|by apply sub_cc_eq|apply awc_u32|exact HQ].
  - apply (st_arith_test _ add_cc (AddWithCarry x y false).1.1 (AddWithCarry x y false).1.2 (AddWithCarry x y false).2);
      [done|by apply add_cc_eq|apply awc_u32|exact HQ].
  - apply (st_logic_store _ (x .| y)); [apply st_or|by apply is_u32_lor|exact HQ].
  - done.
  - apply (st_logic_store _ (x .& NOT y)); [apply st_andc|by apply is_u32_land|exact HQ].
Qed.
End operations.


(** *** Moves *)

(** The flags of a result that is then written; [logic_cc] is [set_cc]. *)
Lemma st_move carry set_cc r t m Q V d nl e : V !! t = None → (r < 16)%nat → is_u32 m → alu_wf e →
  (∀ e1, only_nzcv e e1 →
     nzcv e1 = (if set_cc : bool then (Z.testbit m 31, m =? 0, carry, Z.testbit (VF e) 31) else nzcv e) →
     Q tt (St V (jumps_bx v7 r d) nl (put_reg_bx v7 r m e1))) →
  wp (when set_cc (gen_logic_CC (Tmp t));; store_reg_bx env r (Tmp t)) Q
    (St (<[t := Some m]> V) d nl (if set_cc then set_c (of_bool carry) e else e)).
Proof.
  intros Ht Hr Hm He HQ. destruct (logic_flags carry set_cc e He m) as [Ho Hn]. specialize (HQ _ Ho Hn).
  assert (wp (store_reg_bx env r (Tmp t)) Q (St (<[t := Some m]> V) d nl
    (if set_cc then set_c (of_bool carry) e <| NF := m |> <| ZF := m |> else e))) as Hst.
  { apply (st_store_reg_bx r t m); [done|vals|done|]. same_vals HQ. }
  apply wp_bind. destruct set_cc; cbn [when]; [|by apply wp_ret].
  apply wp_bind, (wp_st _ _ _ _ _ _ m); [done|vals|]. apply (wp_st _ _ _ _ _ _ m); [done|vals|]. exact Hst.
Qed.
Lemma st_mov_op carry set_cc r t m Q V d nl e : V !! t = None → (r < 16)%nat → is_u32 m → alu_wf e →
  set_cc && (r =? 15)%nat = false →
  (∀ e1, only_nzcv e e1 →
     nzcv e1 = (if set_cc : bool then (Z.testbit m 31, m =? 0, carry, Z.testbit (VF e) 31) else nzcv e) →
     Q tt (St V (jumps_bx v7 r d) nl (put_reg_bx v7 r m e1))) →
  wp (disas_mov_op env set_cc r (Tmp t)) Q
    (St (<[t := Some m]> V) d nl (if set_cc then set_c (of_bool carry) e else e)).
Proof. intros Ht Hr Hm He Hret HQ. unfold disas_mov_op. rewrite Hret. by apply st_move. Qed.
Lemma st_mvn_op carry set_cc r t m Q V d nl e : V !! t = None → (r < 16)%nat → is_u32 m → alu_wf e →
  (∀ e1, only_nzcv e e1 →
     nzcv e1 = (if set_cc : bool then (Z.testbit (NOT m) 31, NOT m =? 0, carry, Z.testbit (VF e) 31) else nzcv e) →
     Q tt (St V (jumps_bx v7 r d) nl (put_reg_bx v7 r (NOT m) e1))) →
  wp (disas_mvn_op env set_cc r (Tmp t)) Q
    (St (<[t := Some m]> V) d nl (if set_cc then set_c (of_bool carry) e else e)).
Proof.
  intros Ht Hr Hm He HQ. apply wp_bind, (wp_op1 _ _ _ _ _ _ _ m); [done|vals|vals|]. cbn [unop_sem].
  rewrite lnot_NOT by done. cbn [aset with_vals a_vals St]. rewrite insert_insert_eq.
  apply (st_move carry set_cc r t (NOT m)); [done..|by apply NOT_u32|done|done].
Qed.

(** ** A data-processing instruction *)
Lemma not_a_move {A} op (a b c : A) : 0 ≤ op < 16 → op ≠ 13 → op ≠ 15 →
  match op with 13 => a | 15 => b | _ => c end = c.
Proof.
  intros Hop H13 H15. destruct op as [|p|p]; [done| |lia].
  do 4 (destruct p as [p|p|]; try done; try lia).
Qed.
Lemma st_data_processing insn Q V d nl e : alu_wf e → dc_thumb d = 0 → exception_return insn = false →
  (∀ e', dp_effect v7 insn (reads_pc d) e e' → Q tt (St V (dp_jumps v7 insn d) nl e')) →
  wp (disas_data_processing env insn) Q (St V d nl e).
Proof.
  intros He Hth Hret HQ. unfold dp_effect, dp_jumps, exception_return, disas_data_processing, has_bit in *.
  pose proof (field_bound 21 insn) as Hop. set (op := (insn >> 21) .& 15) in *. set (set_cc := Z.testbit insn 20) in *.
  pose proof (reg_at_bound 12 insn) as Hr. set (r := reg_at 12 insn) in *.
  set (rn := reg_read (reads_pc d) e (reg_at 16 insn)) in *. cbv zeta.
  assert (is_u32 rn) as Hrn by (by apply reg_read_u32, reg_at_bound).
  apply wp_bind, st_operand2; [done..|]. destruct (shifter_operand insn (reads_pc d) e) as [m carry]. intros t2 Ht2 Hm.
  destruct (decide (op = 13)) as [E|N13]; [|destruct (decide (op = 15)) as [E|N15]].
  - rewrite E in *. cbv match. apply st_mov_op; try done.
    { change (nth _ _ _) with true. cbn [andb]. by rewrite andb_true_r in Hret. }
    intros e1 Ho Hn. apply HQ. destruct (nzcv e) as [[[? ?] ?] ?] eqn:En.
    cbn [dp_result only_flags Z.leb]. exists e1. split_and!; [done| |done].
    unfold nzcv in En. injection En as <- <- <- <-. done.
  - rewrite E in *. cbv match. apply st_mvn_op; try done.
    intros e1 Ho Hn. apply HQ. destruct (nzcv e) as [[[? ?] ?] ?] eqn:En.
    cbn [dp_result only_flags Z.leb]. exists e1. split_and!; [done| |done].
    unfold nzcv in En. injection En as <- <- <- <-. done.
  - rewrite (not_a_move op) by done.
    apply wp_bind, st_load_reg; [apply reg_at_bound| |done|].
    { destruct (_ && set_cc); [by apply alu_wf_set_c|done]. }
    intros t [Ht Hne]%lookup_insert_None.
    replace (reg_read (reads_pc d) _ (reg_at 16 insn)) with rn by (by destruct (_ && set_cc)).
    apply wp_bind, st_binary_op; [exact Ht|congruence|exact Hr|exact Hrn|exact Hm|exact He|exact Hop|exact N13|exact N15| |].
    { intros E. rewrite E in Hret. by destruct set_cc, (r =? 15)%nat. }
    destruct (dp_result op rn m carry (nzcv e)) as [res fl]. intros e1 Ho Hn.
    specialize (HQ _ (ex_intro _ e1 (conj Ho (conj Hn eq_refl)))).
    destruct (only_flags op); cbn [negb]; (eapply st_free; [apply lookup_insert_eq|]); rewrite delete_insert_id by done; exact HQ.
Qed.
End dp.

(** ** The addresses of a block *)
Lemma page_of_bounds pc : is_u32 pc → ∃ q, page_of pc = 1024 * q ∧ 0 ≤ 1024 * q ≤ pc ∧ pc < 1024 * q + 1024.
Proof.
  unfold is_u32, page_of, TARGET_PAGE_MASK. intros Hpc.
  replace (pc .& 0xFFFFFC00) with (pc / 2 ^ 10 * 2 ^ 10).
  - change (2 ^ 10) with 1024. pose proof (Z.div_mod pc 1024 ltac:(lia)). pose proof (Z.mod_pos_bound pc 1024 ltac:(lia)).
    exists (pc / 1024). split_and!; lia.
  - rewrite <- Z.shiftr_div_pow2, <- Z.shiftl_mul_pow2, <- Z.ldiff_ones_r by lia. apply Z.bits_inj'. intros n Hn.
    rewrite Z.ldiff_spec, Z.land_spec, Z.testbit_ones_nonneg by lia.
    destruct (Z.lt_ge_cases n 32) as [?|?]; [|by rewrite (testbit_of_high pc n)].
    f_equal. assert (∃ k, n = Z.of_nat k ∧ (k < 32)%nat) as (k & -> & Hk) by (exists (Z.to_nat n); lia).
    do 32 (destruct k as [|k]; [done|]). lia.
Qed.
(** The block ends at the end of the page, which is address 0 on the last one. *)
Lemma next_page_range pc : is_u32 pc → let next := u32 (page_of pc + TARGET_PAGE_SIZE) in
  next = 0 ∨ pc < next ≤ 2 ^ 32 - 4 ∧ next - pc ≤ 1024.
Proof.
  intros Hpc. destruct (page_of_bounds pc Hpc) as (q & E & Hq). rewrite E. unfold is_u32, TARGET_PAGE_SIZE in *. cbv zeta.
  destruct (Z.eq_dec (1024 * q + 1024) (2 ^ 32)) as [->|Hne]; [by left|right].
  rewrite u32_small by (unfold is_u32; lia). lia.
Qed.
Lemma next_page_bound pc : is_u32 pc → 0 ≤ u32 (page_of pc + TARGET_PAGE_SIZE) ≤ 2 ^ 32 - 4.
Proof.
  intros Hpc. destruct (page_of_bounds pc Hpc) as (q & E & Hq). rewrite E. unfold is_u32, TARGET_PAGE_SIZE, u32 in *.
  pose proof (Z.mod_pos_bound (1024 * q + 1024) (2 ^ 32) ltac:(lia)).
  pose proof (Z.div_mod (1024 * q + 1024) (2 ^ 32) ltac:(lia)). lia.
Qed.
Lemma u16_size pc n : (n ≤ 256)%nat → u16 (u32 (pc + 4 * Z.of_nat n) - pc) = 4 * Z.of_nat n.
Proof.
  intros Hn. unfold u16, u32. rewrite (Z.mod_eq (pc + _)) by lia. change (2 ^ 32) with (2 ^ 16 * 2 ^ 16).
  set (q := _ / _). replace (_ - _) with (4 * Z.of_nat n + (- 2 ^ 16 * q) * 2 ^ 16) by lia.
  rewrite Z.mod_add by lia. apply Z.mod_small. lia.
Qed.
