(* ===== verification/TcgSafe.v ===== *)
(** * Generators that cannot fail

    [gsafe m Q V N K P]: run on a translator's state with the temporaries [V] in
    use, room for [N] operations, [K] units of credit for labels and room for [P]
    more temporaries, [m] does not fault and ends in a state that [Q] describes,
    or at [illegal_op].  A label costs four units and an operation earns one, so
    that the labels of a block run out no earlier than its buffer.  Of each type
    the table of temporaries has as many as were in use at once; with at most
    [TEMPS] in use the three types and the globals fit into [TCG_MAX_TEMPS].  Specifications of generators are
    instances of [Spec], which [step] finds. *)
From S2P Require Import Prelude ArmCpu ArmMode ArmAlu PhysMem SoftMmu GuestOps Tcg TcgFacts TransArm.

(** Operations with labels of the table and an index of the two translation
    regimes. *)
Definition valid_op (o : tcg_op) : Prop :=
  match o with
  | Op_qemu_ld k _ _ _ i | Op_qemu_st k _ _ i => (k ≤ 2)%nat ∧ (i = 0 ∨ i = 1)
  | Op_brcond _ _ _ l | Op_br l | Op_set_label l => (l < TCG_MAX_LABELS)%nat
  | _ => True
  end.

(** The end of a block needs more operations after a hint, a call or a trap. *)
Definition jmp_extra (j : Z) : nat := match j with 4 => 1 | 5 | 6 => 2 | _ => 0 end.
Definition OPC_BUF_SIZE : nat := 2048.
(** The buffer without the end marker. *)
Definition buffer_room : nat := OPC_BUF_SIZE - 1.
#[global] Arguments buffer_room : simpl never.

(** What the generators of an instruction leave alone. *)
Record dc_like (d d' : DisasContext) : Prop := {
  like_pc : dc_pc d' = dc_pc d;
  like_mask : condexec_mask d' = condexec_mask d;
  like_thumb : dc_thumb d' = dc_thumb d
}.
Lemma dc_like_refl d : dc_like d d.
Proof. by split. Qed.
Lemma dc_like_trans d1 d2 d3 : dc_like d1 d2 → dc_like d2 d3 → dc_like d1 d3.
Proof. intros [? ? ?] [? ? ?]. split; congruence. Qed.

(** A temporary in use. *)
Inductive temp_kind : Type := I32 | I64 | LOCAL.
#[export] Instance temp_kind_eq_dec : EqDecision temp_kind.
Proof. solve_decision. Defined.
Inductive slot : Type := Slot (k : temp_kind) (t : nat).
Definition kind (x : slot) : temp_kind := let 'Slot k _ := x in k.
Definition num (x : slot) : nat := let 'Slot _ t := x in t.
Definition W32 (t : nat) : slot := Slot I32 t.
Definition W64 (t : nat) : slot := Slot I64 t.
Definition WL (t : nat) : slot := Slot LOCAL t.

(** Those of a type that are in use, and those that wait to be used again. *)
Definition held (k : temp_kind) (V : list slot) : nat := length (filter (λ x, kind x = k) V).
Definition given_back (k : temp_kind) (g : gctx) : list nat :=
  match k with I32 => free_i32 g | I64 => free_i64 g | LOCAL => free_local g end.
Definition total (k : temp_kind) (V : list slot) (g : gctx) : nat := (held k V + length (given_back k g))%nat.
Definition TEMPS : nat := 160.

#[export] Instance held_proper k : Proper ((≡ₚ) ==> eq) (held k).
Proof. intros V V' HV. unfold held. by rewrite HV. Qed.
Lemma held_cons j k t V : held j (Slot k t :: V) = ((if decide (j = k) then 1 else 0) + held j V)%nat.
Proof. unfold held. rewrite filter_cons. cbn. repeat case_decide; congruence || done. Qed.
Lemma held_length k V : (held k V ≤ length V)%nat.
Proof. apply length_filter. Qed.

Section gsafe.
(** The operations that write the IT state back: none in ARM code, two in
    Thumb code. *)
Context (ce : nat).

Record ok (g : gctx) (V : list slot) (N K P : nat) : Prop := {
  ok_nodup : NoDup ((num <$> V) ++ frees g);
  ok_below : Forall (λ t, t < nb_temps g)%nat ((num <$> V) ++ frees g);
  ok_temps : (length V + P ≤ TEMPS)%nat;
  ok_kinds : ∀ k, (total k V g ≤ TEMPS)%nat;
  ok_count : (nb_temps g ≤ total I32 V g + total I64 V g + total LOCAL V g)%nat;
  ok_ops : (length (gen_opc_buf g) + N + jmp_extra (is_jmp (dc g)) ≤ buffer_room)%nat;
  ok_labels : (4 * nb_labels g + K ≤ length (gen_opc_buf g) + 8)%nat;
  ok_valid : Forall valid_op (gen_opc_buf g);
  ok_condlabel : (condlabel (dc g) < TCG_MAX_LABELS)%nat;
  ok_condexec : condexec_mask (dc g) = 0 ∨ (2 ≤ ce)%nat
}.

(** What must be left for an undefined instruction and the end of its block;
    [n], [k] and [p] are the room and the credit that [m] does not see. *)
Definition illegal_room : nat := 9 + 3 * ce.
Definition illegal_temps : nat := 4.
Definition gsafe {A} (m : gen A) (Q : A → list slot → nat → nat → nat → Prop) (V : list slot) (N K P : nat) : Prop :=
  ∀ n k p g, ok g V (N + n) (K + k) (P + p) → ∃ r g', m g = Ok (r, g') ∧ dc_like (dc g) (dc g') ∧
    match r with
    | Some a => ∃ V' N' K' P', ok g' V' (N' + n) (K' + k) (P' + p) ∧ Q a V' N' K' P'
    | None => ∃ V', ok g' V' illegal_room 4 illegal_temps
    end.

(** ** Rules *)
Lemma ok_less g V N K P N' K' P' : (N' ≤ N)%nat → (K' ≤ K)%nat → (P' ≤ P)%nat → ok g V N K P → ok g V N' K' P'.
Proof. intros HN HK HP []. split; try done; lia. Qed.
Lemma ok_perm g V V' N K P : V ≡ₚ V' → ok g V N K P → ok g V' N K P.
Proof. intros HV []. unfold total in *. split; try done; unfold total; setoid_rewrite <- HV; done. Qed.

Lemma gsafe_ret {A} (a : A) (Q : _ → _ → _ → _ → _ → Prop) V N K P : Q a V N K P → gsafe (mret a) Q V N K P.
Proof. intros HQ n k p g Hg. exists (Some a), g. split_and!; [done|apply dc_like_refl|]. by exists V, N, K, P. Qed.
Lemma gsafe_bind {A B} (m : gen A) (c : A → gen B) Q V N K P :
  gsafe m (λ a V' N' K' P', gsafe (c a) Q V' N' K' P') V N K P → gsafe (m ≫= c) Q V N K P.
Proof.
  intros Hm n k p g Hg. destruct (Hm n k p g Hg) as (r & g1 & E & Hd & Hr). unfold mbind, gen_bind. rewrite E. cbn.
  destruct r as [a|]; [|by exists None, g1]. destruct Hr as (V1 & N1 & K1 & P1 & Hg1 & Hk).
  destruct (Hk n k p g1 Hg1) as (r & g2 & E2 & Hd2 & Hr). exists r, g2. split_and!; [done|by eapply dc_like_trans|done].
Qed.
Lemma gsafe_illegal {A} (Q : A → _ → _ → _ → _ → Prop) V N K P : (illegal_room ≤ N)%nat → (4 ≤ K)%nat →
  (illegal_temps ≤ P)%nat → gsafe illegal_op Q V N K P.
Proof.
  intros HN HK HP n k p g Hg. exists None, g. split_and!; [done|apply dc_like_refl|]. exists V. eapply ok_less, Hg; lia.
Qed.
Lemma gsafe_mono {A} (m : gen A) (Q Q' : A → _ → _ → _ → _ → Prop) V N K P :
  gsafe m Q V N K P → (∀ a V' N' K' P', Q a V' N' K' P' → Q' a V' N' K' P') → gsafe m Q' V N K P.
Proof.
  intros Hm HQ n k p g Hg. destruct (Hm n k p g Hg) as (r & g1 & E & Hd & Hr). exists r, g1. split_and!; [done..|].
  destruct r; [|done]. destruct Hr as (V' & N' & K' & P' & ? & ?). exists V', N', K', P'. auto.
Qed.
(** What is left may be given up, and what is not needed is left over. *)
Lemma gsafe_weaken {A} (m : gen A) (R Q : A → _ → _ → _ → _ → Prop) V N K P : gsafe m R V N K P →
  (∀ a V' N' K' P', R a V' N' K' P' →
     ∃ N1 K1 P1, (N1 ≤ N')%nat ∧ (K1 ≤ K')%nat ∧ (P1 ≤ P')%nat ∧ Q a V' N1 K1 P1) → gsafe m Q V N K P.
Proof.
  intros Hm HQ n k p g Hg. destruct (Hm n k p g Hg) as (r & g1 & E & Hd & Hr). exists r, g1. split_and!; [done..|].
  destruct r; [|done]. destruct Hr as (V' & N' & K' & P' & Hg1 & (N1 & K1 & P1 & HN & HK & HP & HQ1)%HQ).
  exists V', N1, K1, P1. split; [|done]. eapply ok_less, Hg1; lia.
Qed.
Lemma gsafe_frame {A} (m : gen A) (R Q : A → _ → _ → _ → _ → Prop) V n k p N K P :
  gsafe m R V n k p → (n ≤ N)%nat → (k ≤ K)%nat → (p ≤ P)%nat →
  (∀ a V' N' K' P', R a V' N' K' P' → Q a V' (N' + (N - n))%nat (K' + (K - k))%nat (P' + (P - p))%nat) →
  gsafe m Q V N K P.
Proof.
  intros Hm HN HK HP HQ n0 k0 p0 g Hg.
  destruct (Hm (N - n + n0) (K - k + k0) (P - p + p0) g)%nat as (r & g1 & E & Hd & Hr).
  { eapply ok_less, Hg; lia. }
  exists r, g1. split_and!; [done..|]. destruct r; [|done]. destruct Hr as (V' & N' & K' & P' & Hg1 & HR).
  exists V', (N' + (N - n))%nat, (K' + (K - k))%nat, (P' + (P - p))%nat. split; [|by apply HQ]. eapply ok_less, Hg1; lia.
Qed.
Lemma gsafe_perm {A} (m : gen A) Q V V' N K P : V ≡ₚ V' → gsafe m Q V' N K P → gsafe m Q V N K P.
Proof. intros HV Hm n k p g Hg. by apply Hm, (ok_perm _ V). Qed.

(** *** Temporaries *)

(** One that was given back, or one more. *)
Definition takes (k : temp_kind) (t : nat) (g g' : gctx) : Prop :=
  t :: frees g' ≡ₚ frees g ∧ nb_temps g' = nb_temps g ∧
    (∀ j, length (given_back j g) = (if decide (j = k) then 1 else 0) + length (given_back j g'))%nat ∨
  t = nb_temps g ∧ nb_temps g' = S t ∧ given_back k g = [] ∧ frees g' = frees g ∧
    (∀ j, given_back j g' = given_back j g).
Lemma takes_total k t g g' V : takes k t g g' → (length V < TEMPS)%nat → (∀ j, total j V g ≤ TEMPS)%nat →
  (nb_temps g ≤ total I32 V g + total I64 V g + total LOCAL V g)%nat →
  (∀ j, total j (Slot k t :: V) g' ≤ TEMPS)%nat ∧
  (nb_temps g' ≤ total I32 (Slot k t :: V) g' + total I64 (Slot k t :: V) g' + total LOCAL (Slot k t :: V) g')%nat.
Proof.
  unfold total. intros [(_ & En & Hl)|(-> & En & E0 & _ & Ef)] HV Hk Hc.
  - split; [intros j|]; rewrite ?held_cons; [specialize (Hk j); specialize (Hl j); lia|].
    pose proof (Hl I32). pose proof (Hl I64). pose proof (Hl LOCAL). lia.
  - split; [intros j|]; rewrite ?held_cons, ?Ef.
    + specialize (Hk j). pose proof (held_length j V). case_decide as E; [subst j; rewrite E0 in *; cbn [length] in *|]; lia.
    + rewrite En. destruct k; repeat case_decide; done || lia.
Qed.
Lemma gsafe_new k (new : gen tcgv) (mk : nat → tcgv) (Q : tcgv → _ → _ → _ → _ → Prop) V N K P :
  (∀ g, (given_back k g = [] → nb_temps g < 3 * TEMPS)%nat →
     ∃ t g', new g = Ok (Some (mk t), g') ∧ gen_opc_buf g' = gen_opc_buf g ∧ nb_labels g' = nb_labels g ∧
       dc g' = dc g ∧ takes k t g g') →
  (1 ≤ P)%nat → (∀ t, Q (mk t) (Slot k t :: V) N K (P - 1)%nat) → gsafe new Q V N K P.
Proof.
  intros Hnew HP HQ n k' p g [Hnd Hb Ht Hk Hc Hops Hlab Hv Hcl Hce].
  destruct (Hnew g) as (t & g' & E & Eb & El & Ed & Htk).
  { intros E0. pose proof (Hk I32). pose proof (Hk I64). pose proof (Hk LOCAL). pose proof (held_length k V) as Hl.
    assert (total k V g < TEMPS)%nat; [unfold total; rewrite E0; cbn; lia|]. destruct k; lia. }
  exists (Some (mk t)), g'. split_and!; [done|rewrite Ed; apply dc_like_refl|].
  destruct (takes_total k t g g' V Htk ltac:(lia) Hk Hc) as [Hk' Hc'].
  exists (Slot k t :: V), N, K, (P - 1)%nat. split; [|by apply HQ]. split; try (by rewrite ?Eb, ?El, ?Ed); try done.
  - cbn. destruct Htk as [(Hp & _)|(-> & _ & _ & Ef & _)].
    + rewrite (Permutation_middle (num <$> V) (frees g') t). by rewrite Hp.
    + rewrite Ef. constructor; [|done]. intros Hin. rewrite Forall_forall in Hb. apply Hb in Hin. lia.
  - cbn. destruct Htk as [(Hp & En & _)|(-> & En & _ & Ef & _)].
    + rewrite (Permutation_middle (num <$> V) (frees g') t), Hp, En. done.
    + rewrite Ef, En. constructor; [lia|]. eapply Forall_impl; [exact Hb|]. cbn. lia.
  - cbn. lia.
Qed.
Lemma more_ok mk g : (nb_temps g < 3 * TEMPS)%nat →
  tcg_temp_more mk g = Ok (Some (mk (nb_temps g)), g <| nb_temps := S (nb_temps g) |>).
Proof.
  intros Hn. unfold tcg_temp_more, TEMPS, TCG_MAX_TEMPS, nb_globals in *. rewrite (proj2 (Nat.ltb_ge 512 _)); [done|lia].
Qed.
Lemma gsafe_new_i32 Q V N K P : (1 ≤ P)%nat → (∀ t, Q (Tmp t) (W32 t :: V) N K (P - 1)%nat) →
  gsafe tcg_temp_new_i32 Q V N K P.
Proof.
  apply (gsafe_new I32 _ Tmp). intros g Hg. unfold tcg_temp_new_i32. cbn in Hg. destruct (free_i32 g) as [|t l] eqn:E.
  - rewrite more_ok by auto. eexists _, _. split_and!; try done. right. by split_and!.
  - eexists _, _. split_and!; try done. left. split_and!; [unfold frees; cbn; by rewrite E|done|].
    intros []; cbn; by rewrite ?E.
Qed.
Lemma gsafe_new_i64 Q V N K P : (1 ≤ P)%nat → (∀ t, Q (Tmp t) (W64 t :: V) N K (P - 1)%nat) →
  gsafe tcg_temp_new_i64 Q V N K P.
Proof.
  apply (gsafe_new I64 _ Tmp). intros g Hg. unfold tcg_temp_new_i64. cbn in Hg. destruct (free_i64 g) as [|t l] eqn:E.
  - rewrite more_ok by auto. eexists _, _. split_and!; try done. right. by split_and!.
  - eexists _, _. split_and!; try done. left. split_and!; [|done|intros []; cbn; by rewrite ?E].
    unfold frees. cbn. rewrite E. cbn. by rewrite <- Permutation_middle.
Qed.
Lemma gsafe_local_new_i32 Q V N K P : (1 ≤ P)%nat → (∀ t, Q (Local t) (WL t :: V) N K (P - 1)%nat) →
  gsafe tcg_temp_local_new_i32 Q V N K P.
Proof.
  apply (gsafe_new LOCAL _ Local). intros g Hg. unfold tcg_temp_local_new_i32. cbn in Hg. destruct (free_local g) as [|t l] eqn:E.
  - rewrite more_ok by auto. eexists _, _. split_and!; try done. right. by split_and!.
  - eexists _, _. split_and!; try done. left. split_and!; [|done|intros []; cbn; by rewrite ?E].
    unfold frees. cbn. rewrite E. cbn. by rewrite <- !Permutation_middle.
Qed.

Lemma may_free_ok g j t V N K P : ok g (Slot j t :: V) N K P → may_free t g = true.
Proof.
  intros [Hnd Hb _ _ _ _ _ _ _ _]. cbn in *. apply NoDup_cons in Hnd as [Hn _]. apply Forall_cons in Hb as [Hb _].
  unfold frees in Hn. rewrite !elem_of_app in Hn. unfold may_free. rewrite !bool_decide_eq_true_2; [done|tauto..|done].
Qed.
Lemma ok_free j g g' t V N K P : ok g (Slot j t :: V) N K P → gen_opc_buf g' = gen_opc_buf g →
  nb_labels g' = nb_labels g → dc g' = dc g → nb_temps g' = nb_temps g → frees g' ≡ₚ t :: frees g →
  (∀ i, length (given_back i g') = (if decide (i = j) then 1 else 0) + length (given_back i g))%nat →
  ok g' V N K (P + 1).
Proof.
  intros [Hnd Hb Ht Hk Hc Hops Hlab Hv Hcl Hce] Eb El Ed En Hp Hl.
  assert (∀ i, total i V g' = total i (Slot j t :: V) g) as E.
  { intros i. unfold total. rewrite held_cons, Hl. lia. }
  split; try (by rewrite ?Eb, ?El, ?Ed).
  - by rewrite Hp, <- Permutation_middle.
  - by rewrite En, Hp, <- Permutation_middle.
  - cbn in Ht. lia.
  - intros i. by rewrite E.
  - by rewrite !E, En.
Qed.
Lemma gsafe_free j (free : tcgv → gen unit) (mk : nat → tcgv) t (Q : unit → _ → _ → _ → _ → Prop) V V' N K P :
  (∀ g, may_free t g = true → ∃ g', free (mk t) g = Ok (Some tt, g') ∧ gen_opc_buf g' = gen_opc_buf g ∧
     nb_labels g' = nb_labels g ∧ dc g' = dc g ∧ nb_temps g' = nb_temps g ∧ frees g' ≡ₚ t :: frees g ∧
     ∀ i, length (given_back i g') = (if decide (i = j) then 1 else 0) + length (given_back i g))%nat →
  V ≡ₚ Slot j t :: V' → Q tt V' N K (P + 1)%nat → gsafe (free (mk t)) Q V N K P.
Proof.
  intros Hfree HV HQ n k p g Hg%(ok_perm _ _ _ _ _ _ HV).
  destruct (Hfree g (may_free_ok _ _ _ _ _ _ _ Hg)) as (g' & E & Eb & El & Ed & En & Hp & Hl).
  exists (Some tt), g'. split_and!; [done|rewrite Ed; apply dc_like_refl|]. exists V', N, K, (P + 1)%nat. split; [|done].
  replace (P + 1 + p)%nat with (P + p + 1)%nat by lia. by apply (ok_free j g g' t).
Qed.
Lemma gsafe_free_i32 t (Q : unit → _ → _ → _ → _ → Prop) V V' N K P : V ≡ₚ W32 t :: V' → Q tt V' N K (P + 1)%nat →
  gsafe (tcg_temp_free_i32 (Tmp t)) Q V N K P.
Proof.
  apply (gsafe_free I32 _ Tmp). intros g Hm. unfold tcg_temp_free_i32. rewrite Hm. eexists.
  split_and!; try done. by intros [].
Qed.
Lemma gsafe_free_i64 t (Q : unit → _ → _ → _ → _ → Prop) V V' N K P : V ≡ₚ W64 t :: V' → Q tt V' N K (P + 1)%nat →
  gsafe (tcg_temp_free_i64 (Tmp t)) Q V N K P.
Proof.
  apply (gsafe_free I64 _ Tmp). intros g Hm. unfold tcg_temp_free_i64. rewrite Hm. eexists.
  split_and!; try done; [|by intros []]. unfold frees. cbn. by rewrite <- Permutation_middle.
Qed.
Lemma gsafe_free_local t (Q : unit → _ → _ → _ → _ → Prop) V V' N K P : V ≡ₚ WL t :: V' → Q tt V' N K (P + 1)%nat →
  gsafe (tcg_temp_free_i32 (Local t)) Q V N K P.
Proof.
  apply (gsafe_free LOCAL _ Local). intros g Hm. unfold tcg_temp_free_i32. rewrite Hm. eexists.
  split_and!; try done; [|by intros []]. unfold frees. cbn. by rewrite <- !Permutation_middle.
Qed.

(** *** Operations, labels and the translator's state *)
Lemma ok_emit g o V N K P : valid_op o → (1 ≤ N)%nat → ok g V N K P →
  ok (g <| gen_opc_buf := gen_opc_buf g ++ [o] |>) V (N - 1) (K + 1) P.
Proof.
  intros Ho HN [Hnd Hb Ht Hk Hc Hops Hlab Hv Hcl Hce]. split; try done; cbn; rewrite ?length_app; cbn; try lia.
  apply Forall_app. by split; [|apply Forall_singleton].
Qed.
Lemma gsafe_emit o (Q : unit → _ → _ → _ → _ → Prop) V N K P : valid_op o → (1 ≤ N)%nat → Q tt V (N - 1)%nat (K + 1)%nat P →
  gsafe (emit o) Q V N K P.
Proof.
  intros Ho HN HQ n k p g Hg. eexists _, _. split_and!; [done|apply dc_like_refl|].
  exists V, (N - 1)%nat, (K + 1)%nat, P. split; [|done].
  replace (N - 1 + n)%nat with (N + n - 1)%nat by lia. replace (K + 1 + k)%nat with (K + k + 1)%nat by lia.
  apply ok_emit; [done|lia|done].
Qed.
Lemma gsafe_new_label (Q : nat → _ → _ → _ → _ → Prop) V N K P : (4 ≤ K)%nat → (4 ≤ N)%nat →
  (∀ l, (l < TCG_MAX_LABELS)%nat → Q l V N (K - 4)%nat P) → gsafe gen_new_label Q V N K P.
Proof.
  intros HK HN HQ n k p g [Hnd Hb Ht Hk Hc Hops Hlab Hv Hcl Hce]. unfold gen_new_label, buffer_room, OPC_BUF_SIZE, TCG_MAX_LABELS in *.
  rewrite (proj2 (Nat.leb_gt 512 _)) by lia. eexists _, _. split_and!; [done|apply dc_like_refl|].
  exists V, N, (K - 4)%nat, P. split; [|apply HQ; lia]. split; try done; cbn; lia.
Qed.
Lemma gsafe_get_dc {A} (f : DisasContext → A) (Q : A → _ → _ → _ → _ → Prop) V N K P :
  (∀ d, Q (f d) V N K P) → gsafe (get_dc f) Q V N K P.
Proof.
  intros HQ n k p g Hg. eexists _, _. split_and!; [done|apply dc_like_refl|]. exists V, N, K, P. split; [done|]. apply HQ.
Qed.
(** The bits of the IT state. *)
Lemma gsafe_get_mask (Q : Z → _ → _ → _ → _ → Prop) V N K P :
  (∀ m, m = 0 ∨ (2 ≤ ce)%nat → Q m V N K P) → gsafe (get_dc condexec_mask) Q V N K P.
Proof.
  intros HQ n k p g Hg. eexists _, _. split_and!; [done|apply dc_like_refl|]. exists V, N, K, P. split; [done|].
  apply HQ, Hg.
Qed.
Lemma gsafe_set_jmp j (Q : unit → _ → _ → _ → _ → Prop) V N K P : (jmp_extra j ≤ N)%nat → Q tt V (N - jmp_extra j)%nat K P →
  gsafe (set_jmp j) Q V N K P.
Proof.
  intros HN HQ n k p g [Hnd Hb Ht Hk Hc Hops Hlab Hv Hcl Hce]. eexists _, _. split_and!; [done|by split|].
  exists V, (N - jmp_extra j)%nat, K, P. split; [|done]. split; try done. cbn. lia.
Qed.
Lemma gsafe_err {A} f (Q : A → _ → _ → _ → _ → Prop) V N K P : False → gsafe (gen_err f) Q V N K P.
Proof. done. Qed.
End gsafe.

(** ** Specifications

    [m] takes the temporaries [ins] and gives those in [outs]; it needs room for
    [n] operations, [k] credit and room for [p] temporaries, and uses up [c] and
    [d] of the first two.  *)
Definition leaves {A} (ins : list slot) (outs : A → list slot → Prop) (V : list slot) (n c k d p : nat)
    (a : A) (V' : list slot) (N' K' P' : nat) : Prop :=
  (n ≤ N' + c)%nat ∧ (k ≤ K' + d)%nat ∧
  ∃ new, outs a new ∧ V' = new ++ V ∧ (p + length ins ≤ P' + length new)%nat.
Class Spec (ce : nat) {A} (m : gen A) (ins : list slot) (outs : A → list slot → Prop) (n c k d p : nat) : Prop :=
  spec : ∀ V, gsafe ce m (leaves ins outs V n c k d p) (ins ++ V) n k p.
#[export] Hint Mode Spec + + + - - - - - - - : typeclass_instances.
Definition nothing {A} (a : A) (new : list slot) : Prop := new = [].
Definition a_register (r : nat) (v : tcgv) (new : list slot) : Prop := v = CpuR r ∧ new = [].
Definition a_temp (v : tcgv) (new : list slot) : Prop := ∃ t, v = Tmp t ∧ new = [W32 t].
Definition a_temp64 (v : tcgv) (new : list slot) : Prop := ∃ t, v = Tmp t ∧ new = [W64 t].

(** [V] is [ins] and [V']. *)
Class TakeAll (ins V V' : list slot) : Prop := take_all : V ≡ₚ ins ++ V'.
#[export] Hint Mode TakeAll ! ! - : typeclass_instances.
Class Take (t : slot) (V V' : list slot) : Prop := take : V ≡ₚ t :: V'.
#[export] Hint Mode Take + ! - : typeclass_instances.
#[export] Instance take_here t V : Take t (t :: V) V | 0.
Proof. unfold Take. reflexivity. Qed.
#[export] Instance take_there t u V V' : Take t V V' → Take t (u :: V) (u :: V') | 1.
Proof. unfold Take. intros ->. apply Permutation_swap. Qed.
#[export] Instance take_none V : TakeAll [] V V.
Proof. unfold TakeAll. reflexivity. Qed.
#[export] Instance take_some t ins V V1 V' : Take t V V1 → TakeAll ins V1 V' → TakeAll (t :: ins) V V'.
Proof. unfold Take, TakeAll. by intros -> ->. Qed.

Lemma use_spec {ce A} {m : gen A} {ins outs n c k d p} `{!Spec ce m ins outs n c k d p}
    (Q : A → _ → _ → _ → _ → Prop) V V' N K P :
  TakeAll ins V V' → (n ≤ N)%nat → (k ≤ K)%nat → (p ≤ P)%nat →
  (∀ a new, outs a new → Q a (new ++ V') (N - c)%nat (K - d)%nat (P + length ins - length new)%nat) →
  gsafe ce m Q V N K P.
Proof.
  intros HV HN HK HP HQ. eapply gsafe_perm; [exact HV|].
  eapply (gsafe_weaken _ _ (λ a W N' K' P', ∃ new, outs a new ∧ W = new ++ V' ∧ (N - c ≤ N')%nat ∧ (K - d ≤ K')%nat ∧
    (P + length ins - length new ≤ P')%nat)).
  - eapply gsafe_frame; [apply (spec V')|exact HN|exact HK|exact HP|].
    intros a W N' K' P' (Hn & Hk & new & Ho & -> & Hp). exists new. split_and!; [done|done|lia..].
  - intros a W N' K' P' (new & Ho & -> & H1 & H2 & H3).
    exists (N - c)%nat, (K - d)%nat, (P + length ins - length new)%nat. split_and!; [done..|]. by apply HQ.
Qed.
Lemma spec_intro ce {A} (m : gen A) ins outs n c k d p :
  (∀ V, gsafe ce m (leaves ins outs V n c k d p) (ins ++ V) n k p) → Spec ce m ins outs n c k d p.
Proof. done. Qed.

(** Register numbers and translation regimes. *)
Class IsReg (r : nat) : Prop := is_reg : (r < 16)%nat.
Class IsIndex (i : Z) : Prop := is_index : i = 0 ∨ i = 1.
Class IsSize (k : nat) : Prop := is_size : (k ≤ 2)%nat.
#[export] Instance size_0 : IsSize 0.
Proof. unfold IsSize. lia. Qed.
#[export] Instance size_1 : IsSize 1.
Proof. unfold IsSize. lia. Qed.
#[export] Instance size_2 : IsSize 2.
Proof. unfold IsSize. lia. Qed.
#[export] Instance index_bool (b : bool) : IsIndex (of_bool b).
Proof. destruct b; [by right|by left]. Qed.
#[export] Instance index_0 : IsIndex 0.
Proof. by left. Qed.

Definition an_index (i : Z) (new : list slot) : Prop := IsIndex i ∧ new = [].

(** One step of a generator; what it cannot do is left to the user. *)
Ltac step :=
  cbv beta iota zeta;
  lazymatch goal with
  | |- gsafe _ (mret _) _ _ _ _ _ => apply gsafe_ret
  | |- gsafe _ skip_gen _ _ _ _ _ => apply gsafe_ret
  | |- gsafe _ (_ ≫= _) _ _ _ _ _ => apply gsafe_bind
  | |- gsafe _ (emit _) _ _ _ _ _ => apply gsafe_emit; [first [exact I|cbn; auto]|lia|]
  | |- gsafe _ illegal_op _ _ _ _ _ => apply gsafe_illegal; unfold illegal_room, illegal_temps; cbn [length]; lia
  | |- gsafe _ tcg_temp_new_i32 _ _ _ _ _ => apply gsafe_new_i32; [lia|intros ?t]
  | |- gsafe _ tcg_temp_new_i64 _ _ _ _ _ => apply gsafe_new_i64; [lia|intros ?t]
  | |- gsafe _ tcg_temp_local_new_i32 _ _ _ _ _ => apply gsafe_local_new_i32; [lia|intros ?t]
  | |- gsafe _ (tcg_temp_free_i32 (Tmp _)) _ _ _ _ _ => eapply gsafe_free_i32; [apply take; apply _|]
  | |- gsafe _ (tcg_temp_free_i64 (Tmp _)) _ _ _ _ _ => eapply gsafe_free_i64; [apply take; apply _|]
  | |- gsafe _ (tcg_temp_free_i32 (Local _)) _ _ _ _ _ => eapply gsafe_free_local; [apply take; apply _|]
  | |- gsafe _ gen_new_label _ _ _ _ _ => apply gsafe_new_label; [lia|lia|intros ?l ?Hl]
  | |- gsafe _ (get_dc condexec_mask) _ _ _ _ _ => apply gsafe_get_mask; intros ?m ?Hm
  | |- gsafe _ (get_dc _) _ _ _ _ _ => apply gsafe_get_dc; intros ?d
  | |- gsafe _ (set_jmp ?j) _ _ _ _ _ =>
      let x := eval vm_compute in (jmp_extra j) in
      apply gsafe_set_jmp; change (jmp_extra j) with x; [lia|]
  | |- gsafe _ (let (_, _) := ?p in _) _ _ _ _ _ => destruct p as [?x ?y]
  | |- gsafe _ (when ?b _) _ _ _ _ _ =>
      first [eapply use_spec; [apply _|lia|lia|lia|intros ?a ?new ?Ho]|unfold when; destruct b]
  | |- gsafe _ (if ?b then _ else _) _ _ _ _ _ =>
      first [eapply use_spec; [apply _|lia|lia|lia|intros ?a ?new ?Ho]|destruct b]
  | |- gsafe _ _ _ _ _ _ _ => eapply use_spec; [apply _|lia|lia|lia|intros ?a ?new ?Ho]
  end.
(** The results of a specification, and the end of a proof of one. *)
Ltac results :=
  repeat lazymatch goal with
  | H : nothing _ _ |- _ => unfold nothing in H; subst
  | H : an_index _ _ |- _ => let Hi := fresh "Hi" in destruct H as [Hi ->]
  | H : a_register _ _ _ |- _ => destruct H as [-> ->]
  | H : a_temp _ _ |- _ => destruct H as (?t & -> & ->)
  | H : a_temp64 _ _ |- _ => destruct H as (?t & -> & ->)
  end; cbn [app length Nat.sub Nat.add Nat.max].
Ltac spec_end :=
  split; [lia|split; [lia|]];
  first [exists []; split; [reflexivity|split; [reflexivity|cbn [length]; lia]]
        |exists []; split; [split; reflexivity|split; [reflexivity|cbn [length]; lia]]
        |eexists [_]; split; [by eexists|split; [reflexivity|cbn [length]; lia]]].
Ltac steps := repeat (step; results).
(** The goal is [H] up to arithmetic on room and credit. *)
Ltac budget H :=
  lazymatch type of H with ?Q ?n ?k ?p =>
  lazymatch goal with |- _ ?n' ?k' ?p' =>
    replace n' with n by lia; replace k' with k by lia; replace p' with p by lia; exact H end end.
Ltac prove_spec := apply spec_intro; intros ?V; cbn [app]; steps; try spec_end.

(** ** The operations *)
#[export] Instance spec_when ce b m n c k d p : Spec ce m [] nothing n c k d p →
  Spec ce (when b m) [] nothing n c k d p.
Proof. intros Hm. destruct b; [done|]. apply spec_intro. intros V. apply gsafe_ret. spec_end. Qed.
#[export] Instance spec_if ce {A} (b : bool) (m1 m2 : gen A) outs n1 c1 k1 d1 p1 n2 c2 k2 d2 p2 :
  Spec ce m1 [] outs n1 c1 k1 d1 p1 → Spec ce m2 [] outs n2 c2 k2 d2 p2 →
  Spec ce (if b then m1 else m2) [] outs (n1 `max` n2) (c1 `max` c2) (k1 `max` k2) (d1 `max` d2) (p1 `max` p2).
Proof.
  intros H1 H2. apply spec_intro. intros V. destruct b; (eapply use_spec; [apply _|lia|lia|lia|]);
    intros a new Ho; (split; [lia|split; [lia|]]); exists new; (split_and!; [done|done|cbn [length]; lia]).
Qed.

(** An instance is found by the name of the generator. *)
#[local] Hint Constants Opaque : typeclass_instances.

Section tcg_specs.
Context (ce : nat).
Implicit Types a b r v : tcgv.
#[local] Abbreviation Costs m n := (Spec ce m [] nothing n n 0 0 0).
(** It needs temporaries of its own. *)
#[local] Abbreviation Works m n := (Spec ce m [] nothing n n 0 0 2).

#[export] Instance spec_skip : Costs skip_gen 0.
Proof. prove_spec. Qed.
#[export] Instance spec_mov r a : Costs (tcg_gen_mov_i32 r a) 1.
Proof. unfold tcg_gen_mov_i32. prove_spec. Qed.
#[export] Instance spec_movi r c : Costs (tcg_gen_movi_i32 r c) 1.
Proof. unfold tcg_gen_movi_i32. prove_spec. Qed.
#[export] Instance spec_const c : Spec ce (tcg_const_i32 c) [] a_temp 1 1 0 0 1.
Proof. unfold tcg_const_i32. prove_spec. Qed.
#[export] Instance spec_ld r f : Costs (tcg_gen_ld_i32 r f) 1.
Proof. unfold tcg_gen_ld_i32. prove_spec. Qed.
#[export] Instance spec_helper h (ret : option tcgv) l : Works (gen_helper h ret l) 2.
Proof. unfold gen_helper. prove_spec. Qed.
#[export] Instance spec_with_const op r a c n : (∀ r a b, Costs (op r a b) n) → Works (with_const op r a c) (n + 1).
Proof. intros Hop. unfold with_const. prove_spec. Qed.
#[export] Instance spec_add r a b : Costs (tcg_gen_add_i32 r a b) 1.
Proof. unfold tcg_gen_add_i32. prove_spec. Qed.
#[export] Instance spec_sub r a b : Costs (tcg_gen_sub_i32 r a b) 1.
Proof. unfold tcg_gen_sub_i32. prove_spec. Qed.
#[export] Instance spec_mul r a b : Costs (tcg_gen_mul_i32 r a b) 1.
Proof. unfold tcg_gen_mul_i32. prove_spec. Qed.
#[export] Instance spec_shl r a b : Costs (tcg_gen_shl_i32 r a b) 1.
Proof. unfold tcg_gen_shl_i32. prove_spec. Qed.
#[export] Instance spec_shr r a b : Costs (tcg_gen_shr_i32 r a b) 1.
Proof. unfold tcg_gen_shr_i32. prove_spec. Qed.
#[export] Instance spec_sar r a b : Costs (tcg_gen_sar_i32 r a b) 1.
Proof. unfold tcg_gen_sar_i32. prove_spec. Qed.
#[export] Instance spec_rotl r a b : Costs (tcg_gen_rotl_i32 r a b) 1.
Proof. unfold tcg_gen_rotl_i32. prove_spec. Qed.
#[export] Instance spec_rotr r a b : Costs (tcg_gen_rotr_i32 r a b) 1.
Proof. unfold tcg_gen_rotr_i32. prove_spec. Qed.
#[export] Instance spec_and r a b : Costs (tcg_gen_and_i32 r a b) 1.
Proof. unfold tcg_gen_and_i32. prove_spec. Qed.
#[export] Instance spec_or r a b : Costs (tcg_gen_or_i32 r a b) 1.
Proof. unfold tcg_gen_or_i32. prove_spec. Qed.
#[export] Instance spec_xor r a b : Costs (tcg_gen_xor_i32 r a b) 1.
Proof. unfold tcg_gen_xor_i32. prove_spec. Qed.
#[export] Instance spec_addi r a c : Works (tcg_gen_addi_i32 r a c) 2.
Proof. unfold tcg_gen_addi_i32. prove_spec. Qed.
#[export] Instance spec_subi r a c : Works (tcg_gen_subi_i32 r a c) 2.
Proof. unfold tcg_gen_subi_i32. prove_spec. Qed.
#[export] Instance spec_andi r a c : Works (tcg_gen_andi_i32 r a c) 2.
Proof. unfold tcg_gen_andi_i32. prove_spec. Qed.
#[export] Instance spec_ori r a c : Works (tcg_gen_ori_i32 r a c) 2.
Proof. unfold tcg_gen_ori_i32. prove_spec. Qed.
#[export] Instance spec_xori r a c : Works (tcg_gen_xori_i32 r a c) 2.
Proof. unfold tcg_gen_xori_i32. prove_spec. Qed.
#[export] Instance spec_shli r a c : Works (tcg_gen_shli_i32 r a c) 2.
Proof. unfold tcg_gen_shli_i32. prove_spec. Qed.
#[export] Instance spec_shri r a c : Works (tcg_gen_shri_i32 r a c) 2.
Proof. unfold tcg_gen_shri_i32. prove_spec. Qed.
#[export] Instance spec_sari r a c : Works (tcg_gen_sari_i32 r a c) 2.
Proof. unfold tcg_gen_sari_i32. prove_spec. Qed.
#[export] Instance spec_rotli r a c : Works (tcg_gen_rotli_i32 r a c) 2.
Proof. unfold tcg_gen_rotli_i32. prove_spec. Qed.
#[export] Instance spec_rotri r a c : Works (tcg_gen_rotri_i32 r a c) 2.
Proof. unfold tcg_gen_rotri_i32. prove_spec. Qed.
#[export] Instance spec_ext8s r a : Costs (tcg_gen_ext8s_i32 r a) 1.
Proof. unfold tcg_gen_ext8s_i32. prove_spec. Qed.
#[export] Instance spec_ext16s r a : Costs (tcg_gen_ext16s_i32 r a) 1.
Proof. unfold tcg_gen_ext16s_i32. prove_spec. Qed.
#[export] Instance spec_ext8u r a : Costs (tcg_gen_ext8u_i32 r a) 1.
Proof. unfold tcg_gen_ext8u_i32. prove_spec. Qed.
#[export] Instance spec_ext16u r a : Costs (tcg_gen_ext16u_i32 r a) 1.
Proof. unfold tcg_gen_ext16u_i32. prove_spec. Qed.
#[export] Instance spec_bswap16 r a : Costs (tcg_gen_bswap16_i32 r a) 1.
Proof. unfold tcg_gen_bswap16_i32. prove_spec. Qed.
#[export] Instance spec_bswap32 r a : Costs (tcg_gen_bswap32_i32 r a) 1.
Proof. unfold tcg_gen_bswap32_i32. prove_spec. Qed.
#[export] Instance spec_not r a : Costs (tcg_gen_not_i32 r a) 1.
Proof. unfold tcg_gen_not_i32. prove_spec. Qed.
#[export] Instance spec_andc r a b : Works (tcg_gen_andc_i32 r a b) 2.
Proof. unfold tcg_gen_andc_i32. prove_spec. Qed.

#[export] Instance spec_mov64 r a : Costs (tcg_gen_mov_i64 r a) 1.
Proof. unfold tcg_gen_mov_i64. prove_spec. Qed.
#[export] Instance spec_const64 c : Spec ce (tcg_const_i64 c) [] a_temp64 1 1 0 0 1.
Proof. unfold tcg_const_i64, tcg_gen_movi_i64. prove_spec. Qed.
#[export] Instance spec_add64 r a b : Costs (tcg_gen_add_i64 r a b) 1.
Proof. unfold tcg_gen_add_i64. prove_spec. Qed.
#[export] Instance spec_sub64 r a b : Costs (tcg_gen_sub_i64 r a b) 1.
Proof. unfold tcg_gen_sub_i64. prove_spec. Qed.
#[export] Instance spec_mul64 r a b : Costs (tcg_gen_mul_i64 r a b) 1.
Proof. unfold tcg_gen_mul_i64. prove_spec. Qed.
#[export] Instance spec_or64 r a b : Costs (tcg_gen_or_i64 r a b) 1.
Proof. unfold tcg_gen_or_i64. prove_spec. Qed.
#[export] Instance spec_const_op64 o r a c : Works (with_const64 o r a c) 2.
Proof. unfold with_const64. prove_spec. Qed.
#[export] Instance spec_addi64 r a c : Works (tcg_gen_addi_i64 r a c) 2.
Proof. apply spec_const_op64. Qed.
#[export] Instance spec_shli64 r a c : Works (tcg_gen_shli_i64 r a c) 2.
Proof. apply spec_const_op64. Qed.
#[export] Instance spec_shri64 r a c : Works (tcg_gen_shri_i64 r a c) 2.
Proof. apply spec_const_op64. Qed.
#[export] Instance spec_extu r a : Costs (tcg_gen_extu_i32_i64 r a) 1.
Proof. unfold tcg_gen_extu_i32_i64. prove_spec. Qed.
#[export] Instance spec_ext r a : Costs (tcg_gen_ext_i32_i64 r a) 1.
Proof. unfold tcg_gen_ext_i32_i64. prove_spec. Qed.
#[export] Instance spec_trunc r a : Costs (tcg_gen_trunc_i64_i32 r a) 1.
Proof. apply spec_mov. Qed.
#[export] Instance spec_concat r a b : Spec ce (tcg_gen_concat_i32_i64 r a b) [] nothing 5 5 0 0 3.
Proof. unfold tcg_gen_concat_i32_i64. prove_spec. Qed.

#[export] Instance spec_st a f : Costs (tcg_gen_st_i32 a f) 1.
Proof. unfold tcg_gen_st_i32. prove_spec. Qed.
#[export] Instance spec_goto_op n : Costs (tcg_gen_goto_tb n) 1.
Proof. unfold tcg_gen_goto_tb. prove_spec. Qed.
#[export] Instance spec_exit_tb (x : Z) : Costs (tcg_gen_exit_tb x) 1.
Proof. unfold tcg_gen_exit_tb. prove_spec. Qed.
End tcg_specs.
