(* ===== verification/TransArmSafe.v ===== *)
(** * The generators of the ARM translator cannot fail

    One specification per generator of [TransArm]: it frees each temporary it
    takes once, leaves none of its own in use, and stays within its room. *)
From S2P Require Import Prelude SoftTlb ArmCpu ArmMode ArmMmu ArmAlu PhysMem SoftMmu GuestOps Tcg TcgFacts TransArm TcgSafe.

#[export] Instance reg_at_reg k x : IsReg (reg_at k x).
Proof.
  unfold IsReg, reg_at. change 0xf with (Z.ones 4). rewrite Z.land_ones by lia.
  pose proof (Z.mod_pos_bound (x >> k) (2 ^ 4) ltac:(lia)). lia.
Qed.
#[export] Instance reg_14 : IsReg 14.
Proof. unfold IsReg. lia. Qed.
#[export] Instance reg_15 : IsReg 15.
Proof. unfold IsReg. lia. Qed.

#[local] Hint Constants Opaque : typeclass_instances.

Section specs.
Context (ce : nat).
Implicit Types a b r : tcgv.
Implicit Types t u : nat.
(** It needs room for [n] operations and [p] temporaries of its own. *)
#[local] Abbreviation Costs m n p := (Spec ce m [] nothing n n 0 0 p).
(** It frees a temporary; it makes one. *)
#[local] Abbreviation Eats m t n p := (Spec ce m [W32 t] nothing n n 0 0 p).
#[local] Abbreviation Makes m n p := (Spec ce m [] a_temp n n 0 0 p).

(** ** Registers and fields *)
#[export] Instance spec_load_field f : Makes (load_cpu_field f) 1 1.
Proof. unfold load_cpu_field. prove_spec. Qed.
#[export] Instance spec_store_field t f : Eats (store_cpu_field (Tmp t) f) t 1 0.
Proof. unfold store_cpu_field. prove_spec. Qed.
#[export] Instance spec_cpu_R n : IsReg n → Spec ce (cpu_R n) [] (a_register n) 0 0 0 0 0.
Proof. intros Hr. unfold cpu_R. rewrite (proj2 (Nat.ltb_lt n 16) Hr). prove_spec. Qed.
#[export] Instance spec_load_reg_var a n : IsReg n → Costs (load_reg_var a n) 1 0.
Proof. intros Hr. unfold load_reg_var. prove_spec. Qed.
#[export] Instance spec_load_reg n : IsReg n → Makes (load_reg n) 1 1.
Proof. intros Hr. unfold load_reg. prove_spec. Qed.
#[export] Instance spec_store_reg n t : IsReg n → Eats (store_reg n (Tmp t)) t 3 2.
Proof. intros Hr. unfold store_reg. prove_spec. Qed.
#[export] Instance spec_uxtb a : Costs (gen_uxtb a) 1 0.
Proof. unfold gen_uxtb. prove_spec. Qed.
#[export] Instance spec_uxth a : Costs (gen_uxth a) 1 0.
Proof. unfold gen_uxth. prove_spec. Qed.
#[export] Instance spec_sxtb a : Costs (gen_sxtb a) 1 0.
Proof. unfold gen_sxtb. prove_spec. Qed.
#[export] Instance spec_sxth a : Costs (gen_sxth a) 1 0.
Proof. unfold gen_sxth. prove_spec. Qed.
#[export] Instance spec_sxtb16 a : Costs (gen_sxtb16 a) 2 2.
Proof. unfold gen_sxtb16. prove_spec. Qed.
#[export] Instance spec_uxtb16 a : Costs (gen_uxtb16 a) 2 2.
Proof. unfold gen_uxtb16. prove_spec. Qed.
#[export] Instance spec_set_cpsr a m : Costs (gen_set_cpsr a m) 3 3.
Proof. unfold gen_set_cpsr. prove_spec. Qed.
#[export] Instance spec_exception e : Costs (gen_exception e) 3 3.
Proof. unfold gen_exception. prove_spec. Qed.

(** ** Arithmetic sequences *)
#[export] Instance spec_smul_dual t u : Costs (gen_smul_dual (Tmp t) (Tmp u)) 9 3.
Proof. unfold gen_smul_dual. prove_spec. Qed.
#[export] Instance spec_rev16 a : Costs (gen_rev16 a) 9 3.
Proof. unfold gen_rev16. prove_spec. Qed.
#[export] Instance spec_revsh a : Costs (gen_revsh a) 3 0.
Proof. unfold gen_revsh. prove_spec. Qed.
#[export] Instance spec_ubfx a s m : Costs (gen_ubfx a s m) 4 2.
Proof. unfold gen_ubfx. prove_spec. Qed.
#[export] Instance spec_sbfx a s w : Costs (gen_sbfx a s w) 8 2.
Proof. unfold gen_sbfx. prove_spec. Qed.
#[export] Instance spec_bfi a b r s m : Costs (gen_bfi a b r s m) 7 2.
Proof. unfold gen_bfi. prove_spec. Qed.
#[export] Instance spec_addq_msw t u : Spec ce (gen_addq_msw (Tmp t) (Tmp u)) [W64 t; W32 u] a_temp64 4 4 0 0 2.
Proof. unfold gen_addq_msw. prove_spec. Qed.
#[export] Instance spec_subq_msw t u : Spec ce (gen_subq_msw (Tmp t) (Tmp u)) [W64 t; W32 u] a_temp64 4 4 0 0 2.
Proof. unfold gen_subq_msw. prove_spec. Qed.
#[export] Instance spec_mulu t u : Spec ce (gen_mulu_i64_i32 (Tmp t) (Tmp u)) [W32 t; W32 u] a_temp64 3 3 0 0 2.
Proof. unfold gen_mulu_i64_i32, gen_mul_i64_i32. prove_spec. Qed.
#[export] Instance spec_muls t u : Spec ce (gen_muls_i64_i32 (Tmp t) (Tmp u)) [W32 t; W32 u] a_temp64 3 3 0 0 2.
Proof. unfold gen_muls_i64_i32, gen_mul_i64_i32. prove_spec. Qed.
#[export] Instance spec_swap_half a : Costs (gen_swap_half a) 5 3.
Proof. unfold gen_swap_half. prove_spec. Qed.
#[export] Instance spec_add16 a u : Eats (gen_add16 a (Tmp u)) u 9 3.
Proof. unfold gen_add16. prove_spec. Qed.
#[export] Instance spec_set_CF a : Costs (gen_set_CF a) 1 0.
Proof. unfold gen_set_CF. prove_spec. Qed.
#[export] Instance spec_set_CF_bit31 a : Costs (gen_set_CF_bit31 a) 3 3.
Proof. unfold gen_set_CF_bit31. prove_spec. Qed.
#[export] Instance spec_logic_CC a : Costs (gen_logic_CC a) 2 0.
Proof. unfold gen_logic_CC. prove_spec. Qed.
#[export] Instance spec_add_carry r a b : Costs (gen_add_carry r a b) 3 1.
Proof. unfold gen_add_carry. prove_spec. Qed.
#[export] Instance spec_sub_carry r a b : Costs (gen_sub_carry r a b) 5 3.
Proof. unfold gen_sub_carry. prove_spec. Qed.

(** ** Shifts *)
#[export] Instance spec_shifter_out a n : Costs (shifter_out_im a n) 5 3.
Proof. unfold shifter_out_im. prove_spec. Qed.
#[export] Instance spec_shift_im a op n f : Costs (gen_arm_shift_im a op n f) 11 4.
Proof. unfold gen_arm_shift_im. prove_spec. all: destruct op as [|[[]|[]|]|]; steps; spec_end. Qed.
#[export] Instance spec_shift_reg a op t f : Eats (gen_arm_shift_reg a op (Tmp t) f) t 3 2.
Proof.
  unfold gen_arm_shift_reg. apply spec_intro. intros V. cbn [app].
  destruct f, op as [|[[]|[]|]|]; steps; spec_end.
Qed.
#[export] Instance spec_pas_op h op n : (∀ i, Costs (h i) n 2) → Costs (pas_op h op) n 2.
Proof. intros Hh. apply spec_intro. intros V. destruct op as [|[[[]|[]|]|[[]|[]|]|]|]; unfold pas_op; steps; spec_end. Qed.
#[export] Instance spec_parallel op1 op2 a b : Costs (gen_arm_parallel_addsub op1 op2 a b) 3 3.
Proof.
  unfold gen_arm_parallel_addsub. apply spec_intro. intros V. cbn [app].
  destruct op1 as [|[[[]|[]|]|[[]|[]|]|]|]; steps; spec_end.
Qed.

(** ** Conditions: what they emit pays for their label *)
Ltac emits :=
  unfold load_cpu_field, tcg_gen_ld_i32, tcg_gen_brcondi_i32, tcg_const_i32, tcg_gen_movi_i32, tcg_gen_brcond_i32,
    gen_set_label.
Lemma gsafe_branch_on f c l (Q : tcgv → _ → _ → _ → _ → Prop) V N K P : (l < TCG_MAX_LABELS)%nat → (3 ≤ N)%nat → (2 ≤ P)%nat →
  (∀ t, Q (Tmp t) (W32 t :: V) (N - 3)%nat (K + 3)%nat (P - 1)%nat) → gsafe ce (branch_on f c l) Q V N K P.
Proof. intros Hl HN HP HQ. unfold branch_on. emits. steps. budget (HQ t). Qed.
Lemma gsafe_branch_on_nv c l (Q : tcgv → _ → _ → _ → _ → Prop) V N K P : (l < TCG_MAX_LABELS)%nat → (5 ≤ N)%nat → (2 ≤ P)%nat →
  (∀ t, Q (Tmp t) (W32 t :: V) (N - 5)%nat (K + 4)%nat (P - 1)%nat) → gsafe ce (branch_on_nv c l) Q V N K P.
Proof. intros Hl HN HP HQ. unfold branch_on_nv. emits. steps. budget (HQ t). Qed.
Lemma gsafe_test_cc cc l (Q : unit → _ → _ → _ → _ → Prop) V N K P : 0 ≤ cc < 14 → (l < TCG_MAX_LABELS)%nat →
  (4 ≤ K)%nat → (13 ≤ N)%nat → (2 ≤ P)%nat → Q tt V (N - 9)%nat (K + 3)%nat P → gsafe ce (gen_test_cc cc l) Q V N K P.
Proof.
  intros Hcc Hl HK HN HP HQ.
  eapply (gsafe_weaken _ _ (λ _ V' N' K' P', V' = V ∧ (N - 9 ≤ N')%nat ∧ (K + 3 ≤ K')%nat ∧ (P ≤ P')%nat)).
  2:{ intros [] V' N' K' P' (-> & ? & ? & ?). by exists (N - 9)%nat, (K + 3)%nat, P. }
  assert (∃ n, cc = Z.of_nat n ∧ (n < 14)%nat) as (n & -> & Hn) by (exists (Z.to_nat cc); lia).
  destruct n as [|[|[|[|[|[|[|[|[|[|[|[|[|[|n]]]]]]]]]]]]]]; [..|lia]; clear Hcc Hn; unfold gen_test_cc;
    lazymatch goal with |- context [Z.of_nat ?k] => let x := eval vm_compute in (Z.of_nat k) in change (Z.of_nat k) with x end;
    repeat first [apply gsafe_branch_on; [done|lia|lia|intros ?t]|apply gsafe_branch_on_nv; [done|lia|lia|intros ?t]|unfold gen_set_label; step; results];
    (split_and!; [done|lia..]).
Qed.

(** ** Jumps and memory *)
#[export] Instance spec_bx t : Eats (gen_bx (Tmp t)) t 5 2.
Proof. unfold gen_bx. prove_spec. Qed.
#[export] Instance spec_bx_im x : Costs (gen_bx_im x) 3 1.
Proof. unfold gen_bx_im. prove_spec. Qed.
#[export] Instance spec_set_pc_im x : Costs (gen_set_pc_im x) 1 0.
Proof. unfold gen_set_pc_im. prove_spec. Qed.
#[export] Instance spec_lookup_tb : Costs gen_lookup_tb 1 0.
Proof. unfold gen_lookup_tb. prove_spec. Qed.
#[export] Instance spec_smc : Costs gen_smc 3 0.
Proof. unfold gen_smc. prove_spec. Qed.
#[export] Instance spec_goto n dest : Costs (gen_goto_tb n dest) 3 0.
Proof. unfold gen_goto_tb. prove_spec. Qed.
#[export] Instance spec_jmp dest : Costs (gen_jmp dest) 3 0.
Proof. unfold gen_jmp. prove_spec. Qed.

#[export] Instance spec_ld_op k sign r a i : IsIndex i → IsSize k → Costs (tcg_gen_qemu_ld k sign r a i) 1 0.
Proof. intros Hi Hk. unfold tcg_gen_qemu_ld. apply spec_intro. intros V. apply gsafe_emit; [done|lia|]. spec_end. Qed.
#[export] Instance spec_st_op k a b i : IsIndex i → IsSize k → Costs (tcg_gen_qemu_st k a b i) 1 0.
Proof. intros Hi Hk. unfold tcg_gen_qemu_st. apply spec_intro. intros V. apply gsafe_emit; [done|lia|]. spec_end. Qed.
#[export] Instance spec_gen_ld k sign a i : IsIndex i → IsSize k → Makes (gen_ld k sign a i) 1 1.
Proof. intros Hi Hk. unfold gen_ld. prove_spec. Qed.
#[export] Instance spec_gen_st k t a i : IsIndex i → IsSize k → Eats (gen_st k (Tmp t) a i) t 1 0.
Proof. intros Hi Hk. unfold gen_st. prove_spec. Qed.
#[export] Instance spec_ld8s a i : IsIndex i → Makes (gen_ld8s a i) 1 1.
Proof. intros Hi. apply spec_gen_ld; apply _. Qed.
#[export] Instance spec_ld8u a i : IsIndex i → Makes (gen_ld8u a i) 1 1.
Proof. intros Hi. apply spec_gen_ld; apply _. Qed.
#[export] Instance spec_ld16s a i : IsIndex i → Makes (gen_ld16s a i) 1 1.
Proof. intros Hi. apply spec_gen_ld; apply _. Qed.
#[export] Instance spec_ld16u a i : IsIndex i → Makes (gen_ld16u a i) 1 1.
Proof. intros Hi. apply spec_gen_ld; apply _. Qed.
#[export] Instance spec_ld32 a i : IsIndex i → Makes (gen_ld32 a i) 1 1.
Proof. intros Hi. apply spec_gen_ld; apply _. Qed.
#[export] Instance spec_st8 t a i : IsIndex i → Eats (gen_st8 (Tmp t) a i) t 1 0.
Proof. intros Hi. apply spec_gen_st; apply _. Qed.
#[export] Instance spec_st16 t a i : IsIndex i → Eats (gen_st16 (Tmp t) a i) t 1 0.
Proof. intros Hi. apply spec_gen_st; apply _. Qed.
#[export] Instance spec_st32 t a i : IsIndex i → Eats (gen_st32 (Tmp t) a i) t 1 0.
Proof. intros Hi. apply spec_gen_st; apply _. Qed.

#[export] Instance spec_data_offset insn a : Costs (gen_add_data_offset insn a) 13 5.
Proof. unfold gen_add_data_offset. prove_spec. Qed.
#[export] Instance spec_datah_offset insn x a : Costs (gen_add_datah_offset insn x a) 4 2.
Proof. unfold gen_add_datah_offset. prove_spec. Qed.
#[export] Instance spec_mulxy a b x y : Costs (gen_mulxy a b x y) 5 2.
Proof. unfold gen_mulxy. prove_spec. Qed.

(** ** Exceptions, hints and status registers *)
#[export] Instance spec_condexec : Costs gen_set_condexec ce 1.
Proof.
  unfold gen_set_condexec. apply spec_intro. intros V. step. step. step. step. unfold when, truth.
  destruct Hm as [-> | Hce]; [cbn; step; spec_end|].
  destruct (negb _); steps; spec_end.
Qed.
#[export] Instance spec_exception_insn o e : Costs (gen_exception_insn o e) (ce + 4) 3.
Proof. unfold gen_exception_insn. prove_spec. Qed.
#[export] Instance spec_nop_hint x : Costs (gen_nop_hint x) 2 0.
Proof. unfold gen_nop_hint. apply spec_intro. intros V. destruct x as [|[[]|[]|]|]; steps; spec_end. Qed.
(** A refused access leaks the temporary with the value. *)
Definition refused (t : nat) (no : bool) (new : list slot) : Prop := new = if no then [W32 t] else [].
#[export] Instance spec_set_psr m s t : Spec ce (gen_set_psr m s (Tmp t)) [W32 t] (refused t) 8 8 0 0 3.
Proof.
  unfold gen_set_psr. apply spec_intro. intros V. cbn [app]. steps;
    (split; [lia|split; [lia|]]); first [exists []; split_and!; [done|done|cbn [length]; lia]|exists [W32 t]; split_and!; [done|done|cbn [length]; lia]].
Qed.
#[export] Instance spec_set_psr_im m s x : Spec ce (gen_set_psr_im m s x) [] (λ (no : bool) new, ∃ t, refused t no new) 9 9 0 0 4 | 1.
Proof.
  unfold gen_set_psr_im. apply spec_intro. intros V. cbn [app]. steps.
  split; [lia|split; [lia|]]. exists new. split; [by exists t|split; [done|cbn [length]; lia]].
Qed.
#[export] Instance spec_set_cpsr_im m x : Spec ce (gen_set_psr_im m false x) [] nothing 9 9 0 0 4 | 0.
Proof. unfold gen_set_psr_im, gen_set_psr. cbn [andb]. prove_spec. Qed.
#[export] Instance spec_exception_return t : Eats (gen_exception_return (Tmp t)) t 7 3.
Proof. unfold gen_exception_return. prove_spec. Qed.
#[export] Instance spec_rfe t u : Spec ce (gen_rfe (Tmp t) (Tmp u)) [W32 t; W32 u] nothing 6 6 0 0 3.
Proof. unfold gen_rfe. prove_spec. Qed.

(** ** Pairs of registers and exclusive accesses *)
#[export] Instance spec_storeq_reg n n' a : IsReg n → IsReg n' → Costs (gen_storeq_reg n n' a) 10 3.
Proof. intros Hn Hn'. unfold gen_storeq_reg. prove_spec. Qed.
#[export] Instance spec_addq_lo a n : IsReg n → Costs (gen_addq_lo a n) 3 2.
Proof. intros Hn. unfold gen_addq_lo. prove_spec. Qed.
#[export] Instance spec_addq a n n' : IsReg n → IsReg n' → Costs (gen_addq a n n') 8 6.
Proof. intros Hn Hn'. unfold gen_addq. prove_spec. Qed.
#[export] Instance spec_logicq_cc a : Costs (gen_logicq_cc a) 4 3.
Proof. unfold gen_logicq_cc. prove_spec. Qed.
#[export] Instance spec_clrex : Costs gen_clrex 1 0.
Proof. unfold gen_clrex. prove_spec. Qed.

Class IsSizeField (x : Z) : Prop := is_size_field : 0 ≤ x < 4.
#[export] Instance spec_ld_sized x a i : IsSizeField x → IsIndex i → Makes (gen_ld_sized x a i) 1 1.
Proof.
  intros Hx Hi. unfold IsSizeField in Hx. assert (x = 0 ∨ x = 1 ∨ x = 2 ∨ x = 3) as [->|[->|[->| ->]]] by lia;
    unfold gen_ld_sized; apply _.
Qed.
#[export] Instance spec_st_sized x t a i : IsSizeField x → IsIndex i → Eats (gen_st_sized x (Tmp t) a i) t 1 0.
Proof.
  intros Hx Hi. unfold IsSizeField in Hx. assert (x = 0 ∨ x = 1 ∨ x = 2 ∨ x = 3) as [->|[->|[->| ->]]] by lia;
    unfold gen_st_sized; apply _.
Qed.
#[export] Instance spec_user_index : Spec ce user_index [] an_index 0 0 0 0 0.
Proof. unfold user_index. apply spec_intro. intros V. step. split; [lia|split; [lia|]]. exists []. split; [split; [apply _|done]|split; [done|cbn [length]; lia]]. Qed.
#[export] Instance spec_load_exclusive rt rt2 a x : IsReg rt → (x = 3 → IsReg rt2) → IsSizeField x →
  Costs (gen_load_exclusive rt rt2 a x) 13 3.
Proof.
  intros Hrt Hrt2 Hx. unfold gen_load_exclusive. apply spec_intro. intros V. cbn [app].
  destruct (Z.eqb_spec x 3) as [E|E]; [specialize (Hrt2 E)|]; unfold when; steps; spec_end.
Qed.
(** The two labels are paid for by the branches to them and what follows. *)
#[export] Instance spec_store_exclusive rd rt rt2 a x : IsReg rd → IsReg rt → (x = 3 → IsReg rt2) → IsSizeField x →
  Spec ce (gen_store_exclusive rd rt rt2 a x) [] nothing 19 19 8 0 3.
Proof.
  intros Hrd Hrt Hrt2 Hx. unfold gen_store_exclusive, tcg_gen_brcond_i32, tcg_gen_br, gen_set_label, tcg_gen_movi_i32.
  apply spec_intro. intros V. cbn [app].
  destruct (Z.eqb_spec x 3) as [E|E]; [specialize (Hrt2 E)|]; unfold when; steps; spec_end.
Qed.
End specs.
