(* ===== verification/DisasArmSafe.v ===== *)
(** * The translation of ARM code cannot fail

    Every instruction but the encodings named by [decodable], which the
    translator mishandles, and those of the decoders that are not modelled, is
    translated without a fault: no temporary is freed twice, the table of
    temporaries does not run out, no label is missing, no shift is undefined and
    the buffer of operations does not overflow. *)
From S2P Require Import Prelude SoftTlb ArmCpu ArmMode ArmModeFacts ArmMmu ArmAlu PhysMem SoftMmu GuestOps Tcg TcgFacts TransArm TcgSafe.
From S2P Require Import TransArmSafe DisasArm DisasArmFacts.

#[local] Hint Constants Opaque : typeclass_instances.

Section specs.
Context (env : CPUARMState) (ldl_code : Z → res Z).
Context (disas_neon_data_insn disas_neon_ls_insn disas_iwmmxt_insn disas_coproc_insn : Z → gen bool).
Context (disas_thumb_insn : gen unit).
(** [m] needs room for [n] operations and [p] temporaries; [Tries m n p] may end
    in [illegal_op]. *)
#[local] Abbreviation Costs m n p := (Spec 0 m [] nothing n n 0 0 p).
#[local] Abbreviation Tries m n p := (Spec 0 m [] nothing n n 4 0 p).
Implicit Types t u : nat.

#[export] Instance spec_arch b : Spec 0 (arch b) [] nothing 9 0 4 0 8.
Proof. unfold arch. prove_spec. Qed.
#[export] Instance spec_not_user : Spec 0 not_user [] nothing 9 0 4 0 8.
Proof. unfold not_user. prove_spec. Qed.
#[export] Instance spec_illegal_if m n p : Spec 0 m [] (λ (no : bool) new, ∃ t, refused t no new) n n 0 0 p →
  Tries (illegal_if m) (9 + n) (p + 8).
Proof.
  intros Hm. unfold illegal_if. apply spec_intro. intros V. cbn [app]. step. step. destruct Ho as [t ->].
  destruct a; steps. spec_end.
Qed.
#[export] Instance spec_illegal_if_from m t n p : Spec 0 m [W32 t] (refused t) n n 0 0 p →
  Spec 0 (illegal_if m) [W32 t] nothing (9 + n) (9 + n) 4 0 (p + 8).
Proof.
  intros Hm. unfold illegal_if. apply spec_intro. intros V. cbn [app]. step. step. unfold refused in Ho. subst new.
  destruct a; steps. spec_end.
Qed.
#[export] Instance spec_store_reg_bx r t : IsReg r → Spec 0 (store_reg_bx env r (Tmp t)) [W32 t] nothing 5 5 0 0 8.
Proof. intros Hr. unfold store_reg_bx. prove_spec. Qed.
#[export] Instance spec_store_reg_from_load r t : IsReg r → Spec 0 (store_reg_from_load env r (Tmp t)) [W32 t] nothing 5 5 0 0 8.
Proof. intros Hr. unfold store_reg_from_load. prove_spec. Qed.
#[export] Instance spec_msr_mask f s : Spec 0 (msr_mask env f s) [] nothing 0 0 0 0 8.
Proof. unfold msr_mask. prove_spec. Qed.

(** ** Unconditional instructions *)
Lemma two_bits x : 0 ≤ x .& 3 < 4.
Proof. change 3 with (Z.ones 2). rewrite Z.land_ones by lia. by apply Z.mod_pos_bound. Qed.
#[export] Instance spec_offset_of a b c d x : Spec 0 (offset_of [a; b; c; d] (x .& 3)) [] nothing 0 0 0 0 8.
Proof.
  pose proof (two_bits x) as Hx. unfold offset_of.
  assert (x .& 3 = 0 ∨ x .& 3 = 1 ∨ x .& 3 = 2 ∨ x .& 3 = 3) as [->|[->|[->| ->]]] by lia;
    apply spec_intro; intros V; [apply (gsafe_ret 0 a)|apply (gsafe_ret 0 b)|apply (gsafe_ret 0 c)|apply (gsafe_ret 0 d)]; spec_end.
Qed.
#[export] Instance spec_srs insn : Tries (disas_srs env insn) 19 24.
Proof. unfold disas_srs. prove_spec. Qed.
#[export] Instance spec_rfe_insn insn : Tries (disas_rfe env insn) 18 24.
Proof. unfold disas_rfe. prove_spec. Qed.
#[export] Instance spec_blx_imm insn : Costs (disas_blx_imm insn) 7 8.
Proof. unfold disas_blx_imm. prove_spec. Qed.
#[export] Instance spec_cps insn : Costs (disas_cps insn) 9 8.
Proof.
  unfold disas_cps. apply spec_intro. intros V. step. step; results. destruct (dc_user d); [step; spec_end|].
  destruct (has_bit 19 insn), (has_bit 17 insn), (has_bit 18 insn); unfold when, truth;
    (destruct (negb _); [|step; spec_end]); steps; spec_end.
Qed.
#[export] Instance spec_barrier insn : Tries (disas_barrier env insn) 9 8.
Proof.
  unfold disas_barrier. apply spec_intro. intros V. destruct (_ .& 15) as [|[[[]|[]|]|[[]|[]|]|]|]; steps; spec_end.
Qed.
(** The encodings that decoders which are not modelled take. *)
Definition uncond_known (insn : Z) : bool :=
  negb ((insn >> 25) .& 7 =? 1) && negb (is_insn 0x0f100000 0x04000000 insn) &&
  negb (is_insn 0x0e000f00 0x0c000100 insn) && negb (is_insn 0x0f000010 0x0e000010 insn).
Lemma spec_uncond insn : uncond_known insn = true →
  Tries (disas_uncond env disas_neon_data_insn disas_neon_ls_insn disas_iwmmxt_insn disas_coproc_insn insn) 28 24.
Proof.
  intros [[[E1%negb_true_iff E2%negb_true_iff]%andb_prop E3%negb_true_iff]%andb_prop E4%negb_true_iff]%andb_prop.
  unfold disas_uncond. rewrite E1, E2, E3, E4. prove_spec.
Qed.

(** ** Moves of wide immediates and miscellaneous instructions *)
#[export] Instance spec_mov16 insn : Tries (disas_mov16 env insn) 18 24.
Proof. unfold disas_mov16. prove_spec. Qed.
#[export] Instance spec_move_psr insn op1 rm : IsReg rm → Tries (disas_move_psr env insn op1 rm) 18 24.
Proof. intros Hrm. unfold disas_move_psr. prove_spec. Qed.
#[export] Instance spec_saturating insn op1 rm : IsReg rm → Tries (disas_saturating env insn op1 rm) 12 8.
Proof. intros Hrm. unfold disas_saturating. prove_spec. Qed.
#[export] Instance spec_add_setq t rn : IsReg rn → Costs (gen_add_setq (Tmp t) rn) 3 8.
Proof. intros Hrn. unfold gen_add_setq. prove_spec. Qed.
#[export] Instance spec_signed_mul insn op1 sh rm : IsReg rm → Tries (disas_signed_mul env insn op1 sh rm) 30 24.
Proof. intros Hrm. unfold disas_signed_mul. prove_spec. Qed.
#[export] Instance spec_misc insn : Tries (disas_misc env insn) 30 24.
Proof.
  unfold disas_misc. apply spec_intro. intros V. cbn [app]. cbv zeta.
  destruct ((insn >> 4) .& 15) as [|[[[[]|[]|]|[[]|[]|]|]|[[[]|[]|]|[[]|[]|]|]|]|]; steps; spec_end.
Qed.

(** ** Data processing *)
#[export] Instance spec_operand2 insn f : Spec 0 (disas_operand2 insn f) [] a_temp 12 12 0 0 8.
Proof. unfold disas_operand2. prove_spec. Qed.
Lemma spec_logic_op op f rd t t2 n p : IsReg rd → (∀ a b c, Costs (op a b c) n p) →
  Spec 0 (logic_op env op f rd (Tmp t) (Tmp t2)) [W32 t] nothing (n + 7) (n + 7) 0 0 (p + 8).
Proof. intros Hrd Hop. unfold logic_op. prove_spec. Qed.
Lemma spec_arith_op h op f rd t a b n p : IsReg rd → (∀ a b c, Costs (op a b c) n p) →
  Spec 0 (arith_op env h op f rd (Tmp t) a b) [W32 t] nothing (n + 7) (n + 7) 0 0 (p + 8).
Proof. intros Hrd Hop. unfold arith_op. prove_spec. Qed.
#[local] Existing Instances spec_logic_op spec_arith_op.
#[export] Instance spec_binary_op op f lf rd t t2 : IsReg rd →
  Spec 0 (disas_binary_op env op f lf rd (Tmp t) (Tmp t2)) [W32 t] nothing 18 18 4 0 24.
Proof.
  intros Hrd. unfold disas_binary_op. apply spec_intro. intros V. cbn [app].
  destruct op as [|[[[[]|[]|]|[[]|[]|]|]|[[[]|[]|]|[[]|[]|]|]|]|]; steps; spec_end.
Qed.
#[export] Instance spec_mov_op f rd t : IsReg rd → Spec 0 (disas_mov_op env f rd (Tmp t)) [W32 t] nothing 16 16 4 0 8.
Proof. intros Hrd. unfold disas_mov_op. prove_spec. Qed.
#[export] Instance spec_mvn_op f rd t : IsReg rd → Spec 0 (disas_mvn_op env f rd (Tmp t)) [W32 t] nothing 8 8 0 0 8.
Proof. intros Hrd. unfold disas_mvn_op. prove_spec. Qed.
Lemma gsafe_moves {A} (Q : A → _ → _ → _ → _ → Prop) V N K P (op : Z) (m1 m2 m3 : gen A) :
  gsafe 0 m1 Q V N K P → gsafe 0 m2 Q V N K P → gsafe 0 m3 Q V N K P →
  gsafe 0 (match op with 0x0d => m1 | 0x0f => m2 | _ => m3 end) Q V N K P.
Proof. intros H1 H2 H3. destruct op as [|[[[[]|[]|]|[[]|[]|]|]|[[[]|[]|]|[[]|[]|]|]|]|]; done. Qed.
#[export] Instance spec_data_processing insn : Tries (disas_data_processing env insn) 32 32.
Proof.
  unfold disas_data_processing. apply spec_intro. intros V. cbn [app]. cbv zeta. step. step; results.
  apply gsafe_moves; steps; spec_end.
Qed.

(** ** Multiplies, exclusive accesses, swaps *)
#[export] Instance spec_multiply insn : Tries (disas_multiply env insn) 30 24.
Proof.
  unfold disas_multiply. apply spec_intro. intros V. cbn [app]. cbv zeta.
  destruct ((insn >> 20) .& 15) as [|[[[]|[]|]|[[]|[]|]|]|]; steps; spec_end.
Qed.
#[export] Instance spec_swap insn : Costs (disas_swap insn) 7 8.
Proof. unfold disas_swap. prove_spec. Qed.
(** Pairs of registers from 15 on do not exist. *)
Definition pair_known (insn : Z) : bool :=
  negb ((insn >> 21) .& 3 =? 1) || negb ((if has_bit 20 insn then reg_at 12 insn else reg_at 0 insn) =? 15)%nat.
Lemma next_reg k insn : (reg_at k insn =? 15)%nat = false → IsReg (reg_at k insn + 1).
Proof. intros H%Nat.eqb_neq. pose proof (reg_at_reg k insn) as Hr. unfold IsReg in *. lia. Qed.
#[export] Instance size_field_0 : IsSizeField 0.
Proof. unfold IsSizeField. lia. Qed.
#[export] Instance size_field_1 : IsSizeField 1.
Proof. unfold IsSizeField. lia. Qed.
#[export] Instance size_field_2 : IsSizeField 2.
Proof. unfold IsSizeField. lia. Qed.
#[export] Instance size_field_3 : IsSizeField 3.
Proof. unfold IsSizeField. lia. Qed.
Lemma two_bits_cases x : x .& 3 = 0 ∨ x .& 3 = 1 ∨ x .& 3 = 2 ∨ x .& 3 = 3.
Proof. pose proof (two_bits x). lia. Qed.
Lemma spec_exclusive insn : pair_known insn = true → Spec 0 (disas_exclusive env insn) [] nothing 20 20 8 0 8.
Proof.
  intros Hp. unfold pair_known in Hp. unfold disas_exclusive. apply spec_intro. intros V. cbn [app]. cbv zeta.
  destruct (has_bit 20 insn);
    (destruct (two_bits_cases (insn >> 21)) as [E|[E|[E|E]]]; rewrite E in Hp |- *; cbn [Z.eqb Pos.eqb negb orb] in Hp;
     [..|]).
  all: try (apply negb_true_iff, next_reg in Hp).
  all: do 8 (step; results).
  all: try (eapply use_spec; [first [apply spec_load_exclusive; [apply _|done|apply _]|apply spec_store_exclusive; [apply _|apply _|done|apply _]]|lia|lia|lia|intros ?a ?new ?Ho]).
  all: results; steps; spec_end.
Qed.

(** ** Halfword, signed and doubleword transfers *)
Definition loaded_reg (r : option (nat * tcgv) * Z) (new : list slot) : Prop :=
  match r.1 with Some (rd, v) => IsReg rd ∧ a_temp v new | None => new = [] end.
Definition transfer_known (insn sh : Z) : bool :=
  has_bit 20 insn || negb (has_bit 1 sh) || negb (reg_at 12 insn =? 15)%nat.
Lemma spec_misc_transfer insn sh a : transfer_known insn sh = true →
  Spec 0 (disas_misc_transfer env insn sh (reg_at 12 insn) a) [] loaded_reg 14 7 4 0 8.
Proof.
  intros Hk. unfold transfer_known in Hk. unfold disas_misc_transfer. apply spec_intro. intros V. cbn [app].
  step. step; results. destruct (has_bit 20 insn).
  - destruct sh as [|[[]|[]|]|]; steps; (split; [lia|split; [lia|]]);
      (eexists [_]; split; [split; [apply _|by eexists]|split; [reflexivity|cbn [length]; lia]]).
  - destruct (has_bit 1 sh).
    + cbn [orb negb] in Hk. apply negb_true_iff, next_reg in Hk.
      steps; (split; [lia|split; [lia|]]); [exists []; split_and!; [done|done|cbn [length]; lia]|].
      eexists [_]. split; [split; [done|by eexists]|split; [reflexivity|cbn [length]; lia]].
    + steps. split; [lia|split; [lia|]]. exists []. split_and!; [done|done|cbn [length]; lia].
Qed.
Lemma spec_misc_ldst insn sh : transfer_known insn sh = true → Tries (disas_misc_ldst env insn sh) 22 24.
Proof.
  intros Hk. unfold disas_misc_ldst. apply spec_intro. intros V. cbn [app]. cbv zeta. do 4 (step; results).
  step. eapply (use_spec (Spec0:=spec_misc_transfer _ _ _ Hk)); [apply _|lia|lia|lia|].
  intros [[[rd v]|] off] new Ho; unfold loaded_reg in Ho; cbn in Ho; [destruct Ho as [Hrd (t' & -> & ->)]|subst new];
    cbn [app length]; steps; spec_end.
Qed.
Lemma spec_mul_extra insn op1 :
  (if (insn >> 5) .& 3 =? 0 then pair_known insn else transfer_known insn ((insn >> 5) .& 3)) = true →
  Spec 0 (disas_mul_extra env insn op1) [] nothing 30 30 8 0 24.
Proof.
  intros Hk. unfold disas_mul_extra. apply spec_intro. intros V. cbn [app]. cbv zeta.
  destruct (_ =? 0).
  - destruct (op1 =? 0); [steps; spec_end|]. destruct (has_bit 23 insn); [|steps; spec_end].
    eapply (use_spec (Spec0:=spec_exclusive _ Hk)); [apply _|lia|lia|lia|]. intros [] new Ho. results. spec_end.
  - eapply (use_spec (Spec0:=spec_misc_ldst _ _ Hk)); [apply _|lia|lia|lia|]. intros [] new Ho. results. spec_end.
Qed.

(** ** Media instructions *)
#[export] Instance spec_pack insn rn rd rm : IsReg rn → IsReg rd → IsReg rm → Costs (disas_pack insn rn rd rm) 12 8.
Proof. intros ???. unfold disas_pack. prove_spec. Qed.
#[export] Instance spec_saturate h t sh : Costs (gen_saturate h (Tmp t) sh) 3 8.
Proof. unfold gen_saturate. prove_spec. Qed.
#[export] Instance spec_sat insn rd rm : IsReg rd → IsReg rm → Costs (disas_sat insn rd rm) 9 24.
Proof. intros ??. unfold disas_sat. prove_spec. Qed.
#[export] Instance spec_sat16 insn rd rm : IsReg rd → IsReg rm → Costs (disas_sat16 insn rd rm) 7 24.
Proof. intros ??. unfold disas_sat16. prove_spec. Qed.
#[export] Instance spec_sel rn rd rm : IsReg rn → IsReg rd → IsReg rm → Costs (disas_sel rn rd rm) 8 8.
Proof. intros ???. unfold disas_sel. prove_spec. Qed.
#[export] Instance spec_extend insn rn rd rm : IsReg rn → IsReg rd → IsReg rm → Tries (disas_extend insn rn rd rm) 18 8.
Proof.
  intros ???. unfold disas_extend. apply spec_intro. intros V. cbn [app]. cbv zeta.
  do 5 (step; results).
  destruct ((insn >> 20) .& 7) as [|[[[]|[]|]|[[]|[]|]|]|]; steps; spec_end.
Qed.
#[export] Instance spec_reverse insn rd rm : IsReg rd → IsReg rm → Tries (disas_reverse env insn rd rm) 13 24.
Proof. intros ??. unfold disas_reverse. prove_spec. Qed.
#[export] Instance spec_smmul insn rn rd rm rs t t2 : IsReg rn → IsReg rd →
  Spec 0 (disas_smmul insn rn rd rm rs (Tmp t) (Tmp t2)) [W32 t; W32 t2] nothing 16 16 0 0 8.
Proof. intros ??. unfold disas_smmul. prove_spec. Qed.
#[export] Instance spec_smul_dual_insn insn rn rd rm rs t t2 : IsReg rn → IsReg rd →
  Spec 0 (disas_smul_dual insn rn rd rm rs (Tmp t) (Tmp t2)) [W32 t; W32 t2] nothing 36 36 0 0 8.
Proof. intros ??. unfold disas_smul_dual. prove_spec. Qed.
#[export] Instance spec_usad8 rn rd rm rs : IsReg rn → IsReg rd → IsReg rm → IsReg rs → Tries (disas_usad8 env rn rd rm rs) 12 8.
Proof. intros ????. unfold disas_usad8. prove_spec. Qed.
(** A bit field that ends before it starts is an undefined shift. *)
Definition field_known (insn : Z) : bool := u32 (((insn >> 16) .& 0x1f) + 1 - ((insn >> 7) .& 0x1f)) <=? 32.
Lemma spec_bfi_insn insn rd rm : field_known insn = true → IsReg rd → IsReg rm → Tries (disas_bfi env insn rd rm) 13 8.
Proof.
  intros Hk%Z.leb_le Hrd Hrm. unfold disas_bfi. rewrite (proj2 (Z.ltb_ge 32 _)) by done. prove_spec.
Qed.
#[export] Instance spec_bfx insn op1 rd rm : IsReg rd → IsReg rm → Tries (disas_bfx env insn op1 rd rm) 13 8.
Proof. intros ??. unfold disas_bfx. prove_spec. Qed.
Definition is_bfi (x : Z) : bool := (x =? 0x20) || (x =? 0x24) || (x =? 0x28) || (x =? 0x2c).
Lemma spec_bit_fields insn op1 rn rd rm rs : (is_bfi op1 = true → field_known insn = true) →
  IsReg rn → IsReg rd → IsReg rm → IsReg rs →
  Tries (match op1 with
         | 0 => disas_usad8 env rn rd rm rs
         | 0x20 | 0x24 | 0x28 | 0x2c => disas_bfi env insn rd rm
         | 0x12 | 0x16 | 0x1a | 0x1e | 0x32 | 0x36 | 0x3a | 0x3e => disas_bfx env insn op1 rd rm
         | _ => illegal_op
         end) 13 8.
Proof.
  intros Hk ????. apply spec_intro. intros V. cbn [app].
  destruct op1 as [|[[[[[[]|[]|]|[[]|[]|]|]|[[[]|[]|]|[[]|[]|]|]|]|[[[[]|[]|]|[[]|[]|]|]|[[[]|[]|]|[[]|[]|]|]|]|]|[[[[[]|[]|]|[[]|[]|]|]|[[[]|[]|]|[[]|[]|]|]|]|[[[[]|[]|]|[[]|[]|]|]|[[[]|[]|]|[[]|[]|]|]|]|]|]|];
    try (steps; spec_end);
    specialize (Hk eq_refl); (eapply (use_spec (Spec0:=spec_bfi_insn _ _ _ Hk _ _)); [apply _|lia|lia|lia|]);
    intros [] new Ho; results; spec_end.
Qed.
Definition field_op (insn : Z) : Z := ((insn >> 17) .& 0x38) .| ((insn >> 5) .& 7).
Definition media_known (insn : Z) : bool :=
  negb ((insn >> 23) .& 3 =? 3) || negb (is_bfi (field_op insn)) || field_known insn.
Lemma spec_media insn : media_known insn = true → Tries (disas_media env insn) 40 24.
Proof.
  intros Hk. unfold disas_media. apply spec_intro. intros V. cbn [app]. cbv zeta. step. step; results.
  destruct (two_bits_cases (insn >> 23)) as [E|[E|[E|E]]]; rewrite E; [steps; spec_end..|].
  assert (is_bfi (field_op insn) = true → field_known insn = true) as Hk'.
  { unfold media_known in Hk. rewrite E in Hk. intros Hb. by rewrite Hb in Hk. }
  eapply (use_spec (Spec0:=spec_bit_fields insn (field_op insn) _ _ _ _ Hk' _ _ _ _)); [apply _|lia|lia|lia|].
  intros [] new Ho. results. spec_end.
Qed.

(** ** Word, byte and block transfers *)
#[export] Instance spec_ldst insn op1 : Tries (disas_ldst env insn op1) 37 24.
Proof. unfold disas_ldst. prove_spec. Qed.

(** One register costs [ldm_cost] operations; the address advances between two. *)
Definition ldm_cost (user : bool) (i : nat) : nat := if (i =? 15)%nat then 6 else if user then 4 else 2.
Fixpoint ldm_loop_cost (user : bool) (l : list nat) : nat :=
  match l with
  | [] => 0
  | i :: l => ldm_cost user i + (if bool_decide (l = []) then 0 else 1) + ldm_loop_cost user l
  end.
(** The value kept for the base register. *)
Definition kept (user : bool) (v : option tcgv) (new : list slot) : Prop :=
  match v with Some v => user = false ∧ a_temp v new | None => new = [] end.
Lemma kept_length user v new : kept user v new → (length new ≤ 1)%nat.
Proof. unfold kept, a_temp. destruct v; [intros (_ & ? & _ & ->)|intros ->]; cbn; lia. Qed.
Definition user_reg (user : bool) (i : nat) : Prop := (i < 16)%nat ∧ (user = true → i ≠ 15%nat).
Lemma spec_ldm_one insn user rn i addr loaded : user_reg user i →
  Spec 0 (ldm_one env insn user rn i addr loaded) []
    (λ v new, v = loaded ∧ new = [] ∨ i = rn ∧ kept user v new) (ldm_cost user i) (ldm_cost user i) 0 0 16.
Proof.
  intros [Hi Hu]. assert (IsReg i) as Hreg by done. unfold ldm_one, ldm_cost. apply spec_intro. intros V. cbn [app]. step. results.
  destruct (has_bit 20 insn), user, (Nat.eqb_spec i 15) as [->|Hn]; try (by destruct (Hu eq_refl)).
  all: try (unfold store_reg_from_load, store_reg; rewrite (proj2 (Nat.eqb_neq i 15) Hn); cbn [andb]).
  all: try change (15 =? 15)%nat with true.
  all: try destruct (Nat.eqb_spec i rn); try destruct (Nat.eqb_spec 15 rn).
  all: steps; (split; [lia|split; [lia|]]);
    first [exists []; split; [by left|split; [done|cbn [length]; lia]]
          |eexists [_]; split; [right; split; [done|split; [done|by eexists]]|split; [done|cbn [length]; lia]]].
Qed.
Lemma gsafe_ldm_loop insn user rn addr tmp3 l : Forall (user_reg user) l → NoDup l → ∀ loaded new V N K P Q,
  kept user loaded new → (loaded = None ∨ rn ∉ l) → (ldm_loop_cost user l ≤ N)%nat → (17 ≤ P + length new)%nat →
  (∀ v new', kept user v new' →
     Q v (new' ++ V) (N - ldm_loop_cost user l)%nat K (P + length new - length new')%nat) →
  gsafe 0 (ldm_loop env insn user rn addr tmp3 l loaded) Q (new ++ V) N K P.
Proof.
  induction 1 as [|i l Hi Hl IH]; intros Hnd loaded new V N K P Q Hnew Hrn HN HP HQ; cbn [ldm_loop ldm_loop_cost] in *.
  - step. specialize (HQ _ _ Hnew). by rewrite Nat.sub_0_r, Nat.add_sub in HQ.
  - apply NoDup_cons in Hnd as [Hil Hnd].
    pose proof (kept_length _ _ _ Hnew) as Hlen. step. eapply (use_spec (Spec0:=spec_ldm_one insn user rn i addr loaded Hi)); [apply _|lia|lia|lia|].
    intros v new1 Ho. step.
    assert (kept user v (new1 ++ new) ∧ (v = None ∨ rn ∉ l)) as [Hv Hr].
    { destruct Ho as [[-> ->]|[-> Hv]].
      { split; [done|]. destruct Hrn as [-> |Hrn]; [by left|right]. contradict Hrn. by right. }
      destruct Hrn as [-> |Hrn]; [|destruct Hrn; by left].
      cbn in Hnew. subst new. rewrite app_nil_r. auto. }
    unfold when. rewrite app_assoc.
    destruct (bool_decide _) eqn:El; cbn [negb]; [step|step; results]; (apply IH; [done..|lia|rewrite length_app; lia|]);
      intros v' new' Hv'; specialize (HQ v' new' Hv'); pose proof (kept_length _ _ _ Hv') as Hlen';
      pose proof (kept_length _ _ _ Hv) as Hlen1; rewrite length_app in Hlen1; rewrite length_app; cbn [length]; budget HQ.
Qed.
Lemma ldm_loop_cost_sum user l : (ldm_loop_cost user l ≤ sum_list_with (λ i, S (ldm_cost user i)) l - 1)%nat.
Proof. induction l as [|i l IH]; [done|]. cbn. destruct l as [|j l]; cbn in *; lia. Qed.
Lemma sum_filter (P : nat → Prop) `{!∀ x, Decision (P x)} f (l : list nat) :
  (sum_list_with f (filter P l) ≤ sum_list_with f l)%nat.
Proof. induction l as [|i l IH]; [done|]. rewrite filter_cons. case_decide; cbn; lia. Qed.
Lemma reg_list_user insn : let user := has_bit 22 insn && negb (has_bit 15 insn) in
  Forall (user_reg user) (reg_list insn) ∧ (ldm_loop_cost user (reg_list insn) ≤ if user then 74 else 51)%nat.
Proof.
  intros user. split.
  - apply Forall_forall. intros i [Hb Hi%elem_of_seq]%list_elem_of_filter. split; [lia|].
    intros Hu ->. unfold user in Hu. change (Z.of_nat 15) with 15 in Hb. destruct (has_bit 15 insn); [|done].
    by rewrite andb_false_r in Hu.
  - eapply Nat.le_trans; [apply ldm_loop_cost_sum|]. unfold reg_list. change (seq 0 16) with (seq 0 15 ++ seq 15 1). rewrite filter_app, sum_list_with_app.
    pose proof (sum_filter (λ i, has_bit (Z.of_nat i) insn) (λ i, S (ldm_cost user i)) (seq 0 15)) as H1.
    assert (sum_list_with (λ i, S (ldm_cost user i)) (seq 0 15) = if user then 75 else 45)%nat as E
      by (destruct user; reflexivity).
    destruct user eqn:Hu; rewrite E in H1.
    + assert (has_bit 15 insn = false) as Hb by (unfold user in Hu; destruct (has_bit 15 insn); [by rewrite andb_false_r in Hu|done]).
      assert (filter (λ i, has_bit (Z.of_nat i) insn) (seq 15 1) = []) as ->; [|cbn [sum_list_with]; lia].
      apply (filter_cons_False (λ i, has_bit (Z.of_nat i) insn)). change (Z.of_nat 15) with 15. rewrite Hb. intros [].
    + pose proof (sum_filter (λ i, has_bit (Z.of_nat i) insn) (λ i, S (ldm_cost false i)) (seq 15 1)) as H2.
      change (sum_list_with (λ i, S (ldm_cost false i)) (seq 15 1)) with 7%nat in H2. lia.
Qed.
Lemma reg_list_nodup insn : NoDup (reg_list insn).
Proof. apply NoDup_filter, NoDup_seq. Qed.
(** A user-bank transfer with r15 as the base may not write it back. *)
Definition ldm_known (insn : Z) : bool :=
  negb (has_bit 22 insn && negb (has_bit 15 insn)) || negb (has_bit 21 insn) || negb (reg_at 16 insn =? 15)%nat.
Lemma spec_ldm insn : ldm_known insn = true → Tries (disas_ldm env insn) 81 24.
Proof.
  intros Hk. unfold disas_ldm, ldm_known in *. pose proof (reg_list_user insn) as [Hl Hc]. cbv zeta in Hl, Hc |- *.
  set (user := has_bit 22 insn && negb (has_bit 15 insn)) in *. clearbody user.
  apply spec_intro. intros V. cbn [app]. steps.
  apply (gsafe_ldm_loop _ _ _ _ _ _ Hl (reg_list_nodup insn) None []); [done|by left|destruct user; lia|cbn [length]; lia|]. intros v new' Hv.
  destruct user.
  - change (negb true) with false in *. destruct v as [v|]; [by destruct Hv|]. cbn in Hv. subst new'. cbn [app length].
    rewrite andb_false_r. destruct (has_bit 21 insn); [|steps; spec_end].
    destruct (_ =? 15)%nat eqn:Hrn in Hk; [done|]. unfold store_reg. rewrite Hrn. steps; spec_end.
  - destruct v as [v|]; [destruct Hv as (_ & t' & -> & ->)|cbn in Hv; subst new']; cbn [app length]; steps; spec_end.
Qed.

(** ** The decoder *)
#[export] Instance spec_branch insn : Costs (disas_branch insn) 7 8.
Proof. unfold disas_branch. prove_spec. Qed.
Definition mul_extra_known (insn : Z) : bool :=
  if (insn >> 5) .& 3 =? 0 then pair_known insn else transfer_known insn ((insn >> 5) .& 3).
Definition other_known (insn : Z) : bool :=
  match (insn >> 24) .& 0xf with
  | 0x0 | 0x1 => mul_extra_known insn
  | 0x6 | 0x7 => negb (has_bit 4 insn) || media_known insn
  | 0x8 | 0x9 => ldm_known insn
  | 0xc | 0xd | 0xe => false
  | _ => true
  end.
(** What an instruction needs of the table of temporaries and gives back, and what
    it leaves of the room and the credit. *)
Definition insn_temps : nat := 40.
Definition done_insn (_ : unit) (_ : list slot) (N K P : nat) : Prop := (5 ≤ N)%nat ∧ (8 ≤ K)%nat ∧ (insn_temps ≤ P)%nat.
Ltac done_end := unfold done_insn, insn_temps in *; cbn [length]; split_and!; lia.
Lemma gsafe_other insn V : other_known insn = true →
  gsafe 0 (disas_other env disas_coproc_insn insn) done_insn V 86 8 insn_temps.
Proof.
  intros Hk. unfold disas_other, other_known in *. cbv zeta. unfold insn_temps.
  pose proof (spec_mul_extra insn) as Hm. pose proof (spec_ldm insn) as Hl.
  destruct ((insn >> 24) .& 15) as [|[[[[]|[]|]|[[]|[]|]|]|[[[]|[]|]|[[]|[]|]|]|]|]; try done;
    try (pose proof (λ op1, Hm op1 Hk)); try (specialize (Hl Hk));
    try (destruct (has_bit 4 insn); [pose proof (spec_media insn Hk)|]); steps; done_end.
Qed.
Definition cond_known (insn : Z) : bool :=
  is_insn 0x0f900000 0x03000000 insn ||
  (is_insn 0x0f900000 0x01000000 insn && negb (insn .& 0x90 =? 0x90)) ||
  ((insn .& 0x0e000000 =? 0) && negb (insn .& 0x90 =? 0x90)) || is_insn 0x0e000000 (1 << 25) insn ||
  other_known insn.
Lemma gsafe_decode_cond insn V : cond_known insn = true →
  gsafe 0 (if is_insn 0x0f900000 0x03000000 insn then disas_mov16 env insn
    else if is_insn 0x0f900000 0x01000000 insn && negb (insn .& 0x90 =? 0x90) then disas_misc env insn
    else if ((insn .& 0x0e000000 =? 0) && negb (insn .& 0x90 =? 0x90)) || is_insn 0x0e000000 (1 << 25) insn
    then disas_data_processing env insn
    else disas_other env disas_coproc_insn insn) done_insn V 86 8 insn_temps.
Proof.
  intros Hk. unfold cond_known in Hk. unfold insn_temps. destruct (is_insn 0x0f900000 0x03000000 insn); [steps; done_end|].
  destruct (is_insn 0x0f900000 0x01000000 insn && _); [steps; done_end|].
  destruct (_ && _ || is_insn 0x0e000000 (1 << 25) insn) eqn:E; [steps; done_end|].
  cbn [orb] in Hk. rewrite E in Hk. by apply gsafe_other.
Qed.
Lemma gsafe_on_dc f (Q : unit → _ → _ → _ → _ → Prop) V N K P :
  (∀ d, dc_like d (f d) ∧ is_jmp (f d) = is_jmp d ∧ (condlabel d < TCG_MAX_LABELS → condlabel (f d) < TCG_MAX_LABELS)%nat) →
  Q tt V N K P → gsafe 0 (on_dc f) Q V N K P.
Proof.
  intros Hf HQ n k p g Hg. destruct (Hf (dc g)) as (Hl & Hj & Hc). exists (Some tt), (g <| dc := f (dc g) |>).
  split_and!; [done|done|]. exists V, N, K, P. split; [|done]. destruct Hg. split; try done; cbn.
  - by rewrite Hj.
  - auto.
  - by rewrite (like_mask _ _ Hl).
Qed.
Lemma gsafe_cond insn V : 0 ≤ insn >> 28 < 15 → cond_known insn = true →
  gsafe 0 (disas_cond env disas_coproc_insn insn) done_insn V 95 9 insn_temps.
Proof.
  intros Hc Hk. unfold disas_cond. cbv zeta. assert (insn_temps = 40)%nat as ET by done. step. unfold when.
  destruct (Z.eqb_spec (insn >> 28) 14) as [E|E]; cbn [negb].
  { step. eapply gsafe_frame; [by apply gsafe_decode_cond|lia..|unfold done_insn; intros; lia]. }
  step. step. step. apply gsafe_on_dc; [intros d; by split_and!|]. step. apply gsafe_test_cc; [|done|lia..|]; [|rewrite ?ET].
  { assert (∃ n, insn >> 28 = Z.of_nat n ∧ (n < 14)%nat) as (n & -> & Hn) by (exists (Z.to_nat (insn >> 28)); lia).
    clear -Hn. do 14 (destruct n as [|n]; [vm_compute; by split|]). lia. }
  apply gsafe_on_dc; [intros d; by split_and!|]. by apply gsafe_decode_cond.
Qed.
(** The words that the decoder handles: none of the decoders that are not modelled,
    and none of the three encodings above that the translator mishandles. *)
Definition decodable (insn : Z) : bool := if insn >> 28 =? 15 then uncond_known insn else cond_known insn.
#[local] Abbreviation body :=
  (disas_arm_body env disas_neon_data_insn disas_neon_ls_insn disas_iwmmxt_insn disas_coproc_insn).
Lemma gsafe_body insn V : 0 ≤ insn < 2 ^ 32 → decodable insn = true →
  gsafe 0 (body insn) done_insn V 95 9 insn_temps.
Proof.
  intros Hi Hk. unfold disas_arm_body, decodable in *. destruct (IS_M env); [unfold insn_temps; step|].
  destruct (Z.eqb_spec (insn >> 28) 15) as [E|E].
  - pose proof (spec_uncond insn Hk). unfold insn_temps. steps. done_end.
  - apply gsafe_cond; [|done]. rewrite Z.shiftr_div_pow2 in * by lia.
    pose proof (Z.div_pos insn (2 ^ 28)). pose proof (Z.div_lt_upper_bound insn (2 ^ 28) 16). lia.
Qed.

(** ** One instruction *)
Lemma bind_jmp {A} (m : gen A) (c : A → gen unit) j :
  (∀ a g g', c a g = Ok (Some tt, g') → is_jmp (dc g') = j) →
  ∀ g g', (m ≫= c) g = Ok (Some tt, g') → is_jmp (dc g') = j.
Proof.
  intros Hc g g' E. unfold mbind, gen_bind in E. destruct (m g) as [[[a|] g1]|]; cbn in E; [by eapply Hc|done|done].
Qed.
(** The generators that do not end at [illegal_op]. *)
Definition ends {A} (m : gen A) : Prop := ∀ g g', m g ≠ Ok (None, g').
Lemma ends_bind {A B} (m : gen A) (c : A → gen B) : ends m → (∀ a, ends (c a)) → ends (m ≫= c).
Proof.
  intros Hm Hc g g' E. unfold mbind, gen_bind in E. destruct (m g) as [[[a|] g1]|] eqn:E1; cbn in E;
    [by eapply Hc|by eapply Hm|done].
Qed.
Lemma ends_new_i32 : ends tcg_temp_new_i32.
Proof. intros g g'. unfold tcg_temp_new_i32, tcg_temp_more. destruct (free_i32 g); [by destruct (_ <? _)%nat|done]. Qed.
Lemma ends_new_i64 : ends tcg_temp_new_i64.
Proof. intros g g'. unfold tcg_temp_new_i64, tcg_temp_more. destruct (free_i64 g); [by destruct (_ <? _)%nat|done]. Qed.
Lemma ends_free_i32 (t : tcgv) : ends (tcg_temp_free_i32 t).
Proof. intros g g'. unfold tcg_temp_free_i32. destruct t; try done; by destruct (may_free _ g). Qed.
Lemma ends_free_i64 (t : tcgv) : ends (tcg_temp_free_i64 t).
Proof. intros g g'. unfold tcg_temp_free_i64. destruct t; try done; by destruct (may_free _ g). Qed.
Ltac ends_tac :=
  unfold gen_set_condexec, gen_set_pc_im, gen_exception, gen_helper, gen_goto_tb, tcg_gen_movi_i32, store_cpu_field,
    tcg_gen_st_i32, tcg_gen_goto_tb, tcg_gen_exit_tb, gen_set_label, when, skip_gen;
  repeat first [apply ends_bind; [|intros ?]|apply ends_new_i32|apply ends_new_i64|apply ends_free_i32|
    apply ends_free_i64|case_match|by intros ? ?].
Lemma exception_insn_ends o e : ends (gen_exception_insn o e).
Proof. unfold gen_exception_insn. ends_tac. Qed.
Lemma block_end_ends : ends gen_block_end.
Proof. unfold gen_block_end. ends_tac. Qed.
Lemma exception_insn_jmp o e g g' : gen_exception_insn o e g = Ok (Some tt, g') → is_jmp (dc g') = DISAS_JUMP.
Proof.
  unfold gen_exception_insn. revert g g'. do 4 (apply bind_jmp; intros ?). intros g g' E. by injection E as <-.
Qed.
(** The room and the credit that an instruction leaves. *)
Definition ok_after (g : gctx) (V : list slot) : Prop := ok 0 g V 5 (if is_jmp (dc g) =? DISAS_NEXT then 8 else 0) (if is_jmp (dc g) =? DISAS_NEXT then insn_temps else illegal_temps).
#[local] Abbreviation disas_insn :=
  (disas_arm_insn env ldl_code disas_neon_data_insn disas_neon_ls_insn disas_iwmmxt_insn disas_coproc_insn).
Lemma ok_on_dc g f V N K P : is_jmp (f (dc g)) = is_jmp (dc g) → condlabel (f (dc g)) = condlabel (dc g) →
  condexec_mask (f (dc g)) = condexec_mask (dc g) → ok 0 g V N K P → ok 0 (g <| dc := f (dc g) |>) V N K P.
Proof. intros Hj Hc Hm []. split; try done; cbn; [by rewrite Hj|by rewrite Hc|by rewrite Hm]. Qed.
Lemma ok_after_of g V N K P : (5 ≤ N)%nat → (8 ≤ K)%nat → (insn_temps ≤ P)%nat → ok 0 g V N K P → ok_after g V.
Proof. intros HN HK HP. unfold insn_temps, illegal_temps in *. apply ok_less; unfold insn_temps, illegal_temps; try case_match; lia. Qed.
Lemma insn_safe g V insn : ok 0 g V 96 8 insn_temps → ldl_code (dc_pc (dc g)) = Ok insn → 0 ≤ insn < 2 ^ 32 →
  decodable insn = true → ∃ g' V', disas_insn g = Ok (Some tt, g') ∧
    dc_pc (dc g') = u32 (dc_pc (dc g) + 4) ∧ dc_thumb (dc g') = dc_thumb (dc g) ∧ ok_after g' V'.
Proof.
  intros Hg Hf Hi Hk. set (pc := dc_pc (dc g)) in *.
  set (g1 := g <| gen_opc_buf := gen_opc_buf g ++ [Op_qemu_trace_pc pc] |>).
  set (g2 := g1 <| dc := dc g1 <| dc_pc := u32 (pc + 4) |> |>).
  assert (ok 0 g2 V (95 + 0) (9 + 0) (insn_temps + 0)) as Hg2.
  { apply (ok_on_dc g1 (λ d, d <| dc_pc := u32 (pc + 4) |>)); [done..|]. rewrite Nat.add_0_r. apply (ok_emit 0 g _ V 96 8); [exact I|lia|done]. }
  assert (disas_insn g = or_illegal (body insn) (gen_exception_insn 4 EXCP_UDEF) g2) as ->.
  { unfold disas_arm_insn, mbind, gen_bind, get_dc, fetch. cbn. fold pc. by rewrite Hf. }
  destruct (gsafe_body insn V Hi Hk 0%nat 0%nat 0%nat g2 Hg2) as ([[]|] & g3 & E & Hd & Hr); unfold or_illegal; rewrite E; cbn.
  - destruct Hr as (V' & N' & K' & P' & Hg3 & HN & HK & HP). exists g3, V'. split_and!; [done|apply Hd..|].
    eapply ok_after_of, Hg3; lia.
  - destruct Hr as (V' & Hg3).
    destruct (spec (Spec := spec_exception_insn 0 4 EXCP_UDEF) V' 5%nat 4%nat 1%nat g3) as ([[]|] & g4 & E4 & Hd4 & Hr4); [exact Hg3|..].
    + rewrite E4. cbn. destruct Hr4 as (V4 & N4 & K4 & P4 & Hg4 & HN4 & HK4 & new & Hn & -> & HP4). unfold nothing in Hn. subst new.
      exists g4, V'. split_and!; [done|..].
      * rewrite (like_pc _ _ Hd4). apply Hd.
      * rewrite (like_thumb _ _ Hd4). apply Hd.
      * unfold ok_after. rewrite (exception_insn_jmp _ _ _ _ E4). eapply ok_less, Hg4; cbn in *; unfold illegal_temps in *; lia.
    + by destruct (exception_insn_ends _ _ _ _ E4).
Qed.

(** ** The end of a block *)

(** Generators to which it does not matter how the block ends. *)
Definition jmp_to (j : Z) (g : gctx) : gctx := g <| dc := dc g <| is_jmp := j |> |>.
Definition jmp_free {A} (m : gen A) : Prop := ∀ j g, m (jmp_to j g) = ('(r, g') ← m g; Ok (r, jmp_to j g')).
Lemma jmp_free_bind {A B} (m : gen A) (c : A → gen B) : jmp_free m → (∀ a, jmp_free (c a)) → jmp_free (m ≫= c).
Proof.
  intros Hm Hc j g. unfold mbind, gen_bind. rewrite Hm. destruct (m g) as [[[a|] g1]|]; cbn; [apply Hc|done|done].
Qed.
Lemma jmp_free_new_i32 : jmp_free tcg_temp_new_i32.
Proof.
  intros j g. unfold tcg_temp_new_i32, tcg_temp_more. change (free_i32 (jmp_to j g)) with (free_i32 g).
  change (nb_temps (jmp_to j g)) with (nb_temps g). destruct (free_i32 g); [by destruct (_ <? _)%nat|done].
Qed.
Lemma jmp_free_new_i64 : jmp_free tcg_temp_new_i64.
Proof.
  intros j g. unfold tcg_temp_new_i64, tcg_temp_more. change (free_i64 (jmp_to j g)) with (free_i64 g).
  change (nb_temps (jmp_to j g)) with (nb_temps g). destruct (free_i64 g); [by destruct (_ <? _)%nat|done].
Qed.
Lemma jmp_free_free_i32 (t : tcgv) : jmp_free (tcg_temp_free_i32 t).
Proof.
  intros j g. unfold tcg_temp_free_i32. destruct t; try done; change (may_free n (jmp_to j g)) with (may_free n g);
    by destruct (may_free _ g).
Qed.
Lemma jmp_free_free_i64 (t : tcgv) : jmp_free (tcg_temp_free_i64 t).
Proof.
  intros j g. unfold tcg_temp_free_i64. destruct t; try done. change (may_free n (jmp_to j g)) with (may_free n g).
  by destruct (may_free _ g).
Qed.
(** [gen_block_end] after the state is read. *)
Definition block_exit (d : DisasContext) : gen unit :=
  match is_jmp d with
  | 0 => gen_goto_tb 1 (dc_pc d)
  | 3 => skip_gen
  | 4 => gen_helper H_wfi None []
  | 5 => gen_exception EXCP_SWI
  | 6 => gen_exception EXCP_SMC
  | _ => tcg_gen_exit_tb 0
  end;;
  when (condjmp d) (gen_set_label (condlabel d);; gen_set_condexec;; gen_goto_tb 1 (dc_pc d)).
Lemma block_exit_jmp_free d : jmp_free (block_exit d).
Proof.
  unfold block_exit, gen_set_condexec, gen_set_pc_im, gen_exception, gen_helper, gen_goto_tb, tcg_gen_movi_i32,
    store_cpu_field, tcg_gen_st_i32, tcg_gen_goto_tb, tcg_gen_exit_tb, gen_set_label, when, skip_gen.
  repeat first [apply jmp_free_bind; [|intros ?]|apply jmp_free_new_i32|apply jmp_free_new_i64|apply jmp_free_free_i32|
    apply jmp_free_free_i64|by intros ? ?|case_match].
Qed.
Lemma gsafe_block_exit d V : (condlabel d < TCG_MAX_LABELS)%nat → (is_jmp d = DISAS_NEXT → condjmp d = false) →
  gsafe 0 (block_exit d) (λ _ _ _ _ _, True) V ((if condjmp d then 5 else 4) + jmp_extra (is_jmp d)) 0 illegal_temps.
Proof.
  intros Hl Hn. unfold block_exit, gen_set_label, illegal_temps.
  destruct (is_jmp d) as [|[[[]|[]|]|[[]|[]|]|]|]; try rewrite (Hn eq_refl); cbn [jmp_extra Nat.add];
    destruct (condjmp d); unfold when; steps; done.
Qed.
Lemma block_end_safe g V : ok 0 g V (if condjmp (dc g) then 5 else 4) 0 illegal_temps →
  (is_jmp (dc g) = DISAS_NEXT → condjmp (dc g) = false) →
  ∃ g', gen_block_end g = Ok (Some tt, g') ∧ dc_pc (dc g') = dc_pc (dc g) ∧
    (length (gen_opc_buf g') ≤ buffer_room)%nat ∧ Forall valid_op (gen_opc_buf g').
Proof.
  intros Hg Hn. assert (gen_block_end g = block_exit (dc g) g) as E.
  { unfold gen_block_end, gen_set_condexec. destruct (ok_condexec _ _ _ _ _ _ Hg) as [Hm|]; [|lia].
    unfold mbind, gen_bind, get_dc. cbn. rewrite Hm. done. }
  assert (ok 0 (jmp_to 0 g) V ((if condjmp (dc g) then 5 else 4) + jmp_extra (is_jmp (dc g)) + 0) 0 (illegal_temps + 0)) as Hg0.
  { rewrite (Nat.add_0_r illegal_temps). destruct Hg. split; try done. cbn. lia. }
  destruct (gsafe_block_exit (dc g) V (ok_condlabel _ _ _ _ _ _ Hg) Hn 0%nat 0%nat 0%nat _ Hg0) as (r & g1 & E1 & Hd & Hr).
  assert (g = jmp_to (is_jmp (dc g)) (jmp_to 0 g)) as Eg by by destruct g as [??????[]].
  assert (block_exit (dc g) g = Ok (r, jmp_to (is_jmp (dc g)) g1)) as E2.
  { rewrite (f_equal (block_exit (dc g)) Eg), (block_exit_jmp_free (dc g) _ (jmp_to 0 g)), E1. done. }
  rewrite E2 in E. destruct r as [[]|]; [|by destruct (block_end_ends _ _ E)].
  eexists. split; [exact E|]. destruct Hr as (V' & N' & K' & P' & Hg1 & _). split_and!; [apply Hd|..|apply Hg1].
  pose proof (ok_ops _ _ _ _ _ _ Hg1). cbn. lia.
Qed.

(** ** The loop over the instructions *)
Lemma condlabel_here_safe g V : ok_after g V → ∃ g', set_condlabel_here g = Ok (Some tt, g') ∧
  dc_pc (dc g') = dc_pc (dc g) ∧ dc_thumb (dc g') = dc_thumb (dc g) ∧
  (is_jmp (dc g') = DISAS_NEXT → condjmp (dc g') = false) ∧
  (is_jmp (dc g') = DISAS_NEXT → ok 0 g' V 4 8 insn_temps) ∧ ok 0 g' V (if condjmp (dc g') then 5 else 4) 0 illegal_temps.
Proof.
  intros Hg. unfold set_condlabel_here, ok_after in *. unfold DISAS_NEXT in *.
  destruct (Z.eqb_spec (is_jmp (dc g)) 0) as [En|En].
  - destruct (condjmp (dc g)) eqn:Ec; cbn [andb].
    + eexists. split; [reflexivity|]. cbn.
      assert (ok 0 (g <| gen_opc_buf := gen_opc_buf g ++ [Op_set_label (condlabel (dc g))] |>) V 4 9 insn_temps) as Hg1.
      { apply (ok_emit 0 g _ V 5 8); [apply Hg|lia|done]. }
      apply (ok_on_dc _ (λ d, d <| condjmp := false |>)) in Hg1; [|done..].
      split_and!; try done; [intros _|]; (eapply ok_less, Hg1; unfold illegal_temps, insn_temps; lia).
    + exists g. rewrite Ec. split_and!; try done; [intros _|]; (eapply ok_less, Hg; unfold illegal_temps, insn_temps; lia).
  - rewrite andb_false_r. exists g. split_and!; try done. eapply ok_less, Hg; unfold illegal_temps, insn_temps; try case_match; lia.
Qed.
Definition word_ok (pc : Z) : Prop := ∃ insn, ldl_code pc = Ok insn ∧ 0 ≤ insn < 2 ^ 32 ∧ decodable insn = true.
#[local] Abbreviation loop :=
  (gen_loop env ldl_code disas_neon_data_insn disas_neon_ls_insn disas_iwmmxt_insn disas_coproc_insn disas_thumb_insn).
Record ready (g : gctx) (V : list slot) : Prop := {
  ready_ok : ok 0 g V 96 8 insn_temps;
  ready_jmp : is_jmp (dc g) = DISAS_NEXT;
  ready_cond : condjmp (dc g) = false;
  ready_thumb : dc_thumb (dc g) = 0
}.
Record finished (g : gctx) (V : list slot) : Prop := {
  finished_ok : ok 0 g V (if condjmp (dc g) then 5 else 4) 0 illegal_temps;
  finished_cond : is_jmp (dc g) = DISAS_NEXT → condjmp (dc g) = false
}.
Lemma loop_step g V insn : ready g V → ldl_code (dc_pc (dc g)) = Ok insn → 0 ≤ insn < 2 ^ 32 → decodable insn = true →
  ∃ g' V', (disas_insn ≫= λ _ : unit, set_condlabel_here) g = Ok (Some tt, g') ∧
    dc_pc (dc g') = u32 (dc_pc (dc g) + 4) ∧ finished g' V' ∧
    (is_jmp (dc g') = DISAS_NEXT → (length (gen_opc_buf g') < OPC_MAX_SIZE)%nat → ready g' V').
Proof.
  intros [Hg Hj Hc Ht] Hf Hi Hk. destruct (insn_safe g V insn Hg Hf Hi Hk) as (g1 & V1 & E1 & Hpc1 & Ht1 & Hg1).
  destruct (condlabel_here_safe g1 V1 Hg1) as (g2 & E2 & Hpc2 & Ht2 & Hc2 & Hn2 & Hok2).
  exists g2, V1. split_and!; [|congruence|by split|].
  - unfold mbind, gen_bind. rewrite E1. exact E2.
  - intros Hj2 Hlen. specialize (Hn2 Hj2). split; [|done|by apply Hc2|congruence].
    destruct Hn2. split; try done. rewrite Hj2. unfold OPC_MAX_SIZE, buffer_room, OPC_BUF_SIZE in *. cbn. lia.
Qed.
(** Code at the addresses of exception returns on M cores is not fetched. *)
Lemma exit_safe g V : ready g V → ∃ g', (gen_exception EXCP_EXCEPTION_EXIT ≫= λ _ : unit, set_jmp DISAS_UPDATE) g = Ok (Some tt, g') ∧
  dc_pc (dc g') = dc_pc (dc g) ∧ ∃ V', finished g' V'.
Proof.
  intros [Hg Hj Hc Ht].
  destruct (spec (Spec := spec_exception 0 EXCP_EXCEPTION_EXIT) V 93%nat 8%nat 37%nat g Hg) as ([[]|] & g1 & E & Hd & Hr).
  2:{ assert (ends (gen_exception EXCP_EXCEPTION_EXIT)) as He by ends_tac. by destruct (He _ _ E). }
  destruct Hr as (V1 & N1 & K1 & P1 & Hg1 & HN & HK & new & -> & -> & HP).
  eexists. split; [unfold mbind, gen_bind; rewrite E; reflexivity|]. split; [apply Hd|]. exists V. split; [|done].
  unfold illegal_temps. destruct Hg1. split; try done; cbn in *; [lia| |lia]. case_match; lia.
Qed.
Lemma bind_seq {A B} (m : gen A) (c : gen B) {C} (k : B → gen C) g b g' :
  (m ≫= λ _, c) g = Ok (Some b, g') → (m ≫= λ _, c ≫= k) g = k b g'.
Proof.
  unfold mbind, gen_bind. destruct (m g) as [[[a|] g1]|]; cbn; [|done|done]. by intros ->.
Qed.
(** The words that are translated, those up to the end of the block. *)
Record words (nps : Z) (W : gctx → Prop) : Prop := {
  words_ok : ∀ g, W g → word_ok (dc_pc (dc g));
  words_next : ∀ g V g', W g → ready g V →
    (disas_insn ≫= λ _ : unit, set_condlabel_here) g = Ok (Some tt, g') → is_jmp (dc g') = DISAS_NEXT →
    dc_pc (dc g') = dc_pc (dc g) + 4 → dc_pc (dc g') < nps → W g'
}.
Lemma loop_safe nps W fuel : words nps W → ∀ num max starts g V, ready g V → 0 ≤ dc_pc (dc g) < 2 ^ 32 → W g →
  nps = 0 ∨ dc_pc (dc g) < nps ≤ 2 ^ 32 - 4 → nps - dc_pc (dc g) < Z.of_nat fuel → (0 < fuel)%nat →
  ∃ l g' V', loop fuel num max nps starts g = Ok (Some (num + Z.of_nat (length l), starts ++ l), g') ∧
    finished g' V' ∧ dc_pc (dc g') = u32 (dc_pc (dc g) + 4 * Z.of_nat (length l)) ∧
    (IS_M env = false → l ≠ []) ∧ 4 * Z.of_nat (length l) ≤ Z.max 4 (nps - dc_pc (dc g) + 3).
Proof.
  intros HW. induction fuel as [|fuel IH]; [lia|]. intros num max starts g V Hr Hpc Hw Hnps Hfuel _.
  cbn [gen_loop]. unfold mbind at 1. unfold gen_bind at 1. cbn.
  destruct ((4294967280 <=? dc_pc (dc g)) && IS_M env) eqn:EM.
  { destruct (exit_safe g V Hr) as (g' & E & Hpc' & V' & Hf). rewrite (bind_seq _ _ _ _ _ _ E).
    exists [], g', V'. rewrite Hpc', app_nil_r. cbn [length Z.of_nat]. rewrite !Z.add_0_r.
    split_and!; [reflexivity|done|by rewrite u32_small| |cbn; lia]. intros EI. by rewrite EI, andb_false_r in EM. }
  unfold mbind at 1 2 3. unfold gen_bind at 1 2 3. cbn. rewrite (ready_thumb _ _ Hr). cbn.
  destruct (words_ok nps W HW g Hw) as (insn & Hf & Hi & Hk).
  destruct (loop_step g V insn Hr Hf Hi Hk) as (g1 & V1 & E & Hpc1 & Hfin & Hready).
  rewrite (bind_seq _ _ _ _ _ _ E). unfold mbind at 1 2. unfold gen_bind at 1 2. cbn.
  destruct (_ && _ && _ && _) eqn:EC.
  2:{ eexists [_], g1, V1. split_and!; [reflexivity|done|done|done|cbn; lia]. }
  apply andb_prop in EC as [[[Ej%Z.eqb_eq El%Nat.leb_le]%andb_prop Epc%Z.ltb_lt]%andb_prop _].
  pose proof (u32_bound (dc_pc (dc g) + 4)) as Hb. unfold is_u32 in Hb. rewrite <- Hpc1 in Hb.
  destruct Hnps as [-> |Hnps]; [lia|].
  assert (dc_pc (dc g1) = dc_pc (dc g) + 4) as Hpc1'.
  { rewrite Hpc1. apply u32_small. unfold is_u32. lia. }
  destruct (IH (num + 1) max (starts ++ [(length (gen_opc_buf g), dc_pc (dc g),
      condexec_cond (dc g) << 4 .| condexec_mask (dc g) >> 1)]) g1 V1) as (l & g' & V' & El' & Hf' & Hpc' & _ & Hlen).
  { apply Hready; [done|]. unfold OPC_MAX_SIZE. lia. }
  { done. }
  { by apply (words_next nps W HW g V g1). }
  { right. lia. }
  { lia. }
  { lia. }
  rewrite El'. eexists (_ :: l), g', V'. split_and!; [|done| |done|cbn [length]; lia].
  - rewrite <- app_assoc. do 4 f_equal. cbn [length]. lia.
  - rewrite Hpc', Hpc1'. f_equal. cbn [length]. lia.
Qed.
(** ** A whole block *)
Lemma ready_start d : is_jmp d = DISAS_NEXT → condjmp d = false → dc_thumb d = 0 → condexec_mask d = 0 →
  condlabel d = 0%nat → ready (mkGctx [] 5 [] [] [] 0 d) [W32 0; W32 1; W64 2; W64 3; W64 4].
Proof.
  intros Hj Hc Ht Hm Hl. split; [|done..]. split; cbn -[held TEMPS]; rewrite ?Hj, ?Hl.
  - by apply (bool_decide_unpack _).
  - repeat constructor.
  - by apply Nat.leb_le.
  - intros []; by apply Nat.leb_le.
  - by apply Nat.leb_le.
  - by apply Nat.leb_le.
  - by apply Nat.leb_le.
  - done.
  - unfold TCG_MAX_LABELS. lia.
  - by left.
Qed.

Lemma translation_of_words W tb tb_pc tbflags cflags :
  is_u32 tb_pc → ARM_TBFLAG_THUMB tbflags = 0 → ARM_TBFLAG_CONDEXEC tbflags = 0 →
  words (u32 (page_of tb_pc + TARGET_PAGE_SIZE)) W →
  (let d := mkDisas tb_pc DISAS_NEXT false 0 0 0 tb tb_pc 0 (ARM_TBFLAG_PRIV tbflags =? 0) in
   W (mkGctx [] 5 [] [] [] 0 d)) →
  ∃ ops starts n,
    gen_intermediate_code env ldl_code disas_neon_data_insn disas_neon_ls_insn disas_iwmmxt_insn disas_coproc_insn
      disas_thumb_insn tb tb_pc tbflags cflags = Ok (ops, starts, 4 * Z.of_nat n, Z.of_nat n) ∧
    length starts = n ∧ (n ≤ 256)%nat ∧ (IS_M env = false → (0 < n)%nat) ∧
    (length ops < OPC_BUF_SIZE)%nat ∧ Forall valid_op ops.
Proof.
  intros Hpc Hth Hce HW Hw. unfold gen_intermediate_code. rewrite Hth, Hce. cbv zeta.
  set (d := mkDisas _ _ _ _ _ _ _ _ _ _). set (max := if _ =? 0 then _ else _).
  set (next := u32 (page_of tb_pc + TARGET_PAGE_SIZE)) in *.
  assert (next = 0 ∨ tb_pc < next ≤ 2 ^ 32 - 4 ∧ next - tb_pc ≤ 1024) as Hnext by by apply next_page_range.
  unfold is_u32 in Hpc.
  destruct (loop_safe next W (S (Z.to_nat TARGET_PAGE_SIZE)) HW 0 max [] (mkGctx [] 5 [] [] [] 0 d) [W32 0; W32 1; W64 2; W64 3; W64 4])
    as (l & g1 & V1 & E1 & [Hok1 Hc1] & Hpc1 & Hl & Hlen).
  { by apply ready_start. }
  { exact Hpc. }
  { exact Hw. }
  { cbn. lia. }
  { change (Z.of_nat (S (Z.to_nat TARGET_PAGE_SIZE))) with 1025. cbn. lia. }
  { lia. }
  cbn in Hpc1, Hlen. assert (length l ≤ 256)%nat as Hn by lia.
  destruct (block_end_safe g1 V1 Hok1 Hc1) as (g2 & E2 & Hpc2 & Hroom & Hv).
  match goal with |- context [(?t ≫= ?k) (mkGctx [] 0 [] [] [] 0 d)] =>
    assert ((t ≫= k) (mkGctx [] 0 [] [] [] 0 d) = Ok (Some (Z.of_nat (length l), l), g2)) as -> end.
  { transitivity ((loop (S (Z.to_nat TARGET_PAGE_SIZE)) 0 max next [] ≫= λ r, gen_block_end ≫= λ _, mret r)
      (mkGctx [] 5 [] [] [] 0 d)); [reflexivity|].
    unfold mbind, gen_bind. rewrite E1. unfold mbind at 1, res_bind at 1. by rewrite E2. }
  eexists (gen_opc_buf g2), l, (length l). split_and!; [|done|done| | |done].
  - cbn. rewrite Hpc2, Hpc1, u16_size by done. done.
  - intros HM. specialize (Hl HM). destruct l; [done|cbn; lia].
  - eapply Nat.le_lt_trans; [exact Hroom|]. by apply Nat.ltb_lt.
Qed.

Lemma translation_total tb tb_pc tbflags cflags :
  is_u32 tb_pc → ARM_TBFLAG_THUMB tbflags = 0 → ARM_TBFLAG_CONDEXEC tbflags = 0 →
  (∀ pc, pc = tb_pc ∨ tb_pc ≤ pc < u32 (page_of tb_pc + TARGET_PAGE_SIZE) → word_ok pc) →
  ∃ ops starts n,
    gen_intermediate_code env ldl_code disas_neon_data_insn disas_neon_ls_insn disas_iwmmxt_insn disas_coproc_insn
      disas_thumb_insn tb tb_pc tbflags cflags = Ok (ops, starts, 4 * Z.of_nat n, Z.of_nat n) ∧
    length starts = n ∧ (n ≤ 256)%nat ∧ (IS_M env = false → (0 < n)%nat) ∧
    (length ops < OPC_BUF_SIZE)%nat ∧ Forall valid_op ops.
Proof.
  intros Hpc Hth Hce Hw. set (next := u32 (page_of tb_pc + TARGET_PAGE_SIZE)) in *.
  apply (translation_of_words (λ g, dc_pc (dc g) = tb_pc ∨ tb_pc ≤ dc_pc (dc g) < next)); [done..| |by left].
  split; [intros g; apply Hw|]. intros g V g' Hg _ _ _ -> Hlt. right. lia.
Qed.

(** C6: A block of ARM instructions all of which [decodable] accepts is translated
    without a fault: every temporary is given back at most once, the table of
    [TCG_MAX_TEMPS] temporaries does not run out, no label is missing, no shift is
    undefined and no register is out of range. The operations and their end marker
    fit into the buffer, each refers to a label that exists, and the block has the
    size of its instructions.
    [decodable] leaves out the decoders that are not modelled (NEON, iWMMXt, VFP and
    coprocessor instructions) and the three encodings that the translator
    mishandles: a doubleword transfer or exclusive access whose first register is
    r15, an insertion of a bit field that ends before it starts, and a transfer of
    user registers that writes back r15, for which the statement fails
    ([block_overflows_buffer]). *)
Theorem translation_cannot_fail tb tb_pc tbflags cflags :
  is_u32 tb_pc → ARM_TBFLAG_THUMB tbflags = 0 → ARM_TBFLAG_CONDEXEC tbflags = 0 →
  (∀ pc, pc = tb_pc ∨ tb_pc ≤ pc < u32 (page_of tb_pc + TARGET_PAGE_SIZE) → word_ok pc) →
  ∃ ops starts n,
    gen_intermediate_code env ldl_code disas_neon_data_insn disas_neon_ls_insn disas_iwmmxt_insn disas_coproc_insn
      disas_thumb_insn tb tb_pc tbflags cflags = Ok (ops, starts, 4 * Z.of_nat n, Z.of_nat n) ∧
    length starts = n ∧ (n ≤ 256)%nat ∧ (IS_M env = false → (0 < n)%nat) ∧
    (length ops < OPC_BUF_SIZE)%nat ∧ Forall valid_op ops.
Proof. apply translation_total. Qed.
End specs.

Definition v6_cpu : CPUARMState :=
  add_features [ARM_FEATURE_V4T; ARM_FEATURE_V5; ARM_FEATURE_V6; ARM_FEATURE_V6K] demo_cpu.

(** ldreqex r3, [r4]; ldmib r2, {r4-r7, pc}^; smlalbb r0, r1, r2, r3; swi 0, over
    and over. *)
Definition demo_words : list Z := [0x01943f9f; 0xe9d280f0; 0xe1410382; 0xef000000].
Definition demo_memory (pc : Z) : res Z := Ok (nth (Z.to_nat (pc / 4 mod 4)) demo_words 0).
Definition no_coproc (insn : Z) : gen bool := mret true.
#[local] Abbreviation translate_demo code :=
  (gen_intermediate_code v6_cpu code no_coproc no_coproc no_coproc no_coproc illegal_op 0x7F0000 0x8000 64 0).
Lemma translation_cannot_fail_witness :
  (∀ pc, word_ok demo_memory pc) ∧
  ∃ ops starts n,
    gen_intermediate_code v6_cpu demo_memory no_coproc no_coproc no_coproc no_coproc illegal_op
      0x7F0000 0x8000 64 0 = Ok (ops, starts, 4 * Z.of_nat n, Z.of_nat n) ∧
    length starts = n ∧ (n ≤ 256)%nat ∧ (IS_M v6_cpu = false → (0 < n)%nat) ∧
    (length ops < OPC_BUF_SIZE)%nat ∧ Forall valid_op ops.
Proof.
  assert (∀ pc, word_ok demo_memory pc) as Hw.
  { intros pc. unfold word_ok, demo_memory. generalize (Z.to_nat (pc / 4 mod 4)); intros n.
    eexists. split; [reflexivity|]. do 4 (destruct n as [|n]; [vm_compute; by split_and!|]).
    destruct n; vm_compute; by split_and!. }
  split; [exact Hw|]. apply translation_cannot_fail.
  - unfold is_u32. lia.
  - reflexivity.
  - reflexivity.
  - intros pc _. apply Hw.
Defined.

(** Room for one instruction is too little for ldmdble r15!, {r0-r14}^: after
    1951 operations the next instruction is translated, and its 98 do not fit. *)
Definition crowded_memory (pc : Z) : res Z :=
  Ok (if pc <? 0x8050 then 0xd97e7fff else if pc <? 0x80e4 then 0xe1a00000 else 0xd97f7fff).
Example block_overflows_buffer :
  match translate_demo crowded_memory with Ok (ops, _, _, n) => (length ops, n) | _ => (0%nat, 0) end = (2049%nat, 58).
Proof. vm_compute. reflexivity. Qed.
