(* ===== verification/DisasArmBlock.v ===== *)
(** * Translated blocks compute what their instructions do

    A block of data-processing instructions and branches, each under its
    condition: the operations that [gen_intermediate_code] emits for it report
    every instruction to the tracer, have the effect that the architecture gives
    the instructions one after the other, and leave the block for the address
    that follows. *)
From S2P Require Import Prelude SoftTlb ArmCpu ArmMode ArmModeFacts ArmMmu GetPtes ArmAlu ArmAluFacts PhysMem PhysMemFacts SoftMmu SoftMmuFacts GuestOps.
From S2P Require Import Tcg TcgFacts TransArm TransArmFacts DisasArm DisasArmFacts TcgSafe DisasArmSafe.

(** ** Instructions *)
Definition is_branch (insn : Z) : bool := is_insn 0x0e000000 0x0a000000 insn.
(** The encodings of data processing leave out those of moves of wide
    immediates, status registers, multiplies and extra transfers. *)
Definition is_data_processing (insn : Z) : bool :=
  let extra := insn .& 0x90 =? 0x90 in
  negb (is_insn 0x0f900000 0x03000000 insn) && negb (is_insn 0x0f900000 0x01000000 insn && negb extra) &&
  (((insn .& 0x0e000000 =? 0) && negb extra) || is_insn 0x0e000000 (1 << 25) insn).
Definition covered (insn : Z) : bool :=
  (0 <=? insn) && (insn >> 28 <? 15) &&
  (is_branch insn || is_data_processing insn && negb (exception_return insn)).

(** Whether an instruction writes the program counter, or branches. *)
Definition writes_pc (insn : Z) : bool :=
  negb (only_flags ((insn >> 21) .& 15)) && (reg_at 12 insn =? 15)%nat.
Definition ends_block (insn : Z) : bool := is_branch insn || writes_pc insn.

Lemma branch_fields insn : is_branch insn = true →
  is_insn 0x0f900000 0x03000000 insn = false ∧ is_insn 0x0f900000 0x01000000 insn = false ∧
  (insn .& 0x0e000000 =? 0) = false ∧ is_insn 0x0e000000 (1 << 25) insn = false ∧
  ((insn >> 24) .& 15 = 10 ∨ (insn >> 24) .& 15 = 11).
Proof.
  unfold is_branch, is_insn. rewrite Z.eqb_eq. intros E.
  assert (∀ v, v .& 0x0e000000 ≠ 0x0a000000 → (insn .& 0x0f900000 =? v) = false) as Ev.
  { intros v Hv. apply Z.eqb_neq. intros Ei. apply Hv. by rewrite <- Ei, <- E, <- Z.land_assoc. }
  rewrite !Ev, E by done. split_and!; try done.
  assert (((insn >> 24) .& 15) .& 14 = 10) as Eb.
  { rewrite <- Z.land_assoc. change (15 .& 14) with (0x0e000000 >> 24). by rewrite <- Z.shiftr_land, E. }
  pose proof (field_bound 24 insn) as Hb. set (x := (insn >> 24) .& 15) in *. clearbody x.
  assert (∃ n, x = Z.of_nat n ∧ (n < 16)%nat) as (n & -> & Hn) by (exists (Z.to_nat x); lia).
  destruct n as [|[|[|[|[|[|[|[|[|[|[|[|[|[|[|[|n]]]]]]]]]]]]]]]]; try done; (by left) || (by right) || lia.
Qed.

(** ** What a block does *)

(** The 24-bit offset of a branch, in words. *)
Definition branch_dest (insn pc : Z) : Z := u32 (pc + 8 + 4 * sext 24 insn).
Definition link (insn pc : Z) (e : CPUARMState) : CPUARMState :=
  if Z.testbit insn 24 then set_reg 14 (u32 (pc + 4)) e else e.

(** After an instruction: the next one, another address, or the address in the
    program counter. *)
Inductive after_insn {D : Type} : Type :=
| Continues (σ : smmu D) | Jumps (dest : Z) (σ : smmu D) | WrotePc (σ : smmu D).

Section spec.
Context {D : Type} `{IoPorts D} `{TbCache}.
Context (linked : Z → bool) (v7 : bool) (code : Z → res Z) (tb tb_pc : Z).
Implicit Types σ : smmu D.

(** An instruction at [pc] whose condition holds. *)
Inductive insn_effect (pc insn : Z) σ : after_insn (D := D) → Prop :=
| effect_dp e : is_branch insn = false → dp_effect v7 insn (u32 (pc + 8)) (cpu σ) e →
    insn_effect pc insn σ (if writes_pc insn then WrotePc (with_cpu e σ) else Continues (with_cpu e σ))
| effect_branch : is_branch insn = true →
    insn_effect pc insn σ (Jumps (branch_dest insn pc) (with_cpu (link insn pc (cpu σ)) σ)).
Inductive insn_step (pc insn : Z) σ : after_insn → Prop :=
| step_passed a : ConditionHolds (insn >> 28) (nzcv (cpu σ)) = true → insn_effect pc insn σ a →
    insn_step pc insn σ a
| step_failed : ConditionHolds (insn >> 28) (nzcv (cpu σ)) = false → insn_step pc insn σ (Continues σ).

(** The block is left by its jump [n]: through the patched jump, or to the
    execution loop, which patches jumps within a page. *)
Definition goes_to (n dest : Z) σ : res (out D exit) :=
  if page_of tb_pc =? page_of dest then
    if linked n then Ok (Done (Followed n) σ)
    else Ok (Done (Left (tb + n)) (with_cpu (set_reg 15 dest (cpu σ)) σ))
  else Ok (Done (Left 0) (with_cpu (set_reg 15 dest (cpu σ)) σ)).

Definition traced (o : res (out D unit)) : res (out D exit) :=
  match o with
  | Ok (Done _ σ) => Ok (Done (Left 0) σ)
  | Ok (Raised x σ) => Ok (Raised x σ)
  | Ok (Quit σ) => Ok (Quit σ)
  | Err f => Err f
  end.

(** The [n] instructions from [pc] on. *)
Inductive block_run : nat → Z → smmu D → res (out D exit) → Prop :=
| run_end pc σ : block_run 0 pc σ (goes_to 1 pc σ)
| run_stopped n pc σ : (∀ σ', trace_pc pc σ ≠ Ok (Done tt σ')) → block_run (S n) pc σ (traced (trace_pc pc σ))
| run_next n pc insn σ σ1 σ2 r : code pc = Ok insn → trace_pc pc σ = Ok (Done tt σ1) →
    insn_step pc insn σ1 (Continues σ2) → block_run n (u32 (pc + 4)) σ2 r → block_run (S n) pc σ r
| run_jump n pc insn σ σ1 dest σ2 : code pc = Ok insn → trace_pc pc σ = Ok (Done tt σ1) →
    insn_step pc insn σ1 (Jumps dest σ2) → block_run (S n) pc σ (goes_to 0 dest σ2)
| run_wrote_pc n pc insn σ σ1 σ2 : code pc = Ok insn → trace_pc pc σ = Ok (Done tt σ1) →
    insn_step pc insn σ1 (WrotePc σ2) → block_run (S n) pc σ (Ok (Done (Left 0) σ2)).
End spec.

(** The instructions from [pc] up to the end of a block are among the ones
    above. *)
Fixpoint code_ok (code : Z → res Z) (next_page_start : Z) (n : nat) (pc : Z) : bool :=
  match n with
  | O => true
  | S n =>
      match code pc with
      | Ok insn =>
          covered insn &&
          (ends_block insn || negb (u32 (pc + 4) <? next_page_start) || code_ok code next_page_start n (u32 (pc + 4)))
      | Err _ => false
      end
  end.

(** ** Facts about the architecture's definitions *)
Lemma condition_inverse cond f : 0 ≤ cond < 14 → ConditionHolds (cond .^ 1) f = negb (ConditionHolds cond f).
Proof.
  intros Hc. destruct f as [[[n z] c] v].
  assert (∃ k, cond = Z.of_nat k ∧ (k < 14)%nat) as (k & -> & Hk) by (exists (Z.to_nat cond); lia).
  destruct k as [|[|[|[|[|[|[|[|[|[|[|[|[|[|k]]]]]]]]]]]]]]; [..|lia]; by destruct n, z, c, v.
Qed.
Lemma dp_result_u32 op rn m c f : is_u32 rn → is_u32 m → is_u32 (dp_result op rn m c f).1.
Proof.
  intros Hrn Hm. destruct f as [[[? ?] carry] v]. pose proof (NOT_u32 m Hm).
  assert (∀ x y b g, is_u32 (let '(r, c, v) := AddWithCarry x y b in (r, g r c v) : Z * flags).1) as Ha.
  { intros x y ci g. pose proof (awc_u32 x y ci). by destruct (AddWithCarry x y ci) as [[? ?] ?]. }
  destruct op as [|p|p]; cbn -[AddWithCarry NOT]; [by apply is_u32_land| |by apply NOT_u32].
  do 4 (try destruct p as [p|p|]); cbn -[AddWithCarry NOT];
    first [done|by apply (Ha _ _ _ (λ r c v, (Z.testbit r 31, r =? 0, c, v)))|by apply is_u32_land|by apply is_u32_lxor|by apply is_u32_lor].
Qed.
Lemma shifter_operand_u32 insn pc8 e : alu_wf e → is_u32 pc8 → is_u32 (shifter_operand insn pc8 e).1.
Proof.
  intros He Hpc. unfold shifter_operand.
  assert (∀ r, (r < 16)%nat → is_u32 (reg_read pc8 e r)) as Hr.
  { intros r Hr. unfold reg_read. destruct (r =? 15)%nat; [done|by apply reg_some]. }
  destruct (Z.testbit insn 25).
  - destruct (rotated_imm_spec insn (truth (CF e))) as (-> & _ & ?). done.
  - destruct (Z.testbit insn 4).
    + by apply shift_reg_u32, Hr, reg_at_bound.
    + apply shift_imm_u32; [by apply Hr, reg_at_bound|]. pose proof (land31_bound (insn >> 7)). lia.
Qed.
Lemma alu_wf_nzcv e e1 : alu_wf e → only_nzcv e e1 → alu_wf e1.
Proof. intros [Hl Hw Hc] [E1 E2]. rewrite E1. split; [done|done|]. by rewrite <- E1. Qed.
Lemma alu_wf_put v7 r x e : alu_wf e → is_u32 x → alu_wf (put_reg_bx v7 r x e).
Proof.
  intros He Hx. unfold put_reg_bx, put_reg.
  assert (is_u32 (x .& 0xfffffffe)) by by apply is_u32_land.
  destruct ((r =? 15)%nat && v7); [|destruct (r =? 15)%nat; by apply alu_wf_set_reg].
  pose proof (alu_wf_set_reg e 15 _ He H) as [? ? ?]. by split.
Qed.
Lemma dp_effect_wf v7 insn pc8 e e' : alu_wf e → is_u32 pc8 → dp_effect v7 insn pc8 e e' → alu_wf e'.
Proof.
  intros He Hpc. unfold dp_effect. pose proof (shifter_operand_u32 insn pc8 e He Hpc) as Hm.
  destruct (shifter_operand insn pc8 e) as [m c]. cbn in Hm.
  assert (is_u32 (reg_read pc8 e (reg_at 16 insn))) as Hn.
  { unfold reg_read. destruct (_ =? 15)%nat; [done|]. by apply reg_some, reg_at_bound. }
  pose proof (dp_result_u32 ((insn >> 21) .& 15) _ m c (nzcv e) Hn Hm) as Hr.
  destruct (dp_result _ _ _ _ _) as [r f]. cbn in Hr. intros (e1 & Ho & _ & ->).
  pose proof (alu_wf_nzcv e e1 He Ho). destruct (only_flags _); [done|]. by apply alu_wf_put.
Qed.
Lemma branch_offset_sext insn : branch_offset insn = sext 24 insn.
Proof.
  unfold branch_offset, s32, sext. rewrite Z.shiftl_mul_pow2, Z.shiftr_div_pow2 by lia.
  change (2 ^ 32) with (2 ^ 24 * 2 ^ 8). rewrite Z.mul_mod_distr_r by lia.
  set (x := insn mod 2 ^ 24). replace (x * 2 ^ 8 <? 2 ^ (32 - 1)) with (x <? 2 ^ (24 - 1)).
  - destruct (x <? _); [by apply Z.div_mul|].
    replace (x * 2 ^ 8 - 2 ^ 24 * 2 ^ 8) with ((x - 2 ^ 24) * 2 ^ 8) by lia. by apply Z.div_mul.
  - change (2 ^ (32 - 1)) with (2 ^ (24 - 1) * 2 ^ 8).
    destruct (Z.ltb_spec x (2 ^ (24 - 1))), (Z.ltb_spec (x * 2 ^ 8) (2 ^ (24 - 1) * 2 ^ 8)); lia.
Qed.
Lemma branch_dest_eq insn pc : u32 (u32 (pc + 4) + ((branch_offset insn << 2) + 4)) = branch_dest insn pc.
Proof.
  unfold branch_dest, u32. rewrite branch_offset_sext, Z.shiftl_mul_pow2, Z.add_mod_idemp_l by lia. f_equal. lia.
Qed.
Lemma link_wf insn pc e : alu_wf e → alu_wf (link insn pc e).
Proof. intros He. unfold link. destruct (Z.testbit insn 24); [|done]. apply alu_wf_set_reg; [done|apply u32_bound]. Qed.
Lemma trace_pc_cpu {D : Type} `{IoPorts D} `{TbCache} pc (σ σ' : smmu D) :
  trace_pc pc σ = Ok (Done tt σ') → cpu σ' = cpu σ.
Proof.
  unfold trace_pc. destruct (qemu_trace_pc_helper _ _ _ _) as [[a t|t]|f]; [|done..]. by intros [= <-].
Qed.
Lemma trace_pc_raises {D : Type} `{IoPorts D} `{TbCache} pc (σ : smmu D) x σ' : trace_pc pc σ ≠ Ok (Raised x σ').
Proof. unfold trace_pc. by destruct (qemu_trace_pc_helper _ _ _ _) as [[a t|t]|f]. Qed.

(** The decoder on the instructions covered. *)
Lemma covered_dp insn : is_branch insn = false → covered insn = true →
  is_data_processing insn = true ∧ exception_return insn = false.
Proof. unfold covered. intros ->. rewrite orb_false_l, !andb_true_iff, negb_true_iff. tauto. Qed.

(** ** Rules for the rest of the generators *)

(** Once the block has been left what is emitted has no effect. *)
Lemma wp_after_gone {D : Type} `{IoPorts D} `{TbCache} fuel retaddr linked lb {A} (m : gen A) Q Q' (s : ast (D := D)) r σ' :
  wp fuel retaddr linked lb m Q s →
  (∀ a s', Q a s' → Q' a (mkAst (a_vals s') (a_dc s') (a_nl s') (Some (Gone r)) σ')) →
  wp fuel retaddr linked lb m Q' (mkAst (a_vals s) (a_dc s) (a_nl s) (Some (Gone r)) σ').
Proof.
  intros Hm HQ g Hg. destruct (Hm g) as [E|(a & g' & os & s' & E & B & K & F & R & Ha)]; [by destruct Hg|by left|right].
  exists a, g', os, (mkAst (a_vals s') (a_dc s') (a_nl s') (Some (Gone r)) σ'). split_and!; [done|done| |done| |by apply HQ].
  - by destruct K.
  - by intros ts _.
Qed.

Section generators.
Context {D : Type} `{IoPorts D} `{TbCache}.
Context (fuel : nat) (retaddr : Z) (linked : Z → bool) (lb : nat).
#[local] Abbreviation wp := (wp fuel retaddr linked lb).
Implicit Types (s : ast (D := D)) (σ : smmu D).

Lemma wp_trace pc Q s : a_sk s = None →
  match trace_pc pc (a_σ s) with
  | Ok (Done _ σ') => Q tt (with_σ σ' s)
  | o => Q tt (stop (traced o) s)
  end → wp (tcg_gen_qemu_trace_pc pc) Q s.
Proof.
  intros Hsk HQ. destruct (trace_pc pc (a_σ s)) as [[[] σ'|x σ'|σ']|f] eqn:E.
  - by apply (wp_trace_pc _ _ _ _ _ σ').
  - by apply trace_pc_raises in E.
  - revert HQ. apply wp_stop; [done|]. intros ts _. unfold run_from. rewrite Hsk. cbn. unfold sm_bind. by rewrite E.
  - revert HQ. apply wp_stop; [done|]. intros ts _. unfold run_from. rewrite Hsk. cbn. unfold sm_bind. by rewrite E.
Qed.
Lemma wp_or_illegal m h Q s : wp m Q s → wp (or_illegal m h) Q s.
Proof.
  intros Hm g Hg. unfold or_illegal. destruct (Hm g Hg) as [->|([] & g' & os & s' & E & R)]; [by left|right].
  rewrite E. by exists tt, g', os, s'.
Qed.
Lemma wp_fetch code pc insn Q s : code pc = Ok insn → Q insn s → wp (fetch code pc) Q s.
Proof.
  intros E HQ g Hg. right. exists insn, g, [], s. unfold fetch. rewrite E, app_nil_r.
  split_and!; [done..|by intros l ?%elem_of_nil|apply runs_nil|done].
Qed.
Lemma wp_ops_emitted Q s : (∀ n, Q n s) → wp ops_emitted Q s.
Proof.
  intros HQ g Hg. right. exists (length (gen_opc_buf g)), g, [], s. unfold ops_emitted. rewrite app_nil_r.
  split_and!; [done..|by intros l ?%elem_of_nil|apply runs_nil|done].
Qed.
Lemma wp_condlabel Q s :
  (if condjmp (a_dc s) && (is_jmp (a_dc s) =? DISAS_NEXT)
   then wp (gen_set_label (condlabel (a_dc s));; on_dc (λ d, d <| condjmp := false |>)) Q s else Q tt s) →
  wp set_condlabel_here Q s.
Proof.
  intros HQ g Hg. unfold set_condlabel_here. rewrite (ok_dc g s Hg).
  destruct (condjmp (a_dc s) && _); [by apply HQ|by apply wp_ret].
Qed.
End generators.

(** ** Leaving a block *)
Section block.
Context {D : Type} `{IoPorts D} `{TbCache}.
Context (fuel : nat) (retaddr : Z) (linked : Z → bool) (env : CPUARMState) (code : Z → res Z).
Context (disas_neon_data_insn disas_neon_ls_insn disas_iwmmxt_insn disas_coproc_insn : Z → gen bool).
Context (disas_thumb_insn : gen unit) (tb tb_pc : Z).
#[local] Abbreviation goes_to := (goes_to linked tb tb_pc).
#[local] Abbreviation v7 := (ENABLE_ARCH_7 env).
Implicit Types (s : ast (D := D)) (σ : smmu D) (d : DisasContext).

(** The translator of this block, in the middle of ARM code. *)
Record translating d : Prop := {
  tr_thumb : dc_thumb d = 0;
  tr_mask : condexec_mask d = 0;
  tr_tb : dc_tb d = tb;
  tr_tb_pc : dc_tb_pc d = tb_pc
}.

Section rules.
Context (lb : nat).
#[local] Abbreviation wp := (wp fuel retaddr linked lb).

Lemma wp_set_pc x Q s : a_sk s = None → is_u32 x → Q tt (with_env (set_reg 15 x (a_env s)) s) →
  wp (gen_set_pc_im x) Q s.
Proof. intros Hsk Hx HQ. apply wp_movi; [done|cbn; lia|]. by rewrite u32_s32, u32_small. Qed.
Lemma wp_goto n dest Q s : a_sk s = None → translating (a_dc s) → is_u32 dest →
  (∀ s', a_sk s' = Some (Gone (goes_to n dest (a_σ s))) → a_dc s' = a_dc s → a_nl s' = a_nl s → Q tt s') →
  wp (gen_goto_tb n dest) Q s.
Proof.
  intros Hsk [_ _ Htb Hpc] Hd HQ. unfold gen_goto_tb, DisasArmBlock.goes_to in *.
  apply wp_bind, wp_get_dc, wp_bind, wp_get_dc. rewrite Htb, Hpc.
  destruct (page_of tb_pc =? page_of dest).
  - apply wp_bind, wp_goto_tb; [done|]. destruct (linked n).
    + apply wp_bind, (wp_gone _ _ _ _ _ (Ok (Done (Followed n) (a_σ s)))); [done..|].
      apply (wp_gone _ _ _ _ _ (Ok (Done (Followed n) (a_σ s)))); [done..|]. by apply HQ.
    + apply wp_bind, wp_set_pc; [done..|]. apply wp_exit_tb; [done|]. by apply HQ.
  - apply wp_bind, wp_set_pc; [done..|]. apply wp_exit_tb; [done|]. by apply HQ.
Qed.

(** ** An instruction whose condition holds *)
Definition jmp_of (insn : Z) (j : Z) : Z :=
  if is_branch insn then DISAS_TB_JUMP
  else if writes_pc insn then (if v7 then DISAS_UPDATE else DISAS_JUMP) else j.
Definition went (a : after_insn) s : Prop :=
  match a with
  | Continues σ | WrotePc σ => a_sk s = None ∧ a_σ s = σ
  | Jumps dest σ => a_sk s = Some (Gone (goes_to 0 dest σ))
  end.

Lemma dp_jumps_eq insn d : is_branch insn = false → dp_jumps v7 insn d = d <| is_jmp := jmp_of insn (is_jmp d) |>.
Proof.
  unfold dp_jumps, jmp_of, writes_pc, jumps_bx, jumps. intros ->.
  destruct (only_flags _), (reg_at 12 insn =? 15)%nat, v7; by destruct d.
Qed.

Definition decode (insn : Z) : gen unit :=
  if is_insn 0x0f900000 0x03000000 insn then disas_mov16 env insn
  else if is_insn 0x0f900000 0x01000000 insn && negb (insn .& 0x90 =? 0x90) then disas_misc env insn
  else if ((insn .& 0x0e000000 =? 0) && negb (insn .& 0x90 =? 0x90)) || is_insn 0x0e000000 (1 << 25) insn
  then disas_data_processing env insn
  else disas_other env disas_coproc_insn insn.
Lemma decode_dp insn : is_data_processing insn = true → decode insn = disas_data_processing env insn.
Proof.
  unfold is_data_processing, decode. rewrite !andb_true_iff, !negb_true_iff. intros [[-> ->] ->]. done.
Qed.
Lemma decode_branch insn : is_branch insn = true → decode insn = disas_branch insn.
Proof.
  intros Hb. destruct (branch_fields insn Hb) as (E1 & E2 & E3 & E4 & E5). unfold decode. rewrite E1, E2, E3, E4.
  unfold disas_other. by destruct E5 as [-> | ->].
Qed.

Lemma St_id (V : gmap nat (option Z)) d nl σ : mkAst V d nl None σ = St σ V d nl (cpu σ).
Proof. unfold St. by destruct σ. Qed.
Lemma wp_link insn pc Q V d nl σ : alu_wf (cpu σ) → translating d → dc_pc d = u32 (pc + 4) →
  Q tt (St σ V d nl (link insn pc (cpu σ))) →
  wp (when (has_bit 24 insn) (tmp ← tcg_temp_new_i32; tcg_gen_movi_i32 tmp (dc_pc d);; store_reg 14 tmp)) Q
    (mkAst V d nl None σ).
Proof.
  intros He Htr Hpc HQ. rewrite St_id. unfold has_bit, link in *. destruct (Z.testbit insn 24); [|by apply wp_ret].
  apply wp_bind, st_new. intros t Ht. apply wp_bind, wp_movi; [done|vals|].
  rewrite u32_s32, Hpc, (u32_small (u32 _)) by apply u32_bound.
  apply (st_store_reg _ _ _ _ _ 14 t (u32 (pc + 4))); [lia|vals|apply u32_bound|].
  cbn. same_vals HQ.
Qed.
Lemma wp_decode pc insn Q s : a_sk s = None → covered insn = true → translating (a_dc s) →
  dc_pc (a_dc s) = u32 (pc + 4) → alu_wf (cpu (a_σ s)) →
  (∀ a s', insn_effect v7 pc insn (a_σ s) a → went a s' →
     a_dc s' = a_dc s <| is_jmp := jmp_of insn (is_jmp (a_dc s)) |> → a_nl s' = a_nl s → Q tt s') →
  wp (decode insn) Q s.
Proof.
  intros Hsk Hc Htr Hpc He HQ. destruct s as [V d nl sk σ]. cbn in Hsk, Htr, Hpc, He, HQ. subst sk.
  destruct (is_branch insn) eqn:Hb.
  - rewrite decode_branch by done. apply wp_bind, wp_get_dc, wp_bind, (wp_link insn pc); [done..|].
    cbn [a_dc]. rewrite Hpc, branch_dest_eq.
    apply wp_bind, wp_goto; [done|done|apply u32_bound|]. intros s' Es Ed En. apply wp_set_jmp.
    eapply HQ; [by apply effect_branch|exact Es|unfold jmp_of; cbn; by rewrite Ed, Hb|done].
  - destruct (covered_dp insn Hb Hc) as [Hdp Hret]. rewrite decode_dp by done.
    rewrite St_id. apply st_data_processing; [done|apply Htr|done|].
    intros e' He'. rewrite dp_jumps_eq by done.
    replace (reads_pc d) with (u32 (pc + 8)) in He'.
    2:{ unfold reads_pc, u32. rewrite Hpc. unfold u32. rewrite Z.add_mod_idemp_l by lia. f_equal. lia. }
    eapply HQ; [by apply (effect_dp _ _ _ _ e')| |done..]. by destruct (writes_pc insn).
Qed.
End rules.

(** ** An instruction under its condition *)

(** The instruction is done, or skipped on the way to the label at its end. *)
Inductive insn_post (pc insn : Z) σ (nl : nat) s' : Prop :=
| post_done a : ConditionHolds (insn >> 28) (nzcv (cpu σ)) = true → insn_effect v7 pc insn σ a → went a s' →
    insn_post pc insn σ nl s'
| post_skipped : ConditionHolds (insn >> 28) (nzcv (cpu σ)) = false → (insn >> 28 =? 14) = false →
    a_sk s' = Some (Skip nl) → a_σ s' = σ → insn_post pc insn σ nl s'.
Definition cond_dc (insn : Z) (nl : nat) d : DisasContext :=
  if insn >> 28 =? 14 then d else d <| condlabel := nl |> <| condjmp := true |>.

Lemma covered_cond insn : covered insn = true → 0 ≤ insn >> 28 < 15.
Proof.
  unfold covered. rewrite !andb_true_iff, Z.leb_le, Z.ltb_lt. intros [[? ?] _].
  split; [by apply Z.shiftr_nonneg|done].
Qed.

Lemma xor1_bound c : 0 ≤ c < 14 → 0 ≤ c .^ 1 < 14.
Proof.
  intros Hc. assert (∃ k, c = Z.of_nat k ∧ (k < 14)%nat) as (k & -> & Hk) by (exists (Z.to_nat c); lia).
  destruct k as [|[|[|[|[|[|[|[|[|[|[|[|[|[|k]]]]]]]]]]]]]]; [..|lia]; by cbn.
Qed.
Lemma with_cpu_self σ : with_cpu (cpu σ) σ = σ.
Proof. by destruct σ. Qed.
Lemma wp_cond lb pc insn Q s : a_sk s = None → covered insn = true → translating (a_dc s) →
  dc_pc (a_dc s) = u32 (pc + 4) → alu_wf (cpu (a_σ s)) → (lb ≤ a_nl s)%nat → (S (a_nl s) < TCG_MAX_LABELS)%nat →
  (∀ s', insn_post pc insn (a_σ s) (a_nl s) s' → a_dc s' = cond_dc insn (a_nl s) (a_dc s) <| is_jmp := jmp_of insn (is_jmp (a_dc s)) |> →
     (a_nl s ≤ a_nl s' ≤ 2 + a_nl s)%nat → Q tt s') →
  wp fuel retaddr linked lb (disas_cond env disas_coproc_insn insn) Q s.
Proof.
  intros Hsk Hc Htr Hpc He Hlb Hnl HQ. pose proof (covered_cond insn Hc) as Hcond.
  destruct s as [V d nl sk σ]. cbn in *. subst sk. unfold disas_cond, cond_dc in *. cbv zeta.
  fold (decode insn). apply wp_bind. destruct (Z.eqb_spec (insn >> 28) 14) as [E|E]; cbn [negb when].
  - apply wp_ret. apply (wp_decode lb pc); [done..|]. intros a s' Ha Hw Hd Hn. apply HQ; [|done|cbn in Hn; lia].
    apply (post_done _ _ _ _ _ a); [by rewrite E|done..].
  - apply wp_bind, wp_new_label; [cbn; lia|]. apply wp_bind, wp_map_dc, wp_bind. cbn.
    change (with_dc ?d' ?x) with (mkAst (a_vals x) d' (a_nl x) (a_sk x) (a_σ x)). cbn. rewrite St_id.
    set (d1 := d <| condlabel := nl |>).
    apply sk_test_cc; [by apply xor1_bound; lia|lia..|]. intros nl' Hnl'. rewrite condition_inverse by lia.
    apply wp_map_dc. unfold with_dc, Sk. cbn [a_vals a_dc a_nl a_sk a_σ]. rewrite with_cpu_self.
    assert (∀ Q', (∀ a s', insn_effect v7 pc insn σ a → went a s' →
       a_dc s' = d1 <| condjmp := true |> <| is_jmp := jmp_of insn (is_jmp d) |> → a_nl s' = nl' → Q' tt s') →
       ∀ lb', wp fuel retaddr linked lb' (decode insn) Q'
         (mkAst (forget V) (d1 <| condjmp := true |>) nl' None σ)) as Hdec.
    { intros Q' HQ' lb'. apply (wp_decode lb' pc); try done. by destruct Htr. }
    destruct (ConditionHolds (insn >> 28) (nzcv (cpu σ))) eqn:Eh; cbn [negb].
    + apply Hdec. intros a s' Ha Hw Hd Hn.
      apply HQ; [|done|lia]. by apply (post_done _ _ _ _ _ a).
    + eapply (wp_skip _ _ _ lb (lb `max` S nl) _ (λ _ s', a_dc s' = _ ∧ a_nl s' = nl')); [done|cbn; lia|lia| |].
      * apply Hdec. intros a s' Ha Hw Hd Hn. by split.
      * intros [] s' [Hd Hn]. apply HQ; [by apply post_skipped; [|apply Z.eqb_neq|..]|exact Hd|cbn; lia].
Qed.

(** ** An instruction of a block *)
Context (Hm : IS_M env = false).
#[local] Abbreviation disas_arm_insn := (disas_arm_insn env code disas_neon_data_insn disas_neon_ls_insn disas_iwmmxt_insn disas_coproc_insn).
#[local] Abbreviation gen_loop := (gen_loop env code disas_neon_data_insn disas_neon_ls_insn disas_iwmmxt_insn disas_coproc_insn disas_thumb_insn).

(** At the start of an instruction at [pc]. *)
Record starts_at d (pc : Z) : Prop := {
  st_translating : translating d;
  st_pc : dc_pc d = pc;
  st_next : is_jmp d = DISAS_NEXT;
  st_uncond : condjmp d = false
}.
(** After the last one. *)
Record ended_at d (pc insn : Z) (nl : nat) : Prop := {
  ended_translating : translating d;
  ended_pc : dc_pc d = pc;
  ended_jmp : is_jmp d = jmp_of insn DISAS_NEXT;
  ended_cond : condjmp d = negb (insn >> 28 =? 14);
  ended_label : condjmp d = true → condlabel d = nl
}.

(** What was reported stands before the effect of the instruction. *)
Definition after_trace (pc : Z) σ (P : smmu D → Prop) s' : Prop :=
  match trace_pc pc σ with
  | Ok (Done _ σ1) => cpu σ1 = cpu σ ∧ P σ1
  | o => a_sk s' = Some (Gone (traced o))
  end.

Lemma body_covered insn : covered insn = true →
  disas_arm_body env disas_neon_data_insn disas_neon_ls_insn disas_iwmmxt_insn disas_coproc_insn insn = disas_cond env disas_coproc_insn insn.
Proof.
  intros Hc. pose proof (covered_cond insn Hc). unfold disas_arm_body. rewrite Hm.
  by rewrite (proj2 (Z.eqb_neq (insn >> 28) 15)) by lia.
Qed.

(** What follows the report. *)
#[local] Abbreviation insn_rest pc insn := (on_dc (λ d, d <| dc_pc := u32 (pc + 4) |>);;
  or_illegal (disas_arm_body env disas_neon_data_insn disas_neon_ls_insn disas_iwmmxt_insn disas_coproc_insn insn)
    (gen_exception_insn 4 EXCP_UDEF)).
Definition dc_after (pc insn : Z) (nl : nat) d : DisasContext :=
  cond_dc insn nl (d <| dc_pc := u32 (pc + 4) |>) <| is_jmp := jmp_of insn DISAS_NEXT |>.

Section insn.
Context (lb : nat) (pc insn : Z) (d : DisasContext) (nl : nat).
Context (Hd : starts_at d pc) (Hc : covered insn = true) (Hlb : (lb ≤ nl)%nat) (Hnl : (S nl < TCG_MAX_LABELS)%nat).
#[local] Abbreviation wp := (wp fuel retaddr linked lb).

Lemma wp_insn_rest σ Q V : alu_wf (cpu σ) →
  (∀ s', insn_post pc insn σ nl s' → a_dc s' = dc_after pc insn nl d → (nl ≤ a_nl s' ≤ 2 + nl)%nat → Q tt s') →
  wp (insn_rest pc insn) Q (mkAst V d nl None σ).
Proof.
  intros He HQ. apply wp_bind, wp_map_dc, wp_or_illegal. rewrite body_covered by done. destruct Hd as [Htr Hpc Hnext _].
  apply (wp_cond lb pc); try done; [by destruct Htr|]. intros s' Hp Hd' Hn. apply HQ; [done| |done].
  rewrite Hd'. unfold dc_after. cbn. by rewrite Hnext.
Qed.
Lemma wp_insn_rest_gone r σ σ' Q V : alu_wf (cpu σ) →
  (∀ s', a_sk s' = Some (Gone r) → a_dc s' = dc_after pc insn nl d → (nl ≤ a_nl s' ≤ 2 + nl)%nat → Q tt s') →
  wp (insn_rest pc insn) Q (mkAst V d nl (Some (Gone r)) σ').
Proof.
  intros He HQ. apply (wp_after_gone _ _ _ _ _ (λ _ s', a_dc s' = dc_after pc insn nl d ∧ (nl ≤ a_nl s' ≤ 2 + nl)%nat)
    _ (mkAst V d nl None σ)).
  - by apply wp_insn_rest.
  - intros [] s' [??]. by apply HQ.
Qed.
Lemma wp_arm_insn σ Q V : code pc = Ok insn → alu_wf (cpu σ) →
  (∀ s', after_trace pc σ (λ σ1, insn_post pc insn σ1 nl s') s' → a_dc s' = dc_after pc insn nl d →
     (nl ≤ a_nl s' ≤ 2 + nl)%nat → Q tt s') →
  wp disas_arm_insn Q (mkAst V d nl None σ).
Proof.
  intros Hcode He HQ. apply wp_bind, wp_get_dc. cbn [a_dc]. rewrite (st_pc d pc Hd).
  apply wp_bind, (wp_fetch _ _ _ _ _ _ insn); [done|].
  apply wp_bind, wp_trace; [done|]. cbn [a_σ]. unfold after_trace in HQ.
  destruct (trace_pc pc σ) as [[[] σ1|x σ1|σ1]|f] eqn:Et;
    try (apply (wp_insn_rest_gone _ σ); [done|intros s' Hsk; by apply HQ]).
  pose proof (trace_pc_cpu pc σ σ1 Et) as Ec. apply wp_insn_rest; [by rewrite Ec|].
  intros s' Hp Hd' Hn. by apply HQ.
Qed.

Lemma after_trace_mono σ (P P' : smmu D → Prop) s s' : (∀ r, a_sk s = Some (Gone r) → a_sk s' = Some (Gone r)) →
  (∀ σ1, P σ1 → P' σ1) → after_trace pc σ P s → after_trace pc σ P' s'.
Proof. unfold after_trace. intros Hg HP. destruct (trace_pc pc σ) as [[| |]|]; [|by apply Hg..]. intros [??]. auto. Qed.
Lemma effect_continues σ a : is_branch insn = false → writes_pc insn = false → insn_effect v7 pc insn σ a →
  ∃ σ2, a = Continues σ2.
Proof. intros Hb Hw [e|]; [|congruence]. rewrite Hw. by eexists. Qed.

(** With the label of the condition, where the block goes on. *)
Lemma wp_step_next σ Q V : code pc = Ok insn → alu_wf (cpu σ) → ends_block insn = false →
  (∀ s', after_trace pc σ (λ σ1, ∃ σ2, insn_step v7 pc insn σ1 (Continues σ2) ∧ a_sk s' = None ∧ a_σ s' = σ2) s' →
     starts_at (a_dc s') (u32 (pc + 4)) → (nl ≤ a_nl s' ≤ 2 + nl)%nat → Q tt s') →
  wp disas_arm_insn (λ _, wp set_condlabel_here Q) (mkAst V d nl None σ).
Proof.
  intros Hcode He Hend HQ. apply (wp_arm_insn σ); [done..|]. intros s' Ht Hd' Hn. apply wp_condlabel. rewrite Hd'.
  destruct Hd as [Htr Hpc Hnext Hun]. unfold ends_block in Hend. apply orb_false_iff in Hend as [Hb Hw].
  unfold dc_after, cond_dc, jmp_of in *. rewrite Hb, Hw in *.
  destruct (insn >> 28 =? 14) eqn:Hal.
  - cbn -[Z.eqb]. rewrite Hun. cbn [andb]. apply HQ; [|rewrite Hd'; by destruct Htr|done].
    revert Ht. apply after_trace_mono; [done|]. intros σ1 [a Hh Ha Hw'|_ ? ? ?]; [|congruence].
    destruct (effect_continues _ _ Hb Hw Ha) as [σ2 ->]. exists σ2. split; [by apply step_passed|done].
  - cbn -[Z.eqb]. change (DISAS_NEXT =? DISAS_NEXT) with true. cbn [andb]. apply wp_bind, wp_set_label; [done|].
    apply wp_map_dc. unfold branch_to, with_dc. cbn [a_vals a_dc a_nl a_sk a_σ]. rewrite Hd'.
    apply HQ; [|by destruct Htr|done].
    revert Ht. apply after_trace_mono; [cbn; by intros r ->|]. cbn. intros σ1 [a Hh Ha Hw'|Hf _ Hsk Hσ].
    + destruct (effect_continues _ _ Hb Hw Ha) as [σ2 ->]. exists σ2. destruct Hw' as [-> ->].
      split; [by apply step_passed|done].
    + exists σ1. rewrite Hsk, Nat.eqb_refl. split_and!; [by apply step_failed|done..].
Qed.
Lemma wp_step_last σ Q V : code pc = Ok insn → alu_wf (cpu σ) → ends_block insn = true →
  (∀ s', after_trace pc σ (λ σ1, insn_post pc insn σ1 nl s') s' → ended_at (a_dc s') (u32 (pc + 4)) insn nl →
     (nl ≤ a_nl s' ≤ 2 + nl)%nat → Q tt s') →
  wp disas_arm_insn (λ _, wp set_condlabel_here Q) (mkAst V d nl None σ).
Proof.
  intros Hcode He Hend HQ. apply (wp_arm_insn σ); [done..|]. intros s' Ht Hd' Hn. apply wp_condlabel. rewrite Hd'.
  assert ((is_jmp (dc_after pc insn nl d) =? DISAS_NEXT) = false) as ->.
  { unfold dc_after, jmp_of, ends_block in *. cbn -[Z.eqb]. destruct (is_branch insn); [done|]. cbn in Hend.
    rewrite Hend. by destruct v7. }
  rewrite andb_false_r. apply HQ; [done| |done]. rewrite Hd'.
  destruct Hd as [[] Hpc Hnext Hun]. unfold dc_after, cond_dc. destruct (insn >> 28 =? 14) eqn:Hal; split; cbn; try done.
  - by rewrite Hal.
  - by rewrite Hun.
  - by rewrite Hal.
Qed.
End insn.

(** ** The end of a block *)
Section block_end.
Context (lb : nat).
#[local] Abbreviation wp := (wp fuel retaddr linked lb).

Lemma wp_condexec Q s : translating (a_dc s) → Q tt s → wp gen_set_condexec Q s.
Proof.
  intros [_ Hmask _ _] HQ. apply wp_bind, wp_get_dc, wp_bind, wp_get_dc. rewrite Hmask. by apply wp_ret.
Qed.
Definition end_label d : gen unit :=
  when (condjmp d) (gen_set_label (condlabel d);; gen_set_condexec;; gen_goto_tb 1 (dc_pc d)).
Lemma wp_end_label Q s : translating (a_dc s) → is_u32 (dc_pc (a_dc s)) → condjmp (a_dc s) = true →
  (lb ≤ condlabel (a_dc s))%nat → a_sk s = None ∨ a_sk s = Some (Skip (condlabel (a_dc s))) →
  (∀ s', a_sk s' = Some (Gone (goes_to 1 (dc_pc (a_dc s)) (a_σ s))) → a_dc s' = a_dc s → Q tt s') →
  wp (end_label (a_dc s)) Q s.
Proof.
  intros Htr Hpc Hc Hl Hsk HQ. unfold end_label. rewrite Hc. apply wp_bind, wp_set_label; [done|].
  apply wp_bind, wp_condexec; [done|]. apply wp_goto; [|done..|].
  - cbn. destruct Hsk as [-> | ->]; [done|]. by rewrite Nat.eqb_refl.
  - cbn. intros s' E1 E2 _. by apply HQ.
Qed.
Lemma wp_end_label_gone r Q s : translating (a_dc s) → is_u32 (dc_pc (a_dc s)) →
  (condjmp (a_dc s) = true → lb ≤ condlabel (a_dc s))%nat → a_sk s = Some (Gone r) →
  (∀ s', a_sk s' = Some (Gone r) → a_dc s' = a_dc s → Q tt s') → wp (end_label (a_dc s)) Q s.
Proof.
  intros Htr Hpc Hl Hsk HQ. destruct s as [V d nl sk σ]. cbn in *. subst sk.
  apply (wp_after_gone _ _ _ _ _ (λ _ s', a_dc s' = d) _ (mkAst V d nl None σ)).
  - destruct (condjmp d) eqn:Hc; [|unfold end_label; rewrite Hc; by apply wp_ret].
    apply (wp_end_label _ (mkAst V d nl None σ)); auto.
  - intros [] s' Hd. by apply HQ.
Qed.

Lemma wp_end_next Q V d nl σ pc : starts_at d pc → is_u32 pc →
  (∀ s', a_sk s' = Some (Gone (goes_to 1 pc σ)) → a_dc s' = d → Q tt s') →
  wp gen_block_end Q (mkAst V d nl None σ).
Proof.
  intros [Htr <- Hnext Hun] Hpc HQ. apply wp_bind, wp_condexec; [done|]. apply wp_bind, wp_get_dc. cbn [a_dc id].
  rewrite Hnext, Hun. cbv match. apply wp_bind, wp_goto; [done..|]. intros s' Hsk Hd _. apply wp_ret. by apply HQ.
Qed.

(** Whatever the last instruction did. *)
Lemma wp_end_last Q s pc0 pc insn nl σ : ended_at (a_dc s) pc insn nl → is_u32 pc → (lb ≤ nl)%nat →
  ends_block insn = true → insn_post pc0 insn σ nl s →
  (∀ s', a_dc s' = a_dc s →
     (∃ r, a_sk s' = Some (Gone r) ∧ ∃ a, insn_step v7 pc0 insn σ a ∧
      r = match a with Continues σ2 => goes_to 1 pc σ2 | Jumps dest σ2 => goes_to 0 dest σ2
          | WrotePc σ2 => Ok (Done (Left 0) σ2) end) → Q tt s') →
  wp gen_block_end Q s.
Proof.
  intros [Htr Hpc' Hj Hcj Hcl] Hpc Hlb Hend Hpost HQ. apply wp_bind, wp_condexec; [done|].
  apply wp_bind, wp_get_dc. cbn [id]. fold (end_label (a_dc s)). apply wp_bind.
  assert ((condjmp (a_dc s) = true → lb ≤ condlabel (a_dc s))%nat) as Hl by (intros E; by rewrite Hcl).
  assert (is_u32 (dc_pc (a_dc s))) as Hpc2 by by rewrite Hpc'.
  destruct Hpost as [a Hh Ha Hw|Hf Hne Hsk Hσ].
  - pose proof (step_passed _ _ _ _ a Hh Ha) as Hstep. destruct Ha as [e Hb He|Hb].
    + unfold jmp_of, ends_block in *. rewrite Hb in Hj, Hend. cbn in Hend. rewrite Hend in Hj, Hw, Hstep. destruct Hw as [Hsk Hσ].
      assert (∀ Q, (∀ s', a_sk s' = Some (Gone (Ok (Done (Left 0) (a_σ s)))) → a_dc s' = a_dc s → Q tt s') →
        wp (tcg_gen_exit_tb 0) (λ _, wp (end_label (a_dc s)) Q) s) as Hexit.
      { intros Q' HQ'. apply wp_exit_tb; [done|]. by apply (wp_end_label_gone _ _ (stop _ s) Htr Hpc2 Hl eq_refl). }
      rewrite Hj. destruct v7; apply Hexit; rewrite Hσ; intros s' Hs' Hd; apply HQ; eauto.
    + unfold jmp_of in Hj. rewrite Hb in Hj. rewrite Hj. apply wp_ret.
      apply (wp_end_label_gone _ _ _ Htr Hpc2 Hl Hw). intros s' Hs' Hd. apply HQ; eauto.
  - assert (condjmp (a_dc s) = true) as Hct by (by rewrite Hcj, Hne). rewrite (Hcl Hct) in Hl.
    assert (∀ s1, a_sk s1 = Some (Skip nl) → a_dc s1 = a_dc s → a_σ s1 = σ → wp (end_label (a_dc s)) Q s1) as Hlast.
    { intros s1 E1 E2 E3. rewrite <- E2. apply wp_end_label; rewrite ?E2; auto.
      - rewrite Hcl by done. auto.
      - rewrite E1, Hcl by done. auto.
      - rewrite Hpc', E3. intros s' Hs' Hd. apply HQ; [done|]. eexists. split; [done|].
        exists (Continues σ). split; [by apply step_failed|done]. }
    destruct s as [V d n sk σs]. cbn in *. subst sk.
    assert (wp (tcg_gen_exit_tb 0) (λ _, wp (end_label d) Q) (mkAst V d n (Some (Skip nl)) σs)) as Hexit.
    { eapply (wp_skip _ _ _ lb (S nl) _ (λ _ s', a_dc s' = d)); [done|cbn; lia|lia| |].
      - by apply wp_exit_tb.
      - intros [] s' Hd. by apply Hlast. }
    rewrite Hj. unfold jmp_of. destruct (is_branch insn) eqn:Hb; [by apply wp_ret, Hlast|].
    unfold ends_block in Hend. rewrite Hb in Hend. cbn in Hend. rewrite Hend. by destruct v7.
Qed.
Lemma wp_end_gone r Q s pc insn nl : ended_at (a_dc s) pc insn nl → is_u32 pc → (lb ≤ nl)%nat →
  ends_block insn = true → a_sk s = Some (Gone r) →
  (∀ s', a_sk s' = Some (Gone r) → a_dc s' = a_dc s → Q tt s') → wp gen_block_end Q s.
Proof.
  intros [Htr Hpc' Hj Hcj Hcl] Hpc Hlb Hend Hsk HQ. apply wp_bind, wp_condexec; [done|].
  apply wp_bind, wp_get_dc. cbn [id]. fold (end_label (a_dc s)). apply wp_bind.
  assert ((condjmp (a_dc s) = true → lb ≤ condlabel (a_dc s))%nat) as Hl by (intros E; by rewrite Hcl).
  assert (is_u32 (dc_pc (a_dc s))) as Hpc2 by by rewrite Hpc'.
  assert (wp (tcg_gen_exit_tb 0) (λ _, wp (end_label (a_dc s)) Q) s) as Hexit.
  { apply (wp_gone _ _ _ _ _ r); [done..|]. by apply (wp_end_label_gone r _ (stop r s)). }
  rewrite Hj. unfold jmp_of, ends_block in *. destruct (is_branch insn); cbn in Hend.
  - by apply wp_ret, (wp_end_label_gone r).
  - rewrite Hend. by destruct v7.
Qed.
End block_end.

(** ** The loop over the instructions *)
Context (next_page_start : Z) (Hpage : 0 ≤ next_page_start ≤ 2 ^ 32 - 4).
#[local] Abbreviation block_run := (block_run linked v7 code tb tb_pc).

(** At most [n] instructions remain in the page. *)
Definition fits (n : nat) (pc : Z) : Prop :=
  u32 (pc + 4) < next_page_start → next_page_start ≤ u32 (pc + 4) + 4 * Z.of_nat (n - 1).
Lemma fits_next n pc : fits (S n) pc → u32 (pc + 4) < next_page_start → (0 < n)%nat ∧ fits n (u32 (pc + 4)).
Proof.
  unfold fits. intros Hf Hpc. specialize (Hf Hpc). split; [lia|]. intros Hn.
  pose proof (u32_bound (pc + 4)) as Hb. unfold is_u32 in Hb.
  assert (u32 (u32 (pc + 4) + 4) = u32 (pc + 4) + 4) as E by (apply u32_small; unfold is_u32; lia). lia.
Qed.

(** After the report of an instruction that stopped the block, or after one that
    did not end it. *)
Lemma block_run_next pc insn σ n r s : code pc = Ok insn →
  after_trace pc σ (λ σ1, ∃ σ2, insn_step v7 pc insn σ1 (Continues σ2) ∧ a_sk s = None ∧ a_σ s = σ2) s →
  a_sk s = None → block_run n (u32 (pc + 4)) (a_σ s) r → block_run (S n) pc σ r.
Proof.
  intros Hcode Ht Hsk Hrun. unfold after_trace in Ht. destruct (trace_pc pc σ) as [[[] σ1|? ?|?]|?] eqn:Et; [|congruence..].
  destruct Ht as (_ & σ2 & Hstep & _ & <-). by apply (run_next _ _ _ _ _ _ _ insn _ σ1 (a_σ s)).
Qed.
Lemma block_run_gone pc σ n P s : after_trace pc σ P s → (∀ σ1, ¬ P σ1) →
  ∃ r, a_sk s = Some (Gone r) ∧ block_run (S n) pc σ r.
Proof.
  unfold after_trace. intros Ht HP. exists (traced (trace_pc pc σ)).
  assert (∀ σ', trace_pc pc σ ≠ Ok (Done tt σ')) as Hn.
  { intros σ' E. rewrite E in Ht. by destruct Ht as [_ ?%HP]. }
  destruct (trace_pc pc σ) as [[[] σ1|? ?|?]|?] eqn:Et; [by destruct (Hn σ1)| | |];
    (split; [done|rewrite <- Et; apply run_stopped; by rewrite Et]).
Qed.

Section loop.
Context (lb : nat) (max_insns : Z).
#[local] Abbreviation wp := (wp fuel retaddr linked lb).
Definition finish (x : Z * list insn_start) : gen (Z * list insn_start) := gen_block_end;; mret x.

(** The rest of the translation is that of [n] instructions from [pc] on, which
    run as they should; [lo] and [hi] bound [n]. *)
Definition runs_rest (lo hi : nat) (num pc : Z) (out : nat → res (out D exit) → Prop) (x : Z * list insn_start) s' : Prop :=
  ∃ n r, (lo ≤ n ≤ hi)%nat ∧ x.1 = num + Z.of_nat n ∧ dc_pc (a_dc s') = u32 (pc + 4 * Z.of_nat n) ∧
    a_sk s' = Some (Gone r) ∧ out n r.
#[local] Abbreviation translates m P s := (wp m (λ x, wp (finish x) P) s).

Lemma translates_gone (m : gen (Z * list insn_start)) lo hi num pc P (P' : nat → res (out D exit) → Prop) V d nl σ r σ' :
  translates m (runs_rest lo hi num pc P) (mkAst V d nl None σ) → (∀ n, P' n r) →
  translates m (runs_rest lo hi num pc P') (mkAst V d nl (Some (Gone r)) σ').
Proof.
  intros Hw HP. apply (wp_after_gone _ _ _ _ _ _ _ _ _ _ Hw). intros x s1 H1.
  apply (wp_after_gone _ _ _ _ _ _ _ _ _ _ H1). intros y s2 (n & r' & Hn & E1 & E2 & _).
  exists n, r. by destruct Hn; split_and!.
Qed.

(** The decision after an instruction. *)
Definition loop_tail (F : nat) (num : Z) (starts : list insn_start) : gen (Z * list insn_start) :=
  d ← get_dc id;
  j ← ops_emitted;
  if (is_jmp d =? DISAS_NEXT) && (j <? OPC_MAX_SIZE)%nat && (dc_pc d <? next_page_start) && (num <? max_insns)
  then gen_loop F num max_insns next_page_start starts else mret (num, starts).

(** The loop for one more instruction, from the loop for fewer. *)
Definition loop_from (m F : nat) : Prop := ∀ num starts V d nl σ pc, starts_at d pc → is_u32 pc →
  code_ok code next_page_start m pc = true → fits m pc → (0 < m)%nat → alu_wf (cpu σ) → (lb ≤ nl)%nat →
  (nl + 2 * m ≤ TCG_MAX_LABELS)%nat →
  translates (gen_loop F num max_insns next_page_start starts) (runs_rest 1 m num pc (λ n, block_run n pc σ)) (mkAst V d nl None σ).

Lemma tail_ok m F num starts V d nl σ pc : loop_from m F → starts_at d pc → is_u32 pc →
  (pc < next_page_start → code_ok code next_page_start m pc = true ∧ fits m pc ∧ (0 < m)%nat) →
  alu_wf (cpu σ) → (lb ≤ nl)%nat → (nl + 2 * m ≤ TCG_MAX_LABELS)%nat →
  translates (loop_tail F num starts) (runs_rest 0 m num pc (λ n, block_run n pc σ)) (mkAst V d nl None σ).
Proof.
  intros IH Hd Hpc Hnext He Hlb Hnl. apply wp_bind, wp_get_dc. cbn [a_dc id].
  apply wp_bind, wp_ops_emitted. intros j. rewrite (st_pc d pc Hd).
  destruct (_ && _ && (pc <? next_page_start) && _) eqn:E.
  - rewrite !andb_true_iff, Z.ltb_lt in E. destruct E as [[_ E] _]. destruct (Hnext E) as (Hc & Hf & Hm0).
    eapply wp_mono; [by apply (IH num starts V d nl σ pc)|]. intros x s1 H1.
    eapply wp_mono; [exact H1|]. intros y s2 (n & r & Hn & R). exists n, r. split; [lia|done].
  - apply wp_ret, wp_bind. apply (wp_end_next lb _ V d nl σ pc); [done..|]. intros s' Hsk Hd'. apply wp_ret.
    exists 0%nat, (goes_to 1 pc σ). split_and!; [lia..|cbn; lia| |done|apply run_end].
    rewrite Hd', (st_pc d pc Hd), Z.add_0_r. by rewrite u32_small.
Qed.

(** After the last instruction. *)
Lemma tail_last F num starts s pc0 pc insn nl σ : code pc0 = Ok insn → ended_at (a_dc s) pc insn nl → is_u32 pc →
  (lb ≤ nl)%nat → ends_block insn = true → pc = u32 (pc0 + 4) →
  after_trace pc0 σ (λ σ1, insn_post pc0 insn σ1 nl s) s →
  translates (loop_tail F num starts) (runs_rest 0 0 num pc (λ _, block_run 1 pc0 σ)) s.
Proof.
  intros Hins He Hpc Hlb Hend Epc Ht. apply wp_bind, wp_get_dc. cbn [id]. apply wp_bind, wp_ops_emitted. intros j.
  assert ((is_jmp (a_dc s) =? DISAS_NEXT) = false) as ->.
  { rewrite (ended_jmp _ _ _ _ He). unfold jmp_of, ends_block in *. destruct (is_branch insn); [done|].
    cbn in Hend. rewrite Hend. by destruct v7. }
  cbn [andb]. apply wp_ret, wp_bind.
  assert (∀ s' r, a_dc s' = a_dc s → a_sk s' = Some (Gone r) → block_run 1 pc0 σ r →
    wp (mret (num, starts)) (runs_rest 0 0 num pc (λ _, block_run 1 pc0 σ)) s') as Hret.
  { intros s' r Hd Hsk Hrun. apply wp_ret. exists 0%nat, r. split_and!; [lia..|cbn; lia| |done|done].
    rewrite Hd, (ended_pc _ _ _ _ He), Z.add_0_r. by rewrite u32_small. }
  unfold after_trace in Ht. destruct (trace_pc pc0 σ) as [[[] σ1|? ?|?]|?] eqn:Et;
    try (apply (wp_end_gone lb _ _ s pc insn nl He Hpc Hlb Hend Ht); intros s' Hsk Hd; eapply Hret; [done..|];
         rewrite <- Et; apply run_stopped; by rewrite Et).
  destruct Ht as [_ Hpost]. apply (wp_end_last lb _ s pc0 pc insn nl σ1); [done..|].
  intros s' Hd (r & Hsk & a & Hstep & ->). eapply Hret; [done|exact Hsk|].
  destruct a as [σ2|dest σ2|σ2]; [|by eapply run_jump|by eapply run_wrote_pc].
  eapply run_next; [done..|]. rewrite <- Epc. apply run_end.
Qed.

Lemma runs_rest_step lo hi num pc out x s : runs_rest lo hi (num + 1) (u32 (pc + 4)) (λ n, out (S n)) x s →
  runs_rest (S lo) (S hi) num pc out x s.
Proof.
  intros (n & r & Hn & E1 & E2 & Hsk & Ho). exists (S n), r. split_and!; [lia..| |done|done].
  rewrite E2. unfold u32. rewrite Z.add_mod_idemp_l by lia. f_equal. lia.
Qed.
Lemma translates_mono (m : gen (Z * list insn_start)) (P P' : Z * list insn_start → ast → Prop) s :
  translates m P s → (∀ x s', P x s' → P' x s') → translates m P' s.
Proof. intros Ht HP. eapply wp_mono; [exact Ht|]. intros x s1 H1. eapply wp_mono; [exact H1|]. auto. Qed.

Lemma step_wf pc insn σ1 a σ2 : insn_step v7 pc insn σ1 a → alu_wf (cpu σ1) → a = Continues σ2 → alu_wf (cpu σ2).
Proof.
  intros [a' _ Ha|_] He; [|by intros [= <-]]. destruct Ha as [e Hb Hdp|Hb]; [|done].
  destruct (writes_pc insn); [done|]. intros [= <-]. apply (dp_effect_wf _ _ _ _ e He (u32_bound _) Hdp).
Qed.

(** The instructions that follow one that does not end the block. *)
Lemma tail_next m F num starts s pc insn σ : loop_from m F → starts_at (a_dc s) (u32 (pc + 4)) →
  (u32 (pc + 4) < next_page_start → code_ok code next_page_start m (u32 (pc + 4)) = true ∧ fits m (u32 (pc + 4)) ∧ (0 < m)%nat) →
  alu_wf (cpu σ) → is_u32 pc → (lb ≤ a_nl s)%nat → (a_nl s + 2 * m ≤ TCG_MAX_LABELS)%nat → code pc = Ok insn →
  after_trace pc σ (λ σ1, ∃ σ2, insn_step v7 pc insn σ1 (Continues σ2) ∧ a_sk s = None ∧ a_σ s = σ2) s →
  translates (loop_tail F (num + 1) starts) (runs_rest 1 (S m) num pc (λ n, block_run n pc σ)) s.
Proof.
  intros IH Hd Hnext He Hpc Hlb Hnl Hins Ht. eapply translates_mono; [|intros x s'; apply runs_rest_step].
  assert (∀ σ', alu_wf (cpu σ') → translates (loop_tail F (num + 1) starts)
    (runs_rest 0 m (num + 1) (u32 (pc + 4)) (λ n, block_run n (u32 (pc + 4)) σ')) (mkAst (a_vals s) (a_dc s) (a_nl s) None σ')) as Hok.
  { intros σ' He'. apply tail_ok; try done. apply u32_bound. }
  destruct s as [V d nl sk σs]. unfold after_trace in Ht. cbn [a_sk a_σ a_dc a_nl a_vals] in *.
  destruct (trace_pc pc σ) as [[[] σ1|? ?|?]|?] eqn:Et;
    [|subst sk; apply (translates_gone _ _ _ _ _ _ _ _ _ _ _ _ _ (Hok σ He)); intros n;
         rewrite <- Et; apply run_stopped; by rewrite Et..].
  destruct Ht as (Ec & σ2 & Hstep & -> & ->).
  eapply translates_mono; [apply Hok|].
  - apply (step_wf pc insn σ1 _ σ2 Hstep); [by rewrite Ec|done].
  - intros x s' (n & r & Hn & E1 & E2 & Hsk & Hrun). exists n, r. split_and!; [lia..|done|done|done|].
    by apply (run_next _ _ _ _ _ _ _ insn _ σ1 σ2).
Qed.

Lemma loop_ok m F : (m ≤ F)%nat → loop_from m F.
Proof.
  revert F. induction m as [|m IH]; intros F HF num starts V d nl σ pc Hd Hpc Hcode Hfits Hm0 He Hlb Hnl; [lia|].
  destruct F as [|F]; [lia|]. cbn [code_ok] in Hcode. destruct (code pc) as [insn|] eqn:Hins; [|done].
  apply andb_true_iff in Hcode as [Hc Hcode]. pose proof Hd as [[Hth _ _ _] _ _ _].
  cbn [DisasArm.gen_loop]. apply wp_bind, wp_get_dc. rewrite Hm, andb_false_r.
  apply wp_bind, wp_ops_emitted. intros j. apply wp_bind, wp_get_dc, wp_bind, wp_get_dc. cbn [a_dc]. rewrite Hth.
  cbn [truth Z.eqb negb]. apply wp_bind.
  fold (loop_tail F (num + 1) (starts ++ [(j, dc_pc d, (condexec_cond d << 4) .| (condexec_mask d >> 1))])).
  set (starts' := starts ++ _). clearbody starts'.
  destruct (ends_block insn) eqn:Hend.
  - eapply wp_mono; [|intros a s1 H1; apply wp_bind; exact H1].
    apply (wp_step_last lb pc insn d nl Hd Hc Hlb ltac:(lia) σ); [done..|]. intros s' Ht Hended Hn.
    eapply translates_mono; [apply (tail_last F _ _ s' pc (u32 (pc + 4)) insn nl σ); try done; apply u32_bound|].
    intros x s1 (n & r & Hn0 & E1 & E2 & Hsk & Ho). apply runs_rest_step. exists n, r.
    assert (n = 0%nat) as -> by lia. by split_and!; try lia.
  - eapply wp_mono; [|intros a s1 H1; apply wp_bind; exact H1].
    apply (wp_step_next lb pc insn d nl Hd Hc Hlb ltac:(lia) σ); [done..|]. intros s' Ht Hst Hn.
    apply (tail_next m F num starts' s' pc insn σ); try done; [apply IH; lia| |lia..].
    intros E. cbn in Hcode. rewrite (proj2 (Z.ltb_lt _ _) E) in Hcode. cbn in Hcode.
    destruct (fits_next m pc Hfits E). by split_and!.
Qed.
End loop.
End block.

(** ** The translation of a block *)
Lemma block_fits pc : is_u32 pc → fits (u32 (page_of pc + TARGET_PAGE_SIZE)) 256 pc.
Proof.
  intros Hpc. destruct (page_of_bounds pc Hpc) as (q & E & Hq). unfold is_u32 in Hpc.
  unfold fits, TARGET_PAGE_SIZE. rewrite E. intros Hlt.
  destruct (Z.eq_dec (1024 * q) (2 ^ 32 - 1024)) as [Eq|Eq].
  - rewrite Eq in Hlt. pose proof (u32_bound (pc + 4)) as Hb. unfold is_u32 in Hb.
    change (u32 (2 ^ 32 - 1024 + 1024)) with 0 in Hlt. lia.
  - rewrite (u32_small (1024 * q + 1024)) in * by (unfold is_u32; lia). rewrite u32_small by (unfold is_u32; lia). lia.
Qed.

Section translate.
Context {D : Type} `{IoPorts D} `{TbCache}.
Context (fuel : nat) (retaddr : Z) (linked : Z → bool) (env : CPUARMState) (code : Z → res Z).
Context (disas_neon_data_insn disas_neon_ls_insn disas_iwmmxt_insn disas_coproc_insn : Z → gen bool).
Context (disas_thumb_insn : gen unit) (tb tb_pc : Z).

(** *** The table of temporaries suffices *)
Lemma covered_decodable insn : covered insn = true → 0 ≤ insn < 2 ^ 32 ∧ decodable insn = true.
Proof.
  unfold covered. rewrite !andb_true_iff, Z.leb_le, Z.ltb_lt. intros [[Hge H15] Hk]. split.
  - rewrite Z.shiftr_div_pow2 in H15 by lia. split; [done|]. change (2 ^ 32) with (16 * 2 ^ 28).
    pose proof (Z.div_mod insn (2 ^ 28) ltac:(lia)). pose proof (Z.mod_pos_bound insn (2 ^ 28) ltac:(lia)). lia.
  - unfold decodable. rewrite (proj2 (Z.eqb_neq _ _)) by lia. unfold cond_known.
    destruct (is_branch insn) eqn:Eb.
    + destruct (branch_fields insn Eb) as (-> & -> & -> & -> & Ho). cbn [andb orb].
      unfold other_known. by destruct Ho as [-> | ->].
    + cbn in Hk. apply andb_prop in Hk as [Hk _]. unfold is_data_processing in Hk.
      apply andb_prop in Hk as [_ [Hk|Hk]%orb_prop]; rewrite Hk; by rewrite ?orb_true_r, ?orb_true_l.
Qed.

Definition at_word (nps : Z) (g : gctx) : Prop :=
  starts_at tb tb_pc (dc g) (dc_pc (dc g)) ∧
  ∃ m, (0 < m)%nat ∧ code_ok code nps m (dc_pc (dc g)) = true ∧ fits nps m (dc_pc (dc g)).
Lemma code_words nps (σ : smmu D) : 0 ≤ nps ≤ 2 ^ 32 - 4 → IS_M env = false → alu_wf (cpu σ) →
  words env code disas_neon_data_insn disas_neon_ls_insn disas_iwmmxt_insn disas_coproc_insn nps (at_word nps).
Proof.
  intros Hnps Hm He. split.
  - intros g (_ & m & Hm0 & Hcode & _). destruct m as [|m]; [lia|]. cbn [code_ok] in Hcode. unfold word_ok.
    destruct (code (dc_pc (dc g))) as [insn|]; [|done]. apply andb_prop in Hcode as [Hc _].
    exists insn. by apply covered_decodable in Hc.
  - intros g V g' (Hd & m & Hm0 & Hcode & Hfits) Hr E Hj Hpc Hlt. destruct m as [|m]; [lia|]. cbn [code_ok] in Hcode.
    destruct (code (dc_pc (dc g))) as [insn|] eqn:Hins; [|done]. apply andb_prop in Hcode as [Hc Hcode].
    pose proof (ready_ok _ _ Hr) as Hg. set (pc := dc_pc (dc g)) in *.
    set (s := mkAst ∅ (dc g) (nb_labels g) None σ).
    assert (ctx_ok g s) as Hctx.
    { destruct Hg as [Hnd Hb _ _ _ _ _ _ _ _]. split; try done.
      - by apply NoDup_app in Hnd as (_ & _ & ?).
      - intros t Ht. rewrite Forall_forall in Hb. apply Hb, elem_of_app. by right.
      - intros t [? Ht]. unfold s in Ht. cbn in Ht. by rewrite lookup_empty in Ht. }
    assert (S (nb_labels g) < TCG_MAX_LABELS)%nat as Hnl.
    { pose proof (ok_labels _ _ _ _ _ _ Hg). pose proof (ok_ops _ _ _ _ _ _ Hg).
      unfold TCG_MAX_LABELS, buffer_room, OPC_BUF_SIZE in *. lia. }
    assert (wp fuel retaddr linked 0 (disas_arm_insn env code disas_neon_data_insn disas_neon_ls_insn disas_iwmmxt_insn
        disas_coproc_insn ≫= λ _, set_condlabel_here)
      (λ _ s', is_jmp (a_dc s') = DISAS_NEXT → ends_block insn = false ∧ starts_at tb tb_pc (a_dc s') (u32 (pc + 4))) s) as Hw.
    { apply wp_bind. destruct (ends_block insn) eqn:Hend.
      - apply (wp_step_last fuel retaddr linked env code _ _ _ _ tb tb_pc Hm 0 pc insn _ _ Hd Hc ltac:(lia) Hnl σ); [done..|].
        intros s' _ Hended _ Hn. destruct Hended as [_ _ Hj' _ _]. rewrite Hn in Hj'. unfold jmp_of, ends_block in *.
        destruct (is_branch insn); [done|]. cbn in Hend. rewrite Hend in Hj'. by destruct (ENABLE_ARCH_7 env).
      - apply (wp_step_next fuel retaddr linked env code _ _ _ _ tb tb_pc Hm 0 pc insn _ _ Hd Hc ltac:(lia) Hnl σ); [done..|].
        by intros s' _ Hst _ _. }
    destruct (Hw g Hctx) as [E'|([] & g1 & os & s' & E' & _ & K & _ & _ & HQ)]; rewrite E in E'; [done|].
    injection E' as <-. rewrite <- (ok_dc _ _ K) in HQ. destruct (HQ Hj) as [Hend Hst].
    unfold at_word. rewrite (st_pc _ _ _ _ Hst) in Hpc, Hlt |- *. rewrite Hend in Hcode. cbn [orb] in Hcode.
    rewrite (proj2 (Z.ltb_lt _ _) Hlt) in Hcode. cbn [negb orb] in Hcode.
    destruct (fits_next nps Hnps m pc Hfits Hlt) as [Hm' Hf']. split; [done|by exists m].
Qed.

Lemma wp_initial {A} (m : gen A) (Q : A → ast (D := D) → Prop) d σ :
  wp fuel retaddr linked 0 m Q (mkAst ∅ d 0 None σ) →
  m (mkGctx [] 0 [] [] [] 0 d) = Err temps_exhausted ∨
  ∃ a g s, m (mkGctx [] 0 [] [] [] 0 d) = Ok (Some a, g) ∧ dc g = a_dc s ∧ Q a s ∧
    ∀ r, a_sk s = Some (Gone r) → run_ops fuel retaddr linked (gen_opc_buf g) None no_temps σ = final r.
Proof.
  intros Hw. destruct (Hw (mkGctx [] 0 [] [] [] 0 d)) as [?|(a & g & os & s & E & B & K & _ & R & HQ)]; [|by left|right].
  - split; cbn; try done; [constructor|intros t []%elem_of_nil|intros t [? ?]]. by rewrite lookup_empty in *.
  - exists a, g, s. split_and!; [done|apply K|done|]. intros r Hr. rewrite B. cbn [app].
    specialize (R no_temps). unfold reached, run_from in R. rewrite Hr in R. apply R. intros t v. cbn. by rewrite lookup_empty.
Qed.

(** C5: A block of data-processing instructions and branches, each under its
    condition, is translated without fault, and the operations emitted for it do
    what the architecture gives its instructions, one after the other: every
    instruction is reported to the tracer before it has its effect; an
    instruction whose condition fails has none; results, flags and the carry of
    the shifter are those of the manual; and the block is left for the address
    that follows, by a patched jump where there is one and through the execution
    loop otherwise. *)
Theorem translated_block_correct flags cflags (σ : smmu D) :
  IS_M env = false → is_u32 tb_pc → ARM_TBFLAG_THUMB flags = 0 → ARM_TBFLAG_CONDEXEC flags = 0 →
  code_ok code (u32 (page_of tb_pc + TARGET_PAGE_SIZE)) 256 tb_pc = true → alu_wf (cpu σ) →
  ∃ ops starts n r,
    gen_intermediate_code env code disas_neon_data_insn disas_neon_ls_insn disas_iwmmxt_insn disas_coproc_insn
      disas_thumb_insn tb tb_pc flags cflags = Ok (ops, starts, 4 * Z.of_nat n, Z.of_nat n) ∧
    (0 < n ≤ 256)%nat ∧ block_run linked (ENABLE_ARCH_7 env) code tb tb_pc n tb_pc σ r ∧
    run_ops fuel retaddr linked ops None no_temps σ = final r.
Proof.
  intros Hm Hpc Hth Hce Hcode He.
  assert (∃ x, gen_intermediate_code env code disas_neon_data_insn disas_neon_ls_insn disas_iwmmxt_insn disas_coproc_insn
    disas_thumb_insn tb tb_pc flags cflags = Ok x) as [x Hok].
  { destruct (translation_of_words env code disas_neon_data_insn disas_neon_ls_insn disas_iwmmxt_insn disas_coproc_insn
      disas_thumb_insn (at_word (u32 (page_of tb_pc + TARGET_PAGE_SIZE))) tb tb_pc flags cflags Hpc Hth Hce)
      as (ops & starts & n & E & _); [by apply (code_words _ σ (next_page_bound tb_pc Hpc))| |by eexists].
    split; [by split|]. exists 256%nat. split_and!; [lia|done|by apply block_fits]. }
  revert Hok. unfold gen_intermediate_code. rewrite Hth, Hce. cbv zeta.
  set (d := mkDisas _ _ _ _ _ _ _ _ _ _).
  assert (starts_at tb tb_pc d tb_pc) as Hd by by split.
  set (next := u32 (page_of tb_pc + TARGET_PAGE_SIZE)) in *.
  set (max := if _ =? 0 then _ else _).
  match goal with |- context [(?t ≫= ?k) (mkGctx _ _ _ _ _ _ d)] => set (translate := t ≫= k) end.
  assert (wp fuel retaddr linked 0 translate (runs_rest (D := D) 1 256 0 tb_pc
    (λ n, block_run linked (ENABLE_ARCH_7 env) code tb tb_pc n tb_pc σ)) (mkAst ∅ d 0 None σ)) as Hw.
  { apply wp_bind, wp_new_i32. intros t1 _. apply wp_bind, wp_new_i32. intros t2 _.
    apply wp_bind, wp_new_i64. intros t3 _. apply wp_bind, wp_new_i64. intros t4 _. apply wp_bind, wp_new_i64. intros t5 _.
    apply wp_bind, wp_ret, wp_bind.
    assert (256 ≤ S (Z.to_nat TARGET_PAGE_SIZE))%nat as HF by by apply Nat.leb_le.
    set (F := S (Z.to_nat TARGET_PAGE_SIZE)) in *. clearbody F. unfold with_vals. cbn [a_vals a_dc a_nl a_sk a_σ].
    match goal with |- TcgFacts.wp _ _ _ _ _ _ (mkAst ?W _ _ _ _) => generalize W; intros V end.
    apply (loop_ok fuel retaddr linked env code disas_neon_data_insn disas_neon_ls_insn disas_iwmmxt_insn
             disas_coproc_insn disas_thumb_insn tb tb_pc Hm next (next_page_bound tb_pc Hpc) 0%nat max 256 F HF 0 [] V d 0%nat σ tb_pc Hd Hpc Hcode
             (block_fits tb_pc Hpc)); [lia|done|lia|unfold TCG_MAX_LABELS; lia]. }
  destruct (wp_initial _ _ _ _ Hw) as [E|([num starts] & g & s & E & Hdc & (n & r & Hn & E1 & E2 & Hsk & Hrun) & Hops)];
    [by rewrite E|]. intros _. rewrite E. cbn [mbind res_bind]. exists (gen_opc_buf g), starts, n, r. split_and!; [|lia..|done|by apply Hops].
  cbn in E1. subst num. rewrite Hdc, E2. repeat f_equal. apply u16_size; lia.
Qed.
End translate.

(** A decidable form of [alu_wf]. *)
Definition alu_wf_b (e : CPUARMState) : bool :=
  (length (regs e) =? 16)%nat && forallb (λ x, (0 <=? x) && (x <? 2 ^ 32)) (regs e) && (CF e =? of_bool (truth (CF e))).
Lemma alu_wf_check e : alu_wf_b e = true → alu_wf e.
Proof.
  unfold alu_wf_b. rewrite !andb_true_iff, Nat.eqb_eq, forallb_forall, Z.eqb_eq. intros [[Hl Hw] Hc].
  split; [done| |done]. intros n x Hx. apply list_elem_of_lookup_2, list_elem_of_In, Hw in Hx.
  apply andb_true_iff in Hx as [?%Z.leb_le ?%Z.ltb_lt]. by split.
Qed.

(** A loop: cmp r0, #0; addne r1, r1, r0, lsl #2; subs r0, r0, #1; bne to the
    first instruction. *)
Definition demo_code (pc : Z) : res Z :=
  from_option_res OutOfBounds
    ([0xe3500000; 0x10811100; 0xe2500001; 0x1afffffb] !! Z.to_nat ((pc - 0x1000) / 4)).
Definition no_decoder (insn : Z) : gen bool := mret true.
#[local] Existing Instances no_ports no_tbs.
Lemma translated_block_correct_witness :
  code_ok demo_code (u32 (page_of 0x1000 + TARGET_PAGE_SIZE)) 256 0x1000 = true ∧
  ∃ ops starts n r,
    gen_intermediate_code demo_ram_cpu demo_code no_decoder no_decoder no_decoder no_decoder illegal_op
      0x7F0000 0x1000 64 0 = Ok (ops, starts, 4 * Z.of_nat n, Z.of_nat n) ∧
    (0 < n ≤ 256)%nat ∧ block_run (λ _, false) (ENABLE_ARCH_7 demo_ram_cpu) demo_code 0x7F0000 0x1000 n 0x1000 demo_smmu r ∧
    run_ops 10 0 (λ _, false) ops None no_temps demo_smmu = final r.
Proof.
  split; [vm_compute; reflexivity|].
  apply (translated_block_correct 10 0 (λ _, false) demo_ram_cpu demo_code no_decoder no_decoder no_decoder no_decoder illegal_op).
  - reflexivity.
  - unfold is_u32; lia.
  - reflexivity.
  - reflexivity.
  - vm_compute. reflexivity.
  - apply alu_wf_check. vm_compute. reflexivity.
Defined.
