(* ===== verification/TransMachine.v ===== *)
(** * The machine running translated code

    The execution loop of [Machine] with blocks of operations of the code
    generator.  What these operations do in a block is what some list of
    operations of [GuestOps] does, so that the machine of translated ARM code
    is the machine the theorems on [Machine] are about. *)
From S2P Require Import Prelude SoftTlb ArmCpu ArmMode ArmMmu ArmAlu PhysMem PhysMemFacts SoftMmu SoftMmuFacts GuestOps Machine MachineFacts.
From S2P Require Import TlbCore TlbTrace TlbTraceFacts TraceCalls MachineInv Tcg TcgFacts TransArm TcgSafe DisasArm DisasArmSafe.

(** The operations of a block, and which of its jumps are patched. *)
Record tblock := mkTblock { tb_ops : list tcg_op; tb_linked : Z → bool }.

Section machine.
Context {D : Type} `{IoPorts D} `{TbCache}.
Context (fuel : nat) (retaddr : Z).
Implicit Types s : smmu D.

(** [tcg_qemu_tb_exec]: a block, those its patched jumps lead to, and back to
    the loop. *)
Fixpoint run_chain (bs : list tblock) : sm D unit :=
  match bs with
  | [] => sm_ret tt
  | b :: bs =>
      e <-- run_ops fuel retaddr (tb_linked b) (tb_ops b) None no_temps ;;
      match e with Out (Followed _) => run_chain bs | _ => sm_ret tt end
  end.

(** ** Simulation *)
#[local] Abbreviation run_gops := (run_block fuel retaddr).
Definition erase {A} (o : out D A) : out D unit :=
  match o with Done _ s => Done tt s | Raised e s => Raised e s | Quit s => Quit s end.
(** From every state [m] does what a list of guest operations does, or faults
    without looping. *)
Definition simulates_at {A} (m : sm D A) s (gs : list gop) : Prop :=
  match m s with
  | Ok o => run_gops gs s = Ok (erase o)
  | Err f => f = Diverges → run_gops gs s = Err Diverges
  end.
Definition simulates {A} (m : sm D A) : Prop := ∀ s, ∃ gs, simulates_at m s gs.

Lemma run_gops_app gs gs' s : run_gops (gs ++ gs') s = sm_bind (run_gops gs) (λ _, run_gops gs') s.
Proof.
  revert s. induction gs as [|g gs IH]; intros s; [done|]. cbn [app run_block]. unfold sm_bind in *.
  destruct (run_gop fuel retaddr g s) as [[? ?|? ?|?]|]; cbn; [apply IH|done..].
Qed.
Lemma sim_ret {A} (a : A) : simulates (sm_ret a).
Proof. intros s. by exists []. Qed.
Lemma sim_get {A} (f : smmu D → A) : simulates (sm_get f).
Proof. intros s. by exists []. Qed.
Lemma sim_read {A} (f : CPUARMState → res A) : (∀ e, f e ≠ Err Diverges) → simulates (λ s, a ← f (cpu s); Ok (Done a s)).
Proof.
  intros Hf s. exists []. unfold simulates_at. specialize (Hf (cpu s)). destruct (f (cpu s)); cbn; [done|].
  intros ->. done.
Qed.
Lemma sim_res {A} (r : res A) : r ≠ Err Diverges → simulates (sm_res r).
Proof. intros Hr. by apply (sim_read (λ _, r)). Qed.
Lemma sim_bind {A B} (m : sm D A) (k : A → sm D B) : simulates m → (∀ a, simulates (k a)) → simulates (sm_bind m k).
Proof.
  intros Hm Hk s. destruct (Hm s) as [gs Hgs]. unfold simulates_at, sm_bind in *.
  destruct (m s) as [[a s1|e s1|s1]|f]; cbn.
  - destruct (Hk a s1) as [gs' Hgs']. exists (gs ++ gs'). unfold simulates_at in Hgs'.
    destruct (k a s1) as [o|f]; [|intros Hf]; rewrite run_gops_app; unfold sm_bind; rewrite Hgs; cbn; auto.
  - by exists gs.
  - by exists gs.
  - by exists gs.
Qed.
Lemma sim_gop g : simulates (run_gop fuel retaddr g).
Proof.
  intros s. exists [g]. unfold simulates_at. cbn [run_block]. unfold sm_bind.
  destruct (run_gop fuel retaddr g s) as [[[] ?|? ?|?]|]; [done..|]. by intros ->.
Qed.
(** Operations that end in one state. *)
Lemma sim_done {A} (m : sm D A) : (∀ s, ∃ gs a s', m s = Ok (Done a s') ∧ run_gops gs s = Ok (Done tt s')) → simulates m.
Proof. intros Hm s. destruct (Hm s) as (gs & a & s' & E & Hg). exists gs. unfold simulates_at. by rewrite E. Qed.

(** *** Registers, flags and fields *)
Lemma gop_assign g (f : CPUARMState → CPUARMState) gs s :
  (run_gop fuel retaddr g = on_cpu (λ e, Ok (f e))) →
  run_gops (g :: gs) s = run_gops gs (with_cpu (f (cpu s)) s).
Proof. intros Hg. cbn [run_block]. unfold sm_bind. by rewrite Hg. Qed.
Definition set_register (n : nat) (v : Z) (e : CPUARMState) : gop := Arith n v (CF e) (VF e) (NF e) (ZF e).
Lemma run_set_register n v gs s : run_gops (set_register n v (cpu s) :: gs) s = run_gops gs (with_cpu (set_reg n v (cpu s)) s).
Proof.
  unfold set_register. by erewrite gop_assign by (by cbn [run_gop]).
Qed.
Lemma with_cpu_same s : with_cpu (cpu s) s = s.
Proof. by destruct s. Qed.

(** The CPU goes from [e] to [e'] by assignments. *)
Definition assigns (e e' : CPUARMState) : Prop :=
  ∃ gs, ∀ s, cpu s = e → run_gops gs s = Ok (Done tt (with_cpu e' s)).
Lemma assigns_refl e : assigns e e.
Proof. exists []. intros s <-. cbn. by rewrite with_cpu_same. Qed.
Lemma assigns_then e e' f g : (run_gop fuel retaddr g = on_cpu (λ e, Ok (f e))) → assigns e e' → assigns e (f e').
Proof.
  intros Hg [gs Hgs]. exists (gs ++ [g]). intros s Hs. rewrite run_gops_app. unfold sm_bind at 1. rewrite (Hgs s Hs).
  cbn. unfold sm_bind. by rewrite Hg.
Qed.
Lemma assigns_put f v e e' : assigns e e' → assigns e (put_env f v e').
Proof. by apply (assigns_then _ _ (put_env f v) (PutEnv f v)). Qed.
Lemma assigns_q e e' : assigns e e' → assigns e (set_q e').
Proof. by apply (assigns_then _ _ set_q SetQ). Qed.
Lemma sim_on_env (f : CPUARMState → Z * CPUARMState) : (∀ e, assigns e (f e).2) → simulates (on_env f).
Proof. intros Hf. apply sim_done. intros s. destruct (Hf (cpu s)) as [gs Hgs]. exists gs, (f (cpu s)).1. eexists. split; [done|]. by apply Hgs. Qed.

(** *** Helpers *)
Lemma sim_void (m : sm D unit) : simulates m → simulates (void m).
Proof. intros Hm. apply sim_bind; [done|intros _; apply sim_ret]. Qed.
Ltac assigns_tac :=
  repeat first [
    apply assigns_refl | apply assigns_q
  | lazymatch goal with
    | |- assigns _ (_ <| NF := ?v |>) => apply (assigns_put F_NF v)
    | |- assigns _ (_ <| ZF := ?v |>) => apply (assigns_put F_ZF v)
    | |- assigns _ (_ <| CF := ?v |>) => apply (assigns_put F_CF v)
    | |- assigns _ (_ <| VF := ?v |>) => apply (assigns_put F_VF v)
    | |- assigns _ (_ <| GE := ?v |>) => apply (assigns_put F_GE v)
    end
  | progress unfold set_c | case_match | progress cbn [snd]].
Lemma add_cc_assigns a b e : assigns e (add_cc a b e).2.
Proof. unfold add_cc. cbv zeta. assigns_tac. Qed.
Lemma adc_cc_assigns a b e : assigns e (adc_cc a b e).2.
Proof. unfold adc_cc. cbv zeta. destruct (negb _); assigns_tac. Qed.
Lemma sub_cc_assigns a b e : assigns e (sub_cc a b e).2.
Proof. unfold sub_cc. cbv zeta. assigns_tac. Qed.
Lemma sbc_cc_assigns a b e : assigns e (sbc_cc a b e).2.
Proof. unfold sbc_cc. cbv zeta. destruct (negb _); assigns_tac. Qed.
Lemma shl_cc_assigns a b e : assigns e (shl_cc a b e).2.
Proof. unfold shl_cc. cbv zeta. assigns_tac. Qed.
Lemma shr_cc_assigns a b e : assigns e (shr_cc a b e).2.
Proof. unfold shr_cc. cbv zeta. assigns_tac. Qed.
Lemma sar_cc_assigns a b e : assigns e (sar_cc a b e).2.
Proof. unfold sar_cc. cbv zeta. assigns_tac. Qed.
Lemma ror_cc_assigns a b e : assigns e (ror_cc a b e).2.
Proof. unfold ror_cc. cbv zeta. assigns_tac. Qed.
Lemma do_ssat_assigns x n e0 e : assigns e0 e → assigns e0 (do_ssat x n e).2.
Proof. intros He. unfold do_ssat. cbv zeta. assigns_tac; done. Qed.
Lemma do_usat_assigns x n e0 e : assigns e0 e → assigns e0 (do_usat x n e).2.
Proof. intros He. unfold do_usat. cbv zeta. assigns_tac; done. Qed.
Lemma ssat16_assigns x n e : assigns e (ssat16 x n e).2.
Proof.
  unfold ssat16. pose proof (do_ssat_assigns (s16 x) n e e (assigns_refl e)) as H1.
  destruct (do_ssat (s16 x) n e) as [lo e1]. pose proof (do_ssat_assigns (s32 x >> 16) n e e1 H1) as H2.
  by destruct (do_ssat (s32 x >> 16) n e1).
Qed.
Lemma usat16_assigns x n e : assigns e (usat16 x n e).2.
Proof.
  unfold usat16. pose proof (do_usat_assigns (s16 x) n e e (assigns_refl e)) as H1.
  destruct (do_usat (s16 x) n e) as [lo e1]. pose proof (do_usat_assigns (s32 x >> 16) n e e1 H1) as H2.
  by destruct (do_usat (s32 x >> 16) n e1).
Qed.
Lemma saturate_assigns a b e : assigns e (add_setq a b e).2 ∧ assigns e (add_saturate a b e).2 ∧
  assigns e (sub_saturate a b e).2 ∧ assigns e (double_saturate a e).2.
Proof. unfold add_setq, add_saturate, sub_saturate, double_saturate. cbv zeta. split_and!; assigns_tac. Qed.
Create HintDb assigns.
#[local] Hint Resolve add_cc_assigns adc_cc_assigns sub_cc_assigns sbc_cc_assigns shl_cc_assigns shr_cc_assigns
  sar_cc_assigns ror_cc_assigns ssat16_assigns usat16_assigns : assigns.
#[local] Hint Extern 1 (assigns _ _) => apply saturate_assigns : assigns.
#[local] Hint Extern 1 (assigns _ (ssat _ _ _).2) => apply do_ssat_assigns, assigns_refl : assigns.
#[local] Hint Extern 1 (assigns _ (usat _ _ _).2) => apply do_usat_assigns, assigns_refl : assigns.
#[local] Hint Extern 1 (assigns _ (_, _).2) => apply (assigns_put F_GE), assigns_refl : assigns.
Lemma sim_helper h args : simulates (call_helper h args).
Proof.
  destruct h, args as [|a [|b [|c [|d l]]]]; cbn [call_helper];
    first [by apply sim_res|apply sim_ret|apply sim_get|apply sim_on_env; intros e; auto with assigns|idtac].
  all: try apply sim_void.
  - apply (sim_gop (CpsrWrite a b)).
  - apply (sim_gop (Exception a)).
  - apply (sim_gop Wfi).
  - apply (sim_read (λ e, get_user_reg e a)). intros e. apply get_user_reg_no_loop.
  - apply (sim_gop (SetUserReg a b)).
  - apply (sim_read (λ e, get_r13_banked e a)). intros e. apply get_r13_no_loop.
  - apply (sim_gop (SetR13Banked a b)).
Qed.

(** *** Operations *)
Lemma sim_get_tv v ts : simulates (get_tv v ts).
Proof.
  destruct v; cbn [get_tv].
  - apply (sim_read (λ e, from_option_res OutOfBounds (regs e !! n))). intros e. by destruct (regs e !! n).
  - apply sim_get.
  - apply sim_res. by destruct (tvals ts !! n).
  - apply sim_res. by destruct (tlocals ts !! n).
Qed.
Lemma sim_get_tvs vs ts : simulates (get_tvs vs ts).
Proof.
  induction vs as [|v vs IH]; cbn [get_tvs]; [apply sim_ret|].
  apply sim_bind; [apply sim_get_tv|intros x]. apply sim_bind; [done|intros xs; apply sim_ret].
Qed.
Lemma sim_put_tv v x ts : simulates (put_tv v x ts).
Proof.
  destruct v as [n|f|n|n]; cbn [put_tv].
  - intros s. exists [set_register n x (cpu s)]. unfold simulates_at. rewrite run_set_register. cbn [put_tv].
    by destruct (n <? 16)%nat.
  - apply sim_done. intros s. exists [PutExcl f x], ts. eexists. split; [done|]. by erewrite gop_assign by (by cbn [run_gop]).
  - apply sim_ret.
  - apply sim_ret.
Qed.
Lemma sim_put_next v x ts : simulates (put_next v x ts).
Proof. apply sim_bind; [apply sim_put_tv|intros ?; apply sim_ret]. Qed.
(** A load to register 0, which then gets its value back. *)
Lemma restore_register v e : set_reg 0 (default 0 (regs e !! 0%nat)) (set_reg 0 v e) = e.
Proof. destruct e as [l]. unfold set_reg. cbn. by destruct l as [|x l]. Qed.
Lemma run_load k sign a user s o gs : (k ≤ 2)%nat → tcg_ld fuel retaddr (width k) sign a (of_bool user) s = Ok o →
  run_gops (Load k sign a user 0 :: gs) s =
    match o with
    | Done v s1 => run_gops gs (with_cpu (set_reg 0 v (cpu s1)) s1)
    | Raised e s1 => Ok (Raised e s1)
    | Quit s1 => Ok (Quit s1)
    end.
Proof.
  intros Hk E. cbn [run_block run_gop]. unfold sm_bind, assign_load, assign. rewrite E, (proj2 (Nat.ltb_lt k 3)) by lia.
  by destruct o.
Qed.
Lemma index_user i : i = 0 ∨ i = 1 → ∃ user, i = of_bool user.
Proof. intros [-> | ->]; [by exists false|by exists true]. Qed.
Lemma sim_tcg_ld k sign a (i : Z) : (k ≤ 2)%nat → i = 0 ∨ i = 1 → simulates (tcg_ld fuel retaddr (width k) sign a i).
Proof.
  intros Hk [user ->]%index_user s.
  destruct (tcg_ld fuel retaddr (width k) sign a (of_bool user) s) as [o|f] eqn:E.
  - exists (Load k sign a user 0 ::
      match o with
      | Done v s1 => let e := set_reg 0 v (cpu s1) in [set_register 0 (default 0 (regs (cpu s1) !! 0%nat)) e]
      | _ => []
      end).
    unfold simulates_at. rewrite E, (run_load _ _ _ _ _ _ _ Hk E). destruct o as [v s1|e s1|s1]; [|done..].
    set (s2 := with_cpu (set_reg 0 v (cpu s1)) s1). change (set_reg 0 v (cpu s1)) with (cpu s2). rewrite run_set_register.
    cbn. rewrite restore_register. by destruct s1.
  - exists [Load k sign a user 0]. unfold simulates_at. rewrite E. cbn [run_block run_gop]. unfold sm_bind. rewrite E.
    by intros ->.
Qed.
Lemma sim_tcg_st k a v (i : Z) : i = 0 ∨ i = 1 → simulates (tcg_st fuel retaddr (width k) a v i).
Proof. intros [user ->]%index_user. apply (sim_gop (Store k a v user)). Qed.

Lemma shift_no_loop w f n : shift_sem w f n ≠ Err Diverges.
Proof. unfold shift_sem. by destruct (_ && _). Qed.
Lemma sim_run_op linked o ts : valid_op o → simulates (run_op fuel retaddr linked o ts).
Proof.
  intros Ho. destruct o; cbn [run_op];
    repeat first [apply sim_put_next|apply sim_ret|apply sim_get|apply sim_helper|
      apply sim_bind; [first [apply sim_get_tv|apply sim_get_tvs|apply sim_get|apply sim_helper]|intros ?]].
  - apply sim_bind; [apply sim_res|intros ?; apply sim_put_next]. destruct o; cbn; try done; apply shift_no_loop.
  - apply sim_bind; [apply sim_res|intros ?; apply sim_put_next]. destruct o; cbn; try done; apply shift_no_loop.
  - apply sim_bind; [apply (sim_gop (PutEnv f a))|intros ?; apply sim_ret].
  - destruct fn; first [apply sim_ret|by apply sim_res].
  - apply sim_bind; [apply sim_res|intros h].
    { destruct fn as [| |t|]; try done. by destruct (tfns ts !! t). }
    apply sim_bind; [apply sim_helper|intros v]. destruct ret; [apply sim_put_next|apply sim_ret].
  - apply sim_bind; [by apply sim_tcg_ld; apply Ho|intros ?; apply sim_put_next].
  - apply sim_bind; [apply sim_tcg_st, Ho|intros ?; apply sim_ret].
  - apply sim_bind; [apply (sim_gop (TracePc pc))|intros ?; apply sim_ret].
Qed.
Lemma sim_run_ops linked os sk ts : Forall valid_op os → simulates (run_ops fuel retaddr linked os sk ts).
Proof.
  intros Hos. revert sk ts. induction Hos as [|o os Ho Hos IH]; intros sk ts; cbn [run_ops]; [apply sim_ret|].
  destruct sk as [l|]; [destruct o; apply IH|].
  apply sim_bind; [by apply sim_run_op|intros []]; first [apply IH|apply sim_ret].
Qed.
Lemma sim_chain bs : Forall (λ b, Forall valid_op (tb_ops b)) bs → simulates (run_chain bs).
Proof.
  induction 1 as [|b bs Hb Hbs IH]; cbn [run_chain]; [apply sim_ret|].
  apply sim_bind; [by apply sim_run_ops|]. intros [|[|]]; first [apply IH|apply sim_ret].
Qed.

(** ** The loop *)

(** A result of the machine with guest operations for one of the machine with
    translated code. *)
Definition refines {A} (r r' : res A) : Prop :=
  match r with Ok a => r' = Ok a | Err f => f = Diverges → r' = Err Diverges end.
Lemma refines_refl {A} (r : res A) : refines r r.
Proof. destruct r; [done|]. by intros ->. Qed.
Definition valid_chain (bs : list tblock) : Prop := Forall (λ b, Forall valid_op (tb_ops b)) bs.
Lemma loop_refines bs : Forall valid_chain bs → ∀ head s, ∃ gs,
  refines (exec_loop run_chain head bs s) (exec_loop run_gops head gs s).
Proof.
  induction 1 as [|b bs Hb Hbs IH]; intros head s.
  { exists []. apply refines_refl. }
  destruct (before_block head (cpu s)) as [[[ret|] e]|f] eqn:E.
  - exists []. cbn [exec_loop]. rewrite E. apply refines_refl.
  - destruct (sim_chain b Hb (with_cpu e s)) as [g Hg]. unfold simulates_at in Hg.
    destruct (run_chain b (with_cpu e s)) as [o|f] eqn:Eb.
    + assert (∀ gs, exec_loop run_gops head (g :: gs) s =
        match o with
        | Done _ s' => exec_loop run_gops false gs s'
        | Raised _ s' => exec_loop run_gops true gs s'
        | Quit s' => Ok (Machine.Gone s')
        end) as Egs.
      { intros gs. cbn [exec_loop]. rewrite E, bind_ret, Hg, bind_ret. by destruct o. }
      destruct o as [u s'|x s'|s']; [destruct (IH false s') as [gs Hgs]|destruct (IH true s') as [gs Hgs]|];
        [exists (g :: gs)..|exists [g]]; rewrite Egs; cbn [exec_loop]; rewrite E, bind_ret, Eb; done.
    + exists [g]. cbn [exec_loop]. rewrite E, !bind_ret, Eb. cbn. intros ->. by rewrite Hg.
  - exists []. cbn [exec_loop]. rewrite E. apply refines_refl.
Qed.
(** ** Events *)

(** The same event, up to what blocks are. *)
Definition same_event (ev : event (list tblock)) (ev' : event (list gop)) : Prop :=
  match ev, ev' with
  | Exec stop _, Exec stop' _ => stop = stop'
  | Interrupt m, Interrupt m' | ResetInterrupt m, ResetInterrupt m' => m = m'
  | Machine.Exit, Machine.Exit => True
  | Toggle t, Toggle t' => t = t'
  | _, _ => False
  end.
Definition valid_event (ev : event (list tblock)) : Prop :=
  match ev with Exec _ bs => Forall valid_chain bs | _ => True end.
Lemma event_refines ev s : valid_event ev → ∃ ev', same_event ev ev' ∧ refines (run_event run_chain ev s) (run_event run_gops ev' s).
Proof.
  destruct ev as [stop bs|m|m| |t]; cbn [valid_event]; intros Hv.
  - cbn [run_event]. unfold cpu_exec. cbv zeta. destruct (truth (halted (cpu s)) && _) eqn:Eh.
    + exists (Exec stop []). split; [done|]. cbn [run_event]. unfold cpu_exec. cbv zeta. by rewrite Eh.
    + match goal with |- context [exec_loop run_chain true bs ?s0] => destruct (loop_refines bs Hv true s0) as [gs Hgs] end.
      exists (Exec stop gs). split; [done|]. cbn [run_event]. unfold cpu_exec. cbv zeta. by rewrite Eh.
  - exists (Interrupt m). split; [done|]. apply refines_refl.
  - exists (ResetInterrupt m). split; [done|]. apply refines_refl.
  - exists Machine.Exit. split; [done|]. apply refines_refl.
  - exists (Toggle t). split; [done|]. apply refines_refl.
Qed.
Lemma events_refine evs : Forall valid_event evs → ∀ s, ∃ evs', Forall2 same_event evs evs' ∧
  refines (run_events run_chain evs s) (run_events run_gops evs' s).
Proof.
  induction 1 as [|ev evs Hev Hevs IH]; intros s.
  { exists []. split; [constructor|]. apply refines_refl. }
  destruct (event_refines ev s Hev) as (ev' & Hs & Hr). unfold refines in Hr.
  destruct (run_event run_chain ev s) as [p|f] eqn:E.
  - destruct p as [r s'|s'|s'].
    1: destruct (IH s') as (evs' & Hs' & Hr').
    2-3: destruct (IH s') as (evs' & Hs' & _).
    all: exists (ev' :: evs'); (split; [by constructor|]); cbn [run_events]; by rewrite E, Hr, !bind_ret.
  - destruct (IH s) as (evs' & Hs' & _). exists (ev' :: evs'). split; [by constructor|]. cbn [run_events].
    rewrite E. cbn. intros ->. by rewrite (Hr eq_refl).
Qed.
End machine.

(** ** Translated ARM code *)

(** Blocks of [gen_intermediate_code] for code that the decoder handles. *)
Definition translated (ops : list tcg_op) : Prop :=
  ∃ env ldl_code neon_data neon_ls iwmmxt coproc thumb tb tb_pc tbflags cflags starts size n,
    is_u32 tb_pc ∧ ARM_TBFLAG_THUMB tbflags = 0 ∧ ARM_TBFLAG_CONDEXEC tbflags = 0 ∧
    (∀ pc, pc = tb_pc ∨ tb_pc ≤ pc < u32 (page_of tb_pc + TARGET_PAGE_SIZE) → word_ok ldl_code pc) ∧
    gen_intermediate_code env ldl_code neon_data neon_ls iwmmxt coproc thumb tb tb_pc tbflags cflags =
      Ok (ops, starts, size, n).
Definition translated_event (ev : event (list tblock)) : Prop :=
  match ev with Exec _ bs => Forall (Forall (λ b, translated (tb_ops b))) bs | _ => True end.
Lemma translated_valid ops : translated ops → Forall valid_op ops.
Proof.
  intros (env & ldl & nd & nl & iw & cp & th & tb & pc & fl & cf & starts & size & n & Hpc & Hth & Hce & Hw & E).
  destruct (translation_total env ldl nd nl iw cp th tb pc fl cf Hpc Hth Hce Hw) as (ops' & st' & n' & E' & _ & _ & _ & _ & Hv).
  rewrite E in E'. by injection E' as <- _ _ _.
Qed.
Lemma translated_event_valid ev : translated_event ev → valid_event ev.
Proof.
  destruct ev as [stop bs| | | |]; [|done..]. intros Hb. eapply Forall_impl; [exact Hb|]. intros c Hc.
  eapply Forall_impl; [exact Hc|]. intros b. apply translated_valid.
Qed.

Section safe.
Context {D : Type} `{IoPorts D} `{TbCache}.
Context (fuel : nat) (retaddr : Z).
Lemma events_good evs (s : smmu D) : machine_inv s → good (run_events (run_block (S fuel) retaddr) evs s).
Proof.
  revert s. induction evs as [|ev evs IH]; intros s Hs; cbn [run_events].
  { split; [done|]. by intros p [= <-]. }
  destruct (event_good fuel retaddr ev s Hs) as [Hl Hg].
  destruct (run_event _ ev s) as [p|f]; cbn [mbind res_bind]; [|split; [by intros [= ->]|done]].
  specialize (Hg p eq_refl). destruct p as [r s'|s'|s']; [by apply IH|..]; (split; [done|]); by intros p [= <-].
Qed.

(** C7: The emulator running translated ARM code.  Any sequence of executions of
    blocks from the translator (chained or not, with their exceptions and
    interrupts), interrupt requests and switches of the tracer does what the
    machine does with some operations of guest code in their place, so that what
    is proved for that machine holds for it: nothing loops for ever, and in every
    state it gets to the software TLB is well formed and, while the tracer is on,
    the trace file and the buffer hold one record per counted miss. *)
Theorem translated_machine_refines name size set block (s : smmu D) evs :
  booted name size set block s → Forall translated_event evs →
  let run := run_events (run_chain (S fuel) retaddr) evs s in
  run ≠ Err Diverges ∧
  ∀ p, run = Ok p →
    (∃ evs', Forall2 same_event evs evs' ∧ run_events (run_block (S fuel) retaddr) evs' s = Ok p) ∧
    match p with
    | Machine.Left _ s' | Machine.Running s' => tlb_wf (tlb (cpu s')) ∧ sl_wf (trc s') ∧
        (truth (started (trc s')) = true → ∃ f recs, recording f recs (trc s'))
    | Machine.Gone _ => True
    end.
Proof.
  intros [Hs _]%booted_inv Hevs run.
  assert (Forall valid_event evs) as Hv by (eapply Forall_impl; [exact Hevs|]; apply translated_event_valid).
  destruct (events_refine (S fuel) retaddr evs Hv s) as (evs' & Hsame & Hr). fold run in Hr. unfold refines in Hr.
  destruct (events_good evs' s Hs) as [Hl Hg]. split.
  - intros E. rewrite E in Hr. by apply Hl, Hr.
  - intros p E. rewrite E in Hr. split; [by exists evs'|]. specialize (Hg p Hr).
    destruct p as [r s'|s'|s']; [..|done]; destruct Hg as [Hc Ht]; (split; [apply Hc|exact Ht]).
Qed.
End safe.

(** msr cpsr_c, #0x10; mov r0, #0x5000; ldr r1, [r0]; swi 0, over and over: a
    block that enters user mode, and one that loads. *)
Definition demo_program (pc : Z) : res Z :=
  Ok (nth (Z.to_nat (pc / 4 mod 4)) [0xe321f010; 0xe3a00a05; 0xe5901000; 0xef000000] 0).
Definition demo_ops (tb_pc tbflags : Z) : list tcg_op :=
  match gen_intermediate_code a8_cpu demo_program no_coproc no_coproc no_coproc no_coproc illegal_op
    0x7F0000 tb_pc tbflags 0 with Ok (ops, _, _, _) => ops | Err _ => [] end.
Definition demo_translated_events : list (event (list tblock)) :=
  [Toggle demo_tm;
   Exec false [[mkTblock (demo_ops 0x8000 64) (λ _, false)]; [mkTblock (demo_ops 0x8004 0) (λ _, false)]]].
Definition demo_translated_run : res (progress unit) :=
  run_events (@run_chain unit no_ports no_tbs 1 0) demo_translated_events a8_machine.
Lemma demo_ops_translated tb_pc tbflags : is_u32 tb_pc → ARM_TBFLAG_THUMB tbflags = 0 → ARM_TBFLAG_CONDEXEC tbflags = 0 →
  translated (demo_ops tb_pc tbflags).
Proof.
  intros Hpc Ht Hc. assert (∀ pc, word_ok demo_program pc) as Hw.
  { intros pc. unfold word_ok, demo_program. generalize (Z.to_nat (pc / 4 mod 4)); intros n.
    eexists. split; [reflexivity|]. do 4 (destruct n as [|n]; [vm_compute; by split_and!|]).
    destruct n; vm_compute; by split_and!. }
  destruct (translation_total a8_cpu demo_program no_coproc no_coproc no_coproc no_coproc illegal_op 0x7F0000 tb_pc tbflags 0)
    as (ops & st & n & E & _); [done..|intros pc _; apply Hw|].
  exists a8_cpu, demo_program, no_coproc, no_coproc, no_coproc, no_coproc, illegal_op, 0x7F0000, tb_pc, tbflags, 0.
  exists st, (4 * Z.of_nat n), (Z.of_nat n). split_and!; [done..|intros pc _; apply Hw|]. unfold demo_ops. by rewrite E.
Qed.
(** The second block is traced: four references, two misses. *)
Definition demo_outcome : Z * Z * Z :=
  match demo_translated_run with
  | Ok (Machine.Running s) => (miss (sl_cnt (trc s)), hit (sl_cnt (trc s)), reg (cpu s) 0)
  | _ => (0, 0, 0)
  end.
Lemma demo_translated_misses : demo_outcome = (2, 2, 0x5000).
Proof. vm_compute. reflexivity. Qed.
Lemma demo_events_translated : Forall translated_event demo_translated_events.
Proof.
  constructor; [exact I|]. constructor; [|constructor]. cbn [translated_event].
  repeat (constructor; [constructor; [by apply demo_ops_translated|constructor]|]). constructor.
Qed.
#[local] Opaque a8_machine demo_ops.
Lemma translated_machine_refines_witness :
  ∃ s', demo_translated_run = Ok (Machine.Running s') ∧ miss (sl_cnt (trc s')) = 2 ∧
    (∃ evs, Forall2 same_event demo_translated_events evs ∧
       run_events (@run_block unit no_ports no_tbs 1 0) evs a8_machine = Ok (Machine.Running s')) ∧
    (truth (started (trc s')) = true → ∃ f recs, recording f recs (trc s')).
Proof.
  destruct (@translated_machine_refines unit no_ports no_tbs 0 0 "cortex-a8" 4 2 TlbTraceFacts.demo_block a8_machine
    demo_translated_events a8_booted demo_events_translated) as [_ Hp].
  pose proof demo_translated_misses as Hm. unfold demo_outcome in Hm.
  destruct demo_translated_run as [[r s'|s'|s']|f] eqn:E; [discriminate Hm| |discriminate Hm..].
  destruct (Hp (Machine.Running s') E) as (Hevs & _ & _ & Hrec). injection Hm as Hm _ _.
  exists s'. split; [reflexivity|]. split; [exact Hm|]. split; [exact Hevs|exact Hrec].
Defined.
